(* ===== verification/_CoqProject ===== *)
-Q . S2P
Prelude.v
ParserTable.v
Parser.v
Sequence.v
Sort.v
StrongHash.v
Chains.v
LruSpec.v
LruHashtable.v
LruCache.v
Trie.v
Functions.v
Ring.v
Color.v
Modes.v
Base64.v
Text.v
Hyperlinks.v
Cell.v
Line.v
Grid.v
Reflow.v
Sgr.v
VTWriter.v
Charset.v
Screen.v
Resize.v
ScreenEdit.v
ScreenText.v
Dispatch.v
Sixel.v
SixelSpec.v
SixelImage.v
Input.v
InputSpec.v
Terminal.v
TerminalResize.v
Selection.v
Viewport.v
ViInput.v
ViCommands.v
CLI.v
Capabilities.v
Reports.v
OscColors.v
Requests.v
StatusLine.v
Bindings.v
