(* ===== verification/Prelude.v ===== *)
(** * A verification development for the contour terminal backend

    Contour is a terminal emulator.  Bytes from the application pass through
    three stages under src/: vtparser turns them into events, vtbackend turns
    the events into VT sequences, selects the function each of them denotes
    and applies it to a screen, and the screen keeps its lines in a grid.  The
    development follows this path from the byte stream down to the cells.

    ** Files, in dependency order

    - Prelude.v: machine integers, the pipe notation, the tactics [len],
      [len_lia], [zbool] and [nbool], the hint database [vt].
    - ParserTable.v: vtparser/Parser.h and Parser-impl.h, the states, actions
      and inputs, and the transition table built by the same calls as
      [ParserTable::get].
    - Parser.v: vtparser/Parser-impl.h, class Parser: one byte through the
      state machine, the bulk-text fast path, the fragment loop.  The listener
      is the class [ParserEvents], libunicode the class [LibUnicode] with the
      laws its header documents ([LibUnicodeLaws]).
    - Sequence.v: vtbackend/Sequence.h, SequenceBuilder.h and
      vtparser/ParserExtension.h: the parameter array and its builder, the
      sequence object, the handlers of all parser events (module
      SequenceBuilder), string collectors.  The builder is an instance of
      [ParserEvents]; the screen behind it is the class [SequenceHandler].
    - Sort.v: crispy/sort.h, the in-place quicksort.
    - StrongHash.v, Chains.v, LruSpec.v, LruHashtable.v: crispy/StrongHash.h,
      FNV.h and StrongLRUHashtable.h: the hash, collision chains and LRU chain
      over one array of entries, the list of bindings both caches implement,
      and the hash table with its statistics, in a small error-state monad.
    - LruCache.v: crispy/LRUCache.h, the map of iterators into a list.
    - Trie.v: crispy/TrieMap.h, prefix search with a wildcard.
    - Functions.v: vtbackend/Functions.h, Functions.cpp, VTType.h: the table
      of all functions (module Fn), their order, identifiers, the binary
      search [select], and the set of active functions with its enabling and
      disabling ([SupportedSequences]); from Terminal.cpp the switch of
      DECLRMM.
    - Ring.v: crispy/ring.h, a storage vector with a zero index; [view] is the
      sequence it stands for.
    - Color.v: vtbackend/Color.h, Color.cpp, ColorPalette.h, ColorPalette.cpp:
      packed colours, their text forms, the default palette, resolution.
    - Modes.v: the mode numbers of vtbackend/primitives.h and Screen.cpp, class
      Modes of Terminal.h with freezing and saving, and the mode reports.
    - Base64.v, Text.v: crispy/base64.h, escape.h and the text functions of
      utils.h: encoder and decoder state machines, escaping, splitting,
      key-value pairs, variable replacement.
    - Hyperlinks.v: vtbackend/Hyperlink.h and the OSC 8 handlers, over the
      cache of LruCache.v.
    - Cell.v: crispy/flags.h, vtbackend/CellFlags.h, CellUtil.h,
      GraphicsAttributes.h and cell/: flags and SGR renditions, the two cell
      implementations (modules SimpleCell and CompactCell) and the interface
      [CellConcept] with its laws [CellLaws], instantiated by both.
    - Line.v: vtbackend/Line.h, Line.cpp: trivial and inflated lines,
      inflation, reset, fill, resize, reflow, flags, text search, against
      [CellConcept].
    - Grid.v: vtbackend/Grid.h, Grid.cpp: page and history in one ring of
      lines; creation, history limits, scrolling with and without margins,
      wrapping, growing and shrinking of lines and columns.  [page], [history]
      and [contents] are the abstract grid.
    - Reflow.v: the contents theorems of Grid.v's column reflow.
    - Sgr.v: the SGR part of vtbackend/Screen.cpp: [applySGR] with its colour
      notations, over the targets it is used with (class [SgrTarget]), and the
      printer [vtSequenceParameterString].
    - VTWriter.v: vtbackend/VTWriter.h, VTWriter.cpp, the text of a line, and
      [Screen::screenshot]; its output is read back through Sgr.v.
    - Charset.v: vtbackend/Charset.h, Charset.cpp: the national tables, the
      designated tables, locking and single shifts.
    - Screen.v: vtbackend/Screen.h, Screen.cpp, Cursor.h and the margins and
      modes of Terminal.cpp: the screen's state with its cached line pointer,
      coordinates, cursor motion, line feeds and indexes, tabs, margins, modes,
      saving and restoring, resizing.
    - Resize.v: that a resize of a screen always gets through.
    - ScreenEdit.v: the erasing, inserting, deleting, rectangle and alignment
      operations of Screen.cpp, through the cached line and the grid as there.
    - ScreenText.v: writing text of Screen.cpp, code point by code point and in
      bulk; what it relies on of cells is the class [TextCells], instantiated
      by both cell types.
    - Dispatch.v: the switch of [Screen::apply], [processSequence] and
      [executeControlCode]; a [Session] is the screen with the supported
      sequences of its terminal, and a handler of the sequence builder.
    - Sixel.v, SixelSpec.v, SixelImage.v: vtbackend/SixelParser.h,
      SixelParser.cpp and [Screen::hookSixel]: the parser, the palette, the
      image builder over its byte buffer, the colour arithmetic in IEEE single
      precision; then what a sixel text says, and the picture it draws.
    - Input.v, InputSpec.v: vtbackend/InputGenerator.h, InputGenerator.cpp:
      both keyboard generators, mouse protocols and transports, pastes and
      the queue of bytes; then the reports read back by Parser.v and
      Sequence.v.
    - Terminal.v, TerminalResize.v: vtbackend/Terminal.h, Terminal.cpp: the four
      screens with the margins, tab stops and modes they share (a screen is
      loaded with the shared state, runs its operation, and the state is taken
      back), the effects of every mode, switching screens, status displays,
      resizing, resets, the palette stack and titles.
    - Selection.v: vtbackend/Selector.h, Selector.cpp: the four selections
      against the class [SelectionHelper] of what they ask of the screen.
    - Viewport.v: vtbackend/Viewport.h, Viewport.cpp, JumpHistory.h,
      JumpHistory.cpp, the marker search of Screen.cpp and
      [Terminal::onBufferScrolled], over the grid of Grid.v.
    - ViInput.v: vtbackend/ViInputHandler.h, ViInputHandler.cpp: the command
      maps in the trie of Trie.v, pending input, counts, modes and the search
      editor; the executor's calls are recorded.
    - ViCommands.v: vtbackend/ViCommands.h, ViCommands.cpp: the motions, text
      objects and jumps those calls stand for, over the lines of Grid.v, and
      the cursor that moves viewport and selection; every loop is a [while]
      with fuel.  The terminal's text search is the class [ViSearch].
    - CLI.v: crispy/CLI.h, CLI.cpp: the tree of commands and options and the
      parser of command lines; [std::stod] is a parameter.
    - Capabilities.v: vtbackend/Capabilities.h, Capabilities.cpp and XTGETTCAP:
      the termcap and terminfo database with its entries, and the replies.
    - Reports.v: the reports of vtbackend/Screen.cpp: device status and
      attributes, the cursor, DECRQSS, tab stops, and captureBuffer.
    - OscColors.v: OSC 4 and 104 and the dynamic colours, with their replies.
    - Requests.v: XTSMGRAPHICS, fonts, the clipboard, notifications.
    - StatusLine.v: crispy/interpolated_string.cpp and
      vtbackend/StatusLineBuilder.cpp: descriptions of the status line, their
      items and their rendering; what they show is an input.
    - Bindings.v: vtbackend/MatchModes.h, InputBinding.h and the search for a
      binding in contour/Config.h.

    State is passed explicitly; an operation that can run into undefined
    behaviour, a failed Require or an exception returns an option.  Integers
    are Z with the wrap-around of their width written out where the code can
    reach it ([u8], [u16], [u64]); sizes are below 2^32.  Loops are structural
    or have fuel: the fragment loop needs one unit per byte
    (parseFragment_terminates shows it is enough), the binary search and the
    wrapping loop one per element (select_active_correct and
    addNewWrappedLines_correct return results, not only partial ones), the
    quicksort its range's length, the word loops of a selection the number of
    cells (extendSelectionBackward_path and extendSelectionForward_path return
    results from it), the loops of vi motions the cells, lines or columns of
    the grid ([while_total] turns a measure into a result), the hash table's
    chains the number of entries.

    ** What is proved

    The doc comment of a property states all its conditions; an Example beside
    it shows what happens without one where the code fails there.

    - Parser: the events of any fragmented byte stream follow the listener
      protocol (a refinement of a protocol automaton), the fast path agrees
      with the state machine, parsing terminates, CAN, SUB and ESC cancel from
      every state.
    - Sequences: a CSI or OSC sequence written out byte by byte reaches the
      handler with exactly its leader, parameters, sub-parameters,
      intermediates, final byte and text; what happens beyond 16 parameters.
    - Functions: sorting and searching are correct in every reachable
      configuration; identifiers are unique; DECSLRM and SCOSC exclude each
      other.
    - Storage: the ring refines a sequence; compact cells refine simple ones
      operation by operation, writes and copies under conditions on what was
      there before; SGR flags stay exclusive; colours
      round-trip.
    - End to end: the bytes of any list of control sequences, read by the
      parser, reach the screen as the operations they spell, through builder,
      selection and dispatch.
    - Screen: cursor, tab, margin, mode and save operations keep the screen
      valid in any order; DECRC undoes everything since DECSC; erasing blanks
      exactly the cells named; ICH and DCH shift within the margins outside
      of origin mode; DECCRA copies overlapping rectangles; a character written
      repairs wide characters around it, but not at the right edge; the bulk
      text paths cannot be told from printing byte by byte while no wrap and no
      single shift is pending.
    - SGR: a sequence in any notation applies exactly the renditions it spells,
      and printed attributes read back; a single shift holds for one graphic.
    - Lines and grid: reflow, inflation and search of a line; wrapping a
      logical line loses nothing; scrolling up and changing the number of
      lines transform history and page as sequences; reflowing to another
      width keeps the text of history and page, to a smaller width if all lines
      may wrap; the states in which scrolling
      down, growing and shrinking do not behave as intended.
    - Caches and codecs: both LRU caches answer every sequence of operations
      as a list of bindings in the order of use does, and what was used stays
      for as long as the capacity says; base64, escaping and key-value texts
      round-trip; hyperlink ids resolve; a trie answers as its bindings say.
    - Sixel: the text of any sixel commands is read as these commands, and the
      builder's buffer is the picture they draw if they stay inside the
      canvas, set its size first and draw more than one row; the inputs that
      write past the buffer, scatter or lose the picture.
    - Input: mouse reports in the SGR encoding and key reports without event
      types are read back by the parser; generated bytes reach the application
      once and in order.
    - Screenshots: what the writer prints of a page reads back as the cells'
      text with their colours and boldness, repetitions left out included, for
      the colours it can spell and lines of text that are not bold.
    - Selections: rendering visits exactly what is contained, in order; a word
      selection ends at delimiters; full lines are whole logical lines.
    - Viewport: it stays within the history under any operations, makes lines
      visible, finds the nearest mark, and text that scrolls under it stays
      while the ring is full or has room.
    - Terminal: the primary screen survives what an application does on the
      alternate one, outside of origin mode and while the status line is not
      shown or hidden; a hard reset gets through, and what it resets and what
      it leaves of screens, modes, palette and input; a resize of the window to
      any size passes every check while output goes to the main display; saved
      mode bits come back under any nesting.
    - Vi input: every registered command but the escape of visual mode can be
      typed, with a count, and runs once, the dot being no digit and one byte;
      the pending input is always the beginning of a command.
    - Vi commands: the motions but jumps end on a cell of the grid and show it,
      with the states in which they do not; % finds the matching bracket and comes
      back.
    - Command line: settings written in any mixture of the notations read back
      as those settings; an accepted command line has its required options.
    - Reports: what is reported of the cursor and of renditions SGR can express
      restores them when sent back; a capture of physical lines without gaps is
      their text, in bounded messages; flags and strings of the capability
      tables are answered one by one, in the encoding documented.
    - Requests: palette requests do what they say in order, and replies carry
      the colours exactly; colour registers stay within their limit; a text sent
      to the clipboard is the text copied.
    - Configuration: a status line description reads back as its items but for
      the trace mode; a
      binding applies exactly in the states its modes describe.

    ** Not modelled

    libunicode is a parameter.  Left out are logging, debug assertions of
    parts other than screens and terminal, and everything that is I/O, timing,
    fonts, GPU or GUI: devices and processes (vtpty), text shaping and
    rasterising, the Qt application with its YAML configuration.  Of vtbackend
    the render buffer builder, image storage, text search across lines, and of
    Terminal.cpp the reading loop, blinking and tracing are not modelled;
    scrolling within left and right margins is defined in Grid.v with few
    theorems.  Usage and help texts of the command line are left out. *)
From Stdlib Require Export ZArith Lia.
From stdpp Require Export base numbers tactics.
From stdpp Require Export list.
From stdpp Require Import sorting.

#[export] Set Default Goal Selector "!".

Open Scope Z_scope.

Declare Scope vt_scope.
Delimit Scope vt_scope with vt.

(** [t |> f] applies a setup step to a value, so that a C++ sequence of
    calls on one object reads top to bottom. *)
Notation "t |> f" := (f t) (at level 61, left associativity, only parsing) : vt_scope.
Open Scope vt_scope.

(** ** Machine integers *)

Definition u8 (z : Z) : Z := z mod 2 ^ 8.
Definition u16 (z : Z) : Z := z mod 2 ^ 16.
Definition u32 (z : Z) : Z := z mod 2 ^ 32.
Definition u64 (z : Z) : Z := z mod 2 ^ 64.

Lemma u64_small z : 0 <= z < 2 ^ 64 -> u64 z = z.
Proof. apply Z.mod_small. Qed.

Lemma u64_succ z : u64 (u64 z + 1) = u64 (z + 1).
Proof. unfold u64. by rewrite Z.add_mod_idemp_l. Qed.

(** A byte read as a signed [char] (x86 and ARM/macOS ABI of the builds). *)
Definition schar (z : Z) : Z := if z <? 128 then z else z - 256.

(** A remainder of a sum that passes the modulus at most once. *)
Lemma mod_wrap a s : 0 < s -> 0 <= a < 2 * s ->
  a mod s = if a <? s then a else a - s.
Proof.
  intros Hs Ha. destruct (Z.ltb_spec a s); [apply Z.mod_small; lia|].
  symmetry. apply (Z.mod_unique _ _ 1); lia.
Qed.

(** A fact about small integers, by trying them all. *)
Lemma for_all_below n (P : Z -> bool) : forallb P (seqZ 0 n) = true -> forall z, 0 <= z < n -> P z = true.
Proof.
  intros Hall z Hz. apply (proj1 (forallb_forall P _) Hall), list_elem_of_In, elem_of_seqZ. lia.
Qed.

Lemma for_all_below2 n m (P : Z -> Z -> bool) :
  forallb (fun a => forallb (P a) (seqZ 0 m)) (seqZ 0 n) = true ->
  forall a b, 0 <= a < n -> 0 <= b < m -> P a b = true.
Proof.
  intros Hall a b Ha Hb. apply (for_all_below m); [|done].
  by apply (for_all_below n (fun a => forallb (P a) (seqZ 0 m))).
Qed.

(** ** Decimal numbers *)

Definition digits (ds : list Z) : Prop := Forall (fun d => 0x30 <= d <= 0x39) ds.

(** The number a digit string denotes. *)
Definition decimal (ds : list Z) : Z := foldl (fun acc d => acc * 10 + (d - 0x30)) 0 ds.

(** [std::to_string] of an unsigned number below 10^10. *)
Fixpoint to_digits (fuel : nat) (v : Z) : list Z :=
  match fuel with
  | O => []
  | S fuel => (if v <? 10 then [] else to_digits fuel (v / 10)) ++ [0x30 + v mod 10]
  end.
Definition to_string (v : Z) : list Z := to_digits 10 v.

Lemma to_digits_spec fuel v : 0 <= v < 10 ^ Z.of_nat fuel -> (0 < fuel)%nat ->
  digits (to_digits fuel v) /\ decimal (to_digits fuel v) = v /\ to_digits fuel v <> [].
Proof.
  revert v. induction fuel as [|fuel IH]; intros v Hv Hf; [lia|].
  assert (Hm : 0 <= v mod 10 < 10) by (apply Z.mod_pos_bound; lia).
  simpl. destruct (Z.ltb_spec v 10).
  - rewrite Z.mod_small in * by lia. split_and!; [repeat constructor; lia|unfold decimal; simpl; lia|done].
  - rewrite Nat2Z.inj_succ, Z.pow_succ_r in Hv by lia.
    assert (Hdm : v = 10 * (v / 10) + v mod 10) by (apply Z.div_mod; lia).
    destruct fuel as [|fuel]; [simpl in Hv; lia|].
    destruct (IH (v / 10)) as (Hd & He & _); [lia|lia|].
    split_and!.
    + apply Forall_app. split; [done|]. repeat constructor; lia.
    + unfold decimal in *. rewrite foldl_app, He. simpl. lia.
    + intros E. apply app_eq_nil in E as [_ E]. done.
Qed.

Lemma to_string_spec v : 0 <= v < 2 ^ 16 ->
  digits (to_string v) /\ u16 (decimal (to_string v)) = v /\ to_string v <> [].
Proof.
  intros Hv. destruct (to_digits_spec 10 v) as (Hd & He & Hn); [simpl; lia|lia|].
  unfold to_string. rewrite He. split_and!; [done|by apply Z.mod_small|done].
Qed.

(** ** Automation

    The [vt] database collects the preservation lemmas of the components'
    invariants; [len] normalises list lengths before [lia]. *)

Create HintDb vt.

Ltac len :=
  repeat rewrite ?length_app, ?length_drop, ?length_take, ?length_replicate,
    ?length_insert, ?length_seqZ, ?length_fmap, ?length_cons in *.
Ltac len_lia := len; simpl length in *; lia.

(** Decides every integer comparison of the goal that [lia] can settle. *)
Ltac zbool :=
  repeat match goal with
  | |- context [Z.leb ?a ?b] =>
      first [rewrite (proj2 (Z.leb_le a b)) by lia | rewrite (proj2 (Z.leb_gt a b)) by lia]
  | |- context [Z.ltb ?a ?b] =>
      first [rewrite (proj2 (Z.ltb_lt a b)) by lia | rewrite (proj2 (Z.ltb_ge a b)) by lia]
  | |- context [Z.eqb ?a ?b] =>
      first [rewrite (proj2 (Z.eqb_eq a b)) by lia | rewrite (proj2 (Z.eqb_neq a b)) by lia]
  end.

(** The same for natural numbers. *)
Ltac nbool :=
  repeat match goal with
  | |- context [Nat.leb ?a ?b] =>
      first [rewrite (proj2 (Nat.leb_le a b)) by lia | rewrite (proj2 (Nat.leb_gt a b)) by lia]
  | |- context [Nat.ltb ?a ?b] =>
      first [rewrite (proj2 (Nat.ltb_lt a b)) by lia | rewrite (proj2 (Nat.ltb_ge a b)) by lia]
  | |- context [Nat.eqb ?a ?b] =>
      first [rewrite (proj2 (Nat.eqb_eq a b)) by lia | rewrite (proj2 (Nat.eqb_neq a b)) by lia]
  end.

(** ** Sequences of numbers are sorted *)

Lemma seq_sorted k n : StronglySorted lt (seq k n).
Proof.
  revert k. induction n as [|n IH]; intros k; cbn; constructor; [apply IH|].
  apply Forall_forall. intros x Hx. apply elem_of_seq in Hx. lia.
Qed.

Lemma seqZ_sorted k n : StronglySorted Z.lt (seqZ k n).
Proof. eapply StronglySorted_fmap; [|apply seq_sorted]. intros x y ?. cbn. lia. Qed.
