(* ===== verification/ParserTable.v ===== *)
(** * The VT parser tables: the enums of [vtparser/Parser.h] and [struct ParserTable]
    of [vtparser/Parser-impl.h], built by the same calls in the same order. *)
From S2P Require Import Prelude.

(** ** Data types of [Parser.h] *)

(** [enum class State]. *)
Inductive State :=
| Undefined
| Ground
| Escape
| EscapeIntermediate
| CSI_Entry
| CSI_Param
| CSI_Intermediate
| CSI_Ignore
| DCS_Entry
| DCS_Param
| DCS_Intermediate
| DCS_PassThrough
| DCS_Ignore
| OSC_String
| APC_String
| PM_String
| IgnoreUntilST.

#[export] Instance State_eq_dec : EqDecision State.
Proof. solve_decision. Defined.

(** [static_cast<size_t>(state)]. *)
Definition State_index (s : State) : nat :=
  match s with
  | Undefined => 0 | Ground => 1 | Escape => 2 | EscapeIntermediate => 3
  | CSI_Entry => 4 | CSI_Param => 5 | CSI_Intermediate => 6 | CSI_Ignore => 7
  | DCS_Entry => 8 | DCS_Param => 9 | DCS_Intermediate => 10 | DCS_PassThrough => 11
  | DCS_Ignore => 12 | OSC_String => 13 | APC_String => 14 | PM_String => 15
  | IgnoreUntilST => 16
  end%nat.

(** The states from [numeric_limits<State>::min()] (which skips [Undefined])
    to [numeric_limits<State>::max()]: the range of the [anywhere] loop. *)
Definition anywhere_states : list State :=
  [Ground; Escape; EscapeIntermediate; CSI_Entry; CSI_Param; CSI_Intermediate;
   CSI_Ignore; DCS_Entry; DCS_Param; DCS_Intermediate; DCS_PassThrough; DCS_Ignore;
   OSC_String; APC_String; PM_String; IgnoreUntilST].

(** [enum class ActionClass]. *)
Inductive ActionClass := Enter | Event_ | Leave | Transition.

(** [enum class Action] ([Action_Undefined] is [Action::Undefined]). *)
Inductive Action :=
| Action_Undefined
| Ignore
| Print
| PrintEnd
| Execute
| Clear
| Collect
| CollectLeader
| Param
| ParamDigit
| ParamSeparator
| ParamSubSeparator
| ESC_Dispatch
| CSI_Dispatch
| Hook
| Put
| Unhook
| APC_Start
| APC_Put
| APC_End
| PM_Start
| PM_Put
| PM_End
| OSC_Start
| OSC_Put
| OSC_End
| GroundStart.

#[export] Instance Action_eq_dec : EqDecision Action.
Proof. solve_decision. Defined.

(** ** The parser table: [struct ParserTable] *)

(** One argument of the variadic [event]: a byte or a [Range]. *)
Inductive Input := B (b : Z) | R (first last : Z).

(** The bytes the loop [for (ch = first; ch <= last; ++ch)] visits. *)
Definition Input_bytes (i : Input) : list Z :=
  match i with
  | B b => [b]
  | R first last => seqZ first (last - first + 1)
  end.

Record ParserTable := mkParserTable {
  transitions : list (list State);
  entryEvents : list Action;
  exitEvents : list Action;
  events : list (list Action)
}.

Definition numStates : nat := 17.
Definition numActions : nat := 19.

(** [ParserTable {}]: aggregate initialisation sets [transitions[0][0]] to
    [Ground] and value-initialises every other element ([Undefined] is 0). *)
Definition ParserTable_init : ParserTable := {|
  transitions :=
    (Ground :: replicate 255 Undefined) :: replicate (numStates - 1) (replicate 256 Undefined);
  entryEvents := replicate numActions Action_Undefined;
  exitEvents := replicate numActions Action_Undefined;
  events := replicate numActions (replicate 256 Action_Undefined)
|}.

(** [m[i][j] = x]. *)
Definition set2 {A} (i j : nat) (x : A) (m : list (list A)) : list (list A) :=
  alter (fun row => <[j := x]> row) i m.

Definition entry (s : State) (a : Action) (t : ParserTable) : ParserTable :=
  mkParserTable (transitions t) (<[State_index s := a]> (entryEvents t)) (exitEvents t) (events t).

Definition exit (s : State) (a : Action) (t : ParserTable) : ParserTable :=
  mkParserTable (transitions t) (entryEvents t) (<[State_index s := a]> (exitEvents t)) (events t).

Definition event1 (s : State) (a : Action) (t : ParserTable) (input : Z) : ParserTable :=
  mkParserTable (transitions t) (entryEvents t) (exitEvents t)
    (set2 (State_index s) (Z.to_nat input) a (events t)).

(** The variadic [event]: every argument in order, every byte of a range in
    ascending order. *)
Definition event (s : State) (a : Action) (inputs : list Input) (t : ParserTable) : ParserTable :=
  foldl (event1 s a) t (mjoin (Input_bytes <$> inputs)).

Definition transition1 (from to : State) (t : ParserTable) (input : Z) : ParserTable :=
  mkParserTable (set2 (State_index from) (Z.to_nat input) to (transitions t))
    (entryEvents t) (exitEvents t) (events t).

(** [transition(from, to, action, input)]. *)
Definition transition_action (from to : State) (a : Action) (input : Input) (t : ParserTable)
    : ParserTable :=
  foldl (transition1 from to) (event from a [input] t) (Input_bytes input).

(** [transition(from, to, input)]: the transition without an action. *)
Definition transition (from to : State) (input : Input) (t : ParserTable) : ParserTable :=
  foldl (transition1 from to) (event from Ignore [input] t) (Input_bytes input).

Definition UnicodeRange : Input := R 0x80 0xFF.

(** One turn of the loop over [anywhere]. *)
Definition anywhere_transitions (t : ParserTable) (anywhere : State) : ParserTable :=
  t |> transition anywhere Ground (B 0x18)
    |> transition anywhere Ground (B 0x1A)
    |> transition anywhere Escape (B 0x1B).

(** [ParserTable::get], the part from [Ground] to [IgnoreUntilST]. *)
Definition ParserTable_get_escape (t : ParserTable) : ParserTable :=
  t
  (* Ground *)
  |> entry Ground GroundStart
  |> event Ground Execute [R 0x00 0x17; B 0x19; R 0x1C 0x1F]
  |> event Ground Print [R 0x20 0x7F]
  |> event Ground Print [R 0xA0 0xFF]
  |> event Ground Print [UnicodeRange]
  |> exit Ground PrintEnd
  (* EscapeIntermediate *)
  |> event EscapeIntermediate Execute [R 0x00 0x17; B 0x19; R 0x1C 0x1F]
  |> event EscapeIntermediate Collect [R 0x20 0x2F]
  |> event EscapeIntermediate Ignore [B 0x7F]
  |> transition_action EscapeIntermediate Ground ESC_Dispatch (R 0x30 0x7E)
  (* Escape *)
  |> entry Escape Clear
  |> event Escape Execute [R 0x00 0x17; B 0x19; R 0x1C 0x1F]
  |> event Escape Ignore [B 0x7F]
  |> transition Escape IgnoreUntilST (B 0x58)
  |> transition Escape PM_String (B 0x5E)
  |> transition Escape APC_String (B 0x5F)
  |> transition Escape DCS_Entry (B 0x50)
  |> transition Escape OSC_String (B 0x5D)
  |> transition Escape CSI_Entry (B 0x5B)
  |> transition_action Escape Ground ESC_Dispatch (R 0x30 0x4F)
  |> transition_action Escape Ground ESC_Dispatch (R 0x51 0x57)
  |> transition_action Escape Ground ESC_Dispatch (B 0x59)
  |> transition_action Escape Ground ESC_Dispatch (B 0x5A)
  |> transition_action Escape Ground Ignore (B 0x5C)
  |> transition_action Escape Ground ESC_Dispatch (R 0x60 0x7E)
  |> transition_action Escape EscapeIntermediate Collect (R 0x20 0x2F)
  (* IgnoreUntilST *)
  |> event IgnoreUntilST Ignore [R 0x00 0x17; B 0x19; R 0x1C 0x1F].

(** [ParserTable::get], the device control string states. *)
Definition ParserTable_get_dcs (t : ParserTable) : ParserTable :=
  t
  (* DCS_Entry *)
  |> entry DCS_Entry Clear
  |> event DCS_Entry Ignore [R 0x00 0x17; B 0x19; R 0x1C 0x1F]
  |> event DCS_Entry Ignore [B 0x7F]
  |> transition_action DCS_Entry DCS_Intermediate Collect (R 0x20 0x2F)
  |> transition DCS_Entry DCS_Ignore (B 0x3A)
  |> transition_action DCS_Entry DCS_Param Param (R 0x30 0x39)
  |> transition_action DCS_Entry DCS_Param Param (B 0x3B)
  |> transition_action DCS_Entry DCS_Param CollectLeader (R 0x3C 0x3F)
  |> transition DCS_Entry DCS_PassThrough (R 0x40 0x7E)
  (* DCS_Ignore *)
  |> event DCS_Ignore Ignore [R 0x00 0x17; B 0x19; R 0x1C 0x1F; R 0x20 0x7F]
  |> event DCS_Ignore Print [R 0xA0 0xFF]
  |> event DCS_Ignore Print [UnicodeRange]
  (* DCS_Intermediate *)
  |> event DCS_Intermediate Ignore [R 0x00 0x17; B 0x19; R 0x1C 0x1F]
  |> event DCS_Intermediate Collect [R 0x20 0x2F]
  |> event DCS_Intermediate Ignore [B 0x7F]
  |> transition DCS_Intermediate DCS_PassThrough (R 0x40 0x7E)
  (* DCS_PassThrough *)
  |> entry DCS_PassThrough Hook
  |> event DCS_PassThrough Put [R 0x00 0x17; B 0x19; R 0x1C 0x1F; R 0x20 0x7E]
  |> event DCS_PassThrough Ignore [B 0x7F]
  |> exit DCS_PassThrough Unhook
  (* DCS_Param *)
  |> event DCS_Param Execute [R 0x00 0x17; B 0x19; R 0x1C 0x1F]
  |> event DCS_Param Param [R 0x30 0x39; B 0x3B]
  |> event DCS_Param Ignore [B 0x7F]
  |> transition DCS_Param DCS_Ignore (B 0x3A)
  |> transition DCS_Param DCS_Ignore (R 0x3C 0x3F)
  |> transition DCS_Param DCS_Intermediate (R 0x20 0x2F)
  |> transition DCS_Param DCS_PassThrough (R 0x40 0x7E).

(** [ParserTable::get], the OSC, APC and PM string states. *)
Definition ParserTable_get_strings (t : ParserTable) : ParserTable :=
  t
  (* OSC_String *)
  |> entry OSC_String OSC_Start
  |> event OSC_String Ignore [R 0x00 0x06; R 0x08 0x17; B 0x19; R 0x1C 0x1F]
  |> event OSC_String OSC_Put [R 0x20 0x7F]
  |> event OSC_String OSC_Put [R 0xA0 0xFF]
  |> event OSC_String OSC_Put [UnicodeRange]
  |> exit OSC_String OSC_End
  |> transition OSC_String Ground (B 0x07)
  (* APC_String *)
  |> entry APC_String APC_Start
  |> event APC_String APC_Put [R 0x20 0x7F]
  |> event APC_String APC_Put [R 0xA0 0xFF]
  |> event APC_String APC_Put [UnicodeRange]
  |> exit APC_String APC_End
  |> transition APC_String Ground (B 0x07)
  (* PM_String *)
  |> entry PM_String PM_Start
  |> event PM_String PM_Put [R 0x00 0x17; B 0x19; R 0x1C 0x1F; R 0x20 0x7F; R 0xA0 0xFF]
  |> event PM_String PM_Put [UnicodeRange]
  |> exit PM_String PM_End
  |> transition PM_String Ground (B 0x07).

(** [ParserTable::get], the control sequence states. *)
Definition ParserTable_get_csi (t : ParserTable) : ParserTable :=
  t
  (* CSI_Entry *)
  |> entry CSI_Entry Clear
  |> event CSI_Entry Execute [R 0x00 0x17; B 0x19; R 0x1C 0x1F]
  |> event CSI_Entry Ignore [B 0x7F]
  |> transition_action CSI_Entry Ground CSI_Dispatch (R 0x40 0x7E)
  |> transition_action CSI_Entry CSI_Intermediate Collect (R 0x20 0x2F)
  |> transition CSI_Entry CSI_Ignore (B 0x3A)
  |> transition_action CSI_Entry CSI_Param ParamDigit (R 0x30 0x39)
  |> transition_action CSI_Entry CSI_Param ParamSeparator (B 0x3B)
  |> transition_action CSI_Entry CSI_Param CollectLeader (R 0x3C 0x3F)
  (* CSI_Param *)
  |> event CSI_Param Execute [R 0x00 0x17; B 0x19; R 0x1C 0x1F]
  |> event CSI_Param ParamDigit [R 0x30 0x39]
  |> event CSI_Param ParamSubSeparator [B 0x3A]
  |> event CSI_Param ParamSeparator [B 0x3B]
  |> event CSI_Param Ignore [B 0x7F]
  |> transition CSI_Param CSI_Ignore (R 0x3C 0x3F)
  |> transition_action CSI_Param CSI_Intermediate Collect (R 0x20 0x2F)
  |> transition_action CSI_Param Ground CSI_Dispatch (R 0x40 0x7E)
  (* CSI_Ignore *)
  |> event CSI_Ignore Execute [R 0x00 0x17; B 0x19; R 0x1C 0x1F]
  |> event CSI_Ignore Ignore [R 0x20 0x3F; B 0x7F]
  |> transition CSI_Ignore Ground (R 0x40 0x7E)
  (* CSI_Intermediate *)
  |> event CSI_Intermediate Execute [R 0x00 0x17; B 0x19; R 0x1C 0x1F]
  |> event CSI_Intermediate Collect [R 0x20 0x2F]
  |> event CSI_Intermediate Ignore [B 0x7F]
  |> transition CSI_Intermediate CSI_Ignore (R 0x30 0x3F)
  |> transition_action CSI_Intermediate Ground CSI_Dispatch (R 0x40 0x7E).

(** [ParserTable::get]. *)
Definition ParserTable_get : ParserTable :=
  foldl anywhere_transitions
    (ParserTable_init |> ParserTable_get_escape |> ParserTable_get_dcs
                      |> ParserTable_get_strings |> ParserTable_get_csi)
    anywhere_states.

(** [Table.transitions[s][ch]], [Table.events[s][ch]],
    [Table.entryEvents[s]] and [Table.exitEvents[s]]. *)
Definition Table_transition (t : ParserTable) (s : State) (ch : Z) : State :=
  default Undefined (transitions t !! State_index s ≫= fun row => row !! Z.to_nat ch).
Definition Table_event (t : ParserTable) (s : State) (ch : Z) : Action :=
  default Action_Undefined (events t !! State_index s ≫= fun row => row !! Z.to_nat ch).
Definition Table_entry (t : ParserTable) (s : State) : Action :=
  default Action_Undefined (entryEvents t !! State_index s).
Definition Table_exit (t : ParserTable) (s : State) : Action :=
  default Action_Undefined (exitEvents t !! State_index s).

(** ** Reading the table *)

(** The transition and the action of a (state, byte) pair. *)
Definition row (s : State) (ch : Z) : State * Action :=
  (Table_transition ParserTable_get s ch, Table_event ParserTable_get s ch).

Lemma row_eq s ch t a :
  row s ch = (t, a) ->
  Table_transition ParserTable_get s ch = t /\ Table_event ParserTable_get s ch = a.
Proof. apply pair_equal_spec. Qed.

(** A row that is constant on a byte range, by evaluation of the table. *)
Lemma row_range s lo hi v ch :
  forallb (fun b => bool_decide (row s b = v)) (seqZ lo (hi - lo + 1)) = true ->
  lo <= ch <= hi ->
  row s ch = v.
Proof.
  rewrite forallb_forall. intros Hall Hch.
  apply (bool_decide_eq_true_1 _), Hall, list_elem_of_In, elem_of_seqZ. lia.
Qed.

(** A property of every row, by evaluation of the table. *)
Lemma row_forall (P : State -> Z -> bool) s ch :
  forallb (fun s => forallb (P s) (seqZ 0 256)) anywhere_states = true ->
  s ≠ Undefined ->
  0 <= ch < 256 ->
  P s ch = true.
Proof.
  rewrite forallb_forall. intros Hall Hs Hch.
  assert (Hin : In s anywhere_states).
  { destruct s; try congruence; simpl; tauto. }
  specialize (Hall _ Hin). rewrite forallb_forall in Hall.
  apply Hall, list_elem_of_In, elem_of_seqZ. lia.
Qed.

(** [solve_row lo hi] proves [row s ch = v] for [lo <= ch <= hi]. *)
Ltac solve_row lo hi :=
  apply (row_range _ lo hi); [vm_compute; reflexivity | lia].

(** The entry and exit actions of the finished table. *)
Definition exit_action (s : State) : Action :=
  match s with
  | Ground => PrintEnd
  | DCS_PassThrough => Unhook
  | OSC_String => OSC_End
  | APC_String => APC_End
  | PM_String => PM_End
  | _ => Action_Undefined
  end.

Definition entry_action (s : State) : Action :=
  match s with
  | Ground => GroundStart
  | Escape | CSI_Entry | DCS_Entry => Clear
  | DCS_PassThrough => Hook
  | OSC_String => OSC_Start
  | APC_String => APC_Start
  | PM_String => PM_Start
  | _ => Action_Undefined
  end.

Lemma Table_exit_action s : Table_exit ParserTable_get s = exit_action s.
Proof. destruct s; vm_compute; reflexivity. Qed.

Lemma Table_entry_action s : Table_entry ParserTable_get s = entry_action s.
Proof. destruct s; vm_compute; reflexivity. Qed.

#[global] Opaque ParserTable_get row.
