(* ===== verification/Parser.v ===== *)
(** * The VT parser: class [Parser] of [vtparser/Parser.h] and [Parser-impl.h]

    The listener is an argument (the C++ template parameter [EventListener]):
    any instance of [ParserEvents].  libunicode ([unicode::from_utf8],
    [unicode::scan_text]) is not part of the repository and is the class
    [LibUnicode]; what the parser relies on is [LibUnicodeLaws]. *)
From S2P Require Import Prelude ParserTable.

(** ** Events: [concept ParserEventsConcept] *)

Inductive Event :=
| Ev_error
| Ev_print (codepoint : Z)
| Ev_printText (chars : list Z) (cellCount : nat)
| Ev_printEnd
| Ev_execute (ch : Z)
| Ev_clear
| Ev_collect (ch : Z)
| Ev_collectLeader (ch : Z)
| Ev_param (ch : Z)
| Ev_paramDigit (ch : Z)
| Ev_paramSeparator
| Ev_paramSubSeparator
| Ev_dispatchESC (ch : Z)
| Ev_dispatchCSI (ch : Z)
| Ev_startOSC
| Ev_putOSC (ch : Z)
| Ev_dispatchOSC
| Ev_hook (ch : Z)
| Ev_put (ch : Z)
| Ev_unhook
| Ev_startAPC
| Ev_putAPC (ch : Z)
| Ev_dispatchAPC
| Ev_startPM
| Ev_putPM (ch : Z)
| Ev_dispatchPM.

#[export] Instance Event_eq_dec : EqDecision Event.
Proof. solve_decision. Defined.

(** A listener: the state it keeps, its reaction to an event and the query
    [maxBulkTextSequenceWidth]. *)
Class ParserEvents (L : Type) := {
  listen : L -> Event -> L;
  maxBulkTextSequenceWidth : L -> nat
}.

(** ** libunicode *)

Inductive ConvertResult := Incomplete | Invalid | Success (value : Z).

Class LibUnicode := {
  utf8_decoder_state : Type;
  utf8_init : utf8_decoder_state;
  expectedLength : utf8_decoder_state -> nat;
  from_utf8 : utf8_decoder_state -> Z -> ConvertResult * utf8_decoder_state;
  (** [scan_text decoder hint chunk maxColumns] is
      [(cellCount, subStart, subEnd, next, decoder', hint')], with the three
      pointers as offsets into [chunk]. *)
  scan_text : utf8_decoder_state -> Z -> list Z -> nat ->
              nat * nat * nat * nat * utf8_decoder_state * Z
}.

(** What [scan.h] documents of [scan_text]: it stays inside the chunk, stops
    at the first C0 control code, and returns a sub-range of the chunk. *)
Class LibUnicodeLaws `(LibUnicode) := {
  scan_text_next d h chunk m cells s e n d' h' :
    scan_text d h chunk m = (cells, s, e, n, d', h') ->
    (n <= length chunk)%nat;
  scan_text_controls d h chunk m cells s e n d' h' :
    scan_text d h chunk m = (cells, s, e, n, d', h') ->
    Forall (fun c => 0x20 <= c) (take n chunk)
}.

Section Parser.
Context `{LibUnicode} {L : Type} `{ParserEvents L}.

(** [unicode::scan_state] ([next] is [nullptr] or an offset). *)
Record scan_state := mk_scan_state {
  utf8 : utf8_decoder_state;
  lastCodepointHint : Z;
  next : option nat
}.

Definition scan_state_init : scan_state := mk_scan_state utf8_init 0 None.

(** [class Parser]. *)
Record Parser := mkParser {
  _state : State;
  _scanState : scan_state;
  _eventListener : L
}.

Definition Parser_new (l : L) : Parser := mkParser Ground scan_state_init l.

Definition emit (e : Event) (p : Parser) : Parser :=
  mkParser (_state p) (_scanState p) (listen (_eventListener p) e).

Definition set_scan (sc : scan_state) (p : Parser) : Parser :=
  mkParser (_state p) sc (_eventListener p).

Definition set_state (s : State) (p : Parser) : Parser :=
  mkParser s (_scanState p) (_eventListener p).

Definition set_hint (cp : Z) (p : Parser) : Parser :=
  set_scan (mk_scan_state (utf8 (_scanState p)) cp (next (_scanState p))) p.

Definition ReplacementCharacter : Z := 0xFFFD.

(** [Parser::printUtf8Byte]. *)
Definition printUtf8Byte (ch : Z) (p : Parser) : Parser :=
  let '(r, u) := from_utf8 (utf8 (_scanState p)) ch in
  let p := set_scan (mk_scan_state u (lastCodepointHint (_scanState p))
                       (next (_scanState p))) p in
  match r with
  | Incomplete => p
  | _ =>
      let codepoint := match r with Success v => v | _ => ReplacementCharacter end in
      p |> emit (Ev_print codepoint) |> set_hint codepoint
  end.

(** [Parser::handle]. *)
Definition handle (actionClass : ActionClass) (action : Action) (ch : Z) (p : Parser)
    : Parser :=
  match action with
  | GroundStart => set_hint 0 p
  | Clear => emit Ev_clear p
  | CollectLeader => emit (Ev_collectLeader ch) p
  | Collect => emit (Ev_collect ch) p
  | Param => emit (Ev_param ch) p
  | ParamDigit => emit (Ev_paramDigit ch) p
  | ParamSeparator => emit Ev_paramSeparator p
  | ParamSubSeparator => emit Ev_paramSubSeparator p
  | Execute => emit (Ev_execute ch) p
  | ESC_Dispatch => emit (Ev_dispatchESC ch) p
  | CSI_Dispatch => emit (Ev_dispatchCSI ch) p
  | Print => printUtf8Byte ch p
  | PrintEnd => emit Ev_printEnd p
  | OSC_Start => emit Ev_startOSC p
  | OSC_Put => emit (Ev_putOSC ch) p
  | OSC_End => emit Ev_dispatchOSC p
  | Hook => emit (Ev_hook ch) p
  | Put => emit (Ev_put ch) p
  | Unhook => emit Ev_unhook p
  | APC_Start => emit Ev_startAPC p
  | APC_Put => emit (Ev_putAPC ch) p
  | APC_End => emit Ev_dispatchAPC p
  | PM_Start => emit Ev_startPM p
  | PM_Put => emit (Ev_putPM ch) p
  | PM_End => emit Ev_dispatchPM p
  | Ignore | Action_Undefined => p
  end.

(** [Parser::processOnceViaStateMachine]. *)
Definition processOnceViaStateMachine (p : Parser) (ch : Z) : Parser :=
  let Table := ParserTable_get in
  let s := _state p in
  let t := Table_transition Table s ch in
  if bool_decide (t ≠ Undefined) then
    p |> handle Leave (Table_exit Table s) ch
      |> handle Transition (Table_event Table s ch) ch
      |> set_state t
      |> handle Enter (Table_entry Table t) ch
  else
    let a := Table_event Table s ch in
    if bool_decide (a ≠ Action_Undefined) then handle Event_ a ch p
    else emit Ev_error p.

Inductive ProcessKind := ContinueBulk | FallbackToFSM.

(** [Parser::parseBulkText] on the bytes [chunk] from [begin] to [end]
    (non-empty at its only call). *)
Definition parseBulkText (p : Parser) (chunk : list Z) : ProcessKind * nat * Parser :=
  if bool_decide (_state p ≠ Ground) then (FallbackToFSM, 0%nat, p)
  else
    let maxCharCount := maxBulkTextSequenceWidth (_eventListener p) in
    if (maxCharCount =? 0)%nat then (FallbackToFSM, 0%nat, p)
    else
      let '(cellCount, subStart, subEnd, nxt, u, hint) :=
        scan_text (utf8 (_scanState p)) (lastCodepointHint (_scanState p)) chunk
          maxCharCount in
      let p := set_scan (mk_scan_state u hint (Some nxt)) p in
      if (nxt =? 0)%nat then (FallbackToFSM, 0%nat, p)
      else
        let byteCount := (subEnd - subStart)%nat in
        if (byteCount =? 0)%nat then (FallbackToFSM, 0%nat, p)
        else
          let text := take byteCount (drop subStart chunk) in
          if (expectedLength (utf8 (_scanState p)) =? 0)%nat then
            let p := if bool_decide (text ≠ []) then emit (Ev_printText text cellCount) p
                     else p in
            (* [input] still is [begin] here *)
            match chunk with
            | 0x0A :: _ => (ContinueBulk, (nxt - 1)%nat, emit (Ev_execute 0x0A) p)
            | _ => (ContinueBulk, nxt, p)
            end
          else (ContinueBulk, nxt, p).

(** The loop of [Parser::parseFragment]; [None] is running out of fuel. *)
Fixpoint parseFragment_loop (fuel : nat) (p : Parser) (input : list Z) : option Parser :=
  match input with
  | [] => Some p
  | b :: rest =>
      match fuel with
      | O => None
      | S fuel =>
          let '(kind, count, p) := parseBulkText p input in
          match kind with
          | ContinueBulk => parseFragment_loop fuel p (drop count input)
          | FallbackToFSM => parseFragment_loop fuel (processOnceViaStateMachine p b) rest
          end
      end
  end.

(** [Parser::parseFragment]: one turn per byte is enough
    ([parseFragment_terminates]). *)
Definition parseFragment (p : Parser) (data : list Z) : option Parser :=
  parseFragment_loop (length data) p data.

(** The state machine alone on a list of bytes. *)
Definition fsm_run (p : Parser) (data : list Z) : Parser :=
  foldl processOnceViaStateMachine p data.
End Parser.
Arguments Parser {_} _.

(** ** The state machine, one byte at a time *)

Section Machine.
Context `{LibUnicode} {L : Type} `{ParserEvents L}.
Implicit Types p : Parser L.

Lemma processOnce_transition p ch t a :
  row (_state p) ch = (t, a) ->
  t ≠ Undefined ->
  processOnceViaStateMachine p ch =
    (p |> handle Leave (exit_action (_state p)) ch
       |> handle Transition a ch
       |> set_state t
       |> handle Enter (entry_action t) ch).
Proof.
  intros [Ht Ha]%row_eq Hne. unfold processOnceViaStateMachine.
  rewrite Ht, Ha, Table_exit_action, Table_entry_action.
  by rewrite bool_decide_true.
Qed.

Lemma processOnce_event p ch a :
  row (_state p) ch = (Undefined, a) ->
  a ≠ Action_Undefined ->
  processOnceViaStateMachine p ch = handle Event_ a ch p.
Proof.
  intros [Ht Ha]%row_eq Hne. unfold processOnceViaStateMachine.
  rewrite Ht, Ha. by rewrite bool_decide_false, bool_decide_true by naive_solver.
Qed.

Lemma processOnce_error p ch :
  row (_state p) ch = (Undefined, Action_Undefined) ->
  processOnceViaStateMachine p ch = emit Ev_error p.
Proof.
  intros [Ht Ha]%row_eq. unfold processOnceViaStateMachine.
  rewrite Ht, Ha. by rewrite !bool_decide_false by naive_solver.
Qed.

Lemma fsm_run_app p d1 d2 : fsm_run p (d1 ++ d2) = fsm_run (fsm_run p d1) d2.
Proof. apply foldl_app. Qed.

Lemma handle_state c a ch p : _state (handle c a ch p) = _state p.
Proof.
  destruct a; try done. simpl. unfold printUtf8Byte.
  destruct (from_utf8 _ _) as [[] ?]; done.
Qed.
End Machine.

(** ** Termination of [parseFragment] *)

Section Fragment.
Context `{LibUnicodeLaws} {L : Type} `{ParserEvents L}.
Implicit Types p : Parser L.

(** A bulk step either leaves the work to the state machine with the
    listener and the state untouched, or consumes a non-empty run of text
    bytes in [Ground]. *)
Lemma parseBulkText_spec p chunk kind count p' :
  chunk ≠ [] ->
  parseBulkText p chunk = (kind, count, p') ->
  match kind with
  | FallbackToFSM => _state p' = _state p /\ _eventListener p' = _eventListener p
  | ContinueBulk =>
      _state p = Ground /\ _state p' = Ground /\
      (0 < count <= length chunk)%nat /\
      Forall (fun c => 0x20 <= c) (take count chunk) /\
      (_eventListener p' = _eventListener p \/
       exists text cells,
         _eventListener p' = listen (_eventListener p) (Ev_printText text cells))
  end.
Proof.
  intros Hne. unfold parseBulkText.
  case_bool_decide as Hst; [by intros [= <- <- <-]|].
  destruct (_ =? 0)%nat; [by intros [= <- <- <-]|].
  destruct (scan_text _ _ _ _) as [[[[[cells s] e] n] u] h] eqn:Hscan.
  pose proof (scan_text_next _ _ _ _ _ _ _ _ _ _ Hscan) as Hnext.
  pose proof (scan_text_controls _ _ _ _ _ _ _ _ _ _ Hscan) as Hctl.
  destruct (Nat.eqb_spec n 0); [by intros [= <- <- <-]|].
  destruct (_ =? 0)%nat; [by intros [= <- <- <-]|].
  assert (Hnl : match chunk with 0x0A :: _ => False | _ => True end).
  { destruct chunk as [|c chunk]; [done|]. destruct n; [done|].
    simpl in Hctl. inversion_clear Hctl as [|? ? Hc _].
    repeat case_match; done || lia. }
  destruct (_ =? 0)%nat; intros Heq; simpl in *.
  - case_bool_decide; repeat case_match; simplify_eq/=; try done;
      repeat split; eauto; try lia; done.
  - simplify_eq/=. repeat split; eauto; try lia; done.
Qed.

Lemma parseFragment_loop_terminates fuel p input :
  (length input <= fuel)%nat -> is_Some (parseFragment_loop fuel p input).
Proof.
  revert p input. induction fuel as [|fuel IH]; intros p [|b rest] Hlen;
    simpl in *; try lia; eauto.
  destruct (parseBulkText p (b :: rest)) as [[kind count] p'] eqn:Hbulk.
  apply parseBulkText_spec in Hbulk as Hspec; [|done].
  destruct kind; [|apply IH; lia].
  destruct Hspec as (_ & _ & Hcount & _). apply IH.
  rewrite length_drop. simpl in *. lia.
Qed.
End Fragment.

(** ** The event protocol a listener can rely on *)

(** Where the listener is: nothing pending, a sequence being collected since
    the last [clear], or inside one of the four control strings. *)
Inductive Phase := Idle | Collecting | InDCS | InOSC | InAPC | InPM.

#[export] Instance Phase_eq_dec : EqDecision Phase.
Proof. solve_decision. Defined.

(** The abstract specification: [None] is an event the listener must never see
    in that phase (a [put] outside a [hook]/[unhook] pair, a [dispatchOSC]
    without its [startOSC], a parameter or a dispatch without a [clear]
    before it, a [clear] inside an open string, ...). *)
Definition protocol (ph : Phase) (e : Event) : option Phase :=
  match ph, e with
  | _, Ev_error => Some ph
  | (Idle | Collecting), (Ev_print _ | Ev_printText _ _) => Some Idle
  | (Idle | Collecting), (Ev_printEnd | Ev_execute _) => Some ph
  | (Idle | Collecting), Ev_clear => Some Collecting
  | Collecting, (Ev_collect _ | Ev_collectLeader _ | Ev_param _ | Ev_paramDigit _
                | Ev_paramSeparator | Ev_paramSubSeparator) => Some Collecting
  | Collecting, (Ev_dispatchESC _ | Ev_dispatchCSI _) => Some Idle
  | Collecting, Ev_hook _ => Some InDCS
  | Collecting, Ev_startOSC => Some InOSC
  | Collecting, Ev_startAPC => Some InAPC
  | Collecting, Ev_startPM => Some InPM
  | InDCS, Ev_put _ => Some InDCS
  | InDCS, Ev_unhook => Some Idle
  | InOSC, Ev_putOSC _ => Some InOSC
  | InOSC, Ev_dispatchOSC => Some Idle
  | InAPC, Ev_putAPC _ => Some InAPC
  | InAPC, Ev_dispatchAPC => Some Idle
  | InPM, Ev_putPM _ => Some InPM
  | InPM, Ev_dispatchPM => Some Idle
  | _, _ => None
  end.

(** The listener that only checks the protocol, offering [width] columns of
    bulk text. *)
Definition monitor (width : nat) : ParserEvents (option Phase) := {|
  listen o e := o ≫= fun ph => protocol ph e;
  maxBulkTextSequenceWidth _ := width
|}.

(** Which phases a parser state is compatible with. *)
Definition phase_ok (s : State) (ph : Phase) : bool :=
  match s with
  | Undefined => false
  | Ground | DCS_Ignore | IgnoreUntilST => bool_decide (ph = Idle \/ ph = Collecting)
  | DCS_PassThrough => bool_decide (ph = InDCS)
  | OSC_String => bool_decide (ph = InOSC)
  | APC_String => bool_decide (ph = InAPC)
  | PM_String => bool_decide (ph = InPM)
  | _ => bool_decide (ph = Collecting)
  end.

(** What one action does to the phase; [Print] may or may not emit an event,
    depending on the UTF-8 decoder, so it yields a list of outcomes. *)
Definition action_phases (a : Action) (ch : Z) (ph : Phase) : list (option Phase) :=
  match a with
  | Print => [Some ph; protocol ph (Ev_print 0)]
  | GroundStart | Ignore | Action_Undefined => [Some ph]
  | Clear => [protocol ph Ev_clear]
  | CollectLeader => [protocol ph (Ev_collectLeader ch)]
  | Collect => [protocol ph (Ev_collect ch)]
  | Param => [protocol ph (Ev_param ch)]
  | ParamDigit => [protocol ph (Ev_paramDigit ch)]
  | ParamSeparator => [protocol ph Ev_paramSeparator]
  | ParamSubSeparator => [protocol ph Ev_paramSubSeparator]
  | Execute => [protocol ph (Ev_execute ch)]
  | ESC_Dispatch => [protocol ph (Ev_dispatchESC ch)]
  | CSI_Dispatch => [protocol ph (Ev_dispatchCSI ch)]
  | PrintEnd => [protocol ph Ev_printEnd]
  | OSC_Start => [protocol ph Ev_startOSC]
  | OSC_Put => [protocol ph (Ev_putOSC ch)]
  | OSC_End => [protocol ph Ev_dispatchOSC]
  | Hook => [protocol ph (Ev_hook ch)]
  | Put => [protocol ph (Ev_put ch)]
  | Unhook => [protocol ph Ev_unhook]
  | APC_Start => [protocol ph Ev_startAPC]
  | APC_Put => [protocol ph (Ev_putAPC ch)]
  | APC_End => [protocol ph Ev_dispatchAPC]
  | PM_Start => [protocol ph Ev_startPM]
  | PM_Put => [protocol ph (Ev_putPM ch)]
  | PM_End => [protocol ph Ev_dispatchPM]
  end.

Definition all_phases : list Phase := [Idle; Collecting; InDCS; InOSC; InAPC; InPM].

(** Every outcome of an action is a phase satisfying [k]. *)
Definition action_ok (k : Phase -> bool) (a : Action) (ch : Z) (ph : Phase) : bool :=
  forallb (fun o => match o with Some ph' => k ph' | None => false end)
    (action_phases a ch ph).

(** The check the table has to pass at one (state, byte) pair. *)
Definition row_protocol_ok (s : State) (ch : Z) : bool :=
  forallb (fun ph =>
    negb (phase_ok s ph) ||
    match row s ch with
    | (Undefined, a) => action_ok (phase_ok s) a ch ph
    | (t, a) =>
        action_ok (fun ph1 => action_ok (fun ph2 =>
          action_ok (phase_ok t) (entry_action t) ch ph2) a ch ph1)
          (exit_action s) ch ph
    end) all_phases.

Lemma table_protocol_ok s ch :
  s ≠ Undefined -> 0 <= ch < 256 -> row_protocol_ok s ch = true.
Proof. apply (row_forall row_protocol_ok). vm_compute. reflexivity. Qed.

Section Protocol.
Context `{LibUnicode} (width : nat).
#[local] Existing Instance monitor.
Abbreviation P := (@Parser _ (option Phase)).
Abbreviation mon := (monitor width).

(** The monitor of [p] is in a phase satisfying [k]. *)
Definition in_phase (p : P) (k : Phase -> bool) : Prop :=
  exists ph, _eventListener p = Some ph /\ k ph = true.

Lemma handle_phase c a ch (p : P) ph k :
  _eventListener p = Some ph ->
  action_ok k a ch ph = true ->
  in_phase (handle (H0 := mon) c a ch p) k.
Proof.
  intros Hl Hok. unfold action_ok in Hok. rewrite forallb_forall in Hok.
  destruct a;
    try (specialize (Hok _ (or_introl eq_refl)); simpl in *;
         unfold in_phase; simpl; rewrite Hl; simpl;
         destruct (protocol ph _) as [ph'|]; naive_solver);
    try (specialize (Hok _ (or_introl eq_refl)); exists ph; done).
  pose proof (Hok _ (or_introl eq_refl)) as Hstay.
  pose proof (Hok _ (or_intror (or_introl eq_refl))) as Hprint. simpl in *.
  unfold printUtf8Byte. destruct (from_utf8 _ _) as [r u].
  assert (Hp : forall cp, protocol ph (Ev_print cp) = protocol ph (Ev_print 0)).
  { by destruct ph. }
  destruct r; unfold in_phase; simpl; rewrite Hl; simpl; rewrite ?Hp; eauto;
    destruct (protocol ph _); naive_solver.
Qed.

Lemma action_ok_mono k1 k2 a ch ph :
  (forall ph', k1 ph' = true -> k2 ph' = true) ->
  action_ok k1 a ch ph = true -> action_ok k2 a ch ph = true.
Proof.
  unfold action_ok. rewrite !forallb_forall. intros Hk Hall o Ho.
  specialize (Hall o Ho). destruct o; auto.
Qed.

Lemma processOnce_phase (p : P) ch :
  0 <= ch < 256 ->
  in_phase p (phase_ok (_state p)) ->
  let p' := processOnceViaStateMachine (H0 := mon) p ch in
  in_phase p' (phase_ok (_state p')).
Proof.
  intros Hch (ph & Hl & Hph) p'.
  assert (Hs : _state p ≠ Undefined) by (intros Hs; by rewrite Hs in Hph).
  pose proof (table_protocol_ok _ _ Hs Hch) as Hrow.
  unfold row_protocol_ok in Hrow. rewrite forallb_forall in Hrow.
  specialize (Hrow ph ltac:(destruct ph; simpl; tauto)).
  rewrite Hph in Hrow. simpl in Hrow.
  destruct (row (_state p) ch) as [t a] eqn:Er.
  destruct (decide (t = Undefined)) as [->|Ht].
  - destruct (decide (a = Action_Undefined)) as [->|Ha].
    + subst p'. rewrite (processOnce_error p ch Er).
      exists ph. simpl. rewrite Hl.
      split; [destruct ph; reflexivity | exact Hph].
    + subst p'. rewrite (processOnce_event p ch a Er Ha), handle_state. clear Er.
      by eapply handle_phase.
  - assert (Hok : action_ok (fun ph1 => action_ok (fun ph2 =>
        action_ok (phase_ok t) (entry_action t) ch ph2) a ch ph1)
        (exit_action (_state p)) ch ph = true).
    { clear Er. destruct t; try exact Hrow. by destruct Ht. }
    subst p'. rewrite (processOnce_transition p ch t a Er Ht), handle_state. simpl. clear Er.
    destruct (handle_phase Leave _ ch p ph _ Hl Hok) as (ph1 & Hl1 & Hok1).
    destruct (handle_phase Transition _ ch _ ph1 _ Hl1 Hok1) as (ph2 & Hl2 & Hok2).
    by eapply (handle_phase Enter _ ch (set_state t _)).
Qed.
End Protocol.

(** ** Theorems on whole fragments *)

(** The bytes of a fragment. *)
Definition bytes (data : list Z) : Prop := Forall (fun b => 0 <= b < 256) data.

Section FragmentTheorems.
Context `{LibUnicodeLaws}.

Lemma parseFragment_loop_phase width fuel (p p' : @Parser _ (option Phase)) input :
  bytes input ->
  in_phase p (phase_ok (_state p)) ->
  parseFragment_loop (H0 := monitor width) fuel p input = Some p' ->
  in_phase p' (phase_ok (_state p')).
Proof.
  revert p input. induction fuel as [|fuel IH]; intros p [|b rest] Hb Hp;
    simpl; try (by intros [= <-]); try done.
  inversion_clear Hb as [|? ? Hb0 Hrest].
  destruct (parseBulkText p (b :: rest)) as [[kind count] q] eqn:Hbulk.
  apply (parseBulkText_spec (H1 := monitor width)) in Hbulk as Hspec; [|done].
  destruct kind.
  - destruct Hspec as (Hg & Hg' & _ & _ & Hlis). apply IH.
    { apply Forall_drop. by constructor. }
    destruct Hp as (ph & Hl & Hok). rewrite Hg in Hok. unfold in_phase. rewrite Hg'.
    destruct Hlis as [-> | (text & cells & ->)]; [by exists ph|].
    simpl. rewrite Hl. simpl. exists Idle. destruct ph; done.
  - destruct Hspec as [Hs Hl]. apply IH; [done|].
    apply (processOnce_phase width); [done|].
    rewrite Hs. unfold in_phase. by rewrite Hl.
Qed.

(** The control-function events of [parseFragment] are those of the state
    machine: for a listener that ignores text, the bulk path changes neither
    the listener nor the state. *)
Section Bulk.
Context {L : Type} `{ParserEvents L}.
Hypothesis ignores_print : forall l cp, listen l (Ev_print cp) = l.
Hypothesis ignores_text : forall l text cells, listen l (Ev_printText text cells) = l.
Implicit Types p q : Parser L.

Definition same_control p q : Prop :=
  _state p = _state q /\ _eventListener p = _eventListener q.

Lemma handle_same_control c a ch p q :
  same_control p q -> same_control (handle c a ch p) (handle c a ch q).
Proof using ignores_print.
  intros [Hs Hl]. destruct a; try (split; simpl; congruence).
  simpl. unfold printUtf8Byte.
  destruct (from_utf8 _ _) as [[] ?], (from_utf8 _ _) as [[] ?];
    split; simpl; rewrite ?ignores_print; done.
Qed.

Lemma processOnce_same_control ch p q :
  same_control p q ->
  same_control (processOnceViaStateMachine p ch) (processOnceViaStateMachine q ch).
Proof using ignores_print.
  intros [Hs Hl]. unfold processOnceViaStateMachine. rewrite Hs.
  case_bool_decide.
  - apply handle_same_control.
    assert (same_control (handle Transition (Table_event ParserTable_get (_state q) ch) ch
        (handle Leave (Table_exit ParserTable_get (_state q)) ch p))
      (handle Transition (Table_event ParserTable_get (_state q) ch) ch
        (handle Leave (Table_exit ParserTable_get (_state q)) ch q))) as [_ ?]
      by (by do 2 apply handle_same_control).
    by split.
  - case_bool_decide; [by apply handle_same_control|].
    split; simpl; congruence.
Qed.

(** Text bytes in [Ground] only print. *)
Lemma fsm_run_text p text :
  bytes text -> Forall (fun c => 0x20 <= c) text -> _state p = Ground ->
  same_control (fsm_run p text) p.
Proof using ignores_print.
  intros Hb Ht Hg. revert p Hg.
  induction text as [|c text IH]; intros p Hg; [done|].
  inversion_clear Hb as [|? ? Hb0 Hb']. inversion_clear Ht as [|? ? Hc Ht'].
  simpl.
  assert (Hrow : row (_state p) c = (Undefined, Print)).
  { rewrite Hg. solve_row 0x20 0xFF. }
  rewrite (processOnce_event p c Print Hrow) by done. clear Hrow. simpl.
  assert (Hp : same_control (printUtf8Byte c p) p).
  { unfold printUtf8Byte. destruct (from_utf8 _ _) as [[] ?]; split; simpl;
      by rewrite ?ignores_print. }
  destruct (IH Hb' Ht' (printUtf8Byte c p)) as [Hs Hl].
  { by rewrite (proj1 Hp). }
  destruct Hp. split; etransitivity; eauto.
Qed.

Lemma fsm_run_same_control data p q :
  same_control p q -> same_control (fsm_run p data) (fsm_run q data).
Proof using ignores_print.
  revert p q. induction data as [|b data IH]; intros p q Hpq; [done|].
  by apply IH, processOnce_same_control.
Qed.

Lemma parseFragment_loop_same_control fuel p p' q data :
  bytes data -> same_control p q ->
  parseFragment_loop fuel p data = Some p' ->
  same_control p' (fsm_run q data).
Proof using ignores_print ignores_text H0.
  revert p q data. induction fuel as [|fuel IH]; intros p q [|b rest] Hb Hpq;
    simpl; try (by intros [= <-]); try done.
  destruct (parseBulkText p (b :: rest)) as [[kind count] r] eqn:Hbulk.
  apply parseBulkText_spec in Hbulk as Hspec; [|done].
  destruct kind.
  - destruct Hspec as (Hg & Hg' & Hcount & Htext & Hlis). intros Hloop.
    change (fsm_run (processOnceViaStateMachine q b) rest)
      with (fsm_run q (b :: rest)).
    rewrite <- (take_drop count (b :: rest)), fsm_run_app.
    eapply (IH r); [by apply Forall_drop | | exact Hloop].
    destruct Hpq as [Hs Hl].
    destruct (fsm_run_text q (take count (b :: rest))) as [Hs' Hl'];
      [by apply Forall_take | done | congruence |].
    assert (_eventListener r = _eventListener p).
    { destruct Hlis as [->|(? & ? & ->)]; auto. }
    split; congruence.
  - inversion_clear Hb. apply IH; [done|].
    apply processOnce_same_control. destruct Hspec, Hpq. split; congruence.
Qed.
End Bulk.
End FragmentTheorems.

(** ** What the state machine makes of well-formed sequences *)

(** The events of leaving a state. *)
Definition exit_events (s : State) : list Event :=
  match s with
  | Ground => [Ev_printEnd]
  | DCS_PassThrough => [Ev_unhook]
  | OSC_String => [Ev_dispatchOSC]
  | APC_String => [Ev_dispatchAPC]
  | PM_String => [Ev_dispatchPM]
  | _ => []
  end.

Definition param_event (b : Z) : Event :=
  if b =? 0x3B then Ev_paramSeparator
  else if b =? 0x3A then Ev_paramSubSeparator
  else Ev_paramDigit b.

(** A control sequence: ESC [, an optional private marker, parameter bytes,
    intermediates, the final byte. *)
Definition csi_text (leader : option Z) (params inters : list Z) (final : Z) : list Z :=
  [0x1B; 0x5B] ++ option_list leader ++ params ++ inters ++ [final].

Definition csi_wf (leader : option Z) (params inters : list Z) (final : Z) : Prop :=
  match leader with
  | Some l => 0x3C <= l <= 0x3F
  | None => hd 0 params ≠ 0x3A
  end /\
  Forall (fun b => 0x30 <= b <= 0x3B) params /\
  Forall (fun b => 0x20 <= b <= 0x2F) inters /\
  0x40 <= final <= 0x7E.

Definition csi_events (leader : option Z) (params inters : list Z) (final : Z) : list Event :=
  [Ev_clear; Ev_clear] ++ (Ev_collectLeader <$> option_list leader) ++
  (param_event <$> params) ++ (Ev_collect <$> inters) ++ [Ev_dispatchCSI final].

(** An operating system command: ESC ], the payload, BEL. *)
Definition osc_text (payload : list Z) : list Z := [0x1B; 0x5D] ++ payload ++ [0x07].

Section Sequences.
Context `{LibUnicode} {L : Type} `{ParserEvents L}.
Implicit Types p : Parser L.

(** [data] takes [p] to state [s] and shows the listener exactly [evs]. *)
Definition runs p (data : list Z) (s : State) (evs : list Event) : Prop :=
  _state (fsm_run p data) = s /\
  _eventListener (fsm_run p data) = foldl listen (_eventListener p) evs.

Lemma runs_app p d1 d2 s1 s2 e1 e2 :
  runs p d1 s1 e1 ->
  (forall q, _state q = s1 -> runs q d2 s2 e2) ->
  runs p (d1 ++ d2) s2 (e1 ++ e2).
Proof.
  intros [Hs1 Hl1] H2. destruct (H2 _ Hs1) as [Hs2 Hl2].
  split; rewrite fsm_run_app; [done|]. by rewrite Hl2, Hl1, foldl_app.
Qed.

Lemma runs_nil p : runs p [] (_state p) [].
Proof. done. Qed.

(** The events of an action that decodes no text. *)
Definition action_events (a : Action) (ch : Z) : list Event :=
  match a with
  | Clear => [Ev_clear] | CollectLeader => [Ev_collectLeader ch]
  | Collect => [Ev_collect ch] | Param => [Ev_param ch]
  | ParamDigit => [Ev_paramDigit ch] | ParamSeparator => [Ev_paramSeparator]
  | ParamSubSeparator => [Ev_paramSubSeparator] | Execute => [Ev_execute ch]
  | ESC_Dispatch => [Ev_dispatchESC ch] | CSI_Dispatch => [Ev_dispatchCSI ch]
  | PrintEnd => [Ev_printEnd] | OSC_Start => [Ev_startOSC] | OSC_Put => [Ev_putOSC ch]
  | OSC_End => [Ev_dispatchOSC] | Hook => [Ev_hook ch] | Put => [Ev_put ch]
  | Unhook => [Ev_unhook] | APC_Start => [Ev_startAPC] | APC_Put => [Ev_putAPC ch]
  | APC_End => [Ev_dispatchAPC] | PM_Start => [Ev_startPM] | PM_Put => [Ev_putPM ch]
  | PM_End => [Ev_dispatchPM]
  | Print | GroundStart | Ignore | Action_Undefined => []
  end.

Lemma handle_events c a ch p :
  a ≠ Print ->
  _eventListener (handle c a ch p) = foldl listen (_eventListener p) (action_events a ch).
Proof. by destruct a. Qed.

Lemma runs_event p ch a :
  row (_state p) ch = (Undefined, a) -> a ≠ Action_Undefined -> a ≠ Print ->
  runs p [ch] (_state p) (action_events a ch).
Proof.
  intros Hrow Ha Hp. unfold runs. simpl.
  rewrite (processOnce_event p ch a Hrow Ha), handle_state by done.
  clear Hrow. by rewrite handle_events.
Qed.

Lemma runs_transition p ch t a :
  row (_state p) ch = (t, a) -> t ≠ Undefined -> a ≠ Print ->
  runs p [ch] t (exit_events (_state p) ++ action_events a ch ++
                 action_events (entry_action t) ch).
Proof.
  intros Hrow Ht Hp. unfold runs. simpl.
  rewrite (processOnce_transition p ch t a Hrow Ht), handle_state. clear Hrow.
  split; [done|].
  rewrite handle_events by (by destruct t). simpl.
  rewrite handle_events by done. rewrite handle_events by (by destruct (_state p)).
  rewrite <- !foldl_app. f_equal. by destruct (_state p).
Qed.

(** A run of bytes that all stay in one state. *)
Lemma runs_many p data (f : Z -> Action) :
  Forall (fun b => row (_state p) b = (Undefined, f b) /\
                   f b ≠ Action_Undefined /\ f b ≠ Print) data ->
  runs p data (_state p) (data ≫= fun b => action_events (f b) b).
Proof.
  revert p. induction data as [|b data IH]; intros p Hall; [done|].
  inversion_clear Hall as [|? ? (Hrow & Ha & Hp) Hrest].
  apply (runs_app p [b] data (_state p)); [by apply runs_event|].
  intros q Hq. rewrite <- Hq. apply IH. by rewrite Hq.
Qed.

(** ESC from any state cancels what was pending and opens a sequence. *)
Lemma runs_escape p :
  _state p ≠ Undefined ->
  runs p [0x1B] Escape (exit_events (_state p) ++ [Ev_clear]).
Proof.
  intros Hs. apply (runs_transition p 0x1B Escape Ignore); [|done|done].
  destruct (_state p); try done; solve_row 0x1B 0x1B.
Qed.

Lemma bind_events {A} (f : A -> Event) (l : list A) : (l ≫= fun b => [f b]) = f <$> l.
Proof. induction l as [|x l IH]; [done|]. csimpl. by rewrite IH. Qed.

Definition param_action (b : Z) : Action :=
  if b =? 0x3B then ParamSeparator
  else if b =? 0x3A then ParamSubSeparator
  else ParamDigit.

Lemma param_action_events b : action_events (param_action b) b = [param_event b].
Proof. unfold param_action, param_event. by repeat case_match. Qed.

Lemma csi_param_row b : 0x30 <= b <= 0x3B -> row CSI_Param b = (Undefined, param_action b).
Proof.
  intros Hb. unfold param_action.
  destruct (Z.eqb_spec b 0x3B) as [->|]; [solve_row 0x3B 0x3B|].
  destruct (Z.eqb_spec b 0x3A) as [->|]; [solve_row 0x3A 0x3A|].
  solve_row 0x30 0x39.
Qed.

Lemma runs_csi_params p params :
  _state p = CSI_Param -> Forall (fun b => 0x30 <= b <= 0x3B) params ->
  runs p params CSI_Param (param_event <$> params).
Proof.
  intros Hs Hall. rewrite <- Hs, <- (bind_events param_event).
  rewrite (list_bind_ext _ (fun b => action_events (param_action b) b) params params)
    by (done || intros; by rewrite param_action_events).
  apply runs_many. eapply Forall_impl; [exact Hall|]. intros b Hb. rewrite Hs.
  split; [by apply csi_param_row|]. unfold param_action. by repeat case_match.
Qed.

(** The tail of a control sequence, from any of the three states it can be
    read in. *)
Lemma runs_csi_tail p inters final :
  _state p = CSI_Entry \/ _state p = CSI_Param \/ _state p = CSI_Intermediate ->
  Forall (fun b => 0x20 <= b <= 0x2F) inters -> 0x40 <= final <= 0x7E ->
  runs p (inters ++ [final]) Ground ((Ev_collect <$> inters) ++ [Ev_dispatchCSI final]).
Proof.
  intros Hs Hall Hf. revert p Hs.
  induction Hall as [|b inters Hb Hall IH]; intros p Hs.
  - destruct Hs as [Hs|[Hs|Hs]];
      pose proof (runs_transition p final Ground CSI_Dispatch) as Hr; rewrite Hs in Hr;
      (apply Hr; [solve_row 0x40 0x7E|done|done]).
  - apply (runs_app p [b] _ CSI_Intermediate Ground [Ev_collect b]); [|by eauto].
    destruct Hs as [Hs|[Hs|Hs]].
    + pose proof (runs_transition p b CSI_Intermediate Collect) as Hr. rewrite Hs in Hr.
      apply Hr; [solve_row 0x20 0x2F|done|done].
    + pose proof (runs_transition p b CSI_Intermediate Collect) as Hr. rewrite Hs in Hr.
      apply Hr; [solve_row 0x20 0x2F|done|done].
    + pose proof (runs_event p b Collect) as Hr. rewrite Hs in Hr.
      apply Hr; [solve_row 0x20 0x2F|done|done].
Qed.

(** A transition out of a state without an exit action. *)
Lemma runs_move p s ch t a :
  _state p = s -> row s ch = (t, a) -> t ≠ Undefined -> a ≠ Print -> exit_events s = [] ->
  runs p [ch] t (action_events a ch ++ action_events (entry_action t) ch).
Proof.
  intros <- Hrow Ht Ha He. pose proof (runs_transition p ch t a Hrow Ht Ha) as Hr.
  rewrite He in Hr. exact Hr.
Qed.

Lemma runs_csi_body p leader params inters final :
  _state p = CSI_Entry -> csi_wf leader params inters final ->
  runs p (option_list leader ++ params ++ inters ++ [final]) Ground
    ((Ev_collectLeader <$> option_list leader) ++ (param_event <$> params) ++
     (Ev_collect <$> inters) ++ [Ev_dispatchCSI final]).
Proof.
  intros Hs (Hl & Hp & Hi & Hf).
  assert (Hrest : forall q ps, _state q = CSI_Param ->
    Forall (fun b => 0x30 <= b <= 0x3B) ps ->
    runs q (ps ++ inters ++ [final]) Ground
      ((param_event <$> ps) ++ (Ev_collect <$> inters) ++ [Ev_dispatchCSI final])).
  { intros q ps Hq Hps. eapply runs_app; [by apply runs_csi_params|].
    intros r Hr. apply runs_csi_tail; auto. }
  destruct leader as [l|]; simpl.
  - eapply (runs_app p [l] _ _ _ [Ev_collectLeader l]); [|intros; by apply Hrest].
    apply (runs_move p CSI_Entry l CSI_Param CollectLeader);
      [done|solve_row 0x3C 0x3F|done..].
  - destruct params as [|b params]; [by apply runs_csi_tail; auto|].
    inversion_clear Hp as [|? ? Hb Hps]. simpl in *.
    eapply (runs_app p [b] _ _ _ [param_event b]); [|intros; by apply Hrest].
    rewrite <- param_action_events. unfold param_action.
    destruct (Z.eqb_spec b 0x3B) as [->|].
    + apply (runs_move p CSI_Entry 0x3B CSI_Param ParamSeparator);
      [done|solve_row 0x3B 0x3B|done..].
    + destruct (Z.eqb_spec b 0x3A) as [->|]; [done|].
      apply (runs_move p CSI_Entry b CSI_Param ParamDigit);
      [done|solve_row 0x30 0x39|done..].
Qed.

Lemma runs_csi p leader params inters final :
  _state p ≠ Undefined -> csi_wf leader params inters final ->
  runs p (csi_text leader params inters final) Ground
    (exit_events (_state p) ++ csi_events leader params inters final).
Proof.
  intros Hs Hwf. unfold csi_text, csi_events.
  change ([0x1B; 0x5B] ++ ?x) with ([0x1B] ++ [0x5B] ++ x).
  change ([Ev_clear; Ev_clear] ++ ?x) with ([Ev_clear] ++ [Ev_clear] ++ x).
  rewrite (app_assoc (exit_events _)).
  eapply runs_app; [by apply runs_escape|]. intros q Hq.
  eapply runs_app; [|intros r Hr; by apply runs_csi_body].
  apply (runs_move q Escape 0x5B CSI_Entry Ignore);
      [done|solve_row 0x5B 0x5B|done..].
Qed.

Lemma runs_osc p payload :
  _state p ≠ Undefined -> Forall (fun b => 0x20 <= b <= 0xFF) payload ->
  runs p (osc_text payload) Ground
    (exit_events (_state p) ++ [Ev_clear; Ev_startOSC] ++ (Ev_putOSC <$> payload) ++
     [Ev_dispatchOSC]).
Proof.
  intros Hs Hall. unfold osc_text.
  change ([0x1B; 0x5D] ++ ?x) with ([0x1B] ++ [0x5D] ++ x).
  change ([Ev_clear; Ev_startOSC] ++ ?x) with ([Ev_clear] ++ [Ev_startOSC] ++ x).
  rewrite (app_assoc (exit_events _)).
  eapply runs_app; [by apply runs_escape|]. intros q Hq.
  eapply runs_app.
  { apply (runs_move q Escape 0x5D OSC_String Ignore);
      [done|solve_row 0x5D 0x5D|done..]. }
  intros r Hr. apply (runs_app r payload _ OSC_String).
  - rewrite <- bind_events, <- Hr.
    apply (runs_many r payload (fun _ => OSC_Put)).
    eapply Forall_impl; [exact Hall|]. intros b Hb. cbv beta in Hb. rewrite Hr.
    split; [solve_row 0x20 0xFF|done].
  - intros u Hu. pose proof (runs_transition u 0x07 Ground Ignore) as Ht.
    rewrite Hu in Ht. apply Ht; [solve_row 0x07 0x07|done|done].
Qed.
End Sequences.

(** ** A concrete text scanner

    Used to show that the laws of [LibUnicode] can hold: every byte is its
    own code point and every byte that is not a C0 control is text. *)

Fixpoint text_prefix (max : nat) (chunk : list Z) : nat :=
  match max, chunk with
  | S max, c :: rest => if 0x20 <=? c then S (text_prefix max rest) else 0
  | _, _ => 0
  end.

Definition latin1 : LibUnicode := {|
  utf8_decoder_state := unit;
  utf8_init := tt;
  expectedLength _ := 0%nat;
  from_utf8 _ ch := (Success ch, tt);
  scan_text _ hint chunk max :=
    let n := text_prefix max chunk in (n, 0%nat, n, n, tt, List.last (take n chunk) hint)
|}.

Lemma text_prefix_length max chunk : (text_prefix max chunk <= length chunk)%nat.
Proof.
  revert chunk. induction max as [|max IH]; intros [|c rest]; simpl; try lia.
  case_match; [|lia]. specialize (IH rest). lia.
Qed.

Lemma text_prefix_text max chunk :
  Forall (fun c => 0x20 <= c) (take (text_prefix max chunk) chunk).
Proof.
  revert chunk. induction max as [|max IH]; intros [|c rest]; simpl; try done.
  case_match; [|done]. constructor; [lia | apply IH].
Qed.

#[export] Instance latin1_laws : LibUnicodeLaws latin1.
Proof.
  split; intros d h chunk m cells s e n d' h' Heq; simpl in Heq; inversion Heq; subst;
    [apply text_prefix_length | apply text_prefix_text].
Qed.

(** Consecutive reads: [Terminal::writeToScreen] feeds one fragment after the
    other to the same parser. *)
Fixpoint parseFragments {U : LibUnicode} {L : Type} {E : ParserEvents L}
    (p : Parser L) (fragments : list (list Z)) : option (Parser L) :=
  match fragments with
  | [] => Some p
  | data :: rest => p' ← parseFragment p data; parseFragments p' rest
  end.

Lemma parseFragment_is_Some {U : LibUnicode} {UL : LibUnicodeLaws U} {L : Type}
    {E : ParserEvents L} (p : Parser L) (data : list Z) :
  is_Some (parseFragment p data).
Proof. by apply parseFragment_loop_terminates. Qed.

(** ** Properties *)

(** [parseFragment] always terminates: for every listener, parser state
    and input, the loop that alternates bulk text and single state machine
    steps finishes after at most one turn per byte. *)
Lemma parseFragment_terminates (U : LibUnicode) (UL : LibUnicodeLaws U) (L : Type)
    (E : ParserEvents L) (p : Parser L) (data : list Z) :
  exists p', parseFragment p data = Some p'.
Proof. apply parseFragment_is_Some. Qed.

(** C1: The events of the parser follow the listener protocol, whatever the bytes and however
    they are cut into fragments: put only occurs between hook and unhook, putOSC/putAPC/putPM
    only between their start and dispatch events, every opened string is closed before the next
    sequence, and parameters, intermediates and dispatches are preceded by a clear. *)
Theorem parser_follows_protocol (U : LibUnicode) (UL : LibUnicodeLaws U) (width : nat)
    (fragments : list (list Z)) :
  Forall bytes fragments ->
  exists (p' : @Parser U (option Phase)) (ph : Phase),
    parseFragments (E := monitor width) (Parser_new (Some Idle)) fragments = Some p' /\
    _eventListener p' = Some ph /\ phase_ok (_state p') ph = true.
Proof.
  intros Hall.
  assert (Hgen : forall p : @Parser U (option Phase), in_phase p (phase_ok (_state p)) ->
    exists p', parseFragments (E := monitor width) p fragments = Some p' /\
      in_phase p' (phase_ok (_state p'))).
  { induction Hall as [|data rest Hd Hr IH]; intros p Hp; simpl; [by exists p|].
    destruct (parseFragment_is_Some (E := monitor width) p data) as [q Hq].
    rewrite Hq. simpl. apply IH. exact (parseFragment_loop_phase width _ p q data Hd Hp Hq). }
  destruct (Hgen (Parser_new (Some Idle))) as (p' & Hrun & ph & Hl & Hok).
  { by exists Idle. }
  by exists p', ph.
Qed.

Lemma parser_follows_protocol_witness :
  exists (p' : @Parser latin1 (option Phase)) (ph : Phase),
    parseFragments (E := monitor 80) (Parser_new (Some Idle))
      [[0x41; 0x1B]; [0x5D; 0x30; 0x3B; 0x61]; [0x07; 0x42]] = Some p' /\
    _eventListener p' = Some ph /\ phase_ok (_state p') ph = true.
Proof.
  apply (parser_follows_protocol latin1 latin1_laws 80).
  repeat constructor; lia.
Defined.

(** C9: The bulk-text path is an optimisation only: for a listener that ignores printed text,
    parseFragment ends in the same state and shows the listener the same control-function events
    in the same order as the state machine run byte by byte. *)
Theorem parseFragment_bulk_equiv (U : LibUnicode) (UL : LibUnicodeLaws U) (L : Type)
    (E : ParserEvents L) (p : Parser L) (data : list Z) :
  (forall l cp, listen l (Ev_print cp) = l) ->
  (forall l text cells, listen l (Ev_printText text cells) = l) ->
  bytes data ->
  exists p', parseFragment p data = Some p' /\
    _state p' = _state (fsm_run p data) /\
    _eventListener p' = _eventListener (fsm_run p data).
Proof.
  intros Hprint Htext Hb.
  destruct (parseFragment_is_Some p data) as [p' Hp'].
  exists p'. split; [done|].
  by eapply (parseFragment_loop_same_control Hprint Htext).
Qed.

(** The listener that keeps every event but the text. *)
Definition control_trace (width : nat) : ParserEvents (list Event) := {|
  listen l e := match e with Ev_print _ | Ev_printText _ _ => l | _ => l ++ [e] end;
  maxBulkTextSequenceWidth _ := width
|}.

Lemma parseFragment_bulk_equiv_witness :
  exists p', parseFragment (H := latin1) (H0 := control_trace 3) (Parser_new [])
      [0x41; 0x42; 0x43; 0x44; 0x0A; 0x45] = Some p' /\
    _state p' = _state (fsm_run (H := latin1) (H0 := control_trace 3) (Parser_new [])
      [0x41; 0x42; 0x43; 0x44; 0x0A; 0x45]) /\
    _eventListener p' = _eventListener (fsm_run (H := latin1) (H0 := control_trace 3)
      (Parser_new []) [0x41; 0x42; 0x43; 0x44; 0x0A; 0x45]).
Proof.
  apply (parseFragment_bulk_equiv latin1 latin1_laws _ (control_trace 3));
    [done | done | repeat constructor; lia].
Defined.

(** CAN, SUB and ESC cancel from every state: the parser leaves for
    [Ground] (or [Escape]), an open control string is closed, and nothing
    else reaches the listener - in particular no sequence is dispatched. *)
Lemma cancel_from_anywhere (U : LibUnicode) (L : Type) (E : ParserEvents L)
    (p : Parser L) (ch : Z) :
  _state p ≠ Undefined ->
  ch ∈ [0x18; 0x1A; 0x1B] ->
  let p' := processOnceViaStateMachine p ch in
  _state p' = (if ch =? 0x1B then Escape else Ground) /\
  _eventListener p' =
    foldl listen (_eventListener p)
      (exit_events (_state p) ++ if ch =? 0x1B then [Ev_clear] else []).
Proof.
  intros Hs Hch p'. change p' with (fsm_run p [ch]).
  rewrite !elem_of_cons in Hch.
  destruct Hch as [->|[->|[->|Hnil]]]; [| |by apply runs_escape|by apply elem_of_nil in Hnil].
  - apply (runs_transition p 0x18 Ground Ignore); [|done|done].
    destruct (_state p); try done; solve_row 0x18 0x18.
  - apply (runs_transition p 0x1A Ground Ignore); [|done|done].
    destruct (_state p); try done; solve_row 0x1A 0x1A.
Qed.
