(* ===== verification/Sequence.v ===== *)
(** * VT sequences and their construction from parser events

    [vtbackend/Sequence.h], [Sequence.cpp], [SequenceBuilder.h], the function
    category and selector of [Functions.h], [extractCodePrefix] of
    [vtparser/Parser.h] and [vtparser/ParserExtension.h].

    An operation the C++ standard gives no meaning to (a write past the
    parameter array, a signed overflow) is [None]. *)
From S2P Require Import Prelude ParserTable Parser.

(** [enum class FunctionCategory]. *)
Inductive FunctionCategory := C0 | ESC | CSI | OSC | DCS.

#[export] Instance FunctionCategory_eq_dec : EqDecision FunctionCategory.
Proof. solve_decision. Defined.

(** [struct FunctionSelector]. *)
Record FunctionSelector := mkFunctionSelector {
  sel_category : FunctionCategory;
  sel_leader : Z;
  sel_argc : Z;
  sel_intermediate : Z;
  sel_finalSymbol : Z
}.

(** ** Parameters: [class SequenceParameters] *)

Definition MaxParameters : nat := 16.

Record SequenceParameters := mkSequenceParameters {
  _values : list Z;          (* std::array<uint16_t, 16> *)
  _subParameterTest : Z;     (* uint16_t *)
  _count : nat
}.

Definition SequenceParameters_init : SequenceParameters :=
  mkSequenceParameters (replicate MaxParameters 0) 0 0.

Definition at_ (ps : SequenceParameters) (index : nat) : option Z := _values ps !! index.

Definition isSubParameter (ps : SequenceParameters) (index : nat) : bool :=
  negb (Z.land (_subParameterTest ps) (Z.shiftl 1 (Z.of_nat index)) =? 0).

(** The loop [while (index < 16 && isSubParameter(index)) index++]. *)
Fixpoint skipSubParameters (fuel : nat) (ps : SequenceParameters) (index : nat) : nat :=
  match fuel with
  | O => index
  | S fuel =>
      if (index <? 16)%nat && isSubParameter ps index
      then skipSubParameters fuel ps (S index)
      else index
  end.

Definition subParameterCount (ps : SequenceParameters) (index : nat) : nat :=
  if negb (isSubParameter ps index) then
    let start := S index in (skipSubParameters 16 ps start - start)%nat
  else 0%nat.

Definition SequenceParameters_clear (ps : SequenceParameters) : SequenceParameters :=
  mkSequenceParameters (<[0%nat := 0]> (_values ps)) 0 0.

(** ** The builder: [class SequenceParameterBuilder] *)

(** [_parameters] and the index of [_currentParameter] in [_values]. *)
Record SequenceParameterBuilder := mkBuilder {
  _parameters : SequenceParameters;
  _currentParameter : nat
}.

Definition builder_reset (b : SequenceParameterBuilder) : SequenceParameterBuilder :=
  mkBuilder (SequenceParameters_clear (_parameters b)) 0.

(** [*_currentParameter = v]: undefined behaviour outside the array. *)
Definition builder_store (b : SequenceParameterBuilder) (v : Z)
    : option SequenceParameterBuilder :=
  let ps := _parameters b in
  if (_currentParameter b <? length (_values ps))%nat then
    Some (mkBuilder
      (mkSequenceParameters (<[_currentParameter b := v]> (_values ps))
         (_subParameterTest ps) (_count ps))
      (_currentParameter b))
  else None.

Definition set_subParameterTest (b : SequenceParameterBuilder) (z : Z)
    : SequenceParameterBuilder :=
  mkBuilder (mkSequenceParameters (_values (_parameters b)) z (_count (_parameters b)))
    (_currentParameter b).

Definition nextParameter (b : SequenceParameterBuilder) : option SequenceParameterBuilder :=
  if negb (_currentParameter b =? MaxParameters)%nat then
    b ← builder_store (mkBuilder (_parameters b) (S (_currentParameter b))) 0;
    Some (set_subParameterTest b (Z.shiftr (_subParameterTest (_parameters b)) 1))
  else Some b.

Definition nextSubParameter (b : SequenceParameterBuilder) : option SequenceParameterBuilder :=
  if negb (_currentParameter b =? MaxParameters)%nat then
    b ← builder_store (mkBuilder (_parameters b) (S (_currentParameter b))) 0;
    Some (set_subParameterTest b
      (u16 (Z.lor (Z.shiftr (_subParameterTest (_parameters b)) 1) (Z.shiftl 1 15))))
  else Some b.

Definition multiplyBy10AndAdd (b : SequenceParameterBuilder) (value : Z)
    : option SequenceParameterBuilder :=
  cur ← _values (_parameters b) !! _currentParameter b;
  builder_store b (u16 (cur * 10 + value)).

(** [apply]. *)
Definition builder_apply (b : SequenceParameterBuilder) (value : Z)
    : option SequenceParameterBuilder :=
  b ← (if 10 <=? value then multiplyBy10AndAdd b (u8 (value `quot` 10)) else Some b);
  multiplyBy10AndAdd b (u8 (value `rem` 10)).

(** [set]. *)
Definition builder_set (b : SequenceParameterBuilder) (value : Z)
    : option SequenceParameterBuilder := builder_store b value.

(** [count]. *)
Definition builder_count (b : SequenceParameterBuilder) : nat :=
  let result := S (_currentParameter b) in
  if negb ((result =? 1)%nat && (default 0 (_values (_parameters b) !! 0%nat) =? 0))
  then result else 0%nat.

(** [fixiate]: the shift amount [16 - _count] is a [size_t]; it is at most the
    width of the promoted operand exactly when [_count <= 16]. *)
Definition fixiate (b : SequenceParameterBuilder) : option SequenceParameterBuilder :=
  let n := builder_count b in
  if (n <=? 16)%nat then
    let ps := _parameters b in
    Some (mkBuilder
      (mkSequenceParameters (_values ps)
         (Z.shiftr (_subParameterTest ps) (16 - Z.of_nat n)) n)
      (_currentParameter b))
  else None.

(** ** [class Sequence] *)

Record Sequence := mkSequence {
  _category : FunctionCategory;
  _leaderSymbol : Z;
  parameters : SequenceParameters;
  _intermediateCharacters : list Z;
  _finalChar : Z;
  _dataString : list Z
}.

Definition MaxOscLength : nat := 512.

Definition Sequence_init : Sequence := mkSequence C0 0 SequenceParameters_init [] 0 [].

Definition clearExceptParameters (s : Sequence) : Sequence :=
  mkSequence C0 0 (parameters s) [] 0 [].

Definition Sequence_clear (s : Sequence) : Sequence :=
  mkSequence C0 0 (SequenceParameters_clear (parameters s)) [] 0 [].

Definition setCategory (cat : FunctionCategory) (s : Sequence) : Sequence :=
  mkSequence cat (_leaderSymbol s) (parameters s) (_intermediateCharacters s)
    (_finalChar s) (_dataString s).

Definition setLeader (ch : Z) (s : Sequence) : Sequence :=
  mkSequence (_category s) ch (parameters s) (_intermediateCharacters s)
    (_finalChar s) (_dataString s).

Definition setFinalChar (ch : Z) (s : Sequence) : Sequence :=
  mkSequence (_category s) (_leaderSymbol s) (parameters s) (_intermediateCharacters s)
    ch (_dataString s).

Definition setIntermediates (chs : list Z) (s : Sequence) : Sequence :=
  mkSequence (_category s) (_leaderSymbol s) (parameters s) chs
    (_finalChar s) (_dataString s).

Definition setParameters (ps : SequenceParameters) (s : Sequence) : Sequence :=
  mkSequence (_category s) (_leaderSymbol s) ps (_intermediateCharacters s)
    (_finalChar s) (_dataString s).

Definition parameterCount (s : Sequence) : nat := _count (parameters s).

Definition param_opt (s : Sequence) (i : nat) : option Z :=
  if (i <? parameterCount s)%nat then at_ (parameters s) i else None.

Definition param_or (s : Sequence) (i : nat) (defaultValue : Z) : Z :=
  default defaultValue (param_opt s i).

(** [param(i)]: an assertion and then an unchecked array access. *)
Definition param (s : Sequence) (i : nat) : option Z :=
  if (i <? parameterCount s)%nat then at_ (parameters s) i else None.

Definition subparam (s : Sequence) (i sub : nat) : option Z := param s (i + sub).

Definition containsParameter (s : Sequence) (value : Z) : bool :=
  existsb (fun i => bool_decide (at_ (parameters s) i = Some value))
    (seq 0 (parameterCount s)).

(** [Sequence::selector]. *)
Definition selector (s : Sequence) : FunctionSelector :=
  match _category s with
  | OSC =>
      mkFunctionSelector (_category s) 0
        (if (parameterCount s =? 0)%nat then 0 else default 0 (param s 0)) 0 0
  | _ =>
      let intermediate :=
        match _intermediateCharacters s with [c] => schar c | _ => 0 end in
      mkFunctionSelector (_category s) (_leaderSymbol s)
        (Z.of_nat (parameterCount s)) intermediate (_finalChar s)
  end.

(** ** [extractCodePrefix] of [Parser.h] *)

Definition isdigit (ch : Z) : bool := (0x30 <=? ch) && (ch <=? 0x39).

Definition int_range (z : Z) : bool := (- 2 ^ 31 <=? z) && (z <? 2 ^ 31).

(** The digit loop: the accumulated [int] and the number of digits read; a
    signed overflow is [None]. *)
Fixpoint extractDigits (data : list Z) (code : Z) (i : nat) : option (Z * nat) :=
  match data with
  | ch :: rest =>
      if isdigit ch then
        let code' := code * 10 + (ch - 0x30) in
        if int_range code' then extractDigits rest code' (S i) else None
      else Some (code, i)
  | [] => Some (code, i)
  end.

(** The code and the offset of the first data byte. *)
Definition extractCodePrefix (data : list Z) : option (Z * nat) :=
  '(code, i) ← extractDigits data 0 0;
  let '(code, i) :=
    match data with
    | ch :: _ =>
        if (i =? 0)%nat && negb (ch =? 0x3B) then (- schar ch, 1%nat) else (code, i)
    | [] => (code, i)
    end in
  let i := match data !! i with Some 0x3B => S i | _ => i end in
  Some (code, i).

(** ** Sub-parsers: [ParserExtension.h] *)

(** [class ParserExtension]: [finalize] may act on the terminal [H]. *)
Class ParserExtension (H X : Type) := {
  pass : X -> Z -> X;
  finalize : X -> H -> H
}.

(** [class SimpleStringCollector]. *)
Record SimpleStringCollector (H : Type) := mkCollector {
  _data : list Z;
  _done : option (H -> list Z -> H)
}.
Arguments mkCollector {H} _ _.
Arguments _data {H} _.
Arguments _done {H} _.

#[export] Instance SimpleStringCollector_ext H : ParserExtension H (SimpleStringCollector H) := {|
  pass x ch := mkCollector (_data x ++ [ch]) (_done x);
  finalize x h := match _done x with Some done => done h (_data x) | None => h end
|}.

(** ** [class SequenceBuilder] *)

(** [concept SequenceHandlerConcept].  Processing a device control string may
    call [SequenceBuilder::hookParser]; the hooked parser is then returned. *)
Class SequenceHandler (H X : Type) := {
  executeControlCode : H -> Z -> H;
  processSequence : H -> Sequence -> H * option X;
  writeText : H -> Z -> H;
  writeTextBulk : H -> list Z -> nat -> H;
  writeTextEnd : H -> H;
  handler_maxBulkTextSequenceWidth : H -> nat
}.

Module SequenceBuilder.
Section SequenceBuilder.
Context {H X : Type} `{ParserExtension H X} `{SequenceHandler H X}.

Record t := mk {
  _sequence : Sequence;
  _current : nat;                (* _parameterBuilder's _currentParameter *)
  _instructions : nat;           (* what _incrementInstructionCounter counted *)
  _handler : H;
  _hookedParser : option X
}.

Definition new (h : H) : t := mk Sequence_init 0 0 h None.

Definition upd_sequence (f : Sequence -> Sequence) (b : t) : t :=
  mk (f (_sequence b)) (_current b) (_instructions b) (_handler b) (_hookedParser b).

Definition upd_handler (f : H -> H) (b : t) : t :=
  mk (_sequence b) (_current b) (_instructions b) (f (_handler b)) (_hookedParser b).

Definition count_instructions (n : nat) (b : t) : t :=
  mk (_sequence b) (_current b) (_instructions b + n) (_handler b) (_hookedParser b).

(** [_parameterBuilder] refers to the parameters of [_sequence]. *)
Definition _parameterBuilder (b : t) : SequenceParameterBuilder :=
  mkBuilder (parameters (_sequence b)) (_current b).

Definition put_parameterBuilder (pb : SequenceParameterBuilder) (b : t) : t :=
  mk (setParameters (_parameters pb) (_sequence b)) (_currentParameter pb)
    (_instructions b) (_handler b) (_hookedParser b).

Definition with_parameters
    (f : SequenceParameterBuilder -> option SequenceParameterBuilder) (b : t) : option t :=
  pb ← f (_parameterBuilder b); Some (put_parameterBuilder pb b).

Definition handleSequence (b : t) : option t :=
  b ← with_parameters fixiate b;
  let '(h, hooked) := processSequence (_handler b) (_sequence b) in
  Some (mk (_sequence b) (_current b) (_instructions b) h
          (match hooked with Some x => Some x | None => _hookedParser b end)).

Definition print (codepoint : Z) (b : t) : t :=
  b |> count_instructions 1 |> upd_handler (fun h => writeText h codepoint).

Definition printText (chars : list Z) (cellCount : nat) (b : t) : t :=
  b |> count_instructions cellCount |> upd_handler (fun h => writeTextBulk h chars cellCount).

Definition printEnd (b : t) : t := upd_handler writeTextEnd b.

Definition execute (controlCode : Z) (b : t) : t :=
  upd_handler (fun h => executeControlCode h controlCode) b.

Definition clear (b : t) : t :=
  let b := upd_sequence clearExceptParameters b in
  put_parameterBuilder (builder_reset (_parameterBuilder b)) b.

Definition collect (ch : Z) (b : t) : t :=
  upd_sequence (fun s => setIntermediates (_intermediateCharacters s ++ [ch]) s) b.

Definition collectLeader (leader : Z) (b : t) : t := upd_sequence (setLeader leader) b.

Definition paramDigit (ch : Z) (b : t) : option t :=
  with_parameters (fun pb => multiplyBy10AndAdd pb (u8 (ch - 0x30))) b.

Definition paramSeparator (b : t) : option t := with_parameters nextParameter b.

Definition paramSubSeparator (b : t) : option t := with_parameters nextSubParameter b.

(** [param]: [crispy::unreachable] is undefined behaviour. *)
Definition param (ch : Z) (b : t) : option t :=
  if ch =? 0x3B then paramSeparator b
  else if ch =? 0x3A then paramSubSeparator b
  else if isdigit ch then paramDigit ch b
  else None.

Definition dispatchESC (finalChar : Z) (b : t) : option t :=
  handleSequence (b |> upd_sequence (setCategory ESC) |> upd_sequence (setFinalChar finalChar)).

Definition dispatchCSI (finalChar : Z) (b : t) : option t :=
  handleSequence (b |> upd_sequence (setCategory CSI) |> upd_sequence (setFinalChar finalChar)).

Definition startOSC (b : t) : t := upd_sequence (setCategory OSC) b.

Definition putOSC (ch : Z) (b : t) : t :=
  let chs := _intermediateCharacters (_sequence b) in
  if (length chs + 1 <? MaxOscLength)%nat
  then upd_sequence (setIntermediates (chs ++ [ch])) b
  else b.

Definition dispatchOSC (b : t) : option t :=
  '(code, skipCount) ← extractCodePrefix (_intermediateCharacters (_sequence b));
  b ← with_parameters (fun pb => builder_set pb (u16 code)) b;
  let b := upd_sequence
    (fun s => setIntermediates (drop skipCount (_intermediateCharacters s)) s) b in
  b ← handleSequence b;
  Some (clear b).

Definition hook (finalChar : Z) (b : t) : option t :=
  handleSequence (b |> count_instructions 1 |> upd_sequence (setCategory DCS)
                    |> upd_sequence (setFinalChar finalChar)).

Definition put (ch : Z) (b : t) : t :=
  match _hookedParser b with
  | Some x => mk (_sequence b) (_current b) (_instructions b) (_handler b) (Some (pass x ch))
  | None => b
  end.

Definition unhook (b : t) : t :=
  match _hookedParser b with
  | Some x => mk (_sequence b) (_current b) (_instructions b) (finalize x (_handler b)) None
  | None => b
  end.

(** The [ParserEvents] interface of the builder. *)
Definition on_event (b : t) (e : Event) : option t :=
  match e with
  | Ev_error => Some b
  | Ev_print cp => Some (print cp b)
  | Ev_printText chars cells => Some (printText chars cells b)
  | Ev_printEnd => Some (printEnd b)
  | Ev_execute ch => Some (execute ch b)
  | Ev_clear => Some (clear b)
  | Ev_collect ch => Some (collect ch b)
  | Ev_collectLeader ch => Some (collectLeader ch b)
  | Ev_param ch => param ch b
  | Ev_paramDigit ch => paramDigit ch b
  | Ev_paramSeparator => paramSeparator b
  | Ev_paramSubSeparator => paramSubSeparator b
  | Ev_dispatchESC ch => dispatchESC ch b
  | Ev_dispatchCSI ch => dispatchCSI ch b
  | Ev_startOSC => Some (startOSC b)
  | Ev_putOSC ch => Some (putOSC ch b)
  | Ev_dispatchOSC => dispatchOSC b
  | Ev_hook ch => hook ch b
  | Ev_put ch => Some (put ch b)
  | Ev_unhook => Some (unhook b)
  | Ev_startAPC | Ev_putAPC _ | Ev_dispatchAPC
  | Ev_startPM | Ev_putPM _ | Ev_dispatchPM => Some b
  end.

Definition maxBulk (o : option t) : nat :=
  match o with Some b => handler_maxBulkTextSequenceWidth (_handler b) | None => 0%nat end.

#[global] Instance listener : ParserEvents (option t) := {|
  listen o e := o ≫= fun b => on_event b e;
  maxBulkTextSequenceWidth := maxBulk
|}.
End SequenceBuilder.
Arguments t : clear implicits.
End SequenceBuilder.

(** ** The parameter string *)

(** Parameter bytes: the first parameter's digits, then each further parameter
    with its separator ([true] for a sub-parameter, ':'). *)
Definition params_text (first : list Z) (more : list (bool * list Z)) : list Z :=
  first ++ mjoin ((fun '(sub, ds) => (if (sub : bool) then 0x3A else 0x3B) :: ds) <$> more).

(** The events of a parameter byte on the parameter builder alone. *)
Definition pb_event (pb : SequenceParameterBuilder) (b : Z) : option SequenceParameterBuilder :=
  if b =? 0x3B then nextParameter pb
  else if b =? 0x3A then nextSubParameter pb
  else multiplyBy10AndAdd pb (u8 (b - 0x30)).

Definition pb_run (pb : SequenceParameterBuilder) (text : list Z)
    : option SequenceParameterBuilder :=
  foldl (fun o b => o ≫= fun pb => pb_event pb b) (Some pb) text.

(** The builder holds the parameters [vals] with sub-parameter marks [flags]:
    the marks sit in the top [length vals] bits of the test word. *)
Record pb_holds (vals : list Z) (flags : list bool) (pb : SequenceParameterBuilder) : Prop := {
  holds_length : length vals = length flags;
  holds_bound : (1 <= length vals <= 16)%nat;
  holds_values : take (length vals) (_values (_parameters pb)) = vals;
  holds_array : length (_values (_parameters pb)) = MaxParameters;
  holds_current : _currentParameter pb = (length vals - 1)%nat;
  holds_nonneg : 0 <= _subParameterTest (_parameters pb);
  holds_flags : forall j, 0 <= j ->
    Z.testbit (_subParameterTest (_parameters pb)) j =
      (16 - Z.of_nat (length vals) <=? j) &&
      nth (Z.to_nat (j - (16 - Z.of_nat (length vals)))) flags false
}.

Lemma take_insert_last {A} (l vs : list A) v w :
  take (S (length vs)) l = vs ++ [v] ->
  take (S (length vs)) (<[length vs := w]> l) = vs ++ [w].
Proof.
  intros Htake. rewrite take_insert_lt by lia. rewrite Htake.
  rewrite insert_app_r_alt by lia. by rewrite Nat.sub_diag.
Qed.

Lemma builder_store_last vs v flags pb w :
  pb_holds (vs ++ [v]) flags pb ->
  exists pb', builder_store pb w = Some pb' /\ pb_holds (vs ++ [w]) flags pb'.
Proof.
  intros [Hl Hb Hv Ha Hc Hn Hf]. unfold builder_store.
  rewrite length_app in *. simpl in *.
  replace (length vs + 1 - 1)%nat with (length vs) in Hc by lia.
  rewrite Hc, Ha. unfold MaxParameters. destruct (Nat.ltb_spec (length vs) 16); [|lia].
  eexists; split; [done|].
  split; simpl; rewrite ?length_app, ?length_insert; simpl; try done; try lia.
  rewrite Nat.add_1_r in *. by eapply take_insert_last.
Qed.

Lemma multiplyBy10AndAdd_holds vs v flags pb d :
  pb_holds (vs ++ [v]) flags pb ->
  exists pb', multiplyBy10AndAdd pb d = Some pb' /\
              pb_holds (vs ++ [u16 (v * 10 + d)]) flags pb'.
Proof.
  intros Hh. unfold multiplyBy10AndAdd.
  assert (Hcur : _values (_parameters pb) !! _currentParameter pb = Some v).
  { destruct Hh as [Hl Hb Hv Ha Hc Hn Hf]. rewrite Hc. rewrite length_app in *. simpl in *.
    rewrite <- (lookup_take_lt _ (length vs + 1)) by lia. rewrite Hv.
    replace (length vs + 1 - 1)%nat with (length vs) by lia.
    by rewrite list_lookup_middle. }
  rewrite Hcur. simpl. by apply (builder_store_last vs v).
Qed.

(** Shifting in one more mark. *)
Lemma marks_snoc test n flags mark :
  (length flags = n)%nat -> (1 <= n < 16)%nat ->
  (forall j, 0 <= j -> Z.testbit test j =
     (16 - Z.of_nat n <=? j) && nth (Z.to_nat (j - (16 - Z.of_nat n))) flags false) ->
  forall j, 0 <= j ->
    Z.testbit (Z.lor (Z.shiftr test 1) (if (mark : bool) then Z.shiftl 1 15 else 0)) j =
      (16 - Z.of_nat (S n) <=? j) &&
      nth (Z.to_nat (j - (16 - Z.of_nat (S n)))) (flags ++ [mark]) false.
Proof.
  intros Hlen Hn Hf j Hj. rewrite Z.lor_spec, Z.shiftr_spec, Hf by lia.
  replace (Z.testbit (if mark then Z.shiftl 1 15 else 0) j) with (mark && (j =? 15)).
  2: { destruct mark; simpl; [|by rewrite Z.bits_0].
       rewrite Z.shiftl_spec by lia.
       destruct (Z.eqb_spec j 15) as [->|]; [done|].
       destruct (Z.lt_ge_cases j 15); [by rewrite Z.testbit_neg_r by lia|].
       symmetry. apply (Z.bits_above_log2 1); [lia|]. simpl. lia. }
  destruct (Z.leb_spec (16 - Z.of_nat (S n)) j), (Z.leb_spec (16 - Z.of_nat n) (j + 1));
    try lia; simpl.
  - replace (j + 1 - (16 - Z.of_nat n)) with (j - (16 - Z.of_nat (S n))) by lia.
    destruct (Z.eqb_spec j 15) as [->|].
    + rewrite app_nth2 by lia. rewrite nth_overflow by lia.
      replace (Z.to_nat _ - length flags)%nat with 0%nat by lia. by destruct mark.
    + destruct (Z.lt_ge_cases j 15).
      * rewrite app_nth1 by lia. by rewrite andb_false_r, orb_false_r.
      * rewrite !nth_overflow by (rewrite ?length_app; simpl; lia). by rewrite andb_false_r.
Qed.

Lemma next_holds vals flags pb (mark : bool) :
  pb_holds vals flags pb ->
  (length vals < 16)%nat ->
  exists pb', (if mark then nextSubParameter pb else nextParameter pb) = Some pb' /\
              pb_holds (vals ++ [0]) (flags ++ [mark]) pb'.
Proof.
  intros [Hl Hb Hv Ha Hc Hn Hf] Hlt.
  set (test' := Z.lor (Z.shiftr (_subParameterTest (_parameters pb)) 1)
                  (if mark then Z.shiftl 1 15 else 0)).
  assert (Hmarks := marks_snoc _ _ flags mark (eq_sym Hl) (conj (proj1 Hb) Hlt) Hf).
  fold test' in Hmarks.
  assert (Hnonneg : 0 <= test').
  { apply Z.lor_nonneg. split; [by apply Z.shiftr_nonneg|]. by destruct mark. }
  assert (Hpb : (if mark then nextSubParameter pb else nextParameter pb) =
    Some (mkBuilder (mkSequenceParameters
            (<[length vals := 0]> (_values (_parameters pb))) test'
            (_count (_parameters pb))) (length vals))).
  { unfold nextSubParameter, nextParameter, builder_store, MaxParameters in *.
    rewrite Hc. simpl. rewrite Ha.
    replace (S (length vals - 1)) with (length vals) by lia.
    destruct (Nat.eqb_spec (length vals - 1) 16); [lia|].
    destruct (Nat.ltb_spec (length vals) 16); [|lia]. simpl. subst test'.
    destruct mark; simpl; [|by rewrite Z.lor_0_r].
    unfold u16. rewrite Z.mod_small; [done|].
    split; [done|]. apply Z.bounded_iff_bits_nonneg; [lia|done|].
    intros j Hj. rewrite Hmarks by lia. rewrite nth_overflow, andb_false_r; [done|].
    rewrite length_app. simpl. lia. }
  eexists; split; [exact Hpb|].
  split; simpl; rewrite ?length_app, ?length_insert; simpl; try lia; try done.
  - rewrite Nat.add_1_r, (take_S_r _ _ 0).
    + by rewrite take_insert_ge, Hv.
    + apply list_lookup_insert_eq. unfold MaxParameters in *. lia.
  - intros j Hj. rewrite Nat.add_1_r. by apply Hmarks.
Qed.

(** The seventeenth parameter: the iterator is stepped to [end()] and written
    through. *)
Lemma next_overflow vals flags pb (mark : bool) :
  pb_holds vals flags pb -> (length vals = 16)%nat ->
  (if mark then nextSubParameter pb else nextParameter pb) = None.
Proof.
  intros [Hl Hb Hv Ha Hc Hn Hf] H16.
  unfold nextSubParameter, nextParameter, builder_store, MaxParameters in *.
  rewrite Hc, H16. simpl. rewrite Ha. by destruct mark.
Qed.

Lemma pb_run_None text :
  foldl (fun o b => o ≫= fun pb => pb_event pb b) None text = None.
Proof. by induction text. Qed.

Lemma pb_run_app pb t1 t2 : pb_run pb (t1 ++ t2) = pb_run pb t1 ≫= fun pb' => pb_run pb' t2.
Proof.
  unfold pb_run. rewrite foldl_app.
  destruct (foldl _ _ t1); simpl; [done | apply pb_run_None].
Qed.

Lemma pb_run_cons pb b text : pb_run pb (b :: text) = pb_event pb b ≫= fun pb' => pb_run pb' text.
Proof.
  unfold pb_run. simpl. destruct (pb_event pb b); simpl; [done | apply pb_run_None].
Qed.

Lemma u16_step x d : u16 (u16 x * 10 + d) = u16 (x * 10 + d).
Proof.
  unfold u16. rewrite <- (Z.add_mod_idemp_l (x mod 2 ^ 16 * 10)) by lia.
  rewrite Z.mul_mod_idemp_l by lia. by rewrite Z.add_mod_idemp_l by lia.
Qed.

Lemma pb_run_digits vs x flags pb ds :
  pb_holds (vs ++ [u16 x]) flags pb -> digits ds ->
  exists pb', pb_run pb ds = Some pb' /\
    pb_holds (vs ++ [u16 (foldl (fun acc d => acc * 10 + (d - 0x30)) x ds)]) flags pb'.
Proof.
  intros Hh Hds. revert x pb Hh.
  induction Hds as [|d ds Hd Hds IH]; intros x pb Hh; [by exists pb|].
  rewrite pb_run_cons. unfold pb_event.
  destruct (Z.eqb_spec d 0x3B); [lia|]. destruct (Z.eqb_spec d 0x3A); [lia|].
  destruct (multiplyBy10AndAdd_holds vs _ _ _ (u8 (d - 0x30)) Hh) as (pb1 & -> & Hh1).
  simpl. rewrite u16_step in Hh1.
  unfold u8 in Hh1. rewrite (Z.mod_small (d - 0x30)) in Hh1 by lia. by apply IH.
Qed.

Lemma pb_event_sep pb (mark : bool) :
  pb_event pb (if mark then 0x3A else 0x3B) =
    if mark then nextSubParameter pb else nextParameter pb.
Proof. by destruct mark. Qed.

Definition more_values (more : list (bool * list Z)) : list Z :=
  (fun '(_, ds) => u16 (decimal ds)) <$> more.

Lemma pb_run_more vals flags pb more :
  pb_holds vals flags pb -> Forall (fun p => digits p.2) more ->
  let text := mjoin ((fun '(sub, ds) => (if (sub : bool) then 0x3A else 0x3B) :: ds) <$> more) in
  if (length vals + length more <=? 16)%nat then
    exists pb', pb_run pb text = Some pb' /\
      pb_holds (vals ++ more_values more) (flags ++ more.*1) pb'
  else pb_run pb text = None.
Proof.
  intros Hh Hds. simpl. revert vals flags pb Hh.
  induction Hds as [|[mark ds] more Hd Hds IH]; intros vals flags pb Hh; simpl in *.
  - destruct (Nat.leb_spec (length vals + 0) 16) as [_|Hgt];
      [|pose proof (holds_bound _ _ _ Hh); lia].
    exists pb. by rewrite !app_nil_r.
  - rewrite pb_run_cons, pb_event_sep.
    destruct (decide (length vals = 16)%nat) as [H16|H16].
    { rewrite (next_overflow _ _ _ mark Hh H16).
      destruct (Nat.leb_spec (length vals + S (length more)) 16); [lia|done]. }
    destruct (next_holds _ _ _ mark Hh) as (pb1 & -> & Hh1).
    { pose proof (holds_bound _ _ _ Hh). lia. }
    simpl. rewrite pb_run_app.
    change (vals ++ [0]) with (vals ++ [u16 0]) in Hh1.
    destruct (pb_run_digits _ 0 _ _ ds Hh1 Hd) as (pb2 & -> & Hh2). simpl.
    specialize (IH _ _ _ Hh2). rewrite length_app in IH. simpl in IH.
    rewrite <- Nat.add_assoc in IH. simpl in IH. fold (decimal ds) in IH.
    rewrite <- !app_assoc in IH. exact IH.
Qed.

(** ** Freezing the parameters *)

Definition params_values (first : list Z) (more : list (bool * list Z)) : list Z :=
  u16 (decimal first) :: more_values more.

(** What a dispatched sequence exposes of its parameters: nothing when the
    only parameter is 0 (or empty), else every value with its mark. *)
Definition holds_params (first : list Z) (more : list (bool * list Z))
    (ps : SequenceParameters) : Prop :=
  let vals := params_values first more in
  _count ps = (if bool_decide (vals = [0%Z]) then 0 else length vals)%nat /\
  take (length vals) (_values ps) = vals /\
  forall i, isSubParameter ps i = nth i (false :: more.*1) false.

Lemma isSubParameter_testbit ps i :
  isSubParameter ps i = Z.testbit (_subParameterTest ps) (Z.of_nat i).
Proof.
  unfold isSubParameter. set (z := _subParameterTest ps).
  destruct (Z.testbit z (Z.of_nat i)) eqn:E.
  - destruct (Z.eqb_spec (Z.land z (Z.shiftl 1 (Z.of_nat i))) 0) as [Hz|]; [|done].
    apply (f_equal (fun w => Z.testbit w (Z.of_nat i))) in Hz.
    rewrite Z.land_spec, E, Z.shiftl_spec, Z.sub_diag, Z.bits_0 in Hz by lia. done.
  - apply negb_false_iff, Z.eqb_eq, Z.bits_inj. intros j.
    rewrite Z.land_spec, Z.bits_0.
    destruct (Z.lt_ge_cases j 0); [by rewrite Z.testbit_neg_r|].
    rewrite Z.shiftl_spec by done.
    destruct (Z.eq_dec j (Z.of_nat i)) as [->|Hne]; [by rewrite E|].
    apply andb_false_iff. right.
    destruct (Z.lt_ge_cases j (Z.of_nat i)); [by rewrite Z.testbit_neg_r by lia|].
    apply (Z.bits_above_log2 1); [lia|]. simpl. lia.
Qed.

Lemma fixiate_holds first more pb :
  pb_holds (params_values first more) (false :: more.*1) pb ->
  exists pb', fixiate pb = Some pb' /\ holds_params first more (_parameters pb') /\
              _currentParameter pb' = _currentParameter pb.
Proof.
  intros [Hl Hb Hv Ha Hc Hn Hf]. unfold holds_params.
  remember (params_values first more) as vals eqn:Evals.
  assert (Hcount : builder_count pb =
    (if bool_decide (vals = [0%Z]) then 0 else length vals)%nat).
  { unfold builder_count. rewrite Hc.
    assert (H0 : _values (_parameters pb) !! 0%nat = Some (u16 (decimal first))).
    { rewrite <- (lookup_take_lt _ (length vals)) by lia. by rewrite Hv, Evals. }
    rewrite H0. cbn [default]. replace (S (length vals - 1)) with (length vals) by lia.
    destruct (Nat.eqb_spec (length vals) 1) as [H1|H1]; cbn [negb andb].
    - assert (more = []) as ->.
      { destruct more; [done|]. rewrite Evals in H1. simpl in H1. lia. }
      rewrite Evals. unfold params_values, more_values. simpl.
      destruct (Z.eqb_spec (u16 (decimal first)) 0) as [->|Hne]; [done|].
      rewrite bool_decide_false; [done|congruence].
    - rewrite bool_decide_false; [done|]. intros Hz. rewrite Hz in H1. by simpl in H1. }
  unfold fixiate. rewrite Hcount.
  destruct (Nat.leb_spec (if bool_decide (vals = [0%Z]) then 0 else length vals) 16) as [_|Hgt].
  2: { case_bool_decide; lia. }
  eexists. split; [done|]. split; [|done].
  split; [done|]. split; [done|].
  intros i. rewrite isSubParameter_testbit. cbn [_subParameterTest _parameters].
  case_bool_decide as Hz.
  - rewrite Z.shiftr_spec, Hf by lia. rewrite Hz in *.
    destruct more; [|simpl in Hl; lia]. simpl fmap.
    rewrite !(nth_overflow _ false), andb_false_r by (simpl; lia). by destruct i as [|[|]].
  - rewrite Z.shiftr_spec, Hf by lia.
    destruct (Z.leb_spec (16 - Z.of_nat (length vals))
                (Z.of_nat i + (16 - Z.of_nat (length vals)))); [|lia].
    simpl. by replace (Z.to_nat _) with i by lia.
Qed.

(** ** From bytes to dispatched sequences *)

Section EndToEnd.
Context {H X : Type} {EX : ParserExtension H X} {SH : SequenceHandler H X}.
Abbreviation SB := (SequenceBuilder.t H X).
Implicit Types b : SB.
Import SequenceBuilder.

(** The parameter array keeps its sixteen elements. *)
Definition sb_wf b : Prop := length (_values (parameters (_sequence b))) = MaxParameters.

Lemma put_get_parameterBuilder b : put_parameterBuilder (_parameterBuilder b) b = b.
Proof. by destruct b as [[] ? ? ? ?]. Qed.

Lemma get_put_parameterBuilder pb b : _parameterBuilder (put_parameterBuilder pb b) = pb.
Proof. by destruct pb. Qed.

Lemma put_put_parameterBuilder pb pb' b :
  put_parameterBuilder pb' (put_parameterBuilder pb b) = put_parameterBuilder pb' b.
Proof. done. Qed.

Lemma listen_None evs : foldl listen (None : option SB) evs = None.
Proof. by induction evs. Qed.

Lemma on_param_event b c :
  on_event b (param_event c) =
    pb ← pb_event (_parameterBuilder b) c; Some (put_parameterBuilder pb b).
Proof.
  unfold param_event, pb_event.
  by destruct (c =? 0x3B), (c =? 0x3A).
Qed.

(** Parameter bytes act on the parameters only. *)
Lemma listen_params b text :
  foldl listen (Some b) (param_event <$> text) =
    pb ← pb_run (_parameterBuilder b) text; Some (put_parameterBuilder pb b).
Proof.
  revert b. induction text as [|c text IH]; intros b.
  - simpl. by rewrite put_get_parameterBuilder.
  - rewrite pb_run_cons. cbn [fmap list_fmap foldl listen listener mbind option_bind].
    rewrite on_param_event. destruct (pb_event _ c) as [pb|]; simpl.
    + by rewrite IH, get_put_parameterBuilder.
    + apply listen_None.
Qed.

Lemma listen_collect b chs :
  foldl listen (Some b) (Ev_collect <$> chs) =
    Some (upd_sequence (fun s => setIntermediates (_intermediateCharacters s ++ chs) s) b).
Proof.
  revert b. induction chs as [|c chs IH]; intros b; simpl.
  - destruct b as [[] ? ? ? ?]. unfold upd_sequence, setIntermediates. simpl.
    by rewrite app_nil_r.
  - rewrite IH. unfold upd_sequence, collect, setIntermediates. simpl.
    by rewrite <- app_assoc.
Qed.

(** After [clear] the builder holds one parameter, 0. *)
Lemma clear_holds b : sb_wf b -> pb_holds [0] [false] (_parameterBuilder (clear b)).
Proof.
  intros Hwf. unfold sb_wf in Hwf. split; simpl; try done; try lia.
  - destruct (_values _) as [|v vs]; [done|]. by destruct vs.
  - by rewrite length_insert.
  - intros j Hj. rewrite Z.bits_0. symmetry. apply andb_false_iff.
    right. by destruct (Z.to_nat _) as [|[|]].
Qed.

Lemma params_run b first more :
  sb_wf b -> digits first -> Forall (fun p => digits p.2) more ->
  if (length more <? 16)%nat then
    exists pb, pb_run (_parameterBuilder (clear b)) (params_text first more) = Some pb /\
      pb_holds (params_values first more) (false :: more.*1) pb
  else pb_run (_parameterBuilder (clear b)) (params_text first more) = None.
Proof.
  intros Hwf Hfirst Hmore. unfold params_text. rewrite pb_run_app.
  destruct (pb_run_digits [] 0 [false] (_parameterBuilder (clear b)) first)
    as (pb1 & -> & Hh1); [by apply clear_holds|done|]. simpl in *.
  fold (decimal first) in Hh1.
  pose proof (pb_run_more _ _ _ more Hh1 Hmore) as Hrun. simpl in Hrun.
  by destruct (length more).
Qed.

(** The sequence a control sequence dispatches. *)
Definition is_csi (leader : option Z) (first : list Z) (more : list (bool * list Z))
    (inters : list Z) (final : Z) (seq : Sequence) : Prop :=
  _category seq = CSI /\ _leaderSymbol seq = default 0 leader /\
  _intermediateCharacters seq = inters /\ _finalChar seq = final /\
  _dataString seq = [] /\ holds_params first more (parameters seq).

Lemma listen_csi b leader first more inters final :
  sb_wf b -> digits first -> Forall (fun p => digits p.2) more ->
  let res := foldl listen (Some b) (csi_events leader (params_text first more) inters final) in
  if (length more <? 16)%nat then
    exists seq b', is_csi leader first more inters final seq /\ res = Some b' /\
      _handler b' = (processSequence (_handler b) seq).1 /\ sb_wf b'
  else res = None.
Proof.
  intros Hwf Hfirst Hmore res. subst res. unfold csi_events.
  rewrite !foldl_app.
  change (foldl listen (Some b) [Ev_clear; Ev_clear]) with (Some (clear (clear b))).
  set (b1 := clear b).
  assert (Hwf1 : sb_wf b1).
  { unfold sb_wf in *. subst b1. simpl. by rewrite length_insert. }
  pose proof (params_run b1 first more Hwf1 Hfirst Hmore) as Hrun.
  set (b2 := clear b1) in *.
  assert (Hb2 : exists b3, foldl listen (Some b2) (Ev_collectLeader <$> option_list leader)
      = Some b3 /\ _parameterBuilder b3 = _parameterBuilder b2 /\ _handler b3 = _handler b /\
      _leaderSymbol (_sequence b3) = default 0 leader /\
      _intermediateCharacters (_sequence b3) = [] /\ _dataString (_sequence b3) = []).
  { by destruct leader; eexists. }
  destruct Hb2 as (b3 & -> & Hpb3 & Hh3 & Hlead & Hint & Hdata).
  rewrite listen_params, Hpb3.
  destruct (length more <? 16)%nat; [|rewrite Hrun; simpl; by rewrite listen_None].
  destruct Hrun as (pb & -> & Hholds). cbn [mbind option_bind].
  rewrite listen_collect.
  match goal with |- context [foldl listen (Some ?c) [Ev_dispatchCSI final]] =>
    change (foldl listen (Some c) [Ev_dispatchCSI final]) with (dispatchCSI final c) end.
  destruct (fixiate_holds _ _ _ Hholds) as (pb' & Hfix & Hps & Hcur).
  unfold dispatchCSI, handleSequence, with_parameters.
  change (_parameterBuilder _) with (mkBuilder (_parameters pb) (_currentParameter pb)).
  replace (mkBuilder (_parameters pb) (_currentParameter pb)) with pb by (by destruct pb).
  rewrite Hfix. cbn [mbind option_bind].
  destruct (processSequence _ _) as [h hooked] eqn:Hproc.
  eexists _, _. split; [|split; [done|]].
  2: { simpl in *. rewrite Hh3 in Hproc. rewrite Hproc. split; [done|].
       unfold sb_wf. simpl. unfold fixiate in Hfix. case_match; [|done].
       simplify_eq/=. apply (holds_array _ _ _ Hholds). }
  unfold is_csi. simpl. rewrite Hlead, Hint. done.
Qed.
End EndToEnd.

(** ** Operating system commands *)

Lemma decimal_step_mono ds acc :
  digits ds -> 0 <= acc -> acc <= foldl (fun acc d => acc * 10 + (d - 0x30)) acc ds.
Proof.
  intros Hds. revert acc. induction Hds as [|d ds Hd Hds IH]; intros acc Hacc; simpl; [lia|].
  specialize (IH (acc * 10 + (d - 0x30))). lia.
Qed.

Lemma extractDigits_digits ds rest acc i :
  digits ds -> 0 <= acc ->
  foldl (fun acc d => acc * 10 + (d - 0x30)) acc ds < 2 ^ 31 ->
  match rest with ch :: _ => isdigit ch = false | [] => True end ->
  extractDigits (ds ++ rest) acc i =
    Some (foldl (fun acc d => acc * 10 + (d - 0x30)) acc ds, (i + length ds)%nat).
Proof.
  intros Hds. revert acc i. induction Hds as [|d ds Hd Hds IH]; intros acc i Hacc Hlt Hrest.
  - simpl. rewrite Nat.add_0_r. destruct rest as [|ch rest]; simpl; [done|].
    by rewrite Hrest.
  - simpl in *. replace (isdigit d) with true by (unfold isdigit; lia).
    pose proof (decimal_step_mono ds (acc * 10 + (d - 0x30)) Hds).
    replace (int_range (acc * 10 + (d - 0x30))) with true by (unfold int_range; lia).
    rewrite IH by (done || lia). do 2 f_equal. lia.
Qed.

Lemma extractCodePrefix_digits ds text :
  ds ≠ [] -> digits ds -> decimal ds < 2 ^ 31 ->
  extractCodePrefix (ds ++ 0x3B :: text) = Some (decimal ds, S (length ds)).
Proof.
  intros Hne Hds Hlt. unfold extractCodePrefix.
  rewrite (extractDigits_digits ds (0x3B :: text) 0 0) by done. simpl.
  fold (decimal ds). destruct ds as [|d ds]; [done|]. simpl.
  by rewrite list_lookup_middle.
Qed.

Section Osc.
Context {H X : Type} {EX : ParserExtension H X} {SH : SequenceHandler H X}.
Implicit Types b : SequenceBuilder.t H X.
Import SequenceBuilder.

(** The payload is collected up to [MaxOscLength - 1] bytes. *)
Lemma listen_putOSC b payload :
  (length (_intermediateCharacters (_sequence b)) <= 511)%nat ->
  foldl listen (Some b) (Ev_putOSC <$> payload) =
    Some (upd_sequence (fun s =>
      setIntermediates (take 511 (_intermediateCharacters s ++ payload)) s) b).
Proof.
  revert b. induction payload as [|c payload IH]; intros b Hlen.
  - simpl. unfold upd_sequence. destruct b as [[] ? ? ? ?]. unfold setIntermediates.
    simpl in *. by rewrite app_nil_r, take_ge by lia.
  - change (foldl listen (Some b) (Ev_putOSC <$> c :: payload))
      with (foldl listen (Some (putOSC c b)) (Ev_putOSC <$> payload)).
    unfold putOSC, MaxOscLength.
    destruct (Nat.ltb_spec (length (_intermediateCharacters (_sequence b)) + 1) 512).
    + rewrite IH by (simpl; rewrite length_app; simpl; lia).
      unfold upd_sequence, setIntermediates. simpl. by rewrite <- app_assoc.
    + rewrite IH by lia. unfold upd_sequence, setIntermediates.
      by rewrite !take_app_ge, (proj2 (Nat.sub_0_le 511 _)) by lia.
Qed.

(** The sequence an operating system command dispatches. *)
Definition is_osc (code : Z) (text : list Z) (seq : Sequence) : Prop :=
  _category seq = OSC /\ _intermediateCharacters seq = text /\
  selector seq = mkFunctionSelector OSC 0 (u16 code) 0 0.

Lemma listen_osc b payload code skip :
  sb_wf b -> (length payload <= 511)%nat ->
  extractCodePrefix payload = Some (code, skip) ->
  exists seq b', is_osc code (drop skip payload) seq /\
    foldl listen (Some b)
      ([Ev_clear; Ev_startOSC] ++ (Ev_putOSC <$> payload) ++ [Ev_dispatchOSC]) = Some b' /\
    _handler b' = (processSequence (_handler b) seq).1 /\
    _intermediateCharacters (_sequence b') = [] /\ sb_wf b'.
Proof.
  intros Hwf Hlen Hcode. unfold is_osc. rewrite !foldl_app.
  change (foldl listen (Some b) [Ev_clear; Ev_startOSC]) with (Some (startOSC (clear b))).
  rewrite listen_putOSC by (simpl; lia).
  match goal with |- context [foldl listen (Some ?c) [Ev_dispatchOSC]] =>
    change (foldl listen (Some c) [Ev_dispatchOSC]) with (dispatchOSC c) end.
  unfold dispatchOSC. simpl. rewrite take_ge, Hcode by lia. simpl.
  unfold with_parameters, builder_set, builder_store. simpl.
  unfold sb_wf, MaxParameters in *. rewrite length_insert, Hwf. simpl.
  unfold handleSequence, with_parameters, fixiate, builder_count. simpl.
  destruct (_values (parameters (_sequence b))) as [|v vs]; [done|]. simpl.
  remember (u16 code) as code' eqn:Ecode.
  destruct (Z.eqb_spec code' 0) as [Hz|Hz]; simpl;
    (destruct (processSequence _ _) as [h hooked] eqn:Hproc; eexists _, _;
     split; [|split; [done|]]; [|simpl in *; rewrite Hproc; done]);
    repeat split; unfold selector; simpl; by rewrite ?Hz, ?take_ge by lia.
Qed.
End Osc.

(** ** Properties *)

(** A handler that logs what it is given, for the witnesses. *)
#[export] Instance log_handler : SequenceHandler (list Sequence) (SimpleStringCollector (list Sequence)) := {|
  executeControlCode h _ := h;
  processSequence h s := (h ++ [s], None);
  writeText h _ := h;
  writeTextBulk h _ _ := h;
  writeTextEnd h := h;
  handler_maxBulkTextSequenceWidth _ := 0%nat
|}.

Abbreviation log_builder := (SequenceBuilder.t (list Sequence) (SimpleStringCollector (list Sequence))).

Lemma csi_dispatched (U : LibUnicode) (H X : Type) (EX : ParserExtension H X)
    (SH : SequenceHandler H X) (p : Parser (option (SequenceBuilder.t H X)))
    (b : SequenceBuilder.t H X) (leader : option Z) (first : list Z)
    (more : list (bool * list Z)) (inters : list Z) (final : Z) :
  _state p = Ground -> _eventListener p = Some b -> sb_wf b ->
  csi_wf leader (params_text first more) inters final ->
  digits first -> Forall (fun q => digits q.2) more -> (length more < 16)%nat ->
  let p' := fsm_run p (csi_text leader (params_text first more) inters final) in
  _state p' = Ground /\
  exists seq b', is_csi leader first more inters final seq /\
    _eventListener p' = Some b' /\ sb_wf b' /\
    SequenceBuilder._handler b' =
      (processSequence (writeTextEnd (SequenceBuilder._handler b)) seq).1.
Proof.
  intros Hs Hl Hwf Hcsi Hfirst Hmore Hlen p'.
  destruct (runs_csi p leader (params_text first more) inters final) as [Hs' Hl'];
    [by rewrite Hs | done |].
  split; [done|]. subst p'. rewrite Hl', Hs, Hl.
  pose proof (listen_csi (SequenceBuilder.printEnd b) leader first more inters final
    Hwf Hfirst Hmore) as Hcsi'.
  rewrite (proj2 (Nat.ltb_lt _ _) Hlen) in Hcsi'.
  destruct Hcsi' as (seq & b' & Hseq & Hres & Hh & Hwf'). exists seq, b'.
  rewrite foldl_app. done.
Qed.

(** C3: A control sequence with at most sixteen parameters, read in Ground, is dispatched
    exactly once and intact: the handler receives the leader, the intermediates, the final byte,
    every parameter value modulo 2^16 and every sub-parameter mark, and the parser is back in
    Ground. *)
Theorem csi_dispatch_correct (U : LibUnicode) (H X : Type) (EX : ParserExtension H X)
    (SH : SequenceHandler H X) (p : Parser (option (SequenceBuilder.t H X)))
    (b : SequenceBuilder.t H X) (leader : option Z) (first : list Z)
    (more : list (bool * list Z)) (inters : list Z) (final : Z) :
  _state p = Ground -> _eventListener p = Some b -> sb_wf b ->
  csi_wf leader (params_text first more) inters final ->
  digits first -> Forall (fun q => digits q.2) more -> (length more < 16)%nat ->
  let p' := fsm_run p (csi_text leader (params_text first more) inters final) in
  _state p' = Ground /\
  exists seq b', is_csi leader first more inters final seq /\
    _eventListener p' = Some b' /\ sb_wf b' /\
    SequenceBuilder._handler b' =
      (processSequence (writeTextEnd (SequenceBuilder._handler b)) seq).1.
Proof. apply csi_dispatched. Qed.

(** ESC [ ? 38:5;7 h *)
Lemma csi_dispatch_correct_witness :
  let p := mkParser (H := latin1) Ground scan_state_init
             (Some (SequenceBuilder.new [] : log_builder)) in
  let p' := fsm_run p (csi_text (Some 0x3F)
              (params_text [0x33; 0x38] [(true, [0x35]); (false, [0x37])]) [] 0x68) in
  _state p' = Ground /\
  exists seq b', is_csi (Some 0x3F) [0x33; 0x38] [(true, [0x35]); (false, [0x37])] [] 0x68 seq /\
    _eventListener p' = Some b' /\ sb_wf b' /\ SequenceBuilder._handler b' = [seq].
Proof.
  apply (csi_dispatch_correct latin1 (list Sequence) _ _ log_handler
    (mkParser (H := latin1) Ground scan_state_init
       (Some (SequenceBuilder.new [] : log_builder)))
    (SequenceBuilder.new []) (Some 0x3F) [0x33; 0x38] [(true, [0x35]); (false, [0x37])] [] 0x68);
    try done; try (simpl; lia).
  - split; [lia|]. repeat split; repeat constructor; lia.
  - repeat constructor; lia.
  - repeat constructor; simpl; lia.
Defined.

(** C40: The parameter storage is not protected against overflow: a control sequence with more
    than sixteen parameters steps the parameter iterator to end() and writes through it -
    undefined behaviour - although extra parameters are documented to be silently ignored. *)
Theorem csi_too_many_parameters (U : LibUnicode) (H X : Type) (EX : ParserExtension H X)
    (SH : SequenceHandler H X) (p : Parser (option (SequenceBuilder.t H X)))
    (b : SequenceBuilder.t H X) (leader : option Z) (first : list Z)
    (more : list (bool * list Z)) (inters : list Z) (final : Z) :
  _state p = Ground -> _eventListener p = Some b -> sb_wf b ->
  csi_wf leader (params_text first more) inters final ->
  digits first -> Forall (fun q => digits q.2) more -> (16 <= length more)%nat ->
  _eventListener (fsm_run p (csi_text leader (params_text first more) inters final)) = None.
Proof.
  intros Hs Hl Hwf Hcsi Hfirst Hmore Hlen.
  destruct (runs_csi p leader (params_text first more) inters final) as [_ ->];
    [by rewrite Hs | done |].
  rewrite Hs, Hl, foldl_app.
  pose proof (listen_csi (SequenceBuilder.printEnd b) leader first more inters final
    Hwf Hfirst Hmore) as Hcsi'.
  by rewrite (proj2 (Nat.ltb_ge _ _) Hlen) in Hcsi'.
Qed.

(** ESC [ ;;;;;;;;;;;;;;;; m: seventeen empty parameters. *)
Lemma csi_too_many_parameters_witness :
  _eventListener (fsm_run (mkParser (H := latin1) Ground scan_state_init
      (Some (SequenceBuilder.new [] : log_builder)))
    (csi_text None (params_text [] (replicate 16 (false, []))) [] 0x6D)) = None.
Proof.
  apply (csi_too_many_parameters latin1 _ _ _ log_handler _ (SequenceBuilder.new []));
    try done.
  - split; [done|]. repeat split; repeat constructor; lia.
  - repeat constructor; simpl; lia.
  - repeat constructor; simpl; lia.
Defined.

(** An operating system command ESC ] Ps ; Pt BEL of at most 511 payload
    bytes is dispatched as OSC with code Ps (modulo 2^16) and text Pt, and the
    builder is clean afterwards. *)
Lemma osc_dispatch_correct (U : LibUnicode) (H X : Type) (EX : ParserExtension H X)
    (SH : SequenceHandler H X) (p : Parser (option (SequenceBuilder.t H X)))
    (b : SequenceBuilder.t H X) (ds text : list Z) :
  _state p = Ground -> _eventListener p = Some b -> sb_wf b ->
  ds ≠ [] -> digits ds -> decimal ds < 2 ^ 31 ->
  Forall (fun c => 0x20 <= c <= 0xFF) text ->
  (length ds + length text <= 510)%nat ->
  let p' := fsm_run p (osc_text (ds ++ 0x3B :: text)) in
  _state p' = Ground /\
  exists seq b', is_osc (decimal ds) text seq /\ _eventListener p' = Some b' /\
    SequenceBuilder._handler b' =
      (processSequence (writeTextEnd (SequenceBuilder._handler b)) seq).1 /\
    _intermediateCharacters (SequenceBuilder._sequence b') = [] /\ sb_wf b'.
Proof.
  intros Hs Hl Hwf Hne Hds Hlt Htext Hlen p'.
  destruct (runs_osc p (ds ++ 0x3B :: text)) as [Hs' Hl'].
  - by rewrite Hs.
  - apply Forall_app. split; [|by constructor].
    eapply Forall_impl; [exact Hds|]. intros d Hd. simpl in *. lia.
  - split; [done|]. subst p'. rewrite Hl', Hs, Hl, foldl_app.
    destruct (listen_osc (SequenceBuilder.printEnd b) (ds ++ 0x3B :: text) (decimal ds)
      (S (length ds)) Hwf) as (seq & b' & Hseq & Hrest).
    + rewrite length_app. simpl. lia.
    + by apply extractCodePrefix_digits.
    + exists seq, b'. split; [|done].
      by rewrite drop_app_ge, Nat.sub_succ_l, Nat.sub_diag in Hseq by lia.
Qed.
