(* ===== verification/Sort.v ===== *)
(** * [crispy::sort] ([crispy/sort.h]): in-place quicksort with a Lomuto partition

    A container is a list; an access outside it is [None].  [low - 1] is an
    unsigned subtraction, so [i] starts at [2^64 - 1] when [low] is 0. *)
From S2P Require Import Prelude.

Section Sort.
Context {A : Type} (compare : A -> A -> Z).
Implicit Types (c l : list A) (i j k lo hi : nat).

(** [std::swap(container[i], container[j])]. *)
Definition swap c i j : option (list A) :=
  x ← c !! i; y ← c !! j; Some (<[j := x]> (<[i := y]> c)).

(** The loop of [detail::partition]: [n] turns from [j]; [pivot] is a reference
    to [container[high]]. *)
Fixpoint partition_loop (n j high : nat) c (i : Z) : option (list A * Z) :=
  match n with
  | O => Some (c, i)
  | S n =>
      x ← c !! j;
      pivot ← c !! high;
      if compare x pivot <=? 0 then
        let i := u64 (i + 1) in
        c ← swap c (Z.to_nat i) j;
        partition_loop n (S j) high c i
      else partition_loop n (S j) high c i
  end.

(** [detail::partition]. *)
Definition partition c (low high : nat) : option (list A * nat) :=
  '(c, i) ← partition_loop (high - low) low high c (u64 (Z.of_nat low - 1));
  let i := u64 (i + 1) in
  c ← swap c (Z.to_nat i) high;
  Some (c, Z.to_nat i).

(** [sort(container, compare, low, high)]; the recursion is bounded by [fuel]. *)
Fixpoint sort_range (fuel : nat) c (low high : nat) : option (list A) :=
  match fuel with
  | O => None
  | S fuel =>
      if (low <? high)%nat then
        '(c, pi) ← partition c low high;
        c ← (if (0 <? pi)%nat then sort_range fuel c low (pi - 1) else Some c);
        sort_range fuel c (pi + 1) high
      else Some c
  end.

(** [sort(container, compare)]. *)
Definition sort c : option (list A) :=
  let count := length c in
  if (1 <? count)%nat then sort_range count c 0 (count - 1) else Some c.

(** ** Rearrangements inside a range *)

(** [c'] arises from [c] by swaps of positions in [lo..hi]. *)
Inductive swaps lo hi : list A -> list A -> Prop :=
| swaps_refl c : swaps lo hi c c
| swaps_step c c1 c2 i j :
    swaps lo hi c c1 -> (lo <= i <= hi)%nat -> (lo <= j <= hi)%nat ->
    swap c1 i j = Some c2 -> swaps lo hi c c2.

Lemma swap_Some c i j :
  (i < length c)%nat -> (j < length c)%nat -> is_Some (swap c i j).
Proof.
  intros [x Hx]%lookup_lt_is_Some_2 [y Hy]%lookup_lt_is_Some_2.
  unfold swap. rewrite Hx, Hy. simpl. eauto.
Qed.

Lemma swap_lookup c c' i j k :
  swap c i j = Some c' ->
  c' !! k = if decide (k = j) then c !! i else if decide (k = i) then c !! j else c !! k.
Proof.
  unfold swap. destruct (c !! i) as [x|] eqn:Hx; [|done]. simpl.
  destruct (c !! j) as [y|] eqn:Hy; [|done]. intros [= <-].
  pose proof (lookup_lt_Some _ _ _ Hx). pose proof (lookup_lt_Some _ _ _ Hy).
  case_decide as Hj; [subst k; rewrite list_lookup_insert_eq; [done|]|].
  { by rewrite length_insert. }
  rewrite list_lookup_insert_ne by done.
  case_decide; [subst k; by rewrite list_lookup_insert_eq|].
  by rewrite list_lookup_insert_ne.
Qed.

Lemma swap_length c c' i j : swap c i j = Some c' -> length c' = length c.
Proof.
  unfold swap. destruct (c !! i), (c !! j); simpl; try done.
  intros [= <-]. by rewrite !length_insert.
Qed.

Lemma swap_perm c c' i j : swap c i j = Some c' -> c' ≡ₚ c.
Proof.
  unfold swap. destruct (c !! i) as [x|] eqn:Hx; [|done]. simpl.
  destruct (c !! j) as [y|] eqn:Hy; [|done]. intros [= <-].
  by apply Permutation_insert_swap.
Qed.

Lemma swaps_length lo hi c c' : swaps lo hi c c' -> length c' = length c.
Proof.
  induction 1 as [|c c1 c2 i j ? IH Hi Hj Hs]; [done|].
  by rewrite (swap_length _ _ _ _ Hs).
Qed.

Lemma swaps_perm lo hi c c' : swaps lo hi c c' -> c' ≡ₚ c.
Proof.
  induction 1 as [|c c1 c2 i j ? IH Hi Hj Hs]; [done|].
  by rewrite (swap_perm _ _ _ _ Hs).
Qed.

Lemma swaps_trans lo hi c1 c2 c3 : swaps lo hi c1 c2 -> swaps lo hi c2 c3 -> swaps lo hi c1 c3.
Proof.
  intros H12. induction 1 as [|c d d' i j ? IH Hi Hj Hs]; [done|].
  exact (swaps_step _ _ _ _ _ _ _ (IH H12) Hi Hj Hs).
Qed.

Lemma swaps_weaken lo hi lo' hi' c c' :
  (lo' <= lo)%nat -> (hi <= hi')%nat -> swaps lo hi c c' -> swaps lo' hi' c c'.
Proof.
  intros Hlo Hhi. induction 1 as [|c c1 c2 i j ? IH Hi Hj Hs]; [constructor|].
  eapply swaps_step; [exact IH| | |exact Hs]; lia.
Qed.

(** Positions outside the range are untouched. *)
Lemma swaps_outside lo hi c c' k :
  swaps lo hi c c' -> (k < lo \/ hi < k)%nat -> c' !! k = c !! k.
Proof.
  induction 1 as [|c c1 c2 i j ? IH Hi Hj Hs]; intros Hk; [done|].
  rewrite (swap_lookup _ _ _ _ k Hs). repeat case_decide; try lia. by apply IH.
Qed.

(** A property of every element of a range is preserved. *)
Definition all_in (P : A -> Prop) lo hi c : Prop :=
  forall k x, (lo <= k <= hi)%nat -> c !! k = Some x -> P x.

Lemma swaps_all_in P lo hi a b c c' :
  swaps lo hi c c' -> (a <= lo)%nat -> (hi <= b)%nat -> all_in P a b c -> all_in P a b c'.
Proof.
  intros Hs Ha Hb HP. induction Hs as [|c c1 c2 i j ? IH Hi Hj Hs]; [done|].
  intros k x Hk. rewrite (swap_lookup _ _ _ _ k Hs).
  specialize (IH HP). repeat case_decide; intros Hx; eapply IH; try exact Hx; lia.
Qed.

(** ** Correctness *)

Hypothesis compare_total : forall x y, compare x y <= 0 \/ compare y x <= 0.
Hypothesis compare_trans :
  forall x y z, compare x y <= 0 -> compare y z <= 0 -> compare x z <= 0.

(** The loop keeps the elements not above the pivot in [low .. low+k-1] and
    those above it in [low+k .. j-1]. *)
Lemma partition_loop_spec low high p n j c k :
  Z.of_nat (length c) < 2 ^ 64 -> (high < length c)%nat -> c !! high = Some p ->
  (j + n = high)%nat -> (low + k <= j)%nat ->
  (forall m x, (low <= m < low + k)%nat -> c !! m = Some x -> compare x p <= 0) ->
  (forall m x, (low + k <= m < j)%nat -> c !! m = Some x -> 0 < compare x p) ->
  exists c' k', partition_loop n j high c (u64 (Z.of_nat (low + k) - 1)) =
      Some (c', u64 (Z.of_nat (low + k') - 1)) /\
    swaps low high c c' /\ (low + k' <= high)%nat /\ c' !! high = Some p /\
    (forall m x, (low <= m < low + k')%nat -> c' !! m = Some x -> compare x p <= 0) /\
    (forall m x, (low + k' <= m < high)%nat -> c' !! m = Some x -> 0 < compare x p).
Proof.
  intros H64 Hhigh. revert j c k H64 Hhigh.
  induction n as [|n IH]; intros j c k H64 Hhigh Hp Hj Hk Hle Hgt.
  { exists c, k. split; [done|]. replace high with j by lia.
    repeat split; try done; try lia; [constructor | by replace j with high by lia]. }
  simpl. destruct (lookup_lt_is_Some_2 c j) as [x Hx]; [lia|].
  rewrite Hx, Hp. cbn [mbind option_bind].
  destruct (Z.leb_spec (compare x p) 0) as [Hxp|Hxp].
  - rewrite u64_succ.
    replace (Z.of_nat (low + k) - 1 + 1) with (Z.of_nat (low + k)) by lia.
    rewrite u64_small, Nat2Z.id by lia.
    destruct (swap_Some c (low + k) j) as [c1 Hc1]; [lia|lia|].
    rewrite Hc1. cbn [mbind option_bind].
    pose proof (swap_length _ _ _ _ Hc1) as Hlen.
    pose proof (fun m => swap_lookup _ _ _ _ m Hc1) as Hlk.
    replace (Z.of_nat (low + k)) with (Z.of_nat (low + S k) - 1) by lia.
    rewrite <- (u64_small (Z.of_nat (low + S k) - 1)) by lia.
    destruct (IH (S j) c1 (S k)) as (c' & k' & Hrun & Hsw & Hrest);
      try rewrite Hlen; try lia; try done.
    + rewrite Hlk. repeat case_decide; try lia. done.
    + intros m y Hm. rewrite Hlk. case_decide.
      * subst m. replace (low + k)%nat with j by lia. rewrite Hx. by intros [= <-].
      * case_decide; [rewrite Hx; by intros [= <-]|]. apply Hle. lia.
    + intros m y Hm. rewrite Hlk. case_decide; [|case_decide; [lia|]]; apply Hgt; lia.
    + exists c', k'. split; [done|]. split; [|done].
      eapply swaps_trans; [|exact Hsw]. eapply swaps_step; [constructor| | |exact Hc1]; lia.
  - destruct (IH (S j) c k) as (c' & k' & Hrest); try done; try lia.
    + intros m y Hm. destruct (decide (m = j)) as [->|].
      * rewrite Hx. by intros [= <-].
      * apply Hgt. lia.
    + by exists c', k'.
Qed.

Lemma partition_spec c low high :
  Z.of_nat (length c) < 2 ^ 64 -> (low < high < length c)%nat ->
  exists c' pi p, partition c low high = Some (c', pi) /\ swaps low high c c' /\
    (low <= pi <= high)%nat /\ c' !! pi = Some p /\
    (forall m x, (low <= m < pi)%nat -> c' !! m = Some x -> compare x p <= 0) /\
    (forall m x, (pi < m <= high)%nat -> c' !! m = Some x -> 0 < compare x p).
Proof.
  intros H64 Hr. destruct (lookup_lt_is_Some_2 c high) as [p Hp]; [lia|].
  destruct (partition_loop_spec low high p (high - low) low c 0)
    as (c1 & k & Hrun & Hsw & Hk & Hp1 & Hle & Hgt); try done; try lia.
  unfold partition. rewrite Nat.add_0_r in Hrun. rewrite Hrun. cbn [mbind option_bind].
  rewrite u64_succ.
  replace (Z.of_nat (low + k) - 1 + 1) with (Z.of_nat (low + k)) by lia.
  rewrite u64_small, Nat2Z.id by lia.
  pose proof (swaps_length _ _ _ _ Hsw) as Hlen.
  destruct (swap_Some c1 (low + k) high) as [c2 Hc2]; [lia|lia|].
  rewrite Hc2. cbn [mbind option_bind].
  pose proof (fun m => swap_lookup _ _ _ _ m Hc2) as Hlk.
  exists c2, (low + k)%nat, p. repeat split; try lia; try done.
  - eapply swaps_step; [exact Hsw| | |exact Hc2]; lia.
  - rewrite Hlk. repeat case_decide; try done. by replace (low + k)%nat with high by lia.
  - intros m x Hm. rewrite Hlk. repeat case_decide; try lia. apply Hle. lia.
  - intros m x Hm. rewrite Hlk. repeat case_decide; try lia; [|apply Hgt; lia].
    apply Hgt. lia.
Qed.

Definition sorted_in lo hi c : Prop :=
  forall i j x y, (lo <= i < j)%nat -> (j <= hi)%nat ->
    c !! i = Some x -> c !! j = Some y -> compare x y <= 0.

(** A pivot between two sorted parts makes the whole range sorted. *)
Lemma sorted_around_pivot c low pi high p :
  c !! pi = Some p ->
  (forall i j x y, (low <= i < j)%nat -> (j < pi)%nat -> c !! i = Some x -> c !! j = Some y -> compare x y <= 0) ->
  sorted_in (pi + 1) high c ->
  (forall m x, (low <= m < pi)%nat -> c !! m = Some x -> compare x p <= 0) ->
  (forall m x, (pi < m <= high)%nat -> c !! m = Some x -> compare p x <= 0) ->
  sorted_in low high c.
Proof.
  intros Hp Hl Hr Hle Hge i j x y Hi Hj Hx Hy.
  destruct (decide (pi < i)%nat); [by eapply Hr; [..|exact Hx|exact Hy]; lia|].
  destruct (decide (j < pi)%nat); [by eapply Hl; [..|exact Hx|exact Hy]; lia|].
  apply (compare_trans _ p).
  - destruct (decide (i = pi)) as [->|]; [|eapply Hle; [|exact Hx]; lia].
    assert (x = p) as -> by congruence. destruct (compare_total p p); done.
  - destruct (decide (j = pi)) as [->|]; [|eapply Hge; [|exact Hy]; lia].
    assert (y = p) as -> by congruence. destruct (compare_total p p); done.
Qed.

Lemma sort_range_spec fuel c low high :
  Z.of_nat (length c) < 2 ^ 64 -> (high < length c)%nat -> (high - low < fuel)%nat ->
  exists c', sort_range fuel c low high = Some c' /\ swaps low high c c' /\
    sorted_in low high c'.
Proof.
  revert c low high. induction fuel as [|fuel IH]; intros c low high H64 Hhigh Hfuel; [lia|].
  simpl. destruct (Nat.ltb_spec low high) as [Hlt|Hge].
  2: { exists c. split; [done|]. split; [constructor|]. intros i j x y; lia. }
  destruct (partition_spec c low high) as (c1 & pi & p & -> & Hsw & Hpi & Hp & Hle & Hgt);
    [done|lia|]. cbn [mbind option_bind].
  pose proof (swaps_length _ _ _ _ Hsw) as Hlen1.
  assert (Hleft : exists c2, (if (0 <? pi)%nat then sort_range fuel c1 low (pi - 1) else Some c1)
      = Some c2 /\ (c2 = c1 \/ (0 < pi)%nat /\ swaps low (pi - 1) c1 c2) /\
      (forall i j x y, (low <= i < j)%nat -> (j < pi)%nat ->
         c2 !! i = Some x -> c2 !! j = Some y -> compare x y <= 0)).
  { destruct (Nat.ltb_spec 0 pi).
    - destruct (IH c1 low (pi - 1)%nat) as (c2 & -> & Hsw2 & Hs2); try lia.
      exists c2. repeat split; auto. intros i j x y Hi Hj. apply Hs2; lia.
    - exists c1. repeat split; auto. intros i j x y; lia. }
  destruct Hleft as (c2 & -> & Hsw2 & Hs2). cbn [mbind option_bind].
  assert (Hout2 : forall k, (pi <= k)%nat -> c2 !! k = c1 !! k).
  { intros k Hk. destruct Hsw2 as [->|[? Hsw2]]; [done|].
    eapply swaps_outside; [exact Hsw2|]. lia. }
  assert (Hlen2 : length c2 = length c1).
  { destruct Hsw2 as [->|[? Hsw2]]; [done|by eapply swaps_length]. }
  destruct (IH c2 (pi + 1)%nat high) as (c3 & -> & Hsw3 & Hs3); try lia.
  exists c3. split; [done|]. split.
  { eapply swaps_trans; [exact Hsw|]. eapply (swaps_trans _ _ _ c2).
    - destruct Hsw2 as [->|[? Hsw2]]; [constructor|]. eapply swaps_weaken; [..|exact Hsw2]; lia.
    - eapply swaps_weaken; [..|exact Hsw3]; lia. }
  assert (Hle3 : forall m x, (low <= m < pi)%nat -> c3 !! m = Some x -> compare x p <= 0).
  { intros m x Hm. rewrite (swaps_outside _ _ _ _ m Hsw3) by lia.
    destruct Hsw2 as [->|[? Hsw2]]; [by apply Hle|].
    apply (swaps_all_in (fun x => compare x p <= 0) _ _ low (pi - 1) _ _ Hsw2); try lia.
    intros m' x' Hm'. apply Hle. lia. }
  assert (Hgt3 : forall m x, (pi < m <= high)%nat -> c3 !! m = Some x -> compare p x <= 0).
  { intros m x Hm Hx.
    assert (0 < compare x p); [|destruct (compare_total x p); lia].
    revert Hx.
    apply (swaps_all_in (fun x => 0 < compare x p) _ _ (pi + 1) high _ _ Hsw3); try lia.
    intros m' x' Hm'. rewrite Hout2 by lia. apply Hgt. lia. }
  assert (Hp3 : c3 !! pi = Some p).
  { rewrite (swaps_outside _ _ _ _ pi Hsw3), Hout2 by lia. done. }
  apply (sorted_around_pivot c3 low pi high p Hp3); try done.
  intros i j x y Hi Hj. rewrite !(swaps_outside _ _ _ _ _ Hsw3) by lia. by apply Hs2.
Qed.

Lemma sort_spec c :
  Z.of_nat (length c) < 2 ^ 64 ->
  exists c', sort c = Some c' /\ c' ≡ₚ c /\
    forall i j x y, (i < j)%nat -> c' !! i = Some x -> c' !! j = Some y -> compare x y <= 0.
Proof.
  intros H64. unfold sort. destruct (Nat.ltb_spec 1 (length c)).
  - destruct (sort_range_spec (length c) c 0 (length c - 1)) as (c' & -> & Hsw & Hs);
      try done; try lia.
    exists c'. split; [done|]. split; [by eapply swaps_perm|].
    intros i j x y Hij Hx Hy. eapply Hs; [| |exact Hx|exact Hy]; [lia|].
    pose proof (lookup_lt_Some _ _ _ Hy). pose proof (swaps_length _ _ _ _ Hsw). lia.
  - exists c. repeat split; try done. intros i j x y Hij Hx Hy.
    pose proof (lookup_lt_Some _ _ _ Hy). lia.
Qed.
End Sort.

(** ** Properties *)

(** [crispy::sort] is correct: for every comparison that is a total
    preorder, the in-place quicksort returns (without leaving the container or
    running forever) a permutation of its input in ascending order. *)
Lemma crispy_sort_correct (A : Type) (cmp : A -> A -> Z) (c : list A) :
  (forall x y, cmp x y <= 0 \/ cmp y x <= 0) ->
  (forall x y z, cmp x y <= 0 -> cmp y z <= 0 -> cmp x z <= 0) ->
  Z.of_nat (length c) < 2 ^ 64 ->
  exists c', sort cmp c = Some c' /\ c' ≡ₚ c /\
    forall i j x y, (i < j)%nat -> c' !! i = Some x -> c' !! j = Some y -> cmp x y <= 0.
Proof. intros Ht Htr. by apply sort_spec. Qed.
