(* ===== verification/StrongHash.v ===== *)
(** * Hashes and powers of two (src/crispy/FNV.h, StrongHash.h, utils.h)

    [strong_hash] in its portable form (no build defines
    STRONGHASH_USE_INTRINSICS: the CMake option sets no compile definition),
    the FNV-1a step it is built from, and [nextPowerOfTwo], which the tables
    and buffers of crispy size themselves with. *)
From S2P Require Import Prelude.

(** ** fnv<T, U>: one step at a width of [w] bits *)

Definition fnv_prime : Z := 16777619.
Definition fnv_basis : Z := 2166136261.

Definition fnv_step (w memory value : Z) : Z :=
  (Z.lxor memory (value mod 2 ^ w) * fnv_prime) mod 2 ^ w.

Definition fnv_range (w : Z) (data : list Z) : Z :=
  foldl (fnv_step w) fnv_basis data.

(** ** strong_hash *)

Record strong_hash := mk_hash { ha : Z; hb : Z; hc : Z; hd : Z }.

#[export] Instance strong_hash_eq_dec : EqDecision strong_hash.
Proof. solve_decision. Defined.

(** [strong_hash hashValue {}] zero-initialises the array. *)
Definition zero_hash : strong_hash := mk_hash 0 0 0 0.

Definition hash_mul (a b : strong_hash) : strong_hash :=
  mk_hash (fnv_step 32 (ha a) (ha b)) (fnv_step 32 (hb a) (hb b))
          (fnv_step 32 (hc a) (hc b)) (fnv_step 32 (hd a) (hd b)).

Definition hash_mul_u32 (a : strong_hash) (b : Z) : strong_hash :=
  hash_mul a (mk_hash 0 0 0 (u32 b)).

(** [compute] of a string or string view: its length, then its characters,
    each converted to [uint32_t]. *)
Definition compute_text (text : list Z) : strong_hash :=
  foldl hash_mul_u32 (mk_hash 0 0 0 (u32 (Z.of_nat (length text)))) text.

Definition compute_bytes (data : list Z) : strong_hash :=
  let result := fnv_range 64 data in
  mk_hash 0 0 (Z.land (Z.shiftr result 32) 0xFFFFFFFF) (Z.land result 0xFFFFFFFF).

(** [strong_hasher] of the integer types. *)
Definition std_hash32 (v : Z) : strong_hash := mk_hash 0 0 0 (u32 v).
Definition hash_u64 (v : Z) : strong_hash :=
  mk_hash 0 0 (Z.land (Z.shiftr v 32) 0xFFFFFFFF) (Z.land v 0xFFFFFFFF).

(** ** Powers of two *)

(** [(value & (value - 1)) == 0] on [uint32_t]. *)
Definition isPowerOfTwo (value : Z) : bool :=
  Z.land value (u32 (value - 1)) =? 0.

Definition smear (v k : Z) : Z := Z.lor v (Z.shiftr v k).

(** [nextPowerOfTwo] at an unsigned type of [bytes] bytes.  The further
    shifts are taken when [sizeof(T)], a number of bytes, is at least 16, 32
    and 64. *)
Definition nextPowerOfTwo (bytes v : Z) : Z :=
  let wrap z := z mod 2 ^ (8 * bytes) in
  let v := wrap (v - 1) in
  let v := smear v 1 in
  let v := smear v 2 in
  let v := smear v 4 in
  let v := if 16 <=? bytes then smear v 8 else v in
  let v := if 32 <=? bytes then smear v 16 else v in
  let v := if 64 <=? bytes then smear v 32 else v in
  wrap (v + 1).

(** ** The step of FNV-1a loses nothing *)

(** The inverse of the prime modulo 2^32. *)
Lemma fnv_prime_inverse : (fnv_prime * 899433627) mod 2 ^ 32 = 1.
Proof. reflexivity. Qed.

Lemma fnv_times_inj a b : 0 <= a < 2 ^ 32 -> 0 <= b < 2 ^ 32 ->
  (a * fnv_prime) mod 2 ^ 32 = (b * fnv_prime) mod 2 ^ 32 -> a = b.
Proof.
  intros Ha Hb E.
  assert (forall z, 0 <= z < 2 ^ 32 ->
    ((z * fnv_prime) mod 2 ^ 32 * 899433627) mod 2 ^ 32 = z) as back.
  { intros z Hz. rewrite Z.mul_mod_idemp_l, <- Z.mul_assoc by done.
    rewrite <- Z.mul_mod_idemp_r, fnv_prime_inverse, Z.mul_1_r by done.
    by apply Z.mod_small. }
  by rewrite <- (back a Ha), <- (back b Hb), E.
Qed.

Lemma lxor_bound a b : 0 <= a < 2 ^ 32 -> 0 <= b < 2 ^ 32 -> 0 <= Z.lxor a b < 2 ^ 32.
Proof.
  intros Ha Hb. split; [apply Z.lxor_nonneg; lia|].
  destruct (Z.eq_dec (Z.lxor a b) 0) as [->|Hn]; [lia|].
  assert (0 <= Z.lxor a b) by (apply Z.lxor_nonneg; lia).
  apply Z.log2_lt_pow2; [lia|].
  eapply Z.le_lt_trans; [apply Z.log2_lxor; lia|].
  apply Z.max_lub_lt.
  - destruct (Z.eq_dec a 0) as [->|]; [simpl; lia|]. apply Z.log2_lt_pow2; lia.
  - destruct (Z.eq_dec b 0) as [->|]; [simpl; lia|]. apply Z.log2_lt_pow2; lia.
Qed.

Lemma lxor_cancel a b c : Z.lxor a b = Z.lxor a c -> b = c.
Proof.
  intros E. rewrite <- (Z.lxor_0_l b), <- (Z.lxor_0_l c), <- (Z.lxor_nilpotent a).
  by rewrite !Z.lxor_assoc, E.
Qed.

Lemma fnv_step_bound m v : 0 <= fnv_step 32 m v < 2 ^ 32.
Proof. by apply Z.mod_pos_bound. Qed.

Lemma fnv_step_inj_value m v v' : 0 <= m < 2 ^ 32 ->
  fnv_step 32 m v = fnv_step 32 m v' -> v mod 2 ^ 32 = v' mod 2 ^ 32.
Proof.
  intros Hm E%fnv_times_inj; [by apply lxor_cancel in E|apply lxor_bound; [done|]..];
    by apply Z.mod_pos_bound.
Qed.

Lemma fnv_step_inj_memory m m' v : 0 <= m < 2 ^ 32 -> 0 <= m' < 2 ^ 32 ->
  fnv_step 32 m v = fnv_step 32 m' v -> m = m'.
Proof.
  intros Hm Hm' E%fnv_times_inj.
  2,3: apply lxor_bound; [done|by apply Z.mod_pos_bound].
  rewrite !(Z.lxor_comm _ (v mod _)) in E. by apply lxor_cancel in E.
Qed.

Lemma fnv_fold_bound m l : 0 <= m < 2 ^ 32 -> 0 <= foldl (fnv_step 32) m l < 2 ^ 32.
Proof.
  revert m. induction l as [|x l IH]; intros m Hm; [done|].
  apply IH, fnv_step_bound.
Qed.

Lemma fnv_fold_inj m m' l : 0 <= m < 2 ^ 32 -> 0 <= m' < 2 ^ 32 ->
  foldl (fnv_step 32) m l = foldl (fnv_step 32) m' l -> m = m'.
Proof.
  revert m m'. induction l as [|x l IH]; intros m m' Hm Hm' E; [done|].
  apply (fnv_step_inj_memory _ _ x); [done..|].
  apply IH; [apply fnv_step_bound..|done].
Qed.

(** Only the fourth component of the hash of a text depends on the text. *)
Lemma compute_text_fourth text :
  compute_text text =
    mk_hash 0 0 0 (foldl (fnv_step 32) (u32 (Z.of_nat (length text))) text).
Proof.
  unfold compute_text. generalize (u32 (Z.of_nat (length text))).
  induction text as [|x text IH]; intros m; [done|].
  cbn [foldl]. unfold hash_mul_u32 at 2, hash_mul. cbn [ha hb hc hd].
  assert (fnv_step 32 m (u32 x) = fnv_step 32 m x) as ->.
  { unfold fnv_step, u32. by rewrite Zmod_mod. }
  apply IH.
Qed.

(** The hash of a text tells apart any two texts that differ in exactly
    one character: nothing of the state before or after that character is
    lost by the FNV-1a step. *)
Lemma compute_text_one_difference (l r : list Z) (x y : Z) :
  0 <= x < 2 ^ 32 -> 0 <= y < 2 ^ 32 -> x <> y ->
  compute_text (l ++ x :: r) <> compute_text (l ++ y :: r).
Proof.
  intros Hx Hy Hne. rewrite !compute_text_fourth. intros [= E]. apply Hne.
  rewrite !length_app in E. cbn [length] in E. rewrite !foldl_app in E.
  set (m := foldl _ _ l) in E.
  assert (0 <= m < 2 ^ 32) by (apply fnv_fold_bound; by apply Z.mod_pos_bound).
  cbn [foldl] in E. apply fnv_fold_inj in E; [|apply fnv_step_bound..].
  apply fnv_step_inj_value in E; [|done]. rewrite !Z.mod_small in E by done. done.
Qed.

(** Two texts of three ideographs with one hash: as a key of the shaping
    cache the one is taken for the other. *)
Example text_hash_collision :
  compute_text [27986; 32717; 39568] = compute_text [34875; 34894; 22472].
Proof. vm_compute. reflexivity. Qed.

(** ** Powers of two *)

Lemma isPowerOfTwo_pow k : 0 <= k < 32 -> isPowerOfTwo (2 ^ k) = true.
Proof.
  intros Hk. unfold isPowerOfTwo, u32.
  assert (1 <= 2 ^ k < 2 ^ 32).
  { split; [apply (Z.pow_le_mono_r 2 0); lia|apply Z.pow_lt_mono_r; lia]. }
  rewrite Z.mod_small by lia. apply Z.eqb_eq.
  rewrite Z.sub_1_r, <- Z.ones_equiv, Z.land_ones by lia.
  apply Z.mod_same. lia.
Qed.

Lemma isPowerOfTwo_sound v : 0 < v < 2 ^ 32 -> isPowerOfTwo v = true ->
  v = 2 ^ Z.log2 v.
Proof.
  intros Hv. unfold isPowerOfTwo, u32. rewrite Z.mod_small, Z.eqb_eq by lia. intros E.
  destruct (Z.log2_spec v) as [Hl Hu]; [lia|].
  destruct (Z.eq_dec v (2 ^ Z.log2 v)) as [|Hne]; [done|exfalso].
  assert (Z.testbit (Z.land v (v - 1)) (Z.log2 v) = true) as Ht; [|by rewrite E, Z.testbit_0_l in Ht].
  assert (0 < 2 ^ Z.log2 v) by (apply Z.pow_pos_nonneg; [lia|apply Z.log2_nonneg]).
  rewrite Z.land_spec, Z.bit_log2 by lia.
  replace (Z.log2 v) with (Z.log2 (v - 1)); [apply Z.bit_log2; lia|].
  apply Z.log2_unique; [apply Z.log2_nonneg|lia].
Qed.

(** The least power of two that is at least [v]. *)
Definition np2 (v : Z) : Z := 2 ^ Z.log2_up v.

Lemma nextPowerOfTwo_np2 bytes v : bytes = 4 \/ bytes = 8 ->
  1 <= v <= 256 \/ (exists k, 0 <= k < 32 /\ v = 2 ^ k) ->
  nextPowerOfTwo bytes v = np2 v.
Proof.
  intros Hb Hv.
  assert (Forall (fun v => nextPowerOfTwo 4 v = np2 v /\ nextPowerOfTwo 8 v = np2 v)
    (seqZ 1 256 ++ map (Z.pow 2) (seqZ 0 32))) as Hall.
  { apply (bool_decide_unpack _). vm_compute. exact I. }
  rewrite Forall_forall in Hall. destruct (Hall v) as [H4 H8].
  - apply elem_of_app. destruct Hv as [Hv|(k & Hk & ->)]; [left|right].
    + apply elem_of_seqZ. lia.
    + apply list_elem_of_fmap. exists k. split; [done|]. apply elem_of_seqZ. lia.
  - by destruct Hb as [-> | ->].
Qed.

Lemma np2_spec v : 1 <= v -> 0 <= Z.log2_up v /\ v <= np2 v < 2 * v.
Proof.
  intros Hv. pose proof (Z.log2_up_nonneg v). split; [done|]. unfold np2.
  destruct (Z.eq_dec v 1) as [->|]; [done|].
  destruct (Z.log2_up_spec v) as [Hl Hu]; [lia|]. split; [done|].
  assert (0 < Z.log2_up v) by (apply Z.log2_up_pos; lia).
  replace (Z.log2_up v) with (Z.succ (Z.pred (Z.log2_up v))) by lia.
  rewrite Z.pow_succ_r by lia. lia.
Qed.

(** [nextPowerOfTwo] on [uint32_t] and [size_t] returns the least power
    of two not below its argument, for every argument up to 256 and for every
    argument that is a power of two already. *)
Lemma nextPowerOfTwo_correct (bytes v : Z) : bytes = 4 \/ bytes = 8 ->
  1 <= v <= 256 \/ (exists k, 0 <= k < 32 /\ v = 2 ^ k) ->
  exists k, 0 <= k /\ nextPowerOfTwo bytes v = 2 ^ k /\ v <= nextPowerOfTwo bytes v < 2 * v.
Proof.
  intros Hb Hv. rewrite (nextPowerOfTwo_np2 _ _ Hb Hv). exists (Z.log2_up v).
  destruct (np2_spec v); [|done]. destruct Hv as [|(k & Hk & ->)]; [lia|].
  pose proof (Z.pow_pos_nonneg 2 k). lia.
Qed.

(** Above 256 the result need not be a power of two: the shifts by 8 and 16
    are never taken for a type of 4 or 8 bytes. *)
Example nextPowerOfTwo_513 :
  nextPowerOfTwo 4 513 = 1021 /\ np2 513 = 1024 /\ isPowerOfTwo 1021 = false /\
  nextPowerOfTwo 4 (nextPowerOfTwo 4 65537) = 131069 /\ isPowerOfTwo 131069 = false.
Proof. vm_compute. done. Qed.
