(* ===== verification/Chains.v ===== *)
(** * Chains of indices

    Linked lists kept in arrays: a link function gives the index that follows
    an index, and 0 ends a chain.  [chain] is a singly linked list, [dll] a
    doubly linked one that is closed through index 0; the lemmas say what
    the writes that insert and remove an element do to them. *)
From S2P Require Import Prelude.
From stdpp Require Import sets list.
#[local] Set Warnings "-clear-no-such-hyp".

Implicit Types (f g : nat -> option nat) (l : list nat) (a i n p : nat).

Definition upd f i n : nat -> option nat := fun j => if decide (j = i) then Some n else f j.

Lemma upd_eq f i n : upd f i n i = Some n.
Proof. unfold upd. by rewrite decide_True. Qed.
Lemma upd_ne f i n j : j <> i -> upd f i n j = f j.
Proof. intros. unfold upd. by rewrite decide_False. Qed.

Lemma NoDup_middle {A} (l1 : list A) (i : A) (l2 : list A) : NoDup (l1 ++ i :: l2) <-> (i ∉ l1 ++ l2) /\ NoDup (l1 ++ l2).
Proof. by rewrite <- Permutation_middle, NoDup_cons. Qed.

(** ** Singly linked *)

(** [l] is what a walk from [a] along [f] visits before it meets 0. *)
Fixpoint chain f a l : Prop :=
  match l with
  | [] => a = 0%nat
  | x :: l' => a = x /\ x <> 0%nat /\ exists n, f x = Some n /\ chain f n l'
  end.

Lemma chain_ext f g a l : (forall x, x ∈ l -> f x = g x) -> chain f a l -> chain g a l.
Proof.
  revert a. induction l as [|x l IH]; intros a Hfg Hc; [done|].
  destruct Hc as (-> & Hx & n & Hn & Hc). split_and!; [done..|]. exists n. split.
  - rewrite <- Hfg by set_solver. done.
  - apply IH; [|done]. intros y Hy. apply Hfg. set_solver.
Qed.

Lemma chain_nonzero f a l : chain f a l -> 0%nat ∉ l.
Proof.
  revert a. induction l as [|x l IH]; intros a Hc; [set_solver|].
  destruct Hc as (-> & Hx & n & Hn & Hc). apply IH in Hc. set_solver.
Qed.

Lemma chain_start f a l : chain f a l -> a = default 0%nat (head l).
Proof. destruct l; [done|]. by intros (-> & _). Qed.

Lemma chain_split f a l1 i l2 : chain f a (l1 ++ i :: l2) ->
  i <> 0%nat /\ exists n, f i = Some n /\ chain f n l2.
Proof.
  revert a. induction l1 as [|x l1 IH]; intros a Hc.
  - by destruct Hc as (-> & Hx & n & Hn & Hc); eauto.
  - destruct Hc as (-> & Hx & n & Hn & Hc). by eapply IH.
Qed.

Lemma chain_push f a l i : chain f a l -> i ∉ l -> i <> 0%nat -> chain (upd f i a) i (i :: l).
Proof.
  intros Hc Hi H0. split_and!; [done..|]. exists a. split; [apply upd_eq|].
  eapply chain_ext; [|done]. intros x Hx. rewrite upd_ne; [done|congruence].
Qed.

(** Removing the first element moves the start, removing another one is a
    write to the link of the element before it. *)
Lemma chain_delete f a l1 i l2 n : NoDup (l1 ++ i :: l2) ->
  chain f a (l1 ++ i :: l2) -> f i = Some n ->
  match last l1 with
  | None => a = i /\ chain f n l2
  | Some p => f p = Some i /\ p <> 0%nat /\ chain (upd f p n) a (l1 ++ l2)
  end.
Proof.
  revert a. induction l1 as [|x l1 IH]; intros a Hnd Hc Hi.
  - destruct Hc as (-> & Hx & n' & Hn & Hc). by simplify_eq.
  - destruct Hc as (-> & Hx & n' & Hn & Hc).
    apply NoDup_cons in Hnd as [Hxl Hnd]. fold (l1 ++ i :: l2) in *.
    specialize (IH n' Hnd Hc Hi). destruct l1 as [|y l1].
    + destruct IH as [-> Hc']. simpl. split_and!; [done..|].
      exists n. split; [apply upd_eq|].
      eapply chain_ext; [|done]. intros z Hz. rewrite upd_ne; [done|]. set_solver.
    + rewrite last_cons_cons. destruct (last (y :: l1)) as [p|] eqn:El;
        [|by apply last_None in El].
      destruct IH as (Hp & Hp0 & Hc'). split_and!; [done..|].
      cbn [app chain]. split_and!; [done..|]. exists n'. split; [|done].
      rewrite upd_ne; [done|]. intros ->. apply Hxl.
      apply last_Some_elem_of in El. set_solver.
Qed.

(** ** Doubly linked *)

Fixpoint dll f g a l : Prop :=
  match l with
  | [] => f a = Some 0%nat /\ g 0%nat = Some a
  | x :: l' => f a = Some x /\ g x = Some a /\ dll f g x l'
  end.

Lemma dll_ext f g f' g' a l :
  (forall x, x ∈ a :: l -> f x = f' x) -> (forall x, x ∈ 0%nat :: l -> g x = g' x) ->
  dll f g a l -> dll f' g' a l.
Proof.
  revert a. induction l as [|x l IH]; intros a Hf Hg.
  - intros [H1 H2]. split; [rewrite <- Hf by set_solver|rewrite <- Hg by set_solver]; done.
  - intros (H1 & H2 & H3). split_and!.
    + rewrite <- Hf by set_solver. done.
    + rewrite <- Hg by set_solver. done.
    + apply IH; [| |done]; intros y Hy; [apply Hf|apply Hg]; set_solver.
Qed.

Lemma dll_head f g a l : dll f g a l -> f a = Some (default 0%nat (head l)).
Proof. destruct l; simpl; naive_solver. Qed.

Lemma dll_last f g a l : dll f g a l -> g 0%nat = Some (default a (last l)).
Proof.
  revert a. induction l as [|x l IH]; intros a; [by intros []|].
  intros (_ & _ & H). rewrite (IH _ H). destruct l; [done|].
  rewrite last_cons_cons. by destruct (last (n :: l)) eqn:E; [|apply last_None in E].
Qed.

Lemma dll_chain f g a l : 0%nat ∉ l -> dll f g a l -> chain f (default 0%nat (head l)) l.
Proof.
  revert a. induction l as [|x l IH]; intros a H0; [done|].
  intros (H1 & H2 & H3). split_and!; [done|set_solver|].
  exists (default 0%nat (head l)). split; [by eapply dll_head|].
  eapply IH; [set_solver|done].
Qed.

(** [prev.next = ent.next; next.prev = ent.prev]. *)
Lemma dll_unlink f g a l1 i l2 : NoDup (a :: l1 ++ i :: l2) -> 0%nat ∉ l1 ++ i :: l2 ->
  dll f g a (l1 ++ i :: l2) ->
  let p := default a (last l1) in
  let n := default 0%nat (head l2) in
  f i = Some n /\ g i = Some p /\ dll (upd f p n) (upd g n p) a (l1 ++ l2).
Proof.
  revert a. induction l1 as [|x l1 IH]; intros a Hnd H0 Hd p n.
  - destruct Hd as (H1 & H2 & Hd). split_and!; [by eapply dll_head|done|].
    destruct l2 as [|y l2]; simpl in p, n; subst p n; cbn [app dll].
    + split; apply upd_eq.
    + destruct Hd as (H3 & H4 & Hd). split_and!; [apply upd_eq..|].
      cbn [app] in Hnd, H0. rewrite !NoDup_cons in Hnd. destruct Hnd as (Ha & Hi & Hy & Hnd).
      eapply dll_ext; [| |done]; intros z Hz; symmetry; apply upd_ne; intros ->; set_solver.
  - destruct Hd as (H1 & H2 & Hd). fold (l1 ++ i :: l2) in *.
    apply NoDup_cons in Hnd as [Ha Hnd].
    destruct (IH x Hnd ltac:(set_solver) Hd) as (Hi & Hp & Hd').
    assert (p = default x (last l1)) as Ep.
    { subst p. destruct l1; [done|]. rewrite last_cons_cons.
      by destruct (last (n0 :: l1)) eqn:E; [|apply last_None in E]. }
    rewrite Ep. split_and!; [done..|]. cbn [app dll]. split_and!; [| |done].
    + rewrite upd_ne; [done|]. intros ->.
      assert (default x (last l1) ∈ x :: l1) as Hin.
      { destruct (last l1) eqn:E; [|set_solver]. apply last_Some_elem_of in E. set_solver. }
      set_solver.
    + rewrite upd_ne; [done|]. subst n. destruct l2 as [|y l2]; simpl; [set_solver|].
      apply NoDup_cons in Hnd as [Hx _]. set_solver.
Qed.

(** [new.next = head.next; new.prev = 0; old.prev = new; head.next = new]. *)
Lemma dll_push f g l i : i ∉ 0%nat :: l -> 0%nat ∉ l -> NoDup l -> dll f g 0 l ->
  let old := default 0%nat (head l) in
  dll (upd (upd f i old) 0 i) (upd (upd g i 0) old i) 0 (i :: l).
Proof.
  intros Hi H0 Hnd Hd old. assert (i <> 0%nat /\ i ∉ l) as [Hi0 Hil] by set_solver.
  assert (old <> i) as Ho by (subst old; destruct l; set_solver).
  cbn [dll]. split_and!; [apply upd_eq|rewrite upd_ne, upd_eq by done; done|].
  destruct l as [|y l]; simpl in old; subst old; cbn [dll] in *.
  - split; [rewrite upd_ne, upd_eq by done; done|apply upd_eq].
  - destruct Hd as (H1 & H2 & Hd). apply NoDup_cons in Hnd as [Hy Hnd]. split_and!.
    + rewrite upd_ne, upd_eq by done. done.
    + apply upd_eq.
    + eapply dll_ext; [| |done]; intros z Hz; rewrite !upd_ne; set_solver.
Qed.
