(* ===== verification/LruSpec.v ===== *)
(** * What an LRU cache promises

    The contract the caches of crispy share: a list of bindings of distinct
    keys, the most recently used first, of at most [capacity] bindings.
    [retained] is the policy: a binding is kept as long as fewer than
    [capacity] other keys have been used since its own last use. *)
From stdpp Require Import sets.
From S2P Require Import Prelude Chains.
#[local] Set Warnings "-clear-no-such-hyp".

Section Lru.
Context {K V : Type} `{EqDecision K}.
Implicit Types (k : K) (v : V) (l : list (K * V)).

Fixpoint assoc k l : option V :=
  match l with
  | [] => None
  | (k', v) :: l' => if decide (k' = k) then Some v else assoc k l'
  end.

Definition without k l : list (K * V) := filter (fun b => b.1 <> k) l.

(** A binding with its value, as the most recent one. *)
Definition to_front k v l : list (K * V) := (k, v) :: without k l.

(** A new binding; a full cache drops its least recent one. *)
Definition push (capacity : nat) k v l : list (K * V) := (k, v) :: take (capacity - 1) l.

(** ** Lookup *)

Lemma assoc_None k l : assoc k l = None <-> k ∉ l.*1.
Proof.
  induction l as [|[k' v] l IH]; [simpl; set_solver|].
  cbn [assoc fmap list_fmap fst]. case_decide; [subst|rewrite IH]; set_solver.
Qed.

Lemma without_notin k l : k ∉ l.*1 -> without k l = l.
Proof.
  unfold without. induction l as [|[k' v] l IH]; [done|]. cbn [fmap list_fmap fst]. intros Hk.
  rewrite filter_cons_True by (simpl; set_solver). rewrite IH; set_solver.
Qed.

Lemma without_app k l1 l2 : without k (l1 ++ l2) = without k l1 ++ without k l2.
Proof. apply filter_app. Qed.

Lemma without_cons k v l : k ∉ l.*1 -> without k ((k, v) :: l) = l.
Proof.
  intros Hk. unfold without. rewrite filter_cons_False by (simpl; naive_solver).
  by apply without_notin.
Qed.

(** Where a binding is, and what is left without it. *)
Lemma assoc_split k l v : NoDup l.*1 -> assoc k l = Some v ->
  exists l1 l2, l = l1 ++ (k, v) :: l2 /\ without k l = l1 ++ l2 /\ (k ∉ (l1 ++ l2).*1).
Proof.
  induction l as [|[k' w] l IH]; [done|]. cbn [assoc fmap list_fmap fst].
  intros [Hk Hnd]%NoDup_cons. case_decide as E.
  - intros [= ->]. subst. exists [], l. split_and!; [done|by apply without_cons|done].
  - intros H. destruct (IH Hnd H) as (l1 & l2 & -> & Hw & Hn). exists ((k', w) :: l1), l2.
    split_and!; [done| |cbn; set_solver].
    unfold without. rewrite <- app_comm_cons, filter_cons_True by (simpl; congruence).
    by fold (without k (l1 ++ (k, v) :: l2)); rewrite Hw.
Qed.

Lemma without_length k l v : NoDup l.*1 -> assoc k l = Some v ->
  S (length (without k l)) = length l.
Proof.
  intros Hnd Ha. destruct (assoc_split _ _ _ Hnd Ha) as (l1 & l2 & -> & -> & _).
  rewrite !length_app. simpl. lia.
Qed.

Lemma keys_take k n l : k ∉ l.*1 -> k ∉ (take n l).*1.
Proof. intros Hk Hin. apply Hk. rewrite <- (take_drop n l), fmap_app. set_solver. Qed.

Lemma assoc_middle k l1 v l2 : NoDup (l1 ++ (k, v) :: l2).*1 ->
  assoc k (l1 ++ (k, v) :: l2) = Some v.
Proof.
  induction l1 as [|[k' w] l1 IH]; cbn [app assoc fmap list_fmap fst].
  - by rewrite decide_True.
  - intros [Hk Hnd]%NoDup_cons. rewrite decide_False; [by apply IH|].
    intros ->. apply Hk. rewrite fmap_app. cbn. set_solver.
Qed.

(** A list of distinct keys splits at a key in one way. *)
Lemma split_unique k l1 v l2 l1' v' l2' : NoDup (l1 ++ (k, v) :: l2).*1 ->
  l1 ++ (k, v) :: l2 = l1' ++ (k, v') :: l2' -> l1 = l1' /\ v = v' /\ l2 = l2'.
Proof.
  revert l1'. induction l1 as [|[a w] l1 IH]; intros [|[a' w'] l1'] Hnd [=]; subst; try done;
    cbn [app fmap list_fmap fst] in Hnd; apply NoDup_cons in Hnd as [Hk Hnd].
  - exfalso. apply Hk. rewrite fmap_app. cbn. set_solver.
  - exfalso. apply Hk. rewrite fmap_app. cbn. set_solver.
  - destruct (IH l1' Hnd) as (-> & -> & ->); done.
Qed.

Lemma assoc_elem k l v : assoc k l = Some v -> (k, v) ∈ l.
Proof.
  induction l as [|[k' w] l IH]; [done|]. cbn [assoc].
  case_decide; [intros [= ->]; subst; set_solver|intros ?%IH; set_solver].
Qed.

(** ** The policy

    [kept k ks l]: [k] is bound and only keys of [ks] are more recent. *)
Definition kept k (ks : list K) l : Prop :=
  exists l1 v l2, l = l1 ++ (k, v) :: l2 /\ l1.*1 ⊆ ks.

Lemma kept_bound k ks l : NoDup l.*1 -> kept k ks l -> exists v, assoc k l = Some v.
Proof. intros Hnd (l1 & v & l2 & -> & _). exists v. by apply assoc_middle. Qed.

Lemma kept_first k ks v l : kept k ks ((k, v) :: l).
Proof. exists [], v, l. split; [done|set_solver]. Qed.

Lemma kept_without k k' ks l : k' <> k -> kept k ks l -> kept k ks (without k' l).
Proof.
  intros Hne (l1 & v & l2 & -> & Hs). exists (without k' l1), v, (without k' l2). split.
  - rewrite without_app. unfold without at 2. by rewrite filter_cons_True.
  - intros x (b & -> & Hb)%list_elem_of_fmap. apply Hs, list_elem_of_fmap. exists b.
    split; [done|]. by apply list_elem_of_filter in Hb as [_ ?].
Qed.

Lemma kept_cons k k' v ks l : k' ∈ ks -> kept k ks l -> kept k ks ((k', v) :: l).
Proof.
  intros Hk (l1 & w & l2 & -> & Hs). exists ((k', v) :: l1), w, l2. split; [done|].
  cbn. set_solver.
Qed.

Lemma kept_to_front k k' v ks l : k' = k \/ k' ∈ ks -> kept k ks l -> kept k ks (to_front k' v l).
Proof.
  intros Hor Hl. unfold to_front. destruct (decide (k' = k)) as [->|Hne]; [apply kept_first|].
  apply kept_cons; [naive_solver|by apply kept_without].
Qed.

(** A new binding evicts only what more keys are ahead of. *)
Lemma kept_take k k' ks l n : NoDup l.*1 -> k' ∉ l.*1 -> k' ∈ ks -> (length ks <= n)%nat ->
  kept k ks l -> kept k ks (take n l).
Proof.
  intros Hnd Hk' Hks Hn (l1 & v & l2 & -> & Hs).
  assert (length (k' :: l1.*1) <= length ks)%nat as Hlen.
  { rewrite fmap_app in Hnd, Hk'. apply submseteq_length, NoDup_submseteq; [|set_solver].
    apply NoDup_cons. split; [set_solver|]. by apply NoDup_app in Hnd as (? & _ & _). }
  simpl in Hlen. rewrite length_fmap in Hlen.
  exists l1, v, (take (n - S (length l1)) l2). split; [|done].
  rewrite take_app_ge by lia. replace (n - length l1)%nat with (S (n - S (length l1))) by lia. done.
Qed.

End Lru.
