(* ===== verification/LruHashtable.v ===== *)
(** * crispy::strong_lru_hashtable (src/crispy/StrongLRUHashtable.h)

    A hash table of fixed capacity that evicts its least recently used entry.
    Hash slots and entries are arrays; an entry is linked by indices into the
    chain of its slot ([nextWithSameHash]), into the doubly linked LRU chain
    ([prevInLRU], [nextInLRU]), or into the chain of free entries, which
    starts in the sentinel, entry 0.  The model keeps both arrays and every
    write to them in the order of the source, the debug checks
    ([validateChange]) included; a loop runs on the number of entries as
    fuel.  An access outside an array or a loop that does not end is [Wild],
    a failed [Require] or [Guarantee] is [Failed].

    The specification is a list of (hash, entry index, value), the most
    recently used first, with the stack of free indices.  [simulation] shows
    that every operation of the table does what the specification says,
    without failing, in the build with and without debug checks. *)
From stdpp Require Import sets.
From S2P Require Import Prelude StrongHash Chains LruSpec.
#[local] Set Warnings "-clear-no-such-hyp".

(** [debug] is DEBUG_STRONG_LRU_HASHTABLE, set unless NDEBUG is;
    [default_value] is [Value {}]. *)
Section Table.
Context {Value : Type} (debug : bool) (default_value : Value).

Record entry := mk_entry {
  hashValue : strong_hash;
  prevInLRU : nat;
  nextInLRU : nat;
  nextWithSameHash : nat;
  value : option Value;
  ordering : Z
}.

Record lru_hashtable_stats := mk_stats { hits : Z; misses : Z; recycles : Z }.

Record table := mk_table {
  _stats : lru_hashtable_stats;
  _hashMask : Z;
  _hashCount : Z;
  _size : Z;
  _capacity : nat;
  _hashTable : list nat;
  _entries : list entry;
  _lastLRUCount : Z
}.

(** [entry(next_with_same_hash(n))] *)
Definition fresh_entry (n : nat) : entry := mk_entry zero_hash 0 0 n None 0.

Definition set_hash h e := mk_entry h (prevInLRU e) (nextInLRU e) (nextWithSameHash e) (value e) (ordering e).
Definition set_prev n e := mk_entry (hashValue e) n (nextInLRU e) (nextWithSameHash e) (value e) (ordering e).
Definition set_next n e := mk_entry (hashValue e) (prevInLRU e) n (nextWithSameHash e) (value e) (ordering e).
Definition set_same n e := mk_entry (hashValue e) (prevInLRU e) (nextInLRU e) n (value e) (ordering e).
Definition set_value v e := mk_entry (hashValue e) (prevInLRU e) (nextInLRU e) (nextWithSameHash e) v (ordering e).
Definition set_ordering o e := mk_entry (hashValue e) (prevInLRU e) (nextInLRU e) (nextWithSameHash e) (value e) o.

Definition with_stats f t := mk_table (f (_stats t)) (_hashMask t) (_hashCount t) (_size t) (_capacity t) (_hashTable t) (_entries t) (_lastLRUCount t).
Definition with_size f t := mk_table (_stats t) (_hashMask t) (_hashCount t) (f (_size t)) (_capacity t) (_hashTable t) (_entries t) (_lastLRUCount t).
Definition with_table f t := mk_table (_stats t) (_hashMask t) (_hashCount t) (_size t) (_capacity t) (f (_hashTable t)) (_entries t) (_lastLRUCount t).
Definition with_entries f t := mk_table (_stats t) (_hashMask t) (_hashCount t) (_size t) (_capacity t) (_hashTable t) (f (_entries t)) (_lastLRUCount t).
Definition with_count n t := mk_table (_stats t) (_hashMask t) (_hashCount t) (_size t) (_capacity t) (_hashTable t) (_entries t) n.

Definition hit s := mk_stats (u32 (hits s + 1)) (misses s) (recycles s).
Definition miss s := mk_stats (hits s) (u32 (misses s + 1)) (recycles s).
Definition recycled s := mk_stats (hits s) (misses s) (u32 (recycles s + 1)).

(** ** Effects *)

Inductive result (A : Type) : Type :=
  | Ret (a : A) (t : table)
  | Thrown (t : table) (* std::out_of_range *)
  | Failed (* Require or Guarantee: abort *)
  | Wild. (* an access outside the arrays, or an endless loop *)
Arguments Ret {A}.
Arguments Thrown {A}.
Arguments Failed {A}.
Arguments Wild {A}.

Definition M (A : Type) : Type := table -> result A.

#[local] Instance M_ret : MRet M := fun A a t => Ret a t.
#[local] Instance M_bind : MBind M := fun A B f m t =>
  match m t with
  | Ret a t' => f a t'
  | Thrown t' => Thrown t'
  | Failed => Failed
  | Wild => Wild
  end.

Definition fails {A} : M A := fun _ => Failed.
Definition wild {A} : M A := fun _ => Wild.
Definition throw {A} : M A := fun t => Thrown t.
Definition Require_ (b : bool) : M unit := if b then mret tt else fails.
Definition state {A} (f : table -> A) : M A := fun t => Ret (f t) t.
Definition modify (f : table -> table) : M unit := fun t => Ret tt (f t).

Definition get_entry (i : nat) : M entry := fun t =>
  match _entries t !! i with Some e => Ret e t | None => Wild end.
Definition mod_entry (i : nat) (f : entry -> entry) : M unit := fun t =>
  match _entries t !! i with
  | Some e => Ret tt (with_entries (alter f i) t)
  | None => Wild
  end.
Definition get_slot (s : nat) : M nat := fun t =>
  match _hashTable t !! s with Some i => Ret i t | None => Wild end.
Definition set_slot (s i : nat) : M unit := fun t =>
  match _hashTable t !! s with
  | Some _ => Ret tt (with_table <[s := i]> t)
  | None => Wild
  end.

(** The fuel of a walk over entries: each visited entry is a different one. *)
Definition entry_fuel (t : table) : nat := S (length (_entries t)).

(** ** The helpers of the table *)

Definition slot_index (mask : Z) (h : strong_hash) : nat := Z.to_nat (Z.land (hd h) mask).
Definition hashTableSlot (h : strong_hash) : M nat :=
  state (fun t => slot_index (_hashMask t) h).

Fixpoint validate_loop (fuel i : nat) (lastOrdering count : Z) : M Z :=
  match fuel with
  | O => wild
  | S fuel' =>
      if (i =? 0)%nat then mret count else
      e ← get_entry i;
      Require_ (ordering e <? lastOrdering);;
      validate_loop fuel' (nextInLRU e) (ordering e) (count + 1)
  end.

Definition validateChange (adj : Z) : M Z :=
  if debug then
    sentinel ← get_entry 0;
    fuel ← state entry_fuel;
    count ← validate_loop fuel (nextInLRU sentinel) (ordering sentinel) 0;
    last ← state _lastLRUCount;
    Require_ (last + adj =? count);;
    modify (with_count count);;
    mret (last + adj)
  else state _size.

(** The caller's [entry&] is entry [i]; [prev] and [next] are references,
    which may be the sentinel both. *)
Definition unlinkFromLRUChain (i : nat) : M unit :=
  ent ← get_entry i;
  let prev := prevInLRU ent in
  let next := nextInLRU ent in
  mod_entry prev (set_next (nextInLRU ent));;
  ent ← get_entry i;
  mod_entry next (set_prev (prevInLRU ent));;
  validateChange (-1);;
  mret tt.

Definition linkToLRUChainHead (i : nat) : M unit :=
  sentinel ← get_entry 0;
  let oldHead := nextInLRU sentinel in
  mod_entry i (set_next (nextInLRU sentinel));;
  mod_entry i (set_prev 0);;
  mod_entry oldHead (set_prev i);;
  mod_entry 0 (set_next i);;
  (if debug then
     sentinel ← get_entry 0;
     mod_entry i (set_ordering (ordering sentinel));;
     mod_entry 0 (set_ordering (u32 (ordering sentinel + 1)))
   else mret tt);;
  count ← validateChange 1;
  size ← state _size;
  Require_ (count =? size).

(** [uint32_t* nextIndex]: a slot of the table or the link of an entry. *)
Inductive location := InTable (s : nat) | InEntry (i : nat).

Definition read_location (l : location) : M nat :=
  match l with
  | InTable s => get_slot s
  | InEntry i => e ← get_entry i; mret (nextWithSameHash e)
  end.
Definition write_location (l : location) (n : nat) : M unit :=
  match l with
  | InTable s => set_slot s n
  | InEntry i => mod_entry i (set_same n)
  end.

Fixpoint recycle_loop (fuel i : nat) (nextIndex : location) : M location :=
  match fuel with
  | O => wild
  | S fuel' =>
      n ← read_location nextIndex;
      if (n =? i)%nat then mret nextIndex else
      Require_ (negb (n =? 0)%nat);;
      recycle_loop fuel' i (InEntry n)
  end.

Definition recycle : M unit :=
  size ← state _size;
  capacity ← state _capacity;
  Require_ (size =? Z.of_nat capacity);;
  sentinel ← get_entry 0;
  Require_ (negb (prevInLRU sentinel =? 0)%nat);;
  let i := prevInLRU sentinel in
  ent ← get_entry i;
  mod_entry (prevInLRU ent) (set_next 0);;
  ent ← get_entry i;
  mod_entry 0 (set_prev (prevInLRU ent));;
  validateChange (-1);;
  ent ← get_entry i;
  slot ← hashTableSlot (hashValue ent);
  fuel ← state entry_fuel;
  nextIndex ← recycle_loop fuel i (InTable slot);
  n ← read_location nextIndex;
  Require_ (n =? i)%nat;;
  ent ← get_entry i;
  write_location nextIndex (nextWithSameHash ent);;
  sentinel ← get_entry 0;
  mod_entry i (set_same (nextWithSameHash sentinel));;
  mod_entry 0 (set_same i);;
  modify (with_stats recycled).

(** [allocateEntry] after its first statement: the top of the free chain
    becomes the first entry of the slot and of the LRU chain. *)
Definition pop_free_entry (h : strong_hash) (slot : nat) : M nat :=
  sentinel ← get_entry 0;
  let popped := nextWithSameHash sentinel in
  capacity ← state _capacity;
  Require_ ((1 <=? popped)%nat && (popped <=? capacity)%nat);;
  poppedEntry ← get_entry popped;
  mod_entry 0 (set_same (nextWithSameHash poppedEntry));;
  mod_entry popped (set_same 0);;
  mod_entry popped (set_value None);;
  mod_entry popped (set_hash h);;
  first ← get_slot slot;
  mod_entry popped (set_same first);;
  set_slot slot popped;;
  linkToLRUChainHead popped;;
  mret popped.

Definition allocateEntry (h : strong_hash) (slot : nat) : M nat :=
  sentinel ← get_entry 0;
  (if (nextWithSameHash sentinel =? 0)%nat then recycle
   else modify (with_size (fun n => u32 (n + 1))));;
  pop_free_entry h slot.

(** The search along the chain of a slot, the same loop in [findEntry],
    [peek], [get_or_emplace] and [get_or_try_emplace]: the index of the
    entry with the hash, 0 when the chain has none. *)
Fixpoint find_loop (fuel i : nat) (h : strong_hash) : M nat :=
  match fuel with
  | O => wild
  | S fuel' =>
      if (i =? 0)%nat then mret 0%nat else
      e ← get_entry i;
      if decide (hashValue e = h) then mret i
      else find_loop fuel' (nextWithSameHash e) h
  end.

Definition search (h : strong_hash) : M nat :=
  slot ← hashTableSlot h;
  first ← get_slot slot;
  fuel ← state entry_fuel;
  find_loop fuel first h.

Definition findEntry (h : strong_hash) (force : bool) : M nat :=
  i ← search h;
  if negb (i =? 0)%nat then
    modify (with_stats hit);;
    unlinkFromLRUChain i;;
    linkToLRUChainHead i;;
    mret i
  else if force then
    modify (with_stats miss);;
    slot ← hashTableSlot h;
    i ← allocateEntry h slot;
    mod_entry i (set_value (Some default_value));;
    mret i
  else
    modify (with_stats miss);;
    mret 0%nat.

(** ** The operations *)

(** [*_entries[i].value] and [.value.value()]: reading an empty optional is
    undefined behaviour or an exception nothing handles. *)
Definition deref (i : nat) : M Value :=
  e ← get_entry i;
  match value e with Some v => mret v | None => wild end.

Definition touch (h : strong_hash) : M unit := findEntry h false;; mret tt.

Definition contains (h : strong_hash) : M bool :=
  i ← findEntry h false;
  mret (negb (i =? 0)%nat).

Definition try_get (h : strong_hash) : M (option Value) :=
  i ← findEntry h false;
  if (i =? 0)%nat then mret None else v ← deref i; mret (Some v).

Definition at_ (h : strong_hash) : M Value :=
  i ← findEntry h false;
  if (i =? 0)%nat then throw else deref i.

Definition peek (h : strong_hash) : M Value :=
  i ← search h;
  if (i =? 0)%nat then throw else deref i.

Definition index (h : strong_hash) : M Value :=
  i ← findEntry h true;
  deref i.

Definition try_emplace (h : strong_hash) (constructValue : nat -> Value) : M bool :=
  found ← contains h;
  if (found : bool) then mret false else
  i ← findEntry h true;
  mod_entry i (set_value (Some (constructValue i)));;
  mret true.

Definition emplace_value (h : strong_hash) (v : Value) : M Value :=
  i ← findEntry h true;
  deref i;;
  mod_entry i (set_value (Some v));;
  deref i.

Definition emplace (h : strong_hash) (constructValue : nat -> Value) : M Value :=
  i ← findEntry h true;
  mod_entry i (set_value (Some (constructValue i)));;
  deref i.

(** The part [get_or_emplace] and [get_or_try_emplace] share: the entry, and
    whether it was found. *)
Definition find_or_allocate (h : strong_hash) : M (nat * bool) :=
  i ← search h;
  if negb (i =? 0)%nat then
    modify (with_stats hit);;
    unlinkFromLRUChain i;;
    linkToLRUChainHead i;;
    mret (i, true)
  else
    modify (with_stats miss);;
    slot ← hashTableSlot h;
    i ← allocateEntry h slot;
    mret (i, false).

Definition get_or_emplace (h : strong_hash) (constructValue : nat -> Value) : M Value :=
  r ← find_or_allocate h;
  let '(i, found) := r in
  if (found : bool) then deref i else
  mod_entry i (set_value (Some (constructValue i)));;
  deref i.

(** The search of [remove], which keeps the previous entry of the chain. *)
Fixpoint remove_loop (fuel i prev : nat) (h : strong_hash) : M (nat * nat) :=
  match fuel with
  | O => wild
  | S fuel' =>
      if (i =? 0)%nat then mret (prev, 0%nat) else
      e ← get_entry i;
      if decide (hashValue e = h) then mret (prev, i)
      else remove_loop fuel' (nextWithSameHash e) i h
  end.

(** [remove] once its search has ended. *)
Definition remove_found (slot : nat) (r : nat * nat) : M unit :=
  let '(prevWithSameHash, i) := r in
  if (i =? 0)%nat then mret tt else
  ent ← get_entry i;
  let prev := prevInLRU ent in
  let next := nextInLRU ent in
  mod_entry prev (set_next (nextInLRU ent));;
  ent ← get_entry i;
  mod_entry next (set_prev (prevInLRU ent));;
  (if negb (prevWithSameHash =? 0)%nat then
     p ← get_entry prevWithSameHash;
     Require_ (nextWithSameHash p =? i)%nat;;
     ent ← get_entry i;
     mod_entry prevWithSameHash (set_same (nextWithSameHash ent))
   else
     ent ← get_entry i;
     set_slot slot (nextWithSameHash ent));;
  mod_entry i (set_prev 0);;
  sentinel ← get_entry 0;
  mod_entry i (set_next (nextInLRU sentinel));;
  mod_entry i (set_same (nextWithSameHash sentinel));;
  mod_entry 0 (set_same i);;
  modify (with_size (fun n => u32 (n - 1)));;
  validateChange (-1);;
  mret tt.

Definition remove (h : strong_hash) : M unit :=
  slot ← hashTableSlot h;
  first ← get_slot slot;
  fuel ← state entry_fuel;
  r ← remove_loop fuel first 0 h;
  remove_found slot r.

Definition get_or_try_emplace (h : strong_hash) (constructValue : nat -> option Value) :
    M (option Value) :=
  r ← find_or_allocate h;
  let '(i, found) := r in
  if (found : bool) then v ← deref i; mret (Some v) else
  capacity ← state _capacity;
  Require_ ((1 <=? i)%nat && (i <=? capacity)%nat);;
  match constructValue i with
  | None => remove h;; mret None
  | Some v => mod_entry i (set_value (Some v));; v' ← deref i; mret (Some v')
  end.

Fixpoint hashes_loop (fuel i : nat) (acc : list strong_hash) : M (list strong_hash) :=
  match fuel with
  | O => wild
  | S fuel' =>
      if (i =? 0)%nat then mret acc else
      e ← get_entry i;
      hashes_loop fuel' (nextInLRU e) (acc ++ [hashValue e])
  end.

Definition hashes : M (list strong_hash) :=
  sentinel ← get_entry 0;
  fuel ← state entry_fuel;
  r ← hashes_loop fuel (nextInLRU sentinel) [];
  size ← state _size;
  Require_ (Z.of_nat (length r) =? size);;
  mret r.

(** [clear]: the values along the LRU chain are destroyed, which leaves the
    loop's index at 0, and from there every entry is built anew. *)
Fixpoint clear_values (fuel i : nat) : M nat :=
  match fuel with
  | O => wild
  | S fuel' =>
      if (i =? 0)%nat then mret i else
      mod_entry i (set_value None);;
      e ← get_entry i;
      clear_values fuel' (nextInLRU e)
  end.

Fixpoint clear_entries (fuel i : nat) : M unit :=
  match fuel with
  | O => wild
  | S fuel' =>
      capacity ← state _capacity;
      if (i <=? capacity)%nat then
        mod_entry i (fun _ => fresh_entry (1 + i));;
        clear_entries fuel' (S i)
      else mret tt
  end.

Definition clear : M unit :=
  sentinel ← get_entry 0;
  fuel ← state entry_fuel;
  i ← clear_values fuel (nextInLRU sentinel);
  modify (fun t => with_table (fun _ => replicate (Z.to_nat (_hashCount t)) 0%nat) t);;
  clear_entries fuel i;;
  capacity ← state _capacity;
  mod_entry capacity (fun _ => fresh_entry 0);;
  oldSize ← state _size;
  modify (with_size (fun _ => 0));;
  validateChange (- oldSize);;
  mret tt.

Definition fetchAndClearStats : M lru_hashtable_stats :=
  st ← state _stats;
  modify (with_stats (fun _ => mk_stats 0 0 0));;
  mret st.

(** The constructor and [create].  [None] is a failed [Require]. *)
Definition initial_entries (capacity : nat) : list entry :=
  <[capacity := fresh_entry 0]> (map (fun i => fresh_entry (1 + i)) (seq 0 (S capacity))).

Definition create (hashCount : Z) (capacity : nat) : option table :=
  let hashCount := if isPowerOfTwo hashCount then hashCount else nextPowerOfTwo 4 hashCount in
  if isPowerOfTwo hashCount && (1 <=? hashCount) && (2 <=? capacity)%nat then
    Some (mk_table (mk_stats 0 0 0) (u32 (hashCount - 1)) hashCount 0 capacity
            (replicate (Z.to_nat hashCount) 0%nat) (initial_entries capacity) 0)
  else None.

(** ** A session with a table *)

Inductive op :=
  | Touch (h : strong_hash) | Contains (h : strong_hash) | TryGet (h : strong_hash)
  | At (h : strong_hash) | Peek (h : strong_hash) | Index (h : strong_hash)
  | TryEmplace (h : strong_hash) (constructValue : nat -> Value)
  | EmplaceValue (h : strong_hash) (v : Value)
  | Emplace (h : strong_hash) (constructValue : nat -> Value)
  | GetOrEmplace (h : strong_hash) (constructValue : nat -> Value)
  | GetOrTryEmplace (h : strong_hash) (constructValue : nat -> option Value)
  | Remove (h : strong_hash) | Clear | Hashes | Size | FetchStats.

Inductive answer :=
  | Nothing | Flag (b : bool) | Found (v : option Value) | OutOfRange
  | Keys (l : list strong_hash) | Count (n : Z) | Stats (s : lru_hashtable_stats).

Definition answering {A} (f : A -> answer) (m : M A) : M answer := fun t =>
  match m t with
  | Ret a t' => Ret (f a) t'
  | Thrown t' => Ret OutOfRange t'
  | Failed => Failed
  | Wild => Wild
  end.

Definition exec (o : op) : M answer :=
  let found v := Found (Some v) in
  match o with
  | Touch h => answering (fun _ => Nothing) (touch h)
  | Contains h => answering Flag (contains h)
  | TryGet h => answering Found (try_get h)
  | At h => answering found (at_ h)
  | Peek h => answering found (peek h)
  | Index h => answering found (index h)
  | TryEmplace h f => answering Flag (try_emplace h f)
  | EmplaceValue h v => answering found (emplace_value h v)
  | Emplace h f => answering found (emplace h f)
  | GetOrEmplace h f => answering found (get_or_emplace h f)
  | GetOrTryEmplace h f => answering Found (get_or_try_emplace h f)
  | Remove h => answering (fun _ => Nothing) (remove h)
  | Clear => answering (fun _ => Nothing) clear
  | Hashes => answering Keys hashes
  | Size => answering Count (state _size)
  | FetchStats => answering Stats fetchAndClearStats
  end.

Fixpoint run (ops : list op) : M (list answer) :=
  match ops with
  | [] => mret []
  | o :: ops' => a ← exec o; r ← run ops'; mret (a :: r)
  end.

(** ** The specification *)

Record spec := mk_spec {
  bindings : list (strong_hash * (nat * Value));
  free : list nat;
  counters : lru_hashtable_stats
}.

Definition spec_create (capacity : nat) : spec := mk_spec [] (seq 1 capacity) (mk_stats 0 0 0).

Definition count f (s : spec) : spec := mk_spec (bindings s) (free s) (f (counters s)).

(** The entry a new binding gets: the top of the free stack, or the entry of
    the least recent binding. *)
Definition next_entry (s : spec) : nat :=
  match free s with
  | i :: _ => i
  | [] => match last (bindings s) with Some (_, (i, _)) => i | None => 0 end
  end.

Definition spec_insert (h : strong_hash) (v : Value) (s : spec) : spec :=
  let capacity := (length (bindings s) + length (free s))%nat in
  mk_spec (push capacity h (next_entry s, v) (bindings s)) (tail (free s))
    (match free s with [] => recycled (counters s) | _ => counters s end).

(** A lookup that refreshes: [f] when the hash is bound, [g] when not. *)
Definition spec_use {A} (h : strong_hash) (s : spec)
    (f : nat -> Value -> spec -> A) (g : spec -> A) : A :=
  match assoc h (bindings s) with
  | Some (i, v) =>
      f i v (mk_spec (to_front h (i, v) (bindings s)) (free s) (hit (counters s)))
  | None => g (count miss s)
  end.

(** The value of the front binding, which an operation just used. *)
Definition spec_assign (h : strong_hash) (i : nat) (v : Value) (s : spec) : spec :=
  mk_spec (to_front h (i, v) (bindings s)) (free s) (counters s).

Definition spec_remove (h : strong_hash) (s : spec) : spec :=
  match assoc h (bindings s) with
  | Some (i, _) => mk_spec (without h (bindings s)) (i :: free s) (counters s)
  | None => s
  end.

Definition spec_exec (o : op) (s : spec) : answer * spec :=
  match o with
  | Touch h => spec_use h s (fun _ _ s' => (Nothing, s')) (fun s' => (Nothing, s'))
  | Contains h => spec_use h s (fun _ _ s' => (Flag true, s')) (fun s' => (Flag false, s'))
  | TryGet h => spec_use h s (fun _ v s' => (Found (Some v), s')) (fun s' => (Found None, s'))
  | At h => spec_use h s (fun _ v s' => (Found (Some v), s')) (fun s' => (OutOfRange, s'))
  | Peek h =>
      match assoc h (bindings s) with
      | Some (_, v) => (Found (Some v), s)
      | None => (OutOfRange, s)
      end
  | Index h => spec_use h s (fun _ v s' => (Found (Some v), s'))
      (fun s' => (Found (Some default_value), spec_insert h default_value s'))
  | TryEmplace h f => spec_use h s (fun _ _ s' => (Flag false, s'))
      (fun s' => (Flag true, spec_insert h (f (next_entry s)) (count miss s')))
  | EmplaceValue h v => spec_use h s (fun i _ s' => (Found (Some v), spec_assign h i v s'))
      (fun s' => (Found (Some v), spec_insert h v s'))
  | Emplace h f =>
      spec_use h s (fun i _ s' => (Found (Some (f i)), spec_assign h i (f i) s'))
      (fun s' => (Found (Some (f (next_entry s))), spec_insert h (f (next_entry s)) s'))
  | GetOrEmplace h f => spec_use h s (fun _ v s' => (Found (Some v), s'))
      (fun s' => (Found (Some (f (next_entry s))), spec_insert h (f (next_entry s)) s'))
  | GetOrTryEmplace h f => spec_use h s (fun _ v s' => (Found (Some v), s'))
      (fun s' =>
         match f (next_entry s) with
         | Some v => (Found (Some v), spec_insert h v s')
         | None => (Found None, spec_remove h (spec_insert h default_value s'))
         end)
  | Remove h => (Nothing, spec_remove h s)
  | Clear => (Nothing, mk_spec [] (seq 1 (length (bindings s) + length (free s))) (counters s))
  | Hashes => (Keys (map fst (bindings s)), s)
  | Size => (Count (Z.of_nat (length (bindings s))), s)
  | FetchStats => (Stats (counters s), count (fun _ => mk_stats 0 0 0) s)
  end.

Fixpoint spec_run (ops : list op) (s : spec) : list answer * spec :=
  match ops with
  | [] => ([], s)
  | o :: ops' =>
      let '(a, s1) := spec_exec o s in
      let '(r, s2) := spec_run ops' s1 in (a :: r, s2)
  end.

(** ** Reading the arrays *)

Definition alt (i : nat) (f : entry -> entry) (t : table) : table := with_entries (alter f i) t.

Definition fld {B} (p : entry -> B) (t : table) (i : nat) : option B := p <$> _entries t !! i.

Lemma bind_Ret {A B} (m : M A) (k : A -> M B) t a t' :
  m t = Ret a t' -> (m ≫= k) t = k a t'.
Proof. unfold mbind, M_bind. by intros ->. Qed.

Lemma get_entry_ok i e t : _entries t !! i = Some e -> get_entry i t = Ret e t.
Proof. unfold get_entry. by intros ->. Qed.

Lemma mod_entry_ok i f e t : _entries t !! i = Some e -> mod_entry i f t = Ret tt (alt i f t).
Proof. unfold mod_entry. by intros ->. Qed.

Lemma Require_ok b t : b = true -> Require_ b t = Ret tt t.
Proof. by intros ->. Qed.

Lemma fld_entry {B} (p : entry -> B) t i b : fld p t i = Some b ->
  exists e, _entries t !! i = Some e /\ p e = b.
Proof. unfold fld. intros (e & -> & ->)%fmap_Some. eauto. Qed.

Lemma entry_fld {B} (p : entry -> B) t i e : _entries t !! i = Some e -> fld p t i = Some (p e).
Proof. unfold fld. by intros ->. Qed.

Lemma alt_lookup i j f t : _entries (alt i f t) !! j =
  if decide (i = j) then f <$> _entries t !! j else _entries t !! j.
Proof.
  simpl. case_decide; [subst; apply list_lookup_alter_eq|by apply list_lookup_alter_ne].
Qed.

Lemma fld_alt_other {B} (p : entry -> B) i f t j : (forall e, p (f e) = p e) ->
  fld p (alt i f t) j = fld p t j.
Proof.
  intros Hp. unfold fld. rewrite alt_lookup. case_decide; [|done].
  destruct (_entries t !! j); simpl; [by rewrite Hp|done].
Qed.

Lemma fld_alt_set {B} (p : entry -> B) i f t j b : (forall e, p (f e) = b) ->
  is_Some (_entries t !! i) ->
  fld p (alt i f t) j = if decide (j = i) then Some b else fld p t j.
Proof.
  intros Hp Hi. unfold fld. rewrite alt_lookup. destruct (decide (i = j)) as [->|].
  - rewrite decide_True by done. destruct Hi as [e ->]. simpl. by rewrite Hp.
  - by rewrite decide_False by congruence.
Qed.

Lemma fld_alt_ne {B} (p : entry -> B) i f t j : j <> i -> fld p (alt i f t) j = fld p t j.
Proof. intros. unfold fld. by rewrite alt_lookup, decide_False by congruence. Qed.

Lemma alt_some i f t j : is_Some (_entries (alt i f t) !! j) <-> is_Some (_entries t !! j).
Proof. rewrite alt_lookup. case_decide; [by rewrite fmap_is_Some|done]. Qed.

Lemma mod_ok i f t : is_Some (_entries t !! i) -> mod_entry i f t = Ret tt (alt i f t).
Proof. intros [e He]. by apply (mod_entry_ok _ _ e). Qed.

(** Everything but the LRU chain and its debug data. *)
Record others (t t' : table) : Prop := {
  o_len : length (_entries t') = length (_entries t);
  o_same : forall j, fld nextWithSameHash t' j = fld nextWithSameHash t j;
  o_hash : forall j, fld hashValue t' j = fld hashValue t j;
  o_value : forall j, fld value t' j = fld value t j;
  o_table : _hashTable t' = _hashTable t;
  o_mask : _hashMask t' = _hashMask t;
  o_count : _hashCount t' = _hashCount t;
  o_size : _size t' = _size t;
  o_capacity : _capacity t' = _capacity t;
  o_stats : _stats t' = _stats t
}.

Lemma others_refl t : others t t.
Proof. by constructor. Qed.

Lemma others_trans t1 t2 t3 : others t1 t2 -> others t2 t3 -> others t1 t3.
Proof. intros [] []. constructor; intros; etransitivity; eauto. Qed.

Lemma others_alt i f t :
  (forall e, nextWithSameHash (f e) = nextWithSameHash e) ->
  (forall e, hashValue (f e) = hashValue e) -> (forall e, value (f e) = value e) ->
  others t (alt i f t).
Proof.
  intros. constructor; try done.
  - apply length_alter.
  - intros. by apply fld_alt_other.
  - intros. by apply fld_alt_other.
  - intros. by apply fld_alt_other.
Qed.

Definition recount (n : Z) (t : table) : table := if debug then with_count n t else t.

Lemma others_recount n t : others t (recount n t).
Proof. unfold recount. by destruct debug. Qed.

Lemma recount_entries n t : _entries (recount n t) = _entries t.
Proof. unfold recount. by destruct debug. Qed.

(** ** The LRU chain *)

Fixpoint decreasing (ord : nat -> option Z) (last : Z) (l : list nat) : Prop :=
  match l with
  | [] => True
  | x :: l' => exists o, ord x = Some o /\ o < last /\ decreasing ord o l'
  end.

Lemma decreasing_ext ord ord' last l : (forall x, x ∈ l -> ord x = ord' x) ->
  decreasing ord last l -> decreasing ord' last l.
Proof.
  revert last. induction l as [|x l IH]; intros last E; [done|].
  intros (o & Ho & Hlt & Hd). exists o. rewrite <- E by set_solver. split_and!; [done..|].
  apply IH; [|done]. intros y Hy. apply E. set_solver.
Qed.

Lemma decreasing_weaken ord last last' l : last <= last' ->
  decreasing ord last l -> decreasing ord last' l.
Proof. intros Hle. destruct l; [done|]. intros (o & Ho & Hlt & Hd). exists o. split_and!; [done|lia|done]. Qed.

Lemma decreasing_delete ord last l1 i l2 :
  decreasing ord last (l1 ++ i :: l2) -> decreasing ord last (l1 ++ l2).
Proof.
  revert last. induction l1 as [|x l1 IH]; intros last.
  - intros (o & Ho & Hlt & Hd). eapply decreasing_weaken; [|done]. lia.
  - intros (o & Ho & Hlt & Hd). exists o. eauto.
Qed.

(** [l] is the LRU chain, and the orderings allow [b] more uses before the
    counter of the sentinel wraps. *)
Record linked (t : table) (l : list nat) (b : Z) : Prop := {
  lk_dll : dll (fld nextInLRU t) (fld prevInLRU t) 0 l;
  lk_nodup : NoDup (0%nat :: l);
  lk_order : debug = true -> exists o, fld ordering t 0 = Some o /\
    0 <= o /\ o + b < 2 ^ 32 /\ decreasing (fld ordering t) o l
}.

Definition counted (t : table) (n : nat) : Prop :=
  debug = true -> _lastLRUCount t = Z.of_nat n.

Lemma linked_some t l b i : linked t l b -> i ∈ 0%nat :: l -> is_Some (_entries t !! i).
Proof.
  intros [Hd _ _] Hi.
  assert (forall l a, dll (fld nextInLRU t) (fld prevInLRU t) a l ->
    forall i, i ∈ a :: l -> is_Some (_entries t !! i)) as Hall.
  { clear. induction l as [|x l IH]; intros a Hd i Hi.
    - destruct Hd as [(e & He & _)%fld_entry _]. assert (i = a) as -> by set_solver. eauto.
    - destruct Hd as ((e & He & _)%fld_entry & _ & Hd).
      apply elem_of_cons in Hi as [->|Hi]; [eauto|]. by eapply IH. }
  by eapply Hall.
Qed.

Lemma linked_fuel t l b : linked t l b -> (length l < entry_fuel t)%nat.
Proof.
  intros Hl. unfold entry_fuel.
  assert (l ⊆+ seq 0 (length (_entries t))) as Hs.
  { apply NoDup_submseteq; [by apply lk_nodup, NoDup_cons in Hl as [_ ?]|].
    intros i Hi. apply elem_of_seq. split; [lia|]. apply lookup_lt_is_Some.
    eapply linked_some; [done|set_solver]. }
  apply submseteq_length in Hs. rewrite length_seq in Hs. lia.
Qed.

Lemma linked_nonzero t l b : linked t l b -> 0%nat ∉ l.
Proof. by intros [_ [? _]%NoDup_cons _]. Qed.

Lemma linked_chain t l b : linked t l b ->
  chain (fld nextInLRU t) (default 0%nat (head l)) l.
Proof. intros Hl. eapply dll_chain; [by eapply linked_nonzero|by apply lk_dll in Hl]. Qed.

(** A change that leaves the links and orderings of the chain alone. *)
Lemma linked_ext t t' l b : linked t l b ->
  (forall i, i ∈ 0%nat :: l -> fld nextInLRU t' i = fld nextInLRU t i) ->
  (forall i, i ∈ 0%nat :: l -> fld prevInLRU t' i = fld prevInLRU t i) ->
  (forall i, i ∈ 0%nat :: l -> fld ordering t' i = fld ordering t i) -> linked t' l b.
Proof.
  intros [Hd Hnd Ho] En Ep Eo. constructor; [|done|].
  - eapply dll_ext; [| |done]; intros x Hx; [by rewrite En|by rewrite Ep].
  - intros [o (H1 & H2 & H3 & H4)]%Ho. exists o. rewrite Eo by set_solver. split_and!; [done..|].
    eapply decreasing_ext; [|done]. intros x Hx. rewrite Eo; [done|set_solver].
Qed.

Lemma linked_weaken t l b b' : b' <= b -> linked t l b -> linked t l b'.
Proof.
  intros Hb [Hd Hnd Ho]. constructor; [done..|].
  intros [o (H1 & H2 & H3 & H4)]%Ho. exists o. split_and!; [done..|lia|done].
Qed.

Lemma validate_loop_ok t l : forall a last count fuel, (length l < fuel)%nat ->
  chain (fld nextInLRU t) a l -> decreasing (fld ordering t) last l ->
  validate_loop fuel a last count t = Ret (count + Z.of_nat (length l)) t.
Proof.
  induction l as [|x l IH]; intros a last count [|fuel] Hf Hc Hd; simpl in Hf; try lia.
  - rewrite Hc. cbn. do 2 f_equal. lia.
  - destruct Hc as (-> & Hx & n & Hn & Hc). destruct Hd as (o & Ho & Hlt & Hd).
    apply fld_entry in Hn as (e & He & <-). rewrite (entry_fld _ _ _ _ He) in Ho.
    injection Ho as <-. cbn [validate_loop]. rewrite (proj2 (Nat.eqb_neq x 0) Hx).
    rewrite (bind_Ret _ _ _ _ _ (get_entry_ok _ _ _ He)).
    rewrite (bind_Ret _ _ _ _ _ (Require_ok _ _ (proj2 (Z.ltb_lt _ _) Hlt))).
    rewrite (IH _ _ _ fuel); [|lia|done|done]. f_equal. simpl length. lia.
Qed.

Lemma validate_ok t l b adj : linked t l b ->
  (debug = true -> _lastLRUCount t + adj = Z.of_nat (length l)) ->
  validateChange adj t =
    Ret (if debug then Z.of_nat (length l) else _size t) (recount (Z.of_nat (length l)) t).
Proof.
  intros Hl Hn. unfold validateChange, recount. destruct debug eqn:Edbg; [|done].
  destruct (lk_order _ _ _ Hl Edbg) as (o & Ho & _ & _ & Hd).
  destruct (linked_some _ _ _ 0%nat Hl) as [e He]; [set_solver|].
  rewrite (bind_Ret _ _ _ _ _ (get_entry_ok _ _ _ He)).
  pose proof (dll_head _ _ _ _ (lk_dll _ _ _ Hl)) as Hh.
  rewrite (entry_fld _ _ _ _ He) in Ho. rewrite (entry_fld _ _ _ _ He) in Hh. injection Ho as <-. injection Hh as Hh.
  unfold state, mbind, M_bind. rewrite (validate_loop_ok t l); [| |rewrite Hh|done].
  - rewrite Hn by done. rewrite Z.add_0_l, Z.eqb_refl. done.
  - by eapply linked_fuel.
  - by eapply linked_chain.
Qed.

(** Runs the next step of a monadic program. *)
Ltac go H := rewrite (bind_Ret _ _ _ _ _ H).
Ltac go_entry H := rewrite (bind_Ret _ _ _ _ _ (get_entry_ok _ _ _ H)).
Ltac go_mod H := rewrite (bind_Ret _ _ _ _ _ (mod_entry_ok _ _ _ _ H)).
Ltac go_alt := erewrite bind_Ret; [|apply mod_ok; rewrite ?alt_some; first [done|eauto]].
Ltac go_req := erewrite (bind_Ret (Require_ _)); [|apply Require_ok].
Ltac go_state := rewrite (bind_Ret (state _) _ _ _ _ eq_refl).
Ltac go_modify := rewrite (bind_Ret (modify _) _ _ _ _ eq_refl).

(** The two writes that take entry [i] out of the LRU chain. *)
Lemma relink_ok t l1 i l2 b : linked t (l1 ++ i :: l2) b ->
  let p := default 0%nat (last l1) in
  let n := default 0%nat (head l2) in
  let t' := alt n (set_prev p) (alt p (set_next n) t) in
  exists e e', _entries t !! i = Some e /\ prevInLRU e = p /\ nextInLRU e = n /\
    is_Some (_entries t !! p) /\
    _entries (alt p (set_next n) t) !! i = Some e' /\ prevInLRU e' = p /\
    is_Some (_entries (alt p (set_next n) t) !! n) /\
    linked t' (l1 ++ l2) b /\ others t t' /\ _lastLRUCount t' = _lastLRUCount t /\
    (forall j, fld ordering t' j = fld ordering t j).
Proof.
  intros Hl p n t'. pose proof (linked_nonzero _ _ _ Hl) as H0.
  destruct (dll_unlink _ _ _ _ _ _ (lk_nodup _ _ _ Hl) H0 (lk_dll _ _ _ Hl)) as (Hn & Hp & Hd).
  fold p in Hp, Hd. fold n in Hn, Hd.
  pose proof (lk_nodup _ _ _ Hl) as Hnd.
  assert (p ∈ 0%nat :: l1 /\ n ∈ 0%nat :: l2) as [Hpin Hnin].
  { subst p n. split; [destruct (last l1) eqn:E; [apply last_Some_elem_of in E|]; set_solver|].
    destruct l2; set_solver. }
  assert (is_Some (_entries t !! p)) as Hsp by (eapply linked_some; [done|set_solver]).
  assert (is_Some (_entries t !! n)) as Hsn by (eapply linked_some; [done|set_solver]).
  apply fld_entry in Hn as (e & He & Hne). rewrite (entry_fld _ _ _ _ He) in Hp. injection Hp as Hpe.
  assert (p <> i) as Hpi.
  { intros ->. apply NoDup_cons in Hnd as [Hnd0 Hnd].
    apply NoDup_app in Hnd as (_ & Hdis & _). set_solver. }
  exists e, e. split_and!; try done.
  - rewrite alt_lookup, decide_False by done. done.
  - by apply alt_some.
  - constructor.
    + eapply dll_ext; [| |exact Hd]; intros x _.
      * unfold upd, t'. rewrite fld_alt_other, (fld_alt_set _ _ _ _ _ n) by done. done.
      * unfold upd, t'. rewrite (fld_alt_set _ _ _ _ _ p); [|done|by apply alt_some].
        by rewrite fld_alt_other.
    + rewrite app_comm_cons in Hnd. by apply NoDup_middle in Hnd as [_ Hnd].
    + intros [o (H1 & H2 & H3 & H4)]%(lk_order _ _ _ Hl). exists o. unfold t'.
      rewrite !fld_alt_other by done. split_and!; [done..|].
      eapply decreasing_ext; [|by eapply decreasing_delete].
      intros x Hx. by rewrite !fld_alt_other.
  - eapply others_trans; by apply others_alt.
  - intros j. unfold t'. by rewrite !fld_alt_other.
Qed.

Lemma linked_recount t l b n : linked t l b -> linked (recount n t) l b.
Proof. intros Hl. eapply linked_ext; [done|..]; intros; unfold fld; by rewrite recount_entries. Qed.

Lemma counted_recount t n : counted (recount (Z.of_nat n) t) n.
Proof. intros Hd. unfold recount. by rewrite Hd. Qed.

Lemma unlink_ok t l1 i l2 b : linked t (l1 ++ i :: l2) b ->
  counted t (length (l1 ++ i :: l2)) ->
  exists t', unlinkFromLRUChain i t = Ret tt t' /\ linked t' (l1 ++ l2) b /\
    counted t' (length (l1 ++ l2)) /\ others t t'.
Proof.
  intros Hl Hc.
  destruct (relink_ok _ _ _ _ _ Hl) as (e & e' & He & Hp & Hn & [ep Hep] & He' & Hp' & [en Hen] & Hl' & Ho & Hcnt & _).
  unfold unlinkFromLRUChain. go_entry He. rewrite Hp, Hn. go_mod Hep. go_entry He'. rewrite Hp'. go_mod Hen.
  eassert _ as Hv; [eapply (validate_ok _ _ b (-1) Hl')|].
  { intros Hd. rewrite Hcnt, (Hc Hd). rewrite !length_app. simpl. lia. }
  go Hv. eexists. split_and!; [done|by apply linked_recount|apply counted_recount|].
  eapply others_trans; [done|apply others_recount].
Qed.

(** The writes of [linkToLRUChainHead]. *)
Definition link_writes (i old : nat) (t : table) : table :=
  alt 0 (set_next i) (alt old (set_prev i) (alt i (set_prev 0) (alt i (set_next old) t))).
Definition order_writes (i : nat) (o : Z) (t : table) : table :=
  if debug then alt 0 (set_ordering (u32 (o + 1))) (alt i (set_ordering o) t) else t.

Lemma link_writes_others i old o t : others t (order_writes i o (link_writes i old t)).
Proof.
  assert (others t (link_writes i old t)).
  { repeat (eapply others_trans; [|by apply others_alt]). apply others_refl. }
  unfold order_writes. destruct debug; [|done].
  repeat (eapply others_trans; [|by apply others_alt]). done.
Qed.

Lemma link_writes_linked t l i b o : let old := default 0%nat (head l) in
  linked t l (b + 1) -> 0 <= b -> i ∉ 0%nat :: l -> is_Some (_entries t !! i) ->
  (debug = true -> fld ordering t 0 = Some o) ->
  linked (order_writes i o (link_writes i old t)) (i :: l) b.
Proof.
  intros old Hl Hb Hi Hsi Ho. pose proof (linked_nonzero _ _ _ Hl) as H0.
  pose proof (lk_nodup _ _ _ Hl) as [_ Hnd]%NoDup_cons.
  assert (is_Some (_entries t !! old)) as Hso.
  { eapply linked_some; [done|]. subst old. destruct l; set_solver. }
  assert (is_Some (_entries t !! 0%nat)) as Hs0 by (eapply linked_some; [done|set_solver]).
  constructor.
  - eapply dll_ext; [| |apply (dll_push _ _ l i Hi H0 Hnd (lk_dll _ _ _ Hl))]; intros x _.
    + transitivity (fld nextInLRU (link_writes i old t) x);
        [|unfold order_writes; destruct debug; [by rewrite !fld_alt_other|done]].
      unfold link_writes. rewrite (fld_alt_set _ _ _ _ _ i); [|done|by rewrite !alt_some].
      rewrite !(fld_alt_other _ _ (set_prev _)), (fld_alt_set _ _ _ _ _ old) by done. done.
    + transitivity (fld prevInLRU (link_writes i old t) x);
        [|unfold order_writes; destruct debug; [by rewrite !fld_alt_other|done]].
      unfold link_writes. rewrite fld_alt_other by done.
      rewrite (fld_alt_set _ _ _ _ _ i); [|done|by rewrite !alt_some].
      rewrite (fld_alt_set _ _ _ _ _ 0%nat), fld_alt_other; [done..|by rewrite !alt_some].
  - apply NoDup_cons. split; [set_solver|]. apply NoDup_cons. split; [set_solver|done].
  - intros Hd. specialize (Ho Hd). unfold order_writes. rewrite Hd.
    destruct (lk_order _ _ _ Hl Hd) as (o' & Ho' & Hpos & Hlt & Hdec). rewrite Ho in Ho'. injection Ho' as <-.
    assert (forall j, fld ordering (link_writes i old t) j = fld ordering t j) as Eo.
    { intros j. unfold link_writes. by rewrite !fld_alt_other. }
    assert (forall j, is_Some (_entries (link_writes i old t) !! j) <-> is_Some (_entries t !! j)) as Es.
    { intros j. unfold link_writes. by rewrite !alt_some. }
    assert (forall j, fld ordering (alt 0 (set_ordering (u32 (o + 1))) (alt i (set_ordering o) (link_writes i old t))) j =
      if decide (j = 0%nat) then Some (o + 1) else if decide (j = i) then Some o else fld ordering t j) as E.
    { intros j. rewrite (fld_alt_set _ _ _ _ _ (u32 (o + 1))); [|done|by rewrite alt_some, Es].
      rewrite (fld_alt_set _ _ _ _ _ o), Eo; [|done|by rewrite Es].
      unfold u32. by rewrite Z.mod_small by lia. }
    exists (o + 1). rewrite E. split_and!; [done|lia..|].
    cbn [decreasing]. exists o. rewrite E, decide_False, decide_True by set_solver. split_and!; [done|lia|].
    eapply decreasing_ext; [|done]. intros x Hx. rewrite E, !decide_False; set_solver.
Qed.

Lemma link_ok t l i b : linked t l (b + 1) -> counted t (length l) -> 0 <= b ->
  i ∉ 0%nat :: l -> is_Some (_entries t !! i) -> _size t = Z.of_nat (S (length l)) ->
  exists t', linkToLRUChainHead i t = Ret tt t' /\ linked t' (i :: l) b /\
    counted t' (S (length l)) /\ others t t'.
Proof.
  intros Hl Hc Hb Hi Hsi Hs. set (old := default 0%nat (head l)).
  set (o := default 0 (fld ordering t 0)). set (t2 := order_writes i o (link_writes i old t)).
  assert (linked t2 (i :: l) b) as Hl2.
  { apply link_writes_linked; [done..|]. intros (o' & E & _)%(lk_order _ _ _ Hl).
    unfold o. by rewrite E. }
  assert (is_Some (_entries t !! old)) as Hso.
  { eapply linked_some; [done|]. subst old. destruct l; set_solver. }
  pose proof (dll_head _ _ _ _ (lk_dll _ _ _ Hl)) as (e0 & He0 & Hn0)%fld_entry.
  assert (linkToLRUChainHead i t = Ret tt (recount (Z.of_nat (S (length l))) t2)) as Hrun.
  { unfold linkToLRUChainHead. go_entry He0. rewrite Hn0. fold old. do 4 go_alt.
    fold (link_writes i old t). erewrite bind_Ret with (t' := t2).
    - eassert _ as Hv; [eapply (validate_ok t2 _ b 1 Hl2)|].
      { intros Hd. subst t2. unfold order_writes. rewrite Hd. simpl. rewrite (Hc Hd). lia. }
      go Hv. go_state. apply Require_ok, Z.eqb_eq.
      assert (_size t2 = _size t) as Es by apply o_size, link_writes_others.
      rewrite (o_size _ _ (others_recount _ t2)), Es, Hs. by destruct debug.
    - subst t2. unfold order_writes. destruct debug eqn:Ed; [|done].
      assert (is_Some (_entries (link_writes i old t) !! 0%nat)) as [e1 He1].
      { unfold link_writes. rewrite !alt_some. eauto. }
      go_entry He1. assert (ordering e1 = o) as ->.
      { assert (fld ordering (link_writes i old t) 0 = Some (ordering e1)) as E by by apply entry_fld.
        unfold link_writes in E. rewrite !fld_alt_other in E by done. unfold o. by rewrite E. }
      rewrite (bind_Ret _ _ _ tt (alt i (set_ordering o) (link_writes i old t))).
      + apply mod_ok. rewrite alt_some. eauto.
      + apply mod_ok. unfold link_writes. by rewrite !alt_some. }
  eexists. split_and!; [exact Hrun|by apply linked_recount|apply counted_recount|].
  eapply others_trans; [apply link_writes_others|apply others_recount].
Qed.

(** ** The hash chains and the free chain *)

Definition in_slot (t : table) (s : nat) (b : strong_hash * nat) : Prop :=
  slot_index (_hashMask t) b.1 = s.
#[local] Instance in_slot_dec t s b : Decision (in_slot t s b).
Proof. unfold in_slot. apply _. Defined.

Record hashed (t : table) (lv : list (strong_hash * nat)) (F : list nat) : Prop := {
  hs_mask : forall h, (slot_index (_hashMask t) h < length (_hashTable t))%nat;
  hs_bucket : forall s, (s < length (_hashTable t))%nat -> exists a c,
    _hashTable t !! s = Some a /\ chain (fld nextWithSameHash t) a c /\
    c ≡ₚ (filter (in_slot t s) lv).*2;
  hs_free : exists n, fld nextWithSameHash t 0 = Some n /\ chain (fld nextWithSameHash t) n F;
  hs_hash : forall h i, (h, i) ∈ lv -> fld hashValue t i = Some h;
  hs_perm : lv.*2 ++ F ≡ₚ seq 1 (_capacity t);
  hs_len : length (_entries t) = S (_capacity t);
  hs_keys : NoDup lv.*1
}.

Lemma hashed_nodup t lv F : hashed t lv F -> NoDup (lv.*2 ++ F).
Proof. intros Hh. rewrite (hs_perm _ _ _ Hh). apply NoDup_seq. Qed.

Lemma hashed_bound t lv F i : hashed t lv F -> i ∈ lv.*2 ++ F -> (1 <= i <= _capacity t)%nat.
Proof. intros Hh. rewrite (hs_perm _ _ _ Hh), elem_of_seq. lia. Qed.

Lemma hashed_some t lv F i : hashed t lv F -> i ∈ 0%nat :: lv.*2 ++ F -> is_Some (_entries t !! i).
Proof.
  intros Hh [->|Hi]%elem_of_cons; apply lookup_lt_is_Some; rewrite (hs_len _ _ _ Hh); [lia|].
  apply (hashed_bound _ _ _ _ Hh) in Hi. lia.
Qed.

(** What is in the chain of a slot. *)
Lemma bucket_elem t lv s c i : c ≡ₚ (filter (in_slot t s) lv).*2 ->
  i ∈ c <-> exists h, (h, i) ∈ lv /\ slot_index (_hashMask t) h = s.
Proof.
  intros ->. rewrite list_elem_of_fmap. split.
  - intros ([h j] & -> & Hf). apply list_elem_of_filter in Hf as [Hs Hin]. by exists h.
  - intros (h & Hin & Hs). exists (h, i). split; [done|]. by apply list_elem_of_filter.
Qed.

Lemma bucket_nodup t lv F s c : hashed t lv F -> c ≡ₚ (filter (in_slot t s) lv).*2 -> NoDup c.
Proof.
  intros Hh ->. apply hashed_nodup, NoDup_app in Hh as (Hnd & _ & _).
  eapply sublist_NoDup; [done|apply fmap_sublist, sublist_filter].
Qed.

Lemma bucket_fuel t lv F s c : hashed t lv F -> c ≡ₚ (filter (in_slot t s) lv).*2 ->
  (length c < entry_fuel t)%nat.
Proof.
  intros Hh Hc. unfold entry_fuel. rewrite Hc, length_fmap, (hs_len _ _ _ Hh).
  pose proof (Permutation_length (hs_perm _ _ _ Hh)) as Hl. rewrite length_app, length_fmap, length_seq in Hl.
  pose proof (length_filter (in_slot t s) lv). lia.
Qed.

Lemma find_loop_ok t h c : forall a fuel, (length c < fuel)%nat ->
  chain (fld nextWithSameHash t) a c -> exists r, find_loop fuel a h t = Ret r t /\
    ((r = 0%nat /\ forall i, i ∈ c -> fld hashValue t i <> Some h) \/
     (r ∈ c /\ fld hashValue t r = Some h)).
Proof.
  induction c as [|x c IH]; intros a [|fuel] Hf Hc; simpl in Hf; try lia.
  - rewrite Hc. exists 0%nat. split; [done|]. left. split; [done|set_solver].
  - destruct Hc as (-> & Hx & n & (e & He & <-)%fld_entry & Hc).
    cbn [find_loop]. rewrite (proj2 (Nat.eqb_neq x 0) Hx). go_entry He.
    pose proof (entry_fld hashValue _ _ _ He) as Hh. destruct (decide (hashValue e = h)) as [E|E].
    + exists x. split; [done|]. right. split; [set_solver|]. by rewrite Hh, E.
    + destruct (IH _ fuel ltac:(lia) Hc) as (r & Hr & Hcase). exists r. split; [done|].
      destruct Hcase as [[-> Hno]|[Hin Hr']]; [left|right; split; [set_solver|done]].
      split; [done|]. intros i [->|Hi]%elem_of_cons; [congruence|by apply Hno].
Qed.

Lemma remove_loop_ok t h c : forall a prev fuel, (length c < fuel)%nat ->
  chain (fld nextWithSameHash t) a c ->
  (exists p, remove_loop fuel a prev h t = Ret (p, 0%nat) t /\
    forall i, i ∈ c -> fld hashValue t i <> Some h) \/
  (exists c1 i c2, c = c1 ++ i :: c2 /\ fld hashValue t i = Some h /\
    remove_loop fuel a prev h t = Ret (default prev (last c1), i) t).
Proof.
  induction c as [|x c IH]; intros a prev [|fuel] Hf Hc; simpl in Hf; try lia.
  - rewrite Hc. left. exists prev. split; [done|set_solver].
  - destruct Hc as (-> & Hx & n & (e & He & <-)%fld_entry & Hc).
    cbn [remove_loop]. rewrite (proj2 (Nat.eqb_neq x 0) Hx). go_entry He.
    pose proof (entry_fld hashValue _ _ _ He) as Hh. destruct (decide (hashValue e = h)) as [E|E].
    + right. exists [], x, c. by rewrite Hh, E.
    + destruct (IH _ x fuel ltac:(lia) Hc) as [(p & Hr & Hno)|(c1 & i & c2 & -> & Hi & Hr)].
      * left. exists p. split; [done|]. intros i [->|Hi]%elem_of_cons; [congruence|by apply Hno].
      * right. exists (x :: c1), i, c2. split_and!; [done..|]. rewrite Hr. do 2 f_equal.
        destruct c1; [done|]. rewrite last_cons_cons.
        by destruct (last (n :: c1)) eqn:El; [|apply last_None in El].
Qed.

(** The search finds the entry of the hash, or there is none. *)
Lemma search_ok t lv F h : hashed t lv F ->
  (exists i, search h t = Ret i t /\ (h, i) ∈ lv) \/
  (search h t = Ret 0%nat t /\ h ∉ lv.*1).
Proof.
  intros Hh. destruct (hs_bucket _ _ _ Hh _ (hs_mask _ _ _ Hh h)) as (a & c & Ha & Hc & Hp).
  unfold search, hashTableSlot. go_state.
  erewrite bind_Ret; [|unfold get_slot; by rewrite Ha]. go_state.
  destruct (find_loop_ok t h c a (entry_fuel t)) as (r & Hr & Hcase);
    [by eapply bucket_fuel|done|]. rewrite Hr.
  destruct Hcase as [[-> Hno]|[Hin Hr']]; [right|left].
  - split; [done|]. rewrite list_elem_of_fmap. intros ([h' i] & -> & Hi).
    apply (Hno i); [|by eapply hs_hash]. apply (bucket_elem t lv _ _ i Hp). by exists h'.
  - exists r. split; [done|]. apply (bucket_elem t lv _ _ r Hp) in Hin as (h' & Hin & _).
    pose proof (hs_hash _ _ _ Hh _ _ Hin) as E. rewrite Hr' in E. by injection E as <-.
Qed.

Record shape (t t' : table) : Prop := {
  sh_mask : _hashMask t' = _hashMask t;
  sh_hcount : _hashCount t' = _hashCount t;
  sh_cap : _capacity t' = _capacity t;
  sh_len : length (_entries t') = length (_entries t)
}.

Lemma in_slot_shape t t' s (lv : list (strong_hash * nat)) : shape t t' ->
  filter (in_slot t' s) lv = filter (in_slot t s) lv.
Proof.
  intros Hs. apply list_filter_iff. intros x. unfold in_slot. by rewrite (sh_mask _ _ Hs).
Qed.

(** The index of a live entry is in one slot only. *)
Lemma bucket_disjoint t lv F s1 s2 c1 c2 i : hashed t lv F ->
  c1 ≡ₚ (filter (in_slot t s1) lv).*2 -> c2 ≡ₚ (filter (in_slot t s2) lv).*2 ->
  i ∈ c1 -> i ∈ c2 -> s1 = s2.
Proof.
  intros Hh Hp1 Hp2 Hi1 Hi2.
  apply (bucket_elem t lv _ _ i Hp1) in Hi1 as (h1 & Hin1 & <-).
  apply (bucket_elem t lv _ _ i Hp2) in Hi2 as (h2 & Hin2 & <-).
  pose proof (hs_hash _ _ _ Hh _ _ Hin1) as E1.
  rewrite (hs_hash _ _ _ Hh _ _ Hin2) in E1. by injection E1 as ->.
Qed.

Lemma bucket_live t lv s c i : c ≡ₚ (filter (in_slot t s) lv).*2 -> i ∈ c -> i ∈ lv.*2.
Proof.
  intros Hp (h & Hin & _)%(bucket_elem t lv s c i Hp). apply list_elem_of_fmap. by exists (h, i).
Qed.

(** Taking an entry from the free chain to the front of a slot. *)
Lemma hashed_insert t t' lv F h i n first : hashed t lv (i :: F) -> h ∉ lv.*1 ->
  shape t t' -> fld nextWithSameHash t i = Some n ->
  _hashTable t !! slot_index (_hashMask t) h = Some first ->
  _hashTable t' = <[slot_index (_hashMask t) h := i]> (_hashTable t) ->
  (forall j, fld nextWithSameHash t' j = upd (upd (fld nextWithSameHash t) 0 n) i first j) ->
  (forall j, j <> i -> fld hashValue t' j = fld hashValue t j) ->
  fld hashValue t' i = Some h -> hashed t' ((h, i) :: lv) F.
Proof.
  intros Hh Hnew Hsh Hn Hfirst Htab Hsame Hhash Hi.
  pose proof (hashed_nodup _ _ _ Hh) as [Hil Hnd]%NoDup_middle.
  pose proof (hashed_bound _ _ _ i Hh ltac:(set_solver)) as Hib.
  constructor.
  - intros h'. rewrite Htab, length_insert, (sh_mask _ _ Hsh). apply (hs_mask _ _ _ Hh).
  - intros s. rewrite Htab, length_insert. intros Hs.
    destruct (hs_bucket _ _ _ Hh s Hs) as (a & c & Ha & Hc & Hp).
    rewrite (in_slot_shape _ _ s _ Hsh).
    assert (i ∉ c) by (intros ?%(bucket_live t lv s c _ Hp); set_solver).
    assert (0%nat ∉ c) by (by eapply chain_nonzero).
    assert (chain (fld nextWithSameHash t') a c) as Hc'.
    { eapply chain_ext; [|done]. intros x Hx. rewrite Hsame, !upd_ne; [done|congruence..]. }
    destruct (decide (slot_index (_hashMask t) h = s)) as [<-|Hne].
    + exists i, (i :: c). rewrite filter_cons_True by done. cbn [fmap list_fmap snd].
      split_and!; [by apply list_lookup_insert_eq| |by rewrite Hp].
      rewrite Hfirst in Ha. injection Ha as <-.
      split_and!; [done|lia|]. exists first. by rewrite Hsame, upd_eq.
    + exists a, c. rewrite filter_cons_False by done. by rewrite list_lookup_insert_ne.
  - destruct (hs_free _ _ _ Hh) as (n0 & Hn0 & Hc). exists n.
    rewrite Hsame, upd_ne, upd_eq by lia. split; [done|].
    destruct Hc as (_ & _ & n' & Hn' & Hc). rewrite Hn in Hn'. injection Hn' as <-.
    pose proof (chain_nonzero _ _ _ Hc).
    eapply chain_ext; [|done]. intros x Hx. rewrite Hsame, !upd_ne; [done|set_solver..].
  - intros h' j [[= -> ->]|Hin]%elem_of_cons; [done|].
    assert (j ∈ lv.*2) by (apply list_elem_of_fmap; by exists (h', j)).
    rewrite Hhash; [by eapply hs_hash|]. set_solver.
  - rewrite (sh_cap _ _ Hsh), <- (hs_perm _ _ _ Hh). cbn. by rewrite Permutation_middle.
  - rewrite (sh_len _ _ Hsh), (sh_cap _ _ Hsh). by apply hs_len in Hh.
  - apply NoDup_cons. split; [done|by apply hs_keys in Hh].
Qed.

(** The writes that take entry [i] out of the chain of its slot: [p] is the
    entry before it, if any, and [n] what followed it. *)
Definition bucket_unlinked (t t' : table) (s : nat) (p : option nat) (i n n0 : nat) : Prop :=
  match p with
  | None => _hashTable t' = <[s := n]> (_hashTable t) /\
      forall j, fld nextWithSameHash t' j = upd (upd (fld nextWithSameHash t) i n0) 0 i j
  | Some p => _hashTable t' = _hashTable t /\
      forall j, fld nextWithSameHash t' j =
        upd (upd (upd (fld nextWithSameHash t) p n) i n0) 0 i j
  end.

Lemma bucket_unlinked_length t t' s p i n n0 : bucket_unlinked t t' s p i n n0 ->
  length (_hashTable t') = length (_hashTable t).
Proof. destruct p; intros [-> _]; [done|apply length_insert]. Qed.

Lemma bucket_unlinked_same t t' s p i n n0 j : bucket_unlinked t t' s p i n n0 ->
  j <> i -> j <> 0%nat -> p <> Some j ->
  fld nextWithSameHash t' j = fld nextWithSameHash t j.
Proof. destruct p as [p|]; intros [_ E] ???; rewrite E, !upd_ne; congruence. Qed.

Lemma bucket_unlinked_ends t t' s p i n n0 : bucket_unlinked t t' s p i n n0 -> i <> 0%nat ->
  fld nextWithSameHash t' 0 = Some i /\ fld nextWithSameHash t' i = Some n0.
Proof.
  destruct p as [p|]; intros [_ E] ?; rewrite !E, upd_eq; split; try done;
    rewrite upd_ne, upd_eq by done; done.
Qed.

(** Taking an entry from its slot to the front of the free chain. *)
Lemma hashed_delete t t' lv1 lv2 F h i c1 c2 a n n0 :
  let s := slot_index (_hashMask t) h in
  hashed t (lv1 ++ (h, i) :: lv2) F -> shape t t' ->
  _hashTable t !! s = Some a -> chain (fld nextWithSameHash t) a (c1 ++ i :: c2) ->
  c1 ++ i :: c2 ≡ₚ (filter (in_slot t s) (lv1 ++ (h, i) :: lv2)).*2 ->
  fld nextWithSameHash t i = Some n -> fld nextWithSameHash t 0 = Some n0 ->
  bucket_unlinked t t' s (last c1) i n n0 ->
  (forall j, fld hashValue t' j = fld hashValue t j) -> hashed t' (lv1 ++ lv2) (i :: F).
Proof.
  intros s Hh Hsh Ha Hc Hp Hn Hn0 Hun Hhash. pose proof (hashed_nodup _ _ _ Hh) as Hnd.
  rewrite fmap_app, fmap_cons, <- app_assoc in Hnd. cbn [snd fst] in Hnd.
  apply NoDup_middle in Hnd as [Hil Hnd].
  assert (i <> 0%nat) as Hi0 by (apply chain_nonzero in Hc; set_solver).
  assert (forall p, last c1 = Some p -> p ∈ c1 ++ i :: c2) as Hlast.
  { intros p Hp'. apply last_Some_elem_of in Hp'. set_solver. }
  constructor.
  - intros h'. rewrite (bucket_unlinked_length _ _ _ _ _ _ _ Hun), (sh_mask _ _ Hsh).
    apply (hs_mask _ _ _ Hh).
  - intros s'. rewrite (bucket_unlinked_length _ _ _ _ _ _ _ Hun). intros Hs'.
    rewrite (in_slot_shape _ _ s' _ Hsh).
    destruct (decide (s' = s)) as [->|Hne].
    + exists (match last c1 with None => n | Some _ => a end), (c1 ++ c2).
      pose proof (bucket_nodup _ _ _ _ _ Hh Hp) as Hndc.
      pose proof (chain_delete _ _ _ _ _ _ Hndc Hc Hn) as Hdel.
      assert (forall x, x ∈ c1 ++ c2 -> x <> i /\ x <> 0%nat) as Hx.
      { intros x Hx. apply NoDup_middle in Hndc as [Hic _]. split; [set_solver|].
        intros ->. apply chain_nonzero in Hc. set_solver. }
      split_and!.
      * destruct (last c1); destruct Hun as [-> _]; [done|by apply list_lookup_insert_eq].
      * destruct (last c1) as [p|] eqn:El; destruct Hun as [_ E].
        -- destruct Hdel as (_ & _ & Hdel). eapply chain_ext; [|exact Hdel].
           intros x [??]%Hx. by rewrite E, (upd_ne _ 0), (upd_ne _ i).
        -- apply last_None in El as ->. destruct Hdel as (_ & Hdel).
           eapply chain_ext; [|exact Hdel]. intros x [??]%Hx. by rewrite E, !upd_ne.
      * revert Hp. rewrite !filter_app, filter_cons_True by done. rewrite !fmap_app, fmap_cons.
        apply Permutation_app_inv.
    + destruct (hs_bucket _ _ _ Hh s' Hs') as (a' & c' & Ha' & Hc' & Hp').
      assert (forall x, x ∈ c' -> x ∉ c1 ++ i :: c2) as Hdis.
      { intros x Hx Hx'. apply Hne. by eapply (bucket_disjoint t). }
      exists a', c'. split_and!.
      * destruct (last c1); destruct Hun as [-> _]; [done|by rewrite list_lookup_insert_ne].
      * eapply chain_ext; [|done]. intros x Hx. symmetry.
        eapply bucket_unlinked_same; [done|..].
        -- intros ->. apply (Hdis i Hx). set_solver.
        -- intros ->. by eapply chain_nonzero.
        -- intros Hl. by apply (Hdis x Hx), Hlast.
      * rewrite Hp', !filter_app, filter_cons_False; [done|]. by intros E.
  - exists i. destruct (bucket_unlinked_ends _ _ _ _ _ _ _ Hun Hi0) as [E0 Ei]. split; [done|].
    destruct (hs_free _ _ _ Hh) as (n' & Hn' & Hf). rewrite Hn0 in Hn'. injection Hn' as <-.
    split_and!; [done..|]. exists n0. split; [done|].
    eapply chain_ext; [|done]. intros x Hx. symmetry. eapply bucket_unlinked_same; [done|..].
    + set_solver.
    + intros ->. by eapply chain_nonzero.
    + intros Hl%Hlast. apply (bucket_live t _ _ _ _ Hp) in Hl.
      pose proof (hashed_nodup _ _ _ Hh) as (_ & Hd & _)%NoDup_app. by apply (Hd x).
  - intros h' j Hin. rewrite Hhash. eapply hs_hash; [done|]. set_solver.
  - rewrite (sh_cap _ _ Hsh), <- (hs_perm _ _ _ Hh), !fmap_app, fmap_cons. cbn [snd].
    rewrite <- !app_assoc. cbn [app]. by rewrite <- !Permutation_middle.
  - rewrite (sh_len _ _ Hsh), (sh_cap _ _ Hsh). by apply hs_len in Hh.
  - apply hs_keys in Hh. rewrite fmap_app, fmap_cons in Hh.
    rewrite fmap_app. by apply NoDup_middle in Hh as [_ Hh].
Qed.

(** ** The state between operations *)

Lemma others_shape t t' : others t t' -> shape t t'.
Proof. intros []. by constructor. Qed.

Lemma shape_trans t1 t2 t3 : shape t1 t2 -> shape t2 t3 -> shape t1 t3.
Proof. intros [] []. constructor; etransitivity; eauto. Qed.

Lemma hashed_ext t t' lv F : hashed t lv F ->
  length (_entries t') = length (_entries t) ->
  (forall j, fld nextWithSameHash t' j = fld nextWithSameHash t j) ->
  (forall j, fld hashValue t' j = fld hashValue t j) -> _hashTable t' = _hashTable t ->
  _hashMask t' = _hashMask t -> _capacity t' = _capacity t -> hashed t' lv F.
Proof.
  intros Hh El Es Eh Et Em Ec. constructor.
  - intros h. rewrite Et, Em. apply (hs_mask _ _ _ Hh).
  - intros s. rewrite Et. intros Hs.
    destruct (hs_bucket _ _ _ Hh s Hs) as (a & c & Ha & Hc & Hp). exists a, c. split_and!; [done|..].
    + eapply chain_ext; [|done]. intros x _. by rewrite Es.
    + rewrite Hp. f_equiv. apply reflexive_eq, list_filter_iff. intros x. unfold in_slot. by rewrite Em.
  - destruct (hs_free _ _ _ Hh) as (n & Hn & Hc). exists n. rewrite Es.
    split; [done|]. eapply chain_ext; [|done]. intros x _. by rewrite Es.
  - intros h i Hin. rewrite Eh. by apply (hs_hash _ _ _ Hh).
  - rewrite Ec. apply (hs_perm _ _ _ Hh).
  - rewrite El, Ec. apply (hs_len _ _ _ Hh).
  - apply (hs_keys _ _ _ Hh).
Qed.

Lemma hashed_others t t' lv F : hashed t lv F -> others t t' -> hashed t' lv F.
Proof. intros Hh []. by eapply hashed_ext. Qed.

Lemma hashed_perm t lv lv' F : lv ≡ₚ lv' -> hashed t lv F -> hashed t lv' F.
Proof.
  intros Hp [Hm Hb Hf Hh Hq Hl Hk]. constructor; try done.
  - intros s Hs. destruct (Hb s Hs) as (a & c & Ha & Hc & E). exists a, c.
    split_and!; [done..|]. by rewrite <- Hp.
  - intros h i. rewrite <- Hp. apply Hh.
  - by rewrite <- Hp.
  - by rewrite <- Hp.
Qed.

(** A table with the live entries [lv], the most recent first, and the free
    entries [F]; in a debug build [b] more uses are within the range of the
    ordering counter. *)
Record good (t : table) (lv : list (strong_hash * nat)) (F : list nat) (b : Z) : Prop := {
  g_hashed : hashed t lv F;
  g_linked : linked t lv.*2 b;
  g_counted : counted t (length lv);
  g_size : _size t = Z.of_nat (length lv);
  g_capacity : (2 <= _capacity t)%nat /\ Z.of_nat (_capacity t) < 2 ^ 31;
  g_count : length (_hashTable t) = Z.to_nat (_hashCount t)
}.

Lemma good_length t lv F b : good t lv F b -> (length lv + length F = _capacity t)%nat.
Proof.
  intros Hg. pose proof (Permutation_length (hs_perm _ _ _ (g_hashed _ _ _ _ Hg))) as Hl.
  rewrite length_app, length_fmap, length_seq in Hl. done.
Qed.

(** Unlinking and linking at the head again: the entry becomes the most
    recent one. *)
Lemma refresh_ok t lv1 h i lv2 F b : good t (lv1 ++ (h, i) :: lv2) F (b + 1) -> 0 <= b ->
  exists t1 t', unlinkFromLRUChain i t = Ret tt t1 /\ linkToLRUChainHead i t1 = Ret tt t' /\
    good t' ((h, i) :: lv1 ++ lv2) F b /\ others t t'.
Proof.
  intros Hg Hb. pose proof (g_linked _ _ _ _ Hg) as Hl. rewrite fmap_app, fmap_cons in Hl.
  cbn [snd] in Hl.
  destruct (unlink_ok _ _ _ _ _ Hl) as (t1 & Hu & Hl1 & Hc1 & Ho1).
  { pose proof (g_counted _ _ _ _ Hg) as Hc. rewrite length_app in *. simpl in *.
    by rewrite !length_fmap. }
  pose proof (lk_nodup _ _ _ Hl) as Hnd. rewrite app_comm_cons in Hnd.
  apply NoDup_middle in Hnd as [Hi _].
  destruct (link_ok t1 (lv1.*2 ++ lv2.*2) i b) as (t' & Hk & Hl' & Hc' & Ho'); try done.
  - destruct (linked_some _ _ _ i Hl) as [e He]; [set_solver|].
    apply lookup_lt_is_Some. rewrite (o_len _ _ Ho1). by eapply lookup_lt_Some.
  - rewrite (o_size _ _ Ho1), (g_size _ _ _ _ Hg), !length_app, !length_fmap. simpl. lia.
  - pose proof (others_trans _ _ _ Ho1 Ho') as Ho. exists t1, t'. split_and!; [done..| |done].
    constructor.
    + eapply hashed_perm; [|eapply hashed_others; [apply (g_hashed _ _ _ _ Hg)|done]].
      by rewrite <- Permutation_middle.
    + by rewrite fmap_cons, fmap_app.
    + revert Hc'. rewrite length_app, !length_fmap. simpl. by rewrite length_app.
    + rewrite (o_size _ _ Ho), (g_size _ _ _ _ Hg). simpl. rewrite !length_app. simpl. lia.
    + rewrite (o_capacity _ _ Ho). apply (g_capacity _ _ _ _ Hg).
    + rewrite (o_table _ _ Ho), (o_count _ _ Ho). apply (g_count _ _ _ _ Hg).
Qed.

Lemma recycle_loop_ok t i c2 c1 : forall a loc fuel, (length c1 < fuel)%nat ->
  read_location loc t = Ret a t -> chain (fld nextWithSameHash t) a (c1 ++ i :: c2) ->
  NoDup (c1 ++ i :: c2) ->
  exists loc', loc' = match last c1 with None => loc | Some p => InEntry p end /\
    recycle_loop fuel i loc t = Ret loc' t /\ read_location loc' t = Ret i t.
Proof.
  induction c1 as [|x c1 IH]; intros a loc [|fuel] Hf Hr Hc Hnd; simpl in Hf; try lia.
  - destruct Hc as (-> & _). eexists. split; [done|]. cbn [recycle_loop]. go Hr.
    by rewrite Nat.eqb_refl.
  - destruct Hc as (-> & Hx & n & Hn & Hc). apply NoDup_cons in Hnd as [Hxc Hnd].
    fold (c1 ++ i :: c2) in *. cbn [recycle_loop]. go Hr.
    rewrite (proj2 (Nat.eqb_neq x i)) by set_solver.
    go_req; [|by rewrite (proj2 (Nat.eqb_neq x 0))].
    destruct (IH n (InEntry x) fuel) as (loc' & -> & Hl & Hread); [lia| |done..|].
    + apply fld_entry in Hn as (e & He & <-). cbn [read_location]. by go_entry He.
    + eexists. split_and!; [|done..]. destruct c1; [done|]. rewrite last_cons_cons.
      by destruct (last (n0 :: c1)) eqn:El; [|apply last_None in El].
Qed.

(** The write that takes an entry out of its slot chain. *)
Definition slot_write (s : nat) (p : option nat) (n : nat) (t : table) : table :=
  match p with
  | None => with_table <[s := n]> t
  | Some p => alt p (set_same n) t
  end.

Lemma slot_write_other {B} (f : entry -> B) s p n t j : (forall m e, f (set_same m e) = f e) ->
  fld f (slot_write s p n t) j = fld f t j.
Proof. intros Hf. destruct p; [by apply fld_alt_other|done]. Qed.

Lemma slot_write_ne s p n t j : p <> Some j ->
  fld nextWithSameHash (slot_write s p n t) j = fld nextWithSameHash t j.
Proof. intros. destruct p; [apply fld_alt_ne; congruence|done]. Qed.

Lemma slot_write_some s p n t j :
  is_Some (_entries (slot_write s p n t) !! j) <-> is_Some (_entries t !! j).
Proof. destruct p; [apply alt_some|done]. Qed.

Lemma slot_write_unlinked t0 t t' s p i n n0 :
  (forall j, fld nextWithSameHash t j = fld nextWithSameHash t0 j) -> _hashTable t = _hashTable t0 ->
  _hashTable t' = _hashTable (slot_write s p n t) ->
  (match p with Some p => is_Some (_entries t !! p) | None => True end) ->
  (forall j, fld nextWithSameHash t' j =
     upd (upd (fld nextWithSameHash (slot_write s p n t)) i n0) 0 i j) ->
  bucket_unlinked t0 t' s p i n n0.
Proof.
  intros E0 T0 Ht Hs E. destruct p as [p|]; (split; [by rewrite Ht, <- T0|]); intros j;
    rewrite E; unfold upd; repeat case_decide; try done.
  - subst. simpl. rewrite (fld_alt_set _ _ _ _ _ n) by done. by rewrite decide_True.
  - simpl. rewrite (fld_alt_set _ _ _ _ _ n) by done. rewrite decide_False, E0 by done. done.
  - apply E0.
Qed.

Lemma write_location_ok s p n t :
  (match p with Some p => is_Some (_entries t !! p) | None => is_Some (_hashTable t !! s) end) ->
  write_location (match p with None => InTable s | Some p => InEntry p end) n t =
    Ret tt (slot_write s p n t).
Proof.
  destruct p as [p|]; intros Hs; [by apply mod_ok|]. destruct Hs as [a Ha].
  cbn. unfold set_slot. by rewrite Ha.
Qed.

(** The slot chain of a live entry [i]: the entries before and after it, its
    link and that of the sentinel. *)
Record bucket (t : table) (lv1 : list (strong_hash * nat)) (h : strong_hash) (i : nat)
    (lv2 : list (strong_hash * nat)) (c1 c2 : list nat) (a n n0 : nat) : Prop := {
  bk_start : _hashTable t !! slot_index (_hashMask t) h = Some a;
  bk_chain : chain (fld nextWithSameHash t) a (c1 ++ i :: c2);
  bk_perm : c1 ++ i :: c2 ≡ₚ
    (filter (in_slot t (slot_index (_hashMask t) h)) (lv1 ++ (h, i) :: lv2)).*2;
  bk_nodup : NoDup (c1 ++ i :: c2);
  bk_next : fld nextWithSameHash t i = Some n;
  bk_free : fld nextWithSameHash t 0 = Some n0;
  bk_fuel : (length (c1 ++ i :: c2) < entry_fuel t)%nat
}.

Lemma bucket_of t lv1 h i lv2 F : hashed t (lv1 ++ (h, i) :: lv2) F ->
  exists c1 c2 a n n0, bucket t lv1 h i lv2 c1 c2 a n n0.
Proof.
  intros Hh.
  destruct (hs_bucket _ _ _ Hh _ (hs_mask _ _ _ Hh h)) as (a & c & Ha & Hc & Hp).
  assert (i ∈ c) as (c1 & c2 & ->)%list_elem_of_split.
  { apply (bucket_elem t _ _ _ _ Hp). exists h. split; [set_solver|done]. }
  destruct (chain_split _ _ _ _ _ Hc) as (_ & n & Hn & _).
  destruct (hs_free _ _ _ Hh) as (n0 & Hn0 & _).
  exists c1, c2, a, n, n0. constructor; [done..|by eapply bucket_nodup|done|done|by eapply bucket_fuel].
Qed.

Lemma bucket_some t lv1 h i lv2 F c1 c2 a n n0 j : hashed t (lv1 ++ (h, i) :: lv2) F ->
  bucket t lv1 h i lv2 c1 c2 a n n0 -> j ∈ 0%nat :: c1 ++ i :: c2 -> is_Some (_entries t !! j).
Proof.
  intros Hh Hb [->|Hj]%elem_of_cons; (eapply hashed_some; [done|]); [set_solver|].
  apply elem_of_cons. right. apply elem_of_app. left.
  eapply (bucket_live t); [apply (bk_perm _ _ _ _ _ _ _ _ _ _ Hb)|done].
Qed.

Lemma bucket_last t lv1 h i lv2 c1 c2 a n n0 p : bucket t lv1 h i lv2 c1 c2 a n n0 ->
  last c1 = Some p -> p ∈ c1 /\ p <> 0%nat /\ p <> i.
Proof.
  intros Hb El%last_Some_elem_of.
  pose proof (chain_nonzero _ _ _ (bk_chain _ _ _ _ _ _ _ _ _ _ Hb)).
  pose proof (bk_nodup _ _ _ _ _ _ _ _ _ _ Hb) as [??]%NoDup_middle. set_solver.
Qed.

(** Taking a live entry [i] that has left the LRU chain to the free chain:
    what [recycle] and [remove] write, [g] to the entry itself. *)
Definition free_writes (s : nat) (p : option nat) (i n : nat) (g : entry -> entry) (t : table) : table :=
  alt 0 (set_same i) (alt i g (slot_write s p n t)).

Record freed (t t' : table) (lv : list (strong_hash * nat)) (F : list nat) : Prop := {
  fr_hashed : hashed t' lv F;
  fr_value : forall j, fld value t' j = fld value t j;
  fr_shape : shape t t';
  fr_table : length (_hashTable t') = length (_hashTable t);
  fr_size : _size t' = _size t;
  fr_stats : _stats t' = _stats t;
  fr_count : _lastLRUCount t' = _lastLRUCount t
}.

Lemma free_writes_ok t lv1 h i lv2 F c1 c2 a n n0 g :
  let t' := free_writes (slot_index (_hashMask t) h) (last c1) i n g t in
  hashed t (lv1 ++ (h, i) :: lv2) F -> bucket t lv1 h i lv2 c1 c2 a n n0 ->
  (forall e, nextWithSameHash (g e) = n0) -> (forall e, hashValue (g e) = hashValue e) ->
  (forall e, value (g e) = value e) -> freed t t' (lv1 ++ lv2) (i :: F).
Proof.
  intros t' Hh Hb Hgs Hgh Hgv. set (s := slot_index (_hashMask t) h) in *.
  pose proof (bucket_some _ _ _ _ _ _ _ _ _ _ _ 0%nat Hh Hb ltac:(set_solver)) as Hs0.
  pose proof (bucket_some _ _ _ _ _ _ _ _ _ _ _ i Hh Hb ltac:(set_solver)) as Hsi.
  assert (shape t t') as Hsh.
  { unfold t', free_writes. destruct (last c1); constructor; try done; simpl; by rewrite !length_alter. }
  assert (bucket_unlinked t t' s (last c1) i n n0) as Hun.
  { eapply slot_write_unlinked; [done..| |].
    - destruct (last c1) as [p|] eqn:El; [|done].
      destruct (bucket_last _ _ _ _ _ _ _ _ _ _ _ Hb El).
      eapply bucket_some; [done..|set_solver].
    - intros j. unfold t', free_writes.
      rewrite (fld_alt_set _ _ _ _ _ i); [|done|by rewrite alt_some, slot_write_some].
      rewrite (fld_alt_set _ _ _ _ _ n0); [done..|by rewrite slot_write_some]. }
  constructor; try (unfold t', free_writes; by destruct (last c1)).
  - destruct Hb. eapply hashed_delete; [done..|].
    intros j. unfold t', free_writes. rewrite !fld_alt_other by done. by apply slot_write_other.
  - intros j. unfold t', free_writes. rewrite !fld_alt_other by done. by apply slot_write_other.
  - by eapply bucket_unlinked_length.
Qed.

Lemma free_writes_linked s p i n g t l b : i ∉ 0%nat :: l -> linked t l b ->
  linked (free_writes s p i n g t) l b.
Proof.
  intros Hi Hl. eapply linked_ext; [done|..]; intros j Hj; unfold free_writes;
    (rewrite fld_alt_other, fld_alt_ne by (done || set_solver)); by apply slot_write_other.
Qed.

(** The end of [recycle], from the search of its link on. *)
Lemma recycle_slot_ok t lv h i b : hashed t (lv ++ [(h, i)]) [] -> linked t lv.*2 b ->
  i ∉ 0%nat :: lv.*2 -> exists e t', _entries t !! i = Some e /\ hashValue e = h /\
    freed t t' lv [i] /\ linked t' lv.*2 b /\
    (fuel ← state entry_fuel;
     nextIndex ← recycle_loop fuel i (InTable (slot_index (_hashMask t) h));
     n ← read_location nextIndex;
     Require_ (n =? i)%nat;;
     ent ← get_entry i;
     write_location nextIndex (nextWithSameHash ent);;
     sentinel ← get_entry 0;
     mod_entry i (set_same (nextWithSameHash sentinel));;
     mod_entry 0 (set_same i);;
     modify (with_stats recycled)) t = Ret tt (with_stats recycled t').
Proof.
  intros Hh Hl Hi. destruct (bucket_of _ _ _ _ _ _ Hh) as (c1 & c2 & a & n & n0 & Hb).
  set (s := slot_index (_hashMask t) h).
  assert (forall j, j ∈ 0%nat :: c1 ++ i :: c2 -> is_Some (_entries t !! j)) as Hsome
    by (intros; by eapply bucket_some).
  destruct (Hsome i) as [e He]; [set_solver|].
  pose proof (hs_hash _ _ _ Hh h i ltac:(set_solver)) as Hhi. rewrite (entry_fld _ _ _ _ He) in Hhi.
  pose proof (bk_next _ _ _ _ _ _ _ _ _ _ Hb) as Hn. rewrite (entry_fld _ _ _ _ He) in Hn.
  exists e, (free_writes s (last c1) i n (set_same n0) t). split_and!; [done|congruence|..].
  - pose proof (free_writes_ok t lv h i [] [] c1 c2 a n n0 (set_same n0) Hh Hb) as Hf.
    rewrite app_nil_r in Hf. by apply Hf.
  - by apply free_writes_linked.
  - go_state. destruct (recycle_loop_ok t i c2 c1 a (InTable s) (entry_fuel t)) as (loc & -> & Hloop & Hread).
    { pose proof (bk_fuel _ _ _ _ _ _ _ _ _ _ Hb) as Hf. rewrite length_app in Hf. lia. }
    { cbn. unfold get_slot, s. by rewrite (bk_start _ _ _ _ _ _ _ _ _ _ Hb). }
    { apply (bk_chain _ _ _ _ _ _ _ _ _ _ Hb). }
    { apply (bk_nodup _ _ _ _ _ _ _ _ _ _ Hb). }
    go Hloop. go Hread. go_req; [|by rewrite Nat.eqb_refl]. go_entry He.
    injection Hn as ->. erewrite bind_Ret; [|apply write_location_ok].
    2:{ destruct (last c1) as [p|] eqn:El; [|exists a; apply (bk_start _ _ _ _ _ _ _ _ _ _ Hb)].
        destruct (bucket_last _ _ _ _ _ _ _ _ _ _ _ Hb El). apply Hsome. set_solver. }
    destruct (proj2 (slot_write_some s (last c1) n t 0)) as [e4 He4]; [apply Hsome; set_solver|].
    go_entry He4. assert (nextWithSameHash e4 = n0) as ->.
    { apply (entry_fld nextWithSameHash) in He4. rewrite slot_write_ne in He4.
      - rewrite (bk_free _ _ _ _ _ _ _ _ _ _ Hb) in He4. congruence.
      - intros El%(bucket_last _ _ _ _ _ _ _ _ _ _ _ Hb). naive_solver. }
    erewrite bind_Ret; [|apply mod_ok; rewrite slot_write_some; eauto].
    erewrite bind_Ret; [|apply mod_ok; rewrite alt_some; eauto]. done.
Qed.

Lemma recycle_ok t lv h i b : good t (lv ++ [(h, i)]) [] b ->
  exists t1 t', recycle t = Ret tt (with_stats recycled t') /\ others t t1 /\
    freed t1 t' lv [i] /\ linked t' lv.*2 b /\ counted t' (length lv).
Proof.
  intros Hg. pose proof (g_linked _ _ _ _ Hg) as Hl. rewrite fmap_app, fmap_cons in Hl.
  cbn [snd fmap list_fmap] in Hl.
  pose proof (good_length _ _ _ _ Hg) as Hlen. rewrite length_app in Hlen. simpl in Hlen.
  destruct (relink_ok _ _ _ _ _ Hl) as (e & e' & He & Hp & Hn & Hsp & He' & Hp' & Hsn & Hl2 & Ho & Hcnt & _).
  cbn [head default from_option id] in *. set (p := default 0%nat (last lv.*2)) in *.
  set (t2 := alt 0 (set_prev p) (alt p (set_next 0) t)) in *. rewrite app_nil_r in Hl2.
  pose proof (lk_nodup _ _ _ Hl) as Hnd. rewrite app_comm_cons in Hnd.
  apply NoDup_middle in Hnd as [Hi _]. rewrite app_nil_r in Hi.
  pose proof (dll_last _ _ _ _ (lk_dll _ _ _ Hl)) as (e0 & He0 & Hp0)%fld_entry.
  rewrite last_snoc in Hp0. simpl in Hp0.
  set (t3 := recount (Z.of_nat (length lv)) t2).
  assert (others t t3) as Ho3 by (eapply others_trans; [done|apply others_recount]).
  destruct (recycle_slot_ok t3 lv h i b) as (e3 & t' & He3 & Hhi & Hf & Hl' & Hrun).
  { by eapply hashed_others; [apply (g_hashed _ _ _ _ Hg)|]. }
  { by apply linked_recount. }
  { done. }
  exists t3, t'. split_and!; [|done..|].
  - unfold recycle. do 2 go_state. go_req.
    2:{ apply Z.eqb_eq. rewrite (g_size _ _ _ _ Hg), length_app. simpl. lia. }
    go_entry He0. rewrite Hp0. go_req; [|rewrite (proj2 (Nat.eqb_neq i 0)); [done|set_solver]].
    go_entry He. rewrite Hp. go (mod_ok _ (set_next 0) _ Hsp). go_entry He'. rewrite Hp'.
    go (mod_ok _ (set_prev p) _ Hsn). fold t2.
    eassert _ as Hv; [eapply (validate_ok t2 _ b (-1) Hl2)|].
    { intros Hd. rewrite Hcnt, (g_counted _ _ _ _ Hg Hd), length_app, length_fmap. simpl. lia. }
    rewrite length_fmap in Hv. go Hv. fold t3. go_entry He3. rewrite Hhi.
    unfold hashTableSlot. go_state. exact Hrun.
  - intros Hd. rewrite (fr_count _ _ _ _ Hf). by apply counted_recount.
Qed.

(** The writes of [pop_free_entry] before the entry is linked. *)
Definition pop_writes (h : strong_hash) (s i n first : nat) (t : table) : table :=
  with_table <[s := i]> (alt i (set_same first) (alt i (set_hash h) (alt i (set_value None)
    (alt i (set_same 0) (alt 0 (set_same n) t))))).

Lemma pop_writes_hashed t lv F h i n first : let s := slot_index (_hashMask t) h in
  hashed t lv (i :: F) -> h ∉ lv.*1 -> fld nextWithSameHash t i = Some n ->
  _hashTable t !! s = Some first -> hashed (pop_writes h s i n first t) ((h, i) :: lv) F.
Proof.
  intros s Hh Hnew Hn Hfirst.
  assert (is_Some (_entries t !! i)) as Hsi by (eapply hashed_some; [done|set_solver]).
  assert (is_Some (_entries t !! 0%nat)) as Hs0 by (eapply hashed_some; [done|set_solver]).
  eapply hashed_insert; [done|done| |done|done|done|..].
  - constructor; try done. simpl. by rewrite !length_alter.
  - intros j. change (fld nextWithSameHash (alt i (set_same first) (alt i (set_hash h) (alt i (set_value None)
      (alt i (set_same 0) (alt 0 (set_same n) t))))) j = upd (upd (fld nextWithSameHash t) 0 n) i first j).
    rewrite (fld_alt_set _ _ _ _ _ first); [|done|by rewrite !alt_some].
    unfold upd at 1. case_decide; [done|]. rewrite !fld_alt_ne by done.
    by rewrite (fld_alt_set _ _ _ _ _ n).
  - intros j Hj. change (fld hashValue (alt i (set_same first) (alt i (set_hash h) (alt i (set_value None)
      (alt i (set_same 0) (alt 0 (set_same n) t))))) j = fld hashValue t j).
    rewrite !fld_alt_ne by done. by apply fld_alt_other.
  - change (fld hashValue (alt i (set_same first) (alt i (set_hash h) (alt i (set_value None)
      (alt i (set_same 0) (alt 0 (set_same n) t))))) i = Some h).
    rewrite fld_alt_other by done. rewrite (fld_alt_set _ _ _ _ _ h); [|done|by rewrite !alt_some].
    by rewrite decide_True.
Qed.

Lemma pop_free_ok t lv F h i b : hashed t lv (i :: F) -> linked t lv.*2 (b + 1) ->
  counted t (length lv) -> _size t = Z.of_nat (S (length lv)) -> 0 <= b -> h ∉ lv.*1 ->
  (2 <= _capacity t)%nat /\ Z.of_nat (_capacity t) < 2 ^ 31 ->
  length (_hashTable t) = Z.to_nat (_hashCount t) ->
  exists t', pop_free_entry h (slot_index (_hashMask t) h) t = Ret i t' /\
    good t' ((h, i) :: lv) F b /\ (forall j, j <> i -> fld value t' j = fld value t j) /\
    _stats t' = _stats t /\ shape t t'.
Proof.
  intros Hh Hl Hc Hs Hb Hnew Hcap Hcount. set (s := slot_index (_hashMask t) h).
  pose proof (hashed_nodup _ _ _ Hh) as [Hif _]%NoDup_middle.
  pose proof (hashed_bound _ _ _ i Hh ltac:(set_solver)) as Hib.
  assert (is_Some (_entries t !! i)) as [ei Hei] by (eapply hashed_some; [done|set_solver]).
  destruct (hs_free _ _ _ Hh) as (n0 & (e0 & He0 & <-)%fld_entry & Hf).
  destruct Hf as (Hi & _ & n & Hn & _).
  destruct (lookup_lt_is_Some_2 _ _ (hs_mask _ _ _ Hh h)) as [first Hfirst]. fold s in Hfirst.
  set (t1 := pop_writes h s i n first t).
  pose proof (pop_writes_hashed t lv F h i n first Hh Hnew Hn Hfirst) as Hh1. fold s t1 in Hh1.
  assert (forall B (f : entry -> B) j, j <> i -> (forall m e, f (set_same m e) = f e) ->
    fld f t1 j = fld f t j) as Hfld.
  { intros B f j Hj Hsame. transitivity (fld f (alt 0 (set_same n) t) j); [|by apply fld_alt_other].
    change (fld f t1 j) with (fld f (alt i (set_same first) (alt i (set_hash h) (alt i (set_value None)
      (alt i (set_same 0) (alt 0 (set_same n) t))))) j). rewrite !(fld_alt_ne _ i) by done. done. }
  destruct (link_ok t1 lv.*2 i b) as (t' & Hrun & Hl' & Hc' & Ho).
  { eapply linked_ext; [done|..]; intros j Hj; (apply Hfld; [|done]); intros ->;
      apply elem_of_cons in Hj as [->|Hj]; [lia|set_solver|lia|set_solver|lia|set_solver]. }
  { by rewrite length_fmap. }
  { done. }
  { apply not_elem_of_cons. split; [lia|set_solver]. }
  { eapply hashed_some; [done|set_solver]. }
  { by rewrite length_fmap. }
  exists t'. split_and!.
  - unfold pop_free_entry. go_entry He0. rewrite Hi. go_state.
    go_req; [|apply andb_true_intro; split; apply Nat.leb_le; lia].
    apply fld_entry in Hn as (e & He & <-). go_entry He. do 4 go_alt.
    erewrite bind_Ret; [|unfold get_slot; simpl; by rewrite Hfirst]. go_alt.
    erewrite bind_Ret; [|unfold set_slot; simpl; by rewrite Hfirst].
    fold (pop_writes h s i (nextWithSameHash e) first t). by go Hrun.
  - constructor.
    + by eapply hashed_others.
    + done.
    + revert Hc'. by rewrite length_fmap.
    + rewrite (o_size _ _ Ho). done.
    + by rewrite (o_capacity _ _ Ho).
    + rewrite (o_table _ _ Ho), (o_count _ _ Ho). unfold t1, pop_writes. simpl. by rewrite length_insert.
  - intros j Hj. rewrite (o_value _ _ Ho). by apply Hfld.
  - by rewrite (o_stats _ _ Ho).
  - eapply shape_trans; [|by apply others_shape]. constructor; try done.
    simpl. by rewrite !length_alter.
Qed.

(** The counters are apart from the chains. *)
Lemma hashed_counters t t' lv F : _entries t' = _entries t -> _hashTable t' = _hashTable t ->
  _hashMask t' = _hashMask t -> _capacity t' = _capacity t -> hashed t lv F -> hashed t' lv F.
Proof.
  intros E Et Em Ec Hh. eapply hashed_ext; [done|by rewrite E|..|done|done|done];
    intros j; unfold fld; by rewrite E.
Qed.

Lemma linked_counters t t' l b : _entries t' = _entries t -> linked t l b -> linked t' l b.
Proof. intros E Hl. eapply linked_ext; [done|..]; intros j _; unfold fld; by rewrite E. Qed.

(** The index a new entry gets. *)
Definition next_index (lv : list (strong_hash * nat)) (F : list nat) : nat :=
  match F with
  | i :: _ => i
  | [] => match last lv with Some (_, i) => i | None => 0 end
  end.

Lemma allocate_ok t lv F h b : good t lv F (b + 1) -> 0 <= b -> h ∉ lv.*1 ->
  let i := next_index lv F in
  exists t', allocateEntry h (slot_index (_hashMask t) h) t = Ret i t' /\
    good t' ((h, i) :: take (_capacity t - 1) lv) (tail F) b /\
    (forall j, j <> i -> fld value t' j = fld value t j) /\
    _stats t' = match F with [] => recycled (_stats t) | _ => _stats t end /\ shape t t'.
Proof.
  intros Hg Hb Hnew i. pose proof (good_length _ _ _ _ Hg) as Hlen.
  pose proof Hg as [Hh Hl Hc Hs Hcap Hcount].
  destruct (hs_free _ _ _ Hh) as (n0 & (e0 & He0 & Hn0)%fld_entry & Hf).
  unfold allocateEntry. go_entry He0. rewrite Hn0. apply chain_start in Hf as ->.
  destruct F as [|i' F]; cbn [head default from_option id tail] in *.
  - destruct lv as [|[h' i'] lv _] using rev_ind; [simpl in Hlen; lia|].
    assert (i = i') as -> by (unfold i, next_index; by rewrite last_snoc).
    rewrite length_app in Hlen. simpl in Hlen.
    destruct (recycle_ok _ _ _ _ _ Hg) as (t1 & t2 & Hrun & Ho & Hfr & Hl2 & Hc2).
    go Hrun. set (t3 := with_stats recycled t2).
    pose proof (shape_trans _ _ _ (others_shape _ _ Ho) (fr_shape _ _ _ _ Hfr)) as Hsh.
    assert (slot_index (_hashMask t) h = slot_index (_hashMask t3) h) as ->
      by (unfold t3; cbn; by rewrite (sh_mask _ _ Hsh)).
    destruct (pop_free_ok t3 lv [] h i' b) as (t' & Hpop & Hg' & Hv' & Hst' & Hsh').
    { eapply hashed_counters; [..|apply (fr_hashed _ _ _ _ Hfr)]; done. }
    { by eapply linked_counters; [|exact Hl2]. }
    { done. }
    { unfold t3. cbn. rewrite (fr_size _ _ _ _ Hfr), (o_size _ _ Ho), Hs, length_app. simpl. lia. }
    { done. }
    { rewrite fmap_app in Hnew. set_solver. }
    { unfold t3. cbn. by rewrite (sh_cap _ _ Hsh). }
    { unfold t3. cbn. by rewrite (fr_table _ _ _ _ Hfr), (sh_hcount _ _ Hsh), (o_table _ _ Ho). }
    exists t'. rewrite take_app_length' by lia. split_and!; [done..| | |].
    + intros j Hj. rewrite Hv' by done. change (fld value t2 j = fld value t j).
      by rewrite (fr_value _ _ _ _ Hfr), (o_value _ _ Ho).
    + rewrite Hst'. unfold t3. cbn. by rewrite (fr_stats _ _ _ _ Hfr), (o_stats _ _ Ho).
    + eapply shape_trans; [exact Hsh|]. by destruct Hsh'.
  - assert (i' <> 0%nat) as Hi0 by (pose proof (hashed_bound _ _ _ i' Hh ltac:(set_solver)); lia).
    rewrite (proj2 (Nat.eqb_neq i' 0) Hi0). go_modify. set (t1 := with_size _ t).
    change (_hashMask t) with (_hashMask t1).
    destruct (pop_free_ok t1 lv F h i' b) as (t' & Hpop & Hg' & Hv' & Hst' & Hsh'); try done.
    { eapply hashed_counters; [..|exact Hh]; done. }
    { by eapply linked_counters; [|exact Hl]. }
    { unfold t1. cbn. rewrite Hs. unfold u32. rewrite Z.mod_small; simpl in Hlen; lia. }
    exists t'. rewrite take_ge by (simpl in Hlen; lia). split_and!; [done..|].
    by destruct Hsh'.
Qed.

Lemma bucket_others t t' lv1 h i lv2 c1 c2 a n n0 : others t t' ->
  bucket t lv1 h i lv2 c1 c2 a n n0 -> bucket t' lv1 h i lv2 c1 c2 a n n0.
Proof.
  intros Ho [Hs Hc Hp Hnd Hn Hf Hfu]. constructor; try done.
  - by rewrite (o_table _ _ Ho), (o_mask _ _ Ho).
  - eapply chain_ext; [|done]. intros x _. by rewrite (o_same _ _ Ho).
  - rewrite (in_slot_shape _ _ _ _ (others_shape _ _ Ho)). by rewrite (o_mask _ _ Ho).
  - by rewrite (o_same _ _ Ho).
  - by rewrite (o_same _ _ Ho).
  - unfold entry_fuel in *. by rewrite (o_len _ _ Ho).
Qed.

Lemma alt_alt i f g t : alt i f (alt i g t) = alt i (f ∘ g) t.
Proof. unfold alt, with_entries. cbn. by rewrite list_alter_alter_eq. Qed.

(** The search of [remove]. *)
Lemma remove_search t lv F h : hashed t lv F -> exists a,
  _hashTable t !! slot_index (_hashMask t) h = Some a /\
  (((h ∉ lv.*1) /\ exists p, remove_loop (entry_fuel t) a 0 h t = Ret (p, 0%nat) t) \/
   exists lv1 i lv2 c1 c2 n n0, lv = lv1 ++ (h, i) :: lv2 /\
     bucket t lv1 h i lv2 c1 c2 a n n0 /\
     remove_loop (entry_fuel t) a 0 h t = Ret (default 0%nat (last c1), i) t).
Proof.
  intros Hh. destruct (hs_bucket _ _ _ Hh _ (hs_mask _ _ _ Hh h)) as (a & c & Ha & Hc & Hp).
  exists a. split; [done|]. pose proof (bucket_fuel _ _ _ _ _ Hh Hp) as Hfu.
  destruct (remove_loop_ok t h c a 0 (entry_fuel t) Hfu Hc)
    as [(p & Hr & Hno)|(c1 & i & c2 & -> & Hi & Hr)]; [left|right].
  - split; [|by exists p]. rewrite list_elem_of_fmap. intros ([h' i] & -> & Hi).
    apply (Hno i); [|by eapply hs_hash]. apply (bucket_elem t lv _ _ i Hp). by exists h'.
  - destruct (proj1 (bucket_elem t lv _ _ i Hp)) as (h' & Hin & _); [set_solver|].
    pose proof (hs_hash _ _ _ Hh _ _ Hin) as E. rewrite Hi in E. injection E as <-.
    apply list_elem_of_split in Hin as (lv1 & lv2 & ->).
    destruct (chain_split _ _ _ _ _ Hc) as (_ & n & Hn & _).
    destruct (hs_free _ _ _ Hh) as (n0 & Hn0 & _).
    exists lv1, i, lv2, c1, c2, n, n0. split_and!; [done| |done].
    constructor; [done|done|done|by eapply bucket_nodup|done|done|done].
Qed.

(** The middle of [remove]: the entry leaves the chain of its slot. *)
Lemma remove_slot_ok t lv1 h i lv2 F c1 c2 a n n0 : let s := slot_index (_hashMask t) h in
  hashed t (lv1 ++ (h, i) :: lv2) F -> bucket t lv1 h i lv2 c1 c2 a n n0 ->
  (if negb (default 0%nat (last c1) =? 0)%nat then
     p ← get_entry (default 0%nat (last c1));
     Require_ (nextWithSameHash p =? i)%nat;;
     ent ← get_entry i;
     mod_entry (default 0%nat (last c1)) (set_same (nextWithSameHash ent))
   else
     ent ← get_entry i;
     set_slot s (nextWithSameHash ent)) t = Ret tt (slot_write s (last c1) n t).
Proof.
  intros s Hh Hb. pose proof (bk_next _ _ _ _ _ _ _ _ _ _ Hb) as (e & He & <-)%fld_entry.
  destruct (last c1) as [p|] eqn:El; cbn [default from_option id].
  - destruct (bucket_last _ _ _ _ _ _ _ _ _ _ _ Hb El) as (Hp & Hp0 & _).
    rewrite (proj2 (Nat.eqb_neq p 0) Hp0). cbn [negb].
    pose proof (chain_delete _ _ _ _ _ _ (bk_nodup _ _ _ _ _ _ _ _ _ _ Hb)
      (bk_chain _ _ _ _ _ _ _ _ _ _ Hb) (entry_fld nextWithSameHash _ _ _ He)) as Hd.
    rewrite El in Hd. destruct Hd as ((ep & Hep & Hpi)%fld_entry & _ & _).
    go_entry Hep. go_req; [|by apply Nat.eqb_eq]. go_entry He. apply mod_ok. eauto.
  - cbn [negb Nat.eqb]. go_entry He. unfold set_slot, s. cbn [slot_write].
    by rewrite (bk_start _ _ _ _ _ _ _ _ _ _ Hb).
Qed.

(** [remove_found] up to its last three statements. *)
Lemma remove_found_run t lv1 h i lv2 F b c1 c2 a n n0 :
  let s := slot_index (_hashMask t) h in
  good t (lv1 ++ (h, i) :: lv2) F b -> bucket t lv1 h i lv2 c1 c2 a n n0 ->
  exists t2 t3, others t t2 /\ freed t2 t3 (lv1 ++ lv2) (i :: F) /\
    linked t3 (lv1 ++ lv2).*2 b /\ _lastLRUCount t2 = _lastLRUCount t /\
    remove_found s (default 0%nat (last c1), i) t =
      (modify (with_size (fun n => u32 (n - 1)));; validateChange (-1);; mret tt) t3.
Proof.
  intros s Hg Hb. pose proof (g_linked _ _ _ _ Hg) as Hl.
  rewrite fmap_app, fmap_cons in Hl. cbn [snd] in Hl.
  destruct (relink_ok _ _ _ _ _ Hl) as (e & e' & He & Hp & Hn & Hsp & He' & Hp' & Hsn & Hl2 & Ho & Hcnt & _).
  set (p := default 0%nat (last lv1.*2)) in *. set (nx := default 0%nat (head lv2.*2)) in *.
  set (t2 := alt nx (set_prev p) (alt p (set_next nx) t)) in *.
  pose proof (hashed_others _ _ _ _ (g_hashed _ _ _ _ Hg) Ho) as Hh2.
  pose proof (bucket_others _ _ _ _ _ _ _ _ _ _ _ Ho Hb) as Hb2.
  pose proof (remove_slot_ok _ _ _ _ _ _ _ _ _ _ _ Hh2 Hb2) as Hslot. cbn zeta in Hslot.
  rewrite (o_mask _ _ Ho) in Hslot. fold s in Hslot.
  pose proof (linked_nonzero _ _ _ Hl) as Hl0. pose proof (lk_nodup _ _ _ Hl) as Hnd.
  rewrite app_comm_cons in Hnd. apply NoDup_middle in Hnd as [Hi _].
  pose proof (dll_head _ _ _ _ (lk_dll _ _ _ Hl2)) as Hhead.
  set (x := default 0%nat (head (lv1.*2 ++ lv2.*2))) in *.
  set (g := set_same n0 ∘ (set_next x ∘ set_prev 0)).
  exists t2, (free_writes s (last c1) i n g t2). split_and!; [done|..|done|].
  - unfold s. rewrite <- (o_mask _ _ Ho). by eapply free_writes_ok.
  - rewrite fmap_app. by apply free_writes_linked.
  - unfold remove_found. rewrite (proj2 (Nat.eqb_neq i 0)) by set_solver. go_entry He. rewrite Hp, Hn.
    go (mod_ok _ (set_next nx) _ Hsp). go_entry He'. rewrite Hp'. go (mod_ok _ (set_prev p) _ Hsn).
    fold t2. go Hslot.
    assert (forall j, j ∈ 0%nat :: c1 ++ i :: c2 -> is_Some (_entries (slot_write s (last c1) n t2) !! j)) as Hsome.
    { intros j Hj. rewrite slot_write_some. eapply bucket_some; [exact Hh2|exact Hb2|done]. }
    pose proof (Hsome i ltac:(set_solver)) as Hsi. pose proof (Hsome 0%nat ltac:(set_solver)) as Hs0.
    go (mod_ok i (set_prev 0) _ Hsi).
    destruct (proj2 (alt_some i (set_prev 0) _ 0%nat) Hs0) as [e4 He4]. go_entry He4.
    assert (nextInLRU e4 = x /\ nextWithSameHash e4 = n0) as [-> ->].
    { pose proof (entry_fld nextInLRU _ _ _ He4) as E1. pose proof (entry_fld nextWithSameHash _ _ _ He4) as E2.
      rewrite fld_alt_other in E1, E2 by done. rewrite slot_write_other in E1 by done.
      rewrite slot_write_ne in E2.
      - rewrite (bk_free _ _ _ _ _ _ _ _ _ _ Hb2) in E2. split; congruence.
      - intros El%(bucket_last _ _ _ _ _ _ _ _ _ _ _ Hb). naive_solver. }
    do 3 go_alt. by rewrite !alt_alt.
Qed.

Lemma remove_ok t lv F h b : good t lv F b ->
  ((h ∉ lv.*1) /\ remove h t = Ret tt t) \/
  exists lv1 i lv2 t', lv = lv1 ++ (h, i) :: lv2 /\ remove h t = Ret tt t' /\
    good t' (lv1 ++ lv2) (i :: F) b /\ (forall j, fld value t' j = fld value t j) /\
    _stats t' = _stats t /\ shape t t'.
Proof.
  intros Hg. destruct (remove_search _ _ _ h (g_hashed _ _ _ _ Hg)) as (a & Ha & Hcase).
  assert (remove h t = (r ← remove_loop (entry_fuel t) a 0 h; remove_found (slot_index (_hashMask t) h) r) t) as ->.
  { unfold remove, hashTableSlot. go_state. erewrite bind_Ret; [|unfold get_slot; by rewrite Ha].
    by go_state. }
  destruct Hcase as [[Hno [p Hr]]|(lv1 & i & lv2 & c1 & c2 & n & n0 & -> & Hb & Hr)]; [left|right].
  { split; [done|]. by go Hr. }
  go Hr. destruct (remove_found_run _ _ _ _ _ _ _ _ _ _ _ _ Hg Hb) as (t2 & t3 & Ho & Hfr & Hl3 & Hcnt & Hrun).
  rewrite Hrun. go_modify. set (t4 := with_size _ t3).
  pose proof (shape_trans _ _ _ (others_shape _ _ Ho) (fr_shape _ _ _ _ Hfr)) as Hsh.
  assert (_size t4 = Z.of_nat (length (lv1 ++ lv2))) as Hs4.
  { change (_size t4) with (u32 (_size t3 - 1)).
    rewrite (fr_size _ _ _ _ Hfr), (o_size _ _ Ho), (g_size _ _ _ _ Hg).
    pose proof (good_length _ _ _ _ Hg). pose proof (g_capacity _ _ _ _ Hg).
    rewrite !length_app in *. simpl in *. unfold u32. rewrite Z.mod_small; lia. }
  assert (linked t4 (lv1 ++ lv2).*2 b) as Hl4 by (by eapply linked_counters; [|exact Hl3]).
  eassert _ as Hv; [eapply (validate_ok t4 _ b (-1) Hl4)|].
  { intros Hd. change (_lastLRUCount t4) with (_lastLRUCount t3).
    rewrite (fr_count _ _ _ _ Hfr), Hcnt, (g_counted _ _ _ _ Hg Hd), length_fmap, !length_app. simpl. lia. }
  rewrite length_fmap in Hv. go Hv. exists lv1, i, lv2, (recount (Z.of_nat (length (lv1 ++ lv2))) t4).
  assert (forall A (q : table -> A), (forall f u, q (with_size f u) = q u) -> (forall k u, q (with_count k u) = q u) ->
    q (recount (Z.of_nat (length (lv1 ++ lv2))) t4) = q t3) as Hq.
  { intros A q Hq1 Hq2. unfold recount, t4. destruct debug; by rewrite ?Hq2, Hq1. }
  split_and!; [done|done|..].
  - constructor.
    + eapply hashed_counters; [by apply Hq..|apply (fr_hashed _ _ _ _ Hfr)].
    + by apply linked_recount.
    + apply counted_recount.
    + by rewrite (o_size _ _ (others_recount _ t4)).
    + rewrite (Hq _ _capacity), (sh_cap _ _ Hsh) by done. apply (g_capacity _ _ _ _ Hg).
    + rewrite (Hq _ _hashTable), (Hq _ _hashCount), (sh_hcount _ _ Hsh), (fr_table _ _ _ _ Hfr) by done.
      rewrite (o_table _ _ Ho). apply (g_count _ _ _ _ Hg).
  - intros j. rewrite (Hq _ (fun u => fld value u j)) by done. by rewrite (fr_value _ _ _ _ Hfr), (o_value _ _ Ho).
  - rewrite (Hq _ _stats) by done. by rewrite (fr_stats _ _ _ _ Hfr), (o_stats _ _ Ho).
  - destruct Hsh. constructor; by rewrite (Hq _ _hashMask) || rewrite (Hq _ _hashCount) ||
      rewrite (Hq _ _capacity) || rewrite (Hq _ (fun u => length (_entries u))).
Qed.

(** ** The empty table *)

Lemma initial_lookup cap i : (i <= cap)%nat ->
  initial_entries cap !! i = Some (fresh_entry (if (i =? cap)%nat then 0 else 1 + i)).
Proof.
  intros Hi. unfold initial_entries. destruct (Nat.eqb_spec i cap) as [->|Hne].
  - apply list_lookup_insert_eq. rewrite length_map, length_seq. lia.
  - rewrite list_lookup_insert_ne by done. change (map ?f ?l) with (f <$> l).
    rewrite list_lookup_fmap, lookup_seq_lt by lia. done.
Qed.

Lemma initial_chain t : _entries t = initial_entries (_capacity t) ->
  forall n a, (1 <= a)%nat -> (a + n = S (_capacity t))%nat ->
  chain (fld nextWithSameHash t) (if (a =? S (_capacity t))%nat then 0%nat else a) (seq a n).
Proof.
  intros He. induction n as [|n IH]; intros a Ha Hn.
  - rewrite (proj2 (Nat.eqb_eq a _)) by lia. done.
  - rewrite (proj2 (Nat.eqb_neq a _)) by lia. cbn [seq chain]. split_and!; [done|lia|].
    eexists. split; [|apply (IH (S a)); lia]. unfold fld. rewrite He, initial_lookup by lia. done.
Qed.

Lemma slot_in_range k h : 0 <= k ->
  (slot_index (2 ^ k - 1) h < Z.to_nat (2 ^ k))%nat.
Proof.
  intros Hk. unfold slot_index. rewrite Z.sub_1_r, <- Z.ones_equiv, Z.land_ones by done.
  pose proof (Z.mod_pos_bound (hd h) (2 ^ k) ltac:(lia)). lia.
Qed.

(** A table as the constructor and [clear] leave it. *)
Lemma empty_good t k b : 0 <= k -> _hashMask t = 2 ^ k - 1 -> _hashCount t = 2 ^ k ->
  _hashTable t = replicate (Z.to_nat (2 ^ k)) 0%nat ->
  _entries t = initial_entries (_capacity t) -> _size t = 0 ->
  (debug = true -> _lastLRUCount t = 0 /\ b < 2 ^ 32) ->
  (2 <= _capacity t)%nat /\ Z.of_nat (_capacity t) < 2 ^ 31 ->
  good t [] (seq 1 (_capacity t)) b.
Proof.
  intros Hk Hm Hc Ht He Hs Hl Hcap.
  assert (_entries t !! 0%nat = Some (fresh_entry 1)) as H0.
  { rewrite He, initial_lookup by lia. by rewrite (proj2 (Nat.eqb_neq 0 _)) by lia. }
  constructor; try done.
  - constructor; try done.
    + intros h. rewrite Hm, Ht, length_replicate. by apply slot_in_range.
    + intros s. rewrite Ht, length_replicate. intros Hlt. exists 0%nat, [].
      split_and!; [|done..]. by apply lookup_replicate_2.
    + exists 1%nat. rewrite (entry_fld _ _ _ _ H0). split; [done|].
      pose proof (initial_chain t He (_capacity t) 1) as Hch.
      rewrite (proj2 (Nat.eqb_neq 1 _)) in Hch by lia. apply Hch; lia.
    + intros h i Hin. set_solver.
    + rewrite He. unfold initial_entries. by rewrite length_insert, length_map, length_seq.
    + apply NoDup_nil_2.
  - constructor.
    + split; by rewrite (entry_fld _ _ _ _ H0).
    + apply NoDup_singleton.
    + intros Hd. destruct (Hl Hd). exists 0. rewrite (entry_fld _ _ _ _ H0). split_and!; try done; lia.
  - intros Hd. by destruct (Hl Hd).
  - by rewrite Ht, Hc, length_replicate.
Qed.

(** ** clear *)

Lemma clear_values_ok l : forall t a fuel, (length l < fuel)%nat ->
  chain (fld nextInLRU t) a l -> exists es, length es = length (_entries t) /\
    clear_values fuel a t = Ret 0%nat (with_entries (fun _ => es) t).
Proof.
  induction l as [|x l IH]; intros t a [|fuel] Hf Hc; simpl in Hf; try lia.
  - rewrite Hc. exists (_entries t). by destruct t.
  - destruct Hc as (-> & Hx & n & (e & He & <-)%fld_entry & Hc). cbn [clear_values].
    rewrite (proj2 (Nat.eqb_neq x 0) Hx). go_alt.
    assert (_entries (alt x (set_value None) t) !! x = Some (set_value None e)) as He'.
    { by rewrite alt_lookup, decide_True, He. }
    go_entry He'. destruct (IH (alt x (set_value None) t) (nextInLRU e) fuel) as (es & Hl & Hr); [lia| |].
    + eapply chain_ext; [|done]. intros y _. by rewrite fld_alt_other.
    + exists es. cbn in Hl. rewrite length_alter in Hl. split; [done|]. exact Hr.
Qed.

Lemma clear_entries_ok : forall d t i fuel, (d < fuel)%nat -> (i + d = S (_capacity t))%nat ->
  length (_entries t) = S (_capacity t) ->
  clear_entries fuel i t = Ret tt (with_entries (fun es =>
    take i es ++ map (fun j => fresh_entry (1 + j)) (seq i d)) t).
Proof.
  induction d as [|d IH]; intros t i [|fuel] Hf Hd Hlen; try lia; cbn [clear_entries]; go_state.
  - rewrite (proj2 (Nat.leb_gt _ _)) by lia. cbn [seq map]. unfold with_entries. rewrite app_nil_r.
    rewrite take_ge by lia. by destruct t.
  - rewrite (proj2 (Nat.leb_le _ _)) by lia.
    assert (is_Some (_entries t !! i)) as [e He] by (apply lookup_lt_is_Some; lia).
    go_alt. rewrite IH; [|lia|cbn; lia|cbn; rewrite length_alter; lia].
    f_equal. unfold alt, with_entries. cbn. f_equal.
    rewrite (take_S_r _ _ (fresh_entry (1 + i))) by (by rewrite list_lookup_alter_eq, He).
    rewrite take_alter_ge by lia. by rewrite <- app_assoc.
Qed.

Lemma clear_ok t lv F b k : good t lv F b -> 0 <= k -> _hashMask t = 2 ^ k - 1 -> _hashCount t = 2 ^ k ->
  exists t', clear t = Ret tt t' /\ good t' [] (seq 1 (_capacity t)) b /\
    _stats t' = _stats t /\ shape t t'.
Proof.
  intros Hg Hk Hm Hn. pose proof (g_linked _ _ _ _ Hg) as Hl.
  pose proof (dll_head _ _ _ _ (lk_dll _ _ _ Hl)) as (e0 & He0 & Hn0)%fld_entry.
  pose proof (hs_len _ _ _ (g_hashed _ _ _ _ Hg)) as Hlen.
  unfold clear. go_entry He0. rewrite Hn0. go_state.
  destruct (clear_values_ok lv.*2 t (default 0%nat (head lv.*2)) (entry_fuel t)) as (es & Hes & Hr).
  { by eapply linked_fuel. }
  { by eapply linked_chain. }
  go Hr. go_modify. set (t1 := with_table _ _).
  erewrite bind_Ret; [|apply (clear_entries_ok (S (_capacity t)) t1 0 (entry_fuel t)); [unfold entry_fuel; lia|done|cbn; congruence]].
  go_state. set (t2 := with_entries _ t1).
  assert (_entries t2 = map (fun j => fresh_entry (1 + j)) (seq 0 (S (_capacity t)))) as He2 by done.
  erewrite bind_Ret.
  2:{ apply mod_ok. rewrite He2. apply lookup_lt_is_Some. rewrite length_map, length_seq. cbn. lia. }
  go_state. go_modify. set (t3 := with_size _ _).
  assert (good (recount 0 t3) [] (seq 1 (_capacity t)) b) as Hg3.
  { rewrite <- (o_capacity _ _ (others_recount 0 t3) : _ = _capacity t).
    apply (empty_good _ k); try done.
    - by rewrite (o_mask _ _ (others_recount 0 t3)).
    - by rewrite (o_count _ _ (others_recount 0 t3)).
    - rewrite (o_table _ _ (others_recount 0 t3)). cbn. by rewrite Hn.
    - rewrite recount_entries, (o_capacity _ _ (others_recount 0 t3)).
      unfold initial_entries. rewrite list_insert_alter. done.
    - by rewrite (o_size _ _ (others_recount 0 t3)).
    - intros Hd. destruct (lk_order _ _ _ Hl Hd) as (o & _ & ? & ? & _). split; [|lia].
      unfold recount. by rewrite Hd.
    - rewrite (o_capacity _ _ (others_recount 0 t3)). apply (g_capacity _ _ _ _ Hg). }
  eassert _ as Hv; [eapply (validate_ok t3 [] b (- _size t))|].
  { eapply linked_counters; [|apply (g_linked _ _ _ _ Hg3)]. by rewrite recount_entries. }
  { intros Hd. change (_lastLRUCount t3) with (_lastLRUCount t).
    rewrite (g_counted _ _ _ _ Hg Hd), (g_size _ _ _ _ Hg). simpl. lia. }
  erewrite bind_Ret; [|exact Hv]. eexists. split_and!; [done|done|..].
  - by rewrite (o_stats _ _ (others_recount _ t3)).
  - eapply shape_trans; [|apply others_shape, others_recount]. constructor; try done. cbn.
    rewrite length_alter. change (length (_entries t2) = length (_entries t)).
    by rewrite He2, length_map, length_seq, Hlen.
Qed.

Lemma hashes_loop_ok t lv : forall a fuel acc, (length lv < fuel)%nat ->
  chain (fld nextInLRU t) a lv.*2 -> (forall h i, (h, i) ∈ lv -> fld hashValue t i = Some h) ->
  hashes_loop fuel a acc t = Ret (acc ++ lv.*1) t.
Proof.
  induction lv as [|[h x] lv IH]; intros a [|fuel] acc Hf Hc Hh; simpl in Hf; try lia.
  - rewrite Hc. cbn. by rewrite app_nil_r.
  - destruct Hc as (-> & Hx & n & (e & He & <-)%fld_entry & Hc). cbn [hashes_loop fmap list_fmap fst snd].
    rewrite (proj2 (Nat.eqb_neq x 0) Hx). go_entry He.
    pose proof (Hh h x ltac:(set_solver)) as E. rewrite (entry_fld _ _ _ _ He) in E. injection E as ->.
    rewrite (IH _ fuel); [by rewrite <- app_assoc|lia|done|]. intros h' i Hin. apply Hh. set_solver.
Qed.

Lemma hashes_ok t lv F b : good t lv F b -> hashes t = Ret lv.*1 t.
Proof.
  intros Hg. pose proof (g_linked _ _ _ _ Hg) as Hl.
  pose proof (dll_head _ _ _ _ (lk_dll _ _ _ Hl)) as (e0 & He0 & Hn0)%fld_entry.
  unfold hashes. go_entry He0. rewrite Hn0. go_state.
  erewrite bind_Ret; [|apply (hashes_loop_ok t lv)].
  - go_state. go_req; [done|]. apply Z.eqb_eq. rewrite (g_size _ _ _ _ Hg). cbn [app]. by rewrite length_fmap.
  - apply linked_fuel in Hl. by rewrite length_fmap in Hl.
  - by eapply linked_chain.
  - apply (hs_hash _ _ _ (g_hashed _ _ _ _ Hg)).
Qed.

(** ** The table represents the specification *)

Definition live (bs : list (strong_hash * (nat * Value))) : list (strong_hash * nat) :=
  (fun b => (b.1, b.2.1)) <$> bs.

Lemma live_keys bs : (live bs).*1 = bs.*1.
Proof. unfold live. by rewrite <- list_fmap_compose. Qed.

Definition holds_values (t : table) (bs : list (strong_hash * (nat * Value))) : Prop :=
  forall h i v, (h, (i, v)) ∈ bs -> fld value t i = Some (Some v).

Lemma holds_nil t : holds_values t [].
Proof. intros h i v Hin. set_solver. Qed.

(** All of the specification but the value of the first binding, which an
    operation may be about to construct. *)
Record pending (t : table) (s : spec) (b : Z) : Prop := {
  pd_good : good t (live (bindings s)) (free s) b;
  pd_values : holds_values t (tail (bindings s));
  pd_stats : _stats t = counters s;
  pd_power : exists k, 0 <= k /\ _hashMask t = 2 ^ k - 1 /\ _hashCount t = 2 ^ k
}.

Record repr (t : table) (s : spec) (b : Z) : Prop := {
  rp_pending : pending t s b;
  rp_values : holds_values t (bindings s)
}.

Lemma good_stats t lv F b f : good t lv F b -> good (with_stats f t) lv F b.
Proof.
  intros [Hh Hl Hc Hs Hcap Hn]. constructor; try done.
  - by eapply hashed_counters; [..|exact Hh].
  - by eapply linked_counters; [|exact Hl].
Qed.

Lemma good_weaken t lv F b b' : b' <= b -> good t lv F b -> good t lv F b'.
Proof. intros ? []. constructor; try done. by eapply linked_weaken. Qed.

Lemma repr_weaken t s b b' : b' <= b -> repr t s b -> repr t s b'.
Proof. intros ? [[] ?]. constructor; [constructor|]; try done. by eapply good_weaken. Qed.

Lemma repr_count t s b f : repr t s b -> repr (with_stats f t) (count f s) b.
Proof.
  intros [[Hg Hv Hs Hp] Hv']. constructor; [|done]. constructor; [|done| |done].
  - by apply good_stats.
  - cbn. by rewrite Hs.
Qed.

Lemma repr_keys t s b : repr t s b -> NoDup (bindings s).*1.
Proof.
  intros Hr. rewrite <- live_keys.
  apply (hs_keys _ _ _ (g_hashed _ _ _ _ (pd_good _ _ _ (rp_pending _ _ _ Hr)))).
Qed.

Lemma pending_capacity t s b : pending t s b ->
  (length (bindings s) + length (free s))%nat = _capacity t.
Proof. intros Hp. rewrite <- (good_length _ _ _ _ (pd_good _ _ _ Hp)). unfold live. by rewrite length_fmap. Qed.

(** The index of a binding, which is no other binding's. *)
Lemma live_index t lv F h i : hashed t lv F -> (h, i) ∈ lv -> i <> 0%nat.
Proof.
  intros Hh Hin. assert (i ∈ lv.*2 ++ F) as Hi.
  { apply elem_of_app. left. apply list_elem_of_fmap. by exists (h, i). }
  apply (hashed_bound _ _ _ _ Hh) in Hi. lia.
Qed.

Lemma search_repr t s b h : repr t s b ->
  match assoc h (bindings s) with
  | Some (i, _) => search h t = Ret i t /\ i <> 0%nat
  | None => search h t = Ret 0%nat t
  end.
Proof.
  intros Hr. pose proof (g_hashed _ _ _ _ (pd_good _ _ _ (rp_pending _ _ _ Hr))) as Hh.
  destruct (search_ok _ _ _ h Hh) as [(i & Hs & Hin)|[Hs Hno]].
  - pose proof (live_index _ _ _ _ _ Hh Hin) as Hi.
    apply list_elem_of_fmap in Hin as ([h' [i' v]] & [= -> ->] & Hin).
    apply list_elem_of_split in Hin as (l1 & l2 & E).
    pose proof (repr_keys _ _ _ Hr) as Hnd. rewrite E in *. by rewrite assoc_middle.
  - rewrite live_keys in Hno. apply assoc_None in Hno. by rewrite Hno.
Qed.

(** Constructing the value of the first binding. *)
Lemma assign_ok t s b h i w rest v : pending t s b -> bindings s = (h, (i, w)) :: rest ->
  exists t', mod_entry i (set_value (Some v)) t = Ret tt t' /\
    repr t' (mk_spec ((h, (i, v)) :: rest) (free s) (counters s)) b.
Proof.
  intros [Hg Hv Hs Hp] E. rewrite E in *. cbn [tail] in Hv.
  pose proof (g_hashed _ _ _ _ Hg) as Hh.
  assert (is_Some (_entries t !! i)) as Hi by (eapply hashed_some; [exact Hh|cbn; set_solver]).
  exists (alt i (set_value (Some v)) t). split; [by apply mod_ok|].
  assert (holds_values (alt i (set_value (Some v)) t) rest) as Hrest.
  { intros h' j v' Hin. rewrite fld_alt_ne; [by eapply Hv|].
    apply hashed_nodup in Hh. cbn in Hh. apply NoDup_cons in Hh as [Hni _]. intros ->. apply Hni.
    apply elem_of_app. left. apply list_elem_of_fmap. exists (h', i). split; [done|].
    apply list_elem_of_fmap. by exists (h', (i, v')). }
  constructor; [constructor|]; try done.
  - destruct Hg as [_ Hl Hc Hsz Hcap Hn]. constructor; try done.
    + eapply hashed_ext; [exact Hh|cbn; apply length_alter|..|done|done|done];
        intros j; by apply fld_alt_other.
    + eapply linked_ext; [exact Hl|..]; intros j _; by apply fld_alt_other.
  - cbn [bindings]. intros h' j v' [[= -> -> ->]|Hin]%elem_of_cons; [|by eapply Hrest].
    rewrite (fld_alt_set _ _ _ _ _ (Some v)) by done. by rewrite decide_True.
Qed.

Lemma deref_ok t s b h i v : repr t s b -> (h, (i, v)) ∈ bindings s -> deref i t = Ret v t.
Proof.
  intros [_ Hv] Hin. apply Hv, fld_entry in Hin as (e & He & Hval).
  unfold deref. go_entry He. by rewrite Hval.
Qed.

Lemma use_ok t s b h i v : repr t s (b + 1) -> 0 <= b -> assoc h (bindings s) = Some (i, v) ->
  exists t1 t', unlinkFromLRUChain i t = Ret tt t1 /\ linkToLRUChainHead i t1 = Ret tt t' /\
    repr t' (mk_spec (to_front h (i, v) (bindings s)) (free s) (counters s)) b.
Proof.
  intros Hr Hb Ha. pose proof (repr_keys _ _ _ Hr) as Hnd.
  destruct (assoc_split _ _ _ Hnd Ha) as (l1 & l2 & E & Ew & _).
  destruct Hr as [[Hg Hv Hs Hp] Hv'].
  assert (live (bindings s) = live l1 ++ (h, i) :: live l2) as El.
  { rewrite E. unfold live. by rewrite fmap_app. }
  rewrite El in Hg. destruct (refresh_ok _ _ _ _ _ _ _ Hg Hb) as (t1 & t' & Hu & Hk & Hg' & Ho).
  exists t1, t'. split_and!; [done..|]. unfold to_front. rewrite Ew.
  assert (holds_values t' ((h, (i, v)) :: l1 ++ l2)) as Hvals.
  { intros h' j v' Hin. rewrite (o_value _ _ Ho). apply (Hv' h'). rewrite E. set_solver. }
  constructor; [constructor|]; cbn [bindings free counters tail]; try done.
  - unfold live. rewrite fmap_cons, fmap_app. exact Hg'.
  - intros h' j v' Hin. apply (Hvals h'). set_solver.
  - by rewrite (o_stats _ _ Ho).
  - by rewrite (o_mask _ _ Ho), (o_count _ _ Ho).
Qed.

Lemma next_entry_index s : next_entry s = next_index (live (bindings s)) (free s).
Proof.
  unfold next_entry, next_index. destruct (free s); [|done]. unfold live. rewrite fmap_last.
  by destruct (last (bindings s)) as [[? []]|].
Qed.

Lemma insert_ok t s b h : repr t s (b + 1) -> 0 <= b -> assoc h (bindings s) = None ->
  exists t', allocateEntry h (slot_index (_hashMask t) h) t = Ret (next_entry s) t' /\
    forall v, pending t' (spec_insert h v s) b.
Proof.
  intros Hr Hb Hno%assoc_None. pose proof (pending_capacity _ _ _ (rp_pending _ _ _ Hr)) as Hcap.
  destruct Hr as [[Hg Hv Hs Hp] Hv']. rewrite <- live_keys in Hno.
  destruct (allocate_ok _ _ _ _ _ Hg Hb Hno) as (t' & Hrun & Hg' & Hval & Hst & Hsh).
  rewrite <- next_entry_index in *. exists t'. split; [done|]. intros v.
  unfold spec_insert, push. rewrite Hcap. constructor; cbn [bindings free counters tail].
  - unfold live. rewrite fmap_cons, fmap_take. exact Hg'.
  - intros h' j v' Hin. rewrite Hval.
    + apply elem_of_take in Hin as (k & Hk & _). eapply Hv', list_elem_of_lookup_2, Hk.
    + apply g_hashed, hashed_nodup in Hg'. rewrite fmap_cons, <- app_comm_cons in Hg'.
      apply NoDup_cons in Hg' as [Hni _]. intros ->. apply Hni, elem_of_app. left.
      unfold live. rewrite <- fmap_take. apply list_elem_of_fmap. exists (h', next_entry s). split; [done|].
      apply list_elem_of_fmap. by exists (h', (next_entry s, v')).
  - rewrite Hst, Hs. done.
  - by rewrite (sh_mask _ _ Hsh), (sh_hcount _ _ Hsh).
Qed.

Lemma insert_front h v s : bindings (spec_insert h v s) =
  (h, (next_entry s, v)) :: take (length (bindings s) + length (free s) - 1) (bindings s).
Proof. done. Qed.

Lemma next_entry_count f s : next_entry (count f s) = next_entry s.
Proof. done. Qed.

Lemma next_entry_nonzero t s b h v : pending t (spec_insert h v s) b -> next_entry s <> 0%nat.
Proof.
  intros [Hg _ _ _]. rewrite insert_front in Hg. unfold live in Hg. rewrite fmap_cons in Hg.
  eapply live_index; [apply (g_hashed _ _ _ _ Hg)|]. apply elem_of_cons. by left.
Qed.

(** [findEntry] on its three branches. *)
Lemma findEntry_found t s b h i v force : repr t s (b + 1) -> 0 <= b ->
  assoc h (bindings s) = Some (i, v) ->
  exists t', findEntry h force t = Ret i t' /\ (i =? 0)%nat = false /\
    repr t' (mk_spec (to_front h (i, v) (bindings s)) (free s) (hit (counters s))) b.
Proof.
  intros Hr Hb Ha. pose proof (search_repr _ _ _ h Hr) as Hs. rewrite Ha in Hs. destruct Hs as [Hs Hi].
  apply Nat.eqb_neq in Hi. apply (repr_count _ _ _ hit) in Hr.
  destruct (use_ok _ _ _ h i v Hr Hb Ha) as (t1 & t' & Hu & Hk & Hr').
  exists t'. split_and!; [|done..]. unfold findEntry. go Hs. rewrite Hi. cbn [negb].
  go_modify. go Hu. by go Hk.
Qed.

Lemma findEntry_missing t s b h : repr t s b -> assoc h (bindings s) = None ->
  findEntry h false t = Ret 0%nat (with_stats miss t) /\ repr (with_stats miss t) (count miss s) b.
Proof.
  intros Hr Ha. pose proof (search_repr _ _ _ h Hr) as Hs. rewrite Ha in Hs.
  split; [|by apply repr_count]. unfold findEntry. go Hs. done.
Qed.

Lemma findEntry_forced t s b h : repr t s (b + 1) -> 0 <= b -> assoc h (bindings s) = None ->
  exists t', findEntry h true t = Ret (next_entry s) t' /\
    repr t' (spec_insert h default_value (count miss s)) b.
Proof.
  intros Hr Hb Ha. pose proof (search_repr _ _ _ h Hr) as Hs. rewrite Ha in Hs.
  apply (repr_count _ _ _ miss) in Hr.
  destruct (insert_ok _ _ _ h Hr Hb Ha) as (t1 & Hrun & Hp).
  destruct (assign_ok _ _ _ _ _ _ _ default_value (Hp default_value) (insert_front _ _ _)) as (t' & Hm & Hr').
  exists t'. split; [|done]. unfold findEntry. go Hs. cbn [negb Nat.eqb]. go_modify.
  unfold hashTableSlot. go_state. go Hrun. by go Hm.
Qed.

(** The value of the binding an operation just brought to the front. *)
Lemma assign_front t s b h i w rest v : repr t s b -> bindings s = (h, (i, w)) :: rest ->
  exists t', mod_entry i (set_value (Some v)) t = Ret tt t' /\ deref i t' = Ret v t' /\
    repr t' (mk_spec ((h, (i, v)) :: rest) (free s) (counters s)) b.
Proof.
  intros [Hp _] E. destruct (assign_ok _ _ _ _ _ _ _ v Hp E) as (t' & Hm & Hr).
  exists t'. split_and!; [done| |done]. eapply (deref_ok _ _ _ h); [done|]. cbn. set_solver.
Qed.

Lemma insert_deref t s b h v : repr t (spec_insert h v s) b -> deref (next_entry s) t = Ret v t.
Proof. intros Hr. eapply (deref_ok _ _ _ h); [exact Hr|]. rewrite insert_front. set_solver. Qed.

Lemma to_front_twice h i v w (bs : list (strong_hash * (nat * Value))) :
  to_front h (i, w) (to_front h (i, v) bs) = to_front h (i, w) bs.
Proof.
  unfold to_front, without. f_equal. rewrite filter_cons_False by (cbn; naive_solver).
  rewrite list_filter_filter. apply list_filter_iff. naive_solver.
Qed.

(** ** The operations refine the specification *)

Definition simulates (o : op) : Prop := forall t s b, repr t s (b + 1) -> 0 <= b ->
  exists t', exec o t = Ret (fst (spec_exec o s)) t' /\ repr t' (snd (spec_exec o s)) b.

Lemma answering_Ret {A} (f : A -> answer) (m : M A) t a t' :
  m t = Ret a t' -> answering f m t = Ret (f a) t'.
Proof. unfold answering. by intros ->. Qed.

Lemma answering_Thrown {A} (f : A -> answer) (m : M A) t t' :
  m t = Thrown t' -> answering f m t = Ret OutOfRange t'.
Proof. unfold answering. by intros ->. Qed.

Ltac use_spec h s Ha := unfold spec_exec, spec_use; destruct (assoc h (bindings s)) as [[i v]|] eqn:Ha.

Lemma front_elem h i v (bs : list (strong_hash * (nat * Value))) : (h, (i, v)) ∈ to_front h (i, v) bs.
Proof. unfold to_front. set_solver. Qed.

Ltac answers a := erewrite (answering_Ret _ _ _ a); [reflexivity|].

(** [touch], [contains], [try_get] and [at]. *)
Lemma lookups_simulate h :
  simulates (Touch h) /\ simulates (Contains h) /\ simulates (TryGet h) /\ simulates (At h).
Proof.
  split_and!; intros t s b Hr Hb; use_spec h s Ha.
  all: match goal with
    | H : assoc _ _ = Some _ |- _ =>
        destruct (findEntry_found _ _ _ _ _ _ false Hr Hb Ha) as (t' & Hf & Hi & Hr')
    | H : assoc _ _ = None |- _ =>
        destruct (findEntry_missing _ _ _ _ Hr Ha) as [Hf Hr']; set (t' := with_stats miss t) in *
    end; exists t'; split; [|first [exact Hr'|eapply repr_weaken; [|exact Hr']; lia]].
  all: cbn [exec fst].
  - answers tt. unfold touch. by go Hf.
  - answers tt. unfold touch. by go Hf.
  - answers true. unfold contains. go Hf. by rewrite Hi.
  - answers false. unfold contains. by go Hf.
  - answers (Some v). unfold try_get. go Hf. rewrite Hi.
    by go (deref_ok _ _ _ _ _ _ Hr' (front_elem h i v _)).
  - answers (@None Value). unfold try_get. by go Hf.
  - answers v. unfold at_. go Hf. rewrite Hi.
    apply (deref_ok _ _ _ _ _ _ Hr' (front_elem h i v _)).
  - apply answering_Thrown. unfold at_. by go Hf.
Qed.

Lemma peek_simulates h : simulates (Peek h).
Proof.
  intros t s b Hr Hb. pose proof (search_repr _ _ _ h Hr) as Hs. use_spec h s Ha; exists t; cbn [exec fst snd];
    (split; [|eapply repr_weaken; [|done]; lia]).
  - destruct Hs as [Hs Hi%Nat.eqb_neq]. answers v. unfold peek. go Hs. rewrite Hi.
    eapply deref_ok; [done|]. by apply assoc_elem.
  - apply answering_Thrown. unfold peek. by go Hs.
Qed.

(** [operator[]] and the two [emplace]. *)
Lemma stores_simulate h v0 f :
  simulates (Index h) /\ simulates (EmplaceValue h v0) /\ simulates (Emplace h f).
Proof.
  split_and!; intros t s b Hr Hb; use_spec h s Ha.
  all: match goal with
    | H : assoc _ _ = Some _ |- _ =>
        destruct (findEntry_found _ _ _ _ _ _ true Hr Hb Ha) as (t1 & Hf & Hi & Hr')
    | H : assoc _ _ = None |- _ =>
        destruct (findEntry_forced _ _ _ _ Hr Hb Ha) as (t1 & Hf & Hr')
    end; cbn [exec fst].
  - exists t1. split; [|exact Hr']. answers v. unfold index. go Hf.
    apply (deref_ok _ _ _ _ _ _ Hr' (front_elem h i v _)).
  - exists t1. split; [|exact Hr']. answers default_value. unfold index. go Hf.
    by apply insert_deref in Hr'.
  - destruct (assign_front _ _ _ h i v _ v0 Hr' eq_refl) as (t' & Hm & Hd & Hr2).
    exists t'. split.
    + answers v0. unfold emplace_value. go Hf.
      go (deref_ok _ _ _ _ _ _ Hr' (front_elem h i v _)). by go Hm.
    + unfold spec_assign. cbn [snd bindings free counters]. rewrite to_front_twice. exact Hr2.
  - destruct (assign_front _ _ _ _ _ _ _ v0 Hr' (insert_front _ _ _)) as (t' & Hm & Hd & Hr2).
    exists t'. split; [|exact Hr2]. answers v0. unfold emplace_value. go Hf.
    go (insert_deref _ _ _ _ _ Hr'). by go Hm.
  - destruct (assign_front _ _ _ h i v _ (f i) Hr' eq_refl) as (t' & Hm & Hd & Hr2).
    exists t'. split.
    + answers (f i). unfold emplace. go Hf. by go Hm.
    + unfold spec_assign. cbn [snd bindings free counters]. rewrite to_front_twice. exact Hr2.
  - destruct (assign_front _ _ _ _ _ _ _ (f (next_entry s)) Hr' (insert_front _ _ _)) as (t' & Hm & Hd & Hr2).
    exists t'. split; [|exact Hr2]. answers (f (next_entry s)). unfold emplace.
    go Hf. by go Hm.
Qed.

Lemma try_emplace_simulates h f : simulates (TryEmplace h f).
Proof.
  intros t s b Hr Hb. use_spec h s Ha; cbn [exec fst].
  - destruct (findEntry_found _ _ _ _ _ _ false Hr Hb Ha) as (t' & Hf & Hi & Hr').
    exists t'. split; [|exact Hr']. answers false. unfold try_emplace, contains.
    erewrite bind_Ret; [|go Hf; by rewrite Hi]. done.
  - destruct (findEntry_missing _ _ _ _ Hr Ha) as [Hf Hr'].
    destruct (findEntry_forced _ _ _ _ Hr' Hb Ha) as (t1 & Hf1 & Hr1).
    destruct (assign_front _ _ _ _ _ _ _ (f (next_entry s)) Hr1 (insert_front _ _ _)) as (t' & Hm & Hd & Hr2).
    exists t'. split; [|exact Hr2]. answers true. unfold try_emplace, contains.
    erewrite (bind_Ret _ _ _ false); [|go Hf; done]. go Hf1. by go Hm.
Qed.

(** The two [get_or_...emplace]. *)
Lemma find_or_allocate_found t s b h i v : repr t s (b + 1) -> 0 <= b ->
  assoc h (bindings s) = Some (i, v) ->
  exists t', find_or_allocate h t = Ret (i, true) t' /\ deref i t' = Ret v t' /\
    repr t' (mk_spec (to_front h (i, v) (bindings s)) (free s) (hit (counters s))) b.
Proof.
  intros Hr Hb Ha. pose proof (search_repr _ _ _ h Hr) as Hs. rewrite Ha in Hs.
  destruct Hs as [Hs Hi%Nat.eqb_neq]. apply (repr_count _ _ _ hit) in Hr.
  destruct (use_ok _ _ _ h i v Hr Hb Ha) as (t1 & t' & Hu & Hk & Hr').
  exists t'. split_and!; [|by apply (deref_ok _ _ _ _ _ _ Hr' (front_elem h i v _))|done].
  unfold find_or_allocate. go Hs. rewrite Hi. cbn [negb]. go_modify. go Hu. by go Hk.
Qed.

Lemma find_or_allocate_new t s b h : repr t s (b + 1) -> 0 <= b -> assoc h (bindings s) = None ->
  exists t', find_or_allocate h t = Ret (next_entry s, false) t' /\
    forall v, pending t' (spec_insert h v (count miss s)) b.
Proof.
  intros Hr Hb Ha. pose proof (search_repr _ _ _ h Hr) as Hs. rewrite Ha in Hs.
  apply (repr_count _ _ _ miss) in Hr.
  destruct (insert_ok _ _ _ h Hr Hb Ha) as (t' & Hrun & Hp). exists t'. split; [|done].
  unfold find_or_allocate. go Hs. cbn [negb Nat.eqb]. go_modify. unfold hashTableSlot. go_state.
  by go Hrun.
Qed.

(** [remove], also of a first entry without a value. *)
Lemma remove_repr t s b h : pending t s b ->
  repr t s b \/ (exists i v rest, bindings s = (h, (i, v)) :: rest) ->
  exists t', remove h t = Ret tt t' /\ repr t' (spec_remove h s) b.
Proof.
  intros [Hg Hv Hs Hp] Hor.
  assert (NoDup (bindings s).*1) as Hnd.
  { rewrite <- live_keys. apply (hs_keys _ _ _ (g_hashed _ _ _ _ Hg)). }
  unfold spec_remove. destruct (remove_ok _ _ _ h _ Hg)
    as [[Hno Hrun]|(lv1 & i & lv2 & t' & El & Hrun & Hg' & Hval & Hst & Hsh)].
  - rewrite live_keys in Hno. rewrite (proj2 (assoc_None _ _) Hno). exists t. split; [done|].
    destruct Hor as [Hr|(i & v & rest & E)]; [done|]. rewrite E in Hno. cbn in Hno. set_solver.
  - assert (h ∈ (bindings s).*1) as Hin by (rewrite <- live_keys, El, fmap_app; cbn; set_solver).
    destruct (assoc h (bindings s)) as [[j w]|] eqn:Ha; [|by apply assoc_None in Ha].
    destruct (assoc_split _ _ _ Hnd Ha) as (l1 & l2 & E & Ew & Hn).
    assert (live l1 ++ (h, j) :: live l2 = lv1 ++ (h, i) :: lv2) as El2.
    { rewrite <- El, E. unfold live. by rewrite fmap_app. }
    assert (live l1 = lv1 /\ j = i /\ live l2 = lv2) as (<- & -> & <-).
    { apply (split_unique h); [|done]. rewrite El2, <- El. by rewrite live_keys. }
    exists t'. split; [done|].
    assert (holds_values t' (l1 ++ l2)) as Hvals.
    { intros h' k v' Hk. rewrite Hval. destruct Hor as [Hr|(j & v & rest & E')].
      - apply (rp_values _ _ _ Hr h'). rewrite E. set_solver.
      - apply (Hv h'). rewrite E in E', Hnd. apply (split_unique h l1 _ l2 []) in E' as (-> & _ & ->); [|done].
        by rewrite E. }
    constructor; [constructor|]; cbn [bindings free counters]; rewrite ?Ew; try done.
    + unfold live in *. by rewrite fmap_app.
    + intros h' k v' Hk. apply (Hvals h'). destruct (l1 ++ l2); [done|set_solver].
    + by rewrite Hst.
    + by rewrite (sh_mask _ _ Hsh), (sh_hcount _ _ Hsh).
Qed.

Lemma get_or_emplace_simulates h f : simulates (GetOrEmplace h f).
Proof.
  intros t s b Hr Hb. use_spec h s Ha; cbn [exec fst].
  - destruct (find_or_allocate_found _ _ _ _ _ _ Hr Hb Ha) as (t' & Hf & Hd & Hr').
    exists t'. split; [|exact Hr']. answers v. unfold get_or_emplace. by go Hf.
  - destruct (find_or_allocate_new _ _ _ _ Hr Hb Ha) as (t1 & Hf & Hp).
    destruct (assign_ok _ _ _ _ _ _ _ (f (next_entry s)) (Hp default_value) (insert_front _ _ _)) as (t' & Hm & Hr').
    exists t'. split; [|exact Hr']. answers (f (next_entry s)). unfold get_or_emplace. go Hf. go Hm.
    by apply (insert_deref _ (count miss s) b h).
Qed.

Lemma get_or_try_emplace_simulates h f : simulates (GetOrTryEmplace h f).
Proof.
  intros t s b Hr Hb. use_spec h s Ha; cbn [exec].
  - destruct (find_or_allocate_found _ _ _ _ _ _ Hr Hb Ha) as (t' & Hf & Hd & Hr').
    exists t'. split; [|exact Hr']. answers (Some v). unfold get_or_try_emplace. go Hf. by go Hd.
  - destruct (find_or_allocate_new _ _ _ _ Hr Hb Ha) as (t1 & Hf & Hp).
    pose proof (hashed_bound _ _ _ (next_entry s) (g_hashed _ _ _ _ (pd_good _ _ _ (Hp default_value)))) as Hn.
    rewrite insert_front in Hn.
    assert (get_or_try_emplace h f t = match f (next_entry s) with
      | None => (remove h;; mret None) t1
      | Some v => (mod_entry (next_entry s) (set_value (Some v));; v' ← deref (next_entry s); mret (Some v')) t1
      end) as Hrun.
    { unfold get_or_try_emplace. go Hf. go_state. go_req; [by destruct (f _)|].
      apply andb_true_intro. rewrite !Nat.leb_le. apply Hn. cbn. set_solver. }
    destruct (f (next_entry s)) as [v|]; cbn [fst snd].
    + destruct (assign_ok _ _ _ _ _ _ _ v (Hp v) (insert_front _ _ _)) as (t' & Hm & Hr').
      exists t'. split; [|exact Hr']. answers (Some v). rewrite Hrun. go Hm.
      by go (insert_deref _ (count miss s) b h _ Hr').
    + destruct (remove_repr _ _ _ h (Hp default_value)) as (t' & Hm & Hr').
      { right. rewrite insert_front. eauto. }
      exists t'. split; [|exact Hr']. answers (@None Value). rewrite Hrun. by go Hm.
Qed.

(** [remove], [clear] and the observers. *)
Lemma rest_simulate h : simulates (Remove h) /\ simulates Clear /\ simulates Hashes /\
  simulates Size /\ simulates FetchStats.
Proof.
  split_and!; intros t s b Hr Hb; cbn [exec spec_exec fst snd];
    apply (repr_weaken _ _ _ b) in Hr; try lia.
  - destruct (remove_repr _ _ _ h (rp_pending _ _ _ Hr) (or_introl Hr)) as (t' & Hm & Hr').
    exists t'. split; [|done]. by answers tt.
  - destruct Hr as [Hp _]. rewrite (pending_capacity _ _ _ Hp). destruct Hp as [Hg _ Hs (k & Hk & Hm & Hn)].
    destruct (clear_ok _ _ _ _ k Hg Hk Hm Hn) as (t' & Hrun & Hg' & Hst & Hsh).
    exists t'. split; [by answers tt|]. constructor; [constructor|]; cbn [bindings free counters]; try done;
      try apply holds_nil.
    + by rewrite Hst.
    + exists k. by rewrite (sh_mask _ _ Hsh), (sh_hcount _ _ Hsh).
  - exists t. split; [|done]. answers (map fst (bindings s)).
    rewrite (hashes_ok _ _ _ _ (pd_good _ _ _ (rp_pending _ _ _ Hr))). by rewrite live_keys.
  - exists t. split; [|done]. answers (Z.of_nat (length (bindings s))). unfold state.
    rewrite (g_size _ _ _ _ (pd_good _ _ _ (rp_pending _ _ _ Hr))). unfold live. by rewrite length_fmap.
  - exists (with_stats (fun _ => mk_stats 0 0 0) t). split; [|by apply repr_count].
    answers (counters s). unfold fetchAndClearStats. go_state. go_modify.
    by rewrite (pd_stats _ _ _ (rp_pending _ _ _ Hr)).
Qed.

Lemma op_simulates o : simulates o.
Proof.
  destruct o; try (by apply lookups_simulate); try (by apply peek_simulates);
    try (by apply rest_simulate); try (by apply (rest_simulate zero_hash)).
  - by apply (stores_simulate h default_value (fun _ => default_value)).
  - apply try_emplace_simulates.
  - by apply (stores_simulate h v (fun _ => default_value)).
  - by apply (stores_simulate h default_value).
  - apply get_or_emplace_simulates.
  - apply get_or_try_emplace_simulates.
Qed.

Lemma run_simulates ops : forall t s b, repr t s (Z.of_nat (length ops) + b) -> 0 <= b ->
  exists t', run ops t = Ret (fst (spec_run ops s)) t' /\ repr t' (snd (spec_run ops s)) b.
Proof.
  induction ops as [|o ops IH]; intros t s b Hr Hb; [by exists t|].
  destruct (op_simulates o t s (Z.of_nat (length ops) + b)) as (t1 & Ho & Hr1).
  { eapply repr_weaken; [|done]. simpl length. lia. }
  { lia. }
  destruct (IH _ _ _ Hr1 Hb) as (t' & Hrun & Hr'). exists t'. cbn [run spec_run]. go Ho. go Hrun.
  destruct (spec_exec o s) as [a s1]. cbn [fst snd] in *. by destruct (spec_run ops s1).
Qed.

Lemma spec_run_app ops1 ops2 : forall s, spec_run (ops1 ++ ops2) s =
  (fst (spec_run ops1 s) ++ fst (spec_run ops2 (snd (spec_run ops1 s))),
   snd (spec_run ops2 (snd (spec_run ops1 s)))).
Proof.
  induction ops1 as [|o ops1 IH]; intros s; cbn [app spec_run].
  - cbn [fst snd]. by destruct (spec_run ops2 s) as [a s2].
  - destruct (spec_exec o s) as [a s1]. rewrite IH. by destruct (spec_run ops1 s1).
Qed.

Lemma create_repr hashCount capacity t b : 1 <= hashCount < 2 ^ 32 ->
  Z.of_nat capacity < 2 ^ 31 -> (debug = true -> b < 2 ^ 32) -> create hashCount capacity = Some t ->
  repr t (spec_create capacity) b.
Proof.
  intros Hh Hc Hb. unfold create. set (n := if isPowerOfTwo hashCount then _ else _).
  destruct (isPowerOfTwo n) eqn:Hp; [|done].
  destruct (Z.leb_spec 1 n) as [Hn|]; [|done]. destruct (Nat.leb_spec 2 capacity); [|done].
  intros [= <-].
  assert (n < 2 ^ 32) as Hlt.
  { subst n. destruct (isPowerOfTwo hashCount); [lia|]. by apply Z.mod_pos_bound. }
  apply isPowerOfTwo_sound in Hp; [|lia]. set (k := Z.log2 n) in *.
  assert (u32 (n - 1) = 2 ^ k - 1) as Em by (unfold u32; rewrite Z.mod_small; lia).
  constructor; [constructor|]; try done; try apply holds_nil; cbn [bindings free spec_create].
  - change (seq 1 capacity) with (seq 1 (_capacity (mk_table (mk_stats 0 0 0) (u32 (n - 1)) n 0 capacity
      (replicate (Z.to_nat n) 0%nat) (initial_entries capacity) 0))).
    apply (empty_good _ k); cbn; try done.
    + apply Z.log2_nonneg.
    + by rewrite Hp at 1.
    + intros Hd. by specialize (Hb Hd).
  - exists k. split_and!; [apply Z.log2_nonneg|done..].
Qed.

(** The sizes a table can be created with. *)
Definition creatable (hashCount : Z) (capacity : nat) : Prop :=
  (1 <= hashCount <= 256 \/ (exists k, 0 <= k < 32 /\ hashCount = 2 ^ k)) /\
  (2 <= capacity)%nat /\ Z.of_nat capacity < 2 ^ 31.

Lemma create_some hashCount capacity : creatable hashCount capacity ->
  exists t, create hashCount capacity = Some t.
Proof.
  intros (Hh & Hc & _). unfold create.
  set (n := if isPowerOfTwo hashCount then _ else _).
  assert (isPowerOfTwo n = true /\ 1 <= n) as [-> Hn].
  { subst n. assert (1 <= hashCount) as H1 by (destruct Hh as [|(k & Hk & ->)]; [lia|];
      pose proof (Z.pow_pos_nonneg 2 k); lia).
    destruct (isPowerOfTwo hashCount) eqn:E; [done|].
    rewrite (nextPowerOfTwo_np2 4) by (tauto || done).
    destruct Hh as [Hh|(k & Hk & ->)]; [|by rewrite isPowerOfTwo_pow in E].
    destruct (np2_spec hashCount H1) as [Hl Hb]. split; [|lia]. apply isPowerOfTwo_pow.
    split; [done|]. apply (Z.pow_lt_mono_r_iff 2); unfold np2 in Hb; lia. }
  rewrite (proj2 (Z.leb_le _ _) Hn), (proj2 (Nat.leb_le _ _) Hc). eauto.
Qed.

Lemma creatable_bound hashCount capacity : creatable hashCount capacity -> 1 <= hashCount < 2 ^ 32.
Proof.
  intros ([Hh|(k & Hk & ->)] & _ & _); [lia|]. pose proof (Z.pow_pos_nonneg 2 k).
  split; [lia|]. apply Z.pow_lt_mono_r; lia.
Qed.

Lemma repr_indices t s b : repr t s b ->
  NoDup ((fun x => x.2.1) <$> bindings s) /\
  (forall h i v, (h, (i, v)) ∈ bindings s -> (1 <= i <= _capacity t)%nat /\
     fld hashValue t i = Some h /\ fld value t i = Some (Some v)).
Proof.
  intros [[Hg _ _ _] Hv]. pose proof (g_hashed _ _ _ _ Hg) as Hh. split.
  - apply hashed_nodup, NoDup_app in Hh as (Hnd & _ & _). unfold live in Hnd.
    by rewrite <- list_fmap_compose in Hnd.
  - intros h i v Hin. assert ((h, i) ∈ live (bindings s)) as Hl.
    { apply list_elem_of_fmap. by exists (h, (i, v)). }
    split_and!; [..|by eapply hs_hash|by eapply Hv].
    all: assert (i ∈ (live (bindings s)).*2 ++ free s) as Hi
      by (apply elem_of_app; left; apply list_elem_of_fmap; by exists (h, i)).
    all: apply (hashed_bound _ _ _ _ Hh) in Hi; lia.
Qed.

(** The number of entries, live and free, stays what it was. *)
Definition spec_size (s : spec) : nat := (length (bindings s) + length (free s))%nat.

Lemma insert_remove h v s : h ∉ (bindings s).*1 -> spec_remove h (spec_insert h v s) =
  mk_spec (take (spec_size s - 1) (bindings s)) (next_entry s :: tail (free s))
    (counters (spec_insert h v s)).
Proof.
  intros Hh. unfold spec_remove. rewrite insert_front. cbn [assoc]. rewrite decide_True by done.
  rewrite without_cons by (by apply keys_take). done.
Qed.

Lemma insert_size h v s n : (1 <= n)%nat -> spec_size s = n -> spec_size (spec_insert h v s) = n.
Proof.
  unfold spec_size. intros Hs <-. rewrite insert_front. cbn [spec_insert free length].
  rewrite length_take. destruct (free s); simpl in *; lia.
Qed.

Lemma spec_exec_size o s : NoDup (bindings s).*1 -> (1 <= spec_size s)%nat ->
  spec_size (snd (spec_exec o s)) = spec_size s.
Proof.
  intros Hnd Hs.
  assert (forall h i v c w, assoc h (bindings s) = Some (i, v) ->
    spec_size (mk_spec (to_front h (i, w) (bindings s)) (free s) c) = spec_size s) as Hfront.
  { intros h i v c w Ha. apply without_length in Ha; [|done]. unfold spec_size, to_front. simpl. lia. }
  destruct o; unfold spec_exec, spec_use, spec_assign;
    try (destruct (assoc h (bindings s)) as [[i w]|] eqn:Ha); cbn [snd bindings];
    rewrite ?to_front_twice; try done; try (by eapply Hfront); try (by apply insert_size).
  - match goal with |- context [?g (next_entry s)] => destruct (g (next_entry s)) end;
      cbn [snd]; [by apply insert_size|]. apply assoc_None in Ha. rewrite insert_remove by done. unfold spec_size in *. cbn [bindings free count length].
    rewrite length_take. destruct (free s); simpl in *; lia.
  - unfold spec_remove. rewrite Ha. apply without_length in Ha; [|done]. unfold spec_size. simpl. lia.
  - unfold spec_remove. by rewrite Ha.
  - unfold spec_size. cbn [bindings free length]. by rewrite length_seq.
Qed.

Lemma run_size ops : forall t s b, repr t s (Z.of_nat (length ops) + b) -> 0 <= b ->
  (1 <= spec_size s)%nat ->
  spec_size (snd (spec_run ops s)) = spec_size s.
Proof.
  induction ops as [|o ops IH]; intros t s b Hr Hb Hs; [done|]. cbn [spec_run].
  pose proof (spec_exec_size o s (repr_keys _ _ _ Hr) Hs) as Ho.
  destruct (op_simulates o t s (Z.of_nat (length ops) + b)) as (t1 & _ & Hr1).
  { eapply repr_weaken; [|done]. simpl length. lia. }
  { lia. }
  destruct (spec_exec o s) as [a s1]. cbn [snd] in *. specialize (IH _ _ _ Hr1 Hb ltac:(lia)).
  destruct (spec_run ops s1). cbn [snd] in *. lia.
Qed.

Lemma created hashCount capacity t n : creatable hashCount capacity ->
  (debug = true -> Z.of_nat n < 2 ^ 32) -> create hashCount capacity = Some t ->
  repr t (spec_create capacity) (Z.of_nat n + 0) /\ spec_size (spec_create capacity) = capacity.
Proof.
  intros Hc Hd Ht. split; [|unfold spec_size; cbn; by rewrite length_seq]. rewrite Z.add_0_r.
  by apply (create_repr _ _ _ _ (creatable_bound _ _ Hc) (proj2 (proj2 Hc)) Hd).
Qed.


(** ** The policy of the table *)

(** An operation that neither removes [h] nor uses a hash outside of [hs]. *)
Definition harmless (h : strong_hash) (hs : list strong_hash) (o : op) : Prop :=
  match o with
  | Touch k | Contains k | TryGet k | At k | Index k | TryEmplace k _ | EmplaceValue k _
  | Emplace k _ | GetOrEmplace k _ | GetOrTryEmplace k _ => k = h \/ k ∈ hs
  | Remove k => k <> h
  | Clear => False
  | Peek _ | Hashes | Size | FetchStats => True
  end.

Lemma kept_insert h hs k v s : NoDup (bindings s).*1 -> k ∉ (bindings s).*1 -> k = h \/ k ∈ hs ->
  (length hs < spec_size s)%nat -> kept h hs (bindings s) -> kept h hs (bindings (spec_insert k v s)).
Proof.
  intros Hnd Hk Hor Hlen Hkept. rewrite insert_front.
  destruct (decide (k = h)) as [->|]; [apply kept_first|].
  apply kept_cons; [naive_solver|]. eapply kept_take; [done|done|naive_solver| |done].
  unfold spec_size in Hlen. lia.
Qed.

Lemma harmless_step h hs o s : NoDup (bindings s).*1 -> (length hs < spec_size s)%nat ->
  harmless h hs o -> kept h hs (bindings s) -> kept h hs (bindings (snd (spec_exec o s))).
Proof.
  intros Hnd Hlen Ho Hk. destruct (kept_bound _ _ _ Hnd Hk) as [[ih vh] Hbound].
  destruct o; cbn [harmless] in Ho; unfold spec_exec, spec_use, spec_assign; try done;
    try (destruct (assoc h0 (bindings s)) as [[i w]|] eqn:Ha); cbn [snd bindings];
    rewrite ?to_front_twice; try done; try (by apply kept_to_front);
    try (apply assoc_None in Ha; by apply kept_insert).
  - match goal with |- context [?g (next_entry s)] => destruct (g (next_entry s)) end;
      cbn [snd]; apply assoc_None in Ha; [by apply kept_insert|].
    rewrite insert_remove by done. cbn [bindings].
    assert (h0 <> h) by (intros ->; apply assoc_None in Ha; congruence).
    eapply kept_take; [done|done|naive_solver| |done]. unfold spec_size in *. simpl. lia.
  - unfold spec_remove. rewrite Ha. by apply kept_without.
  - unfold spec_remove. by rewrite Ha.
Qed.

Lemma harmless_run h hs ops : forall t s b, repr t s (Z.of_nat (length ops) + b) -> 0 <= b ->
  (length hs < spec_size s)%nat -> Forall (harmless h hs) ops -> kept h hs (bindings s) ->
  kept h hs (bindings (snd (spec_run ops s))).
Proof.
  induction ops as [|o ops IH]; intros t s b Hr Hb Hs Hall Hk; [done|].
  apply Forall_cons in Hall as [Ho Hall].
  pose proof (repr_keys _ _ _ Hr) as Hnd.
  pose proof (harmless_step _ _ _ _ Hnd Hs Ho Hk) as Hk1.
  pose proof (spec_exec_size o s Hnd ltac:(lia)) as Hsz. cbn [spec_run].
  destruct (op_simulates o t s (Z.of_nat (length ops) + b)) as (t1 & _ & Hr1).
  { eapply repr_weaken; [|done]. simpl length. lia. }
  { lia. }
  destruct (spec_exec o s) as [a s1]. cbn [snd] in *.
  specialize (IH _ _ _ Hr1 Hb ltac:(lia) Hall Hk1). by destruct (spec_run ops s1).
Qed.

Lemma get_or_emplace_kept h hs f s : kept h hs (bindings (snd (spec_exec (GetOrEmplace h f) s))).
Proof.
  unfold spec_exec, spec_use. destruct (assoc h (bindings s)) as [[i v]|]; apply kept_first.
Qed.

(** C39: The table evicts by least recent use: an entry that was asked for is still there after
    any further operations, as long as they neither remove it nor clear the table and use fewer
    than capacity other hashes. *)
Theorem recently_used_stay (hashCount : Z) (capacity : nat) (h : strong_hash)
    (f : nat -> Value) (hs : list strong_hash) (before after : list op) :
  let ops := before ++ [GetOrEmplace h f] ++ after ++ [Contains h] in
  creatable hashCount capacity -> (debug = true -> Z.of_nat (length ops) < 2 ^ 32) ->
  (length hs < capacity)%nat -> Forall (harmless h hs) after ->
  exists t t' answers, create hashCount capacity = Some t /\
    run ops t = Ret (answers ++ [Flag true]) t'.
Proof.
  intros ops Hc Hd Hlen Hall. destruct (create_some _ _ Hc) as [t Ht].
  destruct (created _ _ _ _ Hc Hd Ht) as [Hr Hsz]. destruct Hc as (_ & Hc2 & _).
  destruct (run_simulates ops _ _ 0 Hr) as (t' & Hrun & _); [done|].
  assert (ops = (before ++ [GetOrEmplace h f]) ++ after ++ [Contains h]) as Eops
    by (unfold ops; by rewrite <- app_assoc).
  rewrite Eops in *. clear ops Eops Hd.
  rewrite !length_app, !Nat2Z.inj_add in Hr. set (start := spec_create capacity) in *.
  destruct (run_simulates (before ++ [GetOrEmplace h f]) t start (Z.of_nat (length after) + 1)) as (t1 & _ & Hr1).
  { rewrite length_app, Nat2Z.inj_add. eapply repr_weaken; [|exact Hr]. simpl. lia. }
  { lia. }
  pose proof (run_size (before ++ [GetOrEmplace h f]) t start (Z.of_nat (length after) + 1)) as Hsz1.
  rewrite length_app, Nat2Z.inj_add, Hsz in Hsz1. specialize (Hsz1 ltac:(eapply repr_weaken; [|exact Hr]; simpl; lia) ltac:(lia) ltac:(lia)).
  set (s1 := snd (spec_run (before ++ [GetOrEmplace h f]) start)) in *.
  assert (kept h hs (bindings s1)) as Hk.
  { unfold s1. rewrite spec_run_app. cbn [snd]. set (s0 := snd (spec_run before start)).
    cbn [spec_run]. pose proof (get_or_emplace_kept h hs f s0) as Hk.
    by destruct (spec_exec (GetOrEmplace h f) s0). }
  apply (harmless_run _ _ after t1 s1 1) in Hk; [|done|done|lia|done].
  destruct (run_simulates after t1 s1 1 Hr1) as (t2 & _ & Hr2); [done|].
  destruct (kept_bound _ _ _ (repr_keys _ _ _ Hr2) Hk) as [[i v] Ha].
  assert (fst (spec_run (after ++ [Contains h]) s1) = fst (spec_run after s1) ++ [Flag true]) as Hlast.
  { rewrite spec_run_app. cbn [fst spec_run]. f_equal. unfold spec_exec, spec_use. by rewrite Ha. }
  eexists t, t', _. split; [done|]. rewrite Hrun, spec_run_app. fold s1. cbn [fst].
  by rewrite Hlast, app_assoc.
Qed.

End Table.

Arguments entry : clear implicits.
Arguments table : clear implicits.
Arguments result : clear implicits.
Arguments Ret {Value A}.
Arguments Thrown {Value A}.
Arguments Failed {Value A}.
Arguments Wild {Value A}.
Arguments op : clear implicits.
Arguments answer : clear implicits.
Arguments spec : clear implicits.

(** ** Concrete tables *)

Definition sample_ops : list (op Z) :=
  [GetOrEmplace (std_hash32 1) Z.of_nat; GetOrEmplace (std_hash32 9) Z.of_nat;
   Contains (std_hash32 1); EmplaceValue (std_hash32 17) 5; Hashes;
   GetOrTryEmplace (std_hash32 2) (fun _ => None); Remove (std_hash32 1); Hashes].


Lemma recently_used_stay_witness :
  exists t t' answers, create 8 2 = Some t /\
    run true 0 ([] ++ [GetOrEmplace (std_hash32 1) Z.of_nat] ++
      [Index (std_hash32 9); Touch (std_hash32 9); Remove (std_hash32 9); Index (std_hash32 9)] ++
      [Contains (std_hash32 1)]) t = Ret (answers ++ [Flag true]) t'.
Proof.
  apply (recently_used_stay true 0 8 2 (std_hash32 1) Z.of_nat [std_hash32 9] []
    [Index (std_hash32 9); Touch (std_hash32 9); Remove (std_hash32 9); Index (std_hash32 9)]).
  - split; [left; lia|lia].
  - intros _. simpl length. lia.
  - simpl. lia.
  - repeat apply Forall_cons_2; try apply Forall_nil_2; simpl; try (right; set_solver); done.
Defined.

(** The answers to a sequence of operations on a new table. *)
Definition session (debug : bool) (hashCount : Z) (capacity : nat) (ops : list (op Z)) :
    option (list (answer Z) * table Z) :=
  t ← create hashCount capacity;
  match run debug 0 ops t with Ret answers t' => Some (answers, t') | _ => None end.

(** A count of hash slots above 256 that is no power of two may abort the
    program: [nextPowerOfTwo] does not return one. *)
Example create_aborts : create (Value := Z) 513 2 = None.
Proof. vm_compute. reflexivity. Qed.

(** A failed construction evicts the least recent entry of a full table
    although nothing is put in its place. *)
Example failed_construction_evicts :
  fst <$> session false 4 2 [Index (std_hash32 1); Index (std_hash32 2);
     GetOrTryEmplace (std_hash32 3) (fun _ => None); Hashes] =
  Some [Found (Some 0); Found (Some 0); Found None; Keys [std_hash32 2]].
Proof. vm_compute. reflexivity. Qed.

(** The value of a removed entry stays in its entry until the entry is used
    again. *)
Example removed_value_stays :
  (fun r => fld value r.2 1) <$>
    session false 4 2 [EmplaceValue (std_hash32 1) 7; Remove (std_hash32 1)] = Some (Some (Some 7)).
Proof. vm_compute. reflexivity. Qed.

(** [try_emplace] of a new hash counts two misses. *)
Example try_emplace_counts_twice :
  fst <$> session false 4 2 [TryEmplace (std_hash32 1) Z.of_nat; FetchStats] =
  Some [Flag true; Stats (mk_stats 0 2 0)].
Proof. vm_compute. reflexivity. Qed.

(** In a debug build the ordering counter wraps after 2^32 uses, and the
    table then fails its own check. *)
Example ordering_wraps :
  match create (Value := Z) 4 2 with
  | Some t => exec true 0 (Index (std_hash32 1)) (alt 0 (set_ordering (2 ^ 32 - 1)) t) = Failed
  | None => False
  end.
Proof. vm_compute. reflexivity. Qed.
