(* ===== verification/LruCache.v ===== *)
(** * crispy::lru_cache and the hyperlinks kept in it
    (src/crispy/LRUCache.h, src/vtbackend/Hyperlink.h)

    [lru_cache] is a [std::list] of items and a map from keys to iterators.
    A node of the list has an identity, which is what an iterator or a
    reference is in the model; a node that has been erased can no longer be
    read, so a use of a dangling iterator is [None].  The operations are
    verified against the list of LruSpec.v; [HyperlinkStorage] is a client. *)
From stdpp Require Import sets gmap strings.
From S2P Require Import Prelude Chains LruSpec.
#[local] Set Warnings "-clear-no-such-hyp".

Section Cache.
Context {K V : Type} `{Countable K} (default_value : V).

Record item := mk_item { key : K; value : V }.

(** [_items] with the identity of each node, and the identity the next node
    gets. *)
Record lru_cache := mk_cache {
  _items : list (nat * item);
  _itemByKeyMapping : gmap K nat;
  _capacity : nat;
  next_node : nat
}.

Definition empty_cache (capacity : nat) : lru_cache := mk_cache [] ∅ capacity 0.

(** ** Nodes *)

(** [*i]: the item of a node that is in the list. *)
Definition node_item (i : nat) (l : list (nat * item)) : option item := assoc i l.

(** [_items.erase(i)] *)
Definition erase_node (i : nat) (l : list (nat * item)) : list (nat * item) := without i l.

(** [_items.emplace_front(x)]: the new first node. *)
Definition emplace_front (x : item) (c : lru_cache) : lru_cache :=
  mk_cache ((next_node c, x) :: _items c) (_itemByKeyMapping c) (_capacity c) (S (next_node c)).

Definition with_items f (c : lru_cache) : lru_cache :=
  mk_cache (f (_items c)) (_itemByKeyMapping c) (_capacity c) (next_node c).
Definition with_mapping f (c : lru_cache) : lru_cache :=
  mk_cache (_items c) (f (_itemByKeyMapping c)) (_capacity c) (next_node c).

Definition begin_ (c : lru_cache) : option nat := fst <$> head (_items c).

Definition moveItemToFront (i : nat) (c : lru_cache) : option (nat * lru_cache) :=
  x ← node_item i (_items c);
  let c := emplace_front x c in
  let c := with_items (erase_node i) c in
  n ← begin_ c;
  Some (n, c).

Definition emplaceItemToFront (k : K) (v : V) (c : lru_cache) : option (nat * lru_cache) :=
  let c := emplace_front (mk_item k v) c in
  n ← begin_ c;
  let c := with_mapping (fun m => match m !! k with Some _ => m | None => <[k := n]> m end) c in
  Some (n, c).

(** Writing through the iterator [i]. *)
Definition set_node (i : nat) (x : item) (l : list (nat * item)) : list (nat * item) :=
  map (fun y => if (y.1 =? i)%nat then (i, x) else y) l.

Definition evict_one_and_push_front (newKey : K) (newValue : V) (c : lru_cache) :
    option (nat * lru_cache) :=
  oldItem ← last (_items c);
  let oldKey := key oldItem.2 in
  i ← _itemByKeyMapping c !! oldKey;
  '(n, c) ← moveItemToFront i c;
  let c := with_items (set_node n (mk_item newKey newValue)) c in
  let c := with_mapping (delete oldKey) c in
  let c := with_mapping (fun m => match m !! newKey with Some _ => m | None => <[newKey := n]> m end) c in
  Some (n, c).

(** ** The operations

    A returned node stands for the reference to its value. *)

Definition size (c : lru_cache) : nat := length (_items c).

Definition clear (c : lru_cache) : lru_cache :=
  mk_cache [] ∅ (_capacity c) (next_node c).

Definition contains (k : K) (c : lru_cache) : bool := bool_decide (is_Some (_itemByKeyMapping c !! k)).

Definition try_get (k : K) (c : lru_cache) : option (option nat * lru_cache) :=
  match _itemByKeyMapping c !! k with
  | Some i =>
      '(n, c) ← moveItemToFront i c;
      Some (Some n, with_mapping <[k := n]> c)
  | None => Some (None, c)
  end.

Definition touch (k : K) (c : lru_cache) : option lru_cache := snd <$> try_get k c.

(** [at] throws [std::out_of_range] when there is no such key. *)
Definition at_ (k : K) (c : lru_cache) : option ((nat + string) * lru_cache) :=
  '(p, c) ← try_get k c;
  match p with Some n => Some (inl n, c) | None => Some (inr "key"%string, c) end.

(** What [operator[]], [try_emplace] and [emplace] do with a new key. *)
Definition insert_new (k : K) (v : V) (c : lru_cache) : option (nat * lru_cache) :=
  if (length (_items c) =? _capacity c)%nat then evict_one_and_push_front k v c
  else emplaceItemToFront k v c.

Definition index (k : K) (c : lru_cache) : option (nat * lru_cache) :=
  '(r, c) ← try_get k c;
  match r with
  | Some n => Some (n, c)
  | None => insert_new k default_value c
  end.

Definition try_emplace (k : K) (v : V) (c : lru_cache) : option (bool * lru_cache) :=
  '(r, c) ← try_get k c;
  match r with
  | Some _ => Some (false, c)
  | None => '(_, c) ← insert_new k v c; Some (true, c)
  end.

(** [emplace] requires the key to be new: [None] is its failed [Require]. *)
Definition emplace (k : K) (v : V) (c : lru_cache) : option (nat * lru_cache) :=
  if contains k c then None else insert_new k v c.

Definition get_or_emplace (k : K) (v : V) (c : lru_cache) : option (nat * lru_cache) :=
  '(r, c) ← try_get k c;
  match r with
  | Some n => Some (n, c)
  | None => emplace k v c
  end.

Definition keys (c : lru_cache) : list K := map (fun x => key x.2) (_items c).

(** [_items.erase(iter); _itemByKeyMapping.erase(iter->key);]: the key is
    read from the node that was just erased. *)
Definition erase_iterator (i : nat) (c : lru_cache) : option lru_cache :=
  let c := with_items (erase_node i) c in
  x ← node_item i (_items c);
  Some (with_mapping (delete (key x)) c).

Definition erase (k : K) (c : lru_cache) : option lru_cache :=
  match _itemByKeyMapping c !! k with
  | Some i => erase_iterator i c
  | None => Some c
  end.

(** ** Sequences of operations, and what they mean *)

Inductive op :=
  | TryGet (k : K) | At (k : K) | Contains (k : K) | Index (k : K) | TryEmplace (k : K) (v : V)
  | GetOrEmplace (k : K) (v : V) | Emplace (k : K) (v : V) | Keys | Size | Clear.

Inductive answer :=
  | Found (v : option V) | Flag (b : bool) | KeyList (l : list K) | Count (n : nat) | Nothing
  | OutOfRange (what : string).

(** The value a returned reference is read as. *)
Definition reading (n : nat) (c : lru_cache) : option (answer * lru_cache) :=
  x ← node_item n (_items c); Some (Found (Some (value x)), c).

Definition exec (o : op) (c : lru_cache) : option (answer * lru_cache) :=
  match o with
  | TryGet k =>
      '(r, c) ← try_get k c;
      match r with Some n => reading n c | None => Some (Found None, c) end
  | At k => '(r, c) ← at_ k c; match r with inl n => reading n c | inr e => Some (OutOfRange e, c) end
  | Contains k => Some (Flag (contains k c), c)
  | Index k => '(n, c) ← index k c; reading n c
  | TryEmplace k v => '(b, c) ← try_emplace k v c; Some (Flag b, c)
  | GetOrEmplace k v => '(n, c) ← get_or_emplace k v c; reading n c
  | Emplace k v => '(n, c) ← emplace k v c; reading n c
  | Keys => Some (KeyList (keys c), c)
  | Size => Some (Count (size c), c)
  | Clear => Some (Nothing, clear c)
  end.

Fixpoint run (ops : list op) (c : lru_cache) : option (list answer * lru_cache) :=
  match ops with
  | [] => Some ([], c)
  | o :: ops' => '(a, c) ← exec o c; '(r, c) ← run ops' c; Some (a :: r, c)
  end.

Definition spec_get (k : K) (l : list (K * V)) (f : V -> list (K * V) -> answer * list (K * V))
    (g : answer * list (K * V)) : answer * list (K * V) :=
  match assoc k l with Some v => f v (to_front k v l) | None => g end.

(** [None]: the operation is not allowed, because [emplace] finds its key. *)
Definition spec_exec (cap : nat) (o : op) (l : list (K * V)) : option (answer * list (K * V)) :=
  let found v l := (Found (Some v), l) in
  match o with
  | TryGet k => Some (spec_get k l found (Found None, l))
  | At k => Some (spec_get k l found (OutOfRange "key", l))
  | Contains k => Some (Flag (bool_decide (is_Some (assoc k l))), l)
  | Index k => Some (spec_get k l found (found default_value (push cap k default_value l)))
  | TryEmplace k v => Some (spec_get k l (fun _ l => (Flag false, l)) (Flag true, push cap k v l))
  | GetOrEmplace k v => Some (spec_get k l found (found v (push cap k v l)))
  | Emplace k v => match assoc k l with Some _ => None | None => Some (found v (push cap k v l)) end
  | Keys => Some (KeyList (map fst l), l)
  | Size => Some (Count (length l), l)
  | Clear => Some (Nothing, [])
  end.

Fixpoint spec_run (cap : nat) (ops : list op) (l : list (K * V)) : option (list answer * list (K * V)) :=
  match ops with
  | [] => Some ([], l)
  | o :: ops' => '(a, l) ← spec_exec cap o l; '(r, l) ← spec_run cap ops' l; Some (a :: r, l)
  end.

(** ** A cache stands for a list of bindings *)

Definition binding (x : nat * item) : K * V := (key x.2, value x.2).

Record repr (c : lru_cache) (l : list (K * V)) : Prop := {
  rp_list : l = binding <$> _items c;
  rp_nodes : NoDup (_items c).*1;
  rp_fresh : forall n x, (n, x) ∈ _items c -> (n < next_node c)%nat;
  rp_map : forall k n, _itemByKeyMapping c !! k = Some n <-> exists v, (n, mk_item k v) ∈ _items c;
  rp_keys : NoDup l.*1;
  rp_size : (length l <= _capacity c)%nat
}.

Lemma node_fresh c l : repr c l -> next_node c ∉ (_items c).*1.
Proof.
  intros Hr ([n x] & E & Hin)%list_elem_of_fmap. apply (rp_fresh _ _ Hr) in Hin. simpl in E. lia.
Qed.

(** Where the binding of a key is, and the list without it. *)
Lemma find_node c l k : repr c l ->
  match assoc k l with
  | Some v => exists i l1 l2, _itemByKeyMapping c !! k = Some i /\
      _items c = l1 ++ (i, mk_item k v) :: l2 /\ without k l = binding <$> (l1 ++ l2)
  | None => _itemByKeyMapping c !! k = None
  end.
Proof.
  intros Hr. pose proof (rp_keys _ _ Hr) as Hnd. destruct (assoc k l) as [v|] eqn:Ha.
  - assert ((k, v) ∈ l) as Hin by (by apply assoc_elem).
    rewrite (rp_list _ _ Hr) in Hin. apply list_elem_of_fmap in Hin as ([i [k' v']] & [= -> ->] & Hin).
    exists i. pose proof Hin as (l1 & l2 & E)%list_elem_of_split. exists l1, l2.
    split_and!; [apply (rp_map _ _ Hr); by exists v'|done|].
    destruct (assoc_split _ _ _ Hnd Ha) as (b1 & b2 & E1 & -> & _).
    rewrite (rp_list _ _ Hr), E, fmap_app in E1. rewrite (rp_list _ _ Hr), E, fmap_app in Hnd.
    apply (split_unique k') in E1 as (<- & _ & <-); [by rewrite fmap_app|done].
  - apply assoc_None in Ha. destruct (_itemByKeyMapping c !! k) as [n|] eqn:E; [|done].
    apply (rp_map _ _ Hr) in E as [v Hin]. exfalso. apply Ha. rewrite (rp_list _ _ Hr).
    apply list_elem_of_fmap. exists (k, v). split; [done|].
    apply list_elem_of_fmap. by exists (n, mk_item k v).
Qed.

(** The cache after node [i] has become the first one. *)
Lemma move_ok c l l1 i x l2 : repr c l -> _items c = l1 ++ (i, x) :: l2 ->
  moveItemToFront i c =
    Some (next_node c, mk_cache ((next_node c, x) :: l1 ++ l2) (_itemByKeyMapping c) (_capacity c) (S (next_node c))).
Proof.
  intros Hr E. pose proof (rp_nodes _ _ Hr) as Hnd.
  assert (i <> next_node c) as Hne.
  { intros ->. apply (node_fresh _ _ Hr). rewrite E, fmap_app. cbn. set_solver. }
  assert (node_item i (_items c) = Some x) as Hx by (unfold node_item; rewrite E in *; by apply assoc_middle).
  assert (erase_node i ((next_node c, x) :: _items c) = (next_node c, x) :: l1 ++ l2) as Ee.
  { unfold erase_node, without. rewrite filter_cons_True by (simpl; congruence). f_equal.
    destruct (assoc_split i (_items c) x Hnd Hx) as (a1 & a2 & E' & Ew & _).
    unfold without in Ew. rewrite Ew. rewrite E in E', Hnd.
    by apply (split_unique i) in E' as (-> & _ & ->). }
  assert (with_items (erase_node i) (emplace_front x c) =
    mk_cache ((next_node c, x) :: l1 ++ l2) (_itemByKeyMapping c) (_capacity c) (S (next_node c))) as Ew.
  { unfold with_items, emplace_front. cbn [_items _itemByKeyMapping _capacity next_node]. by rewrite Ee. }
  unfold moveItemToFront. rewrite Hx. cbn [mbind option_bind]. by rewrite Ew.
Qed.

(** A new first node for binding [k], with the other nodes [its]. *)
Lemma repr_front c its k v (m : gmap K nat) : NoDup its.*1 ->
  (forall n x, (n, x) ∈ its -> (n < next_node c)%nat) -> NoDup (k :: (binding <$> its).*1) ->
  (S (length its) <= _capacity c)%nat ->
  (forall k' n, k' <> k -> m !! k' = Some n <-> exists v, (n, mk_item k' v) ∈ its) ->
  repr (mk_cache ((next_node c, mk_item k v) :: its) (<[k := next_node c]> m) (_capacity c) (S (next_node c)))
    ((k, v) :: (binding <$> its)).
Proof.
  intros Hnd Hfresh Hk Hlen Hm. constructor; cbn [_items _itemByKeyMapping _capacity next_node].
  - done.
  - cbn. apply NoDup_cons. split; [|done]. intros ([n x] & E & Hin)%list_elem_of_fmap.
    apply Hfresh in Hin. simpl in E. lia.
  - intros n x [[= -> ->]|Hin]%elem_of_cons; [lia|]. apply Hfresh in Hin. lia.
  - intros k' n. destruct (decide (k' = k)) as [->|Hne].
    + rewrite lookup_insert_eq. split.
      * intros [= <-]. exists v. set_solver.
      * intros (v' & [[= -> ->]|Hin]%elem_of_cons); [done|]. exfalso. apply NoDup_cons in Hk as [Hk _].
        apply Hk, list_elem_of_fmap. exists (k, v'). split; [done|].
        apply list_elem_of_fmap. by exists (n, mk_item k v').
    + rewrite lookup_insert_ne, Hm by done. split; intros [v' Hin]; exists v'; [set_solver|].
      apply elem_of_cons in Hin as [[= _ -> _]|Hin]; done.
  - done.
  - cbn. by rewrite length_map.
Qed.

Lemma try_get_ok c l k : repr c l ->
  match assoc k l with
  | Some v => exists c', try_get k c = Some (Some (next_node c), c') /\ repr c' (to_front k v l) /\
      node_item (next_node c) (_items c') = Some (mk_item k v)
  | None => try_get k c = Some (None, c)
  end.
Proof.
  intros Hr. pose proof (find_node _ _ k Hr) as Hf. unfold try_get.
  destruct (assoc k l) as [v|] eqn:Ha; [|by rewrite Hf].
  destruct Hf as (i & l1 & l2 & Hm & E & Ew). rewrite Hm, (move_ok _ _ _ _ _ _ Hr E).
  eexists. split; [done|]. split.
  - unfold to_front. rewrite Ew. apply (repr_front c (l1 ++ l2) k v (_itemByKeyMapping c)).
    + pose proof (rp_nodes _ _ Hr) as Hnd. rewrite E, fmap_app in Hnd.
      rewrite fmap_app. by apply NoDup_middle in Hnd as [_ Hnd].
    + intros n x Hin. apply (rp_fresh _ _ Hr n x). rewrite E. set_solver.
    + rewrite <- Ew. destruct (assoc_split _ _ _ (rp_keys _ _ Hr) Ha) as (b1 & b2 & E' & -> & Hn).
      pose proof (rp_keys _ _ Hr) as Hnd. rewrite E', fmap_app in Hnd.
      apply NoDup_cons. split; [done|]. rewrite fmap_app. by apply NoDup_middle in Hnd as [_ Hnd].
    + pose proof (rp_size _ _ Hr) as Hs. rewrite (rp_list _ _ Hr), length_fmap, E, length_app in Hs.
      rewrite length_app. simpl in Hs. lia.
    + intros k' n Hne. rewrite (rp_map _ _ Hr), E. split; intros [v' Hin]; exists v'; [|set_solver].
      apply elem_of_app in Hin as [Hin|[[= _ -> _]|Hin]%elem_of_cons]; [set_solver|done|set_solver].
  - cbn. by rewrite decide_True.
Qed.

Lemma insert_new_ok c l k v : repr c l -> assoc k l = None -> (1 <= _capacity c)%nat ->
  exists c', insert_new k v c = Some (next_node c, c') /\ repr c' (push (_capacity c) k v l) /\
    node_item (next_node c) (_items c') = Some (mk_item k v) /\ _capacity c' = _capacity c.
Proof.
  intros Hr Ha Hcap. pose proof (find_node _ _ k Hr) as Hm. rewrite Ha in Hm. apply assoc_None in Ha.
  pose proof (rp_size _ _ Hr) as Hs. pose proof (rp_list _ _ Hr) as El.
  assert (length l = length (_items c)) as Elen by (rewrite El; apply length_fmap).
  unfold insert_new. destruct (Nat.eqb_spec (length (_items c)) (_capacity c)) as [Hfull|Hfull].
  - destruct (_items c) as [|[j [k0 v0]] its _] eqn:E using rev_ind; [simpl in Hfull; lia|].
    assert (_itemByKeyMapping c !! k0 = Some j) as Hj.
    { apply (rp_map _ _ Hr). exists v0. rewrite E. set_solver. }
    assert (k <> k0) as Hne.
    { intros ->. rewrite Hm in Hj. done. }
    unfold evict_one_and_push_front. rewrite E, last_snoc. cbn [mbind option_bind snd key].
    rewrite Hj. cbn [mbind option_bind]. rewrite (move_ok _ _ _ _ _ _ Hr E). cbn [mbind option_bind].
    rewrite app_nil_r.
    assert (set_node (next_node c) (mk_item k v) ((next_node c, mk_item k0 v0) :: its) =
      (next_node c, mk_item k v) :: its) as Eset.
    { unfold set_node. cbn [map fst]. rewrite Nat.eqb_refl. f_equal.
      rewrite <- (map_id its) at 2. apply map_ext_in. intros [n x] Hin%list_elem_of_In.
      cbn [fst]. rewrite (proj2 (Nat.eqb_neq n (next_node c))); [done|].
      assert (n < next_node c)%nat; [|lia]. apply (rp_fresh _ _ Hr n x). rewrite E. set_solver. }
    unfold with_mapping, with_items. cbn [_items _itemByKeyMapping _capacity next_node].
    rewrite Eset, lookup_delete_ne, Hm by done. eexists. split; [done|]. split_and!.
    + assert (push (_capacity c) k v l = (k, v) :: (binding <$> its)) as ->.
      { unfold push. rewrite El, fmap_app, take_app_length'; [done|].
        rewrite length_app in Hfull. simpl in Hfull. rewrite length_fmap. lia. }
      apply (repr_front c its k v (delete k0 (_itemByKeyMapping c))).
      * pose proof (rp_nodes _ _ Hr) as Hnd. rewrite E, fmap_app in Hnd. by apply NoDup_app in Hnd as [? _].
      * intros n x Hin. apply (rp_fresh _ _ Hr n x). rewrite E. set_solver.
      * pose proof (rp_keys _ _ Hr) as Hnd. rewrite El, !fmap_app in Hnd, Ha. apply NoDup_cons.
        split; [intros Hin; apply Ha, elem_of_app; by left|]. by apply NoDup_app in Hnd as [? _].
      * rewrite length_app in Hfull. simpl in Hfull. lia.
      * intros k' n Hk'. pose proof (rp_keys _ _ Hr) as Hnd. rewrite El, !fmap_app in Hnd.
        destruct (decide (k' = k0)) as [->|Hk0].
        -- rewrite lookup_delete_eq. split; [done|]. intros [v' Hin]. exfalso.
           apply NoDup_app in Hnd as (_ & Hd & _). apply (Hd k0); [|cbn; set_solver].
           apply list_elem_of_fmap. exists (k0, v'). split; [done|].
           apply list_elem_of_fmap. by exists (n, mk_item k0 v').
        -- rewrite lookup_delete_ne, (rp_map _ _ Hr), E by done. split; intros [v' Hin]; exists v'; [|set_solver].
           apply elem_of_app in Hin as [Hin|[[= _ -> _]|Hin]%elem_of_cons]; [done..|set_solver].
    + cbn. by rewrite decide_True.
    + done.
  - unfold emplaceItemToFront, emplace_front, begin_, with_mapping.
    cbn [_items _itemByKeyMapping _capacity next_node head fmap option_fmap option_map mbind option_bind fst].
    rewrite Hm. eexists. split; [done|]. split_and!.
    + unfold push. rewrite take_ge by lia. rewrite El at 1.
      apply (repr_front c (_items c) k v (_itemByKeyMapping c)).
      * apply (rp_nodes _ _ Hr).
      * apply (rp_fresh _ _ Hr).
      * rewrite <- El. apply NoDup_cons. split; [done|apply (rp_keys _ _ Hr)].
      * lia.
      * intros k' n _. apply (rp_map _ _ Hr).
    + cbn. by rewrite decide_True.
    + done.
Qed.

Lemma repr_clear c : repr (clear c) [].
Proof.
  constructor; cbn [clear _items _itemByKeyMapping _capacity next_node]; try done;
    try apply NoDup_nil_2; try (simpl; lia).
  - intros n x Hin. set_solver.
  - intros k n. rewrite lookup_empty. split; [done|]. intros [v Hin]. set_solver.
Qed.

Lemma contains_ok c l k : repr c l -> contains k c = bool_decide (is_Some (assoc k l)).
Proof.
  intros Hr. unfold contains. apply bool_decide_ext. pose proof (find_node _ _ k Hr) as Hf.
  destruct (assoc k l); [destruct Hf as (i & _ & _ & -> & _)|rewrite Hf]; split; try done; by eauto.
Qed.

(** What a lookup leaves, on both branches. *)
Lemma try_get_cases c l k : repr c l ->
  (exists v c', assoc k l = Some v /\ try_get k c = Some (Some (next_node c), c') /\
     repr c' (to_front k v l) /\ reading (next_node c) c' = Some (Found (Some v), c') /\
     _capacity c' = _capacity c) \/
  (assoc k l = None /\ try_get k c = Some (None, c)).
Proof.
  intros Hr. pose proof (try_get_ok _ _ k Hr) as Ht. destruct (assoc k l) as [v|]; [left|by right].
  destruct Ht as (c' & Ht & Hr' & Hn). exists v, c'. split_and!; try done.
  - unfold reading. by rewrite Hn.
  - revert Ht. unfold try_get. destruct (_itemByKeyMapping c !! k) as [i|]; [|done].
    unfold moveItemToFront. destruct (node_item i (_items c)); [|done]. cbn [mbind option_bind].
    destruct (begin_ _); [|done]. cbn. by intros [= _ <-].
Qed.

Lemma insert_reading c l k v : repr c l -> assoc k l = None -> (1 <= _capacity c)%nat ->
  exists c', insert_new k v c = Some (next_node c, c') /\ repr c' (push (_capacity c) k v l) /\
    reading (next_node c) c' = Some (Found (Some v), c') /\ _capacity c' = _capacity c.
Proof.
  intros Hr Ha Hc. destruct (insert_new_ok c l k v Hr Ha Hc) as (c' & Hi & Hr' & Hn & Hcap).
  exists c'. split_and!; try done. unfold reading. by rewrite Hn.
Qed.

Lemma op_refines o c l a l' : repr c l -> (1 <= _capacity c)%nat ->
  spec_exec (_capacity c) o l = Some (a, l') ->
  exists c', exec o c = Some (a, c') /\ repr c' l' /\ _capacity c' = _capacity c.
Proof.
  intros Hr Hc. unfold spec_exec, spec_get, exec.
  destruct o as [k|k|k|k|k w|k w|k w| | |]; unfold at_, index, try_emplace, get_or_emplace, emplace;
    rewrite ?(contains_ok _ _ _ Hr).
  all: try (destruct (try_get_cases c l k Hr) as [(v & c1 & Ha & Ht & Hr1 & Hn & Hc1)|[Ha Ht]];
    rewrite ?Ht, Ha).
  all: try (cbn; intros [= <- <-]; eexists; split; [done|]; done).
  all: try (intros [= <- <-]; cbn [mbind option_bind]; exists c1; split; [exact Hn|done]).
  all: try (cbn; done).
  all: cbn [mbind option_bind]; rewrite ?(contains_ok _ _ _ Hr);
    try (rewrite Ha, bool_decide_eq_false_2 by (intros [? ?]; congruence)).
  - destruct (insert_reading c l k default_value Hr Ha Hc) as (c1 & Hi & Hr1 & Hn & Hc1).
    rewrite Hi. intros [= <- <-]. exists c1. split_and!; done.
  - destruct (insert_reading c l k w Hr Ha Hc) as (c1 & Hi & Hr1 & Hn & Hc1).
    rewrite Hi. intros [= <- <-]. exists c1. split_and!; done.
  - destruct (insert_reading c l k w Hr Ha Hc) as (c1 & Hi & Hr1 & Hn & Hc1).
    rewrite Hi. intros [= <- <-]. exists c1. split_and!; done.
  - destruct (insert_reading c l k w Hr Ha Hc) as (c1 & Hi & Hr1 & Hn & Hc1).
    rewrite Hi. intros [= <- <-]. exists c1. split_and!; done.
  - intros [= <- <-]. exists c. split; [|done]. unfold keys. rewrite (rp_list _ _ Hr).
    do 3 f_equal. change (map ?f ?m) with (f <$> m). by rewrite <- list_fmap_compose.
  - intros [= <- <-]. exists c. split; [|done]. unfold size. by rewrite (rp_list _ _ Hr), length_fmap.
  - intros [= <- <-]. exists (clear c). split_and!; [done| |done]. apply repr_clear.
Qed.

(** A cache of at least one item answers every sequence of operations
    that keeps to [emplace]'s precondition as the list of bindings does, most
    recently used first; no iterator it uses dangles. *)
Lemma lru_cache_refines (cap : nat) (ops : list op) (answers : list answer) (l : list (K * V)) :
  (1 <= cap)%nat -> spec_run cap ops [] = Some (answers, l) ->
  exists c, run ops (empty_cache cap) = Some (answers, c) /\ repr c l.
Proof.
  intros Hcap. assert (repr (empty_cache cap) []) as Hr by apply (repr_clear (empty_cache cap)).
  revert Hr Hcap. change cap with (_capacity (empty_cache cap)) at 2 3.
  generalize (empty_cache cap) as c. generalize (@nil (K * V)) as bs. revert answers.
  induction ops as [|o ops IH]; intros answers bs c Hr Hcap Hrun; cbn [spec_run run] in *.
  - injection Hrun as <- <-. eauto.
  - apply bind_Some in Hrun as ([a bs1] & Ho & Hrun). apply bind_Some in Hrun as ([r bs2] & Hrun & [= <- <-]).
    destruct (op_refines _ _ _ _ _ Hr Hcap Ho) as (c1 & Hx & Hr1 & Hc1). rewrite Hx. cbn [mbind option_bind].
    rewrite <- Hc1 in Hrun, Hcap. destruct (IH _ _ _ Hr1 Hcap Hrun) as (c2 & Hx2 & Hr2).
    rewrite Hx2. eauto.
Qed.

End Cache.

(** [erase] of a key that is in the cache reads the node it has just
    destroyed. *)
Lemma erase_reads_freed {K V : Type} `{Countable K} (k : K) (v : V) (c : lru_cache) l :
  repr c l -> assoc k l = Some v -> erase k c = None.
Proof.
  intros Hr Ha. pose proof (find_node _ _ k Hr) as Hf. rewrite Ha in Hf.
  destruct Hf as (i & l1 & l2 & Hm & E & _). unfold erase. rewrite Hm.
  unfold erase_iterator, with_items, node_item. cbn [_items].
  rewrite (proj2 (assoc_None _ _)); [done|].
  intros ([n x] & -> & Hin)%list_elem_of_fmap. apply list_elem_of_filter in Hin as [Hne _]. done.
Qed.
