(* ===== verification/Trie.v ===== *)
(** * A map with prefix search (src/crispy/TrieMap.h)

    A node has an optional value and a child per byte; the array of children
    is a partial function on bytes.  [None] from [insert] is a failed
    assertion: an empty key, or a key that is there already. *)
From stdpp Require Import sets.
From S2P Require Import Prelude.

Inductive trie_node (A : Type) := Node (value : option A) (children : Z -> option (trie_node A)).
Arguments Node {A}.

Inductive trie_match (A : Type) := exact_match (value : A) | partial_match | no_match.
Arguments exact_match {A}.
Arguments partial_match {A}.
Arguments no_match {A}.

Record trie_map (A : Type) := mk_trie { _root : trie_node A; _size : Z }.
Arguments mk_trie {A}.
Arguments _root {A}.
Arguments _size {A}.

Section Trie.
Context {A : Type}.
Implicit Types (n : trie_node A) (t : trie_map A) (key : list Z).

Definition node_value n : option A := let '(Node v _) := n in v.
Definition child n (i : Z) : option (trie_node A) := let '(Node _ c) := n in c i.

Definition trie_empty : trie_map A := mk_trie (Node None (fun _ => None)) 0.
Definition trie_clear t : trie_map A := mk_trie (Node (node_value (_root t)) (fun _ => None)) 0.

(** [static_cast<uint8_t>(element)] *)
Definition childIndex (element : Z) : Z := u8 element.

(** The descent of [insert], creating the nodes that are missing. *)
Fixpoint insert_node key (value : A) n : option (trie_node A) :=
  match key with
  | [] => match node_value n with Some _ => None | None => Some (Node (Some value) (child n)) end
  | element :: key =>
      let i := childIndex element in
      let next := default (Node None (fun _ => None)) (child n i) in
      next ← insert_node key value next;
      Some (Node (node_value n) (fun j => if j =? i then Some next else child n j))
  end.

Definition insert key (value : A) t : option (trie_map A) :=
  if decide (key = []) then None
  else root ← insert_node key value (_root t); Some (mk_trie root (_size t + 1)).

Fixpoint search_node key (allowWildcardDot : bool) n : trie_match A :=
  match key with
  | [] => match node_value n with Some v => exact_match v | None => partial_match end
  | element :: key =>
      match child n (childIndex element) with
      | Some next => search_node key allowWildcardDot next
      | None =>
          match (if allowWildcardDot then child n 0x2E else None) with
          | Some next => search_node key allowWildcardDot next
          | None => no_match
          end
      end
  end.
Definition search key (allowWildcardDot : bool) t : trie_match A := search_node key allowWildcardDot (_root t).

Definition contains key t : bool :=
  match search key false t with exact_match _ => true | _ => false end.

(** ** A trie holds a list of bindings *)

Definition bytes_ok key : Prop := Forall (fun b => 0 <= b < 256) key.

Lemma childIndex_byte b : 0 <= b < 256 -> childIndex b = b.
Proof. unfold childIndex, u8. intros. by apply Z.mod_small. Qed.

(** The node under a path. *)
Fixpoint node_at key n : option (trie_node A) :=
  match key with
  | [] => Some n
  | b :: key => n ← child n b; node_at key n
  end.

Lemma search_exactly key n : bytes_ok key ->
  search_node key false n =
    match node_at key n with
    | Some m => match node_value m with Some v => exact_match v | None => partial_match end
    | None => no_match
    end.
Proof.
  intros B. revert n. induction B as [|b key Hb B IH]; intros n; [done|]. cbn [search_node node_at].
  rewrite childIndex_byte by done. destruct (child n b); cbn [mbind option_bind]; [apply IH|done].
Qed.

(** The bindings of a node, by path. *)
Definition binds n key : option A := n ← node_at key n; node_value n.
Definition reachable n key : Prop := is_Some (node_at key n).

(** A node holds the bindings [l]: their values, and paths to their prefixes
    only. *)
Definition holds n (l : list (list Z * A)) : Prop :=
  (forall key v, binds n key = Some v <-> (key, v) ∈ l) /\
  (forall key, reachable n key <-> key = [] \/ exists b, b ∈ l /\ key `prefix_of` b.1).

Lemma node_at_insert key value n n' : bytes_ok key -> insert_node key value n = Some n' ->
  binds n key = None /\
  (forall k, binds n' k = if decide (k = key) then Some value else binds n k) /\
  (forall k, reachable n' k <-> reachable n k \/ k `prefix_of` key).
Proof.
  intros B. revert n n'. induction B as [|b key Hb B IH]; intros n n' E; cbn [insert_node] in E.
  - unfold binds, reachable. destruct n as [[w|] c]; cbn in E; [done|]. injection E as <-. split_and!; [done| |].
    + intros [|b k]; [done|]. rewrite decide_False by done. done.
    + intros [|b k]; cbn; split; intros Hk; eauto using prefix_nil.
      * destruct Hk as [Hk|Hk]; [done|]. by apply prefix_nil_not in Hk.
  - rewrite childIndex_byte in E by done. apply bind_Some in E as (m & E & [= <-]).
    set (next := default _ _) in E. destruct (IH next m E) as (N & V & R).
    assert (Enext : forall k, binds n (b :: k) = binds next k /\ (reachable n (b :: k) <-> (is_Some (child n b) /\ reachable next k))).
    { intros k. unfold binds, reachable, next. cbn [node_at]. destruct (child n b) as [x|]; cbn [mbind option_bind default].
      - split; [done|]. split; [intros; split; [by eexists|done]|by intros []].
      - split; [by destruct k|]. split; [by intros []|by intros [[] _]]. }
    split_and!; [by rewrite (proj1 (Enext key))| |].
    + intros [|c k]; [by rewrite decide_False|].
      change (binds (Node (node_value n) (fun j => if j =? b then Some m else child n j)) (c :: k))
        with ((x ← (if c =? b then Some m else child n c); node_at k x) ≫= node_value).
      destruct (Z.eqb_spec c b) as [->|Hc].
      * cbn [mbind option_bind]. change (node_at k m ≫= node_value) with (binds m k). rewrite V.
        destruct (decide (k = key)) as [->|Hk]; [by rewrite decide_True|]. rewrite decide_False by congruence.
        by rewrite (proj1 (Enext k)).
      * by rewrite decide_False by congruence.
    + intros [|c k]; [split; [left|]; by eexists|].
      change (reachable (Node (node_value n) (fun j => if j =? b then Some m else child n j)) (c :: k))
        with (is_Some (x ← (if c =? b then Some m else child n c); node_at k x)).
      destruct (Z.eqb_spec c b) as [->|Hc].
      * cbn [mbind option_bind]. change (is_Some (node_at k m)) with (reachable m k). rewrite R, (proj2 (Enext k)).
        split.
        -- intros [Hk|Hk]; [|right; by apply prefix_cons]. unfold next in Hk. destruct (child n b) as [x|] eqn:Ex.
           ++ left. split; [by eexists|done].
           ++ destruct k as [|d k]; [right; apply prefix_cons, prefix_nil|]. by destruct Hk.
        -- intros [[_ Hk]|Hk]; [by left|right]. by apply prefix_cons_inv_2 in Hk.
      * split; [by left|]. intros [Hk|Hk]; [done|]. by apply prefix_cons_inv_1 in Hk.
Qed.

Lemma insert_node_some key value n : bytes_ok key -> binds n key = None -> is_Some (insert_node key value n).
Proof.
  intros B. revert n. induction B as [|b key Hb B IH]; intros n N; cbn [insert_node].
  - destruct n as [[w|] c]; cbn in N |- *; [done|by eexists].
  - rewrite childIndex_byte by done. destruct (IH (default (Node None (fun _ => None)) (child n b))) as [m ->].
    + unfold binds in *. cbn [node_at] in N. destruct (child n b) as [x|]; cbn in *; [done|]. by destruct key.
    + by eexists.
Qed.

Lemma holds_empty : holds (Node None (fun _ => None)) [].
Proof.
  split.
  - intros key v. rewrite elem_of_nil. by destruct key.
  - intros key. unfold reachable. split.
    + destruct key; [by left|by intros []].
    + intros [->|(b & Hb & _)]; [by eexists|]. by apply elem_of_nil in Hb.
Qed.

Lemma holds_insert l key value n n' :
  holds n l -> bytes_ok key -> insert_node key value n = Some n' -> holds n' (l ++ [(key, value)]).
Proof.
  intros [V R] B E. destruct (node_at_insert key value n n' B E) as (N & V' & R'). split.
  - intros k v. rewrite V', elem_of_app, list_elem_of_singleton. destruct (decide (k = key)) as [->|Hk].
    + split; [intros [= ->]; by right|]. intros [Hin|[= ->]]; [|done]. apply V in Hin. congruence.
    + rewrite V. split; [by left|]. intros [?|[=]]; [done|congruence].
  - intros k. rewrite R', R. setoid_rewrite elem_of_app. setoid_rewrite list_elem_of_singleton. split.
    + intros [[->|(b & Hb & Hp)]|Hp]; [by left|right; eauto|right; exists (key, value); auto].
    + intros [->|(b & [Hb| ->] & Hp)]; eauto 6.
Qed.

(** Inserting bindings one after another. *)
Definition insert_all (l : list (list Z * A)) t : option (trie_map A) :=
  foldl (fun r b => t ← r; insert b.1 b.2 t) (Some t) l.

Lemma insert_all_holds l t l0 :
  holds (_root t) l0 -> NoDup (l0 ++ l).*1 -> Forall (fun b => b.1 <> [] /\ bytes_ok b.1) l ->
  exists t', insert_all l t = Some t' /\ holds (_root t') (l0 ++ l) /\ _size t' = _size t + Z.of_nat (length l).
Proof.
  revert t l0. induction l as [|[key v] l IH]; intros t l0 Ht Hd F.
  - exists t. rewrite app_nil_r. split_and!; [done|done|cbn; lia].
  - apply Forall_cons in F as [[Hn Hb] F]. cbn [fst] in *. unfold insert_all. cbn [foldl mbind option_bind fst snd].
    rewrite fmap_app, fmap_cons in Hd. cbn [fst] in Hd.
    assert (N : binds (_root t) key = None).
    { destruct (binds (_root t) key) as [w|] eqn:E; [|done]. apply Ht in E. apply NoDup_app in Hd as (_ & Hd & _).
      destruct (Hd key); [|by left]. apply list_elem_of_fmap. by exists (key, w). }
    destruct (insert_node_some key v (_root t) Hb N) as [root E].
    unfold insert at 2. rewrite decide_False, E by done. cbn [mbind option_bind].
    destruct (IH (mk_trie root (_size t + 1)) (l0 ++ [(key, v)])) as (t' & E' & H' & S').
    + by eapply holds_insert.
    + by rewrite <- app_assoc, fmap_app.
    + done.
    + exists t'. rewrite <- app_assoc in H'. split_and!; [exact E'|exact H'|]. cbn [_size length] in *. lia.
Qed.

(** A trie built from bindings with distinct keys answers every search as
    the bindings say: an exact match is the key's value, a partial match is a
    key that only begins other keys, and everything else is no match. *)
Lemma trie_search_correct l :
  NoDup l.*1 -> Forall (fun b => b.1 <> [] /\ bytes_ok b.1) l ->
  exists t, insert_all l trie_empty = Some t /\ _size t = Z.of_nat (length l) /\
    forall key, bytes_ok key ->
      match search key false t with
      | exact_match v => (key, v) ∈ l
      | partial_match => (key ∉ l.*1) /\ (key = [] \/ exists b, b ∈ l /\ key `prefix_of` b.1)
      | no_match => key <> [] /\ forall b, b ∈ l -> ~ key `prefix_of` b.1
      end.
Proof.
  intros Hd F. destruct (insert_all_holds l trie_empty [] holds_empty Hd F) as (t & E & [V R] & S).
  exists t. split_and!; [exact E|exact S|]. intros key B. unfold search. rewrite search_exactly by done.
  cbn [app] in V, R. specialize (V key). specialize (R key). unfold binds, reachable in V, R.
  destruct (node_at key (_root t)) as [m|]; cbn [mbind option_bind] in V.
  - destruct (node_value m) as [v|]; [by apply V|]. split; [|by apply R].
    intros (b & -> & Hb)%list_elem_of_fmap. destruct b as [k v]. by apply V in Hb.
  - split; [intros ->; by destruct (proj2 R (or_introl eq_refl))|]. intros b Hb Hp.
    destruct (proj2 R) as [? [=]]. eauto.
Qed.

(** ** Wildcards *)

(** A pattern matches a key of its length: a dot stands for any byte. *)
Definition matches (pattern key : list Z) : Prop := Forall2 (fun p k => p = k \/ p = 0x2E) pattern key.

Lemma search_wildcard_sound key n v : bytes_ok key -> search_node key true n = exact_match v ->
  exists pattern, matches pattern key /\ binds n pattern = Some v.
Proof.
  intros B. revert n. induction B as [|b key Hb B IH]; intros n E; cbn [search_node] in E.
  - exists []. split; [constructor|]. unfold binds. cbn. destruct (node_value n); congruence.
  - rewrite childIndex_byte in E by done. destruct (child n b) as [x|] eqn:Ex.
    + destruct (IH x E) as (p & M & V). exists (b :: p). split; [constructor; auto|]. unfold binds. cbn [node_at]. by rewrite Ex.
    + destruct (child n 0x2E) as [x|] eqn:Ed; [|done]. destruct (IH x E) as (p & M & V).
      exists (0x2E :: p). split; [constructor; auto|]. unfold binds. cbn [node_at]. by rewrite Ed.
Qed.

(** Where a key follows the specific children it is found as without dots. *)
Lemma search_wildcard_exact key n v : search_node key false n = exact_match v -> search_node key true n = exact_match v.
Proof.
  revert n. induction key as [|b key IH]; intros n E; [done|]. cbn [search_node] in *.
  destruct (child n (childIndex b)); [by apply IH|done].
Qed.

End Trie.

(** A dot never gets a second chance: behind the byte that has a child of its
    own, the patterns that begin with a dot are out of reach. *)
Example wildcard_greedy :
  (t ← insert_all [([0x61; 0x62], 1); ([0x2E; 0x63], 2)] trie_empty;
   Some (search [0x61; 0x63] true t, search [0x7A; 0x63] true t)) = Some (no_match, exact_match 2).
Proof. vm_compute. reflexivity. Qed.
