(* ===== verification/Functions.v ===== *)
(** * VT function definitions and their selection

    [vtbackend/Functions.h], [Functions.cpp] and the two enums of [VTType.h]:
    the table of supported functions, its ordering, the 32-bit identifiers,
    the binary search that maps a sequence to its function, and the set of
    enabled functions ([class SupportedSequences]).  The documentation strings
    of the C++ records are left out. *)
From S2P Require Import Prelude ParserTable Parser Sequence Sort.

(** [enum class VTType], with its integer values. *)
Inductive VTType :=
| VT100 | VT220 | VT240 | VT330 | VT340 | VT320 | VT420 | VT510 | VT520 | VT525.

Definition VTType_value (vt : VTType) : Z :=
  match vt with
  | VT100 => 0 | VT220 => 1 | VT240 => 2 | VT330 => 18 | VT340 => 19
  | VT320 => 24 | VT420 => 41 | VT510 => 61 | VT520 => 64 | VT525 => 65
  end.

(** [enum class VTExtension]. *)
Inductive VTExtension := Ext_None | Ext_Unknown | Ext_XTerm | Ext_Contour.

(** [struct Function]. *)
Record Function := mkFunction {
  category : FunctionCategory;
  leader : Z;
  intermediate : Z;
  finalSymbol : Z;
  minimumParameters : Z;
  maximumParameters : Z;
  conformanceLevel : VTType;
  extension : VTExtension
}.

#[export] Instance VTType_eq_dec : EqDecision VTType.
Proof. solve_decision. Defined.
#[export] Instance VTExtension_eq_dec : EqDecision VTExtension.
Proof. solve_decision. Defined.
#[export] Instance Function_eq_dec : EqDecision Function.
Proof. solve_decision. Defined.

(** The values of [enum class FunctionCategory]. *)
Definition FunctionCategory_value (c : FunctionCategory) : Z :=
  match c with C0 => 0 | ESC => 1 | CSI => 2 | OSC => 3 | DCS => 4 end.

(** [Function::id]. *)
Definition Function_id (f : Function) : Z :=
  let maskCat := FunctionCategory_value (category f) in
  let maskLeader :=
    if leader f =? 0 then 0 else u32 (Z.shiftl (u32 (leader f - 0x3C)) 3) in
  let maskInterm :=
    if intermediate f =? 0 then 0 else u32 (Z.shiftl (u32 (intermediate f - 0x20 + 1)) 6) in
  let maskFinalS :=
    if finalSymbol f =? 0 then 0 else u32 (Z.shiftl (u32 (finalSymbol f - 0x40)) 10) in
  let maskMinPar := u32 (Z.shiftl (minimumParameters f) 17) in
  let maskMaxPar := u32 (Z.shiftl (maximumParameters f) 21) in
  Z.lor (Z.lor (Z.lor (Z.lor (Z.lor maskCat maskLeader) maskInterm) maskFinalS) maskMinPar)
    maskMaxPar.

(** [compare(Function, Function)]. *)
Definition compare (a b : Function) : Z :=
  if negb (bool_decide (category a = category b)) then
    FunctionCategory_value (category a) - FunctionCategory_value (category b)
  else if negb (finalSymbol a =? finalSymbol b) then finalSymbol a - finalSymbol b
  else if negb (leader a =? leader b) then leader a - leader b
  else if negb (intermediate a =? intermediate b) then intermediate a - intermediate b
  else if negb (minimumParameters a =? minimumParameters b) then
    minimumParameters a - minimumParameters b
  else maximumParameters a - maximumParameters b.

(** [compare(FunctionSelector, Function)]. *)
Definition compare_selector (a : FunctionSelector) (b : Function) : Z :=
  if negb (bool_decide (sel_category a = category b)) then
    FunctionCategory_value (sel_category a) - FunctionCategory_value (category b)
  else if negb (sel_finalSymbol a =? finalSymbol b) then sel_finalSymbol a - finalSymbol b
  else if negb (sel_leader a =? leader b) then sel_leader a - leader b
  else if negb (sel_intermediate a =? intermediate b) then
    sel_intermediate a - intermediate b
  else if bool_decide (sel_category a = OSC) then sel_argc a - maximumParameters b
  else if sel_argc a <? minimumParameters b then -1
  else if maximumParameters b <? sel_argc a then 1
  else 0.

(** ** The definitions *)

Definition detail_C0 (finalCharacter : Z) (vt : VTType) : Function :=
  mkFunction C0 0 0 finalCharacter 0 0 vt Ext_None.
Definition detail_OSC (code : Z) (ext : VTExtension) : Function :=
  mkFunction OSC 0 0 0 0 code VT100 ext.
Definition detail_ESC (intermediate finalCharacter : Z) (vt : VTType) : Function :=
  mkFunction ESC 0 intermediate finalCharacter 0 0 vt Ext_None.
Definition detail_CSI (leader argc0 argc1 intermediate finalCharacter : Z) (vt : VTType)
    (ext : VTExtension) : Function :=
  mkFunction CSI leader intermediate finalCharacter argc0 argc1 vt ext.
Definition detail_DCS (leader argc0 argc1 intermediate finalCharacter : Z) (vt : VTType)
    (ext : VTExtension) : Function :=
  mkFunction DCS leader intermediate finalCharacter argc0 argc1 vt ext.

Definition ArgsMax : Z := 127.

Module Fn.
Definition EOT : Function := detail_C0 0x04 VT100.
Definition BEL : Function := detail_C0 0x07 VT100.
Definition BS : Function := detail_C0 0x08 VT100.
Definition TAB : Function := detail_C0 0x09 VT100.
Definition LF : Function := detail_C0 0x0A VT100.
Definition VT : Function := detail_C0 0x0B VT100.
Definition FF : Function := detail_C0 0x0C VT100.
Definition CR : Function := detail_C0 0x0D VT100.
Definition LS1 : Function := detail_C0 0x0E VT220.
Definition LS0 : Function := detail_C0 0x0F VT220.
Definition DECALN : Function := detail_ESC 0x23 0x38 VT100.
Definition DECBI : Function := detail_ESC 0 0x36 VT100.
Definition DECFI : Function := detail_ESC 0 0x39 VT100.
Definition DECKPAM : Function := detail_ESC 0 0x3D VT100.
Definition DECKPNM : Function := detail_ESC 0 0x3E VT100.
Definition DECRS : Function := detail_ESC 0 0x38 VT100.
Definition DECSC : Function := detail_ESC 0 0x37 VT100.
Definition HTS : Function := detail_ESC 0 0x48 VT100.
Definition IND : Function := detail_ESC 0 0x44 VT100.
Definition NEL : Function := detail_ESC 0 0x45 VT100.
Definition RI : Function := detail_ESC 0 0x4D VT100.
Definition RIS : Function := detail_ESC 0 0x63 VT100.
Definition SCS_G0_SPECIAL : Function := detail_ESC 0x28 0x30 VT100.
Definition SCS_G0_USASCII : Function := detail_ESC 0x28 0x42 VT100.
Definition SCS_G1_SPECIAL : Function := detail_ESC 0x29 0x30 VT100.
Definition SCS_G1_USASCII : Function := detail_ESC 0x29 0x42 VT100.
Definition SS2 : Function := detail_ESC 0 0x4E VT220.
Definition SS3 : Function := detail_ESC 0 0x4F VT220.
Definition ANSIDSR : Function := detail_CSI 0 1 1 0 0x6E VT100 Ext_None.
Definition ANSISYSSC : Function := detail_CSI 0 0 0 0 0x75 VT100 Ext_None.
Definition CBT : Function := detail_CSI 0 0 1 0 0x5A VT100 Ext_None.
Definition CHA : Function := detail_CSI 0 0 1 0 0x47 VT100 Ext_None.
Definition CHT : Function := detail_CSI 0 0 1 0 0x49 VT100 Ext_None.
Definition CNL : Function := detail_CSI 0 0 1 0 0x45 VT100 Ext_None.
Definition CPL : Function := detail_CSI 0 0 1 0 0x46 VT100 Ext_None.
Definition CSIUENHCE : Function := detail_CSI 0x3D 1 2 0 0x75 VT100 Ext_Unknown.
Definition CSIUENTER : Function := detail_CSI 0x3E 0 1 0 0x75 VT100 Ext_Unknown.
Definition CSIULEAVE : Function := detail_CSI 0x3C 0 1 0 0x75 VT100 Ext_Unknown.
Definition CSIUQUERY : Function := detail_CSI 0x3F 0 0 0 0x75 VT100 Ext_Unknown.
Definition CUB : Function := detail_CSI 0 0 1 0 0x44 VT100 Ext_None.
Definition CUD : Function := detail_CSI 0 0 1 0 0x42 VT100 Ext_None.
Definition CUF : Function := detail_CSI 0 0 1 0 0x43 VT100 Ext_None.
Definition CUP : Function := detail_CSI 0 0 2 0 0x48 VT100 Ext_None.
Definition CUU : Function := detail_CSI 0 0 1 0 0x41 VT100 Ext_None.
Definition DA1 : Function := detail_CSI 0 0 1 0 0x63 VT100 Ext_None.
Definition DA2 : Function := detail_CSI 0x3E 0 1 0 0x63 VT100 Ext_None.
Definition DA3 : Function := detail_CSI 0x3D 0 1 0 0x63 VT100 Ext_None.
Definition DCH : Function := detail_CSI 0 0 1 0 0x50 VT100 Ext_None.
Definition DECCARA : Function := detail_CSI 0 5 ArgsMax 0x24 0x72 VT420 Ext_None.
Definition DECCRA : Function := detail_CSI 0 0 8 0x24 0x76 VT420 Ext_None.
Definition DECDC : Function := detail_CSI 0 0 1 0x27 0x7E VT420 Ext_None.
Definition DECERA : Function := detail_CSI 0 0 4 0x24 0x7A VT420 Ext_None.
Definition DECFRA : Function := detail_CSI 0 0 5 0x24 0x78 VT420 Ext_None.
Definition DECIC : Function := detail_CSI 0 0 1 0x27 0x7D VT420 Ext_None.
Definition DECPS : Function := detail_CSI 0 3 18 0x2C 0x7E VT520 Ext_None.
Definition DECRM : Function := detail_CSI 0x3F 1 ArgsMax 0 0x6C VT100 Ext_None.
Definition DECRQM : Function := detail_CSI 0x3F 1 1 0x24 0x70 VT100 Ext_None.
Definition DECRQM_ANSI : Function := detail_CSI 0 1 1 0x24 0x70 VT100 Ext_None.
Definition DECRQPSR : Function := detail_CSI 0 1 1 0x24 0x77 VT320 Ext_None.
Definition DECSASD : Function := detail_CSI 0 0 1 0x24 0x7D VT420 Ext_None.
Definition DECSCA : Function := detail_CSI 0 0 1 0x22 0x71 VT240 Ext_None.
Definition DECSCL : Function := detail_CSI 0 2 2 0x22 0x70 VT220 Ext_None.
Definition DECSCPP : Function := detail_CSI 0 0 1 0x24 0x7C VT100 Ext_None.
Definition DECSCUSR : Function := detail_CSI 0 0 1 0x20 0x71 VT520 Ext_None.
Definition DECSED : Function := detail_CSI 0x3F 0 1 0 0x4A VT240 Ext_None.
Definition DECSEL : Function := detail_CSI 0x3F 0 1 0 0x4B VT240 Ext_None.
Definition DECSERA : Function := detail_CSI 0 0 4 0x24 0x7B VT240 Ext_None.
Definition DECSLRM : Function := detail_CSI 0 0 2 0 0x73 VT420 Ext_None.
Definition DECSM : Function := detail_CSI 0x3F 1 ArgsMax 0 0x68 VT100 Ext_None.
Definition DECSNLS : Function := detail_CSI 0 0 1 0x2A 0x7C VT420 Ext_None.
Definition DECSSCLS : Function := detail_CSI 0 0 1 0x20 0x70 VT510 Ext_None.
Definition DECSSDT : Function := detail_CSI 0 0 1 0x24 0x7E VT320 Ext_None.
Definition DECSTBM : Function := detail_CSI 0 0 2 0 0x72 VT100 Ext_None.
Definition DECSTR : Function := detail_CSI 0 0 0 0x21 0x70 VT100 Ext_None.
Definition DECXCPR : Function := detail_CSI 0 0 0 0 0x36 VT100 Ext_None.
Definition DL : Function := detail_CSI 0 0 1 0 0x4D VT100 Ext_None.
Definition DSR : Function := detail_CSI 0x3F 1 1 0 0x6E VT100 Ext_None.
Definition ECH : Function := detail_CSI 0 0 1 0 0x58 VT420 Ext_None.
Definition ED : Function := detail_CSI 0 0 ArgsMax 0 0x4A VT100 Ext_None.
Definition EL : Function := detail_CSI 0 0 1 0 0x4B VT100 Ext_None.
Definition HPA : Function := detail_CSI 0 1 1 0 0x60 VT100 Ext_None.
Definition HPR : Function := detail_CSI 0 1 1 0 0x61 VT100 Ext_None.
Definition HVP : Function := detail_CSI 0 0 2 0 0x66 VT100 Ext_None.
Definition ICH : Function := detail_CSI 0 0 1 0 0x40 VT420 Ext_None.
Definition IL : Function := detail_CSI 0 0 1 0 0x4C VT100 Ext_None.
Definition REP : Function := detail_CSI 0 1 1 0 0x62 VT100 Ext_None.
Definition RM : Function := detail_CSI 0 1 ArgsMax 0 0x6C VT100 Ext_None.
Definition SCOSC : Function := detail_CSI 0 0 0 0 0x73 VT100 Ext_None.
Definition SD : Function := detail_CSI 0 0 1 0 0x54 VT100 Ext_None.
Definition SETMARK : Function := detail_CSI 0x3E 0 0 0 0x4D VT100 Ext_Contour.
Definition SGR : Function := detail_CSI 0 0 ArgsMax 0 0x6D VT100 Ext_None.
Definition SM : Function := detail_CSI 0 1 ArgsMax 0 0x68 VT100 Ext_None.
Definition SU : Function := detail_CSI 0 0 1 0 0x53 VT100 Ext_None.
Definition TBC : Function := detail_CSI 0 0 1 0 0x67 VT100 Ext_None.
Definition VPA : Function := detail_CSI 0 0 1 0 0x64 VT100 Ext_None.
Definition WINMANIP : Function := detail_CSI 0 1 3 0 0x74 VT100 Ext_XTerm.
Definition XTCAPTURE : Function := detail_CSI 0x3E 0 2 0 0x74 VT100 Ext_Contour.
Definition XTPOPCOLORS : Function := detail_CSI 0 0 ArgsMax 0x23 0x51 VT100 Ext_XTerm.
Definition XTPUSHCOLORS : Function := detail_CSI 0 0 ArgsMax 0x23 0x50 VT100 Ext_XTerm.
Definition SGRRESTORE : Function := detail_CSI 0 0 0 0x23 0x7D VT100 Ext_XTerm.
Definition SGRSAVE : Function := detail_CSI 0 0 0 0x23 0x7B VT100 Ext_XTerm.
Definition XTREPORTCOLORS : Function := detail_CSI 0 0 0 0x23 0x52 VT100 Ext_XTerm.
Definition XTRESTORE : Function := detail_CSI 0x3F 0 ArgsMax 0 0x72 VT100 Ext_XTerm.
Definition XTSAVE : Function := detail_CSI 0x3F 0 ArgsMax 0 0x73 VT100 Ext_XTerm.
Definition XTSHIFTESCAPE : Function := detail_CSI 0x3E 0 1 0 0x73 VT100 Ext_XTerm.
Definition XTSMGRAPHICS : Function := detail_CSI 0x3F 2 4 0 0x53 VT100 Ext_XTerm.
Definition XTVERSION : Function := detail_CSI 0x3E 0 1 0 0x71 VT100 Ext_XTerm.
Definition DECRQSS : Function := detail_DCS 0 0 0 0x24 0x71 VT420 Ext_None.
Definition DECSIXEL : Function := detail_DCS 0 0 3 0 0x71 VT330 Ext_None.
Definition STP : Function := detail_DCS 0 0 0 0x24 0x70 VT100 Ext_Contour.
Definition XTGETTCAP : Function := detail_DCS 0 0 0 0x2B 0x71 VT100 Ext_XTerm.
Definition CLIPBOARD : Function := detail_OSC 52 Ext_XTerm.
Definition COLORBG : Function := detail_OSC 11 Ext_XTerm.
Definition COLORCURSOR : Function := detail_OSC 12 Ext_XTerm.
Definition COLORFG : Function := detail_OSC 10 Ext_XTerm.
Definition COLORMOUSEBG : Function := detail_OSC 14 Ext_XTerm.
Definition COLORMOUSEFG : Function := detail_OSC 13 Ext_XTerm.
Definition COLORSPECIAL : Function := detail_OSC 106 Ext_XTerm.
Definition DUMPSTATE : Function := detail_OSC 888 Ext_Contour.
Definition HYPERLINK : Function := detail_OSC 8 Ext_Unknown.
Definition NOTIFY : Function := detail_OSC 777 Ext_XTerm.
Definition RCOLORBG : Function := detail_OSC 111 Ext_XTerm.
Definition RCOLORCURSOR : Function := detail_OSC 112 Ext_XTerm.
Definition RCOLORFG : Function := detail_OSC 110 Ext_XTerm.
Definition RCOLORHIGHLIGHTBG : Function := detail_OSC 117 Ext_XTerm.
Definition RCOLORHIGHLIGHTFG : Function := detail_OSC 119 Ext_XTerm.
Definition RCOLORMOUSEBG : Function := detail_OSC 114 Ext_XTerm.
Definition RCOLORMOUSEFG : Function := detail_OSC 113 Ext_XTerm.
Definition RCOLPAL : Function := detail_OSC 104 Ext_XTerm.
Definition SETCOLPAL : Function := detail_OSC 4 Ext_XTerm.
Definition SETCWD : Function := detail_OSC 7 Ext_XTerm.
Definition SETFONT : Function := detail_OSC 50 Ext_XTerm.
Definition SETFONTALL : Function := detail_OSC 60 Ext_Contour.
Definition SETICON : Function := detail_OSC 1 Ext_XTerm.
Definition SETTITLE : Function := detail_OSC 0 Ext_XTerm.
Definition SETWINTITLE : Function := detail_OSC 2 Ext_XTerm.
Definition SETXPROP : Function := detail_OSC 3 Ext_XTerm.
End Fn.

(** [allFunctionsArray]. *)
Definition allFunctionsArray : list Function :=
  [Fn.EOT; Fn.BEL; Fn.BS; Fn.TAB; Fn.LF; Fn.VT; Fn.FF; Fn.CR; Fn.LS0; Fn.LS1; Fn.DECALN; Fn.DECBI; Fn.DECFI; Fn.DECKPAM; Fn.DECKPNM;
   Fn.DECRS; Fn.DECSC; Fn.HTS; Fn.IND; Fn.NEL; Fn.RI; Fn.RIS; Fn.SCS_G0_SPECIAL; Fn.SCS_G0_USASCII; Fn.SCS_G1_SPECIAL;
   Fn.SCS_G1_USASCII; Fn.SS2; Fn.SS3; Fn.ANSISYSSC; Fn.XTCAPTURE; Fn.CBT; Fn.CHA; Fn.CHT; Fn.CNL; Fn.CPL; Fn.CUB; Fn.CUD; Fn.CUF;
   Fn.CUP; Fn.CUU; Fn.DA1; Fn.DA2; Fn.DA3; Fn.DCH; Fn.DECCARA; Fn.DECCRA; Fn.DECDC; Fn.DECERA; Fn.DECFRA; Fn.DECIC; Fn.DECSCA;
   Fn.DECSED; Fn.DECSERA; Fn.DECSEL; Fn.ANSIDSR; Fn.DSR; Fn.XTRESTORE; Fn.XTSAVE; Fn.DECPS; Fn.CSIUENTER; Fn.CSIUQUERY;
   Fn.CSIUENHCE; Fn.CSIULEAVE; Fn.DECRM; Fn.DECRQM; Fn.DECRQM_ANSI; Fn.DECRQPSR; Fn.DECSASD; Fn.DECSCL; Fn.DECSCPP;
   Fn.DECSCUSR; Fn.DECSLRM; Fn.DECSSCLS; Fn.DECSM; Fn.DECSNLS; Fn.DECSSDT; Fn.DECSTBM; Fn.DECSTR; Fn.DECXCPR; Fn.DL; Fn.ECH;
   Fn.ED; Fn.EL; Fn.HPA; Fn.HPR; Fn.HVP; Fn.ICH; Fn.IL; Fn.REP; Fn.RM; Fn.SCOSC; Fn.SD; Fn.SETMARK; Fn.SGR; Fn.SGRRESTORE; Fn.SGRSAVE;
   Fn.SM; Fn.SU; Fn.TBC; Fn.VPA; Fn.WINMANIP; Fn.XTPOPCOLORS; Fn.XTPUSHCOLORS; Fn.XTREPORTCOLORS; Fn.XTSHIFTESCAPE;
   Fn.XTSMGRAPHICS; Fn.XTVERSION; Fn.STP; Fn.DECRQSS; Fn.DECSIXEL; Fn.XTGETTCAP; Fn.SETICON; Fn.SETTITLE;
   Fn.SETWINTITLE; Fn.SETXPROP; Fn.SETCOLPAL; Fn.SETCWD; Fn.HYPERLINK; Fn.COLORFG; Fn.COLORBG; Fn.COLORCURSOR;
   Fn.COLORMOUSEFG; Fn.COLORMOUSEBG; Fn.SETFONT; Fn.SETFONTALL; Fn.CLIPBOARD; Fn.RCOLPAL; Fn.COLORSPECIAL;
   Fn.RCOLORFG; Fn.RCOLORBG; Fn.RCOLORCURSOR; Fn.RCOLORMOUSEFG; Fn.RCOLORMOUSEBG; Fn.RCOLORHIGHLIGHTFG;
   Fn.RCOLORHIGHLIGHTBG; Fn.NOTIFY; Fn.DUMPSTATE].

(** [allFunctions]. *)
Definition allFunctions : list Function := default [] (sort compare allFunctionsArray).

(** ** Selection: [select] of [Functions.cpp] *)

(** The loop, with the inclusive bounds [a] and [b]; [None] is an access outside
    the span (or no fuel left), [Some None] the null pointer. *)
Fixpoint select_loop (fuel : nat) (sel : FunctionSelector) (defs : list Function) (a b : Z)
    : option (option Function) :=
  match fuel with
  | O => None
  | S fuel =>
      if a <=? b then
        let i := (a + b) / 2 in
        fui ← defs !! Z.to_nat i;
        let rel := compare_selector sel fui in
        if 0 <? rel then select_loop fuel sel defs (i + 1) b
        else if rel <? 0 then
          if i =? 0 then Some None else select_loop fuel sel defs a (i - 1)
        else Some (Some fui)
      else Some None
  end.

Definition select (sel : FunctionSelector) (defs : list Function) : option (option Function) :=
  select_loop (S (length defs)) sel defs 0 (u64 (Z.of_nat (length defs) - 1)).

Definition selectEscape (intermediate finalCharacter : Z) (defs : list Function) :=
  select (mkFunctionSelector ESC 0 0 intermediate finalCharacter) defs.
Definition selectControl (leader argc intermediate finalCharacter : Z) (defs : list Function) :=
  select (mkFunctionSelector CSI leader argc intermediate finalCharacter) defs.
Definition selectOSCommand (id : Z) (defs : list Function) :=
  select (mkFunctionSelector OSC 0 id 0 0) defs.

(** [Sequence::functionDefinition]. *)
Definition functionDefinition (s : Sequence) (defs : list Function) : option (option Function) :=
  select (selector s) defs.

Example allFunctions_length : length allFunctions = 137%nat.
Proof. vm_compute. reflexivity. Qed.
Example select_cup :
  selectControl 0 2 0 0x48 allFunctions = Some (Some Fn.CUP).
Proof. vm_compute. reflexivity. Qed.

(** ** The set of enabled functions: [class SupportedSequences] *)

Record SupportedSequences := mkSupported {
  _supportedSequences : list Function;
  _lastIndex : nat
}.

Definition SupportedSequences_init : SupportedSequences :=
  mkSupported allFunctions (length allFunctions).

Definition allSequences (s : SupportedSequences) : list Function := _supportedSequences s.
Definition activeSequences (s : SupportedSequences) : list Function :=
  take (_lastIndex s) (_supportedSequences s).

(** Sort the active part, leave the rest. *)
Definition sort_active (arr : list Function) (n : nat) : option SupportedSequences :=
  active ← sort compare (take n arr);
  Some (mkSupported (active ++ drop n arr) n).

(** [std::partition] leaves the order inside both parts open: the library's
    choice is an argument, its contract a class. *)
Class StdPartition := {
  std_partition : (Function -> bool) -> list Function -> list Function * nat;
  std_partition_perm P l : (std_partition P l).1 ≡ₚ l;
  std_partition_index P l : ((std_partition P l).2 <= length l)%nat;
  std_partition_yes P l : Forall (fun x => P x = true)
    (take (std_partition P l).2 (std_partition P l).1);
  std_partition_no P l : Forall (fun x => P x = false)
    (drop (std_partition P l).2 (std_partition P l).1)
}.

(** [SupportedSequences::reset]. *)
Definition reset `{StdPartition} (vt : VTType) (s : SupportedSequences)
    : option SupportedSequences :=
  let '(arr, n) := std_partition
    (fun f => VTType_value (conformanceLevel f) <=? VTType_value vt) (_supportedSequences s) in
  sort_active arr n.

(** [std::find] with [operator==] on functions. *)
Definition std_find (seq : Function) (l : list Function) : option nat :=
  fst <$> list_find (fun f => compare f seq = 0) l.

(** [SupportedSequences::disableSequence]: [std::rotate] moves the found element
    to the end of the array. *)
Definition disableSequence (seq : Function) (s : SupportedSequences) : SupportedSequences :=
  match std_find seq (activeSequences s) with
  | Some i =>
      let arr := _supportedSequences s in
      mkSupported (take i arr ++ drop (S i) arr ++ take 1 (drop i arr)) (_lastIndex s - 1)
  | None => s
  end.

(** [SupportedSequences::enableSequence]. *)
Definition enableSequence (seq : Function) (s : SupportedSequences)
    : option SupportedSequences :=
  match std_find seq (drop (_lastIndex s) (_supportedSequences s)) with
  | Some i =>
      arr ← swap (_supportedSequences s) (_lastIndex s) (_lastIndex s + i);
      sort_active arr (S (_lastIndex s))
  | None => Some s
  end.

(** The two calls [Terminal::setMode(DECMode::LeftRightMargin, enable)] makes. *)
Definition setLeftRightMargin (enable : bool) (s : SupportedSequences)
    : option SupportedSequences :=
  if enable then
    s ← enableSequence Fn.DECSLRM s; Some (disableSequence Fn.SCOSC s)
  else
    s ← enableSequence Fn.SCOSC s; Some (disableSequence Fn.DECSLRM s).

(** ** The order on functions *)

Lemma FunctionCategory_value_inj c d :
  FunctionCategory_value c = FunctionCategory_value d -> c = d.
Proof. by destruct c, d. Qed.

(** [compare] in terms of the category numbers, for arithmetic. *)
Lemma category_decide c d :
  bool_decide (c = d) = (FunctionCategory_value c =? FunctionCategory_value d).
Proof. by destruct c, d. Qed.

Ltac split_compare :=
  unfold compare, compare_selector; rewrite ?category_decide;
  repeat match goal with
  | |- context [?x =? ?y] => destruct (Z.eqb_spec x y)
  | |- context [?x <? ?y] => destruct (Z.ltb_spec x y)
  end; cbn [negb]; try lia.

Abbreviation cat f := (FunctionCategory_value (category f)).
Abbreviation scat f := (FunctionCategory_value (sel_category f)).

Lemma compare_le x y :
  compare x y <= 0 <->
  cat x < cat y \/ cat x = cat y /\
  (finalSymbol x < finalSymbol y \/ finalSymbol x = finalSymbol y /\
  (leader x < leader y \/ leader x = leader y /\
  (intermediate x < intermediate y \/ intermediate x = intermediate y /\
  (minimumParameters x < minimumParameters y \/ minimumParameters x = minimumParameters y /\
   maximumParameters x <= maximumParameters y)))).
Proof. split_compare. Qed.

Lemma compare_eq x y :
  compare x y = 0 <->
  cat x = cat y /\ finalSymbol x = finalSymbol y /\ leader x = leader y /\
  intermediate x = intermediate y /\ minimumParameters x = minimumParameters y /\
  maximumParameters x = maximumParameters y.
Proof. split_compare. Qed.

Lemma compare_selector_neg s f :
  compare_selector s f < 0 <->
  scat s < cat f \/ scat s = cat f /\
  (sel_finalSymbol s < finalSymbol f \/ sel_finalSymbol s = finalSymbol f /\
  (sel_leader s < leader f \/ sel_leader s = leader f /\
  (sel_intermediate s < intermediate f \/ sel_intermediate s = intermediate f /\
  (scat s = 3 /\ sel_argc s < maximumParameters f \/
   scat s <> 3 /\ sel_argc s < minimumParameters f)))).
Proof. split_compare. all: change (FunctionCategory_value OSC) with 3 in *; lia. Qed.

Lemma compare_selector_pos s f :
  0 < compare_selector s f <->
  cat f < scat s \/ scat s = cat f /\
  (finalSymbol f < sel_finalSymbol s \/ sel_finalSymbol s = finalSymbol f /\
  (leader f < sel_leader s \/ sel_leader s = leader f /\
  (intermediate f < sel_intermediate s \/ sel_intermediate s = intermediate f /\
  (scat s = 3 /\ maximumParameters f < sel_argc s \/
   scat s <> 3 /\ minimumParameters f <= sel_argc s /\ maximumParameters f < sel_argc s)))).
Proof. split_compare. all: change (FunctionCategory_value OSC) with 3 in *; lia. Qed.

Lemma compare_total x y : compare x y <= 0 \/ compare y x <= 0.
Proof. rewrite !compare_le. lia. Qed.

Lemma compare_trans x y z : compare x y <= 0 -> compare y z <= 0 -> compare x z <= 0.
Proof. rewrite !compare_le. lia. Qed.

(** Everything but the parameter range. *)
Definition same_key (f g : Function) : bool :=
  bool_decide (category f = category g) && (finalSymbol f =? finalSymbol g) &&
  (leader f =? leader g) && (intermediate f =? intermediate g).

(** What a table needs for the binary search to be exact: parameter ranges are
    not empty, and two entries with the same key do not nest. *)
Definition well_ranged (f : Function) : bool :=
  bool_decide (category f = OSC) || (minimumParameters f <=? maximumParameters f).

Definition ladder (f g : Function) : bool :=
  negb (same_key f g) || (0 <? compare f g) || (maximumParameters f <=? maximumParameters g).

Lemma ladder_max f g :
  ladder f g = true -> compare f g <= 0 ->
  cat f = cat g -> finalSymbol f = finalSymbol g -> leader f = leader g ->
  intermediate f = intermediate g -> maximumParameters f <= maximumParameters g.
Proof.
  unfold ladder, same_key. rewrite category_decide. intros Hl Hle Hc Hf Hd Hi.
  rewrite Hc, Hf, Hd, Hi, !Z.eqb_refl in Hl. simpl in Hl. lia.
Qed.

Lemma selector_below sel f g :
  compare f g <= 0 -> ladder f g = true ->
  compare_selector sel f < 0 -> compare_selector sel g < 0.
Proof.
  intros Hle Hlad. pose proof (ladder_max f g Hlad Hle) as Hmax.
  rewrite compare_le in Hle. rewrite !compare_selector_neg. lia.
Qed.

Lemma selector_above sel f g :
  compare f g <= 0 -> ladder f g = true -> well_ranged f = true ->
  0 < compare_selector sel g -> 0 < compare_selector sel f.
Proof.
  intros Hle Hlad Hr. pose proof (ladder_max f g Hlad Hle) as Hmax.
  assert (Hr' : cat f = 3 \/ minimumParameters f <= maximumParameters f).
  { unfold well_ranged in Hr. rewrite category_decide in Hr.
    change (FunctionCategory_value OSC) with 3 in Hr. lia. }
  rewrite compare_le in Hle. rewrite !compare_selector_pos. lia.
Qed.

(** ** The binary search *)

Definition sorted_functions (l : list Function) : Prop :=
  forall i j f g, (i < j)%nat -> l !! i = Some f -> l !! j = Some g -> compare f g <= 0.

Record searchable (defs : list Function) : Prop := {
  searchable_sorted : sorted_functions defs;
  searchable_ladder f g : f ∈ defs -> g ∈ defs -> ladder f g = true;
  searchable_ranged f : f ∈ defs -> well_ranged f = true
}.

(** What [select] has to return. *)
Definition select_result (sel : FunctionSelector) (defs : list Function) (r : option Function)
    : Prop :=
  match r with
  | Some f => f ∈ defs /\ compare_selector sel f = 0
  | None => forall f, f ∈ defs -> compare_selector sel f ≠ 0
  end.

Lemma searchable_lookup_below sel defs i j f g :
  searchable defs -> (i <= j)%nat -> defs !! i = Some f -> defs !! j = Some g ->
  compare_selector sel f < 0 -> compare_selector sel g < 0.
Proof.
  intros [Hs Hl Hr] Hij Hf Hg. destruct (decide (i = j)) as [->|]; [by simplify_eq|].
  apply selector_below.
  - eapply Hs; [|done|done]. lia.
  - apply Hl; eapply list_elem_of_lookup_2; eauto.
Qed.

Lemma searchable_lookup_above sel defs i j f g :
  searchable defs -> (i <= j)%nat -> defs !! i = Some f -> defs !! j = Some g ->
  0 < compare_selector sel g -> 0 < compare_selector sel f.
Proof.
  intros [Hs Hl Hr] Hij Hf Hg. destruct (decide (i = j)) as [->|]; [by simplify_eq|].
  apply selector_above.
  - eapply Hs; [|done|done]. lia.
  - apply Hl; eapply list_elem_of_lookup_2; eauto.
  - apply Hr. eapply list_elem_of_lookup_2; eauto.
Qed.

Lemma select_loop_spec fuel sel defs a b :
  searchable defs -> 0 <= a -> b < Z.of_nat (length defs) -> 0 <= b ->
  b - a + 1 < Z.of_nat fuel -> a <= b + 1 ->
  (forall i f, Z.of_nat i < a -> defs !! i = Some f -> 0 < compare_selector sel f) ->
  (forall i f, b < Z.of_nat i -> defs !! i = Some f -> compare_selector sel f < 0) ->
  exists r, select_loop fuel sel defs a b = Some r /\ select_result sel defs r.
Proof.
  intros Hdefs. revert a b. induction fuel as [|fuel IH]; intros a b Ha Hb Hb0 Hf Hab Hlo Hhi;
    [lia|]. simpl.
  destruct (Z.leb_spec a b) as [Hle|Hgt].
  2: { exists None. split; [done|]. intros f [i Hi]%list_elem_of_lookup_1 Hz.
       destruct (Z.lt_ge_cases (Z.of_nat i) a).
       - specialize (Hlo i f). lia || (pose proof (Hlo ltac:(lia) Hi); lia).
       - pose proof (Hhi i f ltac:(lia) Hi). lia. }
  set (i := (a + b) / 2).
  assert (Hi : a <= i <= b) by (subst i; split; [apply Z.div_le_lower_bound|
    apply Z.div_le_upper_bound]; lia).
  destruct (lookup_lt_is_Some_2 defs (Z.to_nat i)) as [fui Hfui]; [lia|].
  rewrite Hfui. cbn [mbind option_bind].
  destruct (Z.ltb_spec 0 (compare_selector sel fui)) as [Hpos|Hnpos].
  - apply IH; try lia.
    + intros k f Hk Hkf. eapply (searchable_lookup_above _ _ k (Z.to_nat i)); eauto. lia.
    + intros k f Hk. apply Hhi. lia.
  - destruct (Z.ltb_spec (compare_selector sel fui) 0) as [Hneg|Hnneg].
    + destruct (Z.eqb_spec i 0) as [H0|H0].
      * exists None. split; [done|]. intros f [k Hk]%list_elem_of_lookup_1.
        assert (compare_selector sel f < 0); [|lia].
        eapply (searchable_lookup_below _ _ (Z.to_nat i) k); eauto. lia.
      * apply IH; try lia.
        -- intros k f Hk. apply Hlo. lia.
        -- intros k f Hk Hkf. eapply (searchable_lookup_below _ _ (Z.to_nat i) k); eauto. lia.
    + exists (Some fui). split; [done|]. split; [by eapply list_elem_of_lookup_2|lia].
Qed.

Lemma select_spec sel defs :
  searchable defs -> defs ≠ [] -> Z.of_nat (length defs) < 2 ^ 64 ->
  exists r, select sel defs = Some r /\ select_result sel defs r.
Proof.
  intros Hs Hne H64. unfold select.
  assert (0 < length defs)%nat by (destruct defs; [done|simpl; lia]).
  rewrite u64_small by lia. apply select_loop_spec; try done; try lia.
  intros i f Hi Hf%lookup_lt_Some. lia.
Qed.

(** ** The table and the enabled functions *)

Lemma table_ladder f g :
  f ∈ allFunctionsArray -> g ∈ allFunctionsArray -> ladder f g = true.
Proof.
  assert (Hall : forallb (fun f => forallb (ladder f) allFunctionsArray) allFunctionsArray = true)
    by (vm_compute; reflexivity).
  rewrite forallb_forall in Hall. intros Hf%list_elem_of_In Hg%list_elem_of_In.
  specialize (Hall f Hf). rewrite forallb_forall in Hall. by apply Hall.
Qed.

Lemma table_ranged f : f ∈ allFunctionsArray -> well_ranged f = true.
Proof.
  assert (Hall : forallb well_ranged allFunctionsArray = true) by (vm_compute; reflexivity).
  rewrite forallb_forall in Hall. intros Hf%list_elem_of_In. by apply Hall.
Qed.

(** No two entries of the table compare equal. *)
Lemma table_distinct f g :
  f ∈ allFunctionsArray -> g ∈ allFunctionsArray -> compare f g = 0 -> f = g.
Proof.
  assert (Hall : forallb (fun f => forallb (fun g =>
      negb (compare f g =? 0) || bool_decide (f = g)) allFunctionsArray) allFunctionsArray = true)
    by (vm_compute; reflexivity).
  rewrite forallb_forall in Hall. intros Hf%list_elem_of_In Hg%list_elem_of_In Hz.
  specialize (Hall f Hf). rewrite forallb_forall in Hall. specialize (Hall g Hg).
  rewrite Hz in Hall. simpl in Hall. by apply (bool_decide_eq_true_1 _) in Hall.
Qed.

Lemma table_NoDup : NoDup allFunctionsArray.
Proof. apply (bool_decide_eq_true_1 _). vm_compute. reflexivity. Qed.

(** The representation invariant of [SupportedSequences]. *)
Record supported_inv (s : SupportedSequences) : Prop := {
  inv_perm : _supportedSequences s ≡ₚ allFunctionsArray;
  inv_index : (_lastIndex s <= length (_supportedSequences s))%nat;
  inv_sorted : sorted_functions (activeSequences s)
}.

Lemma active_in_table s f : supported_inv s -> f ∈ activeSequences s -> f ∈ allFunctionsArray.
Proof.
  intros Hi Hf. rewrite <- (inv_perm _ Hi). unfold activeSequences in Hf.
  by eapply elem_of_take in Hf as (i & Hf & _); eapply list_elem_of_lookup_2.
Qed.

Lemma inv_searchable s : supported_inv s -> searchable (activeSequences s).
Proof.
  intros Hi. split.
  - apply (inv_sorted _ Hi).
  - intros f g Hf Hg. apply table_ladder; by eapply active_in_table.
  - intros f Hf. apply table_ranged. by eapply active_in_table.
Qed.

Lemma sort_active_spec arr n :
  arr ≡ₚ allFunctionsArray -> (n <= length arr)%nat ->
  exists s, sort_active arr n = Some s /\ supported_inv s /\ _lastIndex s = n /\
    activeSequences s ≡ₚ take n arr.
Proof.
  intros Hp Hn. unfold sort_active.
  assert (Hlen : length arr = 137%nat) by (by rewrite (Permutation_length Hp)).
  destruct (sort_spec compare compare_total compare_trans (take n arr)) as (act & -> & Hperm & Hs).
  { rewrite length_take. lia. }
  cbn [mbind option_bind]. eexists. split; [done|].
  assert (Hact : length act = n).
  { rewrite (Permutation_length Hperm), length_take. lia. }
  assert (Htake : take n (act ++ drop n arr) = act).
  { by rewrite take_app_le, take_ge by lia. }
  split; [split|split].
  - simpl. by rewrite Hperm, take_drop.
  - simpl. rewrite length_app. lia.
  - unfold activeSequences. simpl. rewrite Htake. exact Hs.
  - done.
  - unfold activeSequences. simpl. by rewrite Htake.
Qed.

Lemma init_inv : supported_inv SupportedSequences_init.
Proof.
  unfold SupportedSequences_init, allFunctions.
  destruct (sort_spec compare compare_total compare_trans allFunctionsArray)
    as (act & Hsort & Hperm & Hs); [done|].
  rewrite Hsort. split; simpl; [done|done|].
  unfold activeSequences. simpl. rewrite take_ge by done. exact Hs.
Qed.

Lemma std_find_Some seq l i :
  std_find seq l = Some i -> exists f, l !! i = Some f /\ compare f seq = 0.
Proof.
  unfold std_find. destruct (list_find _ l) as [[k f]|] eqn:E; [|done].
  intros [= <-]. apply list_find_Some in E as (Hk & Hz & _). eauto.
Qed.

Lemma std_find_None seq l f : std_find seq l = None -> f ∈ l -> compare f seq ≠ 0.
Proof.
  unfold std_find. destruct (list_find _ l) as [[k g]|] eqn:E; [done|]. intros _ Hf.
  apply list_find_None in E. rewrite Forall_forall in E. by apply E.
Qed.

Lemma sorted_delete l i : sorted_functions l -> sorted_functions (delete i l).
Proof.
  intros Hs a b f g Hab Hf Hg.
  assert (Hidx : forall k x, delete i l !! k = Some x ->
    l !! (if decide (k < i)%nat then k else S k) = Some x).
  { intros k x Hx. case_decide.
    - by rewrite list_lookup_delete_lt in Hx.
    - by rewrite list_lookup_delete_ge in Hx by lia. }
  apply Hidx in Hf. apply Hidx in Hg.
  eapply Hs; [|exact Hf|exact Hg]. repeat case_decide; lia.
Qed.

(** The rotation removes one element from the active part. *)
Lemma take_rotate {A} (arr : list A) i n :
  (i < n <= length arr)%nat ->
  take (n - 1) (take i arr ++ drop (S i) arr ++ take 1 (drop i arr)) = delete i (take n arr).
Proof.
  intros Hi. rewrite delete_take_drop.
  rewrite take_take, Nat.min_l by lia. rewrite skipn_firstn_comm.
  rewrite take_app_ge by (rewrite length_take; lia). rewrite length_take, Nat.min_l by lia.
  f_equal. rewrite take_app_le by (rewrite length_drop; lia). f_equal. lia.
Qed.

Lemma rotate_perm {A} (arr : list A) i :
  take i arr ++ drop (S i) arr ++ take 1 (drop i arr) ≡ₚ arr.
Proof.
  rewrite (Permutation_app_comm (drop (S i) arr)).
  assert (H : take 1 (drop i arr) ++ drop (S i) arr = drop i arr).
  { rewrite <- (take_drop 1 (drop i arr)) at 2. by rewrite drop_drop, Nat.add_1_r. }
  by rewrite H, take_drop.
Qed.

Lemma disable_spec seq s :
  supported_inv s ->
  supported_inv (disableSequence seq s) /\
  (forall f, f ∈ activeSequences (disableSequence seq s) <->
             f ∈ activeSequences s /\ compare f seq ≠ 0).
Proof.
  intros Hi. unfold disableSequence.
  destruct (std_find seq (activeSequences s)) as [i|] eqn:E.
  - destruct (std_find_Some _ _ _ E) as (g & Hg & Hz).
    pose proof (lookup_lt_Some _ _ _ Hg) as Hlt.
    unfold activeSequences in Hlt. rewrite length_take in Hlt.
    pose proof (inv_index _ Hi) as Hidx.
    assert (Hact : activeSequences (mkSupported (take i (_supportedSequences s) ++
        drop (S i) (_supportedSequences s) ++ take 1 (drop i (_supportedSequences s)))
        (_lastIndex s - 1)) = delete i (activeSequences s)).
    { unfold activeSequences. simpl. apply take_rotate. lia. }
    split.
    + split; simpl.
      * rewrite rotate_perm. apply (inv_perm _ Hi).
      * rewrite (Permutation_length (rotate_perm _ _)). lia.
      * rewrite Hact. apply sorted_delete, (inv_sorted _ Hi).
    + intros f. rewrite Hact.
      assert (Hnd : NoDup (activeSequences s)).
      { pose proof table_NoDup as Hnd. rewrite <- (inv_perm _ Hi) in Hnd.
        rewrite <- (take_drop (_lastIndex s) (_supportedSequences s)) in Hnd.
        by apply NoDup_app in Hnd as [? _]. }
      pose proof (delete_Permutation _ _ _ Hg) as Hperm.
      set (rest := delete i (activeSequences s)) in *. clearbody rest.
      rewrite Hperm, elem_of_cons. rewrite Hperm in Hnd.
      apply NoDup_cons in Hnd as [Hng _].
      split; [|naive_solver].
      intros Hf. split; [by right|]. intros Hzf. apply Hng.
      assert (f = g) as <-; [|done].
      apply table_distinct.
      * eapply active_in_table; [exact Hi|]. rewrite Hperm. by right.
      * eapply active_in_table; [exact Hi|]. rewrite Hperm. by left.
      * rewrite compare_eq in *. lia.
  - split; [done|]. intros f. split; [|naive_solver].
    intros Hf. split; [done|]. by eapply std_find_None.
Qed.

Lemma enable_spec seq s :
  supported_inv s ->
  exists s', enableSequence seq s = Some s' /\ supported_inv s' /\
    (forall f, f ∈ activeSequences s' <->
               f ∈ activeSequences s \/ f ∈ allFunctionsArray /\ compare f seq = 0).
Proof.
  intros Hi. unfold enableSequence.
  destruct (std_find seq (drop (_lastIndex s) (_supportedSequences s))) as [i|] eqn:E.
  - destruct (std_find_Some _ _ _ E) as (g & Hg & Hz). rewrite lookup_drop in Hg.
    pose proof (lookup_lt_Some _ _ _ Hg) as Hlt.
    destruct (swap_Some (_supportedSequences s) (_lastIndex s) (_lastIndex s + i))
      as [arr Harr]; [lia|lia|].
    rewrite Harr. cbn [mbind option_bind].
    pose proof (fun k => swap_lookup _ _ _ _ k Harr) as Hlk.
    pose proof (swap_length _ _ _ _ Harr) as Hlen.
    destruct (sort_active_spec arr (S (_lastIndex s))) as (s' & Hs' & Hi' & Hidx & Hact).
    { rewrite (swap_perm _ _ _ _ Harr). apply (inv_perm _ Hi). }
    { lia. }
    exists s'. split; [done|]. split; [done|].
    assert (Htake : take (S (_lastIndex s)) arr = activeSequences s ++ [g]).
    { rewrite (take_S_r _ _ g).
      - f_equal. unfold activeSequences. apply list_eq. intros k.
        destruct (decide (k < _lastIndex s)%nat).
        + rewrite !lookup_take_lt, Hlk by lia. by repeat case_decide; try lia.
        + by rewrite !lookup_take_ge by lia.
      - rewrite Hlk. case_decide as H1; [|by case_decide].
        rewrite <- Hg. f_equal. lia. }
    intros f. rewrite Hact, Htake, elem_of_app, list_elem_of_singleton.
    assert (g ∈ allFunctionsArray) as Hgt.
    { rewrite <- (inv_perm _ Hi). by eapply list_elem_of_lookup_2. }
    split.
    + intros [?| ->]; eauto.
    + intros [?|[Hf Hzf]]; [by left|right]. apply table_distinct; [done|done|].
      rewrite compare_eq in *. lia.
  - exists s. split; [done|]. split; [done|]. intros f. split; [naive_solver|].
    intros [?|[Hf Hzf]]; [done|]. rewrite <- (inv_perm _ Hi) in Hf.
    rewrite <- (take_drop (_lastIndex s) (_supportedSequences s)), elem_of_app in Hf.
    destruct Hf as [Hf|Hf]; [done|]. by eapply std_find_None in Hf.
Qed.

Lemma reset_spec `{StdPartition} vt s :
  supported_inv s ->
  exists s', reset vt s = Some s' /\ supported_inv s' /\
    (forall f, f ∈ activeSequences s' <->
       f ∈ allFunctionsArray /\ VTType_value (conformanceLevel f) <= VTType_value vt).
Proof.
  intros Hi. unfold reset.
  set (P := fun f => VTType_value (conformanceLevel f) <=? VTType_value vt).
  pose proof (std_partition_perm P (_supportedSequences s)) as Hperm.
  pose proof (std_partition_index P (_supportedSequences s)) as Hidx.
  pose proof (std_partition_yes P (_supportedSequences s)) as Hyes.
  pose proof (std_partition_no P (_supportedSequences s)) as Hno.
  destruct (std_partition P (_supportedSequences s)) as [arr n]. simpl in *.
  assert (Hall : arr ≡ₚ allFunctionsArray) by (by rewrite Hperm, (inv_perm _ Hi)).
  destruct (sort_active_spec arr n Hall) as (s' & -> & Hi' & _ & Hact).
  { by rewrite (Permutation_length Hperm). }
  exists s'. split; [done|]. split; [done|]. intros f. rewrite Hact, <- Hall.
  rewrite Forall_forall in Hyes, Hno.
  rewrite <- (take_drop n arr) at 2. rewrite elem_of_app. subst P. simpl in *.
  split.
  - intros Hf. split; [by left|]. specialize (Hyes f Hf). lia.
  - intros [[Hf|Hf] Hv]; [done|]. specialize (Hno f Hf). lia.
Qed.

(** The states of [SupportedSequences] a terminal can be in. *)
Inductive supported_reachable `{StdPartition} : SupportedSequences -> Prop :=
| sr_init : supported_reachable SupportedSequences_init
| sr_reset vt s s' : supported_reachable s -> reset vt s = Some s' -> supported_reachable s'
| sr_enable f s s' : supported_reachable s -> enableSequence f s = Some s' -> supported_reachable s'
| sr_disable f s : supported_reachable s -> supported_reachable (disableSequence f s).

Lemma reachable_inv `{StdPartition} s : supported_reachable s -> supported_inv s.
Proof.
  induction 1 as [|vt s s' _ IH Hs|f s s' _ IH Hs|f s _ IH].
  - apply init_inv.
  - destruct (reset_spec vt s IH) as (s'' & Hs'' & Hi & _). congruence.
  - destruct (enable_spec f s IH) as (s'' & Hs'' & Hi & _). congruence.
  - by apply disable_spec.
Qed.

(** A partition that keeps the order inside both parts, for the witnesses. *)
Lemma filter_parts_perm (P : Function -> bool) l :
  filter (fun x => P x = true) l ++ filter (fun x => P x = false) l ≡ₚ l.
Proof.
  induction l as [|x l IH]; [done|]. rewrite !filter_cons.
  destruct (P x); simpl; rewrite ?decide_True, ?decide_False by done; simpl; [by rewrite IH|].
  by rewrite <- Permutation_middle, IH.
Qed.

#[export] Instance stable_partition : StdPartition.
Proof.
  refine (Build_StdPartition (fun P l =>
    (filter (fun x => P x = true) l ++ filter (fun x => P x = false) l,
     length (filter (fun x => P x = true) l))) _ _ _ _).
  - apply filter_parts_perm.
  - intros P l. simpl. apply length_filter.
  - intros P l. simpl. rewrite take_app_length.
    apply Forall_forall. intros x Hx. by apply list_elem_of_filter in Hx as [? _].
  - intros P l. simpl. rewrite drop_app_length.
    apply Forall_forall. intros x Hx. by apply list_elem_of_filter in Hx as [? _].
Defined.

(** ** Properties *)

(** C6: Selecting a function is exact in every configuration with at least one active function:
    whatever conformance level is selected and whichever functions were enabled or disabled, the
    binary search over the active functions terminates inside the table, returns a function that
    accepts the category, leader, intermediate, final byte and argument count of the sequence,
    and returns null only when no active function does. *)
Theorem select_active_correct (P : StdPartition) (s : SupportedSequences)
    (sel : FunctionSelector) :
  supported_reachable s -> activeSequences s ≠ [] ->
  exists r, select sel (activeSequences s) = Some r /\ select_result sel (activeSequences s) r.
Proof.
  intros Hr Hne. pose proof (reachable_inv s Hr) as Hi.
  apply select_spec; [by apply inv_searchable|done|].
  unfold activeSequences. rewrite length_take, (Permutation_length (inv_perm _ Hi)).
  change (length allFunctionsArray) with 137%nat. lia.
Qed.

Lemma select_active_correct_witness :
  exists r, select (mkFunctionSelector CSI 0 2 0 0x48)
      (activeSequences (disableSequence Fn.DECSLRM SupportedSequences_init)) = Some r /\
    select_result (mkFunctionSelector CSI 0 2 0 0x48)
      (activeSequences (disableSequence Fn.DECSLRM SupportedSequences_init)) r.
Proof.
  apply (select_active_correct stable_partition).
  - apply sr_disable, sr_init.
  - vm_compute. discriminate.
Defined.

(** the 32-bit function identifiers are a perfect hash: no two functions of
    the table share one, so a switch over [Function::id] is unambiguous. *)
Lemma function_ids_perfect : NoDup (Function_id <$> allFunctionsArray).
Proof. apply (bool_decide_eq_true_1 _). vm_compute. reflexivity. Qed.

(** Switching DECLRMM leaves exactly one owner of [CSI s]: from every
    reachable configuration the switch succeeds, DECSLRM is active exactly when
    the mode is set, SCOSC exactly when it is reset, and no other function is
    affected. *)
Lemma left_right_margin_exclusive (P : StdPartition) (s : SupportedSequences) (enable : bool) :
  supported_reachable s ->
  exists s', setLeftRightMargin enable s = Some s' /\ supported_reachable s' /\
    (Fn.DECSLRM ∈ activeSequences s' <-> enable = true) /\
    (Fn.SCOSC ∈ activeSequences s' <-> enable = false) /\
    (forall f, f ≠ Fn.DECSLRM -> f ≠ Fn.SCOSC ->
       f ∈ activeSequences s' <-> f ∈ activeSequences s).
Proof.
  intros Hr. pose proof (reachable_inv s Hr) as Hi.
  assert (HL : Fn.DECSLRM ∈ allFunctionsArray)
    by (apply (bool_decide_eq_true_1 _); vm_compute; reflexivity).
  assert (HO : Fn.SCOSC ∈ allFunctionsArray)
    by (apply (bool_decide_eq_true_1 _); vm_compute; reflexivity).
  assert (Hother : forall f g s0, supported_inv s0 -> f ∈ activeSequences s0 ->
    g ∈ allFunctionsArray -> compare f g = 0 -> f = g).
  { intros f g s0 Hi0 Hf Hg. apply table_distinct; [by eapply active_in_table|done]. }
  unfold setLeftRightMargin.
  destruct enable.
  - destruct (enable_spec Fn.DECSLRM s Hi) as (s1 & Hs1 & Hi1 & Ha1). rewrite Hs1. simpl.
    destruct (disable_spec Fn.SCOSC s1 Hi1) as [Hi2 Ha2].
    eexists. split; [done|]. split; [by apply sr_disable, (sr_enable _ _ _ Hr Hs1)|].
    split; [|split].
    + rewrite Ha2, Ha1. split; [done|]. intros _. split; [by right|done].
    + rewrite Ha2. split; [|done]. by intros [_ ?].
    + intros f HnL HnO. rewrite Ha2, Ha1. split.
      * intros [[?|[Hf Hz]] _]; [done|]. by apply table_distinct in Hz.
      * intros Hf. split; [by left|]. intros Hz. by apply HnO, (Hother f Fn.SCOSC s Hi Hf HO).
  - destruct (enable_spec Fn.SCOSC s Hi) as (s1 & Hs1 & Hi1 & Ha1). rewrite Hs1. simpl.
    destruct (disable_spec Fn.DECSLRM s1 Hi1) as [Hi2 Ha2].
    eexists. split; [done|]. split; [by apply sr_disable, (sr_enable _ _ _ Hr Hs1)|].
    split; [|split].
    + rewrite Ha2. split; [|done]. by intros [_ ?].
    + rewrite Ha2, Ha1. split; [done|]. intros _. split; [by right|done].
    + intros f HnL HnO. rewrite Ha2, Ha1. split.
      * intros [[?|[Hf Hz]] _]; [done|]. by apply table_distinct in Hz.
      * intros Hf. split; [by left|]. intros Hz. by apply HnL, (Hother f Fn.DECSLRM s Hi Hf HL).
Qed.

Lemma left_right_margin_exclusive_witness :
  exists s', setLeftRightMargin true SupportedSequences_init = Some s' /\
    supported_reachable (H := stable_partition) s' /\
    (Fn.DECSLRM ∈ activeSequences s' <-> true = true) /\
    (Fn.SCOSC ∈ activeSequences s' <-> true = false) /\
    (forall f, f ≠ Fn.DECSLRM -> f ≠ Fn.SCOSC ->
       f ∈ activeSequences s' <-> f ∈ activeSequences SupportedSequences_init).
Proof. apply (left_right_margin_exclusive stable_partition). apply sr_init. Defined.
