(* ===== verification/Ring.v ===== *)
(** * crispy::basic_ring and crispy::ring (src/crispy/ring.h)

    A ring is a storage vector with the index [_zero] of its logical first
    element.  An access out of the vector (an empty ring) is [None].  Below
    the operations, [view] is the abstract sequence a ring stands for and the
    lemmas [view_*] say what each operation does to it; the grid is verified
    against these lemmas only. *)
From S2P Require Import Prelude.

Record ring (T : Type) := mk_ring { _storage : list T; _zero : Z }.
Arguments mk_ring {T}.
Arguments _storage {T}.
Arguments _zero {T}.

Section Ring.
Context {T : Type}.
Implicit Types (r : ring T) (v : T).

Definition size r : Z := Z.of_nat (length (_storage r)).

(** [size_t(offset_type(_zero + size()) + i) % size()]: the sum is a signed
    64-bit value converted to an unsigned one before the remainder. *)
Definition index r (i : Z) : Z := u64 (_zero r + size r + i) mod size r.

Definition at_ r (i : Z) : option T := _storage r !! Z.to_nat (index r i).

(** Assignment through the reference [operator[]] returns. *)
Definition set_at r (i : Z) v : ring T :=
  mk_ring (<[Z.to_nat (index r i) := v]> (_storage r)) (_zero r).

Definition rotate r (count : Z) : ring T :=
  mk_ring (_storage r) (u64 (_zero r + size r - count) mod size r).
Definition rotate_left r (count : Z) : ring T :=
  mk_ring (_storage r) (u64 (_zero r + size r + count) mod size r).
Definition rotate_right r (count : Z) : ring T :=
  mk_ring (_storage r) (u64 (_zero r + size r - count) mod size r).
Definition unrotate r : ring T := mk_ring (_storage r) 0.

Definition front r : option T := at_ r 0.
(** [back] throws [std::length_error] on an empty ring: [None]. *)
Definition back r : option T :=
  if size r =? 0 then None else at_ r (size r - 1).

(** Reading and writing a range through the ring's iterators, which index
    with [operator[]]. *)
Definition read_range r (a n : Z) : option (list T) := mapM (at_ r) (seqZ a n).
Fixpoint write_range r (a : Z) (l : list T) : ring T :=
  match l with
  | [] => r
  | v :: l' => write_range (set_at r a v) (a + 1) l'
  end.

(** [for (i = a; i < a + n; ++i) ring[i] = f(ring[i])]. *)
Definition update_at r (f : T -> option T) (i : Z) : option (ring T) :=
  v ← at_ r i; v' ← f v; Some (set_at r i v').
Fixpoint update_range r (f : T -> option T) (a : Z) (n : nat) : option (ring T) :=
  match n with
  | O => Some r
  | S n' => r' ← update_at r f a; update_range r' f (a + 1) n'
  end.

(** [std::rotate(begin()+first, begin()+middle, begin()+last)]. *)
Definition std_rotate r (first middle last : Z) : option (ring T) :=
  l ← read_range r first (last - first);
  Some (write_range r first
          (drop (Z.to_nat (middle - first)) l ++ take (Z.to_nat (middle - first)) l)).

(** [rezero(iterator)] and [rezero()]. *)
Definition rezero_at r (current : Z) : option (ring T) :=
  r' ← std_rotate r 0 current (size r); Some (unrotate r').
Definition rezero r : option (ring T) :=
  r' ← std_rotate r 0 (_zero r) (size r); Some (unrotate r').

(** [std::vector::resize] value-initialises the new elements. *)
Definition vector_resize (d : T) (l : list T) (n : Z) : list T :=
  take (Z.to_nat n) l ++ replicate (Z.to_nat n - length l) d.
Definition resize (d : T) r (newSize : Z) : option (ring T) :=
  r' ← rezero r; Some (mk_ring (vector_resize d (_storage r') newSize) (_zero r')).
Definition clear r : ring T := mk_ring [] 0.
Definition push_back r v : ring T := mk_ring (_storage r ++ [v]) (_zero r).
Definition emplace_back r v : ring T := push_back r v.
Definition pop_front r : option (ring T) :=
  match _storage r with
  | [] => None
  | _ :: l => Some (mk_ring l (_zero r))
  end.
Definition ring_of (l : list T) : ring T := mk_ring l 0.

(** ** The sequence a ring stands for *)

Definition view r : list T :=
  drop (Z.to_nat (_zero r)) (_storage r) ++ take (Z.to_nat (_zero r)) (_storage r).

(** The storage is addressable and [_zero] points into it. *)
Definition ring_ok r : Prop :=
  size r < 2 ^ 32 /\ 0 <= _zero r /\ (_zero r < size r \/ _zero r = 0).

Lemma view_length r : length (view r) = length (_storage r).
Proof. unfold view. rewrite length_app, length_drop, length_take. lia. Qed.

Lemma size_view r : size r = Z.of_nat (length (view r)).
Proof. by rewrite view_length. Qed.

Lemma view_ring_of l : view (ring_of l) = l.
Proof. unfold view. simpl. by rewrite drop_0, take_0, app_nil_r. Qed.

Lemma index_spec r i :
  ring_ok r -> 0 < size r -> - size r <= i < 2 ^ 62 ->
  index r i = (_zero r + i) mod size r.
Proof.
  intros (Hs & Hz & Hz') Hp Hi. unfold index. rewrite u64_small by lia.
  replace (_zero r + size r + i) with (_zero r + i + 1 * size r) by lia.
  apply Z.mod_add. lia.
Qed.

Lemma view_lookup r (k : nat) :
  ring_ok r -> Z.of_nat k < size r ->
  view r !! k = _storage r !! Z.to_nat ((_zero r + Z.of_nat k) mod size r).
Proof.
  intros (Hs & Hz & Hz') Hk. unfold view, size in *.
  rewrite mod_wrap by lia.
  destruct (Z.ltb_spec (_zero r + Z.of_nat k) (Z.of_nat (length (_storage r)))).
  - rewrite lookup_app_l, lookup_drop by (rewrite length_drop; lia). f_equal. lia.
  - rewrite lookup_app_r, length_drop, lookup_take_lt by (rewrite ?length_drop; lia).
    f_equal. lia.
Qed.

Lemma at_view r i :
  ring_ok r -> 0 < size r -> - size r <= i < size r ->
  at_ r i = view r !! Z.to_nat (i mod size r).
Proof.
  intros Hok Hp Hi. unfold at_. rewrite index_spec by (done || (destruct Hok; lia)).
  pose proof (Z.mod_pos_bound i (size r) Hp).
  rewrite view_lookup by (done || lia). f_equal. f_equal.
  rewrite Z2Nat.id by lia. by rewrite Z.add_mod_idemp_r by lia.
Qed.

Lemma ring_ok_storage r l :
  ring_ok r -> length l = length (_storage r) -> ring_ok (mk_ring l (_zero r)).
Proof. unfold ring_ok, size. simpl. by intros ? ->. Qed.

Lemma set_at_ok r i v : ring_ok r -> ring_ok (set_at r i v).
Proof. intros. apply ring_ok_storage; [done|]. by rewrite length_insert. Qed.

Lemma set_at_size r i v : size (set_at r i v) = size r.
Proof. unfold size. simpl. by rewrite length_insert. Qed.

Lemma view_set_at r i v :
  ring_ok r -> 0 < size r -> - size r <= i < size r ->
  view (set_at r i v) = <[Z.to_nat (i mod size r) := v]> (view r).
Proof.
  intros Hok Hp Hi. apply list_eq. intros k.
  destruct (decide (Z.of_nat k < size r)) as [Hk|Hk].
  2: { rewrite !lookup_ge_None_2; [done| |];
       rewrite ?length_insert, view_length; unfold set_at, size in *; simpl;
       rewrite ?length_insert; lia. }
  pose proof (Z.mod_pos_bound i (size r) Hp) as Hm.
  rewrite view_lookup by (rewrite ?set_at_size; eauto using set_at_ok).
  rewrite set_at_size. unfold set_at. simpl.
  rewrite index_spec by (done || (destruct Hok; lia)).
  pose proof (Z.mod_pos_bound (_zero r + i) (size r) Hp).
  pose proof (Z.mod_pos_bound (_zero r + Z.of_nat k) (size r) Hp).
  destruct (decide (k = Z.to_nat (i mod size r))) as [->|Hne].
  - rewrite Z2Nat.id, Z.add_mod_idemp_r by lia.
    rewrite !list_lookup_insert_eq; [done| |]; unfold size in *; rewrite ?view_length; lia.
  - rewrite !list_lookup_insert_ne; [|lia|].
    + symmetry. by apply view_lookup.
    + intros E. apply Hne. apply Z2Nat.inj in E; [|lia..].
      assert ((i - Z.of_nat k) mod size r = 0) as E'.
      { replace (i - Z.of_nat k) with ((_zero r + i) - (_zero r + Z.of_nat k)) by lia.
        rewrite Zminus_mod, E, Z.sub_diag. apply Z.mod_0_l; lia. }
      apply Z.mod_divide in E'; [|lia]. destruct E' as [q Eq].
      replace i with (Z.of_nat k + q * size r) by lia.
      rewrite Z.mod_add, Z.mod_small by lia. lia.
Qed.

(** ** Ranges *)

Lemma read_range_view r a n :
  ring_ok r -> 0 <= a -> 0 <= n -> a + n <= size r ->
  read_range r a n = Some (take (Z.to_nat n) (drop (Z.to_nat a) (view r))).
Proof.
  intros Hok Ha Hn Han. unfold read_range. apply mapM_Some.
  apply Forall2_same_length_lookup. split.
  - rewrite length_seqZ, length_take, length_drop, view_length. unfold size in *. lia.
  - intros k i x Hi Hx. apply lookup_seqZ in Hi as [-> Hk].
    rewrite at_view by (done || lia). rewrite Z.mod_small by lia.
    rewrite lookup_take_lt, lookup_drop in Hx by lia. rewrite <- Hx. f_equal. lia.
Qed.

Lemma write_range_ok r a l : ring_ok r -> ring_ok (write_range r a l).
Proof. revert r a. induction l; intros; simpl; eauto using set_at_ok. Qed.

Lemma write_range_size r a l : size (write_range r a l) = size r.
Proof. revert r a. induction l as [|v l IH]; intros; simpl; [done|]. by rewrite IH, set_at_size. Qed.

Lemma write_range_zero r a l : _zero (write_range r a l) = _zero r.
Proof. revert r a. induction l as [|v l IH]; intros; simpl; [done|]. by rewrite IH. Qed.

Lemma view_write_range r a l :
  ring_ok r -> 0 <= a -> a + Z.of_nat (length l) <= size r ->
  view (write_range r a l) =
  take (Z.to_nat a) (view r) ++ l ++ drop (Z.to_nat a + length l) (view r).
Proof.
  revert r a. induction l as [|v l IH]; intros r a Hok Ha Hl; simpl in *.
  - by rewrite Nat.add_0_r, take_drop.
  - rewrite IH by (rewrite ?set_at_size; eauto using set_at_ok; lia).
    rewrite view_set_at by (done || lia). rewrite Z.mod_small by lia.
    assert (Hv : (Z.to_nat a < length (view r))%nat)
      by (rewrite view_length; unfold size in *; lia).
    rewrite drop_insert_lt by lia.
    replace (Z.to_nat (a + 1)) with (S (Z.to_nat a)) by lia.
    rewrite (take_S_r _ _ v) by (by apply list_lookup_insert_eq).
    rewrite take_insert_ge by lia.
    rewrite <- app_assoc. simpl. repeat f_equal. lia.
Qed.

Lemma take_drop_middle_range (l : list T) (i k : nat) v :
  l !! i = Some v -> take (S k) (drop i l) = v :: take k (drop (S i) l).
Proof. intros Hv. by rewrite (drop_S l v i Hv). Qed.

Lemma view_update_range r f a n l' :
  ring_ok r -> 0 <= a -> a + Z.of_nat n <= size r ->
  mapM f (take n (drop (Z.to_nat a) (view r))) = Some l' ->
  exists r', update_range r f a n = Some r' /\ ring_ok r' /\ size r' = size r /\ _zero r' = _zero r /\
    view r' = take (Z.to_nat a) (view r) ++ l' ++ drop (Z.to_nat a + n) (view r).
Proof.
  revert r a l'. induction n as [|n IH]; intros r a l' Hok Ha Hn Hm.
  - simpl in Hm. injection Hm as <-. exists r. rewrite Nat.add_0_r. simpl. by rewrite take_drop.
  - assert (Hv : is_Some (view r !! Z.to_nat a))
      by (apply lookup_lt_is_Some_2; rewrite view_length; unfold size in *; lia).
    destruct Hv as [v Hv]. rewrite (take_drop_middle_range _ _ _ v Hv) in Hm.
    cbn [mapM] in Hm. apply bind_Some in Hm as (v' & Hf & Hm). apply bind_Some in Hm as (l'' & Hm & [= <-]).
    cbn [update_range]. unfold update_at.
    rewrite at_view, Z.mod_small, Hv by (done || lia). cbn [mbind option_bind]. rewrite Hf. cbn [mbind option_bind].
    assert (Hview : view (set_at r a v') = <[Z.to_nat a := v']> (view r))
      by (rewrite view_set_at, Z.mod_small by (done || lia); done).
    assert (Ht : Z.to_nat (a + 1) = S (Z.to_nat a)) by lia.
    assert (Hlt : (Z.to_nat a < length (view r))%nat) by (by eapply lookup_lt_Some).
    destruct (IH (set_at r a v') (a + 1) l'') as (r' & E & Hok' & Hs & Hz & Hvw);
      [by apply set_at_ok|lia|rewrite set_at_size; lia| |].
    { rewrite Hview, Ht, drop_insert_lt by lia. done. }
    exists r'. split_and!; [done|done|by rewrite Hs, set_at_size|done|].
    rewrite Hvw, Hview, Ht, drop_insert_lt by lia.
    rewrite (take_S_r _ _ v') by (by apply list_lookup_insert_eq).
    rewrite take_insert_ge, <- app_assoc by lia. simpl. do 4 f_equal. lia.
Qed.

Lemma std_rotate_view r a b c :
  ring_ok r -> 0 <= a -> a <= b -> b <= c -> c <= size r ->
  exists r', std_rotate r a b c = Some r' /\ ring_ok r' /\ size r' = size r /\ _zero r' = _zero r /\
    view r' = take (Z.to_nat a) (view r) ++
              take (Z.to_nat (c - b)) (drop (Z.to_nat b) (view r)) ++
              take (Z.to_nat (b - a)) (drop (Z.to_nat a) (view r)) ++
              drop (Z.to_nat c) (view r).
Proof.
  intros Hok Ha Hab Hbc Hc. unfold std_rotate.
  rewrite read_range_view by (done || lia). cbn [mbind option_bind].
  eexists. split_and!; [done|by apply write_range_ok|apply write_range_size|apply write_range_zero|].
  set (l := take (Z.to_nat (c - a)) (drop (Z.to_nat a) (view r))).
  assert (Hl : length l = Z.to_nat (c - a)).
  { unfold l. rewrite length_take, length_drop, view_length. unfold size in *. lia. }
  rewrite view_write_range; [|done|lia|rewrite length_app, length_drop, length_take; lia].
  rewrite length_app, length_drop, length_take, <- app_assoc. f_equal. f_equal.
  - unfold l. rewrite !take_drop_commute, drop_drop.
    replace (Z.to_nat a + Z.to_nat (b - a))%nat with (Z.to_nat b) by lia.
    do 2 f_equal. lia.
  - f_equal.
    + unfold l. rewrite take_take. f_equal. lia.
    + f_equal. lia.
Qed.

Lemma vector_resize_length (d : T) (l : list T) n : 0 <= n -> length (vector_resize d l n) = Z.to_nat n.
Proof. intros. unfold vector_resize. len. lia. Qed.

(** ** Rotations and re-zeroing *)

Lemma rotate_zero_ok r z : ring_ok r -> 0 < size r -> ring_ok (mk_ring (_storage r) (z mod size r)).
Proof.
  intros (Hs & Hz & Hz') Hp. pose proof (Z.mod_pos_bound z (size r) Hp).
  unfold ring_ok, size in *. simpl. lia.
Qed.

(** Moving [_zero] forward by [k] rotates the view left by [k]. *)
Lemma view_advance r k :
  ring_ok r -> 0 <= k < size r ->
  view (mk_ring (_storage r) ((_zero r + k) mod size r)) =
  drop (Z.to_nat k) (view r) ++ take (Z.to_nat k) (view r).
Proof.
  intros Hok Hk. assert (Hok' : ring_ok (mk_ring (_storage r) ((_zero r + k) mod size r)))
    by (apply rotate_zero_ok; [done|lia]).
  pose proof (view_length r) as Hlen. apply list_eq. intros i.
  destruct (decide (Z.of_nat i < size r)) as [Hi|Hi].
  2: { rewrite !lookup_ge_None_2; [done| |]; unfold size in *.
       - rewrite length_app, length_drop, length_take. lia.
       - rewrite view_length. simpl. lia. }
  rewrite (view_lookup _ i Hok') by done. unfold size at 2 3. simpl. fold (size r).
  rewrite Z.add_mod_idemp_l by lia.
  destruct (decide (Z.of_nat i < size r - k)).
  - rewrite lookup_app_l, lookup_drop by (rewrite length_drop; unfold size in *; lia).
    rewrite view_lookup by (done || lia). f_equal. f_equal. f_equal. lia.
  - rewrite lookup_app_r, length_drop, lookup_take_lt
      by (rewrite ?length_drop; unfold size in *; lia).
    rewrite view_lookup by (done || (unfold size in *; lia)). f_equal. f_equal.
    replace (_zero r + k + Z.of_nat i)
      with (_zero r + Z.of_nat (i - (length (view r) - Z.to_nat k)) + 1 * size r)
      by (unfold size in *; lia).
    rewrite Z.mod_add by lia. done.
Qed.

Lemma view_rotate_left r k :
  ring_ok r -> 0 <= k <= size r -> 0 < size r ->
  view (rotate_left r k) = drop (Z.to_nat k) (view r) ++ take (Z.to_nat k) (view r).
Proof.
  intros Hok Hk Hp. pose proof Hok as (Hs & Hz & Hz'). unfold rotate_left.
  rewrite u64_small by lia.
  destruct (decide (k = size r)) as [->|Hne].
  - replace (_zero r + size r + size r) with ((_zero r + 0) + 2 * size r) by lia.
    rewrite Z.mod_add, view_advance by (done || lia). simpl. rewrite drop_0, take_0, app_nil_r.
    rewrite size_view, Nat2Z.id, drop_all, firstn_all. done.
  - replace (_zero r + size r + k) with ((_zero r + k) + 1 * size r) by lia.
    rewrite Z.mod_add, view_advance by (done || lia). done.
Qed.

Lemma rotate_left_ok r k : ring_ok r -> 0 < size r -> ring_ok (rotate_left r k).
Proof. intros. by apply rotate_zero_ok. Qed.
Lemma rotate_right_ok r k : ring_ok r -> 0 < size r -> ring_ok (rotate_right r k).
Proof. intros. by apply rotate_zero_ok. Qed.

Lemma view_rotate_right r k :
  ring_ok r -> 0 <= k <= size r -> 0 < size r ->
  view (rotate_right r k) =
  drop (length (view r) - Z.to_nat k) (view r) ++ take (length (view r) - Z.to_nat k) (view r).
Proof.
  intros Hok Hk Hp. pose proof Hok as (Hs & Hz & Hz'). pose proof (size_view r) as Hsv.
  unfold rotate_right. rewrite u64_small by lia.
  destruct (decide (k = 0)) as [->|Hne].
  - replace (_zero r + size r - 0) with ((_zero r + 0) + 1 * size r) by lia.
    rewrite Z.mod_add, view_advance by (done || lia). simpl.
    rewrite Nat.sub_0_r, drop_0, take_0, app_nil_r, drop_all, firstn_all. done.
  - replace (_zero r + size r - k) with (_zero r + (size r - k)) by lia.
    rewrite view_advance by (done || lia). f_equal; f_equal; lia.
Qed.

#[local] Hint Resolve rotate_left_ok rotate_right_ok : vt.

Lemma unrotate_ok r : ring_ok r -> ring_ok (unrotate r).
Proof. unfold ring_ok, size. simpl. lia. Qed.

Lemma storage_of_view r : ring_ok r ->
  _storage r = drop (length (view r) - Z.to_nat (_zero r)) (view r) ++
               take (length (view r) - Z.to_nat (_zero r)) (view r).
Proof.
  intros (Hs & Hz & Hz'). rewrite view_length. unfold view, size in *.
  rewrite drop_app_length', take_app_length'; [by rewrite take_drop|rewrite length_drop; lia..].
Qed.

(** Re-zeroing moves the storage but not the sequence. *)
Lemma rezero_view r : ring_ok r ->
  exists r', rezero r = Some r' /\ ring_ok r' /\ _zero r' = 0 /\
             _storage r' = view r /\ view r' = view r.
Proof.
  intros Hok. pose proof Hok as (Hs & Hz & Hz'). pose proof (size_view r) as Hsv.
  destruct (std_rotate_view r 0 (_zero r) (size r)) as (r' & E & Hok' & Hsz & Hz0 & Hv); [done|lia..|].
  assert (Hst : _storage r' = view r).
  { rewrite (storage_of_view r' Hok'), Hz0.
    pose proof (size_view r') as Hsv'. replace (length (view r')) with (length (view r)) by lia.
    rewrite Hv. simpl. rewrite drop_0, Z.sub_0_r.
    rewrite (drop_ge (view r) (Z.to_nat (size r))), app_nil_r by lia.
    rewrite (take_ge (drop _ _)) by (rewrite length_drop; lia).
    rewrite drop_app_length', take_app_length' by (rewrite length_drop; lia).
    apply take_drop. }
  exists (unrotate r'). unfold rezero. rewrite E. cbn [mbind option_bind].
  split_and!; [done|by apply unrotate_ok|done|done|].
  unfold view at 1. simpl. by rewrite drop_0, take_0, app_nil_r, Hst.
Qed.

Lemma view_resize d r n : ring_ok r -> 0 <= n < 2 ^ 32 ->
  exists r', resize d r n = Some r' /\ ring_ok r' /\ _zero r' = 0 /\
             view r' = vector_resize d (view r) n.
Proof.
  intros Hok Hn. destruct (rezero_view r Hok) as (r' & E & Hok' & Hz & Hst & Hv).
  unfold resize. rewrite E. cbn [mbind option_bind]. rewrite Hz, Hst.
  eexists. split_and!; [done| |done|apply view_ring_of].
  unfold ring_ok, size. simpl. unfold vector_resize.
  rewrite length_app, length_take, length_replicate. lia.
Qed.

(** A new element lands behind the last one of the storage, which is the last
    of the sequence exactly when [_zero] is 0. *)
Lemma view_push_back r v : ring_ok r ->
  view (push_back r v) =
  take (length (view r) - Z.to_nat (_zero r)) (view r) ++ v ::
  drop (length (view r) - Z.to_nat (_zero r)) (view r).
Proof.
  intros (Hs & Hz & Hz'). rewrite view_length. unfold view, size in *. simpl.
  set (z := Z.to_nat (_zero r)) in *. set (l := _storage r) in *.
  assert (Hl : (z <= length l)%nat) by lia.
  rewrite (drop_app_le l), (take_app_le l) by done.
  rewrite (take_app_length' (drop z l)), (drop_app_length' (drop z l)) by (len; lia).
  by rewrite <- app_assoc.
Qed.

Lemma push_back_ok r v : ring_ok r -> size r + 1 < 2 ^ 32 -> ring_ok (push_back r v).
Proof. unfold ring_ok, size. simpl. rewrite length_app. simpl. lia. Qed.

Lemma rotate_left_zero r k : ring_ok r -> 0 < size r -> 0 <= k < 2 ^ 32 ->
  _zero (rotate_left r k) = (_zero r + k) mod size r.
Proof.
  intros (Hs & Hz & Hz') Hp Hk. simpl. rewrite u64_small by lia.
  replace (_zero r + size r + k) with (_zero r + k + 1 * size r) by lia. apply Z.mod_add. lia.
Qed.

(** Elements appended when the last [_zero] elements of the sequence are the
    first of the storage go in front of those. *)
Lemma view_append r v k P Q : ring_ok r -> size r + Z.of_nat k < 2 ^ 32 ->
  view r = P ++ Q -> Z.of_nat (length Q) = _zero r ->
  let r' := Nat.iter k (fun r => emplace_back r v) r in
  ring_ok r' /\ size r' = size r + Z.of_nat k /\ _zero r' = _zero r /\
  view r' = P ++ replicate k v ++ Q.
Proof.
  intros Hok Hk Hv HQ. cbn zeta. revert Hk.
  induction k as [|k IH]; intros Hk; [simpl; split_and!; try done; lia|].
  destruct IH as (Hok' & Hs & Hz & Hv'); [lia|]. rewrite !Nat.iter_succ.
  set (r' := Nat.iter k _ r) in *. clearbody r'. unfold emplace_back.
  assert (Hsz : size (push_back r' v) = size r' + 1) by (unfold size; simpl; len; simpl; lia).
  split_and!; [apply push_back_ok; [done|lia]|lia|done|].
  rewrite view_push_back by done.
  replace (length (view r') - Z.to_nat (_zero r'))%nat with (length (P ++ replicate k v))
    by (rewrite Hv', Hz; len; lia).
  rewrite Hv', app_assoc, take_app_length, drop_app_length, <- app_assoc.
  f_equal. by rewrite replicate_S_end, <- app_assoc.
Qed.

Lemma rezero_at_view r i : ring_ok r -> _zero r = 0 -> 0 <= i <= size r ->
  exists r', rezero_at r i = Some r' /\ ring_ok r' /\ _zero r' = 0 /\
             view r' = drop (Z.to_nat i) (view r) ++ take (Z.to_nat i) (view r).
Proof.
  intros Hok Hz Hi. pose proof (size_view r) as Hsv.
  destruct (std_rotate_view r 0 i (size r)) as (r' & E & Hok' & Hsz & Hz0 & Hv); [done|lia..|].
  exists (unrotate r'). unfold rezero_at. rewrite E. cbn [mbind option_bind].
  split_and!; [done|by apply unrotate_ok|done|].
  transitivity (view r'). { destruct r'. simpl in *. by rewrite Hz0, Hz. }
  rewrite Hv. simpl. rewrite drop_0, Z.sub_0_r.
  rewrite (drop_ge (view r) (Z.to_nat (size r))), app_nil_r by lia.
  by rewrite (take_ge (drop _ _)) by (rewrite length_drop; lia).
Qed.

(** C38: A ring refines a plain sequence. While the zero index points into the storage, which is
    not empty, indexing with an index from -size to size - 1 reads the element of the sequence
    at that index modulo the size, assignment through it changes that element and no other,
    rotate_left and rotate_right by at most size rotate the sequence, undoing each other, and
    rezero makes the storage equal to the sequence without changing it. *)
Theorem ring_refines_sequence r i v k :
  ring_ok r -> 0 < size r -> - size r <= i < size r -> 0 <= k <= size r ->
  let n := Z.to_nat k in
  at_ r i = view r !! Z.to_nat (i mod size r) /\
  view (set_at r i v) = <[Z.to_nat (i mod size r) := v]> (view r) /\
  view (rotate_left r k) = drop n (view r) ++ take n (view r) /\
  view (rotate_right r k) = drop (length (view r) - n) (view r) ++ take (length (view r) - n) (view r) /\
  view (rotate_right (rotate_left r k) k) = view r /\
  exists r', rezero r = Some r' /\ ring_ok r' /\ _storage r' = view r /\ view r' = view r.
Proof.
  intros Hok Hp Hi Hk n. pose proof (size_view r) as Hsv.
  split_and!; [by apply at_view|by apply view_set_at|by apply view_rotate_left|
               by apply view_rotate_right| |].
  - assert (Hs : size (rotate_left r k) = size r) by done.
    rewrite view_rotate_right, view_rotate_left by (rewrite ?Hs; auto with vt).
    rewrite drop_app_length', take_app_length' by (unfold n; len; lia).
    apply take_drop.
  - destruct (rezero_view r Hok) as (r' & ? & ? & ? & ? & ?). eauto.
Qed.

End Ring.

#[global] Arguments index : simpl never.
#[global] Arguments view : simpl never.
#[export] Hint Resolve set_at_ok write_range_ok rotate_left_ok rotate_right_ok
  unrotate_ok push_back_ok : vt.

Example ring_example : ring Z := mk_ring [3; 4; 1; 2] 2.

Lemma ring_refines_sequence_witness :
  at_ ring_example (-1) = Some 4 /\ view (rotate_left ring_example 1) = [2; 3; 4; 1] /\
  view (rotate_right (rotate_left ring_example 3) 3) = [1; 2; 3; 4].
Proof.
  assert (H : ring_ok ring_example) by (unfold ring_ok, size; simpl; lia).
  destruct (ring_refines_sequence ring_example (-1) 9 1) as (H1 & _ & H3 & _);
    [done|done|unfold size; simpl; lia..|].
  destruct (ring_refines_sequence ring_example 0 9 3) as (_ & _ & _ & _ & H5 & _);
    [done|done|unfold size; simpl; lia..|].
  split_and!; [exact H1|exact H3|exact H5].
Defined.
