(* ===== verification/Color.v ===== *)
(** * Colours and palettes (Color.h, Color.cpp, ColorPalette.h, ColorPalette.cpp)

    The packed 32-bit [Color], its constructors and accessors, RGB(A)
    colours, parsing of colour specifications, the default palette and the
    resolution of a cell colour against a palette.  Text is a list of byte
    values. *)
From Stdlib Require Import String Ascii.
From S2P Require Import Prelude.

(** A string literal as the list of its byte values. *)
Definition bytes (s : string) : list Z :=
  map (fun a => Z.of_nat (nat_of_ascii a)) (list_ascii_of_string s).

(** ** RGB and RGBA colours *)

Record RGBColor := mkRGB { red : Z; green : Z; blue : Z }.
#[export] Instance RGBColor_eq_dec : EqDecision RGBColor.
Proof. solve_decision. Defined.

Definition RGB_default : RGBColor := mkRGB 0 0 0.
Definition RGB_of_uint32 (rgb : Z) : RGBColor :=
  mkRGB (Z.land (Z.shiftr rgb 16) 0xFF) (Z.land (Z.shiftr rgb 8) 0xFF) (Z.land rgb 0xFF).
Definition RGB_value (c : RGBColor) : Z :=
  Z.lor (Z.lor (Z.shiftl (red c) 16) (Z.shiftl (green c) 8)) (blue c).
Definition RGB_inverse (c : RGBColor) : RGBColor :=
  mkRGB (u8 (255 - red c)) (u8 (255 - green c)) (u8 (255 - blue c)).
(** [operator+]: the channel sums are clamped to a byte. *)
Definition RGB_add (a b : RGBColor) : RGBColor :=
  let clamp x := u8 (Z.min (Z.max x 0) 255) in
  mkRGB (clamp (red a + red b)) (clamp (green a + green b)) (clamp (blue a + blue b)).

Record RGBColorPair := mkRGBPair { foreground : RGBColor; background : RGBColor }.
Definition swapped (p : RGBColorPair) : RGBColorPair := mkRGBPair (background p) (foreground p).
Definition allForeground (p : RGBColorPair) : RGBColorPair := mkRGBPair (foreground p) (foreground p).
Definition allBackground (p : RGBColorPair) : RGBColorPair := mkRGBPair (background p) (background p).

(** [RGBAColor]: one 32-bit word, red in the highest byte. *)
Definition RGBAColor := Z.
Definition RGBA_make (r g b a : Z) : RGBAColor :=
  Z.lor (Z.lor (Z.lor (Z.shiftl r 24) (Z.shiftl g 16)) (Z.shiftl b 8)) a.
Definition RGBA_red (v : RGBAColor) : Z := Z.land (Z.shiftr v 24) 0xFF.
Definition RGBA_green (v : RGBAColor) : Z := Z.land (Z.shiftr v 16) 0xFF.
Definition RGBA_blue (v : RGBAColor) : Z := Z.land (Z.shiftr v 8) 0xFF.
Definition RGBA_alpha (v : RGBAColor) : Z := Z.land v 0xFF.
Definition RGBA_of_RGB (c : RGBColor) (alpha : Z) : RGBAColor :=
  RGBA_make (red c) (green c) (blue c) alpha.
Definition RGBA_rgb (v : RGBAColor) : RGBColor := RGB_of_uint32 (Z.shiftr v 8).

(** ** The packed cell colour *)

Inductive ColorType := Undefined | Default | Bright | Indexed | RGB.
Definition ColorType_value (t : ColorType) : Z :=
  match t with Undefined => 0 | Default => 1 | Bright => 2 | Indexed => 3 | RGB => 4 end.

(** [static_cast<ColorType>]: [None] for a value that is no enumerator. *)
Definition ColorType_of (v : Z) : option ColorType :=
  match v with
  | 0 => Some Undefined | 1 => Some Default | 2 => Some Bright
  | 3 => Some Indexed | 4 => Some RGB | _ => None
  end.

(** [struct Color]: its [content] word. *)
Definition Color := Z.
Definition Color_make (t : ColorType) (value : Z) : Color :=
  Z.lor (Z.shiftl (ColorType_value t) 24) (Z.land value 0xFF).
Definition UndefinedColor : Color := Color_make Undefined 0.
Definition DefaultColor : Color := Color_make Default 0.
Definition Color_Bright (index : Z) : Color := Color_make Bright index.
Definition Color_Indexed (index : Z) : Color := Color_make Indexed index.
Definition Color_RGB (c : RGBColor) : Color :=
  Z.lor (RGB_value c) (Z.shiftl (ColorType_value RGB) 24).

Definition Color_type (c : Color) : option ColorType :=
  ColorType_of (Z.land (Z.shiftr c 24) 0xFF).
Definition Color_index (c : Color) : Z := u8 (Z.land c 0xFF).
Definition Color_rgb (c : Color) : RGBColor := RGB_of_uint32 (Z.land c 0xFFFFFF).
Definition isDefaultColor (c : Color) : bool :=
  match Color_type c with Some Default => true | _ => false end.
Definition isIndexedColor (c : Color) : bool :=
  match Color_type c with Some Indexed => true | _ => false end.
Definition isBrightColor (c : Color) : bool :=
  match Color_type c with Some Bright => true | _ => false end.
Definition isRGBColor (c : Color) : bool :=
  match Color_type c with Some RGB => true | _ => false end.

(** ** Text forms *)

(** The switch of [crispy::to_integer<Base>] over the characters. *)
Definition digit_value (base ch : Z) : option Z :=
  if (0x30 <=? ch) && (ch <=? Z.min 0x39 (0x30 + base - 1)) then Some (ch - 0x30)
  else if (base =? 16) && (0x61 <=? ch) && (ch <=? 0x66) then Some (10 + (ch - 0x61))
  else if (base =? 16) && (0x41 <=? ch) && (ch <=? 0x46) then Some (10 + (ch - 0x41))
  else None.

(** [crispy::to_integer<Base, T>] with [T] of [2 ^ bits] values. *)
Definition to_integer (base bits : Z) (text : list Z) : option Z :=
  match text with
  | [] => None
  | _ => foldl (fun acc ch =>
           value ← acc;
           d ← digit_value base ch;
           Some (((value * base) mod 2 ^ bits + d) mod 2 ^ bits)) (Some 0) text
  end.

Definition substr (l : list Z) (pos n : nat) : list Z := take n (drop pos l).

Definition parseColor (value : list Z) : option RGBColor :=
  let hex pos n := to_integer 16 8 (substr value pos n) in
  if (length value =? 12)%nat && bool_decide (substr value 0 4 = bytes "rgb:")
     && bool_decide (value !! 6%nat = Some 0x2F) && bool_decide (value !! 9%nat = Some 0x2F) then
    r ← hex 4%nat 2%nat; g ← hex 7%nat 2%nat; b ← hex 10%nat 2%nat; Some (mkRGB r g b)
  else if (length value =? 7)%nat && bool_decide (value !! 0%nat = Some 0x23) then
    r ← hex 1%nat 2%nat; g ← hex 3%nat 2%nat; b ← hex 5%nat 2%nat; Some (mkRGB r g b)
  else if (length value =? 4)%nat && bool_decide (value !! 0%nat = Some 0x23) then
    r ← hex 1%nat 1%nat; g ← hex 2%nat 1%nat; b ← hex 3%nat 1%nat;
    Some (mkRGB (u8 (Z.shiftl r 4)) (u8 (Z.shiftl g 4)) (u8 (Z.shiftl b 4)))
  else None.

(** [std::format("{:02X}", byte)]. *)
Definition hex_digit (d : Z) : Z := if d <? 10 then 0x30 + d else 0x41 + (d - 10).
Definition hex2 (v : Z) : list Z := [hex_digit (v / 16); hex_digit (v mod 16)].
(** [to_string(RGBColor)]: the colour between single quotes. *)
Definition RGB_to_string (c : RGBColor) : list Z :=
  bytes "'#" ++ hex2 (red c) ++ hex2 (green c) ++ hex2 (blue c) ++ bytes "'".

(** ** Palettes *)

Definition rgb (v : Z) : RGBColor := RGB_of_uint32 (u32 v).

(** The assignments of [ColorPalette::defaultColorPalette], in their order. *)
Definition cube_level (v : Z) : Z := u8 (if v =? 0 then 0 else v * 40 + 55).
Definition set_all (l : list (Z * RGBColor)) (colors : list RGBColor) : list RGBColor :=
  foldl (fun colors p => <[Z.to_nat p.1 := p.2]> colors) colors l.
Definition normal_colors : list (Z * RGBColor) :=
  [(0, rgb 0x000000); (1, rgb 0xc63939); (2, rgb 0x00a000); (3, rgb 0xa0a000);
   (4, rgb 0x4d79ff); (5, rgb 0xff66ff); (6, rgb 0x00a0a0); (7, rgb 0xc0c0c0);
   (8, rgb 0x707070); (9, rgb 0xff0000); (10, rgb 0x00ff00); (11, rgb 0xffff00);
   (12, rgb 0x0000ff); (13, rgb 0xff00ff); (14, rgb 0x00ffff); (15, rgb 0xffffff)].
Definition cube_colors : list (Z * RGBColor) :=
  r ← seqZ 0 6; g ← seqZ 0 6; b ← seqZ 0 6;
  [(16 + r * 36 + g * 6 + b, mkRGB (cube_level r) (cube_level g) (cube_level b))].
Definition gray_colors : list (Z * RGBColor) :=
  (fun gray => let level := u8 (gray * 10 + 8) in (232 + gray, mkRGB level level level)) <$> seqZ 0 24.
Definition dim_colors : list (Z * RGBColor) :=
  [(256, rgb 0x000000); (257, rgb 0xa00000); (258, rgb 0x008000); (259, rgb 0x808000);
   (260, rgb 0x000080); (261, rgb 0x800080); (262, rgb 0x008080); (263, rgb 0x808080)].
Definition defaultColorPalette : list RGBColor :=
  set_all dim_colors (set_all gray_colors (set_all cube_colors (set_all normal_colors
    (replicate 264 RGB_default)))).

(** The fields of [struct ColorPalette] that resolution reads. *)
Record ColorPalette := mkColorPalette {
  useBrightColors : bool;
  palette : list RGBColor;
  defaultForeground : RGBColor;
  defaultBackground : RGBColor;
  defaultForegroundBright : RGBColor;
  defaultForegroundDimmed : RGBColor
}.
Definition ColorPalette_init : ColorPalette :=
  mkColorPalette false defaultColorPalette (rgb 0xD0D0D0) (rgb 0x1a1716) (rgb 0xFFFFFF) (rgb 0x808080).

Definition brightColor (p : ColorPalette) (index : Z) : option RGBColor := palette p !! Z.to_nat (index + 8).
Definition dimColor (p : ColorPalette) (index : Z) : option RGBColor := palette p !! Z.to_nat (256 + index).
Definition indexedColor (p : ColorPalette) (index : Z) : option RGBColor := palette p !! Z.to_nat index.

Inductive ColorTarget := Foreground | Background.
Inductive ColorMode := ModeDimmed | ModeNormal | ModeBright.

(** [apply]; [None] is an index outside the palette or the unreachable end of
    the function (a content word whose type is no enumerator). *)
Definition apply (p : ColorPalette) (color : Color) (target : ColorTarget) (mode : ColorMode)
  : option RGBColor :=
  match Color_type color with
  | Some RGB => Some (Color_rgb color)
  | Some Indexed =>
      let index := Color_index color in
      match mode with
      | ModeBright => if index <? 8 then brightColor p index else indexedColor p index
      | ModeDimmed => if index <? 8 then dimColor p index else indexedColor p index
      | ModeNormal => indexedColor p index
      end
  | Some Bright => brightColor p (Color_index color)
  | Some Undefined | Some Default =>
      match target with
      | Foreground =>
          Some (match mode with
                | ModeNormal => defaultForeground p
                | ModeBright => defaultForegroundBright p
                | ModeDimmed => defaultForegroundDimmed p
                end)
      | Background => Some (defaultBackground p)
      end
  | None => None
  end.

(** ** Properties *)

Definition byte (z : Z) : Prop := 0 <= z < 256.
Definition RGB_ok (c : RGBColor) : Prop := byte (red c) /\ byte (green c) /\ byte (blue c).

Lemma land_255 z : Z.land z 0xFF = z mod 256.
Proof. apply (Z.land_ones z 8). lia. Qed.

(** Two disjoint bit fields added by [Z.lor]. *)
Lemma lor_shift_add hi lo n : 0 <= n -> 0 <= lo < 2 ^ n ->
  Z.lor (Z.shiftl hi n) lo = hi * 2 ^ n + lo.
Proof.
  intros Hn Hlo. rewrite Z.shiftl_mul_pow2 by done. rewrite <- Z.add_lor_land.
  assert (Z.land (hi * 2 ^ n) lo = 0) as ->; [|lia].
  apply Z.bits_inj'. intros k Hk. rewrite Z.land_spec, Z.bits_0.
  destruct (Z.ltb_spec k n).
  - by rewrite Z.mul_pow2_bits_low.
  - rewrite andb_comm. destruct (decide (lo = 0)) as [->|]; [by rewrite Z.bits_0|].
    rewrite (Z.bits_above_log2 lo k); [done|lia|].
    apply Z.log2_lt_pow2; [lia|]. apply Z.lt_le_trans with (2 ^ n); [lia|].
    apply Z.pow_le_mono_r; lia.
Qed.

Lemma RGB_value_sum c : RGB_ok c -> RGB_value c = red c * 65536 + green c * 256 + blue c.
Proof.
  intros (Hr & Hg & Hb). unfold RGB_value, byte in *.
  rewrite (lor_shift_add (red c) (Z.shiftl (green c) 8) 16)
    by (rewrite ?Z.shiftl_mul_pow2; lia).
  rewrite Z.shiftl_mul_pow2 by lia.
  replace (red c * 2 ^ 16 + green c * 2 ^ 8)
    with ((red c * 2 ^ 8 + green c) * 2 ^ 8) by lia.
  rewrite <- Z.shiftl_mul_pow2 by lia. rewrite lor_shift_add by lia. lia.
Qed.

Lemma RGB_of_value c : RGB_ok c -> RGB_of_uint32 (RGB_value c) = c.
Proof.
  intros Hc. rewrite RGB_value_sum by done. destruct Hc as (Hr & Hg & Hb), c as [r g b].
  unfold RGB_of_uint32, byte in *. simpl in *.
  rewrite !land_255, !Z.shiftr_div_pow2 by lia. change (2 ^ 16) with 65536. change (2 ^ 8) with 256.
  f_equal; Z.div_mod_to_equations; lia.
Qed.

Lemma Color_make_sum t v : Color_make t v = ColorType_value t * 2 ^ 24 + v mod 256.
Proof.
  unfold Color_make. rewrite land_255.
  apply lor_shift_add; [lia|]. pose proof (Z.mod_pos_bound v 256). lia.
Qed.

Lemma Color_type_word t v : 0 <= v < 2 ^ 24 -> Color_type (ColorType_value t * 2 ^ 24 + v) = Some t.
Proof.
  intros Hv. unfold Color_type. rewrite Z.shiftr_div_pow2, land_255 by lia.
  rewrite Z.div_add_l, (Z.div_small v) by lia. by destruct t.
Qed.

(** The packed colour word is a faithful encoding: a colour built from a
    type and a byte index decodes to that type and index, and a colour built
    from RGB channels decodes to type RGB and the same channels; so colours
    built from different arguments are different words. *)
Lemma color_roundtrip t i c :
  byte i -> RGB_ok c ->
  Color_type (Color_make t i) = Some t /\ Color_index (Color_make t i) = i /\
  Color_type (Color_RGB c) = Some RGB /\ Color_rgb (Color_RGB c) = c /\
  (Color_RGB c <> Color_Indexed i /\ Color_RGB c <> Color_Bright i /\
   Color_Indexed i <> Color_Bright i /\ Color_Indexed i <> DefaultColor).
Proof.
  intros Hi Hc. pose proof (RGB_value_sum c Hc) as Hs. unfold byte in *.
  assert (Hv : 0 <= RGB_value c < 2 ^ 24) by (destruct Hc as (?&?&?); unfold byte in *; lia).
  assert (HR : Color_RGB c = 4 * 2 ^ 24 + RGB_value c)
    by (unfold Color_RGB; rewrite Z.lor_comm; by apply lor_shift_add).
  split_and!.
  - rewrite Color_make_sum. apply Color_type_word. pose proof (Z.mod_pos_bound i 256). lia.
  - rewrite Color_make_sum. unfold Color_index, u8. rewrite land_255.
    change (2 ^ 8) with 256. change (2 ^ 24) with (65536 * 256).
    Z.div_mod_to_equations; lia.
  - rewrite HR. by apply (Color_type_word RGB).
  - unfold Color_rgb. rewrite HR. change 0xFFFFFF with (Z.ones 24).
    rewrite Z.land_ones, Z.add_comm, Z.mod_add, Z.mod_small by lia. by apply RGB_of_value.
  - rewrite HR. unfold Color_Indexed. rewrite Color_make_sum. simpl ColorType_value.
    pose proof (Z.mod_pos_bound i 256). lia.
  - rewrite HR. unfold Color_Bright. rewrite Color_make_sum. simpl ColorType_value.
    pose proof (Z.mod_pos_bound i 256). lia.
  - unfold Color_Indexed, Color_Bright. rewrite !Color_make_sum. simpl. lia.
  - unfold Color_Indexed, DefaultColor. rewrite !Color_make_sum. simpl ColorType_value.
    change (0 mod 256) with 0. pose proof (Z.mod_pos_bound i 256). lia.
Qed.

(** *** Text forms *)

Lemma digit_hex d : 0 <= d < 16 -> digit_value 16 (hex_digit d) = Some d.
Proof.
  intros Hd. unfold hex_digit, digit_value.
  destruct (Z.ltb_spec d 10); zbool; simpl; f_equal; lia.
Qed.

Lemma to_integer_hex2 v : byte v -> to_integer 16 8 (hex2 v) = Some v.
Proof.
  intros Hv. unfold byte in Hv. unfold to_integer, hex2. cbn [foldl].
  rewrite digit_hex by (Z.div_mod_to_equations; lia). cbn [mbind option_bind].
  rewrite digit_hex by (Z.div_mod_to_equations; lia). cbn [mbind option_bind].
  f_equal. change (2 ^ 8) with 256. Z.div_mod_to_equations; lia.
Qed.

Definition hash_text (c : RGBColor) : list Z :=
  bytes "#" ++ hex2 (red c) ++ hex2 (green c) ++ hex2 (blue c).
Definition rgb_text (c : RGBColor) : list Z :=
  bytes "rgb:" ++ hex2 (red c) ++ bytes "/" ++ hex2 (green c) ++ bytes "/" ++ hex2 (blue c).

(** Colour text round trip: what [to_string] prints of a colour between
    its quotes, and the same channels in X11's rgb:RR/GG/BB form, are parsed
    back to that colour. *)
Lemma parseColor_roundtrip c :
  RGB_ok c ->
  RGB_to_string c = bytes "'" ++ hash_text c ++ bytes "'" /\
  parseColor (hash_text c) = Some c /\ parseColor (rgb_text c) = Some c.
Proof.
  intros (Hr & Hg & Hb). split; [done|].
  pose proof (to_integer_hex2 _ Hr) as Er. pose proof (to_integer_hex2 _ Hg) as Eg.
  pose proof (to_integer_hex2 _ Hb) as Eb. destruct c as [r g b]. simpl in *.
  split; unfold parseColor, hash_text, rgb_text, hex2 in *; simpl; unfold substr; simpl;
    rewrite Er, Eg, Eb; done.
Qed.

Lemma parseColor_roundtrip_witness : parseColor (bytes "#1080FF") = Some (mkRGB 16 128 255).
Proof.
  apply (parseColor_roundtrip (mkRGB 16 128 255)). unfold RGB_ok, byte. simpl. lia.
Defined.

(** *** Palette resolution *)

Definition palette_ok (p : ColorPalette) : Prop := length (palette p) = 264%nat.

Lemma defaultColorPalette_length : length defaultColorPalette = 264%nat.
Proof. vm_compute. reflexivity. Qed.

(** Words the [Color] constructors can produce. *)
Definition Color_ok (c : Color) : Prop := exists t, Color_type c = Some t.

Lemma Color_index_byte c : byte (Color_index c).
Proof. unfold byte, Color_index, u8. apply Z.mod_pos_bound. lia. Qed.

(** Resolving a well-typed colour never leaves the palette. *)
Lemma apply_total p c target mode : palette_ok p -> Color_ok c -> is_Some (apply p c target mode).
Proof.
  intros Hp [t Ht]. pose proof (Color_index_byte c) as Hb. unfold byte in Hb.
  unfold apply, brightColor, dimColor, indexedColor. rewrite Ht.
  assert (Hl : forall i, 0 <= i < 264 -> is_Some (palette p !! Z.to_nat i)).
  { intros i Hi. apply lookup_lt_is_Some_2. rewrite Hp. lia. }
  destruct t; [destruct target; eauto..|apply Hl; lia| |eauto].
  destruct mode; try destruct (Z.ltb_spec (Color_index c) 8); apply Hl; lia.
Qed.

(** The default 256-colour palette is xterm's: index [16 + 36r + 6g + b] is
    the colour cube entry, index [232 + k] the grey of level [10k + 8]. *)
Lemma default_palette_layout :
  forallb (fun r => forallb (fun g => forallb (fun b =>
    bool_decide (defaultColorPalette !! Z.to_nat (16 + 36 * r + 6 * g + b)
                 = Some (mkRGB (cube_level r) (cube_level g) (cube_level b))))
    (seqZ 0 6)) (seqZ 0 6)) (seqZ 0 6) = true /\
  forallb (fun k => bool_decide (defaultColorPalette !! Z.to_nat (232 + k)
                 = Some (mkRGB (10 * k + 8) (10 * k + 8) (10 * k + 8)))) (seqZ 0 24) = true.
Proof. vm_compute. by split. Qed.
