(* ===== verification/Modes.v ===== *)
(** * Terminal modes (class Modes of src/vtbackend/Terminal.h, the modes of primitives.h)

    The modes are enumerations whose values index bit sets, and are cast from
    the numbers of control sequences, so they are kept as integers.  A bit set
    is the set of the bits that are on; all indices used are enumerators and
    inside the bit sets ([enumerators_fit]).  The saved values of a mode are a
    vector, its back last.

    Proved: saving and restoring modes nests, and which requests for a mode
    are answered about the mode that was asked for. *)
From Stdlib Require Import String.
From stdpp Require Import gmap.
From S2P Require Import Prelude Color.

Module AnsiMode.
Definition KeyboardAction : Z := 2.
Definition Insert : Z := 4.
Definition SendReceive : Z := 12.
Definition AutomaticNewLine : Z := 20.
End AnsiMode.

(** Enumerators without a value count up from 0. *)
Module Mode.
Definition UseApplicationCursorKeys : Z := 0.
Definition DesignateCharsetUSASCII : Z := 1.
Definition Columns132 : Z := 2.
Definition SmoothScroll : Z := 3.
Definition ReverseVideo : Z := 4.
Definition MouseProtocolX10 : Z := 5.
Definition MouseProtocolNormalTracking : Z := 6.
Definition MouseProtocolHighlightTracking : Z := 7.
Definition MouseProtocolButtonTracking : Z := 8.
Definition MouseProtocolAnyEventTracking : Z := 9.
Definition SaveCursor : Z := 10.
Definition ExtendedAltScreen : Z := 11.
Definition Origin : Z := 12.
Definition AutoWrap : Z := 13.
Definition PrinterExtend : Z := 14.
Definition LeftRightMargin : Z := 15.
Definition ShowToolbar : Z := 16.
Definition BlinkingCursor : Z := 17.
Definition VisibleCursor : Z := 18.
Definition ShowScrollbar : Z := 19.
Definition AllowColumns80to132 : Z := 20.
Definition DebugLogging : Z := 21.
Definition UseAlternateScreen : Z := 22.
Definition BracketedPaste : Z := 23.
Definition FocusTracking : Z := 24.
Definition NoSixelScrolling : Z := 25.
Definition UsePrivateColorRegisters : Z := 26.
Definition MouseExtended : Z := 1005.
Definition MouseSGR : Z := 1006.
Definition MouseURXVT : Z := 1015.
Definition MouseSGRPixels : Z := 1016.
Definition MouseAlternateScroll : Z := 1007.
Definition BatchedRendering : Z := 2026.
Definition Unicode : Z := 2027.
Definition TextReflow : Z := 2028.
Definition MousePassiveTracking : Z := 2029.
Definition ReportGridCellSelection : Z := 2030.
Definition ReportColorPaletteUpdated : Z := 2031.
Definition SixelCursorNextToGraphic : Z := 8452.
End Mode.

(** [toAnsiModeNum], [isValidAnsiMode]: the argument is cast to 8 bits. *)
Definition ansi_modes : list Z :=
  [AnsiMode.KeyboardAction; AnsiMode.Insert; AnsiMode.SendReceive; AnsiMode.AutomaticNewLine].
Definition toAnsiModeNum (m : Z) : Z := m.
Definition isValidAnsiMode (mode : Z) : bool := bool_decide (u8 mode ∈ ansi_modes).

(** The cases of [toDECModeNum]: enumerator and number. *)
Definition mode_numbers : list (Z * Z) :=
  [(Mode.UseApplicationCursorKeys, 1); (Mode.DesignateCharsetUSASCII, 2); (Mode.Columns132, 3);
   (Mode.SmoothScroll, 4); (Mode.ReverseVideo, 5); (Mode.Origin, 6); (Mode.AutoWrap, 7); (Mode.MouseProtocolX10, 9);
   (Mode.ShowToolbar, 10); (Mode.BlinkingCursor, 12); (Mode.PrinterExtend, 19); (Mode.VisibleCursor, 25);
   (Mode.ShowScrollbar, 30); (Mode.AllowColumns80to132, 40); (Mode.DebugLogging, 46); (Mode.UseAlternateScreen, 47);
   (Mode.LeftRightMargin, 69); (Mode.MouseProtocolNormalTracking, 1000); (Mode.MouseProtocolHighlightTracking, 1001);
   (Mode.MouseProtocolButtonTracking, 1002); (Mode.MouseProtocolAnyEventTracking, 1003); (Mode.SaveCursor, 1048);
   (Mode.ExtendedAltScreen, 1049); (Mode.BracketedPaste, 2004); (Mode.FocusTracking, 1004);
   (Mode.NoSixelScrolling, 80); (Mode.UsePrivateColorRegisters, 1070); (Mode.MouseExtended, 1005);
   (Mode.MouseSGR, 1006); (Mode.MouseURXVT, 1015); (Mode.MouseSGRPixels, 1016); (Mode.MouseAlternateScroll, 1007);
   (Mode.MousePassiveTracking, 2029); (Mode.ReportGridCellSelection, 2030); (Mode.ReportColorPaletteUpdated, 2031);
   (Mode.BatchedRendering, 2026); (Mode.Unicode, 2027); (Mode.TextReflow, 2028);
   (Mode.SixelCursorNextToGraphic, 8452)].
Definition toDECModeNum (m : Z) : Z :=
  match List.find (fun p => p.1 =? m) mode_numbers with Some p => p.2 | None => m end.
(** [isValidDECMode]: the argument is cast to 16 bits. *)
Definition isValidDECMode (mode : Z) : bool := bool_decide (u16 mode ∈ mode_numbers.*1).

(** [impl::toDECMode]: number and enumerator. *)
Definition number_modes : list (Z * Z) :=
  [(1, Mode.UseApplicationCursorKeys); (2, Mode.DesignateCharsetUSASCII); (3, Mode.Columns132);
   (4, Mode.SmoothScroll); (5, Mode.ReverseVideo); (6, Mode.Origin); (7, Mode.AutoWrap); (9, Mode.MouseProtocolX10);
   (10, Mode.ShowToolbar); (12, Mode.BlinkingCursor); (19, Mode.PrinterExtend); (25, Mode.VisibleCursor);
   (30, Mode.ShowScrollbar); (40, Mode.AllowColumns80to132); (46, Mode.DebugLogging); (47, Mode.UseAlternateScreen);
   (69, Mode.LeftRightMargin); (80, Mode.NoSixelScrolling); (1000, Mode.MouseProtocolNormalTracking);
   (1001, Mode.MouseProtocolHighlightTracking); (1002, Mode.MouseProtocolButtonTracking);
   (1003, Mode.MouseProtocolAnyEventTracking); (1004, Mode.FocusTracking); (1005, Mode.MouseExtended);
   (1006, Mode.MouseSGR); (1007, Mode.MouseAlternateScroll); (1015, Mode.MouseURXVT); (1016, Mode.MouseSGRPixels);
   (1047, Mode.UseAlternateScreen); (1048, Mode.SaveCursor); (1049, Mode.ExtendedAltScreen);
   (2004, Mode.BracketedPaste); (2026, Mode.BatchedRendering); (2027, Mode.Unicode); (2028, Mode.TextReflow);
   (2029, Mode.MousePassiveTracking); (2030, Mode.ReportGridCellSelection);
   (2031, Mode.ReportColorPaletteUpdated); (8452, Mode.SixelCursorNextToGraphic)].
Definition number_mode (value : Z) : option Z := snd <$> List.find (fun p => p.1 =? value) number_modes.

(** ** The class *)

Record Modes := mk_modes {
  _ansi : gset Z;
  _dec : gset Z;
  _decFrozen : gset Z;
  _savedModes : gmap Z (list bool)
}.
Definition Modes_init : Modes := mk_modes ∅ ∅ ∅ ∅.

Definition put_bit (i : Z) (b : bool) (bits : gset Z) : gset Z := if b then {[i]} ∪ bits else bits ∖ {[i]}.
Definition set_ansi (m : Z) (b : bool) (ms : Modes) : Modes :=
  mk_modes (put_bit m b (_ansi ms)) (_dec ms) (_decFrozen ms) (_savedModes ms).
Definition ansi_enabled (ms : Modes) (m : Z) : bool := bool_decide (m ∈ _ansi ms).
Definition enabled (ms : Modes) (m : Z) : bool := bool_decide (m ∈ _dec ms).
Definition frozen (ms : Modes) (m : Z) : bool := bool_decide (m ∈ _decFrozen ms).
(** [set] of a DEC mode; a frozen mode stays. *)
Definition set_dec (m : Z) (b : bool) (ms : Modes) : Modes :=
  if frozen ms m then ms else mk_modes (_ansi ms) (put_bit m b (_dec ms)) (_decFrozen ms) (_savedModes ms).
Definition freeze (m : Z) (ms : Modes) : Modes :=
  if m =? Mode.BatchedRendering then ms
  else mk_modes (_ansi ms) (_dec ms) (put_bit m true (_decFrozen ms)) (_savedModes ms).
Definition unfreeze (m : Z) (ms : Modes) : Modes :=
  mk_modes (_ansi ms) (_dec ms) (put_bit m false (_decFrozen ms)) (_savedModes ms).

Definition saved (ms : Modes) (m : Z) : list bool := default [] (_savedModes ms !! m).
Definition with_savedModes (ms : Modes) (m : Z) (l : list bool) : Modes :=
  mk_modes (_ansi ms) (_dec ms) (_decFrozen ms) (<[m := l]> (_savedModes ms)).
Definition save_one (ms : Modes) (m : Z) : Modes := with_savedModes ms m (saved ms m ++ [enabled ms m]).
Definition save (modes : list Z) (ms : Modes) : Modes := foldl save_one ms modes.
Definition restore_one (ms : Modes) (m : Z) : Modes :=
  match last (saved ms m) with
  | Some b => with_savedModes (set_dec m b ms) m (removelast (saved ms m))
  | None => ms
  end.
Definition restore (modes : list Z) (ms : Modes) : Modes := foldl restore_one ms modes.

(** ** Requests for the state of a mode (DECRQM) *)

Inductive ModeResponse := NotRecognized | IsSet | IsReset | PermanentlySet | PermanentlyReset.
Definition response_code (r : ModeResponse) : Z :=
  match r with NotRecognized => 0 | IsSet => 1 | IsReset => 2 | PermanentlySet => 3 | PermanentlyReset => 4 end.
Definition of_enabled (b : bool) : ModeResponse := if b then IsSet else IsReset.

Definition ansi_mode_report (code : Z) (r : ModeResponse) : list Z :=
  0x1B :: bytes "[" ++ to_string code ++ bytes ";" ++ to_string (response_code r) ++ bytes "$y".
Definition dec_mode_report (code : Z) (r : ModeResponse) : list Z :=
  0x1B :: bytes "[?" ++ to_string code ++ bytes ";" ++ to_string (response_code r) ++ bytes "$y".
(** [requestAnsiMode] and [requestDECMode]: the number is cast to the
    enumeration. *)
Definition requestAnsiMode (ms : Modes) (mode : Z) : list Z :=
  ansi_mode_report (toAnsiModeNum (u8 mode))
    (if isValidAnsiMode mode then of_enabled (ansi_enabled ms (u8 mode)) else NotRecognized).
Definition requestDECMode (ms : Modes) (mode : Z) : list Z :=
  dec_mode_report (toDECModeNum (u16 mode))
    (if isValidDECMode mode then of_enabled (enabled ms (u16 mode)) else NotRecognized).

(** ** Numbers and enumerators *)

Lemma enumerators_fit :
  Forall (fun m => 0 <= m < 8453) mode_numbers.*1 /\ NoDup mode_numbers.*1 /\ Forall (fun m => 0 <= m < 32) ansi_modes.
Proof. split_and!; apply (bool_decide_unpack _); by vm_compute. Qed.

(** Every mode but the private colour registers is reached by its number. *)
Lemma number_mode_num m : m ∈ mode_numbers.*1 ->
  number_mode (toDECModeNum m) = if m =? Mode.UsePrivateColorRegisters then None else Some m.
Proof.
  assert (E : forallb (fun m => bool_decide (number_mode (toDECModeNum m) =
    if m =? Mode.UsePrivateColorRegisters then None else Some m)) mode_numbers.*1 = true) by (vm_compute; done).
  rewrite forallb_forall in E. intros Hm. specialize (E m (proj1 (list_elem_of_In _ _) Hm)).
  by apply bool_decide_eq_true in E.
Qed.

Lemma number_mode_valid v m : number_mode v = Some m -> m ∈ mode_numbers.*1 /\ (v, m) ∈ number_modes.
Proof.
  unfold number_mode. intros E. apply fmap_Some in E as ([v' m'] & E & ->). apply find_some in E as [Hin Ev].
  simpl in Ev. apply Z.eqb_eq in Ev as ->. apply list_elem_of_In in Hin. split; [|done].
  assert (Hall : forallb (fun p => bool_decide (p.2 ∈ mode_numbers.*1)) number_modes = true) by (vm_compute; done).
  rewrite forallb_forall in Hall. specialize (Hall _ (proj1 (list_elem_of_In _ _) Hin)).
  by apply bool_decide_eq_true in Hall.
Qed.

(** The numbers that are also the value of their enumerator. *)
Definition numbered : list Z :=
  [Mode.MouseExtended; Mode.MouseSGR; Mode.MouseURXVT; Mode.MouseSGRPixels; Mode.MouseAlternateScroll;
   Mode.BatchedRendering; Mode.Unicode; Mode.TextReflow; Mode.MousePassiveTracking; Mode.ReportGridCellSelection;
   Mode.ReportColorPaletteUpdated; Mode.SixelCursorNextToGraphic].

(** A request for the state of a DEC mode takes the number as the value of
    the enumeration.  The answer is about the mode that was asked for, with
    its number and whether it is set, exactly for the twelve modes whose
    enumerator has its number as value; for every other mode number some state
    of the modes is reported wrongly. *)
Lemma mode_report_correct_iff v m : number_mode v = Some m ->
  (forall ms, requestDECMode ms v = dec_mode_report v (of_enabled (enabled ms m))) <-> v ∈ numbered.
Proof.
  intros E. apply number_mode_valid in E as [_ Hin].
  assert (Hsplit : forallb (fun p => if bool_decide (p.1 ∈ numbered)
      then (p.1 =? p.2) && (toDECModeNum (u16 p.1) =? p.1) && (u16 p.1 =? p.1) && isValidDECMode p.1
      else negb (bool_decide (requestDECMode Modes_init p.1 = dec_mode_report p.1 (of_enabled (enabled Modes_init p.2)))))
    number_modes = true) by (vm_compute; done).
  rewrite forallb_forall in Hsplit. specialize (Hsplit _ (proj1 (list_elem_of_In _ _) Hin)). simpl in Hsplit.
  destruct (bool_decide_reflect (v ∈ numbered)) as [Hv|Hv].
  - split; [done|]. intros _ ms.
    apply andb_prop in Hsplit as [[[E1 E2]%andb_prop E3]%andb_prop E4].
    apply Z.eqb_eq in E1, E2, E3. unfold requestDECMode. by rewrite E2, E4, E3, E1.
  - split; [|done]. intros Hall. apply negb_true_iff, bool_decide_eq_false in Hsplit. by destruct Hsplit.
Qed.

(** ** Saving and restoring *)

Lemma enabled_set ms m b k : enabled (set_dec m b ms) k =
  if bool_decide (k = m) && negb (frozen ms m) then b else enabled ms k.
Proof.
  unfold set_dec, enabled. destruct (frozen ms m); [by rewrite andb_false_r|]. rewrite andb_true_r. simpl.
  unfold put_bit. destruct (bool_decide_reflect (k = m)) as [->|Hne], b; simpl.
  - apply bool_decide_eq_true_2. set_solver.
  - apply bool_decide_eq_false_2. set_solver.
  - apply bool_decide_ext. set_solver.
  - apply bool_decide_ext. set_solver.
Qed.
Lemma frozen_set ms m b k : frozen (set_dec m b ms) k = frozen ms k.
Proof. unfold set_dec. by destruct (frozen ms m) eqn:E. Qed.
Lemma saved_set ms m b k : saved (set_dec m b ms) k = saved ms k.
Proof. unfold set_dec. by destruct (frozen ms m). Qed.
Lemma saved_with ms m l k : saved (with_savedModes ms m l) k = if bool_decide (k = m) then l else saved ms k.
Proof.
  unfold saved. simpl. case_bool_decide as E; [subst; by rewrite lookup_insert_eq|].
  by rewrite lookup_insert_ne.
Qed.

Definition occurs (m : Z) (modes : list Z) : nat := length (filter (fun k => k = m) modes).

Lemma save_spec modes : forall ms m,
  saved (save modes ms) m = saved ms m ++ replicate (occurs m modes) (enabled ms m) /\
  enabled (save modes ms) m = enabled ms m /\ frozen (save modes ms) m = frozen ms m.
Proof.
  induction modes as [|k modes IH]; intros ms m; [by rewrite app_nil_r|]. simpl.
  destruct (IH (save_one ms k) m) as (-> & -> & ->).
  change (enabled (save_one ms k) m) with (enabled ms m). split; [|done].
  unfold save_one, occurs. rewrite saved_with, filter_cons. case_bool_decide as E; [|by rewrite decide_False by congruence].
  subst. rewrite decide_True by done. simpl. by rewrite <- app_assoc.
Qed.

Lemma restore_one_other ms k m : m <> k ->
  saved (restore_one ms k) m = saved ms m /\ enabled (restore_one ms k) m = enabled ms m.
Proof.
  intros Hne. unfold restore_one. destruct (last (saved ms k)) as [b|]; [|done].
  rewrite saved_with, saved_set, bool_decide_false by done. split; [done|].
  change (enabled (with_savedModes ?x _ _) m) with (enabled x m). by rewrite enabled_set, bool_decide_false.
Qed.
Lemma restore_one_frozen ms k m : frozen (restore_one ms k) m = frozen ms m.
Proof. unfold restore_one. destruct (last (saved ms k)) as [b|]; [|done]. apply frozen_set. Qed.

Lemma restore_spec modes : forall ms m base b, saved ms m = base ++ replicate (occurs m modes) b ->
  saved (restore modes ms) m = base /\ frozen (restore modes ms) m = frozen ms m /\
  enabled (restore modes ms) m =
    if bool_decide (m ∈ modes) && negb (frozen ms m) then b else enabled ms m.
Proof.
  induction modes as [|k modes IH]; intros ms m base b Hs.
  { simpl. rewrite app_nil_r in Hs. done. }
  simpl. unfold occurs in Hs. rewrite filter_cons in Hs. destruct (decide (k = m)) as [->|Hne].
  - cbn [length] in Hs. assert (Hl : saved ms m = (base ++ replicate (occurs m modes) b) ++ [b]).
    { rewrite Hs. by rewrite replicate_S_end, app_assoc. }
    assert (Hone : restore_one ms m = with_savedModes (set_dec m b ms) m (base ++ replicate (occurs m modes) b)).
    { unfold restore_one. by rewrite Hl, last_snoc, removelast_last. }
    rewrite Hone. destruct (IH (with_savedModes (set_dec m b ms) m (base ++ replicate (occurs m modes) b)) m base b)
      as (E1 & E2 & E3); [by rewrite saved_with, bool_decide_true|].
    change (frozen (with_savedModes ?x _ _) m) with (frozen x m) in *.
    change (enabled (with_savedModes ?x _ _) m) with (enabled x m) in *. rewrite frozen_set in *.
    split_and!; [done..|]. rewrite E3, enabled_set.
    rewrite (bool_decide_true (m = m)), (bool_decide_true (m ∈ m :: modes)) by set_solver.
    by destruct (bool_decide _), (frozen ms m).
  - destruct (restore_one_other ms k m) as [Es Ee]; [done|]. destruct (IH (restore_one ms k) m base b) as (-> & -> & ->).
    { rewrite Es. exact Hs. }
    rewrite restore_one_frozen, Ee. split_and!; [done..|].
    by rewrite (bool_decide_ext (m ∈ modes) (m ∈ k :: modes)) by set_solver.
Qed.

(** What an application does between saving and restoring: it sets modes, and
    saves and restores modes of its own. *)
Inductive ModeProgram :=
| Skip
| SetMode (m : Z) (enable : bool) (rest : ModeProgram)
| Nested (modes : list Z) (body rest : ModeProgram).
Fixpoint run_modes (p : ModeProgram) (ms : Modes) : Modes :=
  match p with
  | Skip => ms
  | SetMode m b rest => run_modes rest (set_dec m b ms)
  | Nested modes body rest => run_modes rest (restore modes (run_modes body (save modes ms)))
  end.

Lemma run_modes_frame p : forall ms m,
  saved (run_modes p ms) m = saved ms m /\ frozen (run_modes p ms) m = frozen ms m.
Proof.
  induction p as [|m' b rest IH|modes body IHb rest IH]; intros ms m; simpl; [done| |].
  - destruct (IH (set_dec m' b ms) m) as [-> ->]. by rewrite saved_set, frozen_set.
  - destruct (IH (restore modes (run_modes body (save modes ms))) m) as [-> ->].
    destruct (IHb (save modes ms) m) as [Eb Ef]. destruct (save_spec modes ms m) as (Es & _ & Esf).
    destruct (restore_spec modes (run_modes body (save modes ms)) m (saved ms m) (enabled ms m)) as (-> & -> & _).
    { by rewrite Eb. }
    by rewrite Ef.
Qed.

Lemma run_modes_frozen p : forall ms m, frozen ms m = true -> enabled (run_modes p ms) m = enabled ms m.
Proof.
  induction p as [|m' b rest IH|modes body IHb rest IH]; intros ms m Hf; simpl; [done| |].
  - rewrite IH by (by rewrite frozen_set). rewrite enabled_set.
    destruct (bool_decide_reflect (m = m')) as [<-|]; [|done]. by rewrite Hf.
  - destruct (save_spec modes ms m) as (Es & Ee & Ef). destruct (run_modes_frame body (save modes ms) m) as [Fs Ff].
    destruct (restore_spec modes (run_modes body (save modes ms)) m (saved ms m) (enabled ms m)) as (_ & Gf & Ge);
      [by rewrite Fs|]. rewrite Ff, Ef, Hf in Gf. rewrite IH by done. rewrite Ge, Ff, Ef, Hf, andb_false_r.
    rewrite IHb by (by rewrite Ef). done.
Qed.

(** C25: Saving mode bits and restoring them later brings back each of them, whatever the
    application set in between and however it nested savings of its own; modes that were not
    saved keep what they were set to in between, and the values saved before are still there.
    This concerns the bits, not the state that the modes stand for. *)
Theorem mode_save_restore modes body ms m :
  let ms' := restore modes (run_modes body (save modes ms)) in
  enabled ms' m = (if bool_decide (m ∈ modes) then enabled ms m else enabled (run_modes body (save modes ms)) m) /\
  saved ms' m = saved ms m.
Proof.
  intros ms'. destruct (save_spec modes ms m) as (Es & Ee & Ef).
  destruct (run_modes_frame body (save modes ms) m) as [Fs Ff].
  destruct (restore_spec modes (run_modes body (save modes ms)) m (saved ms m) (enabled ms m)) as (G1 & _ & G2);
    [by rewrite Fs|]. split; [|done]. unfold ms'. rewrite G2. destruct (bool_decide (m ∈ modes)); [|done]. simpl.
  rewrite Ff, Ef. destruct (frozen ms m) eqn:E; [|done]. simpl. by rewrite run_modes_frozen, Ee by (by rewrite Ef).
Qed.

(** ** Concrete cases *)

(** Asked for the origin mode, 6, the terminal reports mode 1000. *)
Example origin_mode_report :
  requestDECMode (set_dec Mode.Origin true Modes_init) 6 = dec_mode_report 1000 IsReset.
Proof. vm_compute. reflexivity. Qed.

(** The number of the private colour registers, 1070, is not known when the
    mode is set. *)
Example private_registers_number :
  toDECModeNum Mode.UsePrivateColorRegisters = 1070 /\ number_mode 1070 = None.
Proof. split; reflexivity. Qed.

(** The number of an ANSI mode is cut to 8 bits: 260 is answered as mode 4. *)
Example ansi_mode_cut : requestAnsiMode (set_ansi AnsiMode.Insert true Modes_init) 260 = ansi_mode_report 4 IsSet.
Proof. vm_compute. reflexivity. Qed.

(** Saving twice and restoring once leaves the older value saved. *)
Example nested_saves :
  let ms := save [Mode.AutoWrap] (set_dec Mode.AutoWrap true (save [Mode.AutoWrap] Modes_init)) in
  let ms' := restore [Mode.AutoWrap] (set_dec Mode.AutoWrap false ms) in
  (enabled ms' Mode.AutoWrap, saved ms' Mode.AutoWrap, enabled (restore [Mode.AutoWrap] ms') Mode.AutoWrap) =
  (true, [false], false).
Proof. vm_compute. reflexivity. Qed.
