(* ===== verification/Base64.v ===== *)
(** * crispy::base64 (src/crispy/base64.h)

    The encoder as the state machine of the source, which keeps up to two
    pending bytes, and the decoder, which writes into a buffer sized by
    [decodeLength].  Bytes are integers from 0 to 255. *)
From Stdlib Require Import String.
From S2P Require Import Prelude Color.

Definition Base64Alphabet : list Z :=
  bytes "ABCDEFGHIJKLMNOPQRSTUVWXYZabcdefghijklmnopqrstuvwxyz0123456789+/".

Definition IndexMap : list Z :=
  [64; 64; 64; 64; 64; 64; 64; 64; 64; 64; 64; 64; 64; 64; 64; 64;
   64; 64; 64; 64; 64; 64; 64; 64; 64; 64; 64; 64; 64; 64; 64; 64;
   64; 64; 64; 64; 64; 64; 64; 64; 64; 64; 64; 62; 64; 64; 64; 63;
   52; 53; 54; 55; 56; 57; 58; 59; 60; 61; 64; 64; 64; 64; 64; 64;
   64; 0; 1; 2; 3; 4; 5; 6; 7; 8; 9; 10; 11; 12; 13; 14;
   15; 16; 17; 18; 19; 20; 21; 22; 23; 24; 25; 64; 64; 64; 64; 64;
   64; 26; 27; 28; 29; 30; 31; 32; 33; 34; 35; 36; 37; 38; 39; 40;
   41; 42; 43; 44; 45; 46; 47; 48; 49; 50; 51; 64; 64; 64; 64; 64;
   64; 64; 64; 64; 64; 64; 64; 64; 64; 64; 64; 64; 64; 64; 64; 64;
   64; 64; 64; 64; 64; 64; 64; 64; 64; 64; 64; 64; 64; 64; 64; 64;
   64; 64; 64; 64; 64; 64; 64; 64; 64; 64; 64; 64; 64; 64; 64; 64;
   64; 64; 64; 64; 64; 64; 64; 64; 64; 64; 64; 64; 64; 64; 64; 64;
   64; 64; 64; 64; 64; 64; 64; 64; 64; 64; 64; 64; 64; 64; 64; 64;
   64; 64; 64; 64; 64; 64; 64; 64; 64; 64; 64; 64; 64; 64; 64; 64;
   64; 64; 64; 64; 64; 64; 64; 64; 64; 64; 64; 64; 64; 64; 64; 64;
   64; 64; 64; 64; 64; 64; 64; 64; 64; 64; 64; 64; 64; 64; 64; 64].

(** Reading a table; both tables are indexed within their size only. *)
Definition at_table (table : list Z) (i : Z) : Z := default 0 (table !! Z.to_nat i).

(** ** Encoding *)

Record encoder_state := mk_encoder { modulo : Z; pending : list Z }.

Definition initial_encoder : encoder_state := mk_encoder 0 [0; 0; 0].

Definition input (st : encoder_state) (i : nat) : Z := default 0 (pending st !! i).

(** The four indices of the source's expressions. *)
Definition sextet0 (a : Z) : Z := Z.land (Z.shiftr a 2) 0x3F.
Definition sextet1 (a b : Z) : Z :=
  u8 (Z.lor (Z.shiftl (Z.land a 0x03) 4) (Z.shiftr (Z.land b 0xF0) 4)).
Definition sextet2 (b c : Z) : Z :=
  u8 (Z.lor (Z.shiftl (Z.land b 0x0F) 2) (Z.shiftr (Z.land c 0xC0) 6)).
Definition sextet3 (c : Z) : Z := Z.land c 0x3F.

(** [encode(ch, alphabet, state, s)]: the new state and what the sink gets. *)
Definition encode_byte (alphabet : list Z) (ch : Z) (st : encoder_state) :
    encoder_state * list Z :=
  let st := mk_encoder (modulo st) (<[Z.to_nat (modulo st) := ch]> (pending st)) in
  let m := u8 (modulo st + 1) in
  if negb (m =? 3) then (mk_encoder m (pending st), [])
  else
    let i := input st in
    (mk_encoder 0 (pending st),
     [at_table alphabet (sextet0 (i 0%nat)); at_table alphabet (sextet1 (i 0%nat) (i 1%nat));
      at_table alphabet (sextet2 (i 1%nat) (i 2%nat)); at_table alphabet (sextet3 (i 2%nat))]).

Definition finish (alphabet : list Z) (st : encoder_state) : encoder_state * list Z :=
  let i := input st in
  if modulo st =? 2 then
    (mk_encoder 0 (pending st),
     [at_table alphabet (sextet0 (i 0%nat)); at_table alphabet (sextet1 (i 0%nat) (i 1%nat));
      at_table alphabet (u8 (Z.shiftl (Z.land (i 1%nat) 0x0F) 2)); 0x3D])
  else if modulo st =? 1 then
    (mk_encoder 0 (pending st),
     [at_table alphabet (sextet0 (i 0%nat));
      at_table alphabet (Z.shiftl (Z.land (i 0%nat) 0x03) 4); 0x3D; 0x3D])
  else (st, []).

Fixpoint encode_loop (alphabet : list Z) (text : list Z) (st : encoder_state) :
    encoder_state * list Z :=
  match text with
  | [] => (st, [])
  | ch :: text' =>
      let '(st1, out1) := encode_byte alphabet ch st in
      let '(st2, out2) := encode_loop alphabet text' st1 in (st2, out1 ++ out2)
  end.

Definition encode (text : list Z) : list Z :=
  let '(st, out) := encode_loop Base64Alphabet text initial_encoder in
  out ++ snd (finish Base64Alphabet st).

(** The overload [finish(state, sink)] passes the index map as alphabet. *)
Definition finish_default (st : encoder_state) : encoder_state * list Z := finish IndexMap st.

(** ** Decoding *)

Definition index (ch : Z) : Z := at_table IndexMap (u8 ch).

(** The leading characters whose index the loop accepts. *)
Fixpoint accepted (ok : Z -> bool) (text : list Z) : list Z :=
  match text with
  | [] => []
  | ch :: text' => if ok (index ch) then ch :: accepted ok text' else []
  end.

(** [std::distance(begin, pos) - 1], divided with C++'s rounding. *)
Definition decodeLength (text : list Z) : Z :=
  let nprbytes := Z.of_nat (length (accepted (fun i => i <? 256) text)) - 1 in
  Z.quot (nprbytes + 3) 4 * 3.

Definition byte0 (i j : Z) : Z := u8 (Z.lor (Z.shiftl i 2) (Z.shiftr j 4)).
Definition byte1 (j k : Z) : Z := u8 (Z.lor (Z.shiftl j 4) (Z.shiftr k 2)).
Definition byte2 (k l : Z) : Z := u8 (Z.lor (Z.shiftl k 6) l).

(** What is written once at most four characters are left. *)
Definition decode_tail (l : list Z) : list Z :=
  match l with
  | [a; b] => [byte0 a b]
  | [a; b; c] => [byte0 a b; byte1 b c]
  | [a; b; c; d] => [byte0 a b; byte1 b c; byte2 c d]
  | _ => []
  end.

(** The indices of the accepted characters, four at a time while more than
    four are left. *)
Fixpoint decode_loop (l : list Z) : list Z :=
  match l with
  | a :: b :: c :: d :: ((_ :: _) as l') => byte0 a b :: byte1 b c :: byte2 c d :: decode_loop l'
  | _ => decode_tail l
  end.

(** The characters left for the tail. *)
Fixpoint decode_rest (l : list Z) : Z :=
  match l with
  | _ :: _ :: _ :: _ :: ((_ :: _) as l') => decode_rest l'
  | _ => Z.of_nat (length l)
  end.

(** [decode] into a buffer: the bytes written to it, and the count returned. *)
Definition decode_into (text : list Z) : list Z * Z :=
  match text with
  | [] => ([], 0)
  | _ =>
      let l := map index (accepted (fun i => i <=? 63) text) in
      let nprbytes := Z.of_nat (length l) in
      (decode_loop l, u64 ((nprbytes + 3) / 4 * 3 - Z.land (u64 (4 - decode_rest l)) 0x03))
  end.

(** [std::string::resize]. *)
Definition resize (n : Z) (s : list Z) : list Z :=
  take (Z.to_nat n) s ++ replicate (Z.to_nat n - length s) 0.

(** [decode(string_view)]; [None]: bytes are written past the buffer. *)
Definition decode (text : list Z) : option (list Z) :=
  let '(out, count) := decode_into text in
  if Z.of_nat (length out) <=? decodeLength text then
    Some (resize count (out ++ replicate (Z.to_nat (decodeLength text) - length out) 0))
  else None.

(** ** The sextets as arithmetic *)

Definition is_byte (z : Z) : Prop := 0 <= z < 256.

Lemma sextet_values a b : is_byte a -> is_byte b ->
  sextet0 a = a / 4 /\ sextet1 a b = a mod 4 * 16 + b / 16 /\
  sextet2 a b = a mod 16 * 4 + b / 64 /\ sextet3 a = a mod 64.
Proof.
  intros Ha Hb. rewrite <- !Z.eqb_eq, <- !andb_true_iff.
  apply (for_all_below2 256 256 (fun a b => (sextet0 a =? a / 4) &&
    ((sextet1 a b =? a mod 4 * 16 + b / 16) &&
     ((sextet2 a b =? a mod 16 * 4 + b / 64) && (sextet3 a =? a mod 64))))); [|done..].
  vm_compute. reflexivity.
Qed.

Lemma last_sextets a : is_byte a ->
  u8 (Z.shiftl (Z.land a 0x0F) 2) = a mod 16 * 4 /\ Z.shiftl (Z.land a 0x03) 4 = a mod 4 * 16.
Proof.
  intros Ha. rewrite <- !Z.eqb_eq, <- andb_true_iff.
  apply (for_all_below 256 (fun a => (u8 (Z.shiftl (Z.land a 0x0F) 2) =? a mod 16 * 4) &&
    (Z.shiftl (Z.land a 0x03) 4 =? a mod 4 * 16))); [|done]. vm_compute. reflexivity.
Qed.

Lemma byte_values i j : 0 <= i < 64 -> 0 <= j < 64 ->
  byte0 i j = (i * 4 + j / 16) mod 256 /\ byte1 i j = (i * 16 + j / 4) mod 256 /\
  byte2 i j = (i * 64 + j) mod 256.
Proof.
  intros Hi Hj. rewrite <- !Z.eqb_eq, <- !andb_true_iff.
  apply (for_all_below2 64 64 (fun i j => (byte0 i j =? (i * 4 + j / 16) mod 256) &&
    ((byte1 i j =? (i * 16 + j / 4) mod 256) && (byte2 i j =? (i * 64 + j) mod 256)))); [|done..].
  vm_compute. reflexivity.
Qed.

Lemma index_alphabet v : 0 <= v < 64 -> index (at_table Base64Alphabet v) = v.
Proof.
  intros Hv. apply Z.eqb_eq.
  apply (for_all_below 64 (fun v => index (at_table Base64Alphabet v) =? v)); [|done].
  vm_compute. reflexivity.
Qed.

Ltac euclid := Z.to_euclidean_division_equations; lia.

(** The bytes of a group come back from its sextets. *)
Lemma group_back a b c : is_byte a -> is_byte b -> is_byte c ->
  let i := sextet0 a in let j := sextet1 a b in let k := sextet2 b c in let l := sextet3 c in
  (0 <= i < 64 /\ 0 <= j < 64 /\ 0 <= k < 64 /\ 0 <= l < 64) /\
  byte0 i j = a /\ byte1 j k = b /\ byte2 k l = c.
Proof.
  intros Ha Hb Hc i j k l. subst i j k l.
  destruct (sextet_values a b Ha Hb) as (-> & -> & _ & _).
  destruct (sextet_values b c Hb Hc) as (_ & _ & -> & _).
  destruct (sextet_values c a Hc Ha) as (_ & _ & _ & ->). unfold is_byte in *.
  assert (0 <= a / 4 < 64 /\ 0 <= a mod 4 * 16 + b / 16 < 64 /\ 0 <= b mod 16 * 4 + c / 64 < 64 /\
    0 <= c mod 64 < 64) as (Hi & Hj & Hk & Hl) by euclid.
  split; [done|].
  destruct (byte_values _ _ Hi Hj) as (-> & _ & _). destruct (byte_values _ _ Hj Hk) as (_ & -> & _).
  destruct (byte_values _ _ Hk Hl) as (_ & _ & ->). split_and!; euclid.
Qed.

(** The bytes of the two short groups. *)
Lemma short_group_back a b : is_byte a -> is_byte b ->
  let k := u8 (Z.shiftl (Z.land b 0x0F) 2) in let j := Z.shiftl (Z.land a 0x03) 4 in
  0 <= k < 64 /\ 0 <= j < 64 /\ byte1 (sextet1 a b) k = b /\ byte0 (sextet0 a) j = a.
Proof.
  intros Ha Hb k j. subst k j. destruct (last_sextets a Ha) as [_ ->]. destruct (last_sextets b Hb) as [-> _].
  destruct (sextet_values a b Ha Hb) as (-> & -> & _ & _). unfold is_byte in *.
  assert (0 <= a / 4 < 64 /\ 0 <= a mod 4 * 16 < 64 /\ 0 <= b mod 16 * 4 < 64 /\
    0 <= a mod 4 * 16 + b / 16 < 64) as (Hi & Hj & Hk & Hm) by euclid.
  destruct (byte_values _ _ Hm Hk) as (_ & -> & _). destruct (byte_values _ _ Hi Hj) as (-> & _ & _).
  split_and!; euclid.
Qed.

(** ** The encoder writes groups of four *)

Fixpoint groups (s : list Z) : list Z :=
  match s with
  | a :: b :: c :: s' => sextet0 a :: sextet1 a b :: sextet2 b c :: sextet3 c :: groups s'
  | [a; b] => [sextet0 a; sextet1 a b; u8 (Z.shiftl (Z.land b 0x0F) 2)]
  | [a] => [sextet0 a; Z.shiftl (Z.land a 0x03) 4]
  | [] => []
  end.

Fixpoint padding (s : list Z) : list Z :=
  match s with
  | _ :: _ :: _ :: s' => padding s'
  | [_; _] => [0x3D]
  | [_] => [0x3D; 0x3D]
  | [] => []
  end.

Lemma triples_ind (P : list Z -> Prop) :
  P [] -> (forall a, P [a]) -> (forall a b, P [a; b]) ->
  (forall a b c s, P s -> P (a :: b :: c :: s)) -> forall s, P s.
Proof.
  intros H0 H1 H2 H3. fix IH 1. intros [|a [|b [|c s]]]; [done|apply H1|apply H2|apply H3, IH].
Qed.

Lemma encode_groups s : forall st, modulo st = 0 -> length (pending st) = 3%nat ->
  let '(st', out) := encode_loop Base64Alphabet s st in
  out ++ snd (finish Base64Alphabet st') = map (at_table Base64Alphabet) (groups s) ++ padding s.
Proof.
  induction s as [|a|a b|a b c s IH] using triples_ind; intros [m p] Hm Hp; cbn [modulo pending] in *; subst m;
    destruct p as [|p0 [|p1 [|p2 [|? ?]]]]; try done.
  specialize (IH (mk_encoder 0 [a; b; c]) eq_refl eq_refl).
  assert (encode_loop Base64Alphabet (a :: b :: c :: s) (mk_encoder 0 [p0; p1; p2]) =
    let '(st', out) := encode_loop Base64Alphabet s (mk_encoder 0 [a; b; c]) in
    (st', map (at_table Base64Alphabet) [sextet0 a; sextet1 a b; sextet2 b c; sextet3 c] ++ out)) as ->.
  { cbn [encode_loop].
    change (encode_byte Base64Alphabet a (mk_encoder 0 [p0; p1; p2])) with (mk_encoder 1 [a; p1; p2], @nil Z).
    cbv iota beta.
    change (encode_byte Base64Alphabet b (mk_encoder 1 [a; p1; p2])) with (mk_encoder 2 [a; b; p2], @nil Z).
    cbv iota beta.
    change (encode_byte Base64Alphabet c (mk_encoder 2 [a; b; p2])) with (mk_encoder 0 [a; b; c],
      map (at_table Base64Alphabet) [sextet0 a; sextet1 a b; sextet2 b c; sextet3 c]).
    cbv iota beta. by destruct (encode_loop Base64Alphabet s (mk_encoder 0 [a; b; c])). }
  destruct (encode_loop Base64Alphabet s (mk_encoder 0 [a; b; c])) as [st' out].
  rewrite <- app_assoc, IH. done.
Qed.

Lemma encode_ok s : encode s = map (at_table Base64Alphabet) (groups s) ++ padding s.
Proof.
  unfold encode. pose proof (encode_groups s initial_encoder eq_refl eq_refl) as E.
  by destruct (encode_loop Base64Alphabet s initial_encoder).
Qed.

Lemma groups_bound s : Forall is_byte s -> Forall (fun v => 0 <= v < 64) (groups s).
Proof.
  induction s as [|a|a b|a b c s IH] using triples_ind; intros Hs; cbn [groups].
  - done.
  - apply Forall_cons in Hs as [Ha _]. destruct (short_group_back a a Ha Ha) as (_ & Hj & _).
    destruct (group_back a a a Ha Ha Ha) as ((Hi & _) & _). by repeat apply Forall_cons_2.
  - rewrite !Forall_cons in Hs. destruct Hs as (Ha & Hb & _).
    destruct (short_group_back a b Ha Hb) as (Hk & _).
    destruct (group_back a b a Ha Hb Ha) as ((Hi & Hj & _) & _). by repeat apply Forall_cons_2.
  - rewrite !Forall_cons in Hs. destruct Hs as (Ha & Hb & Hc & Hs).
    destruct (group_back a b c Ha Hb Hc) as ((Hi & Hj & Hk & Hl) & _).
    repeat apply Forall_cons_2; try done. by apply IH.
Qed.

(** ** The decoder reads them back *)

Lemma accepted_map l r : Forall (fun v => 0 <= v < 64) l ->
  (r = [] \/ exists r', r = 0x3D :: r') ->
  map index (accepted (fun i => i <=? 63) (map (at_table Base64Alphabet) l ++ r)) = l.
Proof.
  intros Hl Hr. induction Hl as [|v l Hv Hl IH]; cbn [map app accepted].
  - destruct Hr as [->|[r' ->]]; [done|]. cbn [accepted]. by replace (index 0x3D <=? 63) with false by done.
  - rewrite index_alphabet by done. rewrite (proj2 (Z.leb_le v 63)) by lia.
    cbn [map]. rewrite index_alphabet by done. by f_equal.
Qed.

Lemma padding_cases s : padding s = [] \/ exists r, padding s = 0x3D :: r.
Proof. induction s using triples_ind; cbn; eauto. Qed.

Lemma decode_cons a b c d l : decode_loop (a :: b :: c :: d :: l) =
  byte0 a b :: byte1 b c :: byte2 c d :: decode_loop l.
Proof. by destruct l. Qed.

Lemma decode_groups s : Forall is_byte s -> decode_loop (groups s) = s.
Proof.
  induction s as [|a|a b|a b c s IH] using triples_ind; intros Hs; cbn [groups].
  - done.
  - apply Forall_cons in Hs as [Ha _]. destruct (short_group_back a a Ha Ha) as (_ & _ & _ & E).
    cbn [decode_loop decode_tail]. by rewrite E.
  - rewrite !Forall_cons in Hs. destruct Hs as (Ha & Hb & _).
    destruct (short_group_back a b Ha Hb) as (_ & _ & E & _).
    destruct (group_back a b a Ha Hb Ha) as (_ & E0 & _). cbn [decode_loop decode_tail]. by rewrite E, E0.
  - rewrite !Forall_cons in Hs. destruct Hs as (Ha & Hb & Hc & Hs).
    destruct (group_back a b c Ha Hb Hc) as (_ & E0 & E1 & E2).
    rewrite decode_cons, E0, E1, E2. by rewrite IH.
Qed.

Lemma quads_ind (P : list Z -> Prop) :
  P [] -> (forall a, P [a]) -> (forall a b, P [a; b]) -> (forall a b c, P [a; b; c]) ->
  (forall a b c d s, P s -> P (a :: b :: c :: d :: s)) -> forall s, P s.
Proof.
  intros H0 H1 H2 H3 H4. fix IH 1.
  intros [|a [|b [|c [|d s]]]]; [done|apply H1|apply H2|apply H3|apply H4, IH].
Qed.

(** The number of bytes written. *)
Definition decoded_size (n : Z) : Z := n / 4 * 3 + Z.max 0 (n mod 4 - 1).

Lemma decode_length l : Z.of_nat (length (decode_loop l)) = decoded_size (Z.of_nat (length l)).
Proof.
  unfold decoded_size. induction l as [|a|a b|a b c|a b c d l IH] using quads_ind; try done.
  rewrite decode_cons. cbn [length].
  replace (Z.of_nat (S (S (S (S (length l)))))) with (Z.of_nat (length l) + 1 * 4) by lia.
  rewrite Z.div_add, Z.mod_add by done. lia.
Qed.

Lemma decode_rest_ok l : Z.land (u64 (4 - decode_rest l)) 0x03 = (- Z.of_nat (length l)) mod 4.
Proof.
  induction l as [|a|a b|a b c|a b c d l IH] using quads_ind; try done.
  destruct l as [|e l]; [done|]. set (l' := e :: l) in *.
  change (decode_rest (a :: b :: c :: d :: l')) with (decode_rest l'). rewrite IH. cbn [length].
  replace (- Z.of_nat (S (S (S (S (length l')))))) with (- Z.of_nat (length l') + (-1) * 4) by lia.
  by rewrite Z.mod_add.
Qed.

(** The count returned is the number of bytes written. *)
Lemma decode_count l : Z.of_nat (length l) < 2 ^ 62 ->
  u64 ((Z.of_nat (length l) + 3) / 4 * 3 - Z.land (u64 (4 - decode_rest l)) 0x03) =
  Z.of_nat (length (decode_loop l)).
Proof.
  intros Hl. rewrite decode_rest_ok, decode_length. unfold decoded_size. rewrite u64_small.
  - Z.to_euclidean_division_equations. lia.
  - Z.to_euclidean_division_equations. lia.
Qed.

Lemma accepted_length ok text : (length (accepted ok text) <= length text)%nat.
Proof. induction text as [|ch text IH]; cbn; [done|]. destruct (ok _); simpl; lia. Qed.

Lemma index_bound ch : index ch < 256.
Proof.
  apply Z.ltb_lt. apply (for_all_below 256 (fun z => at_table IndexMap z <? 256)); [|by apply Z.mod_pos_bound].
  vm_compute. reflexivity.
Qed.

Lemma accepted_all text : accepted (fun i => i <? 256) text = text.
Proof.
  induction text as [|ch text IH]; [done|]. cbn [accepted].
  rewrite (proj2 (Z.ltb_lt _ _) (index_bound ch)). by f_equal.
Qed.

Lemma decode_ok text : Z.of_nat (length text) < 2 ^ 62 ->
  decode text = Some (decode_loop (map index (accepted (fun i => i <=? 63) text))).
Proof.
  intros Ht. unfold decode, decode_into. destruct text as [|ch text]; [done|]. set (t := ch :: text) in *.
  set (l := map index (accepted (fun i => i <=? 63) t)).
  assert (length l <= length t)%nat as Hlen by (unfold l; rewrite length_map; apply accepted_length).
  rewrite decode_count by lia.
  assert (Z.of_nat (length (decode_loop l)) <= decodeLength t) as Hfit.
  { unfold decodeLength. rewrite accepted_all, decode_length. unfold decoded_size.
    assert (1 <= Z.of_nat (length t)) by (subst t; simpl length; lia).
    rewrite Z.quot_div_nonneg by lia. Z.to_euclidean_division_equations. lia. }
  rewrite (proj2 (Z.leb_le _ _) Hfit). f_equal. unfold resize. rewrite Nat2Z.id, take_app_length.
  rewrite length_app. replace (_ - _)%nat with 0%nat by lia. apply app_nil_r.
Qed.

(** Encoding any bytes in base64 and decoding the result gives them
    back, and the decoder stays within the buffer it sizes by
    [decodeLength]. *)
Lemma base64_roundtrip (s : list Z) : Forall is_byte s -> Z.of_nat (length s) < 2 ^ 60 ->
  decode (encode s) = Some s.
Proof.
  intros Hs Hlen. rewrite encode_ok. pose proof (groups_bound s Hs) as Hb.
  rewrite decode_ok.
  - rewrite accepted_map by (done || apply padding_cases). by rewrite decode_groups.
  - assert (forall s, length (map (at_table Base64Alphabet) (groups s) ++ padding s) <= 4 * length s)%nat as Hl.
    { clear. intros s. rewrite length_app, length_map.
      induction s as [|a|a b|a b c s IH] using triples_ind; cbn [groups padding length]; lia. }
    specialize (Hl s). lia.
Qed.

(** Whatever text is decoded, the decoder writes no byte past the buffer
    it sized by [decodeLength], and the length it reports is the number of
    bytes it wrote: three for each four accepted characters and one less
    than the characters left over. *)
Lemma base64_decode_bounds (text : list Z) : Z.of_nat (length text) < 2 ^ 62 ->
  exists out, decode text = Some out /\
    Z.of_nat (length out) <= decodeLength text /\
    Z.of_nat (length out) = decoded_size (Z.of_nat (length (accepted (fun i => i <=? 63) text))).
Proof.
  intros Ht. rewrite decode_ok by done. eexists. split; [done|].
  rewrite decode_length, length_map. split; [|done].
  pose proof (accepted_length (fun i => i <=? 63) text). unfold decodeLength. rewrite accepted_all.
  unfold decoded_size. destruct text as [|ch text]; [done|]. simpl length in *.
  rewrite Z.quot_div_nonneg by lia. Z.to_euclidean_division_equations. lia.
Qed.

(** The default [finish] looks the last sextets up in the index map instead
    of the alphabet. *)
Example finish_default_wrong :
  snd (finish_default (fst (encode_byte Base64Alphabet 72 initial_encoder))) = [64; 64; 61; 61] /\
  snd (finish Base64Alphabet (fst (encode_byte Base64Alphabet 72 initial_encoder))) = bytes "SA==".
Proof. vm_compute. done. Qed.
