(* ===== verification/Text.v ===== *)
(** * The text helpers of crispy (src/crispy/utils.h, src/crispy/escape.h)

    Splitting, key-value lists, hexadecimal text, escape sequences and
    variable expansion.  Text is a list of byte values; [char] is signed. *)
From Stdlib Require Import String.
From stdpp Require Import gmap.
From S2P Require Import Prelude Color.

(** ** Searching *)

(** [text.find(ch)]: [None] is [npos]. *)
Fixpoint find (ch : Z) (text : list Z) : option nat :=
  match text with
  | [] => None
  | c :: text' => if c =? ch then Some 0%nat else S <$> find ch text'
  end.

(** [text.find(pattern)] *)
Fixpoint is_prefix (pattern text : list Z) : bool :=
  match pattern, text with
  | [], _ => true
  | p :: pattern', c :: text' => (p =? c) && is_prefix pattern' text'
  | _ :: _, [] => false
  end.

Fixpoint find_text (pattern text : list Z) : option nat :=
  if is_prefix pattern text then Some 0%nat else
  match text with
  | [] => None
  | _ :: text' => S <$> find_text pattern text'
  end.

Fixpoint trimRight_rev (text : list Z) : list Z :=
  match text with
  | [] => []
  | c :: text' => match find c [0x20; 0x09; 0x0D; 0x0A] with
                  | None => text
                  | Some _ => trimRight_rev text'
                  end
  end.
(** [trimRight]: the last character goes while it is blank. *)
Definition trimRight (text : list Z) : list Z := reverse (trimRight_rev (reverse text)).

(** [startsWith] and [endsWith] compare character by character. *)
Definition startsWith (text prefix : list Z) : bool :=
  negb (length text <? length prefix)%nat &&
  forallb (fun i => bool_decide (text !! i = prefix !! i)) (seq 0 (length prefix)).
Definition endsWith (text suffix : list Z) : bool :=
  negb (length text <? length suffix)%nat &&
  forallb (fun i => bool_decide (text !! (length text - length suffix + i)%nat = suffix !! i))
    (seq 0 (length suffix)).

(** ** split *)

(** The loop of [split], on what is left of the text from [a] on. *)
Fixpoint split_loop (fuel : nat) (text : list Z) (delimiter : Z) : list (list Z) :=
  match fuel with
  | O => []
  | S fuel' =>
      match find delimiter text with
      | Some b => take b text :: split_loop fuel' (drop (S b) text) delimiter
      | None => match text with [] => [] | _ => [text] end
      end
  end.
Definition split (text : list Z) (delimiter : Z) : list (list Z) :=
  split_loop (S (length text)) text delimiter.

(** ** splitKeyValuePairs *)

Definition add_param (param : list Z) (params : gmap (list Z) (list Z)) : gmap (list Z) (list Z) :=
  match find 0x3D param with
  | Some k =>
      let key := take k param in
      let val := drop (S k) param in
      match key with [] => params | _ => <[key := val]> params end
  | None => params
  end.

(** The characters of a C string: up to the first NUL. *)
Fixpoint c_string (memory : list Z) : list Z :=
  match memory with
  | [] => []
  | c :: memory' => if c =? 0 then [] else c :: c_string memory'
  end.

(** The last parameter is built from a pointer alone,
    [std::string_view(text.data() + iBeg)], so it ends at the first NUL, not
    at the end of [text]: [behind] is the memory behind the text. *)
Fixpoint pairs_loop (fuel : nat) (text behind : list Z) (delimiter : Z)
    (params : gmap (list Z) (list Z)) : gmap (list Z) (list Z) :=
  match fuel with
  | O => params
  | S fuel' =>
      match find delimiter text with
      | Some i => pairs_loop fuel' (drop (S i) text) behind delimiter (add_param (take i text) params)
      | None => add_param (c_string (text ++ behind)) params
      end
  end.
Definition splitKeyValuePairs (text behind : list Z) (delimiter : Z) : gmap (list Z) (list Z) :=
  pairs_loop (S (length text)) text behind delimiter ∅.

(** ** Hexadecimal text *)

Definition fromHexDigit (value : Z) : option Z :=
  if (0x30 <=? value) && (value <=? 0x39) then Some (value - 0x30)
  else if (0x61 <=? value) && (value <=? 0x66) then Some (10 + value - 0x61)
  else if (0x41 <=? value) && (value <=? 0x46) then Some (10 + value - 0x41)
  else None.

(** The loop over the reversed text, which fills the output from its end. *)
Fixpoint hex_loop (rev output : list Z) : option (list Z) :=
  match rev with
  | c1 :: c2 :: rev' =>
      match fromHexDigit c1, fromHexDigit c2 with
      | Some v1, Some v2 => hex_loop rev' (u8 (Z.lor (Z.shiftl v2 4) v1) :: output)
      | _, _ => None
      end
  | _ => Some output
  end.
Definition fromHexString (text : list Z) : option (list Z) :=
  if negb (Z.of_nat (length text) mod 2 =? 0) then None else hex_loop (reverse text) [].

(** [std::format("{:02X}", static_cast<unsigned>(ch))] of a signed [char]. *)
Fixpoint hex_digits (fuel : nat) (v : Z) : list Z :=
  match fuel with
  | O => []
  | S fuel' => (if v <? 16 then [] else hex_digits fuel' (v / 16)) ++ [hex_digit (v mod 16)]
  end.
Definition format_02X (v : Z) : list Z :=
  let d := hex_digits 8 v in replicate (2 - length d) 0x30 ++ d.
Definition toHexString (text : list Z) : list Z :=
  concat (map (fun ch => format_02X (u32 (schar ch))) text).

(** ** strntoul *)

(** [None] of the loop is the [return 0] on a character that is no digit;
    a lower-case letter counts from 0, not from 10. *)
Fixpoint strntoul_loop (base : Z) (data : list Z) (result : Z) : option Z :=
  match data with
  | [] => Some result
  | c :: data' =>
      match find c (bytes "0123456789ABCDEF"), find c (bytes "abcdef") with
      | Some i, _ =>
          if Z.of_nat i <? base then strntoul_loop base data' (u64 (u64 (result * base) + Z.of_nat i))
          else None
      | None, Some i =>
          if base =? 16 then strntoul_loop base data' (u64 (u64 (result * base) + Z.of_nat i)) else None
      | None, None => None
      end
  end.
Definition strntoul (base : Z) (data : list Z) : Z := default 0 (strntoul_loop base data 0).

(** ** escape and unescape *)

Inductive numeric_escape := Octal | Hex.

(** [{:02x}] and [{:03o}] of a byte. *)
Definition low_hex_digit (d : Z) : Z := if d <? 10 then 0x30 + d else 0x61 + (d - 10).

Definition escape_byte (ch : Z) (numericEscape : numeric_escape) : list Z :=
  if ch =? 0x5C then [0x5C; 0x5C]
  else if ch =? 0x1B then bytes "\e"
  else if ch =? 0x09 then bytes "\t"
  else if ch =? 0x0D then bytes "\r"
  else if ch =? 0x0A then bytes "\n"
  else if ch =? 0x22 then [0x5C; 0x22]
  else if (0x20 <=? ch) && (ch <? 0x7E) then [ch]
  else match numericEscape with
       | Hex => bytes "\x" ++ [low_hex_digit (ch / 16); low_hex_digit (ch mod 16)]
       | Octal => [0x5C; 0x30 + ch / 64; 0x30 + ch / 8 mod 8; 0x30 + ch mod 8]
       end.
Definition escape (text : list Z) (numericEscape : numeric_escape) : list Z :=
  concat (map (fun ch => escape_byte ch numericEscape) text).

(** [strtoul] of the C library, on a string without its NUL: white space, a
    sign, for base 16 an optional 0x, then digits as far as they go. *)
Definition is_space (c : Z) : bool := (c =? 0x20) || ((0x09 <=? c) && (c <=? 0x0D)).
Fixpoint skip_space (s : list Z) : list Z :=
  match s with c :: s' => if is_space c then skip_space s' else s | [] => [] end.
Fixpoint digits_value (base : Z) (s : list Z) (acc : Z) : Z :=
  match s with
  | [] => acc
  | c :: s' => match fromHexDigit c with
               | Some d => if d <? base then digits_value base s' (acc * base + d) else acc
               | None => acc
               end
  end.
Definition strtoul (base : Z) (s : list Z) : Z :=
  let s := skip_space s in
  let '(neg, s) := match s with
                   | 0x2B :: s' => (false, s')
                   | 0x2D :: s' => (true, s')
                   | _ => (false, s)
                   end in
  let s := match s with
           | 0x30 :: x :: d :: s' =>
               if (base =? 16) && ((x =? 0x78) || (x =? 0x58)) && bool_decide (is_Some (fromHexDigit d))
               then d :: s' else s
           | _ => s
           end in
  let v := digits_value base s 0 in
  if neg then u64 (- v) else v.

Inductive state_type := Text | Escape | Octal1 | Octal2 | Hex1 | Hex2.

(** One character of [unescape]: the state, [buf] and the output. *)
Definition unescape_step (st : state_type * list Z * list Z) (ch : Z) : state_type * list Z * list Z :=
  let '(state, buf, out) := st in
  let text c := (Text, buf, out ++ [c]) in
  match state with
  | Text => if ch =? 0x5C then (Escape, buf, out) else text ch
  | Escape =>
      if ch =? 0x30 then (Octal1, buf, out)
      else if ch =? 0x78 then (Hex1, buf, out)
      else if ch =? 0x65 then text 0x1B
      else if ch =? 0x61 then text 0x07
      else if ch =? 0x62 then text 0x08
      else if ch =? 0x74 then text 0x09
      else if ch =? 0x6E then text 0x0A
      else if ch =? 0x76 then text 0x0B
      else if ch =? 0x66 then text 0x0C
      else if ch =? 0x72 then text 0x0D
      else if ch =? 0x5C then text 0x5C
      else (Text, buf, out ++ [0x5C; ch])
  | Octal1 => (Octal2, <[0%nat := ch]> buf, out)
  | Octal2 => let buf := <[1%nat := ch]> buf in (Text, buf, out ++ [u8 (strtoul 8 (c_string buf))])
  | Hex1 => (Hex2, <[0%nat := ch]> buf, out)
  | Hex2 => let buf := <[1%nat := ch]> buf in (Text, buf, out ++ [u8 (strtoul 16 (c_string buf))])
  end.
Definition unescape (text : list Z) : list Z :=
  snd (foldl unescape_step (Text, [0; 0; 0], []) text).

(** ** replaceVariables *)

(** The loop, on the text from [i] on: the output when it ends. *)
Fixpoint replace_loop (fuel : nat) (replace : list Z -> list Z) (text output : list Z) : list Z :=
  match fuel with
  | O => output
  | S fuel' =>
      match find_text (bytes "${") text with
      | None => output ++ text
      | Some start =>
          let output := output ++ take start text in
          match find_text (bytes "}") (drop (start + 2) text) with
          | None => output ++ text
          | Some n =>
              let name := take n (drop (start + 2) text) in
              replace_loop fuel' replace (drop (start + 2 + n + 1) text) (output ++ replace name)
          end
      end
  end.
Definition replaceVariables (text : list Z) (replace : list Z -> list Z) : list Z :=
  replace_loop (S (length text)) replace text [].

(** ** Searching finds the first occurrence *)

Lemma find_None ch text : find ch text = None <-> Forall (fun c => c <> ch) text.
Proof.
  induction text as [|c text IH]; cbn [find]; [by split|].
  destruct (Z.eqb_spec c ch) as [->|Hne]; rewrite Forall_cons.
  - split; [done|]. by intros [? _].
  - rewrite fmap_None, IH. naive_solver.
Qed.

Lemma find_app ch l r : Forall (fun c => c <> ch) l -> find ch (l ++ ch :: r) = Some (length l).
Proof.
  induction 1 as [|c l Hc Hl IH]; cbn [find app length].
  - by rewrite Z.eqb_refl.
  - rewrite (proj2 (Z.eqb_neq c ch) Hc), IH. done.
Qed.

Lemma find_Some ch text b : find ch text = Some b ->
  exists l r, text = l ++ ch :: r /\ length l = b /\ Forall (fun c => c <> ch) l.
Proof.
  revert b. induction text as [|c text IH]; intros b; cbn [find]; [done|].
  destruct (Z.eqb_spec c ch) as [->|Hne].
  - intros [= <-]. by exists [], text.
  - intros (b' & Hb & ->)%fmap_Some. destruct (IH _ Hb) as (l & r & -> & <- & Hl).
    exists (c :: l), r. split_and!; [done..|]. by apply Forall_cons_2.
Qed.

(** Cutting a text at the delimiter it has been joined with. *)
Lemma cut_app {A} (l : list A) x r : take (length l) (l ++ x :: r) = l /\ drop (S (length l)) (l ++ x :: r) = r.
Proof. split; [apply take_app_length|]. by rewrite drop_app_ge, Nat.sub_succ_l, Nat.sub_diag by lia. Qed.

(** ** split *)

Fixpoint join (d : Z) (parts : list (list Z)) : list Z :=
  match parts with
  | [] => []
  | [p] => p
  | p :: parts' => p ++ d :: join d parts'
  end.

Lemma split_loop_ok d fuel : forall text, (length text < fuel)%nat ->
  Forall (Forall (fun c => c <> d)) (split_loop fuel text d) /\
  (text = join d (split_loop fuel text d) \/ text = join d (split_loop fuel text d) ++ [d]).
Proof.
  induction fuel as [|fuel IH]; intros text Hf; [lia|]. cbn [split_loop].
  destruct (find d text) as [b|] eqn:Hd.
  - apply find_Some in Hd as (l & r & -> & <- & Hl). rewrite length_app in Hf. simpl in Hf.
    destruct (cut_app l d r) as [-> ->]. destruct (IH r ltac:(lia)) as [Hall Hr].
    split; [by apply Forall_cons_2|]. destruct (split_loop fuel r d) as [|p ps] eqn:E.
    + right. destruct Hr as [-> | ->]; [done|]. exfalso.
      destruct fuel; [simpl in Hf; lia|]. cbn in E. by rewrite Z.eqb_refl in E.
    + cbn [join]. destruct Hr as [Hr|Hr]; [left|right]; rewrite Hr at 1; [done|].
      by rewrite <- app_assoc.
  - apply find_None in Hd. destruct text as [|c text]; [by split; [|left]|].
    split; [by apply Forall_cons_2|by left].
Qed.

(** Joining the parts of a text with the delimiter gives the text back, but
    for a delimiter at its end; no part contains the delimiter. *)
Lemma split_join text d : Forall (Forall (fun c => c <> d)) (split text d) /\
  (text = join d (split text d) \/ text = join d (split text d) ++ [d]).
Proof. apply split_loop_ok. lia. Qed.

(** Parts that are not empty and have no delimiter are split apart again. *)
Lemma split_joined d parts : Forall (fun p => p <> [] /\ Forall (fun c => c <> d) p) parts ->
  split (join d parts) d = parts.
Proof.
  unfold split. generalize (le_n (length (join d parts))).
  generalize (length (join d parts)) at 2 3 as fuel. intros fuel Hf Hp. revert fuel Hf.
  induction Hp as [|p parts [Hne Hd] Hp IH]; intros fuel Hf; [done|].
  destruct parts as [|q parts].
  - cbn [join split_loop]. rewrite (proj2 (find_None d p)) by done. by destruct p.
  - change (join d (p :: q :: parts)) with (p ++ d :: join d (q :: parts)) in *.
    cbn [split_loop]. rewrite find_app, take_app_length by done. f_equal.
    rewrite length_app, length_cons in Hf. destruct fuel as [|fuel]; [lia|].
    rewrite (proj2 (cut_app p d (join d (q :: parts)))). apply IH. lia.
Qed.

(** ** splitKeyValuePairs reads back a printed list *)

Definition print_pair (p : list Z * list Z) : list Z := p.1 ++ 0x3D :: p.2.
Definition print_pairs (pairs : list (list Z * list Z)) : list Z := join 0x3A (map print_pair pairs).

(** A key has a character and neither '=' nor ':', a value no ':', and
    neither a NUL. *)
Definition plain (p : list Z * list Z) : Prop :=
  p.1 <> [] /\ Forall (fun c => c <> 0x3D) p.1 /\
  Forall (fun c => c <> 0x3A) (print_pair p) /\ Forall (fun c => c <> 0) (print_pair p).

Definition insert_pair (m : gmap (list Z) (list Z)) (p : list Z * list Z) := <[p.1 := p.2]> m.

Lemma add_param_plain p m : plain p -> add_param (print_pair p) m = insert_pair m p.
Proof.
  destruct p as [k v]. intros (Hk & Heq & _). unfold add_param, print_pair. cbn [fst snd] in *.
  rewrite find_app by done. destruct (cut_app k 0x3D v) as [-> ->]. by destruct k.
Qed.

Lemma c_string_all l behind : Forall (fun c => c <> 0) l -> c_string behind = [] ->
  c_string (l ++ behind) = l.
Proof.
  intros Hl Hb. induction Hl as [|c l Hc Hl IH]; cbn [app c_string]; [done|].
  rewrite (proj2 (Z.eqb_neq c 0) Hc). by f_equal.
Qed.

Lemma pairs_loop_ok behind pairs : c_string behind = [] -> Forall plain pairs ->
  pairs <> [] -> forall fuel m, (length (print_pairs pairs) < fuel)%nat ->
  pairs_loop fuel (print_pairs pairs) behind 0x3A m = foldl insert_pair m pairs.
Proof.
  intros Hb Hall Hne. induction Hall as [|p pairs Hp Hall IH]; [done|]. intros [|fuel] m Hf; [lia|].
  pose proof Hp as (_ & _ & Hcol & Hnul).
  destruct pairs as [|q pairs]; cbn [pairs_loop].
  - change (print_pairs [p]) with (print_pair p).
    rewrite (proj2 (find_None _ _) Hcol), c_string_all, add_param_plain by done. done.
  - change (print_pairs (p :: q :: pairs)) with (print_pair p ++ 0x3A :: print_pairs (q :: pairs)) in *.
    rewrite find_app by done.
    destruct (cut_app (print_pair p) 0x3A (print_pairs (q :: pairs))) as [-> ->].
    rewrite add_param_plain by done. rewrite length_app in Hf. cbn [length] in Hf.
    rewrite IH; [done|done|lia].
Qed.

(** A list of key-value pairs printed with '=' and ':' is read back by
    [splitKeyValuePairs], later pairs winning, provided that the text is
    followed by a NUL in memory. *)
Lemma key_value_roundtrip (pairs : list (list Z * list Z)) (behind : list Z) :
  Forall plain pairs -> pairs <> [] -> c_string behind = [] ->
  splitKeyValuePairs (print_pairs pairs) behind 0x3A = foldl insert_pair ∅ pairs.
Proof. intros. apply pairs_loop_ok; [done..|lia]. Qed.

(** Without a NUL behind it the last parameter runs on into whatever follows
    the text in memory. *)
Example key_value_overread :
  splitKeyValuePairs (bytes "id=a") (bytes ";http://x") 0x3A !! bytes "id" =
  Some (bytes "a;http://x").
Proof. vm_compute. reflexivity. Qed.

(** ** Hexadecimal text *)

Definition hex_pair (c : Z) : list Z := [hex_digit (c / 16); hex_digit (c mod 16)].

Lemma format_ascii c : 0 <= c < 128 -> format_02X (u32 (schar c)) = hex_pair c.
Proof.
  intros Hc. pose (P := fun c => bool_decide (format_02X (u32 (schar c)) = hex_pair c)).
  assert (P c = true) as HP; [|by apply bool_decide_eq_true in HP].
  apply (for_all_below 128 P); [|done]. vm_compute. reflexivity.
Qed.

Lemma hex_pair_back c : 0 <= c < 256 ->
  exists v1 v2, fromHexDigit (hex_digit (c mod 16)) = Some v1 /\
    fromHexDigit (hex_digit (c / 16)) = Some v2 /\ u8 (Z.lor (Z.shiftl v2 4) v1) = c.
Proof.
  intros Hc.
  pose proof (for_all_below 256 (fun c =>
    match fromHexDigit (hex_digit (c mod 16)), fromHexDigit (hex_digit (c / 16)) with
    | Some v1, Some v2 => u8 (Z.lor (Z.shiftl v2 4) v1) =? c
    | _, _ => false
    end) ltac:(vm_compute; reflexivity) c Hc) as Hb. cbv beta in Hb.
  destruct (fromHexDigit (hex_digit (c mod 16))) as [v1|]; [|done].
  destruct (fromHexDigit (hex_digit (c / 16))) as [v2|]; [|done].
  exists v1, v2. split_and!; [done..|]. by apply Z.eqb_eq.
Qed.

Lemma hex_loop_ok s : Forall (fun c => 0 <= c < 256) s -> forall acc,
  hex_loop (reverse (concat (map hex_pair s))) acc = Some (s ++ acc).
Proof.
  induction s as [|c s IH] using rev_ind; intros Hs acc; [done|].
  apply Forall_app in Hs as [Hs Hc]. apply Forall_cons in Hc as [Hc _].
  destruct (hex_pair_back c Hc) as (v1 & v2 & E1 & E2 & E3).
  assert (reverse (concat (map hex_pair (s ++ [c]))) =
    hex_digit (c mod 16) :: hex_digit (c / 16) :: reverse (concat (map hex_pair s))) as ->.
  { by rewrite map_app, concat_app, reverse_app. }
  cbn [hex_loop]. rewrite E1, E2, E3, IH by done. by rewrite <- app_assoc.
Qed.

(** ASCII text written in hexadecimal is read back. *)
Lemma hex_roundtrip (s : list Z) : Forall (fun c => 0 <= c < 128) s ->
  fromHexString (toHexString s) = Some s.
Proof.
  intros Hs. assert (toHexString s = concat (map hex_pair s)) as ->.
  { unfold toHexString. f_equal. apply map_ext_in. intros c Hc%list_elem_of_In.
    apply format_ascii. by eapply Forall_forall in Hs. }
  assert (length (concat (map hex_pair s)) = 2 * length s)%nat as Hl.
  { clear. induction s; [done|]. cbn [map concat]. rewrite length_app, IHs. simpl. lia. }
  unfold fromHexString. rewrite Hl, Nat2Z.inj_mul, Z.mul_comm, Z.mod_mul by done. cbn [negb Z.eqb].
  rewrite hex_loop_ok, app_nil_r; [done|]. eapply Forall_impl; [done|]. simpl. lia.
Qed.

(** A byte above 127 is widened with its sign and takes eight digits. *)
Example hex_of_high_byte : toHexString [0xC3] = bytes "FFFFFFC3".
Proof. vm_compute. reflexivity. Qed.

(** ** Escape sequences *)

Definition buffer (b0 b1 : Z) : list Z := [b0; b1; 0].

Lemma unescape_hex ch : 0 <= ch < 256 ->
  low_hex_digit (ch / 16) <> 0 /\ low_hex_digit (ch mod 16) <> 0 /\
  u8 (strtoul 16 [low_hex_digit (ch / 16); low_hex_digit (ch mod 16)]) = ch.
Proof.
  intros Hc.
  pose proof (for_all_below 256 (fun ch => negb (low_hex_digit (ch / 16) =? 0) &&
    (negb (low_hex_digit (ch mod 16) =? 0) &&
     (u8 (strtoul 16 [low_hex_digit (ch / 16); low_hex_digit (ch mod 16)]) =? ch)))
    ltac:(vm_compute; reflexivity) ch Hc) as Hb.
  apply andb_true_iff in Hb as [H1 Hb]. apply andb_true_iff in Hb as [H2 H3].
  apply negb_true_iff, Z.eqb_neq in H1. apply negb_true_iff, Z.eqb_neq in H2. by apply Z.eqb_eq in H3.
Qed.

Lemma unescape_pair x y b0 b1 out : x <> 0 -> y <> 0 ->
  foldl unescape_step (Text, buffer b0 b1, out) [0x5C; 0x78; x; y] =
    (Text, buffer x y, out ++ [u8 (strtoul 16 [x; y])]).
Proof.
  intros Hx Hy. transitivity (Text, buffer x y, out ++ [u8 (strtoul 16 (c_string (buffer x y)))]); [done|].
  unfold buffer. cbn [c_string]. by rewrite (proj2 (Z.eqb_neq x 0) Hx), (proj2 (Z.eqb_neq y 0) Hy).
Qed.

Lemma unescape_byte ch b0 b1 out : 0 <= ch < 256 -> ch <> 0x22 ->
  exists b0' b1', foldl unescape_step (Text, buffer b0 b1, out) (escape_byte ch Hex) =
    (Text, buffer b0' b1', out ++ [ch]).
Proof.
  intros Hc Hq. unfold escape_byte. rewrite (proj2 (Z.eqb_neq ch 0x22) Hq).
  destruct (Z.eqb_spec ch 0x5C) as [->|Hbs]; [by exists b0, b1|].
  destruct (Z.eqb_spec ch 0x1B) as [->|]; [by exists b0, b1|].
  destruct (Z.eqb_spec ch 0x09) as [->|]; [by exists b0, b1|].
  destruct (Z.eqb_spec ch 0x0D) as [->|]; [by exists b0, b1|].
  destruct (Z.eqb_spec ch 0x0A) as [->|]; [by exists b0, b1|].
  destruct ((0x20 <=? ch) && (ch <? 0x7E)).
  - exists b0, b1. cbn [foldl unescape_step]. by rewrite (proj2 (Z.eqb_neq ch 0x5C) Hbs).
  - destruct (unescape_hex ch Hc) as (H1 & H2 & H3).
    exists (low_hex_digit (ch / 16)), (low_hex_digit (ch mod 16)).
    change (bytes "\x" ++ ?l) with ([0x5C; 0x78] ++ l). cbn [app]. by rewrite unescape_pair, H3.
Qed.

(** Text without a double quote that is escaped with hexadecimal
    escapes is read back by [unescape]. *)
Lemma escape_roundtrip (s : list Z) : Forall (fun c => 0 <= c < 256 /\ c <> 0x22) s ->
  unescape (escape s Hex) = s.
Proof.
  unfold unescape, escape. change [0; 0; 0] with (buffer 0 0). intros Hs.
  assert (forall b0 b1 out, exists b0' b1',
    foldl unescape_step (Text, buffer b0 b1, out) (concat (map (fun ch => escape_byte ch Hex) s)) =
    (Text, buffer b0' b1', out ++ s)) as Hall.
  { induction Hs as [|c s [Hc Hq] Hs IH]; intros b0 b1 out.
    - exists b0, b1. by rewrite app_nil_r.
    - cbn [map concat]. rewrite foldl_app.
      destruct (unescape_byte c b0 b1 out Hc Hq) as (b0' & b1' & ->).
      destruct (IH b0' b1' (out ++ [c])) as (x & y & ->). exists x, y. by rewrite <- app_assoc. }
  destruct (Hall 0 0 []) as (b0 & b1 & ->). done.
Qed.

(** A double quote comes back with its backslash, and octal escapes from
    0100 on are not read at all. *)
Example escape_not_read_back :
  unescape (escape [0x22] Hex) = [0x5C; 0x22] /\ unescape (escape [200] Octal) = bytes "\310".
Proof. vm_compute. done. Qed.

(** A variable without its closing brace doubles the text before it. *)
Example unclosed_variable :
  replaceVariables (bytes "ab${c") (fun _ => []) = bytes "abab${c".
Proof. vm_compute. reflexivity. Qed.

(** Lower-case hexadecimal digits are counted from 0. *)
Example strntoul_lower_case : strntoul 16 (bytes "ff") = 85 /\ strntoul 16 (bytes "FF") = 255.
Proof. vm_compute. done. Qed.
