(* ===== verification/Hyperlinks.v ===== *)
(** * Hyperlinks (src/vtbackend/Hyperlink.h, Screen::hyperlink, OSC 8)

    The links of a terminal are kept in an [lru_cache] under ids of 16 bits;
    a cell holds an id only.  [HYPERLINK] is the handler of OSC 8. *)
From Stdlib Require Import String.
From stdpp Require Import gmap.
From S2P Require Import Prelude LruSpec LruCache Color Text.

Inductive HyperlinkState := Inactive | Hover.

Record HyperlinkInfo := mk_info { userId : list Z; uri : list Z; state : HyperlinkState }.

Definition default_info : HyperlinkInfo := mk_info [] [] Inactive.

Definition isLocal (h : HyperlinkInfo) : bool :=
  (7 <=? length (uri h))%nat && bool_decide (take 7 (uri h) = bytes "file://").

(** [find(ch, pos)]. *)
Definition find_from (ch : Z) (pos : nat) (text : list Z) : option nat :=
  Nat.add pos <$> find ch (drop pos text).

Definition host (h : HyperlinkInfo) : list Z :=
  match find_text (bytes "://") (uri h) with
  | Some i => match find_from 0x2F (i + 3) (uri h) with
              | Some j => take (j - i - 3) (drop (i + 3) (uri h))
              | None => []
              end
  | None => []
  end.

(** [std::string_view { uri.data() + j }]: a C string. *)
Definition path (h : HyperlinkInfo) : list Z :=
  match find_text (bytes "://") (uri h) with
  | Some i => match find_from 0x2F (i + 3) (uri h) with
              | Some j => c_string (drop j (uri h))
              | None => []
              end
  | None => []
  end.

Definition scheme (h : HyperlinkInfo) : list Z :=
  match find_text (bytes "://") (uri h) with Some i => take i (uri h) | None => [] end.

(** ** HyperlinkStorage *)

Abbreviation Cache := (lru_cache (K := Z) (V := HyperlinkInfo)).

Record HyperlinkStorage := mk_storage { cache : Cache; nextHyperlinkId : Z }.

Definition new_storage : HyperlinkStorage := mk_storage (empty_cache 1024) 1.

(** The link of an id; the lookup makes it the most recent one.  [None] of
    the option is undefined behaviour or an abort, as in LruCache.v. *)
Definition hyperlinkById (id : Z) (s : HyperlinkStorage) :
    option (option HyperlinkInfo * HyperlinkStorage) :=
  if id =? 0 then Some (None, s) else
  '(r, c) ← try_get id (cache s);
  match r with
  | Some n => x ← node_item n (_items c); Some (Some (value x), mk_storage c (nextHyperlinkId s))
  | None => Some (None, mk_storage c (nextHyperlinkId s))
  end.

(** [for (auto& href: cache)]: [href] refers to the node [n], and its key is
    read once more after [touch]. *)
Definition hyperlinkIdByUserId (id : list Z) (s : HyperlinkStorage) : option (Z * HyperlinkStorage) :=
  match list_find (fun x => userId (value x.2) = id) (_items (cache s)) with
  | Some (_, (n, x)) =>
      c ← touch (key x) (cache s);
      href ← node_item n (_items c);
      Some (key href, mk_storage c (nextHyperlinkId s))
  | None => Some (0, s)
  end.

(** [Screen::hyperlink]: the storage and the id of the cursor. *)
Definition hyperlink (id uri : list Z) (s : HyperlinkStorage) (cursor : Z) :
    option (HyperlinkStorage * Z) :=
  match uri with
  | [] => Some (s, 0)
  | _ =>
      let fresh cacheId s :=
        let link := nextHyperlinkId s in
        '(_, c) ← emplace link (mk_info cacheId uri Inactive) (cache s);
        Some (mk_storage c (u16 (link + 1)), link) in
      match id with
      | [] => fresh [] s
      | _ =>
          let cacheId := id ++ uri in
          '(found, s) ← hyperlinkIdByUserId cacheId s;
          if found =? 0 then fresh cacheId s else Some (s, found)
      end
  end.

(** The handler of OSC 8: [value] is [params ';' uri]. *)
Definition HYPERLINK (value : list Z) (s : HyperlinkStorage) (cursor : Z) :
    option (HyperlinkStorage * Z) :=
  match find 0x3B value with
  | Some pos =>
      let params := splitKeyValuePairs (take pos value) [0] 0x3A in
      let id := default [] (params !! bytes "id") in
      hyperlink id (drop (S pos) value) s cursor
  | None => hyperlink [] [] s cursor
  end.

(** ** What holds of the links *)

Definition storage_repr (s : HyperlinkStorage) (l : list (Z * HyperlinkInfo)) : Prop :=
  repr (cache s) l /\ _capacity (cache s) = 1024%nat.

(** A link given without an id gets the next 16-bit id, which the
    cursor then carries, and the id resolves to the link; at most 1024 links
    are kept.  The one condition is that the id is not in use: then the
    program aborts. *)
Lemma hyperlink_resolves (u : list Z) (s : HyperlinkStorage) (l : list (Z * HyperlinkInfo)) (cursor : Z) :
  storage_repr s l -> u <> [] -> 0 < nextHyperlinkId s < 2 ^ 16 ->
  let id := nextHyperlinkId s in
  (assoc id l = None ->
    exists s' l', hyperlink [] u s cursor = Some (s', id) /\ storage_repr s' l' /\
      l' = push 1024 id (mk_info [] u Inactive) l /\ nextHyperlinkId s' = (id + 1) mod 2 ^ 16 /\
      exists s'', hyperlinkById id s' = Some (Some (mk_info [] u Inactive), s'') /\ storage_repr s'' l') /\
  (is_Some (assoc id l) -> hyperlink [] u s cursor = None).
Proof.
  intros [Hr Hcap] Hu Hid id.
  assert (hyperlink [] u s cursor = ('(_, c) ← emplace id (mk_info [] u Inactive) (cache s);
    Some (mk_storage c (u16 (id + 1)), id))) as Hrun by (by destruct u).
  rewrite Hrun. unfold emplace. rewrite (contains_ok _ _ _ Hr). split.
  - intros Ha. rewrite Ha, bool_decide_eq_false_2 by (intros [? ?]; congruence).
    destruct (insert_new_ok (cache s) l id (mk_info [] u Inactive) Hr Ha) as (c & Hi & Hr' & Hn & Hc);
      [rewrite Hcap; lia|]. rewrite Hi. cbn [mbind option_bind]. rewrite Hcap in Hr'.
    exists (mk_storage c (u16 (id + 1))), (push 1024 id (mk_info [] u Inactive) l).
    split_and!; [done| |done|done|]; [split; [done|by rewrite <- Hcap]|].
    unfold hyperlinkById. rewrite (proj2 (Z.eqb_neq id 0)) by lia. cbn [cache].
    destruct (try_get_cases c _ id Hr') as [(v & c' & Hav & Ht & Hr2 & Hn2 & Hc2)|[Hno _]].
    2: { unfold push in Hno. cbn [assoc] in Hno. by rewrite decide_True in Hno. }
    unfold push at 1 in Hav. cbn [assoc] in Hav. rewrite decide_True in Hav by done.
    injection Hav as <-. rewrite Ht. cbn [mbind option_bind].
    apply bind_Some in Hn2 as (x & -> & [= Hx]). cbn [mbind option_bind]. rewrite Hx.
    eexists. split; [done|]. split; cbn [cache].
    + assert (to_front id (mk_info [] u Inactive) (push 1024 id (mk_info [] u Inactive) l) =
        push 1024 id (mk_info [] u Inactive) l) as E; [|by rewrite E in Hr2].
      unfold to_front, push. rewrite without_cons; [done|]. apply keys_take. by apply assoc_None.
    + by rewrite Hc2, Hc.
  - intros Hs. by rewrite bool_decide_eq_true_2.
Qed.

(** A second OSC 8 with the same id and target reads the list node that
    [touch] has just replaced. *)
Lemma repeated_id_dangles (id u : list Z) (s : HyperlinkStorage) l (n : Z) (info : HyperlinkInfo) cursor :
  storage_repr s l -> id <> [] -> u <> [] -> (n, info) ∈ l -> userId info = id ++ u ->
  hyperlink id u s cursor = None.
Proof.
  intros [Hr _] Hid Hu Hin Huser.
  assert (hyperlinkIdByUserId (id ++ u) s = None) as Hnone.
  2: { destruct u as [|b u], id as [|a id]; [done..|]. unfold hyperlink. by rewrite Hnone. }
  unfold hyperlinkIdByUserId.
  destruct (list_find _ _) as [[j [i x]]|] eqn:Hf; cycle 1.
  { apply list_find_None in Hf. rewrite (rp_list _ _ Hr) in Hin.
    apply list_elem_of_fmap in Hin as ([i x] & [= -> ->] & Hin).
    rewrite Forall_forall in Hf. by destruct (Hf _ Hin). }
  apply list_find_Some in Hf as (Hj & _ & _). apply list_elem_of_lookup_2 in Hj.
  destruct (touch (key x) (cache s)) as [c'|] eqn:Ht; [|done]. cbn [mbind option_bind].
  assert (node_item i (_items c') = None) as ->; [|done].
  revert Ht. unfold touch, try_get.
  assert (_itemByKeyMapping (cache s) !! key x = Some i) as ->.
  { apply (rp_map _ _ Hr). exists (value x). by destruct x. }
  apply list_elem_of_split in Hj as (l1 & l2 & E). pose proof (rp_nodes _ _ Hr) as Hnd.
  rewrite (move_ok _ _ _ _ _ _ Hr E). cbn. intros [= <-].
  apply assoc_None. cbn [with_mapping _items]. rewrite fmap_cons, fmap_app.
  rewrite E, fmap_app in Hnd. apply NoDup_app in Hnd as (_ & H1 & [H2 _]%NoDup_cons).
  assert (i < next_node (cache s))%nat.
  { apply (rp_fresh _ _ Hr i x). rewrite E. set_solver. }
  cbn. rewrite elem_of_cons, elem_of_app. intros [->|[Ha|Ha]]; [lia| |done].
  apply (H1 i Ha). cbn. set_solver.
Qed.
