(* ===== verification/Cell.v ===== *)
(** * Grid cells (src/vtbackend/cell, CellFlags.h, CellUtil.h, GraphicsAttributes.h)

    [crispy::flags], the cell flags and their SGR updates, the graphics
    attributes, the two cell implementations [SimpleCell] and [CompactCell],
    and the interface [CellConcept] the line and the grid are written
    against.  Assertions that only exist in debug builds are not modelled. *)
From S2P Require Import Prelude Color.

(** ** crispy::flags (src/crispy/flags.h): an unsigned word of bits *)

Definition flags := Z.
Module Flags.
Definition enable (f g : flags) : flags := Z.lor f g.
Definition disable (f g : flags) : flags := Z.ldiff f g.
Definition contains (f g : flags) : bool := Z.land f g =? g.
Definition test (f g : flags) : bool := contains f g.
Definition both (f g : flags) : flags := Z.land f g.
Definition any (f : flags) : bool := negb (f =? 0).
Definition none (f : flags) : bool := f =? 0.
Definition with_ (f g : flags) : flags := Z.lor f g.
Definition without (f g : flags) : flags := Z.ldiff f g.
(** The [initializer_list] constructor. *)
Definition of_list (l : list flags) : flags := foldl enable 0 l.
End Flags.

Module CellFlag.
Definition None_ : flags := 0.
Definition Bold : flags := Z.shiftl 1 0.
Definition Faint : flags := Z.shiftl 1 1.
Definition Italic : flags := Z.shiftl 1 2.
Definition Underline : flags := Z.shiftl 1 3.
Definition Blinking : flags := Z.shiftl 1 4.
Definition Inverse : flags := Z.shiftl 1 5.
Definition Hidden : flags := Z.shiftl 1 6.
Definition CrossedOut : flags := Z.shiftl 1 7.
Definition DoublyUnderlined : flags := Z.shiftl 1 8.
Definition CurlyUnderlined : flags := Z.shiftl 1 9.
Definition DottedUnderline : flags := Z.shiftl 1 10.
Definition DashedUnderline : flags := Z.shiftl 1 11.
Definition Framed : flags := Z.shiftl 1 12.
Definition Encircled : flags := Z.shiftl 1 13.
Definition Overline : flags := Z.shiftl 1 14.
Definition RapidBlinking : flags := Z.shiftl 1 15.
Definition CharacterProtected : flags := Z.shiftl 1 16.
Definition WideCharContinuation : flags := Z.shiftl 1 17.
End CellFlag.

Inductive GraphicsRendition :=
| Reset | Bold | Faint | Italic | Underline | Blinking | RapidBlinking | Inverse | Hidden
| CrossedOut | DoublyUnderlined | Normal | NoItalic | NoUnderline | NoBlinking | NoInverse
| NoHidden | NoCrossedOut | CurlyUnderlined | DottedUnderline | DashedUnderline | Framed
| Overline | NoFramed | NoOverline.
#[export] Instance GraphicsRendition_eq_dec : EqDecision GraphicsRendition.
Proof. solve_decision. Defined.

Section makeCellFlags.
Import CellFlag Flags.

Definition makeCellFlags (rendition : GraphicsRendition) (base : flags) : flags :=
  match rendition with
  | Cell.Reset => None_
  | Cell.Bold => enable base CellFlag.Bold
  | Cell.Faint => enable base CellFlag.Faint
  | Cell.Italic => enable base CellFlag.Italic
  | Cell.Underline =>
      enable (without base (of_list [CellFlag.DoublyUnderlined; CellFlag.CurlyUnderlined;
                                     CellFlag.DottedUnderline; CellFlag.DashedUnderline]))
             CellFlag.Underline
  | Cell.Blinking => enable (disable base CellFlag.RapidBlinking) CellFlag.Blinking
  | Cell.RapidBlinking => enable (disable base CellFlag.Blinking) CellFlag.RapidBlinking
  | Cell.Inverse => enable base CellFlag.Inverse
  | Cell.Hidden => enable base CellFlag.Hidden
  | Cell.CrossedOut => enable base CellFlag.CrossedOut
  | Cell.DoublyUnderlined =>
      enable (without base (of_list [CellFlag.Underline; CellFlag.CurlyUnderlined;
                                     CellFlag.DottedUnderline; CellFlag.DashedUnderline]))
             CellFlag.DoublyUnderlined
  | Cell.CurlyUnderlined =>
      enable (without base (of_list [CellFlag.Underline; CellFlag.DoublyUnderlined;
                                     CellFlag.DottedUnderline; CellFlag.DashedUnderline]))
             CellFlag.CurlyUnderlined
  | Cell.DottedUnderline =>
      enable (without base (of_list [CellFlag.Underline; CellFlag.DoublyUnderlined;
                                     CellFlag.CurlyUnderlined; CellFlag.DashedUnderline]))
             CellFlag.DottedUnderline
  | Cell.DashedUnderline =>
      enable (without base (of_list [CellFlag.Underline; CellFlag.DoublyUnderlined;
                                     CellFlag.CurlyUnderlined; CellFlag.DottedUnderline]))
             CellFlag.DashedUnderline
  | Cell.Framed => enable base CellFlag.Framed
  | Cell.Overline => enable base CellFlag.Overline
  | Normal => without base (of_list [CellFlag.Bold; CellFlag.Faint])
  | NoItalic => disable base CellFlag.Italic
  | NoUnderline =>
      without base (of_list [CellFlag.Underline; CellFlag.DoublyUnderlined;
                             CellFlag.CurlyUnderlined; CellFlag.DottedUnderline;
                             CellFlag.DashedUnderline])
  | NoBlinking => without base (of_list [CellFlag.Blinking; CellFlag.RapidBlinking])
  | NoInverse => disable base CellFlag.Inverse
  | NoHidden => disable base CellFlag.Hidden
  | NoCrossedOut => disable base CellFlag.CrossedOut
  | NoFramed => disable base CellFlag.Framed
  | NoOverline => disable base CellFlag.Overline
  end.
End makeCellFlags.

(** ** Graphics attributes *)

Record GraphicsAttributes := mkAttrs {
  foregroundColor : Color;
  backgroundColor : Color;
  underlineColor : Color;
  attr_flags : flags
}.
#[export] Instance GraphicsAttributes_eq_dec : EqDecision GraphicsAttributes.
Proof. solve_decision. Defined.
Definition Attrs_init : GraphicsAttributes := mkAttrs DefaultColor DefaultColor DefaultColor 0.
Definition attrs_with (a : GraphicsAttributes) (f : flags) : GraphicsAttributes :=
  mkAttrs (foregroundColor a) (backgroundColor a) (underlineColor a) (Z.lor (attr_flags a) f).

(** [HyperlinkId] is a 16-bit number, 0 for none; an image fragment is known
    by its image's handle and its offset. *)
Definition HyperlinkId := Z.
Record CellLocation := mkLoc { line : Z; column : Z }.
#[export] Instance CellLocation_eq_dec : EqDecision CellLocation.
Proof. solve_decision. Defined.
Record ImageFragment := mkFragment { rasterizedImage : Z; offset : CellLocation }.
#[export] Instance ImageFragment_eq_dec : EqDecision ImageFragment.
Proof. solve_decision. Defined.

(** libunicode's column width of a code point. *)
Class UnicodeWidth := unicode_width : Z -> Z.

(** ** The interface *)

(** [concept CellConcept].  Operations on a cell return the changed cell;
    [copy_assign target source] is the copy assignment operator. *)
Class CellConcept (C : Type) := {
  cell_default : C;
  cell_make : GraphicsAttributes -> HyperlinkId -> C;
  cell_reset : C -> C;
  cell_reset_attrs : C -> GraphicsAttributes -> C;
  cell_reset_link : C -> GraphicsAttributes -> HyperlinkId -> C;
  cell_write : C -> GraphicsAttributes -> Z -> Z -> C;
  cell_write_link : C -> GraphicsAttributes -> Z -> Z -> HyperlinkId -> C;
  cell_writeTextOnly : C -> Z -> Z -> C;
  cell_setCharacter : C -> Z -> C;
  (** the cell and the width change *)
  cell_appendCharacter : C -> Z -> C * Z;
  cell_setHyperlink : C -> HyperlinkId -> C;
  cell_codepoints : C -> list Z;
  cell_width : C -> Z;
  cell_flags : C -> flags;
  cell_hyperlink : C -> HyperlinkId;
  cell_imageFragment : C -> option ImageFragment;
  copy_assign : C -> C -> C
}.

(** [CellUtil::empty]. *)
Definition cell_empty `{CellConcept C} (c : C) : bool :=
  (length (cell_codepoints c) =? 0)%nat && bool_decide (cell_imageFragment c = None).

(** [CellUtil::compareText]. *)
Definition compareText `{CellConcept C} (c : C) (character : Z) : bool :=
  match cell_codepoints c with
  | [cp] => cp =? character
  | [] => character =? 0
  | _ => false
  end.

(** [CellUtil::computeWidthChange]: width changes are compiled out. *)
Definition computeWidthChange {C : Type} (_ : C) (_ : Z) : Z := 0.

(** What the line and the grid rely on of a cell type: a cell made from
    attributes, or reset, is empty, and written text is not. *)
Class CellLaws (C : Type) `{CellConcept C} := {
  default_empty : cell_empty cell_default = true;
  make_empty a h : cell_empty (cell_make a h) = true;
  reset_attrs_make c a : cell_reset_attrs c a = cell_make a 0;
  write_codepoints c a ch w : ch <> 0 -> cell_codepoints (cell_write c a ch w) = [ch];
  append_no_width c ch : snd (cell_appendCharacter c ch) = 0
}.

(** ** SimpleCell (cell/SimpleCell.h) *)

Module SimpleCell.
Record t := mk {
  _codepoints : list Z;
  _graphicsAttributes : GraphicsAttributes;
  _width : Z;
  _hyperlink : HyperlinkId;
  _imageFragment : option ImageFragment
}.
#[export] Instance t_eq_dec : EqDecision t.
Proof. solve_decision. Defined.

Definition init : t := mk [] Attrs_init 1 0 None.
Definition make (a : GraphicsAttributes) (h : HyperlinkId) : t := mk [] a 1 h None.
Definition reset (_ : t) : t := init.
Definition reset_attrs (_ : t) (sgr : GraphicsAttributes) : t := mk [] sgr 1 0 None.
Definition reset_link (_ : t) (sgr : GraphicsAttributes) (h : HyperlinkId) : t := mk [] sgr 1 h None.
Definition write (c : t) (sgr : GraphicsAttributes) (codepoint width : Z) : t :=
  mk [codepoint] sgr width (_hyperlink c) (_imageFragment c).
Definition write_link (c : t) (sgr : GraphicsAttributes) (codepoint width : Z) (h : HyperlinkId) : t :=
  mk [codepoint] sgr width h (_imageFragment c).
Definition writeTextOnly (c : t) (codepoint width : Z) : t :=
  mk [codepoint] (_graphicsAttributes c) width (_hyperlink c) (_imageFragment c).
Definition codepoints (c : t) : list Z := _codepoints c.
Definition codepoint (c : t) (index : nat) : Z :=
  if (index <? length (_codepoints c))%nat then nth index (_codepoints c) 0 else 0.
Definition codepointCount (c : t) : nat := length (_codepoints c).
Definition setWidth (c : t) (w : Z) : t :=
  mk (_codepoints c) (_graphicsAttributes c) w (_hyperlink c) (_imageFragment c).
Definition setCharacter `{UnicodeWidth} (c : t) (codepoint : Z) : t :=
  let c := mk [] (_graphicsAttributes c) (_width c) (_hyperlink c) None in
  if codepoint =? 0 then setWidth c 1
  else setWidth (mk [codepoint] (_graphicsAttributes c) (_width c) (_hyperlink c) None)
                (Z.max (u8 (unicode_width codepoint)) 1).
Definition appendCharacter (c : t) (codepoint : Z) : t * Z :=
  let c := mk (_codepoints c ++ [codepoint]) (_graphicsAttributes c) (_width c) (_hyperlink c)
              (_imageFragment c) in
  let diff := computeWidthChange c codepoint in
  (if diff =? 0 then c else setWidth c (u8 (_width c + diff)), diff).
Definition set_attrs (c : t) (a : GraphicsAttributes) : t :=
  mk (_codepoints c) a (_width c) (_hyperlink c) (_imageFragment c).
Definition resetFlags (c : t) (f : flags) : t :=
  let a := _graphicsAttributes c in
  set_attrs c (mkAttrs (foregroundColor a) (backgroundColor a) (underlineColor a) f).
Definition setGraphicsRendition (c : t) (sgr : GraphicsRendition) : t :=
  resetFlags c (makeCellFlags sgr (attr_flags (_graphicsAttributes c))).
Definition setForegroundColor (c : t) (k : Color) : t :=
  let a := _graphicsAttributes c in
  set_attrs c (mkAttrs k (backgroundColor a) (underlineColor a) (attr_flags a)).
Definition setBackgroundColor (c : t) (k : Color) : t :=
  let a := _graphicsAttributes c in
  set_attrs c (mkAttrs (foregroundColor a) k (underlineColor a) (attr_flags a)).
Definition setUnderlineColor (c : t) (k : Color) : t :=
  let a := _graphicsAttributes c in
  set_attrs c (mkAttrs (foregroundColor a) (backgroundColor a) k (attr_flags a)).
Definition setImageFragment (c : t) (image : Z) (offset : CellLocation) : t :=
  mk (_codepoints c) (_graphicsAttributes c) (_width c) (_hyperlink c) (Some (mkFragment image offset)).
Definition setHyperlink (c : t) (h : HyperlinkId) : t :=
  mk (_codepoints c) (_graphicsAttributes c) (_width c) h (_imageFragment c).
(** The defaulted copy assignment. *)
Definition assign (_ source : t) : t := source.
End SimpleCell.

#[export] Instance SimpleCell_concept `{UnicodeWidth} : CellConcept SimpleCell.t := {
  cell_default := SimpleCell.init;
  cell_make := SimpleCell.make;
  cell_reset := SimpleCell.reset;
  cell_reset_attrs := SimpleCell.reset_attrs;
  cell_reset_link := SimpleCell.reset_link;
  cell_write := SimpleCell.write;
  cell_write_link := SimpleCell.write_link;
  cell_writeTextOnly := SimpleCell.writeTextOnly;
  cell_setCharacter := SimpleCell.setCharacter;
  cell_appendCharacter := SimpleCell.appendCharacter;
  cell_setHyperlink := SimpleCell.setHyperlink;
  cell_codepoints := SimpleCell._codepoints;
  cell_width := SimpleCell._width;
  cell_flags c := attr_flags (SimpleCell._graphicsAttributes c);
  cell_hyperlink := SimpleCell._hyperlink;
  cell_imageFragment := SimpleCell._imageFragment;
  copy_assign := SimpleCell.assign
}.

#[export] Instance SimpleCell_laws `{UnicodeWidth} : CellLaws SimpleCell.t.
Proof. by split. Qed.

(** ** CompactCell (cell/CompactCell.h): rare data behind an owned pointer *)

Module CompactCell.
Record CellExtra := mkExtra {
  x_codepoints : list Z;
  x_underlineColor : Color;
  x_hyperlink : HyperlinkId;
  x_imageFragment : option ImageFragment;
  x_flags : flags;
  x_width : Z
}.
#[export] Instance CellExtra_eq_dec : EqDecision CellExtra.
Proof. solve_decision. Defined.
Definition extra_init : CellExtra := mkExtra [] DefaultColor 0 None 0 1.

Record t := mk {
  _codepoint : Z;
  _foregroundColor : Color;
  _backgroundColor : Color;
  _extra : option CellExtra
}.
#[export] Instance t_eq_dec : EqDecision t.
Proof. solve_decision. Defined.
Definition MaxCodepoints : nat := 7.

Definition set_extra (c : t) (x : option CellExtra) : t :=
  mk (_codepoint c) (_foregroundColor c) (_backgroundColor c) x.
Definition has_extra (c : t) : bool := match _extra c with Some _ => true | None => false end.

(** [extra()]: the extra data, created on demand; [with_extra] is an
    assignment through it, [if_extra] one guarded by [if (_extra)]. *)
Definition extra (c : t) : CellExtra := default extra_init (_extra c).
Definition with_extra (c : t) (f : CellExtra -> CellExtra) : t := set_extra c (Some (f (extra c))).
Definition if_extra (c : t) (f : CellExtra -> CellExtra) : t := set_extra c (f <$> _extra c).

Definition x_set_codepoints l x := mkExtra l (x_underlineColor x) (x_hyperlink x) (x_imageFragment x) (x_flags x) (x_width x).
Definition x_set_underline k x := mkExtra (x_codepoints x) k (x_hyperlink x) (x_imageFragment x) (x_flags x) (x_width x).
Definition x_set_hyperlink h x := mkExtra (x_codepoints x) (x_underlineColor x) h (x_imageFragment x) (x_flags x) (x_width x).
Definition x_set_image i x := mkExtra (x_codepoints x) (x_underlineColor x) (x_hyperlink x) i (x_flags x) (x_width x).
Definition x_set_flags f x := mkExtra (x_codepoints x) (x_underlineColor x) (x_hyperlink x) (x_imageFragment x) f (x_width x).
Definition x_set_width w x := mkExtra (x_codepoints x) (x_underlineColor x) (x_hyperlink x) (x_imageFragment x) (x_flags x) w.

Definition setWidth (c : t) (width : Z) : t :=
  if (1 <? width) || has_extra c then with_extra c (x_set_width width) else c.
Definition setHyperlink (c : t) (h : HyperlinkId) : t :=
  if negb (h =? 0) then with_extra c (x_set_hyperlink h)
  else if_extra c (x_set_hyperlink 0).

Definition blank (fg bg : Color) : t := mk 0 fg bg None.
Definition init : t := setWidth (blank DefaultColor DefaultColor) 1.
Definition make (a : GraphicsAttributes) (h : HyperlinkId) : t :=
  let c := setHyperlink (setWidth (blank (foregroundColor a) (backgroundColor a)) 1) h in
  let c := if negb (underlineColor a =? DefaultColor) || has_extra c
           then with_extra c (x_set_underline (underlineColor a)) else c in
  if negb (attr_flags a =? 0) || has_extra c
  then with_extra c (x_set_flags (attr_flags a)) else c.
(** The copy constructor and the copy assignment operator. *)
Definition copy (v : t) : t :=
  let c := mk (_codepoint v) (_foregroundColor v) (_backgroundColor v) None in
  if has_extra v then set_extra c (_extra v) else c.
Definition assign (c v : t) : t :=
  let c := mk (_codepoint v) (_foregroundColor v) (_backgroundColor v) (_extra c) in
  if has_extra v then set_extra c (_extra v) else c.

Definition reset (_ : t) : t := blank DefaultColor DefaultColor.
Definition reset_attrs (_ : t) (a : GraphicsAttributes) : t :=
  let c := blank (foregroundColor a) (backgroundColor a) in
  let c := if negb (attr_flags a =? 0) then with_extra c (x_set_flags (attr_flags a)) else c in
  if negb (underlineColor a =? DefaultColor)
  then with_extra c (x_set_underline (underlineColor a)) else c.
Definition reset_link (_ : t) (a : GraphicsAttributes) (h : HyperlinkId) : t :=
  let c := blank (foregroundColor a) (backgroundColor a) in
  let c := if negb (underlineColor a =? DefaultColor)
           then with_extra c (x_set_underline (underlineColor a)) else c in
  let c := if negb (attr_flags a =? 0) then with_extra c (x_set_flags (attr_flags a)) else c in
  if negb (h =? 0) then with_extra c (x_set_hyperlink h) else c.

Definition set_codepoint (c : t) (ch : Z) : t :=
  mk ch (_foregroundColor c) (_backgroundColor c) (_extra c).
Definition set_colors (c : t) (a : GraphicsAttributes) : t :=
  mk (_codepoint c) (foregroundColor a) (backgroundColor a) (_extra c).

Definition write (c : t) (a : GraphicsAttributes) (ch width : Z) : t :=
  let c := set_codepoint (setWidth c width) ch in
  let c := if_extra c (fun x => x_set_image None (x_set_codepoints [] x)) in
  let c := set_colors c a in
  let c := if negb (attr_flags a =? 0) || has_extra c
           then with_extra c (x_set_flags (attr_flags a)) else c in
  if negb (underlineColor a =? DefaultColor)
  then with_extra c (x_set_underline (underlineColor a)) else c.
Definition writeTextOnly (c : t) (ch width : Z) : t :=
  if_extra (set_codepoint (setWidth c width) ch) (x_set_codepoints []).
Definition write_link (c : t) (a : GraphicsAttributes) (ch width : Z) (h : HyperlinkId) : t :=
  let c := writeTextOnly c ch width in
  let c := if_extra c (x_set_image None) in
  let c := set_colors c a in
  if negb (attr_flags a =? 0) || has_extra c || negb (underlineColor a =? DefaultColor) || negb (h =? 0)
  then with_extra c (fun x => x_set_flags (attr_flags a) (x_set_hyperlink h (x_set_underline (underlineColor a) x)))
  else c.

Definition width (c : t) : Z := match _extra c with None => 1 | Some x => x_width x end.
Definition setCharacter `{UnicodeWidth} (c : t) (codepoint : Z) : t :=
  let c := if_extra (set_codepoint c codepoint) (fun x => x_set_image None (x_set_codepoints [] x)) in
  if negb (codepoint =? 0) then setWidth c (Z.max (u8 (unicode_width codepoint)) 1)
  else setWidth c 1.
Definition appendCharacter (c : t) (codepoint : Z) : t * Z :=
  let c := set_extra c (Some (extra c)) in
  if (length (x_codepoints (extra c)) <? MaxCodepoints - 1)%nat then
    let c := with_extra c (fun x => x_set_codepoints (x_codepoints x ++ [codepoint]) x) in
    let diff := computeWidthChange c codepoint in
    if diff =? 0 then (c, 0) else (setWidth c (u8 (width c + diff)), diff)
  else (c, 0).
Definition codepointCount (c : t) : nat :=
  if negb (_codepoint c =? 0) then
    match _extra c with None => 1 | Some x => 1 + length (x_codepoints x) end
  else 0%nat.
Definition codepoints (c : t) : list Z :=
  if negb (_codepoint c =? 0) then
    _codepoint c :: match _extra c with None => [] | Some x => x_codepoints x end
  else [].
(** [codepoint(i)]; [None] is an access beyond the terminator of the string. *)
Definition codepoint (c : t) (i : nat) : option Z :=
  match i with
  | O => Some (_codepoint c)
  | S j => match _extra c with
           | None => Some 0
           | Some x => (x_codepoints x ++ [0]) !! j
           end
  end.
Definition flags_ (c : t) : flags := match _extra c with None => 0 | Some x => x_flags x end.
Definition underlineColor_ (c : t) : Color :=
  match _extra c with None => DefaultColor | Some x => x_underlineColor x end.
Definition imageFragment (c : t) : option ImageFragment :=
  match _extra c with None => None | Some x => x_imageFragment x end.
Definition hyperlink (c : t) : HyperlinkId :=
  match _extra c with None => 0 | Some x => x_hyperlink x end.
Definition resetFlags (c : t) (f : flags) : t := with_extra c (x_set_flags f).
Definition setGraphicsRendition (c : t) (sgr : GraphicsRendition) : t :=
  resetFlags c (makeCellFlags sgr (flags_ c)).
Definition setForegroundColor (c : t) (k : Color) : t := mk (_codepoint c) k (_backgroundColor c) (_extra c).
Definition setBackgroundColor (c : t) (k : Color) : t := mk (_codepoint c) (_foregroundColor c) k (_extra c).
Definition setUnderlineColor (c : t) (k : Color) : t :=
  if has_extra c then with_extra c (x_set_underline k)
  else if negb (k =? DefaultColor) then with_extra c (x_set_underline k) else c.
Definition setImageFragment (c : t) (image : Z) (offset : CellLocation) : t :=
  with_extra c (x_set_image (Some (mkFragment image offset))).
End CompactCell.

#[export] Instance CompactCell_concept `{UnicodeWidth} : CellConcept CompactCell.t := {
  cell_default := CompactCell.init;
  cell_make := CompactCell.make;
  cell_reset := CompactCell.reset;
  cell_reset_attrs := CompactCell.reset_attrs;
  cell_reset_link := CompactCell.reset_link;
  cell_write := CompactCell.write;
  cell_write_link := CompactCell.write_link;
  cell_writeTextOnly := CompactCell.writeTextOnly;
  cell_setCharacter := CompactCell.setCharacter;
  cell_appendCharacter := CompactCell.appendCharacter;
  cell_setHyperlink := CompactCell.setHyperlink;
  cell_codepoints := CompactCell.codepoints;
  cell_width := CompactCell.width;
  cell_flags := CompactCell.flags_;
  cell_hyperlink := CompactCell.hyperlink;
  cell_imageFragment := CompactCell.imageFragment;
  copy_assign := CompactCell.assign
}.

#[export] Instance CompactCell_laws `{UnicodeWidth} : CellLaws CompactCell.t.
Proof.
  split; [done| | | |].
  - intros [fg bg ul f] h. unfold cell_empty. simpl.
    unfold CompactCell.make, CompactCell.setHyperlink. simpl.
    by destruct (h =? 0), (ul =? DefaultColor), (f =? 0).
  - intros c [fg bg ul f]. unfold cell_reset_attrs, cell_make. simpl.
    unfold CompactCell.make, CompactCell.setHyperlink, CompactCell.reset_attrs. simpl.
    destruct (Z.eqb_spec ul DefaultColor) as [->|], (Z.eqb_spec f 0) as [->|]; done.
  - intros [cp fg bg x] [afg abg ul f] ch w Hch. simpl.
    unfold CompactCell.codepoints, CompactCell.write, CompactCell.setWidth. simpl.
    destruct (1 <? w), (ul =? DefaultColor), (f =? 0), x as [x|]; simpl;
      by destruct (Z.eqb_spec ch 0).
  - intros c ch. simpl. unfold CompactCell.appendCharacter. by destruct (_ <? _)%nat.
Qed.

(** ** The compact cell against the simple one *)

(** The simple cell with the same observations. *)
Definition cell_abs (c : CompactCell.t) : SimpleCell.t :=
  SimpleCell.mk (CompactCell.codepoints c)
    (mkAttrs (CompactCell._foregroundColor c) (CompactCell._backgroundColor c)
             (CompactCell.underlineColor_ c) (CompactCell.flags_ c))
    (CompactCell.width c) (CompactCell.hyperlink c) (CompactCell.imageFragment c).

(** A cell without its image. *)
Definition no_image (s : SimpleCell.t) : SimpleCell.t :=
  SimpleCell.mk (SimpleCell._codepoints s) (SimpleCell._graphicsAttributes s)
    (SimpleCell._width s) (SimpleCell._hyperlink s) None.

(** Case analysis on every test of the goal, unfolding the cell accessors. *)
Ltac cell_unfold :=
  cbv beta iota zeta delta
    [CompactCell.width CompactCell.if_extra CompactCell.with_extra CompactCell.set_extra
     CompactCell.set_codepoint CompactCell.set_colors CompactCell.has_extra CompactCell.extra
     CompactCell.extra_init CompactCell.blank CompactCell.hyperlink CompactCell.flags_ CompactCell.underlineColor_
     CompactCell.imageFragment CompactCell._extra CompactCell._codepoint
     CompactCell._foregroundColor CompactCell._backgroundColor
     CompactCell.x_set_codepoints CompactCell.x_set_underline CompactCell.x_set_hyperlink
     CompactCell.x_set_image CompactCell.x_set_flags CompactCell.x_set_width
     CompactCell.x_codepoints CompactCell.x_underlineColor CompactCell.x_hyperlink
     CompactCell.x_imageFragment CompactCell.x_flags CompactCell.x_width
     SimpleCell._codepoints SimpleCell._graphicsAttributes SimpleCell._width
     SimpleCell._hyperlink SimpleCell._imageFragment SimpleCell.setWidth no_image
     foregroundColor backgroundColor underlineColor attr_flags
     orb negb default from_option fmap option_fmap option_map id] in *.
Ltac cell_cases :=
  repeat (cell_unfold; match goal with
  | |- context [Z.eqb ?a ?b] => destruct (Z.eqb_spec a b); subst
  | |- context [Z.ltb ?a ?b] => destruct (Z.ltb_spec a b)
  end).
Ltac cell_solve := cell_cases; try done; try (f_equal; lia); try (exfalso; lia).

Section Refinement.
Context `{UnicodeWidth}.
Implicit Types (c : CompactCell.t) (a : GraphicsAttributes).
Import CompactCell.

Lemma abs_make a h : cell_abs (make a h) = SimpleCell.make a h.
Proof.
  destruct a as [fg bg ul f]. unfold make, setHyperlink, cell_abs, SimpleCell.make. cell_solve.
Qed.

Lemma abs_reset c a h :
  cell_abs (reset c) = SimpleCell.reset (cell_abs c) /\
  cell_abs (reset_attrs c a) = SimpleCell.reset_attrs (cell_abs c) a /\
  cell_abs (reset_link c a h) = SimpleCell.reset_link (cell_abs c) a h.
Proof.
  destruct a as [fg bg ul f].
  unfold reset_attrs, reset_link, cell_abs, SimpleCell.reset_attrs, SimpleCell.reset_link.
  split_and!; [done|cell_solve..].
Qed.

Lemma abs_writeTextOnly c ch w : ch <> 0 -> 1 <= w ->
  cell_abs (writeTextOnly c ch w) = SimpleCell.writeTextOnly (cell_abs c) ch w.
Proof.
  destruct c as [cp fg bg [x|]]; unfold writeTextOnly, setWidth, cell_abs, codepoints, SimpleCell.writeTextOnly;
    intros; cell_solve.
Qed.

Lemma abs_write_link c a ch w h : ch <> 0 -> 1 <= w ->
  cell_abs (write_link c a ch w h) = SimpleCell.write_link (no_image (cell_abs c)) a ch w h.
Proof.
  destruct a as [afg abg ul f].
  destruct c as [cp fg bg [x|]]; unfold write_link, writeTextOnly, setWidth, cell_abs, codepoints, SimpleCell.write_link;
    intros; cell_solve.
Qed.

Lemma abs_setCharacter c ch :
  cell_abs (setCharacter c ch) = SimpleCell.setCharacter (cell_abs c) ch.
Proof.
  destruct c as [cp fg bg [x|]];
    unfold setCharacter, SimpleCell.setCharacter, setWidth, cell_abs, codepoints; cell_solve.
Qed.

Lemma abs_appendCharacter c ch : _codepoint c <> 0 -> (codepointCount c < MaxCodepoints)%nat ->
  cell_abs (fst (appendCharacter c ch)) = fst (SimpleCell.appendCharacter (cell_abs c) ch).
Proof.
  destruct c as [cp fg bg [[xs xu xh xi xf xw]|]];
    unfold appendCharacter, codepointCount, SimpleCell.appendCharacter, cell_abs, codepoints,
      computeWidthChange, MaxCodepoints; cell_unfold; simpl Nat.sub; intros Hcp Hl;
    destruct (Z.eqb_spec cp 0); try done.
  - destruct (Nat.ltb_spec (length xs) 6); [|cbn in *; lia]. simpl.
    by destruct (Z.eqb_spec cp 0).
  - simpl. by destruct (Z.eqb_spec cp 0).
Qed.

Lemma abs_setters c h f r k img off :
  cell_abs (setHyperlink c h) = SimpleCell.setHyperlink (cell_abs c) h /\
  cell_abs (resetFlags c f) = SimpleCell.resetFlags (cell_abs c) f /\
  cell_abs (setGraphicsRendition c r) = SimpleCell.setGraphicsRendition (cell_abs c) r /\
  cell_abs (setForegroundColor c k) = SimpleCell.setForegroundColor (cell_abs c) k /\
  cell_abs (setBackgroundColor c k) = SimpleCell.setBackgroundColor (cell_abs c) k /\
  cell_abs (setUnderlineColor c k) = SimpleCell.setUnderlineColor (cell_abs c) k /\
  cell_abs (setImageFragment c img off) = SimpleCell.setImageFragment (cell_abs c) img off.
Proof.
  destruct c as [cp fg bg [x|]]; unfold setHyperlink, setUnderlineColor, cell_abs, codepoints;
    split_and!; cell_solve.
Qed.

(** The copy assignment of [CompactCell] yields the source exactly when
    the source has extra data or the target has none.  Otherwise the target
    keeps its own extra data: code points beyond the first, underline colour,
    hyperlink, image, flags and width of the overwritten cell survive. *)
Lemma compact_cell_copy_assign c v :
  copy v = v /\
  ((has_extra v = true \/ has_extra c = false) -> assign c v = v) /\
  (has_extra v = false -> _extra (assign c v) = _extra c) /\
  (has_extra v = false -> has_extra c = true -> assign c v <> v).
Proof.
  destruct c as [cp fg bg [x|]], v as [cp' fg' bg' [x'|]]; unfold assign, copy, has_extra; simpl;
    split_and!; naive_solver.
Qed.

(** Overwriting a compact cell's character without naming a hyperlink drops
    combining characters and the image and keeps the hyperlink; but attributes
    with the default underline colour leave the previous one in place. *)
Lemma abs_write c a ch w :
  ch <> 0 -> 1 <= w ->
  cell_abs (write c a ch w) =
  SimpleCell.mk [ch]
    (mkAttrs (foregroundColor a) (backgroundColor a)
       (if underlineColor a =? DefaultColor then underlineColor_ c else underlineColor a)
       (attr_flags a)) w (hyperlink c) None.
Proof.
  destruct a as [afg abg ul f].
  destruct c as [cp fg bg [x|]]; unfold write, setWidth, cell_abs, codepoints; intros; cell_solve.
Qed.

Lemma abs_write_plain c a ch w : ch <> 0 -> 1 <= w -> underlineColor a <> DefaultColor \/ underlineColor_ c = DefaultColor ->
  cell_abs (write c a ch w) = SimpleCell.write (no_image (cell_abs c)) a ch w.
Proof.
  intros Hch Hw Hu. rewrite abs_write by done. unfold SimpleCell.write. destruct a as [fg bg ul f]. cbn in *.
  destruct (Z.eqb_spec ul DefaultColor) as [->|]; [|done]. destruct Hu as [Hu|Hu]; [done|]. by rewrite Hu.
Qed.

(** C37: Seen through its accessors, CompactCell does what SimpleCell does: construction, the
    three resets, setting the hyperlink, the flags, a rendition, the three colours and an image
    without condition; setting a character, writing the text only and writing with a hyperlink
    for a code point other than 0 and a width of at least 1; writing without a hyperlink if, in
    addition, the new underline colour is not the default one or the old one is; appending a
    character to a cell that has a base character and fewer than MaxCodepoints code points; and
    copy assignment if the source has extra data or the target has none. Both writes with
    attributes also drop the image, which SimpleCell keeps. Without these conditions the old
    underline colour or extra data survives (abs_write, compact_cell_copy_assign). *)
Theorem compact_cell_refines_simple c v a ch w h f r k img off :
  ch <> 0 -> 1 <= w ->
  cell_abs (make a h) = SimpleCell.make a h /\
  cell_abs (reset c) = SimpleCell.reset (cell_abs c) /\
  cell_abs (reset_attrs c a) = SimpleCell.reset_attrs (cell_abs c) a /\
  cell_abs (reset_link c a h) = SimpleCell.reset_link (cell_abs c) a h /\
  cell_abs (write_link c a ch w h) = SimpleCell.write_link (no_image (cell_abs c)) a ch w h /\
  (underlineColor a <> DefaultColor \/ underlineColor_ c = DefaultColor ->
   cell_abs (write c a ch w) = SimpleCell.write (no_image (cell_abs c)) a ch w) /\
  (has_extra v = true \/ has_extra c = false -> cell_abs (assign c v) = cell_abs v) /\
  cell_abs (writeTextOnly c ch w) = SimpleCell.writeTextOnly (cell_abs c) ch w /\
  cell_abs (setCharacter c ch) = SimpleCell.setCharacter (cell_abs c) ch /\
  (_codepoint c <> 0 -> (codepointCount c < MaxCodepoints)%nat ->
   cell_abs (fst (appendCharacter c ch)) = fst (SimpleCell.appendCharacter (cell_abs c) ch)) /\
  cell_abs (setHyperlink c h) = SimpleCell.setHyperlink (cell_abs c) h /\
  cell_abs (resetFlags c f) = SimpleCell.resetFlags (cell_abs c) f /\
  cell_abs (setGraphicsRendition c r) = SimpleCell.setGraphicsRendition (cell_abs c) r /\
  cell_abs (setForegroundColor c k) = SimpleCell.setForegroundColor (cell_abs c) k /\
  cell_abs (setBackgroundColor c k) = SimpleCell.setBackgroundColor (cell_abs c) k /\
  cell_abs (setUnderlineColor c k) = SimpleCell.setUnderlineColor (cell_abs c) k /\
  cell_abs (setImageFragment c img off) = SimpleCell.setImageFragment (cell_abs c) img off.
Proof.
  intros Hch Hw. destruct (abs_reset c a h) as (R1 & R2 & R3).
  pose proof (abs_setters c h f r k img off) as Hs.
  split_and!; try done; try apply Hs;
    auto using abs_make, abs_write_link, abs_write_plain, abs_writeTextOnly, abs_setCharacter, abs_appendCharacter.
  intros Hx. by rewrite (proj1 (proj2 (compact_cell_copy_assign c v)) Hx).
Qed.

End Refinement.

(** Bold, curly-underlined text with a hyperlink, over which plain text goes. *)
Example styled_cell : CompactCell.t :=
  CompactCell.mk 0x41 DefaultColor DefaultColor
    (Some (CompactCell.mkExtra [] (Color_Indexed 1) 7 None (Z.lor CellFlag.Bold CellFlag.CurlyUnderlined) 1)).
Example plain_cell : CompactCell.t := CompactCell.mk 0x42 DefaultColor DefaultColor None.
#[local] Instance ascii_width : UnicodeWidth := fun _ => 1.

Lemma compact_cell_refines_simple_witness :
  cell_abs (CompactCell.write_link styled_cell Attrs_init 0x43 2 0)
  = SimpleCell.mk [0x43] Attrs_init 2 0 None.
Proof.
  destruct (compact_cell_refines_simple styled_cell plain_cell Attrs_init 0x43 2 0 0 Reset 0 0 (mkLoc 0 0))
    as (_ & _ & _ & _ & E & _); [done|done|]. exact E.
Defined.

(** ** SGR flags *)

Definition underline_bits : list Z := [3; 8; 9; 10; 11].

(** At most one underline style and at most one blinking speed is set. *)
Definition exclusive (underlines : list bool) (blink rapid : bool) : bool :=
  (length (filter (fun b => b = true) underlines) <=? 1)%nat && negb (blink && rapid).
Definition sgr_exclusive (f : flags) : bool :=
  exclusive (Z.testbit f <$> underline_bits) (Z.testbit f 4) (Z.testbit f 15).

(** The bits a rendition sets, and those it clears. *)
Definition sgr_sets (r : GraphicsRendition) : flags := makeCellFlags r 0.
Definition sgr_clears (r : GraphicsRendition) : flags :=
  Z.ldiff (Z.ones 32) (Z.lor (makeCellFlags r (Z.ones 32)) (sgr_sets r)).

Lemma makeCellFlags_bit r f i : 0 <= i < 32 ->
  Z.testbit (makeCellFlags r f) i =
  Z.testbit (sgr_sets r) i || (Z.testbit f i && negb (Z.testbit (sgr_clears r) i)).
Proof.
  intros Hi. unfold sgr_clears, sgr_sets.
  rewrite Z.ldiff_spec, Z.lor_spec, Z.testbit_ones by lia.
  destruct r; cbn [makeCellFlags]; unfold Flags.enable, Flags.disable, Flags.without, CellFlag.None_;
    rewrite ?Z.lor_spec, ?Z.ldiff_spec, ?Z.bits_0, ?Z.testbit_ones by lia;
    zbool; simpl; rewrite ?Z.bits_0;
    repeat match goal with |- context [Z.testbit ?x i] => destruct (Z.testbit x i) end; done.
Qed.

Lemma sgr_exclusive_step r f : sgr_exclusive f = true -> sgr_exclusive (makeCellFlags r f) = true.
Proof.
  unfold sgr_exclusive, underline_bits. cbn [fmap list_fmap].
  rewrite !makeCellFlags_bit by lia.
  generalize (Z.testbit f 3) (Z.testbit f 8) (Z.testbit f 9) (Z.testbit f 10) (Z.testbit f 11)
    (Z.testbit f 4) (Z.testbit f 15). intros b1 b2 b3 b4 b5 b6 b7.
  destruct r; repeat match goal with
    | |- context [Z.testbit (?g ?r) ?k] =>
        let v := eval vm_compute in (Z.testbit (g r) k) in change (Z.testbit (g r) k) with v
    end; cbn [orb andb negb];
    destruct b1, b2, b3, b4, b5, b6, b7; vm_compute; congruence.
Qed.

(** SGR renditions compose as documented: after any sequence of graphics
    renditions applied to a cell without flags, at most one underline style
    and at most one blinking speed is set, and the last rendition decides its
    own bits while leaving every bit it does not name unchanged. *)
Lemma sgr_flags_exclusive (rs : list GraphicsRendition) (r : GraphicsRendition) (i : Z) :
  0 <= i < 32 ->
  let before := foldl (fun f r => makeCellFlags r f) CellFlag.None_ rs in
  let after := makeCellFlags r before in
  sgr_exclusive after = true /\
  Z.testbit after i =
    (Z.testbit (sgr_sets r) i || (Z.testbit before i && negb (Z.testbit (sgr_clears r) i))) /\
  (Z.testbit (sgr_sets r) i = true -> Z.testbit (sgr_clears r) i = false).
Proof.
  intros Hi before after. split_and!.
  - apply sgr_exclusive_step. unfold before. clear before after.
    induction rs as [|r' rs IH] using rev_ind; [reflexivity|].
    rewrite foldl_app. simpl. by apply sgr_exclusive_step.
  - by apply makeCellFlags_bit.
  - unfold sgr_clears. rewrite Z.ldiff_spec, Z.lor_spec. intros ->.
    by rewrite orb_true_r, andb_false_r.
Qed.
