(* ===== verification/Line.v ===== *)
(** * Grid lines (src/vtbackend/Line.h, Line.cpp)

    A line is a compact [TrivialLineBuffer] (raw text with one set of
    attributes) or an inflated vector of cells.  Reading the cells of a
    trivial line inflates it in place; operations that do so return the
    changed line.  The file models the line's operations against the cell
    interface of Cell.v and libunicode's decoder of Parser.v.  [None] stands
    for an access outside a buffer. *)
From S2P Require Import Prelude Parser Color Cell Ring.

(** ** Line flags *)

Module LineFlag.
Definition None_ : flags := 0.
Definition Wrappable : flags := 1.
Definition Wrapped : flags := 2.
Definition Marked : flags := 4.
End LineFlag.

(** Grapheme segmentation of libunicode: may a cluster end between two code
    points? *)
Class GraphemeSegmenter := breakable : Z -> Z -> bool.

Record TrivialLineBuffer := mkTrivial {
  displayWidth : Z;
  textAttributes : GraphicsAttributes;
  fillAttributes : GraphicsAttributes;
  tl_hyperlink : HyperlinkId;
  usedColumns : Z;
  text : list Z
}.

(** [TrivialLineBuffer { .displayWidth = w, .textAttributes = a }]. *)
Definition blank_trivial (w : Z) (a : GraphicsAttributes) : TrivialLineBuffer := mkTrivial w a a 0 0 [].
Definition trivial_reset (b : TrivialLineBuffer) (a : GraphicsAttributes) : TrivialLineBuffer :=
  mkTrivial (displayWidth b) a a 0 0 [].
Definition set_displayWidth (b : TrivialLineBuffer) (w : Z) : TrivialLineBuffer :=
  mkTrivial w (textAttributes b) (fillAttributes b) (tl_hyperlink b) (usedColumns b) (text b).

Inductive LineStorage (C : Type) :=
| Trivial (b : TrivialLineBuffer)
| Inflated (cells : list C).
Arguments Trivial {C}.
Arguments Inflated {C}.

Record Line (C : Type) := mkLine { _flags : flags; _buffer : LineStorage C }.
Arguments mkLine {C}.
Arguments _flags {C}.
Arguments _buffer {C}.

Section Line.
Context `{LibUnicode, UnicodeWidth, GraphemeSegmenter} `{CellConcept Cell}.
Abbreviation Line := (Line Cell).
Implicit Types (l : Line) (a : GraphicsAttributes) (f : flags).

(** ** inflate *)

Definition ReplacementCharacter : Z := 0xFFFD.

(** The variables of the loop over the text. *)
Record inflate_state := mkInflate {
  i_columns : list Cell; i_lastChar : Z; i_utf8 : utf8_decoder_state; i_gapPending : Z
}.

(** One character of the text. *)
Definition inflate_char (input : TrivialLineBuffer) (s : inflate_state) (nextChar : Z)
    (d : utf8_decoder_state) : option inflate_state :=
  if breakable (i_lastChar s) nextChar then
    let gap := cell_make (attrs_with (textAttributes input) CellFlag.WideCharContinuation)
                 (tl_hyperlink input) in
    let charWidth := unicode_width nextChar in
    let cell := cell_write (cell_setHyperlink cell_default (tl_hyperlink input))
                  (textAttributes input) nextChar (u8 charWidth) in
    Some (mkInflate (i_columns s ++ replicate (Z.to_nat (i_gapPending s)) gap ++ [cell])
            nextChar d (charWidth - 1))
  else
    prevCell ← last (i_columns s);
    let '(cell, extendedWidth) := cell_appendCharacter prevCell nextChar in
    let columns := take (length (i_columns s) - 1) (i_columns s) ++ [cell] in
    let cellsAvailable := displayWidth input - Z.of_nat (length columns) + 1 in
    let n := Z.min extendedWidth cellsAvailable in
    let filler := cell_setHyperlink (cell_make (textAttributes input) 0) (tl_hyperlink input) in
    let columns := if 0 <? extendedWidth
                   then columns ++ replicate (Z.to_nat (n - 1)) filler else columns in
    Some (mkInflate columns nextChar d (i_gapPending s)).

Definition inflate_byte (input : TrivialLineBuffer) (s : inflate_state) (ch : Z) : option inflate_state :=
  let '(r, d) := from_utf8 (i_utf8 s) ch in
  match r with
  | Incomplete => Some (mkInflate (i_columns s) (i_lastChar s) d (i_gapPending s))
  | Success v => inflate_char input s v d
  | Invalid => inflate_char input s ReplacementCharacter d
  end.

Fixpoint inflate_loop (input : TrivialLineBuffer) (s : inflate_state) (chs : list Z) : option inflate_state :=
  match chs with
  | [] => Some s
  | ch :: chs => s ← inflate_byte input s ch; inflate_loop input s chs
  end.

Definition inflate (input : TrivialLineBuffer) : option (list Cell) :=
  s ← inflate_loop input (mkInflate [] 0 utf8_init 0) (text input);
  let columns := i_columns s ++ replicate (Z.to_nat (i_gapPending s))
                   (cell_make (textAttributes input) (tl_hyperlink input)) in
  Some (columns ++ replicate (Z.to_nat (displayWidth input) - length columns)
                     (cell_make (fillAttributes input) 0)).

(** ** Line operations *)

Definition isTrivialBuffer l : bool := match _buffer l with Trivial _ => true | Inflated _ => false end.

(** [inflatedBuffer()]: the cells, and [inflated] the line after the call. *)
Definition inflatedBuffer l : option (list Cell) :=
  match _buffer l with
  | Trivial b => inflate b
  | Inflated cells => Some cells
  end.
Definition setBuffer l (b : LineStorage Cell) : Line := mkLine (_flags l) b.
Definition inflated l : option Line := cells ← inflatedBuffer l; Some (setBuffer l (Inflated cells)).

Definition line_size l : Z :=
  match _buffer l with
  | Trivial b => displayWidth b
  | Inflated cells => Z.of_nat (length cells)
  end.

Definition line_reset l f a : Line :=
  match _buffer l with
  | Trivial b => mkLine f (Trivial (trivial_reset b a))
  | Inflated cells => mkLine f (Trivial (blank_trivial (Z.of_nat (length cells)) a))
  end.
Definition line_reset_width (_ : Line) f a (count : Z) : Line := mkLine f (Trivial (blank_trivial count a)).

(** [fill(flags, attributes, codepoint, width)]. *)
Definition line_fill l f a (codepoint width : Z) : option Line :=
  if codepoint =? 0 then Some (line_reset l f a)
  else
    cells ← inflatedBuffer l;
    Some (mkLine f (Inflated ((fun c => cell_write (cell_reset c) a codepoint width) <$> cells))).

(** [fill(start, sgr, ascii)]: the tail behind the text is reset. *)
Definition line_fill_text l (start : Z) a (ascii : list Z) : option Line :=
  cells ← inflatedBuffer l;
  let s := Z.to_nat start in
  if (s + length ascii <=? length cells)%nat then
    Some (setBuffer l (Inflated
      (take s cells
       ++ zip_with (fun c ch => cell_write c a ch 1) (take (length ascii) (drop s cells)) ascii
       ++ (cell_reset <$> drop (s + length ascii) cells))))
  else None.

Definition line_empty l : bool :=
  match _buffer l with
  | Trivial b => bool_decide (text b = [])
  | Inflated cells => forallb cell_empty cells
  end.

Definition line_resize l (count : Z) : Line :=
  match _buffer l with
  | Trivial b => setBuffer l (Trivial (set_displayWidth b count))
  | Inflated cells => setBuffer l (Inflated (vector_resize cell_default cells count))
  end.

(** Dropping the blank cells at the right end. *)
Fixpoint drop_blank_right (rev_cells : list Cell) : list Cell :=
  match rev_cells with
  | [] => []
  | c :: cs => if cell_empty c then drop_blank_right cs else rev_cells
  end.
Definition trim_right (cells : list Cell) : list Cell := reverse (drop_blank_right (reverse cells)).
Definition trim_blank_right l : option (list Cell) := trim_right <$> inflatedBuffer l.

Definition wrapped l : bool := Flags.any (Flags.both (_flags l) LineFlag.Wrapped).
Definition wrappable l : bool := Flags.any (Flags.both (_flags l) LineFlag.Wrappable).
Definition marked l : bool := Flags.any (Flags.both (_flags l) LineFlag.Marked).
Definition setFlag l f (enable : bool) : Line :=
  mkLine (if enable then Flags.enable (_flags l) f else Flags.disable (_flags l) f) (_buffer l).
Definition setWrappable l enable := setFlag l LineFlag.Wrappable enable.
Definition setWrapped l enable := setFlag l LineFlag.Wrapped enable.
Definition setMarked l enable := setFlag l LineFlag.Marked enable.
Definition wrappableFlag l : flags := if wrappable l then LineFlag.Wrappable else LineFlag.None_.
Definition wrappedFlag l : flags := if marked l then LineFlag.Wrapped else LineFlag.None_.
Definition markedFlag l : flags := if marked l then LineFlag.Marked else LineFlag.None_.
Definition inheritableFlags l : flags :=
  Flags.both (_flags l) (Flags.of_list [LineFlag.Wrappable; LineFlag.Marked]).

(** [reflow]: the changed line and the cells cut off. *)
Definition reflow l (newColumnCount : Z) : option (Line * list Cell) :=
  let inflated_case cells :=
    let n := Z.to_nat newColumnCount in
    match Z.compare newColumnCount (Z.of_nat (length cells)) with
    | Eq => Some (setBuffer l (Inflated cells), [])
    | Gt => Some (setBuffer l (Inflated (vector_resize cell_default cells newColumnCount)), [])
    | Lt =>
        if wrappable l then
          Some (setBuffer l (Inflated (take n cells)), trim_right (drop n cells))
        else Some (setBuffer l (Inflated (vector_resize cell_default cells newColumnCount)), [])
    end in
  match _buffer l with
  | Trivial b =>
      match Z.compare newColumnCount (Z.of_nat (length (text b))) with
      | Gt => Some (setBuffer l (Trivial (set_displayWidth b newColumnCount)), [])
      | Eq => Some (l, [])
      | Lt => cells ← inflate b; inflated_case cells
      end
  | Inflated cells => inflated_case cells
  end.

(** [useCellAt]: the checked index (the end position itself is not a cell). *)
Definition useCellAt l (column : Z) : option Cell :=
  cells ← inflatedBuffer l;
  if (0 <=? column) && (column <=? line_size l) then cells !! Z.to_nat column else None.
Definition setCellAt l (column : Z) (c : Cell) : option Line :=
  cells ← inflatedBuffer l;
  if (0 <=? column) && (column <? Z.of_nat (length cells))
  then Some (setBuffer l (Inflated (<[Z.to_nat column := c]> cells))) else None.

Definition cellEmptyAt l (column : Z) : option bool :=
  match _buffer l with
  | Trivial b =>
      if (0 <=? column) && (column <? displayWidth b)
      then Some ((Z.of_nat (length (text b)) <=? column)
                 || bool_decide (text b !! Z.to_nat column = Some 0x20))
      else None
  | Inflated cells =>
      cell ← (if 0 <=? column then cells !! Z.to_nat column else None);
      Some (cell_empty cell || bool_decide (cell_codepoints cell = [0x20]))
  end.
Definition cellWidthAt l (column : Z) : option Z :=
  cells ← inflatedBuffer l;
  if 0 <=? column then cell_width <$> cells !! Z.to_nat column else None.

(** ** Text search *)

(** [std::tolower] of the C locale. *)
Definition tolower (c : Z) : Z := if (0x41 <=? c) && (c <=? 0x5A) then c + 0x20 else c.

(** [CellUtil::beginsWith]. *)
Definition beginsWith (txt : list Z) (cell : Cell) (isCaseSensitive : bool) : bool :=
  let cps := cell_codepoints cell in
  match cps with
  | [] => false
  | _ =>
    if (length txt <? length cps)%nat then false
    else forallb (fun p => (if isCaseSensitive then p.1 else tolower p.1) =? p.2) (zip cps txt)
  end.

(** The loop of [matchTextAtWithSensetivityMode] from text index [i]. *)
Fixpoint matchTextFrom (cells : list Cell) (txt : list Z) (isCaseSensitive : bool) : bool :=
  match txt with
  | [] => true
  | _ :: txt' =>
      match cells with
      | [] => false
      | c :: cells' => beginsWith txt c isCaseSensitive && matchTextFrom cells' txt' isCaseSensitive
      end
  end.

(** [matchTextAtWithSensetivityMode] on the cells of an inflated line, for a
    start column inside the line. *)
Definition matchTextAt (cells : list Cell) (txt : list Z) (startColumn : nat) (isCaseSensitive : bool) : bool :=
  if (length cells - startColumn <? length txt)%nat then false
  else matchTextFrom (drop startColumn cells) txt isCaseSensitive.

Record SearchResult := mkSearchResult { sr_column : nat; partialMatchLength : nat }.

(** [search] over the cells of an inflated line, [n] columns before its end. *)
Fixpoint search_loop (cells : list Cell) (startColumn : nat) (isCaseSensitive : bool)
    (txt : list Z) (n : nat) : option SearchResult :=
  match n with
  | O => None
  | S n' =>
      let baseColumn := (length cells - n)%nat in
      if (n <? length txt)%nat then
        let txt := take n txt in
        if matchTextAt cells txt baseColumn isCaseSensitive
        then Some (mkSearchResult startColumn (length txt))
        else search_loop cells startColumn isCaseSensitive txt n'
      else if matchTextAt cells txt baseColumn isCaseSensitive
      then Some (mkSearchResult baseColumn 0)
      else search_loop cells startColumn isCaseSensitive txt n'
  end.
Definition search (cells : list Cell) (txt : list Z) (startColumn : nat) (isCaseSensitive : bool)
  : option SearchResult :=
  if (length cells <? length txt)%nat then None
  else search_loop cells startColumn isCaseSensitive txt (length cells - startColumn).

(** [searchReverse]: leftwards from [min start (size - length)], then prefixes. *)
Fixpoint searchReverse_loop (cells : list Cell) (isCaseSensitive : bool) (txt : list Z) (n : nat)
  : option SearchResult :=
  match n with
  | O => None
  | S baseColumn =>
      if matchTextAt cells txt baseColumn isCaseSensitive then Some (mkSearchResult baseColumn 0)
      else searchReverse_loop cells isCaseSensitive txt baseColumn
  end.
Fixpoint searchReverse_partial (cells : list Cell) (startColumn : nat) (isCaseSensitive : bool)
    (txt : list Z) : option SearchResult :=
  match txt with
  | [] => None
  | _ :: txt' =>
      if matchTextAt cells txt 0 isCaseSensitive then Some (mkSearchResult startColumn (length txt))
      else searchReverse_partial cells startColumn isCaseSensitive txt'
  end.
Definition searchReverse (cells : list Cell) (txt : list Z) (startColumn : nat) (isCaseSensitive : bool)
  : option SearchResult :=
  if (length cells <? length txt)%nat then None
  else
    let baseColumn := Nat.min startColumn (length cells - length txt) in
    match searchReverse_loop cells isCaseSensitive txt (S baseColumn) with
    | Some r => Some r
    | None => searchReverse_partial cells startColumn isCaseSensitive txt
    end.

(** [std::string_view::find] and [rfind]: the first occurrence from a position
    on, the last one up to a position. *)
Definition occurs_at (hay needle : list Z) (i : nat) : bool :=
  bool_decide (take (length needle) (drop i hay) = needle) && (i + length needle <=? length hay)%nat.
Definition sv_find (hay needle : list Z) (pos : nat) : option nat :=
  List.find (occurs_at hay needle) (seq pos (S (length hay) - pos)).
Definition sv_rfind (hay needle : list Z) (pos : nat) : option nat :=
  List.find (occurs_at hay needle) (reverse (seq 0 (S (Nat.min pos (length hay))))).

(** [Line::search] and [Line::searchReverse]; [utf8] is
    [unicode::convert_to<char>].  A trivial line is searched byte-wise and
    case-sensitively. *)
Definition trivial_search (find : list Z -> list Z -> nat -> option nat) (utf8 : list Z -> list Z)
    (b : TrivialLineBuffer) (txt : list Z) (startColumn : nat) : option SearchResult :=
  if usedColumns b =? 0 then None
  else
    let column := Nat.min startColumn (Z.to_nat (usedColumns b - 1)) in
    (fun i => mkSearchResult i 0) <$> find (text b) (utf8 txt) column.
Definition line_search (utf8 : list Z -> list Z) l (txt : list Z) (startColumn : nat)
    (isCaseSensitive : bool) : option SearchResult :=
  match _buffer l with
  | Trivial b => trivial_search sv_find utf8 b txt startColumn
  | Inflated cells => search cells txt startColumn isCaseSensitive
  end.
Definition line_searchReverse (utf8 : list Z -> list Z) l (txt : list Z) (startColumn : nat)
    (isCaseSensitive : bool) : option SearchResult :=
  match _buffer l with
  | Trivial b => trivial_search sv_rfind utf8 b txt startColumn
  | Inflated cells => searchReverse cells txt startColumn isCaseSensitive
  end.

(** ** Trimming and reflow *)

Lemma trim_right_spec cells :
  exists blanks, cells = trim_right cells ++ blanks /\ Forall (fun c => cell_empty c = true) blanks /\
    (forall c, last (trim_right cells) = Some c -> cell_empty c = false).
Proof.
  enough (Hr : forall rcs, exists blanks, reverse rcs = reverse (drop_blank_right rcs) ++ blanks /\
    Forall (fun c => cell_empty c = true) blanks /\
    (forall c, last (reverse (drop_blank_right rcs)) = Some c -> cell_empty c = false)).
  { specialize (Hr (reverse cells)). by rewrite reverse_involutive in Hr. }
  clear cells. intros rcs. induction rcs as [|c rcs IH]; simpl.
  - exists []. by rewrite reverse_nil.
  - destruct (cell_empty c) eqn:Hc.
    + destruct IH as (blanks & E & Hb & Hl). exists (blanks ++ [c]).
      rewrite reverse_cons, E at 1. rewrite <- app_assoc. split_and!; [done| |done].
      apply Forall_app. by auto.
    + exists []. rewrite app_nil_r. split_and!; [done|done|].
      intros c'. rewrite reverse_cons, last_snoc. by intros [= <-].
Qed.

Lemma trim_right_length cells : (length (trim_right cells) <= length cells)%nat.
Proof.
  destruct (trim_right_spec cells) as (b & E & _). apply (f_equal length) in E.
  rewrite length_app in E. lia.
Qed.

Lemma trim_right_blank cells : Forall (fun c => cell_empty c = true) cells -> trim_right cells = [].
Proof.
  intros Hb. destruct (trim_right_spec cells) as (b & E & _ & Hl).
  destruct (trim_right cells) as [|c cs] using rev_ind; [done|].
  specialize (Hl c). rewrite last_snoc in Hl. rewrite E, <- app_assoc, Forall_app in Hb.
  destruct Hb as [_ Hb]. inversion Hb. specialize (Hl eq_refl). congruence.
Qed.

Lemma reflow_spec l cells n :
  _buffer l = Inflated cells -> 0 <= n ->
  exists kept removed,
    reflow l n = Some (mkLine (_flags l) (Inflated kept), removed) /\
    Z.of_nat (length kept) = n /\
    (n < Z.of_nat (length cells) -> wrappable l = true ->
     exists blanks, cells = kept ++ removed ++ blanks /\
       Forall (fun c => cell_empty c = true) blanks /\
       (forall c, last removed = Some c -> cell_empty c = false)) /\
    (n < Z.of_nat (length cells) -> wrappable l = false ->
     kept = take (Z.to_nat n) cells /\ removed = []) /\
    (Z.of_nat (length cells) <= n ->
     kept = cells ++ replicate (Z.to_nat n - length cells) cell_default /\ removed = []).
Proof.
  intros Hb Hn. unfold reflow. rewrite Hb. unfold setBuffer.
  destruct (Z.compare_spec n (Z.of_nat (length cells))) as [E|Hlt|Hgt].
  - exists cells, []. split_and!; try done; try lia. intros _.
    rewrite E, Nat2Z.id, Nat.sub_diag, app_nil_r. done.
  - destruct (wrappable l) eqn:Hw.
    + exists (take (Z.to_nat n) cells), (trim_right (drop (Z.to_nat n) cells)).
      split_and!; try done; try lia; [len; lia|]. intros _ _.
      destruct (trim_right_spec (drop (Z.to_nat n) cells)) as (b & E & Hbl & Hl).
      exists b. split_and!; try done. by rewrite <- E, take_drop.
    + exists (vector_resize cell_default cells n), [].
      split_and!; try done; try lia; [rewrite vector_resize_length; lia|]. intros _ _. split; [|done].
      unfold vector_resize. replace (Z.to_nat n - length cells)%nat with 0%nat by lia.
      by rewrite app_nil_r.
  - exists (vector_resize cell_default cells n), [].
    split_and!; try done; try lia; [rewrite vector_resize_length; lia|]. intros _. split; [|done].
    unfold vector_resize. by rewrite take_ge by lia.
Qed.

(** Reflowing an inflated line to a new width keeps its contents.  The
    line ends with exactly the new number of columns; a wrappable line cut
    shorter hands out the cells behind the cut without their blank tail, so
    that the kept cells, the cut ones and some blanks make up the old line; a
    line that may not wrap is truncated; a wider line is padded. *)
Lemma reflow_correct l cells n :
  _buffer l = Inflated cells -> 0 <= n ->
  exists kept removed,
    reflow l n = Some (mkLine (_flags l) (Inflated kept), removed) /\
    Z.of_nat (length kept) = n /\
    (n < Z.of_nat (length cells) -> wrappable l = true ->
     exists blanks, cells = kept ++ removed ++ blanks /\
       Forall (fun c => cell_empty c = true) blanks /\
       (forall c, last removed = Some c -> cell_empty c = false)) /\
    (n < Z.of_nat (length cells) -> wrappable l = false ->
     kept = take (Z.to_nat n) cells /\ removed = []) /\
    (Z.of_nat (length cells) <= n ->
     kept = cells ++ replicate (Z.to_nat n - length cells) cell_default /\ removed = []).
Proof. apply reflow_spec. Qed.

(** Reflowing a trivial line to a width other than its text's length gives
    it that display width when the text fits; but a line whose text is exactly
    as long as the new width is left untouched, at its old display width. *)
Lemma reflow_trivial_width l b n :
  _buffer l = Trivial b ->
  (Z.of_nat (length (text b)) < n ->
   exists l', reflow l n = Some (l', []) /\ line_size l' = n) /\
  (Z.of_nat (length (text b)) = n ->
   exists l', reflow l n = Some (l', []) /\ line_size l' = displayWidth b).
Proof.
  intros Hb. unfold reflow, setBuffer, line_size. rewrite Hb. split; intros Hn.
  - rewrite (proj2 (Z.compare_gt_iff _ _)) by lia. eauto.
  - rewrite Hn, Z.compare_refl. eexists. split; [done|]. by rewrite Hb.
Qed.

(** ** Search *)

Lemma matchTextAt_bound cells txt col cs :
  matchTextAt cells txt col cs = true -> (length txt <= length cells - col)%nat.
Proof. unfold matchTextAt. destruct (Nat.ltb_spec (length cells - col) (length txt)); [done|lia]. Qed.

(** The loop from [n] columns before the end: the first full match, or else
    the longest part of the text that ends the line. *)
Lemma search_loop_spec cells start cs txt n :
  (n <= length cells)%nat ->
  match search_loop cells start cs txt n with
  | Some (mkSearchResult col 0) =>
      (length cells - n <= col < length cells)%nat /\ matchTextAt cells txt col cs = true /\
      forall k, (length cells - n <= k < col)%nat -> matchTextAt cells txt k cs = false
  | Some (mkSearchResult col p) =>
      col = start /\ (p < length txt)%nat /\
      matchTextAt cells (take p txt) (length cells - p) cs = true /\
      (forall k, (length cells - n <= k < length cells)%nat -> matchTextAt cells txt k cs = false) /\
      (forall q, (p < q < length txt)%nat -> (q <= n)%nat ->
                 matchTextAt cells (take q txt) (length cells - q) cs = false)
  | None =>
      (forall k, (length cells - n <= k < length cells)%nat -> matchTextAt cells txt k cs = false) /\
      (forall q, (0 < q < length txt)%nat -> (q <= n)%nat ->
                 matchTextAt cells (take q txt) (length cells - q) cs = false)
  end.
Proof.
  revert txt. induction n as [|n IH]; intros txt Hn; cbn [search_loop]; [split; intros; lia|].
  destruct (Nat.ltb_spec (S n) (length txt)) as [Hs|Hs].
  - assert (Hno : forall k, (length cells - S n <= k < length cells)%nat -> matchTextAt cells txt k cs = false).
    { intros k Hk. destruct (matchTextAt cells txt k cs) eqn:E; [|done].
      apply matchTextAt_bound in E. lia. }
    assert (Hl : length (take (S n) txt) = S n) by (len; lia).
    destruct (matchTextAt cells (take (S n) txt) (length cells - S n) cs) eqn:E.
    + rewrite Hl. split_and!; try done. intros; lia.
    + assert (Htt : forall q, (q <= n)%nat -> take q (take (S n) txt) = take q txt)
        by (intros; rewrite take_take; f_equal; lia).
      specialize (IH (take (S n) txt) ltac:(lia)). rewrite Hl in IH.
      destruct (search_loop _ _ _ _ n) as [[col [|p]]|].
      * destruct IH as (Hc & Hm & _). apply matchTextAt_bound in Hm. lia.
      * destruct IH as (-> & Hp & Hm & _ & Hq). rewrite Htt in Hm by lia.
        split_and!; [done|lia|done|done|]. intros q Hq1 Hq2.
        destruct (decide (q = S n)) as [->|]; [done|]. rewrite <- Htt by lia. apply Hq; lia.
      * split; [done|]. intros q Hq1 Hq2.
        destruct (decide (q = S n)) as [->|]; [done|]. rewrite <- Htt by lia. apply IH; lia.
  - assert (Hext : forall P : nat -> Prop, P (length cells - S n)%nat ->
      (forall k, (length cells - n <= k < length cells)%nat -> P k) ->
      forall k, (length cells - S n <= k < length cells)%nat -> P k).
    { intros P H0' HP k Hk. destruct (decide (k = length cells - S n)%nat) as [->|]; [done|]. apply HP. lia. }
    destruct (matchTextAt cells txt (length cells - S n) cs) eqn:E.
    + split_and!; [lia|lia|done|]. intros; lia.
    + specialize (IH txt ltac:(lia)). destruct (search_loop _ _ _ _ n) as [[col [|p]]|].
      * destruct IH as (Hc & Hm & Hf). split_and!; [lia|lia|done|]. intros k Hk.
        destruct (decide (k = length cells - S n)%nat) as [->|]; [done|]. apply Hf. lia.
      * destruct IH as (-> & Hp & Hm & Hf & Hq). split_and!; [done|done|done|by apply Hext|].
        intros. apply Hq; lia.
      * destruct IH as [Hf Hq]. split; [by apply Hext|]. intros. apply Hq; lia.
Qed.

(** Searching a line from a column on finds the leftmost full match at or
    after that column.  When there is none, it reports the longest proper
    part of the text that ends the line (to be continued on the next one),
    and nothing only if no such part exists. *)
Lemma search_correct cells txt start cs :
  (start <= length cells)%nat ->
  match search cells txt start cs with
  | Some (mkSearchResult col 0) =>
      (start <= col < length cells)%nat /\ matchTextAt cells txt col cs = true /\
      forall k, (start <= k < col)%nat -> matchTextAt cells txt k cs = false
  | Some (mkSearchResult col p) =>
      col = start /\ (p < length txt)%nat /\
      matchTextAt cells (take p txt) (length cells - p) cs = true /\
      (forall k, (start <= k < length cells)%nat -> matchTextAt cells txt k cs = false) /\
      (forall q, (p < q < length txt)%nat -> (q <= length cells - start)%nat ->
                 matchTextAt cells (take q txt) (length cells - q) cs = false)
  | None =>
      forall k, (start <= k < length cells)%nat -> matchTextAt cells txt k cs = false
  end.
Proof.
  intros Hs. unfold search. destruct (Nat.ltb_spec (length cells) (length txt)) as [Hl|Hl].
  - intros k Hk. destruct (matchTextAt cells txt k cs) eqn:E; [|done].
    apply matchTextAt_bound in E. lia.
  - pose proof (search_loop_spec cells start cs txt (length cells - start) ltac:(lia)) as Hsp.
    replace (length cells - (length cells - start))%nat with start in Hsp by lia.
    destruct (search_loop _ _ _ _ _) as [[col [|p]]|]; [done|done|]. apply Hsp.
Qed.

(** ** Inflating ASCII text *)

(** Printable US-ASCII. *)
Definition printable (b : Z) : Prop := 0x20 <= b < 0x7F.

(** What libunicode documents for US-ASCII: one byte is one code point, one
    column wide, and text may be segmented before each of them. *)
Class AsciiLaws := {
  utf8_ascii b : printable b -> from_utf8 utf8_init b = (Success b, utf8_init);
  ascii_columns b : printable b -> unicode_width b = 1;
  ascii_breakable x b : x = 0 \/ printable x -> printable b -> breakable x b = true
}.

Definition ascii_cell (b : TrivialLineBuffer) (ch : Z) : Cell :=
  cell_write (cell_setHyperlink cell_default (tl_hyperlink b)) (textAttributes b) ch 1.

Lemma inflate_loop_ascii `{!AsciiLaws} b chs cols last :
  Forall printable chs -> (last = 0 \/ printable last) ->
  exists last', inflate_loop b (mkInflate cols last utf8_init 0) chs
    = Some (mkInflate (cols ++ (ascii_cell b <$> chs)) last' utf8_init 0).
Proof.
  intros Hc. revert cols last. induction Hc as [|ch chs Hch Hc IH]; intros cols last Hl; simpl.
  - exists last. by rewrite app_nil_r.
  - unfold inflate_byte. simpl. rewrite utf8_ascii by done. unfold inflate_char. simpl.
    rewrite ascii_breakable, ascii_columns by done. cbn [mbind option_bind].
    destruct (IH (cols ++ [ascii_cell b ch]) ch) as [last' E]; [by right|].
    exists last'. rewrite <- app_assoc in E. exact E.
Qed.

Lemma inflate_ascii_cells `{!AsciiLaws} b :
  Forall printable (text b) -> Z.of_nat (length (text b)) <= displayWidth b ->
  inflate b = Some ((ascii_cell b <$> text b)
    ++ replicate (Z.to_nat (displayWidth b) - length (text b)) (cell_make (fillAttributes b) 0)).
Proof.
  intros Hp Hw. unfold inflate.
  destruct (inflate_loop_ascii b (text b) [] 0 Hp ltac:(by left)) as [last' ->].
  cbn [mbind option_bind i_columns i_gapPending Z.to_nat]. by rewrite app_nil_r, app_nil_l, length_fmap.
Qed.

(** Inflating a trivial line of printable US-ASCII text that fits its
    display width gives exactly one cell per column: the text's characters in
    order with the text attributes and hyperlink, then blank cells with the
    fill attributes; the cells spell the text. *)
Lemma inflate_ascii `{!CellLaws Cell, !AsciiLaws} b :
  Forall printable (text b) -> Z.of_nat (length (text b)) <= displayWidth b ->
  exists cells, inflate b = Some cells /\
    cells = (ascii_cell b <$> text b)
            ++ replicate (Z.to_nat (displayWidth b) - length (text b)) (cell_make (fillAttributes b) 0) /\
    Z.of_nat (length cells) = displayWidth b /\
    mjoin (cell_codepoints <$> cells) = text b.
Proof.
  intros Hp Hw. rewrite inflate_ascii_cells by done.
  eexists. split_and!; [done|done|len; lia|].
  rewrite fmap_app, fmap_replicate, join_app.
  assert (He : cell_codepoints (cell_make (fillAttributes b) 0) = []).
  { pose proof (make_empty (fillAttributes b) 0) as E. unfold cell_empty in E.
    apply andb_prop in E as [E _]. apply Nat.eqb_eq, nil_length_inv in E. done. }
  rewrite He. assert (Hn : forall n, mjoin (replicate n (@nil Z)) = []) by (induction n; done).
  rewrite Hn, app_nil_r. clear Hw Hn He.
  induction Hp as [|ch chs Hch Hc IH]; [done|]. simpl.
  unfold ascii_cell at 1. rewrite write_codepoints by (unfold printable in Hch; lia).
  simpl. f_equal. exact IH.
Qed.

End Line.

(** ** Instances at concrete lines *)

#[local] Instance narrow : UnicodeWidth := fun _ => 1.
#[local] Instance per_char : GraphemeSegmenter := fun _ _ => true.
#[local] Instance per_char_ascii : AsciiLaws (H := latin1).
Proof. by split. Qed.

Definition simple_cells (txt : list Z) : list SimpleCell.t :=
  (fun ch => if ch =? 0x20 then SimpleCell.init else SimpleCell.write SimpleCell.init Attrs_init ch 1) <$> txt.

(** "abcd ef  " cut at three columns. *)
Example wrap_line : Line SimpleCell.t :=
  mkLine LineFlag.Wrappable (Inflated (simple_cells [0x61;0x62;0x63;0x64;0x20;0x65;0x66;0x20;0x20])).

Lemma reflow_trivial_width_witness :
  exists l', reflow (H := latin1) (Cell := SimpleCell.t)
    (mkLine LineFlag.Wrappable (Trivial (mkTrivial 80 Attrs_init Attrs_init 0 2 [0x61; 0x62]))) 2
    = Some (l', []) /\ line_size l' = 80.
Proof.
  destruct (reflow_trivial_width (H := latin1) (Cell := SimpleCell.t)
    (mkLine LineFlag.Wrappable (Trivial (mkTrivial 80 Attrs_init Attrs_init 0 2 [0x61; 0x62])))
    (mkTrivial 80 Attrs_init Attrs_init 0 2 [0x61; 0x62]) 2) as [_ E]; [reflexivity|].
  apply E. reflexivity.
Defined.
