(* ===== verification/Grid.v ===== *)
(** * The screen grid (src/vtbackend/Grid.h, Grid.cpp)

    The grid keeps the main page and the scrollback history in one ring of
    lines: offsets 0 .. [lines - 1] are the page, -1 downwards the history.
    Operations return [None] where the code would read or write outside a
    buffer or fails a [Require].  Offsets and counts are unbounded integers:
    page sizes and scroll counts are far below the 32-bit limits. *)
From S2P Require Import Prelude Parser Color Cell Ring Line.

Record PageSize := mkPageSize { lines : Z; columns : Z }.
#[export] Instance PageSize_eq_dec : EqDecision PageSize.
Proof. solve_decision. Defined.

Record Range := mkRange { from : Z; to : Z }.
#[export] Instance Range_eq_dec : EqDecision Range.
Proof. solve_decision. Defined.
Definition range_length (r : Range) : Z := to r - from r + 1.
Definition range_contains (r : Range) (v : Z) : bool := (from r <=? v) && (v <=? to r).
Definition range_clamp (r : Range) (v : Z) : Z :=
  if v <? from r then from r else if to r <? v then to r else v.
Record Margin := mkMargin { vertical : Range; horizontal : Range }.

(** [MaxHistoryLineCount = std::variant<LineCount, Infinite>]. *)
Inductive MaxHistoryLineCount := LimitedTo (n : Z) | Infinite.

Record Grid (C : Type) := mkGrid {
  _pageSize : PageSize;
  _reflowOnResize : bool;
  _historyLimit : MaxHistoryLineCount;
  _lines : ring (Line C);
  _linesUsed : Z
}.
Arguments mkGrid {C}.
Arguments _pageSize {C}.
Arguments _reflowOnResize {C}.
Arguments _historyLimit {C}.
Arguments _lines {C}.
Arguments _linesUsed {C}.

Section Grid.
Context `{LibUnicode, UnicodeWidth, GraphemeSegmenter} `{CellConcept Cell}.
Abbreviation Line := (Line Cell).
Abbreviation Grid := (Grid Cell).
Implicit Types (g : Grid) (a : GraphicsAttributes) (l : Line).

Definition with_lines g (r : ring Line) : Grid :=
  mkGrid (_pageSize g) (_reflowOnResize g) (_historyLimit g) r (_linesUsed g).
Definition with_used g (n : Z) : Grid :=
  mkGrid (_pageSize g) (_reflowOnResize g) (_historyLimit g) (_lines g) n.
Definition with_page g (p : PageSize) : Grid :=
  mkGrid p (_reflowOnResize g) (_historyLimit g) (_lines g) (_linesUsed g).
Definition with_limit g (m : MaxHistoryLineCount) : Grid :=
  mkGrid (_pageSize g) (_reflowOnResize g) m (_lines g) (_linesUsed g).

(** ** Construction and properties *)

Definition default_flags (reflowOnResize : bool) : flags :=
  if reflowOnResize then LineFlag.Wrappable else LineFlag.None_.
Definition blank_line (f : flags) (w : Z) a : Line := mkLine f (Trivial (blank_trivial w a)).

Definition createLines (pageSize : PageSize) (maxHistory : Z) (reflow : bool) a : ring Line :=
  ring_of (replicate (Z.to_nat (lines pageSize + maxHistory))
             (blank_line (default_flags reflow) (columns pageSize) a)).
Definition Grid_make (pageSize : PageSize) (reflow : bool) (limit : MaxHistoryLineCount) : Grid :=
  mkGrid pageSize reflow limit
    (createLines pageSize (match limit with LimitedTo n => n | Infinite => 0 end) reflow Attrs_init)
    (lines pageSize).

Definition defaultLineFlags g : flags := default_flags (_reflowOnResize g).
Definition maxHistoryLineCount g : Z :=
  match _historyLimit g with
  | LimitedTo n => n
  | Infinite => size (_lines g) - lines (_pageSize g)
  end.
Definition totalLineCount g : Z := maxHistoryLineCount g + lines (_pageSize g).
Definition historyLineCount g : Z := _linesUsed g - lines (_pageSize g).

(** [verifyState]: the checks of debug builds. *)
Definition verifyState g : bool :=
  (totalLineCount g <=? size (_lines g)) && (_linesUsed g <=? size (_lines g))
  && (lines (_pageSize g) <=? _linesUsed g).

(** [Line()]: what [std::vector::resize] appends. *)
Definition line_init : Line := blank_line LineFlag.None_ 0 Attrs_init.

Definition setMaxHistoryLineCount g (limit : MaxHistoryLineCount) : option Grid :=
  r ← rezero (_lines g);
  let g := with_limit (with_lines g r) limit in
  r ← resize line_init (_lines g) (lines (_pageSize g) + maxHistoryLineCount g);
  let g := with_lines g r in
  Some (with_used g (Z.min (_linesUsed g) (lines (_pageSize g) + maxHistoryLineCount g))).
Definition clearHistory g : Grid := with_used g (lines (_pageSize g)).

Definition lineAt g (y : Z) : option Line := at_ (_lines g) y.
Definition setLineAt g (y : Z) l : Grid := with_lines g (set_at (_lines g) y l).
Definition grid_at g (y x : Z) : option Cell := l ← lineAt g y; useCellAt l x.

(** [lineAt(y)] changed by [f], for the [n] offsets from [y] on. *)
Definition update_lines g (f : Line -> option Line) (y : Z) (n : nat) : option Grid :=
  with_lines g <$> update_range (_lines g) f y n.

(** [for (y = lines - n; y < lines; ++y) lineAt(y).reset(...)]. *)
Definition reset_bottom g (n : Z) a : option Grid :=
  update_lines g (fun l => Some (line_reset l (defaultLineFlags g) a)) (lines (_pageSize g) - n) (Z.to_nat n).

(** ** Scrolling *)

(** The part of [scrollUp] behind the allocation of new lines. *)
Definition scrollUp_alloc g (n : Z) : Grid :=
  let linesAvailable := size (_lines g) - _linesUsed g in
  match _historyLimit g with
  | Infinite =>
      if linesAvailable <? n then
        with_lines g (Nat.iter (Z.to_nat (n - linesAvailable))
          (fun r => emplace_back r (blank_line (defaultLineFlags g) (columns (_pageSize g)) Attrs_init))
          (_lines g))
      else g
  | LimitedTo _ => g
  end.

(** [scrollUp(n, attributes)].  With unlimited history the code first
    allocates the missing lines and calls itself again, when enough are
    available. *)
Definition scrollUp g (n : Z) a : option (Grid * Z) :=
  let g := scrollUp_alloc g n in
  let linesAvailable := size (_lines g) - _linesUsed g in
  let page := lines (_pageSize g) in
  if _linesUsed g =? size (_lines g) then
    g ← reset_bottom (with_lines g (rotate_left (_lines g) n)) n a;
    Some (g, n)
  else if _linesUsed g <? size (_lines g) then
    let linesAppendCount := Z.min n linesAvailable in
    let blank := blank_line (defaultLineFlags g) (columns (_pageSize g)) a in
    let g :=
      if linesAppendCount =? 0 then g
      else
        let r := write_range (_lines g) page (replicate (Z.to_nat linesAppendCount) blank) in
        with_used (with_lines g (rotate_left r linesAppendCount)) (_linesUsed g + linesAppendCount) in
    g ← (if linesAppendCount <? n then
           reset_bottom (with_lines g (rotate_left (_lines g) (n - linesAppendCount))) n a
         else Some g);
    Some (g, linesAppendCount)
  else None.

Definition fullHorizontal g (m : Margin) : bool :=
  bool_decide (horizontal m = mkRange 0 (columns (_pageSize g) - 1)).
Definition fullVertical g (m : Margin) : bool :=
  bool_decide (vertical m = mkRange 0 (lines (_pageSize g) - 1)).

(** [_lines[y] = std::move(_lines[y + n])], [k] times from [y] on. *)
Fixpoint move_lines_up (r : ring Line) (y n : Z) (k : nat) : option (ring Line) :=
  match k with
  | O => Some r
  | S k' => l ← at_ r (y + n); move_lines_up (set_at r y l) (y + 1) n k'
  end.

(** Writing [width] cells over the columns from [x] of a line. *)
Definition splice (x : Z) (new cells : list Cell) : list Cell :=
  take (Z.to_nat x) cells ++ new ++ drop (Z.to_nat x + length new) cells.

(** [std::copy_n(&at(source, x), width, &at(target, x))]: both lines are
    inflated, the cells are copy-assigned. *)
Definition copy_columns g (source target x width : Z) : option Grid :=
  tl ← lineAt g target; tcells ← inflatedBuffer tl;
  let g := setLineAt g target (setBuffer tl (Inflated tcells)) in
  sl ← lineAt g source; scells ← inflatedBuffer sl;
  let g := setLineAt g source (setBuffer sl (Inflated scells)) in
  if (0 <=? x) && (0 <=? width) && (x + width <=? Z.of_nat (length tcells)) && (x + width <=? Z.of_nat (length scells)) then
    let segment (cells : list Cell) := take (Z.to_nat width) (drop (Z.to_nat x) cells) in
    tl ← lineAt g target;
    Some (setLineAt g target (setBuffer tl (Inflated
      (splice x (zip_with copy_assign (segment tcells) (segment scells)) tcells))))
  else None.

(** The cells of the columns [x .. x + width - 1] of a line, each replaced. *)
Definition update_columns (f : Cell -> Cell) (x width : Z) l : option Line :=
  cells ← inflatedBuffer l;
  if (0 <=? x) && (0 <=? width) && (x + width <=? Z.of_nat (length cells)) then
    Some (setBuffer l (Inflated
      (splice x (f <$> take (Z.to_nat width) (drop (Z.to_nat x) cells)) cells)))
  else None.

Fixpoint for_each_line (body : Grid -> Z -> option Grid) (ys : list Z) g : option Grid :=
  match ys with
  | [] => Some g
  | y :: ys => g ← body g y; for_each_line body ys g
  end.

(** [scrollUp(n, attributes, margin)]. *)
Definition scrollUp_margin g (n : Z) a (m : Margin) : option (Grid * Z) :=
  if negb ((0 <=? from (horizontal m)) && (to (horizontal m) <? columns (_pageSize g))
           && (0 <=? from (vertical m)) && (to (vertical m) <? lines (_pageSize g))) then None
  else if fullHorizontal g m then
    if fullVertical g m then scrollUp g n a
    else
      let marginHeight := range_length (vertical m) in
      let n2 := Z.min n marginHeight in
      r ← (if negb (n2 =? 0) && (n2 <? marginHeight)
           then move_lines_up (_lines g) (from (vertical m)) n2 (Z.to_nat (marginHeight - n2))
           else Some (_lines g));
      g ← update_lines (with_lines g r)
            (fun l => Some (line_reset_width l (defaultLineFlags g) a (columns (_pageSize g))))
            (to (vertical m) - n2 + 1) (Z.to_nat n2);
      Some (g, 0)
  else
    let n2 := Z.min n (range_length (vertical m)) in
    let x := from (horizontal m) in
    let width := range_length (horizontal m) in
    g ← for_each_line (fun g y => copy_columns g (y + n2) y x width)
          (seqZ (from (vertical m)) (range_length (vertical m) - n2)) g;
    g ← update_lines g (update_columns (fun c => cell_reset_attrs c a) x width)
          (to (vertical m) - n2 + 1) (Z.to_nat n2);
    Some (g, 0).

(** [mainPage().subspan(0, n)] is a plain pointer range that starts at the
    storage position of line 0 and does not wrap around the ring. *)
Fixpoint reset_span (r : ring Line) (f : flags) a (position : Z) (n : nat) : option (ring Line) :=
  match n with
  | O => Some r
  | S n' =>
      l ← _storage r !! Z.to_nat position;
      reset_span (mk_ring (<[Z.to_nat position := line_reset l f a]> (_storage r)) (_zero r))
        f a (position + 1) n'
  end.

(** [scrollDown(n, attributes, margin)]. *)
Definition scrollDown g (vN : Z) a (m : Margin) : option Grid :=
  let n := Z.min vN (range_length (vertical m)) in
  if vN <? 0 then None
  else if fullHorizontal g m && fullVertical g m then
    let r := rotate_right (_lines g) n in
    with_lines g <$> reset_span r (defaultLineFlags g) a (index r 0) (Z.to_nat n)
  else if fullHorizontal g m then
    r ← std_rotate (_lines g) (from (vertical m)) (to (vertical m) + 1 - n) (to (vertical m) + 1);
    update_lines (with_lines g r) (fun l => Some (line_reset l (defaultLineFlags g) a))
      (from (vertical m)) (Z.to_nat n)
  else
    let x := from (horizontal m) in
    let width := range_length (horizontal m) in
    if n <=? range_length (vertical m) then
      g ← for_each_line (fun g y => copy_columns g (y - n) y x width)
            (reverse (seqZ (to (vertical m) - n) (n + 1))) g;
      update_lines g (update_columns (fun _ => cell_make a 0) x width)
        (from (vertical m)) (Z.to_nat n)
    else Some g.

(** [scrollLeft]: rotates the margin's columns left by one and blanks the last;
    [std::fill_n] copy-assigns the empty cell. *)
Definition scrollLeft_line a (m : Margin) l : option Line :=
  cells ← inflatedBuffer l;
  let x0 := Z.to_nat (from (horizontal m)) in
  let x1 := Z.to_nat (to (horizontal m)) in
  if (0 <=? from (horizontal m)) && (from (horizontal m) <=? to (horizontal m))
     && (to (horizontal m) <? Z.of_nat (length cells)) then
    c0 ← cells !! x0;
    Some (setBuffer l (Inflated
      (take x0 cells ++ take (x1 - x0) (drop (x0 + 1) cells)
       ++ [copy_assign c0 (cell_make a 0)] ++ drop (x1 + 1) cells)))
  else None.
Definition scrollLeft g a (m : Margin) : option Grid :=
  update_lines g (scrollLeft_line a m) (from (vertical m)) (Z.to_nat (range_length (vertical m))).

(** [reset]. *)
Definition grid_reset g : option Grid :=
  let g := with_used g (lines (_pageSize g)) in
  let r := rotate_right (_lines g) (_zero (_lines g)) in
  update_lines (with_lines g r) (fun l => Some (line_reset l (defaultLineFlags g) Attrs_init))
    0 (Z.to_nat (lines (_pageSize g))).

(** ** Resizing *)

Definition wrap_flag (i : Z) (initialNoWrap : bool) : flags :=
  if (i =? 0) && initialNoWrap then LineFlag.None_ else LineFlag.Wrapped.

(** The [while] of [addNewWrappedLines]: the lines, the rest of the buffer and
    the count; [None] when the fuel is used up. *)
Fixpoint add_full_lines (fuel : nat) (target : list Line) (newColumnCount : Z) (buffer : list Cell)
    (baseFlags : flags) (initialNoWrap : bool) (i : Z) : option (list Line * list Cell * Z) :=
  if newColumnCount <=? Z.of_nat (length buffer) then
    match fuel with
    | O => None
    | S fuel' =>
        let n := Z.to_nat newColumnCount in
        add_full_lines fuel'
          (target ++ [mkLine (Z.lor baseFlags (wrap_flag i initialNoWrap)) (Inflated (take n buffer))])
          newColumnCount (drop n buffer) baseFlags initialNoWrap (i + 1)
    end
  else Some (target, buffer, i).

(** Appends the buffer in lines of [newColumnCount] columns to [target]; also
    returns the number of lines added. *)
Definition addNewWrappedLines (target : list Line) (newColumnCount : Z) (buffer : list Cell)
    (baseFlags : flags) (initialNoWrap : bool) : option (list Line * Z) :=
  '(target, rest, i) ← add_full_lines (S (length buffer)) target newColumnCount buffer baseFlags initialNoWrap 0;
  if (0 <? length rest)%nat then
    Some (target ++ [mkLine (Z.lor baseFlags (wrap_flag i initialNoWrap))
                       (Inflated (vector_resize cell_default rest newColumnCount))], i + 1)
  else Some (target, i).

Definition with_page_lines g (n : Z) : Grid := with_page g (mkPageSize n (columns (_pageSize g))).
Definition with_page_columns g (n : Z) : Grid := with_page g (mkPageSize (lines (_pageSize g)) n).

(** [growLines]: the grid and the cursor movement. *)
Definition growLines g (newHeight : Z) (cursor : CellLocation) : option (Grid * CellLocation) :=
  if newHeight <=? lines (_pageSize g) then None
  else
    let '(g, moved) :=
      if line cursor + 1 =? lines (_pageSize g) then
        let take := Z.min (newHeight - lines (_pageSize g)) (historyLineCount g) in
        (with_page_lines (with_lines g (rotate_right (_lines g) take)) (lines (_pageSize g) + take), take)
      else (g, 0) in
    lastLine ← back (_lines g);
    let totalLinesToExtend := newHeight - lines (_pageSize g) in
    let linesToFill := Z.max 0 (maxHistoryLineCount g + newHeight - size (_lines g)) in
    let g := with_lines g (Nat.iter (Z.to_nat linesToFill)
      (fun r => emplace_back r (blank_line (wrappableFlag lastLine) (columns (_pageSize g)) Attrs_init))
      (_lines g)) in
    let g := with_page_lines g (lines (_pageSize g) + totalLinesToExtend) in
    let g := with_used g (Z.min (_linesUsed g + totalLinesToExtend) (size (_lines g))) in
    Some (g, mkLoc moved 0).

(** [shrinkLines]. *)
Definition shrinkLines g (newHeight : Z) (cursor : CellLocation) : option (Grid * CellLocation) :=
  if lines (_pageSize g) <=? newHeight then None
  else
    let numLinesToShrink := lines (_pageSize g) - newHeight in
    let linesAvailableBelowCursorBeforeShrink := lines (_pageSize g) - (line cursor + 1) in
    let cutoffCount := Z.min numLinesToShrink linesAvailableBelowCursorBeforeShrink in
    let numLinesToPushUp := numLinesToShrink - cutoffCount in
    g ← (if cutoffCount =? 0 then Some g
         else
           let g := with_used (with_page_lines g (lines (_pageSize g) - cutoffCount)) (_linesUsed g - cutoffCount) in
           if line cursor <? lines (_pageSize g) then Some g else None);
    if newHeight <=? lines (_pageSize g) then
      if numLinesToPushUp =? 0 then Some (g, mkLoc 0 0)
      else if line cursor + 1 =? lines (_pageSize g) then
        Some (with_page_lines (with_lines g (rotate_left (_lines g) numLinesToPushUp))
                (lines (_pageSize g) - numLinesToPushUp),
              mkLoc (- numLinesToPushUp) 0)
      else None
    else None.

(** The variables of the loop of [growColumns]. *)
Record grow_state := mkGrow { grownLines : list Line; logicalLineBuffer : list Cell; logicalLineFlags : flags }.

Definition flushLogicalLine (newColumnCount : Z) (s : grow_state) : option grow_state :=
  match logicalLineBuffer s with
  | [] => Some s
  | buffer =>
      '(grown, _) ← addNewWrappedLines (grownLines s) newColumnCount buffer (logicalLineFlags s) true;
      Some (mkGrow grown [] (logicalLineFlags s))
  end.

Definition grow_line (oldColumns newColumnCount : Z) (s : grow_state) l : option grow_state :=
  if line_size l <? oldColumns then None
  else if wrapped l then
    cells ← trim_blank_right l;
    Some (mkGrow (grownLines s) (logicalLineBuffer s ++ cells) (logicalLineFlags s))
  else
    s ← flushLogicalLine newColumnCount s;
    match _buffer l with
    | Trivial b =>
        Some (mkGrow (grownLines s ++ [setBuffer l (Trivial (set_displayWidth b newColumnCount))])
                (logicalLineBuffer s) (logicalLineFlags s))
    | Inflated cells =>
        Some (mkGrow (grownLines s) (logicalLineBuffer s ++ cells)
                (Flags.without (_flags l) LineFlag.Wrapped))
    end.

Fixpoint fold_lines {S} (step : S -> Line -> option S) (r : ring Line) (ys : list Z) (s : S) : option S :=
  match ys with
  | [] => Some s
  | y :: ys => l ← at_ r y; s ← step s l; fold_lines step r ys s
  end.

(** The offsets of the lines in use, oldest first. *)
Definition used_offsets g : list Z :=
  seqZ (- historyLineCount g) (historyLineCount g + lines (_pageSize g)).

Definition pad_lines (ls : list Line) (n : Z) l : list Line := ls ++ replicate (Z.to_nat n - length ls) l.

Definition growColumns g (newColumnCount : Z) (wrapPending : bool) : option (Grid * CellLocation) :=
  let moveRight := if wrapPending then 1 else 0 in
  if negb (_reflowOnResize g) then
    g ← update_lines g (fun l => Some (if line_size l <? newColumnCount then line_resize l newColumnCount else l))
          0 (Z.to_nat (size (_lines g)));
    Some (with_page_columns g newColumnCount, mkLoc 0 moveRight)
  else if newColumnCount <=? columns (_pageSize g) then None
  else
    s ← fold_lines (grow_line (columns (_pageSize g)) newColumnCount) (_lines g) (used_offsets g)
          (mkGrow [] [] LineFlag.None_);
    s ← flushLogicalLine newColumnCount s;
    let page := lines (_pageSize g) in
    let blank := blank_line (defaultLineFlags g) newColumnCount Attrs_init in
    let cy := Z.max 0 (page - Z.of_nat (length (grownLines s))) in
    let grown := pad_lines (grownLines s) page blank in
    let linesUsed := Z.of_nat (length grown) in
    let grown := pad_lines grown (page + maxHistoryLineCount g) blank in
    let g := with_page_columns (with_used (with_lines g (ring_of grown)) linesUsed) newColumnCount in
    Some (with_lines g (rotate_left (_lines g) (linesUsed - page)), mkLoc (- cy) moveRight).

(** The variables of the loop of [shrinkColumns]. *)
Record shrink_state := mkShrink { shrinkedLines : list Line; wrappedColumns : list Cell; previousFlags : flags }.

Definition shrink_line (newColumnCount : Z) (s : shrink_state) l : option shrink_state :=
  '(s, l) ←
    (match wrappedColumns s with
     | [] =>
         let l := setWrappable l true in
         Some (mkShrink (shrinkedLines s) [] (inheritableFlags l), l)
     | carried =>
         if wrapped l && (inheritableFlags l =? previousFlags s) then
           cells ← inflatedBuffer l;
           Some (s, setBuffer l (Inflated (carried ++ cells)))
         else
           '(target, _) ← addNewWrappedLines (shrinkedLines s) newColumnCount carried (previousFlags s) false;
           Some (mkShrink target [] (inheritableFlags l), l)
     end);
  '(l, removed) ← reflow l newColumnCount;
  if newColumnCount <=? line_size l
  then Some (mkShrink (shrinkedLines s ++ [l]) removed (previousFlags s))
  else None.

Definition shrinkColumns g (newColumnCount : Z) (cursor : CellLocation) : option (Grid * CellLocation) :=
  if negb (_reflowOnResize g) then
    g ← update_lines (with_page_columns g newColumnCount)
          (fun l => Some (if newColumnCount <? line_size l then line_resize l newColumnCount else l))
          0 (Z.to_nat (size (_lines g)));
    Some (g, mkLoc (line cursor) (column cursor + Z.min (column cursor) newColumnCount))
  else
    first ← front (_lines g);
    s ← fold_lines (shrink_line newColumnCount) (_lines g) (used_offsets g)
          (mkShrink [] [] (inheritableFlags first));
    '(shrinked, _) ← addNewWrappedLines (shrinkedLines s) newColumnCount (wrappedColumns s) (previousFlags s) false;
    let page := lines (_pageSize g) in
    let numLinesWritten := Z.of_nat (length shrinked) in
    if numLinesWritten <? page then None
    else
      let shrinked := pad_lines shrinked (page + maxHistoryLineCount g)
                        (blank_line LineFlag.None_ newColumnCount Attrs_init) in
      let r := rotate_left (ring_of shrinked) (numLinesWritten - page) in
      Some (with_page_columns (with_used (with_lines g r) numLinesWritten) newColumnCount, cursor).

Definition loc_add (a b : CellLocation) : CellLocation := mkLoc (line a + line b) (column a + column b).

(** [resize]: the grid and the new cursor position. *)
Definition grid_resize g (newSize : PageSize) (cursor : CellLocation) (wrapPending : bool)
  : option (Grid * CellLocation) :=
  if bool_decide (_pageSize g = newSize) then Some (g, cursor)
  else
    '(g, cursor) ←
      match Z.compare (columns newSize) (columns (_pageSize g)) with
      | Gt => '(g, d) ← growColumns g (columns newSize) wrapPending; Some (g, loc_add cursor d)
      | Lt => shrinkColumns g (columns newSize) cursor
      | Eq => Some (g, cursor)
      end;
    '(g, cursor) ←
      match Z.compare (lines newSize) (lines (_pageSize g)) with
      | Gt => '(g, d) ← growLines g (lines newSize) cursor; Some (g, loc_add cursor d)
      | Lt => '(g, d) ← shrinkLines g (lines newSize) cursor; Some (g, loc_add cursor d)
      | Eq => Some (g, cursor)
      end;
    if bool_decide (_pageSize g = newSize) then Some (g, cursor) else None.

(** [appendNewLines]. *)
Definition recycle_front g a : option Grid :=
  l ← front (_lines g);
  r ← pop_front (_lines g);
  Some (with_lines g (emplace_back r (line_reset l (defaultLineFlags g) a))).
Definition appendNewLines g (count : Z) a : option Grid :=
  lastLine ← back (_lines g);
  if historyLineCount g =? maxHistoryLineCount g then
    Nat.iter (Z.to_nat count) (fun og => g ← og; recycle_front g a) (Some g)
  else
    let n := Z.min count (lines (_pageSize g)) in
    Some (with_lines g (Nat.iter (Z.to_nat n)
      (fun r => emplace_back r (blank_line (wrappableFlag lastLine) (columns (_pageSize g)) a)) (_lines g))).

(** ** Queries *)

Definition isLineWrapped g (y : Z) : option bool :=
  if (- historyLineCount g <=? y) && (y <? lines (_pageSize g)) then wrapped <$> lineAt g y else Some false.
Definition isLineBlank g (y : Z) : option bool :=
  l ← lineAt g y; cells ← inflatedBuffer l; Some (forallb cell_empty cells).

(** [computeLogicalLineNumberFromBottom]: both loops run over the reversed
    ring, [ring[size - 1]] first. *)
Fixpoint count_logical (rev_lines : list Line) (n count out : Z) : list Line * Z :=
  match rev_lines with
  | [] => ([], out)
  | l :: ls =>
      let count := if wrapped l then count else count + 1 in
      if count =? n then (ls, out - 1) else count_logical ls n count (out - 1)
  end.
Fixpoint skip_wrapped (rev_lines : list Line) (out : Z) : Z :=
  match rev_lines with
  | l :: ls => if wrapped l then skip_wrapped ls (out - 1) else out
  | [] => out
  end.
Definition computeLogicalLineNumberFromBottom g (n : Z) : option Z :=
  ls ← read_range (_lines g) 0 (size (_lines g));
  let '(rest, out) := count_logical (reverse ls) n 0 (lines (_pageSize g) - 1) in
  Some (skip_wrapped rest out).

(** ** The abstract grid: history and page as sequences of lines *)

Definition page g : list Line := take (Z.to_nat (lines (_pageSize g))) (view (_lines g)).
Definition history g : list Line :=
  drop (length (view (_lines g)) - Z.to_nat (historyLineCount g)) (view (_lines g)).
(** All lines in use, oldest first. *)
Definition contents g : list Line := history g ++ page g.

Record grid_ok g : Prop := mk_grid_ok {
  ok_ring : ring_ok (_lines g);
  ok_lines : 0 < lines (_pageSize g);
  ok_used : lines (_pageSize g) <= _linesUsed g <= size (_lines g)
}.
(** Every line in use has the width of the page. *)
Definition uniform g : Prop := Forall (fun l => line_size l = columns (_pageSize g)) (contents g).

Lemma grid_split g : grid_ok g -> exists U,
  view (_lines g) = page g ++ U ++ history g /\
  Z.of_nat (length (page g)) = lines (_pageSize g) /\
  Z.of_nat (length (history g)) = historyLineCount g /\
  Z.of_nat (length U) = size (_lines g) - _linesUsed g.
Proof.
  intros [Hr Hl Hu]. unfold page, history, historyLineCount. pose proof (size_view (_lines g)) as Hs.
  set (V := view (_lines g)) in *. set (p := Z.to_nat (lines (_pageSize g))).
  set (k := (length V - Z.to_nat (_linesUsed g - lines (_pageSize g)))%nat).
  exists (take (k - p) (drop p V)). split_and!.
  - rewrite <- (take_drop p V) at 1. f_equal. rewrite <- (take_drop (k - p) (drop p V)) at 1.
    f_equal. rewrite drop_drop. f_equal. unfold k, p. lia.
  - unfold p. len. lia.
  - unfold k. len. lia.
  - unfold k, p. len. lia.
Qed.

(** Line offsets are positions in the lines in use. *)
Lemma lineAt_contents g y :
  grid_ok g -> - historyLineCount g <= y < lines (_pageSize g) ->
  lineAt g y = contents g !! Z.to_nat (historyLineCount g + y).
Proof.
  intros Hok Hy. destruct (grid_split g Hok) as (U & Hv & HA & HH & HU). pose proof Hok as [Hr Hl Hu].
  unfold lineAt, historyLineCount in *. rewrite at_view by (done || lia). rewrite Hv. unfold contents.
  destruct (Z.lt_ge_cases y 0) as [Neg|Pos].
  - replace (y mod size (_lines g)) with (y + size (_lines g)) by
      (rewrite <- (Z.mod_small (y + size (_lines g)) (size (_lines g))) by lia; rewrite <- Z.add_mod_idemp_r, Z.mod_same, Z.add_0_r by lia; reflexivity).
    rewrite app_assoc, lookup_app_r, lookup_app_l by (rewrite ?length_app; lia). f_equal. rewrite length_app. lia.
  - rewrite Z.mod_small by lia. rewrite lookup_app_l, lookup_app_r by lia. f_equal. lia.
Qed.

Lemma lineAt_page g y :
  grid_ok g -> 0 <= y < lines (_pageSize g) -> lineAt g y = page g !! Z.to_nat y.
Proof.
  intros Hok Hy. destruct (grid_split g Hok) as (U & _ & _ & HH & _). pose proof Hok as [_ Hl Hu].
  unfold historyLineCount in HH. rewrite lineAt_contents by (done || unfold historyLineCount; lia).
  unfold contents, historyLineCount. rewrite lookup_app_r by lia. f_equal. lia.
Qed.

Lemma grid_of_view g A U Hs :
  view (_lines g) = A ++ U ++ Hs -> Z.of_nat (length A) = lines (_pageSize g) ->
  Z.of_nat (length Hs) = historyLineCount g -> page g = A /\ history g = Hs.
Proof.
  intros Hv HA HH. unfold page, history. rewrite Hv. split.
  - apply take_app_length'. lia.
  - rewrite app_assoc. apply drop_app_length'. len. lia.
Qed.

Lemma line_reset_blank l f a : line_reset l f a = blank_line f (line_size l) a.
Proof. unfold line_reset, line_size, blank_line. by destruct (_buffer l). Qed.

Lemma fmap_reset_blank f a w (ls : list Line) :
  Forall (fun l => line_size l = w) ls ->
  (fun l => line_reset l f a) <$> ls = replicate (length ls) (blank_line f w a).
Proof.
  induction 1 as [|l ls Hl Hls IH]; [done|]. simpl. f_equal; [|exact IH].
  by rewrite line_reset_blank, Hl.
Qed.

Lemma fmap_const_replicate {A B} (x : B) (l : list A) : (fun _ => x) <$> l = replicate (length l) x.
Proof. induction l as [|y l IH]; [done|]. simpl. f_equal. exact IH. Qed.

Lemma mapM_total {A B} (f : A -> B) (l : list A) : mapM (fun x => Some (f x)) l = Some (f <$> l).
Proof. induction l as [|x l IH]; [done|]. simpl. by rewrite IH. Qed.

Lemma grid_ok_lines g r : grid_ok g -> ring_ok r -> size r = size (_lines g) -> grid_ok (with_lines g r).
Proof. intros [Ho1 Ho2 Ho3] Hr Hs. split; simpl; [done|done|by rewrite Hs]. Qed.

(** Resetting the bottom [n] lines of the page. *)
Lemma reset_bottom_view g n a A R :
  grid_ok g -> 0 <= n <= lines (_pageSize g) ->
  view (_lines g) = A ++ R -> Z.of_nat (length A) = lines (_pageSize g) - n -> n <= Z.of_nat (length R) ->
  Forall (fun l => line_size l = columns (_pageSize g)) (take (Z.to_nat n) R) ->
  exists r, reset_bottom g n a = Some (with_lines g r) /\ ring_ok r /\ size r = size (_lines g) /\
    _zero r = _zero (_lines g) /\
    view r = A ++ replicate (Z.to_nat n) (blank_line (defaultLineFlags g) (columns (_pageSize g)) a)
               ++ drop (Z.to_nat n) R.
Proof.
  intros Hok Hn Hv HA HR Hw. pose proof (size_view (_lines g)) as Hs. rewrite Hv in Hs. revert Hs. len. intros Hs.
  unfold reset_bottom, update_lines.
  destruct (view_update_range (_lines g) (fun l => Some (line_reset l (defaultLineFlags g) a))
    (lines (_pageSize g) - n) (Z.to_nat n)
    ((fun l => line_reset l (defaultLineFlags g) a) <$> take (Z.to_nat n) R)) as (r & E & Hr & Hsz & Hz & Hvw).
  - apply Hok.
  - lia.
  - lia.
  - rewrite Hv, drop_app_length' by lia. apply mapM_total.
  - exists r. rewrite E. split_and!; [done|done|done|done|]. rewrite Hvw, Hv.
    rewrite take_app_length' by lia. f_equal.
    rewrite (fmap_reset_blank _ _ (columns (_pageSize g))) by done. rewrite length_take, Nat.min_l by lia.
    f_equal. rewrite drop_app_ge by lia. f_equal. lia.
Qed.

(** ** Scrolling up *)

(** Rotating [m] lines off the top and resetting the bottom [n] of the page. *)
Lemma rotate_reset g m n a A1 A2 R :
  grid_ok g -> 0 <= m -> 0 <= n <= lines (_pageSize g) ->
  view (_lines g) = A1 ++ A2 ++ R -> Z.of_nat (length A1) = m ->
  Z.of_nat (length A2) = lines (_pageSize g) - n -> n <= Z.of_nat (length (R ++ A1)) ->
  Forall (fun l => line_size l = columns (_pageSize g)) (R ++ A1) ->
  exists r, reset_bottom (with_lines g (rotate_left (_lines g) m)) n a = Some (with_lines g r) /\
    ring_ok r /\ size r = size (_lines g) /\ _zero r = (_zero (_lines g) + m) mod size (_lines g) /\
    view r = A2 ++ replicate (Z.to_nat n) (blank_line (defaultLineFlags g) (columns (_pageSize g)) a)
               ++ drop (Z.to_nat n) (R ++ A1).
Proof.
  intros Hok Hm Hn Hv HA1 HA2 HR Hw. pose proof Hok as [Hr Hl Hu].
  pose proof (size_view (_lines g)) as Hs. rewrite Hv in Hs. revert Hs. len. intros Hs.
  assert (Hok1 : grid_ok (with_lines g (rotate_left (_lines g) m)))
    by (apply grid_ok_lines; [done|apply rotate_left_ok; [done|lia]|done]).
  destruct (reset_bottom_view _ n a A2 (R ++ A1) Hok1) as (r & E & Hr' & Hsz & Hz & Hvr);
    [done| |done|len; lia|by apply Forall_take|].
  2: { exists r. split_and!; try done. rewrite Hz. apply rotate_left_zero; [done|lia|].
       destruct Hr. lia. }
  simpl. rewrite view_rotate_left, Hv by (done || lia).
  rewrite drop_app_length', take_app_length' by lia. by rewrite app_assoc.
Qed.

(** Filling the next [k] unused lines and rotating them into the page. *)
Lemma append_blank_view g k l A1 A2 U Hs :
  grid_ok g -> 0 <= k -> view (_lines g) = A1 ++ A2 ++ U ++ Hs ->
  Z.of_nat (length A1) = k -> k <= Z.of_nat (length U) ->
  Z.of_nat (length (A1 ++ A2)) = lines (_pageSize g) ->
  let r := rotate_left (write_range (_lines g) (lines (_pageSize g)) (replicate (Z.to_nat k) l)) k in
  ring_ok r /\ size r = size (_lines g) /\
  _zero r = (_zero (_lines g) + k) mod size (_lines g) /\
  view r = A2 ++ replicate (Z.to_nat k) l ++ drop (Z.to_nat k) U ++ Hs ++ A1.
Proof.
  intros Hok Hk Hv HA1 HU HA r. destruct Hok as [Hr Hl Hu].
  pose proof (size_view (_lines g)) as Hs'. rewrite Hv in Hs'. revert Hs'. len. intros Hs'.
  set (w := write_range (_lines g) (lines (_pageSize g)) (replicate (Z.to_nat k) l)).
  assert (Hwo : ring_ok w) by (by apply write_range_ok).
  assert (Hws : size w = size (_lines g)) by apply write_range_size.
  assert (Hwz : _zero w = _zero (_lines g)) by apply write_range_zero.
  assert (Hwv : view w = A1 ++ A2 ++ replicate (Z.to_nat k) l ++ drop (Z.to_nat k) U ++ Hs).
  { unfold w. rewrite view_write_range by (done || len; lia). rewrite Hv, (app_assoc A1 A2 (U ++ Hs)).
    rewrite take_app_length', length_replicate by (len; lia).
    rewrite <- app_assoc. do 3 f_equal. rewrite drop_app_ge, drop_app_le by (len; lia).
    do 2 f_equal. len. lia. }
  split_and!.
  - unfold r. fold w. apply rotate_left_ok; [done|lia].
  - done.
  - unfold r. fold w. rewrite <- Hws, <- Hwz. apply rotate_left_zero; [done|lia|]. destruct Hwo. lia.
  - unfold r. fold w. rewrite view_rotate_left, Hwv by (done || lia).
    rewrite drop_app_length', take_app_length' by lia. by rewrite <- !app_assoc.
Qed.

Lemma drop_keep {A} n (l1 l2 l3 l4 : list A) : (n <= length (l1 ++ l2))%nat ->
  drop n (l1 ++ (l2 ++ l3) ++ l4) = drop n (l1 ++ l2) ++ l3 ++ l4.
Proof. intros Hn. by rewrite <- app_assoc, app_assoc, drop_app_le. Qed.

(** The appending step of [scrollUp], which does nothing for [k = 0]. *)
Lemma append_blank_grid g k l A1 A2 U Hs :
  grid_ok g -> 0 <= k <= size (_lines g) - _linesUsed g -> view (_lines g) = A1 ++ A2 ++ U ++ Hs ->
  Z.of_nat (length A1) = k -> Z.of_nat (length U) = size (_lines g) - _linesUsed g ->
  Z.of_nat (length (A1 ++ A2)) = lines (_pageSize g) ->
  let g1 := if k =? 0 then g else
    with_used (with_lines g (rotate_left (write_range (_lines g) (lines (_pageSize g))
      (replicate (Z.to_nat k) l)) k)) (_linesUsed g + k) in
  grid_ok g1 /\ _pageSize g1 = _pageSize g /\ _reflowOnResize g1 = _reflowOnResize g /\
  size (_lines g1) = size (_lines g) /\ _linesUsed g1 = _linesUsed g + k /\
  _historyLimit g1 = _historyLimit g /\
  _zero (_lines g1) = (_zero (_lines g) + k) mod size (_lines g) /\
  view (_lines g1) = A2 ++ replicate (Z.to_nat k) l ++ drop (Z.to_nat k) U ++ Hs ++ A1.
Proof.
  intros Hok Hk Hv HA1 HU HA g1. unfold g1. destruct (Z.eqb_spec k 0) as [->|Nk].
  - assert (A1 = []) as -> by (apply nil_length_inv; lia).
    split_and!; [done|done|done|done|lia|done| |simpl; by rewrite drop_0, app_nil_r].
    destruct Hok as [(Hr1 & Hr2 & Hr3) Hl Hu]. rewrite Z.add_0_r, Z.mod_small; lia.
  - destruct (append_blank_view g k l A1 A2 U Hs Hok) as (Hr1 & Hsz1 & Hz1 & Hv1); [lia|done|done|lia|done|].
    pose proof Hok as [Hr Hl Hu]. split_and!; try done.
    split; simpl; [done|done|]. rewrite Hsz1. lia.
Qed.

(** What [scrollUp] promises: [n] blank lines come in at the bottom, and the
    oldest lines go when the ring is full. *)
Definition scrolled_up g g' (n : Z) a : Prop :=
  grid_ok g' /\ _pageSize g' = _pageSize g /\ _reflowOnResize g' = _reflowOnResize g /\
  size (_lines g') = size (_lines g) /\
  _linesUsed g' = Z.min (_linesUsed g + n) (size (_lines g)) /\
  _historyLimit g' = _historyLimit g /\
  _zero (_lines g') = (_zero (_lines g) + n) mod size (_lines g) /\
  contents g' = drop (Z.to_nat (_linesUsed g + n - size (_lines g)))
    (contents g ++ replicate (Z.to_nat n) (blank_line (defaultLineFlags g) (columns (_pageSize g)) a)).

(** Two scrolls in a row are one scroll. *)
Lemma scrolled_up_trans g g1 g2 k m a :
  grid_ok g -> 0 <= k -> 0 <= m -> scrolled_up g g1 k a -> scrolled_up g1 g2 m a -> scrolled_up g g2 (k + m) a.
Proof.
  intros Hok Hk Hm (Hok1 & Hp1 & Hf1 & Hs1 & Hu1 & Hl1 & Hz1 & Hc1) (Hok2 & Hp2 & Hf2 & Hs2 & Hu2 & Hl2 & Hz2 & Hc2).
  destruct (grid_split g Hok) as (U & _ & HA & HH & HU). pose proof Hok as [(? & ? & ?) ? ?].
  split_and!; try congruence; [lia| |].
  - rewrite Hz2, Hz1, Hs1, Z.add_mod_idemp_l by lia. f_equal. lia.
  - rewrite Hc2, Hc1, Hs1, Hu1. unfold defaultLineFlags. rewrite Hp1, Hf1. fold (defaultLineFlags g).
    assert (Z.of_nat (length (contents g)) = _linesUsed g) by (unfold contents, historyLineCount in *; len; lia).
    rewrite <- drop_app_le, drop_drop, <- app_assoc, <- replicate_add by (len; lia).
    f_equal; [lia|]. do 2 f_equal. lia.
Qed.

(** A full ring: turning it by [m] and resetting the bottom [n] lines of the
    page scrolls by [m] if the other [n - m] lines were blank already. *)
Lemma scroll_full g m n a :
  grid_ok g -> uniform g -> 0 <= m <= n -> n <= lines (_pageSize g) -> _linesUsed g = size (_lines g) ->
  drop (Z.to_nat (lines (_pageSize g) - (n - m))) (page g) =
    replicate (Z.to_nat (n - m)) (blank_line (defaultLineFlags g) (columns (_pageSize g)) a) ->
  exists g', reset_bottom (with_lines g (rotate_left (_lines g) m)) n a = Some g' /\ scrolled_up g g' m a.
Proof.
  intros Hok Huni Hm Hn Efull Hb. destruct (grid_split g Hok) as (U & Hv & HA & HH & HU).
  assert (U = []) as -> by (apply nil_length_inv; lia). simpl in Hv.
  set (blank := blank_line _ _ _) in *. rewrite <- (take_drop (Z.to_nat (lines (_pageSize g) - (n - m))) (page g)), Hb in Hv.
  unfold scrolled_up, uniform, contents in *.
  rewrite <- (take_drop (Z.to_nat (lines (_pageSize g) - (n - m))) (page g)), Hb in Huni |- *.
  set (A := take _ (page g)) in *. set (Hs := history g) in *.
  assert (HlA : Z.of_nat (length A) = lines (_pageSize g) - (n - m)) by (unfold A; len; lia). clearbody A.
  rewrite <- (take_drop (Z.to_nat m) A) in Hv. rewrite !Forall_app in Huni. destruct Huni as (HuH & HuA & HuB).
  destruct (rotate_reset g m n a (take (Z.to_nat m) A) (drop (Z.to_nat m) A) (replicate (Z.to_nat (n - m)) blank ++ Hs) Hok)
    as (r & E & Hr & Hsz & Hz & Hvr); [lia|lia|by rewrite Hv, <- !app_assoc|len; lia|len; lia|len; lia| |].
  { rewrite !Forall_app. split_and!; [done..|by apply Forall_take]. }
  rewrite E. eexists. split; [done|].
  split_and!; [by apply grid_ok_lines|done|done|done|simpl; lia|done|done|].
  fold blank in Hvr. rewrite <- (app_assoc (replicate _ _)), drop_app_ge, length_replicate, app_assoc in Hvr by (len; lia).
  replace (Z.to_nat n - Z.to_nat (n - m))%nat with (Z.to_nat m) in Hvr by lia.
  destruct (grid_of_view (with_lines g r) _ [] _ Hvr) as [-> ->];
    [simpl; len; lia|unfold historyLineCount in *; simpl; len; lia|].
  replace (Z.to_nat (_linesUsed g + m - size (_lines g))) with (Z.to_nat m) by lia.
  rewrite <- (drop_app_le (Hs ++ take _ _)) by (len; lia). f_equal.
  rewrite <- !app_assoc, (app_assoc (take _ _)), take_drop, <- replicate_add. do 3 f_equal. lia.
Qed.

(** A ring with room: writing blank lines below the page and turning. *)
Lemma append_scrolled g k a :
  grid_ok g -> 0 <= k <= size (_lines g) - _linesUsed g -> k <= lines (_pageSize g) ->
  let blank := blank_line (defaultLineFlags g) (columns (_pageSize g)) a in
  scrolled_up g (if k =? 0 then g else
    with_used (with_lines g (rotate_left (write_range (_lines g) (lines (_pageSize g))
      (replicate (Z.to_nat k) blank)) k)) (_linesUsed g + k)) k a.
Proof.
  intros Hok Hk Hkl blank. destruct (grid_split g Hok) as (U & Hv & HA & HH & HU).
  rewrite <- (take_drop (Z.to_nat k) (page g)), <- app_assoc in Hv.
  destruct (append_blank_grid g k blank _ _ U _ Hok Hk Hv) as (Hok1 & Hp1 & Hf1 & Hs1 & Hu1 & Hl1 & Hz1 & Hv1);
    [len; lia|done|by rewrite take_drop|]. cbn zeta in *.
  set (g1 := if k =? 0 then g else _) in *. clearbody g1.
  split_and!; [done|done|done|done|lia|done|done|]. unfold contents.
  destruct (grid_of_view g1 (drop (Z.to_nat k) (page g) ++ replicate (Z.to_nat k) blank) (drop (Z.to_nat k) U)
    (history g ++ take (Z.to_nat k) (page g))) as [-> ->]; [by rewrite Hv1, <- !app_assoc|rewrite Hp1; len; lia| |].
  { unfold historyLineCount in *. rewrite Hp1, Hu1. len. lia. }
  replace (Z.to_nat (_linesUsed g + k - size (_lines g))) with 0%nat by lia.
  by rewrite drop_0, <- !app_assoc, (app_assoc (take _ _)), take_drop.
Qed.

(** Page and history after scrolling up, and the widths. *)
Lemma scrolled_up_parts g g' n a :
  grid_ok g -> 0 <= n <= lines (_pageSize g) -> scrolled_up g g' n a ->
  let blank := blank_line (defaultLineFlags g) (columns (_pageSize g)) a in
  page g' = drop (Z.to_nat n) (page g) ++ replicate (Z.to_nat n) blank /\
  history g' = drop (Z.to_nat (_linesUsed g + n - size (_lines g)))
                 (history g ++ take (Z.to_nat n) (page g)) /\
  (uniform g -> uniform g').
Proof.
  intros Hok Hn (Hok' & Hp & _ & Hs & Hu & _ & _ & Hc) blank. fold blank in Hc.
  destruct (grid_split g Hok) as (U & _ & HA & HH & _).
  destruct (grid_split g' Hok') as (U' & _ & HA' & HH' & _).
  set (d := Z.to_nat (_linesUsed g + n - size (_lines g))) in *.
  assert (Hd : (d <= Z.to_nat n)%nat) by (destruct Hok; unfold d; lia).
  assert (Hc' : history g' ++ page g' = drop d (history g ++ take (Z.to_nat n) (page g)) ++
                (drop (Z.to_nat n) (page g) ++ replicate (Z.to_nat n) blank)).
  { change (history g' ++ page g') with (contents g'). rewrite Hc. unfold contents.
    rewrite <- (take_drop (Z.to_nat n) (page g)) at 1. rewrite <- drop_keep by (len; lia).
    by rewrite <- app_assoc. }
  apply app_inj_2 in Hc' as [E1 E2]; [|len; rewrite Hp in HA'; lia].
  split_and!; [done|done|]. intros Huni. unfold uniform. rewrite Hp, Hc.
  apply Forall_drop, Forall_app. split; [done|]. by apply Forall_replicate.
Qed.

Lemma scrollUp_core g n a :
  grid_ok g -> uniform g -> 0 <= n <= lines (_pageSize g) -> scrollUp_alloc g n = g ->
  exists g' k, scrollUp g n a = Some (g', k) /\ scrolled_up g g' n a.
Proof.
  intros Hok Huni Hn Ha. unfold scrollUp. rewrite Ha. destruct (grid_split g Hok) as (_ & _ & HA & _ & _).
  destruct (Z.eqb_spec (_linesUsed g) (size (_lines g))) as [Efull|Nfull].
  - destruct (scroll_full g n n a) as (g' & -> & Hup); [done|done|lia|lia|done| |].
    2: { exists g', n. done. }
    rewrite drop_ge by lia. replace (Z.to_nat (n - n)) with 0%nat by lia. done.
  - pose proof Hok as [Hr Hl Hu]. zbool. set (k := Z.min n (size (_lines g) - _linesUsed g)).
    pose proof (append_scrolled g k a Hok) as Hup1. cbn zeta in Hup1.
    destruct (scrolled_up_parts g _ k a Hok ltac:(lia) (Hup1 ltac:(lia) ltac:(lia))) as (Ep & _ & Hu1).
    specialize (Hup1 ltac:(lia) ltac:(lia)).
    set (g1 := if k =? 0 then g else _) in *. clearbody g1. specialize (Hu1 Huni).
    pose proof Hup1 as (Hok1 & Hp1 & Hf1 & Hs1 & Hu1' & _).
    destruct (Z.ltb_spec k n) as [Hkn|Hkn]; cbn [mbind option_bind].
    + destruct (scroll_full g1 (n - k) n a) as (g' & -> & Hup2); [done|done|lia|rewrite Hp1; lia|lia| |].
      { rewrite Ep, Hp1. unfold defaultLineFlags. rewrite Hf1, drop_app_length' by (len; lia).
        do 2 f_equal. lia. }
      do 2 eexists. split; [done|]. replace n with (k + (n - k)) by lia.
      eapply scrolled_up_trans; [done|lia|lia|done|done].
    + do 2 eexists. split; [done|]. by replace n with k by lia.
Qed.

(** C4: Scrolling up a grid with a limited history, whose lines are as wide as the page, by at
    most a page: n blank lines with the given attributes enter at the bottom of the page, the
    top n lines of the page become the newest of the history, and the oldest lines are dropped
    exactly when the ring has no room for them. Nothing else changes; the operation always
    succeeds, and the invariants hold afterwards. *)
Theorem scrollUp_limited g n a limit :
  grid_ok g -> uniform g -> 0 <= n <= lines (_pageSize g) -> _historyLimit g = LimitedTo limit ->
  exists g' k, scrollUp g n a = Some (g', k) /\ grid_ok g' /\ uniform g' /\
    _pageSize g' = _pageSize g /\ _linesUsed g' = Z.min (_linesUsed g + n) (size (_lines g)) /\
    page g' = drop (Z.to_nat n) (page g) ++
              replicate (Z.to_nat n) (blank_line (defaultLineFlags g) (columns (_pageSize g)) a) /\
    history g' = drop (Z.to_nat (_linesUsed g + n - size (_lines g)))
                   (history g ++ take (Z.to_nat n) (page g)).
Proof.
  intros Hok Hu Hn Hl. destruct (scrollUp_core g n a Hok Hu Hn) as (g' & k & E & Hup).
  { unfold scrollUp_alloc. by rewrite Hl. }
  destruct (scrolled_up_parts g g' n a Hok Hn Hup) as (Ep & Eh & Hu').
  exists g', k. destruct Hup as (? & ? & ? & ? & ? & _). split_and!; auto.
Qed.

(** With unlimited history, the lines of the history are the first of the
    storage as long as the ring is never re-zeroed. *)
Definition in_order g : Prop := _zero (_lines g) = historyLineCount g.

Lemma scrollUp_alloc_view g n U :
  grid_ok g -> in_order g -> 0 <= n -> size (_lines g) + n < 2 ^ 32 ->
  view (_lines g) = page g ++ U ++ history g -> Z.of_nat (length (history g)) = historyLineCount g ->
  Z.of_nat (length U) = size (_lines g) - _linesUsed g -> _historyLimit g = Infinite ->
  let g1 := scrollUp_alloc g n in
  grid_ok g1 /\ _pageSize g1 = _pageSize g /\ _reflowOnResize g1 = _reflowOnResize g /\
  _linesUsed g1 = _linesUsed g /\ _historyLimit g1 = Infinite /\
  size (_lines g1) = Z.max (size (_lines g)) (_linesUsed g + n) /\
  in_order g1 /\ page g1 = page g /\ history g1 = history g.
Proof.
  intros Hok Hio Hn Hsz Hv HH HU Hl g1. unfold g1, scrollUp_alloc. rewrite Hl.
  destruct (Z.ltb_spec (size (_lines g) - _linesUsed g) n) as [Hlt|Hge].
  2: { split_and!; try done. lia. }
  set (v := blank_line _ _ _). set (k := Z.to_nat (n - (size (_lines g) - _linesUsed g))).
  pose proof Hok as [Hr Hp Hu].
  assert (Hk : Z.of_nat k = n - (size (_lines g) - _linesUsed g)) by lia. clearbody k.
  destruct (view_append (_lines g) v k (page g ++ U) (history g) Hr) as (Hr' & Hs' & Hz' & Hv');
    [lia|by rewrite <- app_assoc|by rewrite HH, <- Hio|].
  cbn zeta in *. set (r := Nat.iter k _ _) in *. clearbody r.
  assert (Hparts : page (with_lines g r) = page g /\ history (with_lines g r) = history g).
  { apply (grid_of_view _ _ (U ++ replicate k v)).
    - simpl. rewrite Hv', <- !app_assoc. done.
    - simpl. unfold page. len. rewrite <- (Nat2Z.id (length (view _))), <- size_view. lia.
    - done. }
  split_and!; try done; try apply Hparts.
  - split; simpl; [done|done|lia].
  - simpl. lia.
  - unfold in_order. simpl. by rewrite Hz'.
Qed.

(** With unlimited history nothing is ever dropped: scrolling up appends
    [n] blank lines to the lines in use, allocating lines as needed, and
    keeps the history at the start of the storage. *)
Lemma scrollUp_unlimited g n a :
  grid_ok g -> uniform g -> in_order g -> 0 <= n <= lines (_pageSize g) ->
  size (_lines g) + n < 2 ^ 32 -> _historyLimit g = Infinite ->
  exists g' k, scrollUp g n a = Some (g', k) /\ grid_ok g' /\ uniform g' /\ in_order g' /\
    _pageSize g' = _pageSize g /\ _linesUsed g' = _linesUsed g + n /\
    contents g' = contents g ++
      replicate (Z.to_nat n) (blank_line (defaultLineFlags g) (columns (_pageSize g)) a).
Proof.
  intros Hok Hu Hio Hn Hsz Hl. destruct (grid_split g Hok) as (U & Hv & HA & HH & HU).
  destruct (scrollUp_alloc_view g n U) as (Hok1 & Hp1 & Hf1 & Hu1 & Hl1 & Hs1 & Hio1 & Epg & Ehs);
    try done; [lia|]. set (g1 := scrollUp_alloc g n) in *.
  assert (Hidem : scrollUp_alloc g1 n = g1).
  { unfold scrollUp_alloc. rewrite Hl1. zbool. done. }
  assert (Hu' : uniform g1) by (unfold uniform, contents; by rewrite Epg, Ehs, Hp1).
  destruct (scrollUp_core g1 n a Hok1 Hu') as (g' & k & E & Hup); [by rewrite Hp1|done|].
  destruct (scrolled_up_parts g1 g' n a Hok1) as (_ & _ & Hu''); [by rewrite Hp1|done|].
  destruct Hup as (Hok' & Hp' & _ & Hs' & Hus & _ & Hz & Hc).
  exists g', k. split_and!; auto.
  - unfold scrollUp in E |- *. fold g1. rewrite Hidem in E. exact E.
  - unfold in_order in *. rewrite Hz, Hio1. unfold historyLineCount in *.
    rewrite Z.mod_small; [rewrite Hus, Hp', Hu1; lia|]. rewrite Hu1, Hp1. destruct Hok1, Hok. lia.
  - by rewrite Hp', Hp1.
  - lia.
  - rewrite Hc. replace (Z.to_nat _) with 0%nat by lia. rewrite drop_0.
    unfold contents, defaultLineFlags. by rewrite Epg, Ehs, Hp1, Hf1.
Qed.

(** ** Scrolling down *)

Lemma reset_span_out (r : ring Line) f a pos n :
  0 <= pos -> (length (_storage r) < Z.to_nat pos + n)%nat -> (Z.to_nat pos <= length (_storage r))%nat ->
  reset_span r f a pos n = None.
Proof.
  revert r pos. induction n as [|n IH]; intros r pos Hp Hn Hl; [lia|]. simpl.
  destruct (_storage r !! Z.to_nat pos) as [l|] eqn:E; [|done]. simpl.
  apply lookup_lt_Some in E. apply IH; simpl; [lia|len; lia|len; lia].
Qed.

Lemma reset_span_in (r : ring Line) f a pos n :
  0 <= pos -> (Z.to_nat pos + n <= length (_storage r))%nat ->
  reset_span r f a pos n = Some (mk_ring
    (take (Z.to_nat pos) (_storage r) ++
     ((fun l => line_reset l f a) <$> take n (drop (Z.to_nat pos) (_storage r))) ++
     drop (Z.to_nat pos + n) (_storage r)) (_zero r)).
Proof.
  revert r pos. induction n as [|n IH]; intros r pos Hp Hn; simpl.
  - rewrite Nat.add_0_r. simpl. rewrite take_drop. by destruct r.
  - destruct (lookup_lt_is_Some_2 (_storage r) (Z.to_nat pos)) as [l E]; [lia|].
    rewrite E. cbn [mbind option_bind]. rewrite IH by (simpl; len; lia). simpl. do 2 f_equal.
    replace (Z.to_nat (pos + 1)) with (S (Z.to_nat pos)) by lia.
    rewrite (take_S_r _ _ (line_reset l f a)) by (apply list_lookup_insert_eq; lia).
    rewrite take_insert_ge, !drop_insert_lt by lia. rewrite (drop_S _ _ _ E).
    rewrite <- app_assoc. simpl. do 4 f_equal. lia.
Qed.

(** The pointer range from line 0 on stays inside the storage when the ring
    does not wrap around within it. *)
Lemma reset_span_page (r : ring Line) f a n :
  ring_ok r -> 0 < size r -> 0 <= n -> _zero r + n <= size r ->
  exists r', reset_span r f a (index r 0) (Z.to_nat n) = Some r' /\ ring_ok r' /\ size r' = size r /\
    _zero r' = _zero r /\
    view r' = ((fun l => line_reset l f a) <$> take (Z.to_nat n) (view r)) ++ drop (Z.to_nat n) (view r).
Proof.
  intros Hr Hp Hn Hz. pose proof Hr as (Hs & Hz0 & Hz1).
  assert (Hi : index r 0 = _zero r).
  { rewrite index_spec by (done || lia). rewrite Z.add_0_r. apply Z.mod_small. lia. }
  rewrite Hi, reset_span_in by (unfold size in *; lia). eexists. split; [done|].
  set (S := _storage r) in *. set (z := Z.to_nat (_zero r)).
  assert (Hlen : (z + Z.to_nat n <= length S)%nat) by (unfold S, z, size in *; lia).
  split_and!.
  - apply ring_ok_storage; [done|]. fold S. len. lia.
  - unfold size. simpl. fold S. len. lia.
  - done.
  - unfold view. simpl. fold S z. rewrite drop_app_length', take_app_length' by (len; lia).
    rewrite take_app_le, drop_app_le, drop_drop by (len; lia). by rewrite <- app_assoc.
Qed.

(** The whole page as a margin. *)
Definition full_margin g (m : Margin) : Prop :=
  m = mkMargin (mkRange 0 (lines (_pageSize g) - 1)) (mkRange 0 (columns (_pageSize g) - 1)).

Lemma full_margin_tests g m : full_margin g m ->
  fullHorizontal g m = true /\ fullVertical g m = true /\ range_length (vertical m) = lines (_pageSize g).
Proof.
  intros ->. unfold fullHorizontal, fullVertical, range_length. simpl.
  split_and!; [by apply bool_decide_eq_true_2..|lia].
Qed.

Lemma rotate_right_zero (r : ring Line) n : ring_ok r -> 0 < size r -> 0 <= n <= size r ->
  _zero (rotate_right r n) = if _zero r <? n then _zero r + size r - n else _zero r - n.
Proof.
  intros (Hs & Hz0 & Hz1) Hp Hn. simpl. rewrite u64_small, mod_wrap by lia.
  destruct (Z.ltb_spec (_zero r) n); zbool; lia.
Qed.

(** Scrolling the whole page down resets the top lines through a plain
    pointer range into the ring's storage.  When the ring's zero index is
    between 1 and [n - 1] that range runs past the end of the storage; in all
    other states the page moves down by [n] lines and [n] blank lines enter at
    the top. *)
Lemma scrollDown_page g vN a m :
  grid_ok g -> Forall (fun l => line_size l = columns (_pageSize g)) (view (_lines g)) ->
  0 <= vN -> full_margin g m ->
  let n := Z.min vN (lines (_pageSize g)) in
  (0 < _zero (_lines g) < n -> scrollDown g vN a m = None) /\
  (~ 0 < _zero (_lines g) < n ->
   exists g', scrollDown g vN a m = Some g' /\ grid_ok g' /\ _pageSize g' = _pageSize g /\
     _linesUsed g' = _linesUsed g /\
     page g' = replicate (Z.to_nat n) (blank_line (defaultLineFlags g) (columns (_pageSize g)) a)
               ++ take (Z.to_nat (lines (_pageSize g) - n)) (page g)).
Proof.
  intros Hok Hw HvN Hm n. destruct (full_margin_tests g m Hm) as (Hh & Hvt & Hlen).
  unfold scrollDown. rewrite Hh, Hvt, Hlen. fold n. zbool. cbn [andb].
  pose proof Hok as [Hr Hl Hu]. assert (Hp : 0 < size (_lines g)) by lia.
  assert (Hn : 0 <= n <= lines (_pageSize g)) by lia. clearbody n. clear HvN vN.
  set (r := rotate_right (_lines g) n).
  assert (Hr' : ring_ok r) by (by apply rotate_right_ok).
  assert (Hs : size r = size (_lines g)) by done.
  pose proof (rotate_right_zero (_lines g) n Hr Hp ltac:(lia)) as Hz. fold r in Hz.
  pose proof Hr as (Hr1 & Hr2 & Hr3). pose proof Hr' as (_ & Hr2' & Hr3'). split.
  - intros Hzn. revert Hz. zbool. intros Hz.
    rewrite reset_span_out; [done| | |]; rewrite index_spec by (done || lia);
      rewrite Z.add_0_r, Z.mod_small; unfold size in *; try lia;
      change (_storage r) with (_storage (_lines g)); lia.
  - intros Hzn. destruct (reset_span_page r (defaultLineFlags g) a n Hr') as (r' & E & Hro & Hrs & _ & Hv);
      [done|lia| |].
    { rewrite Hz, Hs. destruct (Z.ltb_spec (_zero (_lines g)) n); lia. }
    rewrite E. eexists. split; [done|].
    split_and!; [by apply grid_ok_lines|done|done|]. unfold page. simpl. rewrite Hv.
    set (V := view (_lines g)) in *. pose proof (size_view (_lines g)) as HV. fold V in HV.
    unfold r. rewrite view_rotate_right by (done || lia). fold V.
    rewrite (take_app_length' (drop _ _)), (drop_app_length' (drop _ _)) by (len; lia).
    rewrite (fmap_reset_blank _ _ (columns (_pageSize g))) by (by apply Forall_drop).
    rewrite length_drop. replace (length V - (length V - Z.to_nat n))%nat with (Z.to_nat n) by lia.
    rewrite take_app_ge by (len; lia). f_equal. rewrite length_replicate, !take_take. f_equal. lia.
Qed.

(** Scrolling the whole page down also rotates the history: with every
    line of the ring in use, the [n] newest history lines are lost and the [n]
    lines that left the page at the bottom appear as the oldest ones. *)
Lemma scrollDown_history g vN a m :
  grid_ok g -> _linesUsed g = size (_lines g) ->
  0 <= vN <= lines (_pageSize g) -> vN <= historyLineCount g -> ~ 0 < _zero (_lines g) < vN ->
  full_margin g m ->
  exists g', scrollDown g vN a m = Some g' /\
    history g' = drop (Z.to_nat (lines (_pageSize g) - vN)) (page g)
                 ++ take (Z.to_nat (historyLineCount g - vN)) (history g).
Proof.
  intros Hok Hfull HvN Hh Hzn Hm. destruct (full_margin_tests g m Hm) as (Hfh & Hvt & Hlen).
  destruct (grid_split g Hok) as (U & Hv & HA & HH & HU).
  assert (U = []) as -> by (apply nil_length_inv; lia). simpl in Hv.
  unfold scrollDown. rewrite Hfh, Hvt, Hlen, Z.min_l by lia. zbool. cbn [andb].
  pose proof Hok as [Hr Hl Hu]. assert (Hp : 0 < size (_lines g)) by lia.
  set (r := rotate_right (_lines g) vN).
  assert (Hr' : ring_ok r) by (by apply rotate_right_ok).
  pose proof (rotate_right_zero (_lines g) vN Hr Hp ltac:(lia)) as Hz. fold r in Hz.
  destruct (reset_span_page r (defaultLineFlags g) a vN Hr') as (r' & E & Hro & Hrs & _ & Hvw);
    [done|lia|change (size r) with (size (_lines g)); rewrite Hz;
     destruct (Z.ltb_spec (_zero (_lines g)) vN); destruct Hr as (? & ? & ?); lia|].
  rewrite E. eexists. split; [done|].
  pose proof (size_view (_lines g)) as HV. rewrite Hv in HV. revert HV. len. intros HV.
  set (A := page g) in *. set (Hs := history g) in *.
  assert (Hvr : view r = drop (Z.to_nat (historyLineCount g - vN)) Hs
                         ++ A ++ take (Z.to_nat (historyLineCount g - vN)) Hs).
  { unfold r. rewrite view_rotate_right, Hv by (done || lia). len.
    rewrite drop_app_ge, take_app_ge by lia. do 2 f_equal; [lia|do 2 f_equal; lia]. }
  rewrite Hvr, take_app_length', drop_app_length' in Hvw by (len; unfold historyLineCount in *; lia).
  set (B := _ <$> _) in Hvw. assert (HB : Z.of_nat (length B) = vN)
    by (unfold B; len; unfold historyLineCount in *; lia).
  apply (grid_of_view (with_lines g r')
    (B ++ take (Z.to_nat (lines (_pageSize g) - vN)) A) []).
  - simpl. rewrite Hvw, <- (take_drop (Z.to_nat (lines (_pageSize g) - vN)) A) at 1.
    by rewrite <- !app_assoc.
  - simpl. len. lia.
  - unfold historyLineCount in *. simpl. len. lia.
Qed.

(** ** Scrolling inside vertical margins *)

Lemma move_lines_up_view (r : ring Line) y n k :
  ring_ok r -> 0 <= y -> 0 <= n -> y + n + Z.of_nat k <= size r ->
  exists r', move_lines_up r y n k = Some r' /\ ring_ok r' /\ size r' = size r /\ _zero r' = _zero r /\
    view r' = take (Z.to_nat y) (view r) ++ take k (drop (Z.to_nat (y + n)) (view r))
              ++ drop (Z.to_nat y + k) (view r).
Proof.
  revert r y. induction k as [|k IH]; intros r y Hr Hy Hn Hk; cbn [move_lines_up].
  - exists r. split_and!; try done. by rewrite take_0, Nat.add_0_r, app_nil_l, take_drop.
  - pose proof (size_view r) as Hs.
    destruct (lookup_lt_is_Some_2 (view r) (Z.to_nat (y + n))) as [l E]; [lia|].
    rewrite at_view, Z.mod_small, E by (done || lia). cbn [mbind option_bind].
    assert (Hv : view (set_at r y l) = <[Z.to_nat y := l]> (view r))
      by (rewrite view_set_at, Z.mod_small by (done || lia); done).
    destruct (IH (set_at r y l) (y + 1)) as (r' & E' & Hr' & Hs' & Hz' & Hv');
      [by apply set_at_ok|lia|done|rewrite set_at_size; lia|].
    exists r'. split_and!; [done|done|by rewrite Hs', set_at_size|done|]. rewrite Hv', Hv.
    replace (Z.to_nat (y + 1 + n)) with (S (Z.to_nat (y + n))) by lia.
    replace (Z.to_nat (y + 1)) with (S (Z.to_nat y)) by lia.
    rewrite (take_S_r _ _ l) by (apply list_lookup_insert_eq; lia).
    rewrite take_insert_ge, !drop_insert_lt, (drop_S _ _ _ E) by lia.
    rewrite <- app_assoc. cbn [take app]. do 4 f_equal. lia.
Qed.

(** The view after moving the lines of the margin [f .. f + h - 1] up by
    [n2 <= h]; the code skips the loop when nothing moves. *)
Lemma margin_moved (r : ring Line) f h n2 :
  ring_ok r -> 0 <= f -> 0 <= n2 <= h -> f + h <= size r ->
  exists r', (if negb (n2 =? 0) && (n2 <? h) then move_lines_up r f n2 (Z.to_nat (h - n2)) else Some r) = Some r' /\
    ring_ok r' /\ size r' = size r /\
    view r' = take (Z.to_nat f) (view r) ++ take (Z.to_nat (h - n2)) (drop (Z.to_nat (f + n2)) (view r))
              ++ drop (Z.to_nat (f + h - n2)) (view r).
Proof.
  intros Hr Hf Hn Hh. destruct (Z.eqb_spec n2 0) as [->|N0]; [|destruct (Z.ltb_spec n2 h)]; simpl.
  - exists r. split_and!; try done. rewrite Z.add_0_r, !Z.sub_0_r.
    rewrite <- (take_drop (Z.to_nat f) (view r)) at 1. f_equal.
    rewrite <- (take_drop (Z.to_nat h) (drop (Z.to_nat f) (view r))) at 1. f_equal.
    rewrite drop_drop. f_equal. lia.
  - destruct (move_lines_up_view r f n2 (Z.to_nat (h - n2))) as (r' & E & ? & ? & _ & Hv); [done|lia..|].
    exists r'. split_and!; try done. rewrite Hv. do 3 f_equal. lia.
  - exists r. split_and!; try done. replace (h - n2) with 0 by lia. replace (f + h - n2) with f by lia.
    simpl. by rewrite take_drop.
Qed.

(** Scrolling up inside vertical margins that span the full width: the
    margin's lines move up by [n], blank lines enter at its bottom, and every
    line outside the margin, the whole history included, is untouched.  A
    count above the margin's height clears the margin. *)
Lemma scrollUp_margin_lines g n a m :
  grid_ok g -> 0 <= n ->
  0 <= from (vertical m) <= to (vertical m) -> to (vertical m) < lines (_pageSize g) ->
  0 < columns (_pageSize g) -> fullHorizontal g m = true -> fullVertical g m = false ->
  let f := from (vertical m) in
  let h := range_length (vertical m) in
  let n2 := Z.min n h in
  exists g', scrollUp_margin g n a m = Some (g', 0) /\ grid_ok g' /\ _pageSize g' = _pageSize g /\
    _linesUsed g' = _linesUsed g /\ history g' = history g /\
    page g' = take (Z.to_nat f) (page g)
              ++ take (Z.to_nat (h - n2)) (drop (Z.to_nat (f + n2)) (page g))
              ++ replicate (Z.to_nat n2) (blank_line (defaultLineFlags g) (columns (_pageSize g)) a)
              ++ drop (Z.to_nat (f + h)) (page g).
Proof.
  intros Hok Hn Hm1 Hm2 Hc Hfh Hfv f h n2. destruct (grid_split g Hok) as (U & Hv & HA & HH & HU).
  pose proof Hok as [Hr Hl Hu]. unfold scrollUp_margin. rewrite Hfh, Hfv.
  assert (Hhor : horizontal m = mkRange 0 (columns (_pageSize g) - 1)) by (by apply (bool_decide_eq_true_1 _)).
  rewrite Hhor. simpl from. simpl to. zbool. cbn [negb andb].
  fold h n2. assert (Hto : to (vertical m) = f + h - 1) by (unfold f, h, range_length; lia).
  assert (Hn2 : 0 <= n2 <= h) by (unfold h, range_length in *; lia).
  assert (Hf : 0 <= f /\ f + h <= lines (_pageSize g)) by (unfold f in *; lia).
  fold f. rewrite Hto. clearbody f h n2.
  destruct (margin_moved (_lines g) f h n2 Hr) as (r & E & Hr' & Hs' & Hvr); [lia|done|lia|].
  rewrite E. cbn [mbind option_bind]. unfold update_lines.
  set (blank := blank_line (defaultLineFlags g) (columns (_pageSize g)) a).
  assert (HV : length (view (_lines g)) = Z.to_nat (size (_lines g)))
    by (rewrite size_view; lia).
  destruct (view_update_range r (fun l => Some (line_reset_width l (defaultLineFlags g) a (columns (_pageSize g))))
    (f + h - 1 - n2 + 1) (Z.to_nat n2) (replicate (Z.to_nat n2) blank)) as (r2 & E2 & Hr2 & Hs2 & _ & Hv2);
    [done|lia|rewrite Hs'; lia| |].
  { rewrite mapM_total. f_equal. unfold line_reset_width. rewrite fmap_const_replicate. f_equal.
    rewrite length_take, length_drop, <- (Nat2Z.id (length (view r))), <- size_view, Hs'. lia. }
  cbn [_lines with_lines]. rewrite E2. simpl. eexists. split; [done|].
  set (V := view (_lines g)) in *.
  assert (Hvv : view r2 = take (Z.to_nat f) V ++ take (Z.to_nat (h - n2)) (drop (Z.to_nat (f + n2)) V)
                          ++ replicate (Z.to_nat n2) blank ++ drop (Z.to_nat (f + h)) V).
  { rewrite Hv2, Hvr.
    rewrite (app_assoc (take _ V) (take _ _) (drop (Z.to_nat (f + h - n2)) V)).
    rewrite take_app_length' by (len; lia). rewrite drop_app_ge by (len; lia). rewrite <- app_assoc.
    do 3 f_equal. rewrite drop_drop. f_equal. len. lia. }
  destruct (grid_of_view (with_lines g r2)
    (take (Z.to_nat f) (page g) ++ take (Z.to_nat (h - n2)) (drop (Z.to_nat (f + n2)) (page g))
     ++ replicate (Z.to_nat n2) blank ++ drop (Z.to_nat (f + h)) (page g)) U (history g)) as [Ep Eh].
  - simpl. rewrite Hvv, Hv. rewrite !drop_app_le, !take_app_le by (len; lia).
    by rewrite <- !app_assoc.
  - simpl. len. lia.
  - done.
  - split_and!; try done. apply (grid_ok_lines g r2); [done|done|congruence].
Qed.

(** ** Wrapping a logical line *)

Definition line_cells l : list Cell := match _buffer l with Inflated cells => cells | Trivial _ => [] end.

(** Lines [i], [i + 1], ... of a logical line laid out at a width. *)
Definition wrapped_from (i width : Z) (base : flags) (noWrap : bool) (ls : list Line) : Prop :=
  forall j l, ls !! j = Some l ->
    line_size l = width /\ _flags l = Z.lor base (wrap_flag (i + Z.of_nat j) noWrap) /\
    _buffer l = Inflated (line_cells l).

Lemma wrapped_from_cons i width base noWrap l ls :
  line_size l = width -> _flags l = Z.lor base (wrap_flag i noWrap) -> _buffer l = Inflated (line_cells l) ->
  wrapped_from (i + 1) width base noWrap ls -> wrapped_from i width base noWrap (l :: ls).
Proof.
  intros Hs Hf Hb Hls [|j] l'; simpl.
  - intros [= <-]. by rewrite Z.add_0_r.
  - intros Hj. destruct (Hls j l' Hj) as (? & Hf' & ?).
    replace (i + Z.of_nat (S j)) with (i + 1 + Z.of_nat j) by lia. done.
Qed.

Lemma add_full_lines_spec fuel target w buffer base noWrap i :
  1 <= w -> (length buffer < fuel)%nat ->
  exists new rest, add_full_lines fuel target w buffer base noWrap i
                   = Some (target ++ new, rest, i + Z.of_nat (length new)) /\
    mjoin (line_cells <$> new) ++ rest = buffer /\ Z.of_nat (length rest) < w /\
    wrapped_from i w base noWrap new.
Proof.
  intros Hw. revert target buffer i. induction fuel as [|fuel IH]; intros target buffer i Hf; [lia|].
  cbn [add_full_lines]. destruct (Z.leb_spec w (Z.of_nat (length buffer))) as [Hle|Hgt].
  - set (l := mkLine (Z.lor base (wrap_flag i noWrap)) (Inflated (take (Z.to_nat w) buffer))).
    destruct (IH (target ++ [l]) (drop (Z.to_nat w) buffer) (i + 1)) as (new & rest & E & Hc & Hr & Hn);
      [len; lia|].
    exists (l :: new), rest. rewrite E. split_and!.
    + rewrite <- app_assoc. simpl. do 2 f_equal. lia.
    + change (mjoin (line_cells <$> l :: new)) with (line_cells l ++ mjoin (line_cells <$> new)).
      rewrite <- app_assoc, Hc. apply take_drop.
    + done.
    + apply wrapped_from_cons; [|done|done|done]. unfold line_size. simpl. len. lia.
  - exists [], buffer. rewrite app_nil_r. split_and!; [do 2 f_equal; simpl; lia|done|lia|].
    intros j l. by rewrite lookup_nil.
Qed.

Lemma addNewWrappedLines_spec target w buffer base noWrap :
  1 <= w ->
  exists new, addNewWrappedLines target w buffer base noWrap
              = Some (target ++ new, Z.of_nat (length new)) /\
    wrapped_from 0 w base noWrap new /\
    exists pad, mjoin (line_cells <$> new) = buffer ++ replicate pad cell_default /\ (pad < Z.to_nat w)%nat.
Proof.
  intros Hw. unfold addNewWrappedLines.
  destruct (add_full_lines_spec (S (length buffer)) target w buffer base noWrap 0)
    as (new & rest & -> & Hc & Hr & Hn); [done|lia|]. cbn [mbind option_bind].
  destruct rest as [|c rest]; cbn [length Nat.ltb Nat.leb].
  - exists new. split_and!; [done|done|]. exists 0%nat. rewrite <- Hc, !app_nil_r. split; [done|lia].
  - set (last := mkLine _ (Inflated (vector_resize cell_default (c :: rest) w))).
    exists (new ++ [last]). split_and!.
    + rewrite <- app_assoc. do 2 f_equal. len. simpl. lia.
    + intros j l Hj. apply lookup_app_Some in Hj as [Hj|[Hj1 Hj2]]; [by apply Hn|].
      apply list_lookup_singleton_Some in Hj2 as [Hj <-].
      replace (Z.of_nat j) with (Z.of_nat (length new)) by lia.
      split_and!; [|done|done]. unfold line_size, last. simpl _buffer. cbv iota.
      rewrite vector_resize_length; lia.
    + exists (Z.to_nat w - length (c :: rest))%nat.
      rewrite fmap_app, join_app.
      change (mjoin (line_cells <$> [last])) with (line_cells last ++ []). rewrite app_nil_r. split; [|simpl in *; lia].
      unfold last, line_cells at 2. simpl _buffer. cbv iota. unfold vector_resize.
      rewrite take_ge by (simpl in *; lia). by rewrite app_assoc, Hc.
Qed.

(** Laying out a logical line at a positive width always terminates and
    loses nothing: the appended lines are exactly [width] columns wide, their
    cells concatenated are the buffer followed by fewer than [width] blank
    default cells, and all of them carry the Wrapped flag, except the first
    one when it starts the logical line. *)
Lemma addNewWrappedLines_correct target w buffer base noWrap :
  1 <= w ->
  exists new, addNewWrappedLines target w buffer base noWrap
              = Some (target ++ new, Z.of_nat (length new)) /\
    wrapped_from 0 w base noWrap new /\
    exists pad, mjoin (line_cells <$> new) = buffer ++ replicate pad cell_default /\ (pad < Z.to_nat w)%nat.
Proof. apply addNewWrappedLines_spec. Qed.

(** ** Changing the number of lines *)

Lemma rotate_left_0 (r : ring Line) : ring_ok r -> 0 < size r -> rotate_left r 0 = r.
Proof.
  intros Hr Hp. destruct r as [st z]. pose proof Hr as (Hs & Hz & Hz').
  unfold rotate_left. simpl in *. rewrite u64_small, Z.add_0_r, mod_wrap by lia. zbool. f_equal. lia.
Qed.

Lemma rotate_right_0 (r : ring Line) : ring_ok r -> 0 < size r -> rotate_right r 0 = r.
Proof.
  intros Hr Hp. pose proof (rotate_left_0 r Hr Hp) as E. unfold rotate_left, rotate_right in *.
  by rewrite Z.add_0_r, Z.sub_0_r in *.
Qed.

Lemma page_length g : grid_ok g -> Z.of_nat (length (page g)) = lines (_pageSize g).
Proof. intros Hok. by destruct (grid_split g Hok) as (? & _ & ? & _). Qed.

(** Shrinking the page keeps every line in use except those cut off below
    the cursor: first the lines below the cursor are given up, then lines move
    from the top of the page into the history.  The cursor stays on its line
    and inside the new page. *)
Lemma shrinkLines_contents g newHeight cursor :
  grid_ok g -> 0 < newHeight < lines (_pageSize g) -> 0 <= line cursor < lines (_pageSize g) ->
  let cut := Z.min (lines (_pageSize g) - newHeight) (lines (_pageSize g) - (line cursor + 1)) in
  exists g' d, shrinkLines g newHeight cursor = Some (g', d) /\ grid_ok g' /\
    lines (_pageSize g') = newHeight /\ columns (_pageSize g') = columns (_pageSize g) /\
    contents g' = take (length (history g) + Z.to_nat (lines (_pageSize g) - cut)) (contents g) /\
    0 <= line cursor + line d < newHeight /\
    page g' !! Z.to_nat (line cursor + line d) = page g !! Z.to_nat (line cursor).
Proof.
  intros Hok Hnh Hcur cut. destruct (grid_split g Hok) as (U & Hv & HA & HH & HU).
  pose proof Hok as [Hr Hl Hu]. unfold shrinkLines. zbool. fold cut.
  set (p := lines (_pageSize g)) in *.
  assert (Hcut : 0 <= cut <= p - newHeight /\ cut <= p - line cursor - 1) by lia.
  set (g1 := with_used (with_page_lines g (p - cut)) (_linesUsed g - cut)).
  assert (E1 : (if cut =? 0 then Some g else if line cursor <? lines (_pageSize g1) then Some g1 else None)
               = Some g1).
  { destruct (Z.eqb_spec cut 0) as [E|]; [|simpl; by zbool].
    unfold g1, with_used, with_page_lines, with_page, p. simpl. rewrite E, !Z.sub_0_r. by destruct g as [[] ? ? ? ?]. }
  rewrite E1. cbn [mbind option_bind].
  assert (Hlp : lines (_pageSize g1) = p - cut) by done. rewrite Hlp. zbool.
  set (A := page g) in *. set (Hs := history g) in *.
  set (push := p - newHeight - cut). assert (Hpush : push = 0 \/ line cursor + 1 = p - cut) by lia.
  set (r := rotate_left (_lines g) push).
  set (g2 := with_page_lines (with_lines g1 r) (p - cut - push)).
  assert (Hg2 : page g2 = take (Z.to_nat newHeight) (drop (Z.to_nat push) A) /\
                history g2 = Hs ++ take (Z.to_nat push) A).
  { apply (grid_of_view g2 _ (drop (Z.to_nat (newHeight + push)) A ++ U)).
    - simpl. unfold r. rewrite view_rotate_left by (done || lia). rewrite Hv.
      rewrite drop_app_le, take_app_le by lia.
      rewrite <- (take_drop (Z.to_nat newHeight) (drop (Z.to_nat push) A)) at 1.
      rewrite drop_drop. rewrite <- !app_assoc. do 3 f_equal. lia.
    - simpl. len. lia.
    - unfold historyLineCount in *. simpl. len. lia. }
  destruct Hg2 as [Hp2 Hh2].
  assert (Hok2 : grid_ok g2) by (split; simpl; [apply rotate_left_ok; [done|lia]|lia|
    change (size r) with (size (_lines g)); lia]).
  exists g2, (mkLoc (- push) 0). split_and!; simpl; try done; try lia.
  - destruct (Z.eqb_spec push 0) as [E|N].
    + unfold g2, r. rewrite E. do 2 f_equal. f_equal. unfold g1, with_page_lines, with_page, with_lines, with_used. simpl.
      f_equal; [f_equal; lia|]. symmetry. apply rotate_left_0; [done|lia].
    + rewrite (proj2 (Z.eqb_eq _ _)) by lia. done.
  - unfold contents. rewrite Hp2, Hh2. fold A Hs.
    rewrite take_app_ge, <- app_assoc by lia. f_equal.
    rewrite take_take_drop. f_equal. lia.
  - rewrite Hp2, lookup_take_lt, lookup_drop by lia. f_equal. lia.
Qed.

(** Pulling [t] lines out of the history back into the page. *)
Lemma pull_history g t U :
  grid_ok g -> in_order g -> 0 <= t <= historyLineCount g ->
  view (_lines g) = page g ++ U ++ history g -> Z.of_nat (length (history g)) = historyLineCount g ->
  let h' := Z.to_nat (historyLineCount g - t) in
  let r := rotate_right (_lines g) t in
  ring_ok r /\ _zero r = historyLineCount g - t /\
  view r = (drop h' (history g) ++ page g ++ U) ++ take h' (history g).
Proof.
  intros Hok Hio Ht Hv HH h' r. pose proof Hok as [Hr Hl Hu]. pose proof (size_view (_lines g)) as Hs.
  rewrite Hv in Hs. revert Hs. len. intros Hs. split_and!.
  - apply rotate_right_ok; [done|lia].
  - unfold r. rewrite rotate_right_zero by (done || lia). unfold in_order in Hio. rewrite Hio. zbool. done.
  - unfold r. rewrite view_rotate_right, Hv by (done || lia). len.
    rewrite (app_assoc (page g)), drop_app_ge, take_app_ge by (len; lia). len.
    rewrite <- !app_assoc. unfold h'. do 2 f_equal; [lia|do 3 f_equal; lia].
Qed.

Lemma back_some (r : ring Line) : ring_ok r -> 0 < size r -> is_Some (back r).
Proof.
  intros Hr Hp. unfold back. zbool. rewrite at_view, Z.mod_small by (done || lia).
  apply lookup_lt_is_Some_2. rewrite view_length. unfold size in *. lia.
Qed.

(** The number of lines [growLines] takes back from the history, and the grid
    after it did. *)
Definition pulled g (newHeight : Z) (cursor : CellLocation) : Z :=
  if line cursor + 1 =? lines (_pageSize g)
  then Z.min (newHeight - lines (_pageSize g)) (historyLineCount g) else 0.

Lemma growLines_pulled g newHeight cursor :
  grid_ok g -> lines (_pageSize g) < newHeight ->
  let t := pulled g newHeight cursor in
  let r := rotate_right (_lines g) t in
  growLines g newHeight cursor =
    (lastLine ← back r;
     let g1 := with_page_lines (with_lines g r) (lines (_pageSize g) + t) in
     let r2 := Nat.iter (Z.to_nat (Z.max 0 (maxHistoryLineCount g1 + newHeight - size r)))
       (fun r => emplace_back r (blank_line (wrappableFlag lastLine) (columns (_pageSize g)) Attrs_init)) r in
     Some (with_used (with_page_lines (with_lines g r2) newHeight)
             (Z.min (_linesUsed g + (newHeight - (lines (_pageSize g) + t))) (size r2)),
           mkLoc t 0)).
Proof.
  intros Hok Hnh t r. unfold growLines, r, t, pulled. zbool.
  destruct (line cursor + 1 =? lines (_pageSize g)).
  - destruct (back _) as [lastLine|]; [|done]. cbn [mbind option_bind].
    unfold with_page_lines, with_page. simpl. by rewrite Zplus_minus.
  - rewrite rotate_right_0 by (destruct Hok; done || lia). rewrite Z.add_0_r.
    destruct (back _) as [lastLine|]; [|done]. cbn [mbind option_bind].
    unfold maxHistoryLineCount, with_page_lines, with_page. simpl. by rewrite Zplus_minus.
Qed.

(** Growing the page of a grid whose history lies in order in the ring
    keeps all lines in use: with the cursor on the bottom line the page first
    takes back lines from the history, then further lines are added below.
    The cursor movement returned keeps the cursor on its line. *)
Lemma growLines_contents g newHeight cursor limit :
  grid_ok g -> in_order g -> _historyLimit g = LimitedTo limit -> historyLineCount g <= limit ->
  lines (_pageSize g) < newHeight -> limit + newHeight < 2 ^ 31 -> size (_lines g) < 2 ^ 31 ->
  0 <= line cursor < lines (_pageSize g) ->
  exists g' d extra, growLines g newHeight cursor = Some (g', d) /\ grid_ok g' /\ in_order g' /\
    lines (_pageSize g') = newHeight /\ columns (_pageSize g') = columns (_pageSize g) /\
    contents g' = contents g ++ extra /\
    Z.of_nat (length extra) = newHeight - lines (_pageSize g) - line d /\
    line d = pulled g newHeight cursor.
Proof.
  intros Hok Hio Hlim Hhist Hnh Hb1 Hb2 Hcur. destruct (grid_split g Hok) as (U & Hv & HA & HH & HU).
  pose proof Hok as [Hr Hl Hu]. rewrite growLines_pulled by done. cbn zeta.
  assert (Ht : 0 <= pulled g newHeight cursor <= historyLineCount g /\
               pulled g newHeight cursor <= newHeight - lines (_pageSize g))
    by (unfold pulled, historyLineCount; destruct (_ =? _); lia).
  set (t := pulled g newHeight cursor) in *. clearbody t.
  destruct (pull_history g t U Hok Hio) as (Hr1 & Hz1 & Hv1); [lia|done|done|].
  set (r := rotate_right (_lines g) t) in *. assert (Hrs : size r = size (_lines g)) by done. clearbody r.
  destruct (back_some r Hr1 ltac:(lia)) as [lastLine ->]. cbn [mbind option_bind].
  unfold maxHistoryLineCount. simpl _historyLimit. rewrite Hlim.
  set (blank := blank_line _ _ _). set (k := Z.to_nat _).
  assert (Hk : Z.of_nat k = Z.max 0 (limit + newHeight - size r)) by lia. clearbody k.
  set (h' := Z.to_nat (historyLineCount g - t)) in *.
  destruct (view_append r blank k (drop h' (history g) ++ page g ++ U) (take h' (history g)) Hr1)
    as (Hr2 & Hs2 & Hz2 & Hv2); [lia|done|rewrite Hz1; len; lia|].
  cbn zeta in *. set (r2 := Nat.iter k _ r) in *. clearbody r2. set (ext := U ++ replicate k blank).
  set (n := Z.to_nat (newHeight - lines (_pageSize g) - t)).
  assert (Hext : (n <= length ext)%nat) by (unfold ext, n; len; unfold historyLineCount in *; lia).
  eexists _, (mkLoc t 0), (take n ext). split; [done|].
  rewrite Z.min_l by (unfold historyLineCount in *; lia). set (g2 := with_used _ _).
  destruct (grid_of_view g2 (drop h' (history g) ++ page g ++ take n ext) (drop n ext) (take h' (history g)))
    as [Hp2 Hh2].
  { simpl. rewrite Hv2. unfold ext. rewrite <- !app_assoc. do 2 f_equal.
    rewrite (app_assoc (take _ _)), take_drop. by rewrite <- app_assoc. }
  { simpl. len. unfold h', n. lia. }
  { unfold historyLineCount in *. simpl. len. unfold h'. lia. }
  split_and!; try done.
  - split; simpl; [done|lia|unfold historyLineCount in *; lia].
  - unfold in_order, historyLineCount in *. simpl. lia.
  - unfold contents. rewrite Hp2, Hh2, (app_assoc (take _ _)), take_drop. by rewrite app_assoc.
  - simpl. unfold n. len. lia.
Qed.

(** Shrinking the columns of a grid that does not reflow moves the cursor:
    the returned column is the old column plus its minimum with the new width,
    twice the column the cursor was in when it still fits. *)
Lemma shrinkColumns_cursor g newColumnCount cursor g' c' :
  _reflowOnResize g = false -> shrinkColumns g newColumnCount cursor = Some (g', c') ->
  line c' = line cursor /\
  column c' = column cursor + Z.min (column cursor) newColumnCount /\
  (0 < column cursor < newColumnCount -> column c' = 2 * column cursor).
Proof.
  intros Hf. unfold shrinkColumns. rewrite Hf. cbn [negb]. intros E.
  apply bind_Some in E as (g1 & _ & [= <- <-]). simpl. split_and!; lia.
Qed.

End Grid.

(** ** Concrete grids *)

#[local] Instance narrow : UnicodeWidth := fun _ => 1.
#[local] Instance per_char : GraphemeSegmenter := fun _ _ => true.
#[local] Existing Instance latin1.

(** A trivial line of three columns with one letter. *)
Definition letter (ch : Z) : Line SimpleCell.t :=
  mkLine LineFlag.None_ (Trivial (mkTrivial 3 Attrs_init Attrs_init 0 1 [ch])).
(** Two page lines over a ring of four; [used] lines are in use. *)
Definition sample (limit : MaxHistoryLineCount) (zero used : Z) : Grid SimpleCell.t :=
  mkGrid (mkPageSize 2 3) false limit
    (mk_ring [letter 0x61; letter 0x62; letter 0x63; letter 0x64] zero) used.
Definition sample_blank : Line SimpleCell.t := blank_line LineFlag.None_ 3 Attrs_init.
Definition full_page : Margin := mkMargin (mkRange 0 1) (mkRange 0 2).

Lemma sample_ok limit zero used : 0 <= zero < 4 -> 2 <= used <= 4 -> grid_ok (sample limit zero used).
Proof. intros. split; unfold ring_ok, size; simpl; lia. Qed.

Lemma sample_uniform limit zero used :
  Forall (fun l => line_size l = 3) (view (_lines (sample limit zero used))).
Proof.
  unfold view. simpl. apply Forall_app. split; [apply Forall_drop|apply Forall_take]; repeat constructor.
Qed.

Lemma sample_uniform_used limit zero used : uniform (sample limit zero used).
Proof.
  unfold uniform, contents, history, page. apply Forall_app.
  split; [apply Forall_drop|apply Forall_take]; apply (sample_uniform limit zero used).
Qed.

Lemma scrollUp_limited_witness :
  exists g' k, scrollUp (sample (LimitedTo 2) 1 3) 2 Attrs_init = Some (g', k) /\
    page g' = [sample_blank; sample_blank] /\ history g' = [letter 0x62; letter 0x63].
Proof.
  destruct (scrollUp_limited (sample (LimitedTo 2) 1 3) 2 Attrs_init 2) as (g' & k & E & _ & _ & _ & _ & Ep & Eh);
    [by apply sample_ok|apply sample_uniform_used|simpl; lia|done|].
  exists g', k. split_and!; [exact E|exact Ep|exact Eh].
Defined.

Lemma shrinkColumns_cursor_witness :
  exists g' c', shrinkColumns (sample (LimitedTo 2) 0 2) 2 (mkLoc 0 1) = Some (g', c') /\ column c' = 2.
Proof.
  destruct (shrinkColumns (sample (LimitedTo 2) 0 2) 2 (mkLoc 0 1)) as [[g' c']|] eqn:E;
    [|vm_compute in E; discriminate].
  destruct (shrinkColumns_cursor (sample (LimitedTo 2) 0 2) 2 (mkLoc 0 1) g' c' eq_refl E) as (_ & _ & Hc).
  exists g', c'. split; [reflexivity|apply Hc; simpl; lia].
Defined.

(** A ring that has wrapped around breaks growing: new lines go to the end
    of the storage instead of below the page, so that on this grid (two page
    lines, a full history of two, zero index 1) the oldest history line shows
    up at the bottom of the page and a blank line in the history. *)
Lemma growLines_out_of_order :
  let g := sample (LimitedTo 2) 1 4 in
  contents g = [letter 0x64; letter 0x61; letter 0x62; letter 0x63] /\
  exists g' d, growLines g 3 (mkLoc 0 0) = Some (g', d) /\
    history g' = [sample_blank; letter 0x61] /\
    page g' = [letter 0x62; letter 0x63; letter 0x64].
Proof. split; [reflexivity|]. do 2 eexists. split; [reflexivity|]. split; reflexivity. Qed.

(** Scrolling down inside column margins moves only the lines next to the
    bottom margin: on five lines the ones in the middle stay, one is doubled
    and the first is lost. *)
Example scrollDown_inside_gap :
  let g := mkGrid (mkPageSize 5 3) false (LimitedTo 0)
             (mk_ring (letter <$> [0x61; 0x62; 0x63; 0x64; 0x65]) 0) 5 in
  let first_cell l := cell_codepoints <$> (default [] (inflatedBuffer l) !! 0%nat) in
  (fun g' => first_cell <$> page g') <$>
    scrollDown g 1 Attrs_init (mkMargin (mkRange 0 4) (mkRange 0 1)) =
  Some [Some []; Some [0x62]; Some [0x63]; Some [0x63]; Some [0x64]].
Proof. vm_compute. reflexivity. Qed.
