(* ===== verification/Reflow.v ===== *)
(** * Column reflow of the grid (Grid::resize of src/vtbackend/Grid.cpp)

    The definitions [growColumns] and [shrinkColumns] are in Grid.v.  Here:
    neither loses, duplicates or reorders text.  Blank cells may appear and
    vanish at line ends; the sequence of all non-blank cells of the lines in
    use, oldest first, is the same before and after. *)
From S2P Require Import Prelude Parser Color Cell Ring Line Grid.

Section Reflow.
Context `{LibUnicode, UnicodeWidth, GraphemeSegmenter} `{CellLaws Cell}.
Abbreviation Line := (Line Cell).
Abbreviation Grid := (Grid Cell).
Implicit Types (g : Grid) (l : Line) (cells : list Cell) (ls : list Line).

(** ** The text of lines *)

Definition nonblank cells : list Cell := filter (fun c => cell_empty c = false) cells.
Definition cells_of l : list Cell := default [] (inflatedBuffer l).
(** The non-blank cells of a sequence of lines. *)
Definition text_of ls : list Cell := mjoin ((fun l => nonblank (cells_of l)) <$> ls).
Definition inflatable l : Prop := is_Some (inflatedBuffer l).
(** An inflatable line of a given width. *)
Definition good (w : Z) l : Prop := inflatable l /\ line_size l = w.
(** All cells of the lines. *)
Definition cell_count ls : nat := length (mjoin (cells_of <$> ls)).

Lemma nonblank_app cs1 cs2 : nonblank (cs1 ++ cs2) = nonblank cs1 ++ nonblank cs2.
Proof. apply filter_app. Qed.

Lemma nonblank_blank cells : Forall (fun c => cell_empty c = true) cells -> nonblank cells = [].
Proof.
  induction 1 as [|c cells Hc Hcs IH]; [done|].
  unfold nonblank. rewrite filter_cons_False by congruence. exact IH.
Qed.

Lemma nonblank_replicate n c : cell_empty c = true -> nonblank (replicate n c) = [].
Proof. intros. by apply nonblank_blank, Forall_replicate. Qed.

Lemma nonblank_trim cells : nonblank (trim_right cells) = nonblank cells.
Proof.
  destruct (trim_right_spec cells) as (b & E & Hb & _).
  rewrite E at 2. by rewrite nonblank_app, (nonblank_blank b), app_nil_r.
Qed.

Lemma nonblank_grow cells n : Z.of_nat (length cells) <= n ->
  nonblank (vector_resize cell_default cells n) = nonblank cells.
Proof.
  intros. unfold vector_resize. rewrite take_ge by lia.
  by rewrite nonblank_app, nonblank_replicate, app_nil_r by apply default_empty.
Qed.

Lemma text_of_app ls1 ls2 : text_of (ls1 ++ ls2) = text_of ls1 ++ text_of ls2.
Proof. unfold text_of. by rewrite fmap_app, join_app. Qed.

Lemma text_of_one l : text_of [l] = nonblank (cells_of l).
Proof. apply app_nil_r. Qed.

Lemma cell_count_app ls1 ls2 : cell_count (ls1 ++ ls2) = (cell_count ls1 + cell_count ls2)%nat.
Proof. unfold cell_count. by rewrite fmap_app, join_app, length_app. Qed.

Lemma cell_count_one l : cell_count [l] = length (cells_of l).
Proof. unfold cell_count. simpl. by rewrite app_nil_r. Qed.

(** The display width of a trivial line only decides how many blanks follow. *)
Lemma inflate_loop_width b w s chs :
  inflate_loop (set_displayWidth b w) s chs = inflate_loop b s chs.
Proof.
  revert s. induction chs as [|ch chs IH]; intros s; [done|]. cbn [inflate_loop].
  assert (E : inflate_byte (set_displayWidth b w) s ch = inflate_byte b s ch).
  { unfold inflate_byte. destruct (from_utf8 _ _) as [[| |v] d]; [done| |];
      unfold inflate_char; simpl; destruct (breakable _ _); try done;
      destruct (last (i_columns s)) as [c|]; try done; simpl;
      match goal with |- context [cell_appendCharacter c ?x] =>
        pose proof (append_no_width c x) as Ha; destruct (cell_appendCharacter c x) as [c' e];
        simpl in Ha; subst e; done end. }
  rewrite E. destruct (inflate_byte b s ch); [|done]. apply IH.
Qed.

Lemma inflate_width b w cells : inflate b = Some cells ->
  exists cells', inflate (set_displayWidth b w) = Some cells' /\ nonblank cells' = nonblank cells /\
    Z.of_nat (length cells') <= Z.max w (Z.of_nat (length cells)).
Proof.
  unfold inflate. rewrite inflate_loop_width. simpl text. intros E.
  apply bind_Some in E as (s & -> & [= <-]). cbn [mbind option_bind].
  eexists. split; [done|]. split.
  - rewrite !nonblank_app, !(nonblank_replicate _ (cell_make (fillAttributes _) 0)) by apply make_empty. done.
  - len. simpl. lia.
Qed.

Lemma blank_line_good f w a : 0 <= w -> good w (blank_line f w a).
Proof. intros. split; [|done]. unfold inflatable, blank_line. simpl. unfold inflate. simpl. eauto. Qed.

Lemma text_of_blanks n f w a : text_of (replicate n (blank_line f w a)) = [].
Proof.
  unfold text_of. rewrite fmap_replicate.
  assert (E : nonblank (cells_of (blank_line f w a)) = []).
  { unfold cells_of, blank_line. simpl. unfold inflate. simpl.
    apply nonblank_replicate, make_empty. }
  rewrite E. by induction n.
Qed.

(** ** Wrapping *)

Lemma addNewWrappedLines_text target w buffer base noWrap :
  1 <= w ->
  exists new, addNewWrappedLines target w buffer base noWrap = Some (target ++ new, Z.of_nat (length new)) /\
    text_of new = nonblank buffer /\ Forall (good w) new /\ (length new <= length buffer)%nat.
Proof.
  intros Hw. destruct (addNewWrappedLines_spec target w buffer base noWrap Hw)
    as (new & E & Hwr & pad & Hc & Hpad).
  exists new. split; [done|].
  assert (Hg : Forall (fun l => good w l /\ cells_of l = line_cells l /\ Z.of_nat (length (line_cells l)) = w) new).
  { apply Forall_lookup. intros j l Hj. destruct (Hwr j l Hj) as (Hs & _ & Hb).
    unfold good, inflatable, cells_of, line_size, inflatedBuffer in *. rewrite Hb in *. simpl. eauto. }
  clear E Hwr. split_and!.
  - transitivity (nonblank (mjoin (line_cells <$> new))).
    + clear Hc. induction Hg as [|l new (_ & El & _) Hg IH]; [done|].
      change (text_of (l :: new)) with (nonblank (cells_of l) ++ text_of new).
      rewrite IH, El, <- nonblank_app. done.
    + by rewrite Hc, nonblank_app, nonblank_replicate, app_nil_r by apply default_empty.
  - eapply Forall_impl; [exact Hg|]. naive_solver.
  - assert (Hl : Z.of_nat (length (mjoin (line_cells <$> new))) = Z.of_nat (length new) * w).
    { clear Hc. induction Hg as [|l new (_ & _ & El) Hg IH]; [done|].
      change (mjoin (line_cells <$> l :: new)) with (line_cells l ++ mjoin (line_cells <$> new)).
      rewrite length_app, length_cons. lia. }
    rewrite Hc in Hl. revert Hl. len. intros Hl. nia.
Qed.

(** ** The lines in use as a sequence *)

Fixpoint foldM {S} (step : S -> Line -> option S) ls (s : S) : option S :=
  match ls with
  | [] => Some s
  | l :: ls => s ← step s l; foldM step ls s
  end.

Lemma fold_lines_foldM {S} (step : S -> Line -> option S) (r : ring Line) ys ls s :
  Forall2 (fun y l => at_ r y = Some l) ys ls -> fold_lines step r ys s = foldM step ls s.
Proof.
  intros Hf. revert s. induction Hf as [|y l ys ls Hy Hf IH]; intros s; [done|].
  simpl. rewrite Hy. cbn [mbind option_bind]. destruct (step s l); [apply IH|done].
Qed.

Lemma used_offsets_contents g : grid_ok g ->
  Forall2 (fun y l => at_ (_lines g) y = Some l) (used_offsets g) (contents g).
Proof.
  intros Hok. destruct (grid_split g Hok) as (U & Hv & HA & HH & HU). pose proof Hok as [Hr Hl Hu].
  pose proof (size_view (_lines g)) as Hs. rewrite Hv in Hs. revert Hs. len. intros Hs.
  unfold used_offsets, contents. apply Forall2_same_length_lookup. split; [len; lia|].
  intros i y l Hy Hi. apply lookup_seqZ in Hy as [-> Hlt].
  rewrite at_view by (done || unfold historyLineCount in *; lia). rewrite Hv.
  destruct (decide (Z.of_nat i < historyLineCount g)).
  - rewrite lookup_app_l in Hi by lia.
    replace ((- historyLineCount g + Z.of_nat i) mod size (_lines g))
      with (size (_lines g) - historyLineCount g + Z.of_nat i)
      by (apply (Z.mod_unique _ _ (-1)); unfold historyLineCount in *; lia).
    rewrite (app_assoc (page g)), lookup_app_r by (len; unfold historyLineCount in *; lia).
    rewrite <- Hi. f_equal. len. unfold historyLineCount in *. lia.
  - rewrite lookup_app_r in Hi by lia. rewrite Z.mod_small by (unfold historyLineCount in *; lia).
    rewrite lookup_app_l by lia. rewrite <- Hi. f_equal. lia.
Qed.

(** A grid built from [used] lines, [page] of them visible, the rest padding. *)
Lemma laid_out g used pad n c :
  0 < lines (_pageSize g) -> Z.of_nat (length used) = n -> lines (_pageSize g) <= n ->
  Z.of_nat (length (used ++ pad)) < 2 ^ 32 ->
  let g' := with_page_columns (with_used
              (with_lines g (rotate_left (ring_of (used ++ pad)) (n - lines (_pageSize g)))) n) c in
  grid_ok g' /\ contents g' = used.
Proof.
  intros Hp Hn Hle Hb g'. revert Hb. len. intros Hb.
  set (r := ring_of (used ++ pad)).
  assert (Hs : size r = Z.of_nat (length used + length pad)) by (unfold size, r; simpl; len; lia).
  assert (Hr : ring_ok r) by (unfold ring_ok; rewrite Hs; simpl; lia).
  split.
  - split; simpl; [fold r; apply rotate_left_ok; [done|lia]|done|].
    change (size (rotate_left ?r _)) with (size r). fold r. lia.
  - set (k := Z.to_nat (n - lines (_pageSize g))).
    destruct (grid_of_view g' (drop k used) pad (take k used)) as [E1 E2].
    + simpl. fold r. rewrite view_rotate_left by (done || lia). unfold r. rewrite view_ring_of. fold k.
      rewrite drop_app_le, take_app_le by lia. by rewrite app_assoc.
    + simpl. len. lia.
    + unfold historyLineCount. simpl. len. lia.
    + unfold contents. rewrite E1, E2. apply take_drop.
Qed.

(** ** Growing the columns *)

(** Lines processed so far, laid out or pending. *)
Definition grow_inv (w : Z) ls (s : grow_state) : Prop :=
  text_of (grownLines s) ++ nonblank (logicalLineBuffer s) = text_of ls /\
  Forall (good w) (grownLines s) /\
  (length (grownLines s) + length (logicalLineBuffer s) <= cell_count ls + length ls)%nat.

Lemma flush_inv w ls s : 1 <= w -> grow_inv w ls s ->
  exists s', flushLogicalLine w s = Some s' /\ grow_inv w ls s' /\ logicalLineBuffer s' = [].
Proof.
  intros Hw (Ht & Hg & Hc). unfold flushLogicalLine.
  destruct (logicalLineBuffer s) as [|c buffer] eqn:Eb; [exists s; unfold grow_inv; by rewrite Eb|].
  destruct (addNewWrappedLines_text (grownLines s) w (c :: buffer) (logicalLineFlags s) true Hw)
    as (new & -> & Htn & Hgn & Hln). cbn [mbind option_bind].
  eexists. split; [done|]. split; [|done]. unfold grow_inv. cbn [grownLines logicalLineBuffer].
  split_and!; [|by apply Forall_app|revert Hc; len; simpl; simpl in Hln; lia].
  rewrite text_of_app, Htn, <- Ht. by rewrite app_nil_r.
Qed.

Lemma grow_line_inv old w ls s l : 1 <= w -> inflatable l -> old <= line_size l -> grow_inv w ls s ->
  exists s', grow_line old w s l = Some s' /\ grow_inv w (ls ++ [l]) s'.
Proof.
  intros Hw [cells Hl] Hs Hinv. unfold grow_line. zbool.
  assert (Hcl : cells_of l = cells) by (unfold cells_of; by rewrite Hl).
  unfold grow_inv. rewrite text_of_app, text_of_one, cell_count_app, cell_count_one, Hcl.
  destruct (wrapped l).
  - destruct Hinv as (Ht & Hg & Hc). unfold trim_blank_right. rewrite Hl. cbn [fmap option_fmap option_map mbind option_bind].
    eexists. split; [done|]. cbn [grownLines logicalLineBuffer]. pose proof (trim_right_length cells).
    split_and!; [|done|len; simpl; lia]. by rewrite nonblank_app, nonblank_trim, app_assoc, Ht.
  - destruct (flush_inv w ls s Hw Hinv) as (s' & -> & (Ht & Hg & Hc) & Eb). cbn [mbind option_bind].
    rewrite Eb in *. rewrite app_nil_r in Ht. unfold inflatedBuffer in Hl. destruct (_buffer l) as [b|cs] eqn:El.
    + destruct (inflate_width b w cells Hl) as (cells' & Ei & Hn & _).
      eexists. split; [done|]. cbn [grownLines logicalLineBuffer]. split_and!.
      * rewrite text_of_app, text_of_one, Ht, app_nil_r. f_equal.
        unfold cells_of, setBuffer, inflatedBuffer. simpl _buffer. cbv iota. by rewrite Ei.
      * apply Forall_app. split; [done|]. apply Forall_singleton. split; [|done].
        unfold inflatable, setBuffer, inflatedBuffer. simpl _buffer. cbv iota. eauto.
      * simpl in *. len. simpl. lia.
    + injection Hl as ->. eexists. split; [done|]. cbn [grownLines logicalLineBuffer app].
      split_and!; [by rewrite Ht|done|simpl in *; len; simpl; lia].
Qed.

Lemma foldM_inv {S} (step : S -> Line -> option S) (Inv : list Line -> S -> Prop) (P : Line -> Prop) :
  (forall ls s l, P l -> Inv ls s -> exists s', step s l = Some s' /\ Inv (ls ++ [l]) s') ->
  forall ls done s, Forall P ls -> Inv done s -> exists s', foldM step ls s = Some s' /\ Inv (done ++ ls) s'.
Proof.
  intros Hstep ls. induction ls as [|l ls IH]; intros done s HP Hi; simpl.
  - exists s. by rewrite app_nil_r.
  - inversion HP as [|? ? HPl HPls]; subst.
    destruct (Hstep done s l HPl Hi) as (s' & -> & Hi'). cbn [mbind option_bind].
    destruct (IH (done ++ [l]) s' HPls Hi') as (s2 & E & Hi2). exists s2.
    by rewrite <- app_assoc in Hi2.
Qed.

Lemma pad_lines_split ls n l : exists k, pad_lines ls n l = ls ++ replicate k l /\
  Z.of_nat (length (pad_lines ls n l)) = Z.max (Z.of_nat (length ls)) n.
Proof. exists (Z.to_nat n - length ls)%nat. split; [done|]. unfold pad_lines. len. lia. Qed.

Lemma laid_out_verifies g ls n k c :
  Z.of_nat (length ls) = Z.max n (lines (_pageSize g) + maxHistoryLineCount g) -> lines (_pageSize g) <= n ->
  verifyState (with_page_columns (with_used (with_lines g (rotate_left (ring_of ls) k)) n) c) = true.
Proof.
  intros Hl Hn. unfold verifyState, totalLineCount, maxHistoryLineCount in *. simpl.
  change (size (rotate_left (ring_of ls) k)) with (Z.of_nat (length ls)). destruct (_historyLimit g); zbool; done.
Qed.

Lemma growColumns_core g w wrapPending :
  grid_ok g -> _reflowOnResize g = true -> columns (_pageSize g) < w -> 0 < w ->
  Forall (fun l => inflatable l /\ columns (_pageSize g) <= line_size l) (contents g) ->
  Z.of_nat (cell_count (contents g)) + 2 * _linesUsed g + Z.max 0 (totalLineCount g) < 2 ^ 32 ->
  exists g' d, growColumns g w wrapPending = Some (g', d) /\ grid_ok g' /\
    columns (_pageSize g') = w /\ text_of (contents g') = text_of (contents g) /\
    Forall (good w) (contents g') /\
    lines (_pageSize g') = lines (_pageSize g) /\ verifyState g' = true /\ _historyLimit g' = _historyLimit g /\
    _reflowOnResize g' = true /\ column d = (if wrapPending then 1 else 0) /\ line d <= 0.
Proof.
  intros Hok Hf Hc Hw HP Hb. destruct (grid_split g Hok) as (U & Hv & HA & HH & HU).
  pose proof Hok as [Hr Hl Hu]. unfold growColumns. rewrite Hf. cbn [negb]. zbool.
  rewrite (fold_lines_foldM _ _ _ (contents g)) by (by apply used_offsets_contents).
  destruct (foldM_inv (grow_line (columns (_pageSize g)) w) (grow_inv w)
    (fun l => inflatable l /\ columns (_pageSize g) <= line_size l)) with (ls := contents g) (done := @nil Line)
    (s := mkGrow (Cell := Cell) [] [] LineFlag.None_) as (s & -> & Hinv).
  { intros ls s l [Hi Hs] Hinv. apply grow_line_inv; [lia|done..]. }
  { done. }
  { split_and!; [done|constructor|simpl; lia]. }
  cbn [mbind option_bind app] in *.
  destruct (flush_inv w (contents g) s) as (s' & -> & (Ht & Hg & Hn) & Eb); [lia|done|].
  cbn [mbind option_bind]. rewrite Eb in Ht, Hn. rewrite app_nil_r in Ht. simpl in Hn.
  set (blank := blank_line (defaultLineFlags g) w Attrs_init).
  destruct (pad_lines_split (grownLines s') (lines (_pageSize g)) blank) as (k1 & E1 & L1).
  set (used := pad_lines (grownLines s') (lines (_pageSize g)) blank) in *.
  destruct (pad_lines_split used (lines (_pageSize g) + maxHistoryLineCount g) blank) as (k2 & E2 & L2).
  rewrite E2 in *. eexists _, _. split; [done|].
  assert (Hct : Z.of_nat (length (contents g)) = _linesUsed g)
    by (unfold contents, historyLineCount in *; len; lia).
  destruct (laid_out g used (replicate k2 blank) (Z.of_nat (length used)) w) as [Hok' Hcont];
    [done|done|lia|unfold totalLineCount in *; lia|].
  split; [exact Hok'|]. split; [done|].
  match goal with |- text_of (contents ?g') = _ /\ _ => change (contents g') with (contents (with_page_columns (with_used
    (with_lines g (rotate_left (ring_of (used ++ replicate k2 blank)) (Z.of_nat (length used) - lines (_pageSize g))))
    (Z.of_nat (length used))) w)) end.
  rewrite Hcont. split; [rewrite E1; unfold blank; by rewrite text_of_app, Ht, text_of_blanks, app_nil_r|].
  split; [rewrite E1; apply Forall_app; split; [done|]; apply Forall_replicate, blank_line_good; lia|].
  split_and!; [done| |done|done|by destruct wrapPending|simpl; lia].
  apply (laid_out_verifies g) with (n := Z.of_nat (length used)); [exact L2|lia].
Qed.

(** C29: Widening the columns of a grid that reflows, whose lines in use are at least as wide as
    the page, while the cells and lines in use count fewer than 2^32, always returns and keeps
    the text: the non-blank cells of history and page are the same sequence before and after,
    and every line in use has the new width. *)
Theorem growColumns_text g w wrapPending :
  grid_ok g -> _reflowOnResize g = true -> columns (_pageSize g) < w -> 0 < w ->
  Forall (fun l => inflatable l /\ columns (_pageSize g) <= line_size l) (contents g) ->
  Z.of_nat (cell_count (contents g)) + 2 * _linesUsed g + Z.max 0 (totalLineCount g) < 2 ^ 32 ->
  exists g' d, growColumns g w wrapPending = Some (g', d) /\ grid_ok g' /\
    columns (_pageSize g') = w /\ text_of (contents g') = text_of (contents g) /\
    Forall (good w) (contents g').
Proof.
  intros Hok Hf Hc Hw HP Hb.
  destruct (growColumns_core g w wrapPending) as (g' & d & E & G1 & G2 & G3 & G4 & _); [done..|]. by exists g', d.
Qed.

(** ** Shrinking the columns *)

Lemma wrappable_set l : wrappable (setWrappable l true) = true.
Proof.
  unfold wrappable, setWrappable, setFlag, Flags.any, Flags.both, Flags.enable, LineFlag.Wrappable.
  simpl. apply negb_true_iff, Z.eqb_neq. intros E. apply (f_equal (fun z => Z.testbit z 0)) in E.
  by rewrite Z.land_spec, Z.lor_spec, orb_true_r in E.
Qed.

(** Reflowing one line; a line that may wrap keeps its text. *)
Lemma reflow_inflated l cells w : _buffer l = Inflated cells -> 0 <= w ->
  exists l' removed, reflow l w = Some (l', removed) /\
    (wrappable l = true -> nonblank (cells_of l') ++ nonblank removed = nonblank cells) /\ inflatable l' /\
    line_size l' = w /\ (length removed <= length cells)%nat.
Proof.
  intros Hb H0w. destruct (reflow_spec l cells w Hb H0w) as (kept & removed & E & Hk & Hlt & Hcut & Hge).
  exists (mkLine (_flags l) (Inflated kept)), removed. split; [done|].
  change (cells_of (mkLine (_flags l) (Inflated kept))) with kept.
  destruct (Z.lt_ge_cases w (Z.of_nat (length cells))) as [Hc|Hc]; [destruct (wrappable l)|].
  - destruct (Hlt Hc eq_refl) as (blanks & -> & Hbl & _). split_and!; [|by eexists|done|len; lia].
    intros _. by rewrite !nonblank_app, (nonblank_blank blanks), app_nil_r.
  - destruct (Hcut Hc eq_refl) as [_ ->]. split_and!; [done|by eexists|done|simpl; lia].
  - destruct (Hge Hc) as [-> ->]. split_and!; [|by eexists|done|simpl; lia].
    intros _. by rewrite nonblank_app, nonblank_replicate, !app_nil_r by apply default_empty.
Qed.

Lemma reflow_text l w : inflatable l -> 0 <= w <= line_size l ->
  exists l' removed, reflow l w = Some (l', removed) /\
    (wrappable l = true -> nonblank (cells_of l') ++ nonblank removed = nonblank (cells_of l)) /\ inflatable l' /\
    w <= line_size l' /\ (length removed <= length (cells_of l))%nat.
Proof.
  intros [cells Hl] Hs. assert (Hcl : cells_of l = cells) by (unfold cells_of; by rewrite Hl).
  rewrite Hcl. unfold inflatedBuffer in Hl. destruct (_buffer l) as [b|cs] eqn:Eb.
  - destruct (Z.compare_spec w (Z.of_nat (length (text b)))) as [E|Hlt|Hgt].
    + exists l, []. split; [unfold reflow; by rewrite Eb, E, Z.compare_refl|].
      split_and!; [by rewrite Hcl, app_nil_r|unfold inflatable, inflatedBuffer; rewrite Eb; eauto|lia|simpl; lia].
    + destruct (reflow_inflated (setBuffer l (Inflated cells)) cells w) as (l' & removed & E & Ht & Hi & Hsz & Hr);
        [done|lia|]. exists l', removed. split_and!; [|done|done|lia|done].
      rewrite <- E. unfold reflow. rewrite Eb, (proj2 (Z.compare_lt_iff _ _) Hlt), Hl. done.
    + destruct (inflate_width b w cells Hl) as (cells' & Ei & Hn & _).
      exists (setBuffer l (Trivial (set_displayWidth b w))), []. split.
      { unfold reflow. by rewrite Eb, (proj2 (Z.compare_gt_iff _ _) Hgt). }
      unfold cells_of, inflatable, inflatedBuffer, setBuffer. simpl _buffer. cbv iota. rewrite Ei.
      split_and!; [simpl; by rewrite app_nil_r|eauto|unfold line_size; simpl; lia|simpl; lia].
  - injection Hl as ->. destruct (reflow_inflated l cells w Eb) as (l' & removed & E & Ht & Hi & Hsz & Hr); [lia|].
    exists l', removed. split_and!; [done|done|done|lia|done].
Qed.

(** The lines done so far; the text is kept if all of them may wrap. *)
Definition all_wrap (ls : list Line) : Prop := Forall (fun l => wrappable l = true) ls.
Definition shrink_inv (w : Z) ls (s : shrink_state) : Prop :=
  (all_wrap ls -> text_of (shrinkedLines s) ++ nonblank (wrappedColumns s) = text_of ls) /\
  Forall (fun l => inflatable l /\ w <= line_size l) (shrinkedLines s) /\
  (length (shrinkedLines s) + length (wrappedColumns s) <= cell_count ls + length ls)%nat /\
  (length ls <= length (shrinkedLines s))%nat.

(** What [shrink_line] does before it reflows the line: the state with the
    carried cells moved into the line or laid out. *)
Definition shrink_pre (w : Z) (s : shrink_state) l : option (shrink_state * Line) :=
  match wrappedColumns s with
  | [] => let l := setWrappable l true in Some (mkShrink (shrinkedLines s) [] (inheritableFlags l), l)
  | carried =>
      if wrapped l && (inheritableFlags l =? previousFlags s) then
        cells ← inflatedBuffer l; Some (s, setBuffer l (Inflated (carried ++ cells)))
      else
        '(target, _) ← addNewWrappedLines (shrinkedLines s) w carried (previousFlags s) false;
        Some (mkShrink target [] (inheritableFlags l), l)
  end.

Lemma shrink_pre_inv w ls s l :
  1 <= w -> inflatable l -> w <= line_size l -> shrink_inv w ls s ->
  exists s' l', shrink_pre w s l = Some (s', l') /\ inflatable l' /\ (wrappable l = true -> wrappable l' = true) /\
    w <= line_size l' /\
    (all_wrap ls -> text_of (shrinkedLines s') ++ nonblank (cells_of l') = text_of (ls ++ [l])) /\
    Forall (fun l => inflatable l /\ w <= line_size l) (shrinkedLines s') /\
    (length (shrinkedLines s') + length (cells_of l') <= cell_count (ls ++ [l]) + length ls)%nat /\
    (length ls <= length (shrinkedLines s'))%nat.
Proof.
  intros Hw [cells Hl] Hs (Ht & Hg & Hc & Hn). unfold shrink_pre.
  assert (Hcl : cells_of l = cells) by (unfold cells_of; by rewrite Hl).
  rewrite text_of_app, text_of_one, cell_count_app, cell_count_one, Hcl.
  destruct (wrappedColumns s) as [|c cs] eqn:Ec; [|destruct (wrapped l && _)].
  - exists (mkShrink (shrinkedLines s) [] (inheritableFlags (setWrappable l true))), (setWrappable l true).
    assert (Hsw : inflatedBuffer (setWrappable l true) = Some cells) by exact Hl.
    unfold cells_of, inflatable. rewrite Hsw. cbn [shrinkedLines default from_option id].
    split_and!; [done|eauto|intros; apply wrappable_set|done| |done|simpl in *; lia|done].
    intros Ha. by rewrite <- Ht, app_nil_r.
  - rewrite Hl. cbn [mbind option_bind].
    exists s, (setBuffer l (Inflated ((c :: cs) ++ cells))).
    change (cells_of (setBuffer l (Inflated ((c :: cs) ++ cells)))) with ((c :: cs) ++ cells).
    split_and!; [done|by eexists|done| | |done|len; simpl in *; lia|done];
      [|intros Ha; by rewrite <- Ht, nonblank_app, app_assoc].
    unfold line_size in *. simpl.
    destruct (_buffer l) as [b|cs'] eqn:Eb; unfold inflatedBuffer in Hl; rewrite Eb in Hl.
    + pose proof Hl as Hl'. unfold inflate in Hl'. apply bind_Some in Hl' as (s0 & _ & [= <-]). len. lia.
    + injection Hl as ->. len. lia.
  - destruct (addNewWrappedLines_text (shrinkedLines s) w (c :: cs) (previousFlags s) false Hw)
      as (new & -> & Htn & Hgn & Hln). cbn [mbind option_bind].
    exists (mkShrink (shrinkedLines s ++ new) [] (inheritableFlags l)), l. cbn [shrinkedLines].
    split_and!; [done|by eexists|done|done|intros Ha; by rewrite <- Ht, text_of_app, Htn, Hcl| |rewrite Hcl; len; simpl in *; lia|len; lia].
    apply Forall_app. split; [done|]. eapply Forall_impl; [exact Hgn|]. intros l0 [? ->]. by split.
Qed.

Lemma shrink_line_inv w ls s l :
  1 <= w -> inflatable l -> w <= line_size l -> shrink_inv w ls s ->
  exists s', shrink_line w s l = Some s' /\ shrink_inv w (ls ++ [l]) s'.
Proof.
  intros Hw Hi Hs Hinv.
  destruct (shrink_pre_inv w ls s l Hw Hi Hs Hinv) as (s' & l' & E & Hi' & Hwr' & Hs' & Ht & Hg & Hc & Hn).
  unfold shrink_line. fold (shrink_pre w s l). rewrite E. cbn [mbind option_bind].
  destruct (reflow_text l' w Hi') as (l2 & removed & -> & Ht2 & Hi2 & Hs2 & Hr2); [lia|].
  cbn [mbind option_bind]. zbool. eexists. split; [done|]. unfold shrink_inv. cbn [shrinkedLines wrappedColumns].
  split_and!.
  - intros [Ha Hl]%Forall_app. rewrite Forall_singleton in Hl. rewrite text_of_app, text_of_one, <- app_assoc, Ht2 by (by apply Hwr'). by apply Ht.
  - apply Forall_app. split; [done|]. by apply Forall_singleton.
  - len. simpl. lia.
  - len. simpl. lia.
Qed.

Lemma shrinkColumns_core g w cursor :
  grid_ok g -> _reflowOnResize g = true -> 0 < w < columns (_pageSize g) ->
  Forall (fun l => inflatable l /\ columns (_pageSize g) <= line_size l) (contents g) ->
  Z.of_nat (cell_count (contents g)) + 2 * _linesUsed g + Z.max 0 (totalLineCount g) < 2 ^ 32 ->
  exists g', shrinkColumns g w cursor = Some (g', cursor) /\ grid_ok g' /\
    columns (_pageSize g') = w /\ (all_wrap (contents g) -> text_of (contents g') = text_of (contents g)) /\
    Forall (fun l => w <= line_size l) (contents g') /\
    lines (_pageSize g') = lines (_pageSize g) /\ verifyState g' = true /\ _historyLimit g' = _historyLimit g.
Proof.
  intros Hok Hf Hw HP Hb. destruct (grid_split g Hok) as (U & Hv & HA & HH & HU).
  pose proof Hok as [Hr Hl Hu]. unfold shrinkColumns. rewrite Hf. cbn [negb].
  assert (Hfr : is_Some (front (_lines g))).
  { unfold front. rewrite at_view, Z.mod_0_l by (done || lia). apply lookup_lt_is_Some_2.
    rewrite view_length. unfold size in *. lia. }
  destruct Hfr as [first ->]. cbn [mbind option_bind].
  rewrite (fold_lines_foldM _ _ _ (contents g)) by (by apply used_offsets_contents).
  destruct (foldM_inv (shrink_line w) (shrink_inv w)
    (fun l => inflatable l /\ columns (_pageSize g) <= line_size l))
    with (ls := contents g) (done := @nil Line) (s := mkShrink (Cell := Cell) [] [] (inheritableFlags first))
    as (s & -> & Ht & Hg & Hn & Hge).
  { intros ls s l (Hi & Hs) Hinv. apply shrink_line_inv; [lia|done|lia|done]. }
  { done. }
  { split_and!; [done|constructor|simpl; lia|simpl; lia]. }
  cbn [mbind option_bind app] in *.
  destruct (addNewWrappedLines_text (shrinkedLines s) w (wrappedColumns s) (previousFlags s) false)
    as (new & -> & Htn & Hgn & Hln); [lia|]. cbn [mbind option_bind].
  assert (Hct : Z.of_nat (length (contents g)) = _linesUsed g)
    by (unfold contents, historyLineCount in *; len; lia).
  set (used := shrinkedLines s ++ new).
  assert (Hus : Z.of_nat (length used) <= Z.of_nat (cell_count (contents g)) + _linesUsed g /\
                lines (_pageSize g) <= Z.of_nat (length used)) by (unfold used; len; lia).
  zbool. set (blank := blank_line LineFlag.None_ w Attrs_init).
  destruct (pad_lines_split used (lines (_pageSize g) + maxHistoryLineCount g) blank) as (k2 & E2 & L2).
  rewrite E2 in *. eexists. split; [done|].
  destruct (laid_out g used (replicate k2 blank) (Z.of_nat (length used)) w) as [Hok' Hcont];
    [done|done|lia|unfold totalLineCount in *; lia|].
  split; [exact Hok'|]. split; [done|]. rewrite Hcont. unfold used. split; [intros Ha; by rewrite text_of_app, Htn, Ht|].
  split; [apply Forall_app; split; (eapply Forall_impl; [eassumption|]); [naive_solver|intros l0 [? ->]; done]|].
  split_and!; [done| |done].
  apply (laid_out_verifies g) with (n := Z.of_nat (length used)); [exact L2|lia].
Qed.

(** C30: Narrowing the columns of a grid that reflows and in which every line in use, of history
    and page, may wrap (has the flag Wrappable, which DECRST 2028 takes away) and is at least as
    wide as the page, while the cells and lines in use count fewer than 2^32, always returns and
    keeps the text: the non-blank cells of history and page are the same sequence before and
    after, and no line in use is narrower than the new width. A line that may not wrap can be
    cut (unwrappable_cut). *)
Theorem shrinkColumns_text g w cursor :
  grid_ok g -> _reflowOnResize g = true -> 0 < w < columns (_pageSize g) ->
  Forall (fun l => inflatable l /\ wrappable l = true /\ columns (_pageSize g) <= line_size l) (contents g) ->
  Z.of_nat (cell_count (contents g)) + 2 * _linesUsed g + Z.max 0 (totalLineCount g) < 2 ^ 32 ->
  exists g', shrinkColumns g w cursor = Some (g', cursor) /\ grid_ok g' /\
    columns (_pageSize g') = w /\ text_of (contents g') = text_of (contents g) /\
    Forall (fun l => w <= line_size l) (contents g').
Proof.
  intros Hok Hf Hw HP Hb.
  destruct (shrinkColumns_core g w cursor) as (g' & E & G1 & G2 & G3 & G4 & _); [done..| |done|].
  { eapply Forall_impl; [exact HP|naive_solver]. }
  exists g'. split_and!; try done. apply G3. eapply Forall_impl; [exact HP|naive_solver].
Qed.

End Reflow.

(** ** Concrete grids *)

#[local] Instance narrow : UnicodeWidth := fun _ => 1.
#[local] Instance per_char : GraphemeSegmenter := fun _ _ => true.
#[local] Existing Instance latin1.

(** "abcd", its continuation "ef", and "xy" on a page of two lines. *)
Definition story : Grid SimpleCell.t :=
  mkGrid (mkPageSize 2 4) true (LimitedTo 2)
    (mk_ring [mkLine LineFlag.Wrappable (Inflated (simple_cells [0x61; 0x62; 0x63; 0x64]));
              mkLine (Z.lor LineFlag.Wrappable LineFlag.Wrapped) (Inflated (simple_cells [0x65; 0x66; 0x20; 0x20]));
              mkLine LineFlag.Wrappable (Trivial (mkTrivial 4 Attrs_init Attrs_init 0 2 [0x78; 0x79]));
              blank_line LineFlag.Wrappable 4 Attrs_init] 1) 3.

Lemma story_ok : grid_ok story.
Proof. split; unfold ring_ok, size; simpl; lia. Qed.

Lemma story_lines :
  Forall (fun l => inflatable l /\ wrappable l = true /\ columns (_pageSize story) <= line_size l) (contents story).
Proof. repeat constructor; simpl; unfold line_size; simpl; try lia; by eexists. Qed.

Lemma growColumns_text_witness :
  exists g' d, growColumns story 6 false = Some (g', d) /\
    text_of (contents g') = simple_cells [0x61; 0x62; 0x63; 0x64; 0x65; 0x66; 0x78; 0x79].
Proof.
  destruct (growColumns_text story 6 false) as (g' & d & E & _ & _ & Ht & _);
    [apply story_ok|done|simpl; lia|lia| |vm_compute; done|].
  - eapply Forall_impl; [apply story_lines|]. naive_solver.
  - exists g', d. split; [exact E|]. rewrite Ht. reflexivity.
Defined.

Lemma shrinkColumns_text_witness :
  exists g', shrinkColumns story 3 (mkLoc 0 0) = Some (g', mkLoc 0 0) /\
    text_of (contents g') = simple_cells [0x61; 0x62; 0x63; 0x64; 0x65; 0x66; 0x78; 0x79].
Proof.
  destruct (shrinkColumns_text story 3 (mkLoc 0 0)) as (g' & E & _ & _ & Ht & _);
    [apply story_ok|done|simpl; lia|apply story_lines|vm_compute; done|].
  exists g'. split; [exact E|]. rewrite Ht. reflexivity.
Defined.

(** A line that may not wrap loses what does not fit when the line above it
    has cells to carry over. *)
Example unwrappable_cut :
  let g := mkGrid (mkPageSize 2 4) true (LimitedTo 2)
    (mk_ring [mkLine LineFlag.Wrappable (Inflated (simple_cells [0x61; 0x62; 0x63; 0x64]));
              mkLine LineFlag.None_ (Inflated (simple_cells [0x65; 0x66; 0x67; 0x68]));
              blank_line LineFlag.Wrappable 4 Attrs_init; blank_line LineFlag.Wrappable 4 Attrs_init] 0) 2 in
  (fun '(g', _) => text_of (contents g')) <$> shrinkColumns g 3 (mkLoc 0 0)
  = Some (simple_cells [0x61; 0x62; 0x63; 0x64; 0x65; 0x66; 0x67]).
Proof. vm_compute. reflexivity. Qed.
