(* ===== verification/Sgr.v ===== *)
(** * Select Graphic Rendition (src/vtbackend/Screen.cpp)

    [applySGR] with its colour parser [parseColor], and the printer of
    graphics attributes, [vtSequenceParameterString], which answers a request
    for the current rendition.  The target of an SGR sequence is an interface
    ([auto& target]): the cursor of a screen, or a cell for DECCARA. *)
From S2P Require Import Prelude Parser Sequence Color Cell.

(** ** Targets *)

Class SgrTarget (T : Type) := {
  setGraphicsRendition : T -> GraphicsRendition -> T;
  setForegroundColor : T -> Color -> T;
  setBackgroundColor : T -> Color -> T;
  setUnderlineColor : T -> Color -> T
}.

(** [Screen::setGraphicsRendition] and its siblings act on the rendition of
    the cursor; a reset clears the colours too. *)
#[export] Instance cursor_target : SgrTarget GraphicsAttributes := {
  setGraphicsRendition a r :=
    if bool_decide (r = Reset) then Attrs_init
    else mkAttrs (foregroundColor a) (backgroundColor a) (underlineColor a)
           (makeCellFlags r (attr_flags a));
  setForegroundColor a c := mkAttrs c (backgroundColor a) (underlineColor a) (attr_flags a);
  setBackgroundColor a c := mkAttrs (foregroundColor a) c (underlineColor a) (attr_flags a);
  setUnderlineColor a c := mkAttrs (foregroundColor a) (backgroundColor a) c (attr_flags a)
}.
#[export] Instance simple_target : SgrTarget SimpleCell.t := {
  setGraphicsRendition := SimpleCell.setGraphicsRendition;
  setForegroundColor := SimpleCell.setForegroundColor;
  setBackgroundColor := SimpleCell.setBackgroundColor;
  setUnderlineColor := SimpleCell.setUnderlineColor
}.
#[export] Instance compact_target : SgrTarget CompactCell.t := {
  setGraphicsRendition := CompactCell.setGraphicsRendition;
  setForegroundColor := CompactCell.setForegroundColor;
  setBackgroundColor := CompactCell.setBackgroundColor;
  setUnderlineColor := CompactCell.setUnderlineColor
}.

(** ** [parseColor] *)

Definition is_byte (v : Z) : bool := v <=? 255.

(** The sub-parameter notations; [None] inside if they do not apply. *)
Definition parseColor_sub (s : Sequence) (i : nat) : option (option (Color * nat)) :=
  let len := subParameterCount (parameters s) i in
  if (1 <=? len)%nat then
    mode ← param s (i + 1);
    match mode with
    | 2 =>
        if ((len =? 4) || (len =? 5))%nat then
          r ← subparam s i (len - 2);
          g ← subparam s i (len - 1);
          b ← subparam s i len;
          if is_byte r && is_byte g && is_byte b
          then Some (Some (Color_RGB (mkRGB (u8 r) (u8 g) (u8 b)), (i + len)%nat))
          else Some None
        else Some None
    | 5 =>
        p ← subparam s i 2;
        if is_byte p then Some (Some (Color_Indexed p, (i + len)%nat)) else Some None
    | _ => Some None
    end
  else Some None.

(** Colours written with plain parameters; the index that is tested against
    255 is the parameter's position, not its value. *)
Definition parseColor_compat (s : Sequence) (i : nat) : option (Color * nat) :=
  let failure i := Some (UndefinedColor, S i) in
  if (i + 1 <? parameterCount s)%nat then
    let i := S i in
    mode ← param s i;
    if mode =? 5 then
      if (i + 1 <? parameterCount s)%nat then
        let i := S i in
        value ← param s i;
        if is_byte (Z.of_nat i) then Some (Color_Indexed (u8 value), i) else failure i
      else failure i
    else if mode =? 2 then
      if (i + 3 <? parameterCount s)%nat then
        r ← param s (i + 1);
        g ← param s (i + 2);
        b ← param s (i + 3);
        let i := (i + 3)%nat in
        if is_byte r && is_byte g && is_byte b
        then Some (Color_RGB (mkRGB (u8 r) (u8 g) (u8 b)), i)
        else failure i
      else failure i
    else failure i
  else failure i.

Definition sgr_parseColor (s : Sequence) (i : nat) : option (Color * nat) :=
  sub ← parseColor_sub s i;
  match sub with
  | Some r => Some r
  | None => parseColor_compat s i
  end.

(** ** [applySGR] *)

Section applySGR.
Context `{SgrTarget T}.
Implicit Types t : T.

Definition underline_style (n : Z) : GraphicsRendition :=
  match n with
  | 0 => NoUnderline
  | 1 => Underline
  | 2 => DoublyUnderlined
  | 3 => CurlyUnderlined
  | 4 => DottedUnderline
  | 5 => DashedUnderline
  | _ => Underline
  end.

(** One round of the loop: the target and the index before its increment. *)
Definition sgr_step (s : Sequence) (i : nat) t : option (T * nat) :=
  let rend r := Some (setGraphicsRendition t r, i) in
  let fg c := Some (setForegroundColor t c, i) in
  let bg c := Some (setBackgroundColor t c, i) in
  v ← param s i;
  match v with
  | 0 => rend Reset
  | 1 => rend Bold
  | 2 => rend Faint
  | 3 => rend Italic
  | 4 =>
      if (subParameterCount (parameters s) i =? 1)%nat then
        n ← subparam s i 1;
        Some (setGraphicsRendition t (underline_style n), S i)
      else rend Underline
  | 5 => rend Blinking
  | 6 => rend RapidBlinking
  | 7 => rend Inverse
  | 8 => rend Hidden
  | 9 => rend CrossedOut
  | 21 => rend DoublyUnderlined
  | 22 => rend Normal
  | 23 => rend NoItalic
  | 24 => rend NoUnderline
  | 25 => rend NoBlinking
  | 27 => rend NoInverse
  | 28 => rend NoHidden
  | 29 => rend NoCrossedOut
  | 30 => fg (Color_Indexed 0)
  | 31 => fg (Color_Indexed 1)
  | 32 => fg (Color_Indexed 2)
  | 33 => fg (Color_Indexed 3)
  | 34 => fg (Color_Indexed 4)
  | 35 => fg (Color_Indexed 5)
  | 36 => fg (Color_Indexed 6)
  | 37 => fg (Color_Indexed 7)
  | 38 => '(c, i) ← sgr_parseColor s i; Some (setForegroundColor t c, i)
  | 39 => fg DefaultColor
  | 40 => bg (Color_Indexed 0)
  | 41 => bg (Color_Indexed 1)
  | 42 => bg (Color_Indexed 2)
  | 43 => bg (Color_Indexed 3)
  | 44 => bg (Color_Indexed 4)
  | 45 => bg (Color_Indexed 5)
  | 46 => bg (Color_Indexed 6)
  | 47 => bg (Color_Indexed 7)
  | 48 => '(c, i) ← sgr_parseColor s i; Some (setBackgroundColor t c, i)
  | 49 => bg DefaultColor
  | 51 => rend Framed
  | 53 => rend Overline
  | 54 => rend NoFramed
  | 55 => rend NoOverline
  | 58 => '(c, i) ← sgr_parseColor s i; Some (setUnderlineColor t c, i)
  | 90 => fg (Color_Bright 0)
  | 91 => fg (Color_Bright 1)
  | 92 => fg (Color_Bright 2)
  | 93 => fg (Color_Bright 3)
  | 94 => fg (Color_Bright 4)
  | 95 => fg (Color_Bright 5)
  | 96 => fg (Color_Bright 6)
  | 97 => fg (Color_Bright 7)
  | 100 => bg (Color_Bright 0)
  | 101 => bg (Color_Bright 1)
  | 102 => bg (Color_Bright 2)
  | 103 => bg (Color_Bright 3)
  | 104 => bg (Color_Bright 4)
  | 105 => bg (Color_Bright 5)
  | 106 => bg (Color_Bright 6)
  | 107 => bg (Color_Bright 7)
  | _ => Some (t, i)
  end.

(** The loop over the parameters; each round moves at least one ahead. *)
Fixpoint sgr_loop (fuel : nat) (s : Sequence) (parameterEnd i : nat) t : option T :=
  if (i <? parameterEnd)%nat then
    match fuel with
    | O => None
    | S fuel =>
        '(t, i) ← sgr_step s i t;
        sgr_loop fuel s parameterEnd (S i) t
    end
  else Some t.

Definition applySGR t (s : Sequence) (parameterStart parameterEnd : nat) : option T :=
  if (parameterStart =? parameterEnd)%nat then Some (setGraphicsRendition t Reset)
  else sgr_loop (parameterEnd - parameterStart) s parameterEnd parameterStart t.

End applySGR.

(** ** [vtSequenceParameterString] *)

Definition sgrSep (output : list Z) : list Z := if decide (output = []) then output else output ++ [0x3B].
Definition sgrAddStr (output value : list Z) : list Z := sgrSep output ++ value.
Definition sgrAdd (output : list Z) (value : Z) : list Z := sgrAddStr output (to_string value).

(** The text of a foreground ([base] 30, [bright] 90) or background colour. *)
Definition sgrAddColor (c : Color) (base bright : Z) (output : list Z) : list Z :=
  if isIndexedColor c then
    if Color_index c <? 8 then sgrAdd output (base + Color_index c)
    else output |> (fun o => sgrAdd o (base + 8)) |> (fun o => sgrAdd o 5) |> (fun o => sgrAdd o (Color_index c))
  else if isDefaultColor c then sgrAdd output (base + 9)
  else if isBrightColor c then sgrAdd output (bright + Color_index c)
  else if isRGBColor c then
    output |> (fun o => sgrAdd o (base + 8)) |> (fun o => sgrAdd o 2) |> (fun o => sgrAdd o (red (Color_rgb c)))
           |> (fun o => sgrAdd o (green (Color_rgb c))) |> (fun o => sgrAdd o (blue (Color_rgb c)))
  else output.

Definition sgrAddUnderlineColor (c : Color) (output : list Z) : list Z :=
  if isRGBColor c then
    output |> (fun o => sgrAdd o 58) |> (fun o => sgrAdd o 2) |> (fun o => sgrAdd o (red (Color_rgb c)))
           |> (fun o => sgrAdd o (green (Color_rgb c))) |> (fun o => sgrAdd o (blue (Color_rgb c)))
  else output.

Definition Masks : list (flags * list Z) :=
  [(CellFlag.Bold, [0x31]); (CellFlag.Faint, [0x32]); (CellFlag.Italic, [0x33]);
   (CellFlag.Underline, [0x34]); (CellFlag.Blinking, [0x35]); (CellFlag.RapidBlinking, [0x36]);
   (CellFlag.Inverse, [0x37]); (CellFlag.Hidden, [0x38]); (CellFlag.CrossedOut, [0x39]);
   (CellFlag.DoublyUnderlined, [0x34; 0x3A; 0x32]); (CellFlag.CurlyUnderlined, [0x34; 0x3A; 0x33]);
   (CellFlag.DottedUnderline, [0x34; 0x3A; 0x34]); (CellFlag.DashedUnderline, [0x34; 0x3A; 0x35]);
   (CellFlag.Framed, [0x35; 0x31]); (CellFlag.Overline, [0x35; 0x33])].

Definition vtSequenceParameterString (sgr : GraphicsAttributes) : list Z :=
  foldl (fun output mask => if Flags.any (Flags.both (attr_flags sgr) mask.1) then sgrAddStr output mask.2 else output)
    ([] |> sgrAddColor (foregroundColor sgr) 30 90
        |> sgrAddColor (backgroundColor sgr) 40 100
        |> sgrAddUnderlineColor (underlineColor sgr))
    Masks.

(** ** What a sequence of renditions and colours means *)

Inductive Ground := Fg | Bg | Ul.
Inductive ColorNotation := Semicolons | Colons | ColonsWithSpace (colorSpace : Z).
Inductive SgrColor :=
| Basic (n : Z) | BrightBasic (n : Z) | DefaultGround
| Palette (colons : bool) (n : Z) | Direct (notation : ColorNotation) (c : RGBColor).
Inductive SgrItem :=
| IRendition (r : GraphicsRendition) | IUnderline (style : Z) | IColor (g : Ground) (c : SgrColor).

(** The single parameter of a rendition; the fancy underlines have none. *)
Definition rendition_code (r : GraphicsRendition) : option Z :=
  match r with
  | Reset => Some 0 | Bold => Some 1 | Faint => Some 2 | Italic => Some 3 | Underline => Some 4
  | Blinking => Some 5 | RapidBlinking => Some 6 | Inverse => Some 7 | Hidden => Some 8
  | CrossedOut => Some 9 | DoublyUnderlined => Some 21 | Normal => Some 22 | NoItalic => Some 23
  | NoUnderline => Some 24 | NoBlinking => Some 25 | NoInverse => Some 27 | NoHidden => Some 28
  | NoCrossedOut => Some 29 | Framed => Some 51 | Overline => Some 53 | NoFramed => Some 54
  | NoOverline => Some 55
  | CurlyUnderlined | DottedUnderline | DashedUnderline => None
  end.

Definition ground_base (g : Ground) : Z := match g with Fg => 30 | Bg => 40 | Ul => 50 end.
Definition bright_base (g : Ground) : Z := match g with Fg => 90 | Bg => 100 | Ul => 0 end.

(** An item as parameters, each with its sub-parameter mark. *)
Definition encode_item (it : SgrItem) : list (bool * Z) :=
  match it with
  | IRendition r => [(false, default 0 (rendition_code r))]
  | IUnderline n => [(false, 4); (true, n)]
  | IColor g (Basic n) => [(false, ground_base g + n)]
  | IColor g (BrightBasic n) => [(false, bright_base g + n)]
  | IColor g DefaultGround => [(false, ground_base g + 9)]
  | IColor g (Palette colons n) => [(false, ground_base g + 8); (colons, 5); (colons, n)]
  | IColor g (Direct nt c) =>
      let '(colons, space) :=
        match nt with
        | Semicolons => (false, []) | Colons => (true, []) | ColonsWithSpace cs => (true, [(true, cs)])
        end in
      (false, ground_base g + 8) :: (colons, 2) :: space ++
        [(colons, red c); (colons, green c); (colons, blue c)]
  end.

Definition item_ok (it : SgrItem) : Prop :=
  match it with
  | IRendition r => is_Some (rendition_code r)
  | IUnderline n => True
  | IColor g (Basic n) | IColor g (BrightBasic n) => g <> Ul /\ 0 <= n < 8
  | IColor g DefaultGround => g <> Ul
  | IColor g (Palette _ n) => byte n
  | IColor g (Direct _ c) => RGB_ok c
  end.

Definition color_value (c : SgrColor) : Color :=
  match c with
  | Basic n | Palette _ n => Color_Indexed n
  | BrightBasic n => Color_Bright n
  | DefaultGround => DefaultColor
  | Direct _ c => Color_RGB c
  end.

Definition apply_item `{SgrTarget T} (t : T) (it : SgrItem) : T :=
  match it with
  | IRendition r => setGraphicsRendition t r
  | IUnderline n => setGraphicsRendition t (underline_style n)
  | IColor Fg c => setForegroundColor t (color_value c)
  | IColor Bg c => setBackgroundColor t (color_value c)
  | IColor Ul c => setUnderlineColor t (color_value c)
  end.

(** The parameters a sequence carries. *)
Record carries (s : Sequence) (l : list (bool * Z)) : Prop := {
  carries_count : parameterCount s = length l;
  carries_max : (length l <= 16)%nat;
  carries_values i : param s i = snd <$> l !! i;
  carries_marks i : isSubParameter (parameters s) i = nth i l.*1 false
}.
(** No sub-parameters at the front. *)
Definition plain_start (l : list (bool * Z)) : Prop := forall p, head l = Some p -> p.1 = false.

Lemma carries_at s pre l i k : carries s (pre ++ l) -> i = (length pre + k)%nat -> param s i = snd <$> l !! k.
Proof. intros Hc ->. rewrite (carries_values _ _ Hc), lookup_app_r by lia. do 2 f_equal. lia. Qed.

Lemma carries_mark s pre l k : carries s (pre ++ l) ->
  isSubParameter (parameters s) (length pre + k) = nth k l.*1 false.
Proof.
  intros Hc. rewrite (carries_marks _ _ Hc), fmap_app, app_nth2; rewrite length_fmap; [|lia].
  f_equal. lia.
Qed.

Lemma skip_marks s pre subs post k fuel :
  carries s (pre ++ subs ++ post) -> Forall (fun p => p.1 = true) subs -> plain_start post ->
  (k <= length subs)%nat -> (length subs - k < fuel)%nat ->
  skipSubParameters fuel (parameters s) (length pre + k) = (length pre + length subs)%nat.
Proof.
  intros Hc Hs Hp. revert k. induction fuel as [|fuel IH]; intros k Hk Hf; [lia|].
  pose proof (carries_max _ _ Hc) as H16. rewrite !length_app in H16.
  simpl. rewrite (carries_mark s pre (subs ++ post) k Hc).
  destruct (decide (k = length subs)) as [->|Hne].
  - assert (Hm : nth (length subs) (subs ++ post).*1 false = false).
    { rewrite fmap_app, app_nth2, length_fmap, Nat.sub_diag by (rewrite length_fmap; lia).
      destruct post as [|p post]; [done|]. simpl. by apply Hp. }
    by rewrite Hm, andb_false_r.
  - assert (Hm : nth k (subs ++ post).*1 false = true).
    { rewrite fmap_app, app_nth1 by (rewrite length_fmap; lia).
      destruct (lookup_lt_is_Some_2 subs k) as [p Hp']; [lia|].
      rewrite (nth_lookup_Some _ _ _ p.1) by (by rewrite list_lookup_fmap, Hp').
      by apply (proj1 (Forall_lookup _ _) Hs k p). }
    rewrite Hm. destruct (Nat.ltb_spec (length pre + k) 16); [|lia].
    simpl. replace (S (length pre + k)) with (length pre + S k)%nat by lia. apply IH; lia.
Qed.

Lemma sub_count s pre v subs post :
  carries s (pre ++ (false, v) :: subs ++ post) -> Forall (fun p => p.1 = true) subs ->
  plain_start post -> subParameterCount (parameters s) (length pre) = length subs.
Proof.
  intros Hc Hs Hp. unfold subParameterCount.
  pose proof (carries_mark s pre _ 0 Hc) as Hm. rewrite Nat.add_0_r in Hm. rewrite Hm. simpl negb. cbv iota.
  pose proof (carries_max _ _ Hc) as H16. rewrite !length_app in H16. simpl in H16. rewrite length_app in H16.
  change ((false, v) :: subs ++ post) with ([(false, v)] ++ subs ++ post) in Hc. rewrite app_assoc in Hc.
  pose proof (skip_marks s _ subs post 0 16 Hc Hs Hp) as Hk. rewrite length_app in Hk. simpl length in Hk.
  replace (length pre + 1 + 0)%nat with (S (length pre)) in Hk by lia. rewrite Hk by lia. lia.
Qed.

(** Reading the parameters of the item at hand. *)
Ltac read_params Hc :=
  unfold subparam;
  repeat match goal with
  | |- context [param _ ?i] =>
      first [rewrite (carries_at _ _ _ i 0 Hc) by lia | rewrite (carries_at _ _ _ i 1 Hc) by lia
            |rewrite (carries_at _ _ _ i 2 Hc) by lia | rewrite (carries_at _ _ _ i 3 Hc) by lia
            |rewrite (carries_at _ _ _ i 4 Hc) by lia | rewrite (carries_at _ _ _ i 5 Hc) by lia];
      cbn [lookup list_lookup fmap option_fmap option_map snd mbind option_bind app]
  end.

Lemma byte_ok v : byte v -> is_byte v = true /\ u8 v = v.
Proof. unfold byte, is_byte, u8. intros Hv. split; [lia|]. apply Z.mod_small. lia. Qed.

Lemma parse_palette s pre g colons n post :
  byte n -> plain_start post -> carries s (pre ++ encode_item (IColor g (Palette colons n)) ++ post) ->
  sgr_parseColor s (length pre) = Some (Color_Indexed n, (length pre + 2)%nat).
Proof.
  intros Hn Hp Hc. destruct (byte_ok n Hn) as [Hb Hu]. unfold sgr_parseColor, parseColor_sub.
  pose proof (carries_max _ _ Hc) as H16. rewrite length_app in H16. simpl in H16.
  destruct colons; simpl encode_item in Hc.
  - rewrite (sub_count s pre _ [(true, 5); (true, n)] post) by (done || by repeat constructor).
    simpl. read_params Hc. by rewrite Hb.
  - rewrite (sub_count s pre _ [] ((false, 5) :: (false, n) :: post)) by (done || by intros ? [= <-]).
    simpl. unfold parseColor_compat. rewrite (carries_count _ _ Hc), length_app. cbn [length app].
    nbool. read_params Hc. simpl Z.eqb. cbv iota. nbool. read_params Hc. rewrite Hu.
    unfold is_byte. zbool. do 2 f_equal. lia.
Qed.

Lemma parse_direct s pre g nt c post :
  RGB_ok c -> plain_start post -> carries s (pre ++ encode_item (IColor g (Direct nt c)) ++ post) ->
  sgr_parseColor s (length pre) =
    Some (Color_RGB c, (length pre + length (encode_item (IColor g (Direct nt c))) - 1)%nat).
Proof.
  intros (Hr & Hg & Hb) Hp Hc. destruct c as [r gr b]. simpl in Hr, Hg, Hb.
  destruct (byte_ok r Hr) as [Hr1 Hr2], (byte_ok gr Hg) as [Hg1 Hg2], (byte_ok b Hb) as [Hb1 Hb2].
  unfold sgr_parseColor, parseColor_sub.
  pose proof (carries_max _ _ Hc) as H16. rewrite length_app in H16.
  destruct nt as [| |cs]; simpl in Hc, H16; cbn [encode_item app length red green blue].
  - rewrite (sub_count s pre _ [] ((false, 2) :: (false, r) :: (false, gr) :: (false, b) :: post))
      by (done || by intros ? [= <-]).
    simpl. unfold parseColor_compat. rewrite (carries_count _ _ Hc), length_app. cbn [length].
    nbool. read_params Hc. simpl Z.eqb. cbv iota. nbool. read_params Hc.
    rewrite Hr1, Hg1, Hb1, Hr2, Hg2, Hb2. cbn [andb]. do 2 f_equal. lia.
  - rewrite (sub_count s pre _ [(true, 2); (true, r); (true, gr); (true, b)] post)
      by (done || by repeat constructor).
    simpl. read_params Hc. rewrite Hr1, Hg1, Hb1, Hr2, Hg2, Hb2. simpl. do 3 f_equal. lia.
  - rewrite (sub_count s pre _ [(true, 2); (true, cs); (true, r); (true, gr); (true, b)] post)
      by (done || by repeat constructor).
    simpl. read_params Hc. rewrite Hr1, Hg1, Hb1, Hr2, Hg2, Hb2. simpl. do 3 f_equal. lia.
Qed.

Lemma basic_cases n : 0 <= n < 8 ->
  n = 0 \/ n = 1 \/ n = 2 \/ n = 3 \/ n = 4 \/ n = 5 \/ n = 6 \/ n = 7.
Proof. lia. Qed.

Section Items.
Context `{SgrTarget T}.
Implicit Types t : T.

Lemma sgr_step_item s pre it post t :
  item_ok it -> plain_start post -> carries s (pre ++ encode_item it ++ post) ->
  sgr_step s (length pre) t = Some (apply_item t it, (length pre + length (encode_item it) - 1)%nat).
Proof.
  intros Hok Hp Hc. unfold sgr_step.
  assert (Hone : (length pre + 1 - 1)%nat = length pre) by lia.
  destruct it as [r|n|g c]; simpl in Hok.
  - destruct Hok as [code E]. simpl in Hc |- *. rewrite E in Hc. simpl in Hc. read_params Hc.
    rewrite Hone. destruct r; simpl in E; simplify_eq; try reflexivity.
    by rewrite (sub_count s pre 4 [] post).
  - simpl in Hc |- *. read_params Hc.
    rewrite (sub_count s pre _ [(true, n)] post) by (done || by repeat constructor).
    simpl. read_params Hc. do 2 f_equal. lia.
  - destruct c as [n|n| |colons n|nt c].
    + destruct Hok as [Hg Hn]. simpl in Hc |- *. read_params Hc. rewrite Hone.
      destruct g; [..|done];
      destruct (basic_cases n Hn) as [->|[->|[->|[->|[->|[->|[->| ->]]]]]]]; reflexivity.
    + destruct Hok as [Hg Hn]. simpl in Hc |- *. read_params Hc. rewrite Hone.
      destruct g; [..|done];
      destruct (basic_cases n Hn) as [->|[->|[->|[->|[->|[->|[->| ->]]]]]]]; reflexivity.
    + simpl in Hc |- *. read_params Hc. rewrite Hone. destruct g; [..|done]; reflexivity.
    + pose proof (parse_palette s pre g colons n post Hok Hp Hc) as E. simpl in Hc. read_params Hc.
      replace (length pre + length (encode_item (IColor g (Palette colons n))) - 1)%nat
        with (length pre + 2)%nat by (simpl; lia).
      destruct g; simpl; rewrite E; reflexivity.
    + pose proof (parse_direct s pre g nt c post Hok Hp Hc) as E.
      assert (Hv : param s (length pre) = Some (ground_base g + 8)).
      { rewrite (carries_at _ _ _ _ 0 Hc) by lia. by destruct nt. }
      rewrite Hv. destruct g; simpl ground_base; simpl Z.add; cbn [mbind option_bind]; rewrite E; reflexivity.
Qed.

Lemma encode_item_start it rest : plain_start (encode_item it ++ rest).
Proof. intros p. destruct it as [| |g [| | |[]|[] ?]]; simpl; by intros [= <-]. Qed.

Lemma items_start its : plain_start (mjoin (encode_item <$> its)).
Proof. destruct its as [|it its]; [done|]. apply encode_item_start. Qed.

Lemma encode_item_length it : (1 <= length (encode_item it))%nat.
Proof. destruct it as [| |g [| | |[]|[] ?]]; simpl; lia. Qed.

Lemma sgr_loop_items s its pre t fuel :
  Forall item_ok its -> carries s (pre ++ mjoin (encode_item <$> its)) ->
  (length (mjoin (encode_item <$> its)) <= fuel)%nat ->
  sgr_loop fuel s (parameterCount s) (length pre) t = Some (foldl apply_item t its).
Proof.
  intros Hok. revert pre t fuel. induction Hok as [|it its Hit Hok IH]; intros pre t fuel Hc Hf.
  - rewrite (carries_count _ _ Hc). simpl. rewrite app_nil_r. destruct fuel; simpl; nbool; done.
  - change (mjoin (encode_item <$> it :: its)) with (encode_item it ++ mjoin (encode_item <$> its)) in *.
    rewrite length_app in Hf. pose proof (encode_item_length it) as Hlen.
    pose proof (carries_count _ _ Hc) as Hn. rewrite !length_app in Hn.
    destruct fuel as [|fuel]; [lia|]. simpl. nbool.
    rewrite (sgr_step_item s pre it _ t Hit (items_start its) Hc). simpl.
    rewrite app_assoc in Hc. specialize (IH _ (apply_item t it) fuel Hc). rewrite length_app in IH.
    replace (S (length pre + length (encode_item it) - 1)) with (length pre + length (encode_item it))%nat by lia.
    apply IH. lia.
Qed.

Lemma applySGR_items s its t :
  its <> [] -> Forall item_ok its -> carries s (mjoin (encode_item <$> its)) ->
  applySGR t s 0 (parameterCount s) = Some (foldl apply_item t its).
Proof.
  intros Hne Hok Hc. unfold applySGR. destruct its as [|it its]; [done|].
  pose proof (carries_count _ _ Hc) as Hn. pose proof (encode_item_length it) as Hlen.
  assert (1 <= parameterCount s)%nat.
  { rewrite Hn. change (mjoin (encode_item <$> it :: its)) with (encode_item it ++ mjoin (encode_item <$> its)).
    rewrite length_app. lia. }
  destruct (Nat.eqb_spec 0 (parameterCount s)); [lia|].
  apply (sgr_loop_items s (it :: its) [] t); [done|done|lia].
Qed.

End Items.

(** ** From a control sequence *)

Definition carried (first : list Z) (more : list (bool * list Z)) : list (bool * Z) :=
  (false, u16 (decimal first)) :: ((fun '(b, ds) => (b, u16 (decimal ds))) <$> more).

Lemma carried_values first more : (carried first more).*2 = params_values first more.
Proof.
  unfold carried, params_values, more_values. simpl. f_equal. rewrite <- list_fmap_compose.
  apply list_fmap_ext. by intros ? [].
Qed.

Lemma carried_marks first more : (carried first more).*1 = false :: more.*1.
Proof.
  unfold carried. simpl. f_equal. rewrite <- list_fmap_compose. apply list_fmap_ext. by intros ? [].
Qed.

Lemma carried_length first more : length (carried first more) = S (length more).
Proof. unfold carried. simpl. by rewrite length_fmap. Qed.

Lemma holds_carries s first more :
  holds_params first more (parameters s) -> (length more < 16)%nat -> carried first more <> [(false, 0)] ->
  carries s (carried first more).
Proof.
  intros (Hn & Hv & Hm) H16 Hne. rewrite <- carried_values in Hn, Hv.
  assert (Hl : length ((carried first more).*2) = S (length more)) by (by rewrite length_fmap, carried_length).
  rewrite bool_decide_false, Hl in Hn.
  2: { intros E. apply Hne. destruct more; [|by rewrite E in Hl]. unfold carried in E |- *. simpl in *. congruence. }
  assert (Hcount : parameterCount s = length (carried first more)) by (by rewrite carried_length).
  split; [done|by rewrite carried_length| |by rewrite carried_marks].
  intros i. unfold param, at_. rewrite Hcount, <- list_lookup_fmap, carried_length.
  destruct (Nat.ltb_spec i (S (length more))).
  - by rewrite <- Hv, lookup_take_lt by (rewrite Hl; lia).
  - symmetry. apply lookup_ge_None_2. by rewrite Hl.
Qed.

Lemma items_of_zero its : Forall item_ok its -> mjoin (encode_item <$> its) = [(false, 0)] ->
  its = [IRendition Reset].
Proof.
  intros Hok E. destruct its as [|it its]; [done|].
  change (mjoin (encode_item <$> it :: its)) with (encode_item it ++ mjoin (encode_item <$> its)) in E.
  inversion_clear Hok as [|? ? Hit _].
  assert (its = []) as ->.
  { destruct its as [|it2 its]; [done|]. apply (f_equal length) in E.
    change (mjoin (encode_item <$> it2 :: its)) with (encode_item it2 ++ mjoin (encode_item <$> its)) in E.
    rewrite !length_app in E. simpl in E.
    pose proof (encode_item_length it). pose proof (encode_item_length it2). lia. }
  rewrite app_nil_r in E. destruct it as [r|n|g c]; simpl in *.
  - destruct Hit as [code Hr]. rewrite Hr in E. simpl in E. simplify_eq. by destruct r.
  - done.
  - destruct c as [n|n| |b n|[] c], g; simpl in *; simplify_eq; destruct_and?; try done; lia.
Qed.

(** Parameters that spell a list of items are applied as these items. *)
Lemma applySGR_spelled (T : Type) (ST : SgrTarget T) (t : T) s first more its :
  holds_params first more (parameters s) -> (length more < 16)%nat ->
  Forall item_ok its -> mjoin (encode_item <$> its) = carried first more ->
  applySGR t s 0 (parameterCount s) = Some (foldl apply_item t its).
Proof.
  intros Hp H16 Hok E.
  destruct (decide (carried first more = [(false, 0)])) as [Ez|Nz].
  - rewrite Ez in E. rewrite (items_of_zero its Hok E).
    destruct Hp as (Hn & _ & _). rewrite <- carried_values, Ez in Hn. simpl in Hn.
    unfold parameterCount. by rewrite Hn.
  - apply applySGR_items; [|done|by rewrite E; apply holds_carries].
    intros ->. by apply (f_equal length) in E; rewrite carried_length in E.
Qed.

(** C31: SGR sequences mean what they say: when the parameters of a dispatched CSI ... m
    sequence spell a list of renditions and colours - in any of the notations with semicolons,
    colons, or colons and a colour space - then applySGR applies exactly these to its target, in
    order; a lone 0 or no parameter at all is the reset. *)
Theorem sgr_sequence_correct (T : Type) (ST : SgrTarget T) (t : T) s first more its :
  is_csi None first more [] 0x6D s -> (length more < 16)%nat ->
  Forall item_ok its -> mjoin (encode_item <$> its) = carried first more ->
  applySGR t s 0 (parameterCount s) = Some (foldl apply_item t its).
Proof. intros (_ & _ & _ & _ & _ & Hp). by apply applySGR_spelled. Qed.

(** ** Printing attributes and reading them back *)

(** The text of a parameter list. *)
Definition render_more (l : list (bool * Z)) : list (bool * list Z) := (fun '(b, v) => (b, to_string v)) <$> l.
Definition render (l : list (bool * Z)) : list Z :=
  match l with [] => [] | (_, v) :: l => params_text (to_string v) (render_more l) end.
Definition params_small (l : list (bool * Z)) : Prop := Forall (fun p => 0 <= p.2 < 2 ^ 16) l.

Lemma render_nonempty p l : 0 <= p.2 < 2 ^ 16 -> render (p :: l) <> [].
Proof.
  intros Hp E. destruct p as [b v]. unfold render, params_text in E. apply app_eq_nil in E as [E _].
  by destruct (to_string_spec v Hp) as (_ & _ & ?).
Qed.

Lemma render_app l v new : params_small l ->
  sgrAddStr (render l) (render ((false, v) :: new)) = render (l ++ (false, v) :: new).
Proof.
  intros Hl. unfold sgrAddStr, sgrSep. destruct l as [|p l]; [done|].
  inversion_clear Hl as [|? ? Hp _]. rewrite decide_False by (by apply render_nonempty).
  destruct p as [b w]. simpl. unfold params_text, render_more.
  rewrite fmap_app, fmap_app, join_app. simpl. by rewrite <- !app_assoc.
Qed.

Lemma render_carried v l : params_small ((false, v) :: l) ->
  digits (to_string v) /\ Forall (fun q => digits q.2) (render_more l) /\
  carried (to_string v) (render_more l) = (false, v) :: l.
Proof.
  intros Hl. inversion_clear Hl as [|? ? Hv Hs]. simpl in Hv.
  destruct (to_string_spec v Hv) as (Hd & He & _). split; [done|]. split.
  - unfold render_more. apply Forall_fmap. eapply Forall_impl; [exact Hs|].
    intros [b w] Hw. by apply to_string_spec.
  - unfold carried, render_more. rewrite He, <- list_fmap_compose. f_equal. clear -Hs.
    induction Hs as [|[b w] l Hw _ IH]; [done|]. rewrite fmap_cons, IH. f_equal. simpl.
    by destruct (to_string_spec w Hw) as (_ & -> & _).
Qed.

(** The items that spell an attribute record. *)
Definition color_items (g : Ground) (c : Color) : list SgrItem :=
  if isIndexedColor c then
    if Color_index c <? 8 then [IColor g (Basic (Color_index c))]
    else [IColor g (Palette false (Color_index c))]
  else if isDefaultColor c then [IColor g DefaultGround]
  else if isBrightColor c then [IColor g (BrightBasic (Color_index c))]
  else if isRGBColor c then [IColor g (Direct Semicolons (Color_rgb c))]
  else [].
Definition underline_items (c : Color) : list SgrItem :=
  if isRGBColor c then [IColor Ul (Direct Semicolons (Color_rgb c))] else [].
Definition mask_items : list (flags * SgrItem) :=
  [(CellFlag.Bold, IRendition Bold); (CellFlag.Faint, IRendition Faint); (CellFlag.Italic, IRendition Italic);
   (CellFlag.Underline, IRendition Underline); (CellFlag.Blinking, IRendition Blinking);
   (CellFlag.RapidBlinking, IRendition RapidBlinking); (CellFlag.Inverse, IRendition Inverse);
   (CellFlag.Hidden, IRendition Hidden); (CellFlag.CrossedOut, IRendition CrossedOut);
   (CellFlag.DoublyUnderlined, IUnderline 2); (CellFlag.CurlyUnderlined, IUnderline 3);
   (CellFlag.DottedUnderline, IUnderline 4); (CellFlag.DashedUnderline, IUnderline 5);
   (CellFlag.Framed, IRendition Framed); (CellFlag.Overline, IRendition Overline)].
Definition flag_items (f : flags) : list SgrItem :=
  (List.filter (fun m => Flags.any (Flags.both f m.1)) mask_items).*2.
Definition attr_items (a : GraphicsAttributes) : list SgrItem :=
  color_items Fg (foregroundColor a) ++ color_items Bg (backgroundColor a) ++
  underline_items (underlineColor a) ++ flag_items (attr_flags a).

Abbreviation spell its := (mjoin (encode_item <$> its)).

Lemma spell_app its1 its2 : spell (its1 ++ its2) = spell its1 ++ spell its2.
Proof. by rewrite fmap_app, join_app. Qed.

Lemma sgrAdd_render l v : params_small l -> sgrAdd (render l) v = render (l ++ [(false, v)]).
Proof. intros Hl. unfold sgrAdd. rewrite <- render_app by done. do 2 f_equal. unfold render, params_text. by rewrite app_nil_r. Qed.

Lemma index_byte c : byte (Color_index c).
Proof. unfold byte, Color_index, u8. apply Z.mod_pos_bound. lia. Qed.

Lemma rgb_bytes c : RGB_ok (Color_rgb c).
Proof.
  unfold RGB_ok, byte, Color_rgb, RGB_of_uint32. simpl. rewrite !land_255.
  split_and!; apply Z.mod_pos_bound; lia.
Qed.

(** Parameter lists whose values fit 16 bits. *)
Ltac small :=
  unfold params_small in *;
  repeat match goal with
  | |- Forall _ (_ ++ _) => apply Forall_app; split
  | |- Forall _ (_ :: _) => apply Forall_cons; split
  | |- Forall _ [] => by apply Forall_nil
  end; try done; simpl; unfold byte in *; lia.
Ltac add_params := repeat rewrite sgrAdd_render by small; rewrite <- ?app_assoc.

Lemma color_items_text g c l : g <> Ul -> params_small l ->
  sgrAddColor c (ground_base g) (bright_base g) (render l) = render (l ++ spell (color_items g c)) /\
  params_small (spell (color_items g c)).
Proof.
  intros Hg Hl. pose proof (index_byte c) as Hi. pose proof (rgb_bytes c) as (Hr & Hgr & Hb).
  unfold sgrAddColor, color_items. destruct (Color_rgb c) as [r gr b]. simpl in Hr, Hgr, Hb.
  assert (Hbase : 0 <= ground_base g <= 40 /\ 0 <= bright_base g <= 100) by (by destruct g).
  unfold byte in *. destruct (isIndexedColor c).
  { destruct (Color_index c <? 8); (split; [by add_params|simpl; small]). }
  destruct (isDefaultColor c); [split; [by add_params|simpl; small]|].
  destruct (isBrightColor c); [split; [by add_params|simpl; small]|].
  destruct (isRGBColor c); [|split; [by rewrite app_nil_r|constructor]].
  split; [by add_params|simpl; small].
Qed.

Lemma underline_items_text c l : params_small l ->
  sgrAddUnderlineColor c (render l) = render (l ++ spell (underline_items c)) /\
  params_small (spell (underline_items c)).
Proof.
  intros Hl. pose proof (rgb_bytes c) as (Hr & Hgr & Hb). unfold byte in *.
  unfold sgrAddUnderlineColor, underline_items. destruct (Color_rgb c) as [r gr b]. simpl in Hr, Hgr, Hb.
  destruct (isRGBColor c); [|split; [by rewrite app_nil_r|constructor]].
  split; [by add_params|simpl; small].
Qed.

Lemma flag_items_text f ms its l : params_small l ->
  Forall2 (fun (m : flags * list Z) (i : flags * SgrItem) => m.1 = i.1 /\ m.2 = render (encode_item i.2) /\
    params_small (encode_item i.2)) ms its ->
  let spelled := spell ((List.filter (fun m => Flags.any (Flags.both f m.1)) its).*2) in
  foldl (fun output mask => if Flags.any (Flags.both f mask.1) then sgrAddStr output mask.2 else output) (render l) ms
    = render (l ++ spelled) /\ params_small spelled.
Proof.
  intros Hl Hm. revert l Hl. induction Hm as [|[f1 txt] [f2 it] ms its (E1 & E2 & Hs) _ IH]; intros l Hl spelled.
  { split; [by rewrite app_nil_r|constructor]. }
  simpl in E1, E2, Hs. subst f2 txt. unfold spelled. simpl. destruct (Flags.any (Flags.both f f1)).
  - assert (Hadd : sgrAddStr (render l) (render (encode_item it)) = render (l ++ encode_item it)).
    { pose proof (encode_item_start it []) as Hp. rewrite app_nil_r in Hp. pose proof (encode_item_length it).
      destruct (encode_item it) as [|[b v] ps]; [simpl in *; lia|].
      pose proof (Hp _ eq_refl) as Hb. simpl in Hb. subst b. by apply render_app. }
    rewrite Hadd. destruct (IH (l ++ encode_item it)) as [-> Hs']; [by apply Forall_app|].
    cbn [fmap list_fmap snd mjoin list_join]. rewrite <- app_assoc. split; [done|]. by apply Forall_app.
  - by apply IH.
Qed.

Lemma attr_items_text a :
  vtSequenceParameterString a = render (spell (attr_items a)) /\ params_small (spell (attr_items a)).
Proof.
  unfold vtSequenceParameterString, attr_items.
  destruct (color_items_text Fg (foregroundColor a) []) as [E1 H1]; [done|constructor|]. cbn [ground_base bright_base render app] in E1. rewrite E1.
  destruct (color_items_text Bg (backgroundColor a) (spell (color_items Fg (foregroundColor a)))) as [E2 H2];
    [done|done|]. cbn [ground_base bright_base] in E2. rewrite E2. rewrite !spell_app.
  set (l := spell (color_items Fg _) ++ spell (color_items Bg _)).
  assert (Hl : params_small l) by (by apply Forall_app).
  destruct (underline_items_text (underlineColor a) l Hl) as [-> H3].
  destruct (flag_items_text (attr_flags a) Masks mask_items (l ++ spell (underline_items (underlineColor a))))
    as [-> H4]; [by apply Forall_app| |].
  { repeat (constructor; [split_and!; [done|reflexivity|simpl; small]|]). constructor. }
  unfold flag_items, l. rewrite <- !app_assoc. split; [done|].
  repeat (apply Forall_app; split); done.
Qed.

(** Attributes the printer can express: no undefined colour, bright colours
    only up to 7, an underline colour only as RGB, and flags that SGR sets (bits
    0 to 15 but [Encircled]). *)
Definition printable_color (c : Color) : Prop :=
  c = DefaultColor \/ (exists n, byte n /\ c = Color_Indexed n) \/
  (exists n, 0 <= n < 8 /\ c = Color_Bright n) \/ (exists k, RGB_ok k /\ c = Color_RGB k).
Definition printable_flags (f : flags) : bool :=
  (Z.ldiff f 0xDFFF =? 0) && sgr_exclusive f.
Record printable_attrs (a : GraphicsAttributes) : Prop := {
  printable_fg : printable_color (foregroundColor a);
  printable_bg : printable_color (backgroundColor a);
  printable_ul : underlineColor a = DefaultColor \/ exists k, RGB_ok k /\ underlineColor a = Color_RGB k;
  printable_fl : printable_flags (attr_flags a) = true /\ 0 <= attr_flags a < 2 ^ 16
}.

Lemma color_type_tests c ty : Color_type c = Some ty ->
  isIndexedColor c = bool_decide (ColorType_value ty = 3) /\ isDefaultColor c = bool_decide (ColorType_value ty = 1) /\
  isBrightColor c = bool_decide (ColorType_value ty = 2) /\ isRGBColor c = bool_decide (ColorType_value ty = 4).
Proof.
  intros E. unfold isIndexedColor, isDefaultColor, isBrightColor, isRGBColor. rewrite E. by destruct ty.
Qed.

Lemma made_color ty n : byte n ->
  Color_type (Color_make ty n) = Some ty /\ Color_index (Color_make ty n) = n.
Proof.
  intros Hn. destruct (color_roundtrip ty n RGB_default Hn) as (E1 & E2 & _); [|done].
  unfold RGB_ok, byte. simpl. lia.
Qed.

Lemma color_items_spec g c : g <> Ul -> printable_color c ->
  exists k, color_items g c = [IColor g k] /\ item_ok (IColor g k) /\ color_value k = c.
Proof.
  intros Hg Hc. destruct Hc as [->|[(n & Hn & ->)|[(n & Hn & ->)|(k & Hk & ->)]]].
  - by exists DefaultGround.
  - destruct (made_color Indexed n Hn) as [E1 E2].
    destruct (color_type_tests _ _ E1) as (T1 & _). unfold color_items, Color_Indexed in *. rewrite T1, E2.
    simpl. destruct (Z.ltb_spec n 8); eexists; (split; [reflexivity|]); unfold byte in *; simpl; [|done].
    split; [|done]. split; [done|lia].
  - destruct (made_color Bright n) as [E1 E2]; [unfold byte; lia|].
    destruct (color_type_tests _ _ E1) as (T1 & T2 & T3 & _). unfold color_items, Color_Bright in *.
    rewrite T1, T2, T3, E2. by exists (BrightBasic n).
  - destruct (color_roundtrip RGB 0 k) as (_ & _ & E1 & E2 & _); [unfold byte; lia|done|].
    destruct (color_type_tests _ _ E1) as (T1 & T2 & T3 & T4). unfold color_items.
    rewrite T1, T2, T3, T4, E2. by exists (Direct Semicolons k).
Qed.

Lemma underline_items_spec c :
  c = DefaultColor \/ (exists k, RGB_ok k /\ c = Color_RGB k) ->
  Forall item_ok (underline_items c) /\
  forall a, underlineColor a = DefaultColor ->
    foldl apply_item a (underline_items c) = mkAttrs (foregroundColor a) (backgroundColor a) c (attr_flags a).
Proof.
  intros [->|(k & Hk & ->)].
  - split; [constructor|]. intros [] E. simpl in *. by rewrite E.
  - destruct (color_roundtrip RGB 0 k) as (_ & _ & E1 & E2 & _); [unfold byte; lia|done|].
    destruct (color_type_tests _ _ E1) as (_ & _ & _ & T4). unfold underline_items. rewrite T4, E2.
    simpl. split; [by apply Forall_singleton|]. by intros [].
Qed.

(** The renditions of the flag items, and what they do to the flags. *)
Definition item_rendition (it : SgrItem) : GraphicsRendition :=
  match it with IRendition r => r | IUnderline n => underline_style n | IColor _ _ => Normal end.
Definition flags_after (f : flags) : flags :=
  foldl (fun acc it => makeCellFlags (item_rendition it) acc) 0 (flag_items f).

(** All words of [n] bits. *)
Fixpoint words (n : nat) : list Z :=
  match n with
  | O => [0]
  | S n => ((fun z => 2 * z) <$> words n) ++ ((fun z => 2 * z + 1) <$> words n)
  end.

Lemma words_complete n z : 0 <= z < 2 ^ Z.of_nat n -> z ∈ words n.
Proof.
  revert z. induction n as [|n IH]; intros z Hz; simpl words.
  - apply list_elem_of_singleton. simpl in Hz. lia.
  - rewrite Nat2Z.inj_succ, Z.pow_succ_r in Hz by lia. apply elem_of_app.
    destruct (Z.Even_or_Odd z) as [[k ->]|[k ->]]; [left|right]; apply list_elem_of_fmap; exists k;
      (split; [done|apply IH; lia]).
Qed.

Lemma flags_checked :
  forallb (fun f => if Z.ldiff f 0xDFFF =? 0 then if sgr_exclusive f then flags_after f =? f else true else true)
    (words 16) = true.
Proof. vm_compute. reflexivity. Qed.

Lemma flags_read_back f : printable_flags f = true -> 0 <= f < 2 ^ 16 -> flags_after f = f.
Proof.
  intros Hp Hf. assert (Hin : In f (words 16)) by (by apply list_elem_of_In, words_complete).
  pose proof (proj1 (forallb_forall _ _) flags_checked f Hin) as Hc. cbv beta in Hc.
  apply andb_true_iff in Hp as [Hp1 Hp2]. rewrite Hp1, Hp2 in Hc. by apply Z.eqb_eq.
Qed.

Lemma apply_flag_items its a : Forall (fun it => exists m, (m, it) ∈ mask_items) its ->
  foldl apply_item a its = mkAttrs (foregroundColor a) (backgroundColor a) (underlineColor a)
    (foldl (fun acc it => makeCellFlags (item_rendition it) acc) (attr_flags a) its).
Proof.
  intros Hits. revert a. induction Hits as [|it its [m Hm] _ IH]; intros a; [by destruct a|].
  cbn [foldl]. rewrite IH.
  assert (Ha : apply_item a it = mkAttrs (foregroundColor a) (backgroundColor a) (underlineColor a)
    (makeCellFlags (item_rendition it) (attr_flags a))); [|by rewrite Ha].
  unfold mask_items in Hm. repeat (apply elem_of_cons in Hm as [[= -> ->]|Hm]; [reflexivity|]).
  by apply elem_of_nil in Hm.
Qed.

Lemma flag_items_masks f : Forall (fun it => exists m, (m, it) ∈ mask_items) (flag_items f) /\
  Forall item_ok (flag_items f).
Proof.
  assert (Hin : forall it, it ∈ flag_items f -> exists m, (m, it) ∈ mask_items).
  { intros it Hit. unfold flag_items in Hit. apply list_elem_of_fmap in Hit as ([m it'] & -> & Hm).
    apply list_elem_of_In, filter_In in Hm as [Hm _]. exists m. by apply list_elem_of_In. }
  split; apply Forall_forall; [done|]. intros it Hit. destruct (Hin it Hit) as [m Hm].
  unfold mask_items in Hm. repeat (apply elem_of_cons in Hm as [[= -> ->]|Hm]; [simpl; eauto|]).
  by apply elem_of_nil in Hm.
Qed.

Lemma attr_items_spec a : printable_attrs a ->
  Forall item_ok (attr_items a) /\ foldl apply_item Attrs_init (attr_items a) = a.
Proof.
  intros [Hf Hb Hu [Hfl Hr]]. unfold attr_items.
  destruct (color_items_spec Fg _ ltac:(done) Hf) as (k1 & -> & Hk1 & E1).
  destruct (color_items_spec Bg _ ltac:(done) Hb) as (k2 & -> & Hk2 & E2).
  destruct (underline_items_spec _ Hu) as [Hok3 E3].
  destruct (flag_items_masks (attr_flags a)) as [Hm4 Hok4]. split.
  { apply Forall_app; split; [by apply Forall_singleton|]. apply Forall_app; split; [by apply Forall_singleton|].
    by apply Forall_app. }
  rewrite !foldl_app. cbn [foldl apply_item]. rewrite E3 by done.
  rewrite apply_flag_items by done. simpl. rewrite E1, E2.
  pose proof (flags_read_back _ Hfl Hr) as E4. unfold flags_after in E4. rewrite E4. by destruct a.
Qed.

Lemma spell_start its : its <> [] -> exists v l, spell its = (false, v) :: l.
Proof.
  destruct its as [|it its]; [done|]. intros _.
  change (spell (it :: its)) with (encode_item it ++ spell its).
  destruct it as [| |g [| | |[]|[] ?]]; by do 2 eexists.
Qed.

(** Printing and reading graphics attributes is the identity: the text that
    [vtSequenceParameterString] prints for attributes SGR can express (colours
    in any of the four kinds, underline colour, exclusive flags) is a
    parameter string, and when a [CSI ... m] sequence with these parameters is
    applied to a default cursor, the cursor has these attributes again. *)
Lemma sgr_print_read a : printable_attrs a ->
  exists first more, vtSequenceParameterString a = params_text first more /\
    digits first /\ Forall (fun q => digits q.2) more /\
    forall s, is_csi None first more [] 0x6D s -> (length more < 16)%nat ->
      applySGR Attrs_init s 0 (parameterCount s) = Some a.
Proof.
  intros Ha. destruct (attr_items_spec a Ha) as [Hok Hfold].
  destruct (attr_items_text a) as [Htext Hsmall].
  destruct (color_items_spec Fg _ ltac:(done) (printable_fg a Ha)) as (k & Ek & _).
  assert (Hne : exists its, attr_items a = IColor Fg k :: its) by (unfold attr_items; rewrite Ek; by eexists).
  destruct (spell_start (attr_items a)) as (v & l & El); [by destruct Hne as [? ->]|]. rewrite El in Hsmall.
  destruct (render_carried v l Hsmall) as (Hd1 & Hd2 & Hc).
  exists (to_string v), (render_more l). rewrite Htext, El. split_and!; [done..|].
  intros s Hs H16. rewrite <- Hfold. destruct Hs as (_ & _ & _ & _ & _ & Hp).
  apply applySGR_items; [by destruct Hne as [? ->]|done|].
  rewrite El, <- Hc. apply holds_carries; [done|done|].
  rewrite Hc, <- El. intros Ez. pose proof (items_of_zero _ Hok Ez) as Er.
  destruct Hne as [its Hne]. by rewrite Hne in Er.
Qed.

(** ** Concrete sequences *)

(** 1;38:5:200 *)
Definition bold_orange : Sequence :=
  mkSequence CSI 0 (mkSequenceParameters ([1; 38; 5; 200] ++ replicate 12 0) 12 4) [] 0x6D [].

Lemma bold_orange_csi first more : first = [0x31] ->
  more = [(false, [0x33; 0x38]); (true, [0x35]); (true, [0x32; 0x30; 0x30])] ->
  is_csi None first more [] 0x6D bold_orange.
Proof.
  intros -> ->. split_and!; try done. split_and!; [done|done|].
  intros i. destruct (decide (i < 4)%nat) as [Hi|Hi].
  - destruct i as [|[|[|[|i]]]]; [reflexivity..|lia].
  - rewrite isSubParameter_testbit, nth_overflow by (simpl; lia).
    apply Z.bits_above_log2; [done|]. simpl. lia.
Qed.

Lemma sgr_sequence_correct_witness :
  applySGR Attrs_init bold_orange 0 4 =
    Some (mkAttrs (Color_Indexed 200) DefaultColor DefaultColor CellFlag.Bold).
Proof.
  apply (sgr_sequence_correct GraphicsAttributes cursor_target Attrs_init bold_orange [0x31]
    [(false, [0x33; 0x38]); (true, [0x35]); (true, [0x32; 0x30; 0x30])]
    [IRendition Bold; IColor Fg (Palette true 200)]).
  - by apply bold_orange_csi.
  - simpl. lia.
  - repeat constructor; simpl; eauto; unfold byte; lia.
  - reflexivity.
Defined.

Definition fancy : GraphicsAttributes :=
  mkAttrs (Color_Indexed 3) (Color_Bright 7) (Color_RGB (mkRGB 255 0 128))
    (Z.lor CellFlag.Italic CellFlag.CurlyUnderlined).
