(* ===== verification/VTWriter.v ===== *)
(** * Serializing lines (src/vtbackend/VTWriter.h, VTWriter.cpp, the text of a
      line of Line.cpp, and [Screen::screenshot])

    The writer collects SGR parameters and flushes them before text.  Its
    output is the list of strings its callback is called with.  UTF-8
    encoding is libunicode's, and a parameter. *)
From S2P Require Import Prelude Parser Sequence Color Cell Ring Line Grid Sgr.

(** [unicode::encoder<char>], a code point at a time. *)
Class Utf8Encoder := encode_utf8 : Z -> list Z.

(** The colours of a cell. *)
Class CellColors (C : Type) := {
  cell_foregroundColor : C -> Color;
  cell_backgroundColor : C -> Color
}.
#[export] Instance simple_colors : CellColors SimpleCell.t := {
  cell_foregroundColor c := foregroundColor (SimpleCell._graphicsAttributes c);
  cell_backgroundColor c := backgroundColor (SimpleCell._graphicsAttributes c)
}.
#[export] Instance compact_colors : CellColors CompactCell.t := {
  cell_foregroundColor := CompactCell._foregroundColor;
  cell_backgroundColor := CompactCell._backgroundColor
}.

(** ** The writer *)

Record VTWriter := mk_writer {
  _writer : list (list Z);
  _sgr : list Z;
  _lastSGR : list Z;
  _currentForegroundColor : Color;
  _currentBackgroundColor : Color;
  _currentUnderlineColor : Color
}.
Definition VTWriter_init : VTWriter := mk_writer [] [] [] DefaultColor DefaultColor DefaultColor.
Definition MaxParameterCount : nat := 16.

Definition emit (data : list Z) (w : VTWriter) : VTWriter :=
  mk_writer (_writer w ++ [data]) (_sgr w) (_lastSGR w)
    (_currentForegroundColor w) (_currentBackgroundColor w) (_currentUnderlineColor w).
Definition with_sgr (sgr last : list Z) (w : VTWriter) : VTWriter :=
  mk_writer (_writer w) sgr last (_currentForegroundColor w) (_currentBackgroundColor w) (_currentUnderlineColor w).
Definition reset_colors (w : VTWriter) : VTWriter :=
  mk_writer (_writer w) (_sgr w) (_lastSGR w) DefaultColor DefaultColor DefaultColor.

(** [sgrFlush(sgr)]: the control sequence. *)
Definition join_parameter (a : list Z) (b : Z) : list Z :=
  if decide (a = []) then to_string b else a ++ [0x3B] ++ to_string b.
Definition sgr_sequence (sgr : list Z) : list Z :=
  if decide (sgr = []) then []
  else
    let params := if decide (sgr = [0]) then [] else foldl join_parameter [] sgr in
    [0x1B; 0x5B] ++ params ++ [0x6D].

Definition sgrRewind (w : VTWriter) : VTWriter := with_sgr [] (_sgr w) w.

Definition sgrFlush (w : VTWriter) : VTWriter :=
  if decide (_sgr w = []) then w
  else sgrRewind (if decide (_sgr w = _lastSGR w) then w else emit (sgr_sequence (_sgr w)) w).

Definition push_sgr (n : Z) (w : VTWriter) : VTWriter := with_sgr (_sgr w ++ [n]) (_lastSGR w) w.

Definition sgrAddExplicit (n : Z) (w : VTWriter) : VTWriter :=
  push_sgr n (if n =? 0 then reset_colors w else w).

Definition sgrAdd (n : Z) (w : VTWriter) : VTWriter :=
  if n =? 0 then reset_colors (with_sgr [0] (_lastSGR w) w)
  else
    let w := if decide (last (_sgr w) = Some n) then w else push_sgr n w in
    if (length (_sgr w) =? MaxParameterCount)%nat then sgrFlush w else w.

(** [sgrAdd(n, values...)]. *)
Definition sgrAdd_values (n : Z) (values : list Z) (w : VTWriter) : VTWriter :=
  let w := if (MaxParameterCount <? length (_sgr w) + length values)%nat then sgrFlush w else w in
  foldl (fun w v => sgrAddExplicit v w) (sgrAddExplicit n w) values.

Definition write_string (s : list Z) (w : VTWriter) : VTWriter := emit s (sgrFlush w).
Definition crlf (w : VTWriter) : VTWriter := write_string [0x0D; 0x0A] w.

(** Colours.  [getBrightColor] is the index. *)
Definition setForegroundColor (color : Color) (w : VTWriter) : VTWriter :=
  let w := mk_writer (_writer w) (_sgr w) (_lastSGR w) color (_currentBackgroundColor w) (_currentUnderlineColor w) in
  match Color_type color with
  | Some Default => sgrAdd 39 w
  | Some Indexed =>
      if Color_index color <? 8 then sgrAdd (30 + Color_index color) w
      else sgrAdd_values 38 [5; Color_index color] w
  | Some Bright => sgrAdd (90 + Color_index color) w
  | Some RGB =>
      let c := Color_rgb color in sgrAdd_values 38 [2; red c; green c; blue c] w
  | Some Undefined | None => w
  end.

Definition setBackgroundColor (color : Color) (w : VTWriter) : VTWriter :=
  let w := mk_writer (_writer w) (_sgr w) (_lastSGR w) (_currentForegroundColor w) color (_currentUnderlineColor w) in
  match Color_type color with
  | Some Default => sgrAdd 49 w
  | Some Indexed =>
      if Color_index color <? 8 then sgrAdd (40 + Color_index color) w
      else w |> sgrAdd 48 |> sgrAdd 5 |> sgrAdd (Color_index color)
  | Some Bright => sgrAdd (100 + Color_index color) w
  | Some RGB =>
      let c := Color_rgb color in
      w |> sgrAdd 48 |> sgrAdd 2 |> sgrAdd (red c) |> sgrAdd (green c) |> sgrAdd (blue c)
  | Some Undefined | None => w
  end.

(** The values of the enumerators. *)
Definition GraphicsRendition_value (r : GraphicsRendition) : Z :=
  match r with
  | Reset => 0 | Bold => 1 | Faint => 2 | Italic => 3 | Underline => 4 | Blinking => 5 | RapidBlinking => 6
  | Inverse => 7 | Hidden => 8 | CrossedOut => 9 | DoublyUnderlined => 21 | Normal => 22 | NoItalic => 23
  | NoUnderline => 24 | NoBlinking => 25 | NoInverse => 27 | NoHidden => 28 | NoCrossedOut => 29
  | CurlyUnderlined => 30 | DottedUnderline => 31 | DashedUnderline => 32 | Framed => 51 | Overline => 53
  | NoFramed => 54 | NoOverline => 55
  end.
Definition sgrAdd_rendition (m : GraphicsRendition) (w : VTWriter) : VTWriter :=
  sgrAdd (GraphicsRendition_value m) w.

Section Writing.
Context `{Utf8Encoder} `{CellConcept Cell} `{CellColors Cell}.
Abbreviation Line := (Line Cell).
Abbreviation Grid := (Grid Cell).

(** [write(char32_t)]. *)
Definition write_char (v : Z) (w : VTWriter) : VTWriter := write_string (encode_utf8 v) (sgrFlush w).

(** [Cell::toUtf8] *)
Definition cell_toUtf8 (c : Cell) : list Z := mjoin (encode_utf8 <$> cell_codepoints c).

(** [Line::toUtf8] *)
Definition line_toUtf8 (l : Line) : list Z :=
  match _buffer l with
  | Trivial b => text b ++ replicate (Z.to_nat (displayWidth b - usedColumns b)) 0x20
  | Inflated cells =>
      mjoin ((fun c => if (length (cell_codepoints c) =? 0)%nat then [0x20] else cell_toUtf8 c) <$> cells)
  end.

(** [isspace] in the C locale. *)
Definition isspace (b : Z) : bool := (b =? 0x20) || ((0x09 <=? b) && (b <=? 0x0D)).
Fixpoint drop_spaces (s : list Z) : list Z :=
  match s with
  | [] => []
  | b :: s' => if isspace b then drop_spaces s' else s
  end.
(** [Line::toUtf8Trimmed] *)
Definition line_toUtf8Trimmed (stripLeadingSpaces stripTrailingSpaces : bool) (l : Line) : list Z :=
  let output := line_toUtf8 l in
  let output := if stripTrailingSpaces then reverse (drop_spaces (reverse output)) else output in
  if stripLeadingSpaces then drop_spaces output else output.


Definition write_cell (w : VTWriter) (c : Cell) : VTWriter :=
  let w := sgrAdd_rendition (if Flags.any (Flags.both (cell_flags c) CellFlag.Bold) then Bold else Normal) w in
  let w := w |> setForegroundColor (cell_foregroundColor c) |> setBackgroundColor (cell_backgroundColor c) in
  if (length (cell_codepoints c) =? 0)%nat then write_char 0x20 w else write_string (cell_toUtf8 c) w.

(** [write(Line<Cell> const&)]. *)
Definition write_line (l : Line) (w : VTWriter) : VTWriter :=
  sgrAdd_rendition Reset
    (match _buffer l with
     | Trivial b =>
         w |> setForegroundColor (foregroundColor (textAttributes b))
           |> setBackgroundColor (backgroundColor (textAttributes b))
           |> write_string (line_toUtf8 l)
     | Inflated cells => foldl write_cell w cells
     end).

(** [Screen::screenshot]: what the stream holds; [postLine] may be empty. *)
Definition screenshot_line (postLine : option (Z -> list Z)) (g : Grid) (w : VTWriter) (i : Z) : option VTWriter :=
  l ← lineAt g i;
  let w := write_line l w in
  let w := match postLine with Some f => write_string (f i) w | None => w end in
  Some (crlf w).
Definition screenshot (postLine : option (Z -> list Z)) (g : Grid) : option (list Z) :=
  w ← foldl (fun w i => w ← w; screenshot_line postLine g w i) (Some VTWriter_init) (seqZ 0 (lines (_pageSize g)));
  Some (mjoin (_writer w)).

End Writing.

(** ** What the written stream means

    The stream is read as control sequences, applied to the attributes in
    force, and text, which is recorded with them. *)

Inductive chunk := SgrChunk (sgr : list Z) | TextChunk (s : list Z).
Definition chunk_bytes (c : chunk) : list Z :=
  match c with SgrChunk sgr => sgr_sequence sgr | TextChunk s => s end.

(** A control sequence takes the attributes [a] to [a'], for every sequence
    the sequence builder can make of its text. *)
Definition sgr_means (sgr : list Z) (a a' : GraphicsAttributes) : Prop :=
  exists first more, sgr_sequence sgr = [0x1B; 0x5B] ++ params_text first more ++ [0x6D] /\
    digits first /\ Forall (fun q => digits q.2) more /\ (length more < 16)%nat /\
    forall s, is_csi None first more [] 0x6D s -> applySGR a s 0 (parameterCount s) = Some a'.

Inductive reads : GraphicsAttributes -> list chunk -> list (GraphicsAttributes * list Z) -> GraphicsAttributes -> Prop :=
  | reads_nil a : reads a [] [] a
  | reads_sgr a a' sgr cs r b : sgr_means sgr a a' -> reads a' cs r b -> reads a (SgrChunk sgr :: cs) r b
  | reads_text a s cs r b : reads a cs r b -> reads a (TextChunk s :: cs) ((a, s) :: r) b.

Lemma reads_app a cs1 r1 b cs2 r2 c : reads a cs1 r1 b -> reads b cs2 r2 c -> reads a (cs1 ++ cs2) (r1 ++ r2) c.
Proof. induction 1; intros R; [exact R|econstructor; eauto|cbn; constructor; auto]. Qed.

(** *** Items of a line *)

Definition values (its : list SgrItem) : list Z := (spell its).*2.
Definition line_item (it : SgrItem) : Prop :=
  item_ok it /\
  match it with
  | IRendition r => r = Reset \/ r = Bold \/ r = Normal
  | IUnderline _ => False
  | IColor g c => g <> Ul /\ match c with Palette colons _ => colons = false | Direct nt _ => nt = Semicolons | _ => True end
  end.

Ltac line_item_cases H :=
  match type of H with
  | line_item ?it =>
      let Hg := fresh "Hg" in
      destruct it as [?|?|? [?|?| |? ?|? ?]], H as [? H]; [destruct H as [->|[->| ->]]|destruct H|..];
      try (destruct H as [Hg H]; try subst);
      try match type of Hg with ?g <> Ul => destruct g; [..|by destruct Hg] end
  end.

Lemma line_item_values it : line_item it ->
  encode_item it = (fun v => (false, v)) <$> (encode_item it).*2 /\ Forall (fun v => 0 <= v < 2 ^ 16) (encode_item it).*2.
Proof.
  intros L. line_item_cases L; cbn -[Z.pow] in *; unfold RGB_ok, byte in *; split; try done;
    repeat (apply Forall_cons; split); try apply Forall_nil_2; change (2 ^ 16) with 65536; lia.
Qed.

Lemma values_cons it its : values (it :: its) = (encode_item it).*2 ++ values its.
Proof. unfold values. cbn. by rewrite fmap_app. Qed.
Lemma values_app its1 its2 : values (its1 ++ its2) = values its1 ++ values its2.
Proof. unfold values. by rewrite spell_app, fmap_app. Qed.

Lemma line_values its : Forall line_item its ->
  spell its = (fun v => (false, v)) <$> values its /\ Forall (fun v => 0 <= v < 2 ^ 16) (values its).
Proof.
  induction 1 as [|it its L _ [IH1 IH2]]; [done|]. destruct (line_item_values it L) as [E F].
  change (spell (it :: its)) with (encode_item it ++ spell its). rewrite values_cons, fmap_app, <- E, <- IH1.
  split; [done|]. by apply Forall_app.
Qed.

Lemma join_parameter_sgrAdd a b : join_parameter a b = Sgr.sgrAdd a b.
Proof. unfold join_parameter, Sgr.sgrAdd, sgrAddStr, sgrSep. case_decide; [by subst|]. by rewrite <- app_assoc. Qed.

Lemma joined vs l : params_small l -> Forall (fun v => 0 <= v < 2 ^ 16) vs ->
  foldl join_parameter (render l) vs = render (l ++ ((fun v => (false, v)) <$> vs)).
Proof.
  intros Hl Hv. revert l Hl. induction Hv as [|v vs Hv _ IH]; intros l Hl; cbn [foldl].
  - by rewrite fmap_nil, app_nil_r.
  - rewrite join_parameter_sgrAdd, sgrAdd_render, IH by (done || (apply Forall_app_2; [done|by apply Forall_singleton])).
    by rewrite <- app_assoc.
Qed.

Lemma items_mean its a : its <> [] -> Forall line_item its -> (length (values its) <= 16)%nat ->
  sgr_means (values its) a (foldl apply_item a its).
Proof.
  intros N F L. destruct (line_values its F) as [E V].
  assert (Hok : Forall item_ok its) by (eapply Forall_impl; [exact F|intros ? [? _]; done]).
  destruct (spell_start its N) as (v & l & El).
  assert (Ev : values its = v :: l.*2) by (unfold values; by rewrite El).
  assert (Hs : params_small (spell its)) by (rewrite E; apply Forall_fmap; exact V).
  unfold sgr_means, sgr_sequence. rewrite decide_False by (by rewrite Ev).
  destruct (decide (values its = [0])) as [Z0|Z0].
  - exists [], []. split_and!; [reflexivity|constructor|constructor|cbn; lia|]. intros s (_ & _ & _ & _ & _ & Hp).
    apply applySGR_spelled with (first := []) (more := []); [done|cbn; lia|done|].
    rewrite E, Z0. reflexivity.
  - rewrite El in Hs. destruct (render_carried v l Hs) as (D1 & D2 & Hc).
    exists (to_string v), (render_more l). rewrite <- El in Hs.
    assert (Er : foldl join_parameter [] (values its) = params_text (to_string v) (render_more l)).
    { pose proof (joined (values its) [] ltac:(by apply Forall_nil_2) V) as J. cbn [app] in J. rewrite <- E, El in J.
      exact J. }
    assert (Ll : (length (render_more l) < 16)%nat).
    { unfold render_more. rewrite length_fmap. rewrite Ev in L. cbn in L. rewrite length_fmap in L. lia. }
    rewrite Er. split_and!; [reflexivity|done|done|exact Ll|]. intros s (_ & _ & _ & _ & _ & Hp).
    apply applySGR_spelled with (first := to_string v) (more := render_more l); [done|exact Ll|done|congruence].
Qed.

(** The values of a list of items determine it. *)
Lemma values_inj its1 : forall its2, Forall line_item its1 -> Forall line_item its2 ->
  values its1 = values its2 -> its1 = its2.
Proof.
  induction its1 as [|it1 its1 IH]; intros [|it2 its2] F1 F2 E; [done|..].
  - apply (f_equal length) in E. rewrite values_cons, length_app, length_fmap in E.
    pose proof (encode_item_length it2). cbn [values length] in E. change (length (values [])) with 0%nat in E. lia.
  - apply (f_equal length) in E. rewrite values_cons, length_app, length_fmap in E.
    pose proof (encode_item_length it1). cbn [values length] in E. change (length (values [])) with 0%nat in E. lia.
  - apply Forall_cons in F1 as [L1 F1], F2 as [L2 F2]. rewrite !values_cons in E.
    enough (it1 = it2 /\ values its1 = values its2) as [-> E'] by (f_equal; auto).
    clear IH F1 F2. generalize dependent (values its1). generalize dependent (values its2). intros v2 v1 E.
    line_item_cases L1; line_item_cases L2; cbn in *; simplify_eq; try done; try (exfalso; lia).
    all: try (split; [repeat f_equal; lia|done]).
    all: match goal with |- IColor _ (Direct _ ?c) = IColor _ (Direct _ ?d) /\ _ => destruct c, d end; cbn in *; by subst.
Qed.

(** *** The effect of the items of a line *)

(** Attributes without an underline colour and at most bold: on them an item
    of a line sets fields to values of its own. *)
Definition line_attrs (a : GraphicsAttributes) : Prop :=
  underlineColor a = DefaultColor /\ (attr_flags a = 0 \/ attr_flags a = CellFlag.Bold).

Record patch := mk_patch { p_fg : option Color; p_bg : option Color; p_flags : option flags }.
Definition apply_patch (p : patch) (a : GraphicsAttributes) : GraphicsAttributes :=
  mkAttrs (default (foregroundColor a) (p_fg p)) (default (backgroundColor a) (p_bg p)) (underlineColor a)
    (default (attr_flags a) (p_flags p)).
Definition item_patch (it : SgrItem) : patch :=
  match it with
  | IRendition Reset => mk_patch (Some DefaultColor) (Some DefaultColor) (Some 0)
  | IRendition Bold => mk_patch None None (Some CellFlag.Bold)
  | IRendition _ | IUnderline _ => mk_patch None None (Some 0)
  | IColor Fg c => mk_patch (Some (color_value c)) None None
  | IColor _ c => mk_patch None (Some (color_value c)) None
  end.

Lemma apply_item_patch it a : line_item it -> line_attrs a ->
  apply_item a it = apply_patch (item_patch it) a /\ line_attrs (apply_item a it).
Proof.
  intros L [U F]. unfold line_attrs, apply_patch.
  line_item_cases L; cbn -[CellFlag.Bold] in *; (split; [|split; [first [exact U|reflexivity]|first [exact F|left; reflexivity|idtac]]]).
  all: try reflexivity; try (by rewrite U).
  all: try (destruct F as [-> | ->]; cbn; first [reflexivity|left; reflexivity|right; reflexivity]).
Qed.

Lemma apply_items_patch its : Forall line_item its -> exists p, forall a, line_attrs a ->
  foldl apply_item a its = apply_patch p a /\ line_attrs (foldl apply_item a its).
Proof.
  induction 1 as [|it its L _ [p IH]].
  - exists (mk_patch None None None). intros [] A. split; [done|exact A].
  - exists (let q := item_patch it in mk_patch (p_fg p ∪ p_fg q) (p_bg p ∪ p_bg q) (p_flags p ∪ p_flags q)).
    intros a A. destruct (apply_item_patch it a L A) as [E A']. cbn [foldl]. destruct (IH _ A') as [IE IA].
    split; [|exact IA]. rewrite IE, E. unfold apply_patch. destruct p as [[] [] []], (item_patch it) as [[] [] []]; done.
Qed.

(** Applied twice is applied once. *)
Lemma items_idempotent its a : Forall line_item its -> line_attrs a ->
  foldl apply_item (foldl apply_item a its) its = foldl apply_item a its.
Proof.
  intros F A. destruct (apply_items_patch its F) as [p P]. destruct (P a A) as [E A'].
  rewrite (proj1 (P _ A')), E. unfold apply_patch. destruct p as [[] [] []]; done.
Qed.

(** ** Flushing *)

(** [a] are the attributes in force after what has been written: the last
    parameters written do not change them any more. *)
Definition in_force (w : VTWriter) (a : GraphicsAttributes) : Prop :=
  line_attrs a /\
  (_lastSGR w = [] \/ exists its, Forall line_item its /\ _lastSGR w = values its /\ foldl apply_item a its = a).

Definition writes (w w' : VTWriter) (cs : list chunk) : Prop := _writer w' = _writer w ++ (chunk_bytes <$> cs).

Lemma writes_trans w1 w2 w3 cs ds : writes w1 w2 cs -> writes w2 w3 ds -> writes w1 w3 (cs ++ ds).
Proof. unfold writes. intros E1 E2. by rewrite E2, E1, <- app_assoc, <- fmap_app. Qed.

Lemma sgrFlush_spec w its a :
  in_force w a -> Forall line_item its -> _sgr w = values its -> (length (values its) <= 16)%nat ->
  exists cs, writes w (sgrFlush w) cs /\ reads a cs [] (foldl apply_item a its) /\
    in_force (sgrFlush w) (foldl apply_item a its) /\ _sgr (sgrFlush w) = [].
Proof.
  intros [A Hl] F E L. unfold sgrFlush.
  destruct (decide (_sgr w = [])) as [N|N].
  { assert (its = []) as -> by (apply values_inj; [done|constructor|by rewrite <- E, N]).
    exists []. split_and!; [unfold writes; by rewrite app_nil_r|constructor|by split|done]. }
  assert (Hn : its <> []) by (intros ->; by rewrite E in N).
  destruct (apply_items_patch its F) as [p P]. destruct (P a A) as [_ A'].
  assert (I : forall w', _lastSGR (sgrRewind w') = values its -> in_force (sgrRewind w') (foldl apply_item a its)).
  { intros w' El. split; [exact A'|]. right. exists its. split_and!; [done|done|by apply items_idempotent]. }
  destruct (decide (_sgr w = _lastSGR w)) as [S|S].
  - assert (foldl apply_item a its = a) as Ea.
    { destruct Hl as [Hl|(l & Fl & El & Ea)]; [congruence|].
      replace its with l; [done|]. apply values_inj; [done|done|congruence]. }
    exists []. split_and!; [unfold writes; by rewrite app_nil_r|rewrite Ea; constructor|by apply I|done].
  - exists [SgrChunk (values its)]. split_and!; [unfold writes; cbn; by rewrite E| |by apply I|done].
    econstructor; [by apply items_mean|constructor].
Qed.

(** ** Adding parameters *)

Definition extends (w w' : VTWriter) (ps : list Z) : Prop :=
  _writer w' = _writer w /\ _sgr w' = _sgr w ++ ps /\ _lastSGR w' = _lastSGR w.

Lemma extends_trans w1 w2 w3 ps qs : extends w1 w2 ps -> extends w2 w3 qs -> extends w1 w3 (ps ++ qs).
Proof. intros (E1 & E2 & E3) (F1 & F2 & F3). split_and!; [congruence| |congruence]. by rewrite F2, E2, app_assoc. Qed.

(** Parameters that [sgrAdd] takes one by one: not zero, and each different
    from the one before it. *)
Fixpoint fresh (prev : option Z) (ps : list Z) : bool :=
  match ps with
  | [] => true
  | p :: ps => negb (p =? 0) && bool_decide (prev <> Some p) && fresh (Some p) ps
  end.

Lemma sgrAdd_fresh ps w : fresh (last (_sgr w)) ps = true -> (length (_sgr w) + length ps < 16)%nat ->
  extends w (foldl (fun w p => sgrAdd p w) w ps) ps.
Proof.
  revert w. induction ps as [|p ps IH]; intros w F L; cbn [foldl].
  - split_and!; [done|by rewrite app_nil_r|done].
  - cbn in F, L. apply andb_true_iff in F as [F1 F3]. apply andb_true_iff in F1 as [F1 F2].
    apply negb_true_iff in F1. apply bool_decide_eq_true in F2.
    assert (sgrAdd p w = push_sgr p w) as ->.
    { unfold sgrAdd. rewrite F1, decide_False by done. cbn [_sgr push_sgr with_sgr].
      rewrite (proj2 (Nat.eqb_neq _ _)); [done|]. rewrite length_app. cbn. unfold MaxParameterCount. lia. }
    assert (Ex : extends w (push_sgr p w) [p]) by done.
    change (p :: ps) with ([p] ++ ps). eapply extends_trans; [exact Ex|]. apply IH; cbn [_sgr push_sgr with_sgr].
    + by rewrite last_snoc.
    + rewrite length_app. cbn. lia.
Qed.

Lemma sgrAdd_values_extends n vs w : (length (_sgr w) + length vs <= 16)%nat ->
  extends w (sgrAdd_values n vs w) (n :: vs).
Proof.
  intros L. unfold sgrAdd_values. rewrite (proj2 (Nat.ltb_ge _ _)) by (unfold MaxParameterCount; lia).
  assert (Ex : forall v u, extends u (sgrAddExplicit v u) [v]).
  { intros v u. unfold sgrAddExplicit. destruct (v =? 0); done. }
  change (n :: vs) with ([n] ++ vs). eapply extends_trans; [apply Ex|].
  generalize (sgrAddExplicit n w). clear L w. induction vs as [|v vs IH]; intros w; cbn [foldl].
  - split_and!; [done|by rewrite app_nil_r|done].
  - change (v :: vs) with ([v] ++ vs). eapply extends_trans; [apply Ex|apply IH].
Qed.

Lemma printable_type c : printable_color c -> exists ty, Color_type c = Some ty /\ ty <> Undefined.
Proof.
  intros [->|[(n & Hn & ->)|[(n & Hn & ->)|(k & Hk & ->)]]].
  - exists Default. split; [by vm_compute|done].
  - exists Indexed. split; [by apply made_color|done].
  - exists Bright. split; [apply made_color; unfold byte; lia|done].
  - exists RGB. split; [|done]. by destruct (color_roundtrip Indexed 0 k ltac:(unfold byte; lia) Hk) as (_ & _ & E & _).
Qed.

Lemma color_item_lines g c : g <> Ul -> printable_color c -> Forall line_item (color_items g c).
Proof.
  intros Hg Hc. destruct (color_items_spec g c Hg Hc) as (k & E & Ok & _). rewrite E. constructor; [|constructor].
  split; [exact Ok|]. split; [exact Hg|]. unfold color_items in E. repeat case_match; by simplify_eq.
Qed.

Ltac color_types c Hc :=
  destruct (printable_type c Hc) as ([] & Ety & Hty); [done|..];
  unfold color_items, isIndexedColor, isDefaultColor, isBrightColor, isRGBColor in *; rewrite Ety in *.

(** The writer that has noted the colour extends as the one before. *)
Ltac at_writer :=
  match goal with |- extends ?w (match _ with _ => _ end) ?ps =>
    match goal with |- context [mk_writer ?a ?b ?c ?d ?e ?f] =>
      let w1 := fresh "w1" in set (w1 := mk_writer a b c d e f) in *;
      match goal with |- extends w ?x ps => change (extends w1 x ps) end
    end
  end.

Lemma fg_extends c w : printable_color c -> (length (_sgr w) <= 2)%nat ->
  Forall (fun n => n < 30) (_sgr w) -> extends w (setForegroundColor c w) (values (color_items Fg c)).
Proof.
  intros Hc L F. pose proof (index_byte c) as Hi. unfold byte in Hi.
  assert (One : forall n, 30 <= n -> forall w', _sgr w' = _sgr w -> extends w' (sgrAdd n w') [n]).
  { intros n Hn w' Ew. apply (sgrAdd_fresh [n]); cbn; [|rewrite Ew; lia].
    rewrite (proj2 (Z.eqb_neq n 0)), bool_decide_true by (lia || (intros El; rewrite Ew in El;
      apply last_Some_elem_of in El; rewrite Forall_forall in F; apply F in El; lia)). done. }
  unfold setForegroundColor. cbn zeta. at_writer. color_types c Hc.
  - by apply (One 39).
  - by apply (One (90 + Color_index c)); [lia|].
  - case_match; [by apply (One (30 + Color_index c)); [lia|]|]. by apply (sgrAdd_values_extends 38 [_; _]); cbn; lia.
  - by apply (sgrAdd_values_extends 38 [_; _; _; _]); cbn; lia.
Qed.

Lemma bg_extends c w : printable_color c -> (length (_sgr w) <= 8)%nat ->
  fresh (last (_sgr w)) (values (color_items Bg c)) = true ->
  extends w (setBackgroundColor c w) (values (color_items Bg c)).
Proof.
  intros Hc L F. unfold setBackgroundColor. cbn zeta. at_writer. color_types c Hc.
  - apply (sgrAdd_fresh [49]); [done|cbn; lia].
  - apply (sgrAdd_fresh [_]); [done|cbn; lia].
  - case_match; [apply (sgrAdd_fresh [_]); [done|cbn; lia]|]. apply (sgrAdd_fresh [_; _; _]); [done|cbn; lia].
  - apply (sgrAdd_fresh [_; _; _; _; _]); [done|cbn; lia].
Qed.

(** ** Text with its attributes *)

Lemma write_string_spec w its a t :
  in_force w a -> Forall line_item its -> _sgr w = values its -> (length (values its) <= 16)%nat ->
  exists cs, writes w (write_string t w) cs /\
    reads a cs [(foldl apply_item a its, t)] (foldl apply_item a its) /\
    in_force (write_string t w) (foldl apply_item a its) /\ _sgr (write_string t w) = [].
Proof.
  intros I F E L. destruct (sgrFlush_spec w its a I F E L) as (cs & W & R & I' & N).
  exists (cs ++ [TextChunk t]). split_and!; [|eapply reads_app with (r1 := []); [exact R|repeat constructor]|exact I'|exact N].
  eapply writes_trans; [exact W|done].
Qed.

Lemma sgrFlush_idle w : _sgr w = [] -> sgrFlush w = w.
Proof. intros E. unfold sgrFlush. by rewrite decide_True. Qed.
Lemma sgrFlush_twice w : sgrFlush (sgrFlush w) = sgrFlush w.
Proof. apply sgrFlush_idle. unfold sgrFlush. case_decide; done. Qed.

(** What is pending between two pieces of text of a line, and its effect. *)
Definition pending_items (w : VTWriter) : list SgrItem := if decide (_sgr w = [0]) then [IRendition Reset] else [].

Section Reading.
Context `{Utf8Encoder} `{CellConcept Cell} `{CellColors Cell}.
Abbreviation Line := (Line Cell).
Abbreviation Grid := (Grid Cell).

(** Colours the writer can spell: the background's parameters do not repeat
    and are not zero. *)
Definition writable (fg bg : Color) : Prop :=
  printable_color fg /\ printable_color bg /\
  fresh (last (values (color_items Fg fg))) (values (color_items Bg bg)) = true.

(** What is to be seen of attributes: the colours and boldness. *)
Definition is_bold (f : flags) : bool := Flags.any (Flags.both f CellFlag.Bold).
Definition seen (fg bg : Color) (f : flags) : GraphicsAttributes :=
  mkAttrs fg bg DefaultColor (if is_bold f then CellFlag.Bold else 0).
Definition seen_attrs (a : GraphicsAttributes) : GraphicsAttributes :=
  seen (foregroundColor a) (backgroundColor a) (attr_flags a).
Definition cell_bold (c : Cell) : bool := is_bold (cell_flags c).
Definition cell_attrs (c : Cell) : GraphicsAttributes :=
  seen (cell_foregroundColor c) (cell_backgroundColor c) (cell_flags c).
Definition cell_text (c : Cell) : list Z :=
  if (length (cell_codepoints c) =? 0)%nat then encode_utf8 0x20 else cell_toUtf8 c.

(** The columns behind the text of a line that is not stored by cells. *)
Definition fill_columns (b : TrivialLineBuffer) : nat := Z.to_nat (displayWidth b - usedColumns b).

(** Of a line that is not stored by cells the writer spells the colours of the
    text only: the text is not bold, and what fills the line looks like it. *)
Definition line_writable (l : Line) : Prop :=
  match _buffer l with
  | Trivial b =>
      writable (foregroundColor (textAttributes b)) (backgroundColor (textAttributes b)) /\
      is_bold (attr_flags (textAttributes b)) = false /\
      (fill_columns b <> 0%nat -> seen_attrs (fillAttributes b) = seen_attrs (textAttributes b))
  | Inflated cells => Forall (fun c => writable (cell_foregroundColor c) (cell_backgroundColor c)) cells
  end.
(** The text of a line with what is to be seen of its attributes. *)
Definition line_runs (l : Line) : list (GraphicsAttributes * list Z) :=
  match _buffer l with
  | Trivial b => [(seen_attrs (textAttributes b), text b);
                  (seen_attrs (fillAttributes b), replicate (fill_columns b) 0x20)]
  | Inflated cells => (fun c => (cell_attrs c, cell_text c)) <$> cells
  end.
(** The bytes of runs, each with its attributes. *)
Definition bytes_seen (r : list (GraphicsAttributes * list Z)) : list (GraphicsAttributes * Z) :=
  mjoin ((fun '(a, s) => pair a <$> s) <$> r).
Lemma bytes_seen_app r1 r2 : bytes_seen (r1 ++ r2) = bytes_seen r1 ++ bytes_seen r2.
Proof. unfold bytes_seen. by rewrite fmap_app, join_app. Qed.

Lemma color_values_length g c : printable_color c -> (length (values (color_items g c)) <= 5)%nat.
Proof. intros Hc. color_types c Hc; repeat case_match; cbn; lia. Qed.

(** Renditions, then colours: the items that are pending before the text. *)
Lemma colors_pending w pre fg bg :
  writable fg bg -> Forall line_item pre -> _sgr w = values pre -> (length (values pre) <= 2)%nat ->
  Forall (fun n => n < 30) (values pre) ->
  let w' := setBackgroundColor bg (setForegroundColor fg w) in
  let its := pre ++ color_items Fg fg ++ color_items Bg bg in
  Forall line_item its /\ extends w w' (values (color_items Fg fg ++ color_items Bg bg)) /\
  _sgr w' = values its /\ (length (values its) <= 16)%nat.
Proof.
  intros (Hf & Hb & Fr) Fp E L S. cbn zeta.
  pose proof (color_values_length Fg fg Hf) as L1. pose proof (color_values_length Bg bg Hb) as L2.
  destruct (color_items_spec Fg fg ltac:(done) Hf) as (kf & Ef & _).
  assert (Nf : values (color_items Fg fg) <> []).
  { rewrite Ef. intros N. apply (f_equal length) in N. unfold values in N. rewrite length_fmap in N.
    cbn [fmap list_fmap mjoin list_join] in N. rewrite app_nil_r in N. pose proof (encode_item_length (IColor Fg kf)). cbn [length] in N. lia. }
  assert (X1 : extends w (setForegroundColor fg w) (values (color_items Fg fg))) by (apply fg_extends; rewrite ?E; done).
  assert (X2 : extends (setForegroundColor fg w) (setBackgroundColor bg (setForegroundColor fg w)) (values (color_items Bg bg))).
  { destruct X1 as (_ & Es & _). apply bg_extends; [done|rewrite Es, length_app, E; lia|].
    rewrite Es, last_app. by destruct (last (values (color_items Fg fg))) eqn:El; [|apply last_None in El]. }
  pose proof (extends_trans _ _ _ _ _ X1 X2) as X. rewrite <- values_app in X.
  split_and!; [|exact X| |].
  - repeat (apply Forall_app; split); [done|by apply color_item_lines..].
  - destruct X as (_ & -> & _). by rewrite E, !values_app.
  - rewrite !values_app, !length_app. lia.
Qed.

Lemma apply_colors fg bg a : printable_color fg -> printable_color bg ->
  foldl apply_item a (color_items Fg fg ++ color_items Bg bg) = mkAttrs fg bg (underlineColor a) (attr_flags a).
Proof.
  intros Hf Hb. destruct (color_items_spec Fg fg ltac:(done) Hf) as (kf & -> & _ & <-).
  destruct (color_items_spec Bg bg ltac:(done) Hb) as (kb & -> & _ & <-). done.
Qed.

Definition ready (w : VTWriter) (a : GraphicsAttributes) : Prop :=
  in_force w a /\ (_sgr w = [] \/ _sgr w = [0]).

Lemma pending_values w a : ready w a -> _sgr w = values (pending_items w) /\ Forall line_item (pending_items w).
Proof.
  intros [_ [E|E]]; unfold pending_items; rewrite E; (split; [done|]); cbn; [constructor|].
  constructor; [|constructor]. split; [by eexists|by left].
Qed.

Lemma write_cell_spec w a c :
  ready w a -> writable (cell_foregroundColor c) (cell_backgroundColor c) ->
  exists cs, writes w (write_cell w c) cs /\ reads a cs [(cell_attrs c, cell_text c)] (cell_attrs c) /\
    ready (write_cell w c) (cell_attrs c).
Proof.
  intros Hr Hw. destruct (pending_values w a Hr) as [Ep Fp]. destruct Hr as [Hi Hs].
  unfold write_cell. fold (is_bold (cell_flags c)). fold (cell_bold c). set (r := if cell_bold c then Bold else Normal).
  set (pre := pending_items w ++ [IRendition r]).
  assert (Lr : Forall line_item pre).
  { apply Forall_app; split; [done|]. constructor; [|constructor].
    subst r. destruct (cell_bold c); (split; [by eexists|auto]). }
  assert (Xr : extends w (sgrAdd_rendition r w) [GraphicsRendition_value r]).
  { apply (sgrAdd_fresh [_]); subst r; destruct Hs as [-> | ->], (cell_bold c); cbn; (done || lia). }
  assert (Er : _sgr (sgrAdd_rendition r w) = values pre).
  { destruct Xr as (_ & -> & _). subst pre. rewrite values_app, Ep. f_equal. subst r. by destruct (cell_bold c). }
  assert (Sr : (length (values pre) <= 2)%nat /\ Forall (fun n => n < 30) (values pre)).
  { rewrite <- Er. destruct Xr as (_ & -> & _). subst r.
    destruct Hs as [-> | ->], (cell_bold c); cbn; (split; [lia|repeat constructor; lia]). }
  destruct (colors_pending (sgrAdd_rendition r w) pre _ _ Hw Lr Er) as (Fi & Xc & Ec & Lc); [apply Sr..|].
  cbn zeta in *. cbn [Basics.flip] in *. set (w' := setBackgroundColor _ _) in *.
  pose proof (extends_trans _ _ _ _ _ Xr Xc) as (Xw & _ & Xl).
  assert (Hi' : in_force w' a) by (destruct Hi as [A Hl]; split; [exact A|by rewrite Xl]).
  assert (Et : (if (length (cell_codepoints c) =? 0)%nat then write_char 0x20 w' else write_string (cell_toUtf8 c) w') =
               write_string (cell_text c) w').
  { unfold cell_text. destruct (_ =? 0)%nat; [|done]. unfold write_char, write_string. by rewrite sgrFlush_twice. }
  destruct (write_string_spec w' _ a (cell_text c) Hi' Fi Ec Lc) as (cs & W & R & I & N).
  assert (Ea : foldl apply_item a (pre ++ color_items Fg (cell_foregroundColor c) ++ color_items Bg (cell_backgroundColor c)) = cell_attrs c).
  { rewrite foldl_app, apply_colors by apply Hw. destruct Hi as [[U Fl] _]. subst pre r. unfold cell_attrs, seen, pending_items. fold (cell_bold c).
    destruct a as [f b u fl]. cbn in U, Fl. subst u.
    destruct Hs as [-> | ->], (cell_bold c), Fl as [-> | ->]; reflexivity. }
  rewrite Ea in R, I. exists cs. unfold writes in *. rewrite Et, W, Xw.
  split_and!; [done|exact R|]. split; [exact I|by left].
Qed.

Lemma write_cells_spec cells w a :
  ready w a -> Forall (fun c => writable (cell_foregroundColor c) (cell_backgroundColor c)) cells ->
  exists cs a', writes w (foldl write_cell w cells) cs /\
    reads a cs ((fun c => (cell_attrs c, cell_text c)) <$> cells) a' /\ ready (foldl write_cell w cells) a'.
Proof.
  intros Hr F. revert w a Hr. induction F as [|c cells Hc F IH]; intros w a Hr.
  - exists [], a. split_and!; [unfold writes; by rewrite app_nil_r|constructor|exact Hr].
  - destruct (write_cell_spec w a c Hr Hc) as (cs & W & R & Hr').
    destruct (IH _ _ Hr') as (ds & b & W' & R' & Hr'').
    exists (cs ++ ds), b. split_and!; [by eapply writes_trans|exact (reads_app _ _ _ _ _ _ _ R R')|exact Hr''].
Qed.

(** Between lines, the attributes are reset or about to be. *)
Definition between (w : VTWriter) (a : GraphicsAttributes) : Prop :=
  in_force w a /\ (_sgr w = [0] \/ (_sgr w = [] /\ a = Attrs_init)).

Lemma between_ready w a : between w a -> ready w a.
Proof. intros [I [E|[E _]]]; split; auto. Qed.

Lemma between_init w a : between w a -> foldl apply_item a (pending_items w) = Attrs_init.
Proof. intros [_ [E|[E ->]]]; unfold pending_items; by rewrite E. Qed.

Lemma write_line_spec l w a :
  between w a -> line_writable l ->
  exists cs r a', writes w (write_line l w) cs /\ reads a cs r a' /\ bytes_seen r = bytes_seen (line_runs l) /\
    between (write_line l w) a'.
Proof.
  intros Hb Hl. pose proof (between_ready w a Hb) as Hr.
  assert (Hend : forall w' a', ready w' a' ->
    _writer (sgrAdd_rendition Reset w') = _writer w' /\ between (sgrAdd_rendition Reset w') a').
  { intros w' a' [I _]. split; [done|]. split; [exact I|by left]. }
  unfold write_line, line_writable, line_runs, writes in *. destruct (_buffer l) as [b|cells] eqn:Eb.
  - assert (Etext : line_toUtf8 l = text b ++ replicate (fill_columns b) 0x20) by (unfold line_toUtf8; by rewrite Eb).
    destruct (pending_values w a Hr) as [Ep Fp]. destruct Hl as (Hl & Hbold & Hfill). pose proof Hl as (Hf & Hg & _).
    destruct (colors_pending w (pending_items w) _ _ Hl Fp Ep) as (Fi & (Xw & _ & Xl) & Ec & Lc).
    { rewrite <- Ep. destruct Hr as [_ [-> | ->]]; cbn; lia. }
    { rewrite <- Ep. destruct Hr as [_ [-> | ->]]; repeat constructor; lia. }
    cbn zeta in *. set (w' := setBackgroundColor _ _) in *.
    assert (Hi' : in_force w' a) by (destruct Hr as [[A Hla] _]; split; [exact A|by rewrite Xl]).
    destruct (write_string_spec w' _ a (line_toUtf8 l) Hi' Fi Ec Lc) as (cs & W & R & I & N).
    rewrite foldl_app, between_init, apply_colors in R, I by done.
    destruct (Hend (write_string (line_toUtf8 l) w') _ (conj I (or_introl N))) as [E B].
    exists cs. eexists _, _. split_and!; [etransitivity; [exact E|]; rewrite W, Xw; done|exact R| |exact B].
    rewrite Etext. unfold seen_attrs, seen in Hfill |- *. rewrite Hbold in Hfill |- *. unfold bytes_seen. cbn.
    rewrite fmap_app, !app_nil_r. destruct (fill_columns b); [done|]. by rewrite Hfill by lia.
  - destruct (write_cells_spec cells w a Hr Hl) as (cs & a' & W & R & Hr').
    destruct (Hend _ _ Hr') as [E B]. exists cs. eexists _, a'. split_and!; [by etransitivity|exact R|done|exact B].
Qed.

Lemma write_between t w a :
  between w a -> exists cs, writes w (write_string t w) cs /\ reads a cs [(Attrs_init, t)] Attrs_init /\
    between (write_string t w) Attrs_init.
Proof.
  intros Hb. pose proof (between_ready w a Hb) as Hr. destruct (pending_values w a Hr) as [Ep Fp].
  destruct (write_string_spec w (pending_items w) a t) as (cs & W & R & I & N); [apply Hr|done|done| |].
  { rewrite <- Ep. destruct Hr as [_ [-> | ->]]; cbn; lia. }
  rewrite between_init in R, I by done. exists cs. split_and!; [done|exact R|]. split; [exact I|by right].
Qed.

(** What a screenshot is to show. *)
Definition shown_line (postLine : option (Z -> list Z)) (i : Z) (l : Line) : list (GraphicsAttributes * list Z) :=
  line_runs l ++ match postLine with Some f => [(Attrs_init, f i)] | None => [] end ++ [(Attrs_init, [0x0D; 0x0A])].

Lemma screenshot_line_spec postLine g w a i l :
  between w a -> lineAt g i = Some l -> line_writable l ->
  exists cs r w', screenshot_line postLine g w i = Some w' /\ writes w w' cs /\
    reads a cs r Attrs_init /\ bytes_seen r = bytes_seen (shown_line postLine i l) /\ between w' Attrs_init.
Proof.
  intros Hb El Hl. unfold screenshot_line, shown_line. rewrite El. cbn [mbind option_bind].
  destruct (write_line_spec l w a Hb Hl) as (cs & r & a' & W & R & Er & Hb').
  assert (exists ds b w2, match postLine with Some f => write_string (f i) (write_line l w) | None => write_line l w end = w2 /\
    writes (write_line l w) w2 ds /\
    reads a' ds match postLine with Some f => [(Attrs_init, f i)] | None => [] end b /\ between w2 b)
    as (ds & b & w2 & -> & W2 & R2 & Hb2).
  { destruct postLine as [f|].
    - destruct (write_between (f i) _ _ Hb') as (ds & ? & ? & ?). exists ds, Attrs_init. eauto.
    - exists [], a'. eexists. split_and!; [done|unfold writes; by rewrite app_nil_r|constructor|exact Hb']. }
  destruct (write_between [0x0D; 0x0A] _ _ Hb2) as (es & W3 & R3 & Hb3).
  exists (cs ++ ds ++ es). eexists _, _. split_and!; [done| |by eauto using reads_app| |exact Hb3].
  - eapply writes_trans; [exact W|by eapply writes_trans].
  - by rewrite bytes_seen_app, (bytes_seen_app (line_runs l)), Er.
Qed.

(** C16: Let the colours of a page be ones the writer spells: default, indexed, bright or RGB,
    with background parameters none of which is zero or repeats the parameter before it; and let
    the lines that are stored as text, not as cells, be not bold and filled in the look of their
    text. Then a screenshot succeeds, and what it writes, read as control sequences by the
    sequence builder and applySGR from default attributes on, shows every byte of every cell in
    the colours and boldness of the cell (its other renditions and hyperlinks are not written),
    line by line, and ends with the attributes reset: no sequence that the writer leaves out as
    a repetition is missed. The excluded backgrounds, boldness and fill colours are lost
    (grey_background, black_background, background_left_out, boldness_lost, fill_colors_lost).
    *)
Theorem screenshot_read_back postLine g :
  grid_ok g -> Forall line_writable (page g) ->
  exists cs r, screenshot postLine g = Some (mjoin (chunk_bytes <$> cs)) /\ reads Attrs_init cs r Attrs_init /\
    bytes_seen r = bytes_seen (mjoin (imap (fun i l => shown_line postLine (Z.of_nat i) l) (page g))).
Proof.
  intros Hok F. unfold screenshot. pose proof (page_length g Hok) as Hp.
  assert (Hlines : forall k ls w a, between w a -> (a = Attrs_init \/ ls <> []) -> drop k (page g) = ls ->
    exists cs r w', foldl (fun w i => w ← w; screenshot_line postLine g w i) (Some w)
        (seqZ (Z.of_nat k) (lines (_pageSize g) - Z.of_nat k)) = Some w' /\ writes w w' cs /\ reads a cs r Attrs_init /\
      bytes_seen r = bytes_seen (mjoin (imap (fun i l => shown_line postLine (Z.of_nat (k + i)) l) ls))).
  { intros k ls. revert k. induction ls as [|l ls IH]; intros k w a Hb Ha Ed.
    - assert (length (page g) <= k)%nat by (apply (f_equal length) in Ed; rewrite length_drop in Ed; cbn in Ed; lia).
      rewrite seqZ_nil by lia. destruct Ha as [->|]; [|done].
      exists [], [], w. split_and!; [done|unfold writes; by rewrite app_nil_r|constructor|done].
    - assert (El : page g !! k = Some l) by (by rewrite <- (Nat.add_0_r k), <- lookup_drop, Ed).
      pose proof (lookup_lt_Some _ _ _ El) as Hk. rewrite seqZ_cons by lia.
      destruct (screenshot_line_spec postLine g w a (Z.of_nat k) l Hb) as (cs & r & w' & E & W & R & Er & Hb').
      { rewrite lineAt_page by (done || lia). by rewrite Nat2Z.id. }
      { rewrite Forall_forall in F. apply F. by eapply list_elem_of_lookup_2. }
      destruct (IH (S k) w' Attrs_init Hb') as (ds & r' & w'' & E' & W' & R' & Er'); [by left|by rewrite <- Nat.add_1_r, <- drop_drop, Ed|].
      exists (cs ++ ds), (r ++ r'), w''. split_and!; [|by eapply writes_trans|by eapply reads_app|].
      + cbn [foldl mbind option_bind]. rewrite E, <- E'. do 2 f_equal; lia.
      + rewrite imap_cons. cbn [mjoin list_join]. rewrite Nat.add_0_r, !bytes_seen_app, Er, Er'. do 3 f_equal.
        apply imap_ext. intros i x _. cbn. by rewrite Nat.add_succ_r. }
  destruct (Hlines 0%nat (page g) VTWriter_init Attrs_init) as (cs & r & w' & E & W & R & Er); [|by left|done|].
  { split; [split; [split; [done|by left]|by left]|by right]. }
  exists cs, r. split; [|exact (conj R Er)]. rewrite Z.sub_0_r in E. change (Z.of_nat 0) with 0 in E. rewrite E.
  cbn [mbind option_bind]. by rewrite W.
Qed.

End Reading.

(** ** Witnesses and examples *)

Module Examples.

#[local] Instance ascii_encoder : Utf8Encoder := fun c => [c].
#[local] Instance one_column : UnicodeWidth := fun _ => 1.

Definition colored (ch : list Z) (fg bg : Color) (f : flags) : SimpleCell.t :=
  SimpleCell.mk ch (mkAttrs fg bg DefaultColor f) 1 0 None.

(** A page of two lines: three coloured cells, and text. *)
Definition picture : Grid SimpleCell.t :=
  mkGrid (mkPageSize 2 3) false (LimitedTo 0)
    (mk_ring [mkLine 0 (Inflated [colored [0x61] (Color_Indexed 1) (Color_RGB (mkRGB 10 20 30)) CellFlag.Bold;
                                  colored [0x62] (Color_Indexed 1) (Color_RGB (mkRGB 10 20 30)) CellFlag.Bold;
                                  colored [] (Color_Bright 4) DefaultColor 0]);
              mkLine 0 (Trivial (mkTrivial 3 Attrs_init Attrs_init 0 2 [0x78; 0x79]))] 0) 2.

Definition bold_on_blue : GraphicsAttributes :=
  mkAttrs (Color_Indexed 1) (Color_RGB (mkRGB 10 20 30)) DefaultColor CellFlag.Bold.

Lemma screenshot_read_back_witness :
  exists cs r, screenshot None picture = Some (mjoin (chunk_bytes <$> cs)) /\ reads Attrs_init cs r Attrs_init /\
    bytes_seen r =
      [(bold_on_blue, 0x61); (bold_on_blue, 0x62); (mkAttrs (Color_Bright 4) DefaultColor DefaultColor 0, 0x20);
       (Attrs_init, 0x0D); (Attrs_init, 0x0A); (Attrs_init, 0x78); (Attrs_init, 0x79); (Attrs_init, 0x20);
       (Attrs_init, 0x0D); (Attrs_init, 0x0A)].
Proof.
  destruct (screenshot_read_back None picture) as (cs & r & E & R & Er).
  - split; unfold ring_ok, size; simpl; lia.
  - assert (P1 : printable_color (Color_Indexed 1)) by (right; left; exists 1; split; [unfold byte; lia|done]).
    assert (P4 : printable_color (Color_Bright 4)) by (right; right; left; exists 4; split; [lia|done]).
    assert (Pb : printable_color (Color_RGB (mkRGB 10 20 30))).
    { right; right; right. eexists. split; [|reflexivity]. unfold RGB_ok, byte. cbn. lia. }
    assert (Pd : printable_color DefaultColor) by (by left).
    change (page picture) with (_storage (_lines picture)).
    apply Forall_cons_2; [|apply Forall_cons_2; [|apply Forall_nil_2]]; cbn [line_writable _buffer].
    + repeat apply Forall_cons_2; try apply Forall_nil_2; (split; [assumption|split; [assumption|reflexivity]]).
    + split; [split; [assumption|split; [assumption|reflexivity]]|]. split; reflexivity.
  - exists cs, r. split; [exact E|]. split; [exact R|]. rewrite Er. reflexivity.
Defined.

(** The second of two equal sequences is left out. *)
Example repetition_left_out :
  screenshot None picture =
    Some ([0x1B; 0x5B; 0x31; 0x3B; 0x33; 0x31; 0x3B; 0x34; 0x38; 0x3B; 0x32; 0x3B; 0x31; 0x30; 0x3B; 0x32; 0x30; 0x3B; 0x33; 0x30; 0x6D] ++
      [0x61; 0x62] ++ [0x1B; 0x5B; 0x32; 0x32; 0x3B; 0x39; 0x34; 0x3B; 0x34; 0x39; 0x6D] ++ [0x20] ++
      [0x1B; 0x5B; 0x6D] ++ [0x0D; 0x0A] ++ [0x1B; 0x5B; 0x33; 0x39; 0x3B; 0x34; 0x39; 0x6D] ++ [0x78; 0x79; 0x20] ++
      [0x1B; 0x5B; 0x6D] ++ [0x0D; 0x0A]).
Proof. vm_compute. reflexivity. Qed.

(** A grey background loses the components that repeat, a black one resets
    everything that was pending. *)
Example grey_background :
  _sgr (setBackgroundColor (Color_RGB (mkRGB 100 100 100)) VTWriter_init) = [48; 2; 100].
Proof. vm_compute. reflexivity. Qed.
Example black_background :
  _sgr (setBackgroundColor (Color_RGB (mkRGB 0 0 0)) (setForegroundColor (Color_Indexed 1) VTWriter_init)) = [0].
Proof. vm_compute. reflexivity. Qed.

(** The default background is left out behind the foreground with index 49. *)
Example background_left_out :
  _sgr (setBackgroundColor DefaultColor (setForegroundColor (Color_Indexed 49) VTWriter_init)) = [38; 5; 49].
Proof. vm_compute. reflexivity. Qed.

(** A bold line that is stored as text, without cells, is written like a line
    that is not bold; and what fills it is written in the colours of the text. *)
Definition text_line (text_attrs fill_attrs : GraphicsAttributes) : Line SimpleCell.t :=
  mkLine 0 (Trivial (mkTrivial 3 text_attrs fill_attrs 0 2 [0x78; 0x79])).
Example boldness_lost : write_line (text_line (mkAttrs DefaultColor DefaultColor DefaultColor CellFlag.Bold) Attrs_init) VTWriter_init =
  write_line (text_line Attrs_init Attrs_init) VTWriter_init.
Proof. vm_compute. reflexivity. Qed.
Example fill_colors_lost :
  let red := mkAttrs DefaultColor (Color_Indexed 1) DefaultColor 0 in
  write_line (text_line Attrs_init red) VTWriter_init = write_line (text_line Attrs_init Attrs_init) VTWriter_init.
Proof. vm_compute. reflexivity. Qed.

(** Twelve pending parameters and an RGB foreground make seventeen. *)
Example seventeen_parameters :
  let c := Color_RGB (mkRGB 1 2 3) in
  length (_sgr (VTWriter_init |> sgrAdd 1 |> sgrAdd 3 |> setForegroundColor c |> setForegroundColor c
                              |> setForegroundColor c)) = 17%nat.
Proof. vm_compute. reflexivity. Qed.

(** The rendition of a curly underline is written as a black foreground. *)
Example curly_underline_written : _sgr (sgrAdd_rendition CurlyUnderlined VTWriter_init) = [30].
Proof. vm_compute. reflexivity. Qed.

End Examples.
