(* ===== verification/Charset.v ===== *)
(** * Character sets (src/vtbackend/Charset.h, Charset.cpp)

    The national replacement sets as tables over the 127 codes below DEL, and
    the mapping of codes through the four designated tables G0 to G3 with
    locking and single shifts. *)
From S2P Require Import Prelude.

(** ** The tables: [CharsetMap] is an array of 127 code points *)

Definition CharsetMap := list Z.

(** [result[code] = value], one after the other. *)
Definition replace_codes (entries : list (Z * Z)) (m : CharsetMap) : CharsetMap :=
  foldl (fun m e => <[Z.to_nat e.1 := e.2]> m) m entries.

Definition usasciiCharset : CharsetMap := seqZ 0 127.

Definition createBritishCharset : CharsetMap := usasciiCharset |> replace_codes
  [(0x23, 0x00A3)].

Definition createGermanCharset : CharsetMap := usasciiCharset |> replace_codes
  [(0x40, 0x00A7); (0x5B, 0x00C4); (0x5C, 0x00D6); (0x5D, 0x00DC); (0x7B, 0x00E4);
   (0x7C, 0x00F6); (0x7D, 0x00FC); (0x7E, 0x00DF)].

Definition createSpecialCharset : CharsetMap := usasciiCharset |> replace_codes
  [(0x60, 0x25C6); (0x61, 0x2592); (0x62, 0x2409); (0x63, 0x240C); (0x64, 0x240D);
   (0x65, 0x240A); (0x66, 0x00B0); (0x67, 0x00B1); (0x68, 0x2424); (0x69, 0x240B);
   (0x6A, 0x2518); (0x6B, 0x2510); (0x6C, 0x250C); (0x6D, 0x2514); (0x6E, 0x253C);
   (0x6F, 0x23BA); (0x70, 0x23BB); (0x71, 0x2500); (0x72, 0x23BC); (0x73, 0x23BD);
   (0x74, 0x251C); (0x75, 0x2524); (0x76, 0x2534); (0x77, 0x252C); (0x78, 0x2502);
   (0x79, 0x2264); (0x7A, 0x2265); (0x7B, 0x03C0); (0x7C, 0x2260); (0x7D, 0x00A3);
   (0x7E, 0x00B7)].

Definition createDutchCharset : CharsetMap := usasciiCharset |> replace_codes
  [(0x23, 0x00A3); (0x40, 0x00BE); (0x5C, 0x00BD); (0x5D, 0x007C); (0x7B, 0x00A8);
   (0x7C, 0x0066); (0x7D, 0x00BC); (0x7E, 0x00B4)].

Definition createFinnishCharset : CharsetMap := usasciiCharset |> replace_codes
  [(0x5B, 0x00C4); (0x5C, 0x00D6); (0x5D, 0x00C5); (0x5E, 0x00DC); (0x60, 0x00E9);
   (0x7B, 0x00E4); (0x7C, 0x00F6); (0x7D, 0x00E5); (0x7E, 0x00FC)].

Definition createFrenchCharset : CharsetMap := usasciiCharset |> replace_codes
  [(0x23, 0x00A3); (0x40, 0x00E0); (0x5B, 0x00B0); (0x5C, 0x00E7); (0x5D, 0x00A7);
   (0x7B, 0x00E9); (0x7C, 0x00F9); (0x7D, 0x00E8); (0x7E, 0x00A8)].

Definition createFrenchCanadianCharset : CharsetMap := usasciiCharset |> replace_codes
  [(0x40, 0x00E0); (0x5B, 0x00E2); (0x5C, 0x00E7); (0x5D, 0x00EA); (0x5E, 0x00EE);
   (0x60, 0x00F4); (0x7B, 0x00E9); (0x7C, 0x00F9); (0x7D, 0x00E8); (0x7E, 0x00FB)].

Definition createNorwegianDanishCharset : CharsetMap := usasciiCharset |> replace_codes
  [(0x40, 0x00C4); (0x5B, 0x00C6); (0x5C, 0x00D8); (0x5D, 0x00C5); (0x5E, 0x00DC);
   (0x60, 0x00E4); (0x7B, 0x00E6); (0x7C, 0x00F8); (0x7D, 0x00E5); (0x7E, 0x00FC)].

Definition createSpanishCharset : CharsetMap := usasciiCharset |> replace_codes
  [(0x23, 0x00A3); (0x40, 0x00A7); (0x5B, 0x00A1); (0x5C, 0x00D1); (0x5D, 0x00BF);
   (0x7B, 0x00B0); (0x7C, 0x00F1); (0x7D, 0x00E7)].

Definition createSwedishCharset : CharsetMap := usasciiCharset |> replace_codes
  [(0x40, 0x00C9); (0x5B, 0x00C4); (0x5C, 0x00D6); (0x5D, 0x00C5); (0x5E, 0x00DC);
   (0x60, 0x00E9); (0x7B, 0x00E4); (0x7C, 0x00F6); (0x7D, 0x00E5); (0x7E, 0x00FC)].

Definition createSwissCharset : CharsetMap := usasciiCharset |> replace_codes
  [(0x23, 0x00F9); (0x40, 0x00E0); (0x5B, 0x00E9); (0x5C, 0x00E7); (0x5D, 0x00EA);
   (0x5E, 0x00EE); (0x5F, 0x00E8); (0x60, 0x00F4); (0x7B, 0x00E4); (0x7C, 0x00F6);
   (0x7D, 0x00FC); (0x7E, 0x00FB)].

Inductive CharsetId :=
| Special | British | Dutch | Finnish | French | FrenchCanadian | German | NorwegianDanish
| Spanish | Swedish | Swiss | USASCII.
#[export] Instance CharsetId_eq_dec : EqDecision CharsetId.
Proof. solve_decision. Defined.

Inductive CharsetTable := G0 | G1 | G2 | G3.
#[export] Instance CharsetTable_eq_dec : EqDecision CharsetTable.
Proof. solve_decision. Defined.

Definition charsetMap (id : CharsetId) : CharsetMap :=
  match id with
  | British => createBritishCharset
  | Dutch => createDutchCharset
  | Finnish => createFinnishCharset
  | French => createFrenchCharset
  | FrenchCanadian => createFrenchCanadianCharset
  | German => createGermanCharset
  | NorwegianDanish => createNorwegianDanishCharset
  | Spanish => createSpanishCharset
  | Special => createSpecialCharset
  | Swedish => createSwedishCharset
  | Swiss => createSwissCharset
  | USASCII => usasciiCharset
  end.

(** ** [class CharsetMapping] *)

(** The designated tables are pointers to the maps above, known by their id. *)
Record CharsetMapping := mkCharsets {
  _tableForNextGraphic : CharsetTable;
  _selectedTable : CharsetTable;
  _tables : CharsetTable -> CharsetId
}.
Definition CharsetMapping_init : CharsetMapping := mkCharsets G0 G0 (fun _ => USASCII).

(** [map(table, code)]. *)
Definition map_table (c : CharsetMapping) (table : CharsetTable) (code : Z) : option Z :=
  charsetMap (_tables c table) !! Z.to_nat (u8 code).

(** [map(code)]: the code point and the mapping for the next graphic. *)
Definition map_code (c : CharsetMapping) (code : Z) : option (Z * CharsetMapping) :=
  if code <? 127 then
    result ← map_table c (_tableForNextGraphic c) code;
    Some (result, mkCharsets (_selectedTable c) (_selectedTable c) (_tables c))
  else if negb (code =? 127) then Some (code, c)
  else Some (0x20, c).

Definition singleShift (c : CharsetMapping) (table : CharsetTable) : CharsetMapping :=
  mkCharsets table (_selectedTable c) (_tables c).
Definition lockingShift (c : CharsetMapping) (table : CharsetTable) : CharsetMapping :=
  mkCharsets table table (_tables c).
Definition isSelected_table (c : CharsetMapping) (table : CharsetTable) (id : CharsetId) : bool :=
  bool_decide (_tables c table = id).
Definition isSelected (c : CharsetMapping) (id : CharsetId) : bool :=
  isSelected_table c (_tableForNextGraphic c) id.
Definition select_charset (c : CharsetMapping) (table : CharsetTable) (id : CharsetId) : CharsetMapping :=
  mkCharsets (_tableForNextGraphic c) (_selectedTable c)
    (fun t => if bool_decide (t = table) then id else _tables c t).

(** ** Texts *)

Fixpoint map_text (c : CharsetMapping) (codes : list Z) : option (list Z * CharsetMapping) :=
  match codes with
  | [] => Some ([], c)
  | code :: codes =>
      '(z, c) ← map_code c code;
      '(zs, c) ← map_text c codes;
      Some (z :: zs, c)
  end.

(** What a code maps to through a table. *)
Definition graphic (c : CharsetMapping) (table : CharsetTable) (code : Z) : Z :=
  if code <? 127 then default 0 (map_table c table code) else if code =? 127 then 0x20 else code.

Lemma charsetMap_length id : length (charsetMap id) = 127%nat.
Proof. by destruct id. Qed.

Lemma map_table_total c table code : 0 <= code < 127 -> exists z, map_table c table code = Some z.
Proof.
  intros Hc. unfold map_table, u8. rewrite Z.mod_small by lia.
  apply lookup_lt_is_Some_2. rewrite charsetMap_length. lia.
Qed.

Lemma map_code_graphic c code : 0 <= code ->
  map_code c code = Some (graphic c (_tableForNextGraphic c) code,
    if code <? 127 then mkCharsets (_selectedTable c) (_selectedTable c) (_tables c) else c).
Proof.
  intros Hc. unfold map_code, graphic. destruct (Z.ltb_spec code 127).
  - destruct (map_table_total c (_tableForNextGraphic c) code) as [z ->]; [lia|done].
  - by destruct (Z.eqb_spec code 127).
Qed.

Lemma map_text_locked c codes : Forall (fun z => 0 <= z) codes -> _tableForNextGraphic c = _selectedTable c ->
  map_text c codes = Some (graphic c (_selectedTable c) <$> codes, c).
Proof.
  intros Hc Hs. induction Hc as [|code codes Hz _ IH]; [done|].
  simpl. rewrite map_code_graphic by done. rewrite Hs.
  assert (Ec : (if code <? 127 then mkCharsets (_selectedTable c) (_selectedTable c) (_tables c) else c) = c)
    by (destruct (code <? 127), c; simpl in *; by subst).
  cbn [mbind option_bind]. by rewrite Ec, IH.
Qed.

(** A single shift holds for exactly one graphic character: after SS2 or
    SS3, non-ASCII characters keep it pending, the first code below DEL goes
    through the shifted table, and everything after it through the selected
    table again; the mapping never reads outside its tables. *)
Lemma single_shift_once c table high code rest :
  Forall (fun z => 127 <= z) high -> 0 <= code < 127 -> Forall (fun z => 0 <= z) rest ->
  map_text (singleShift c table) (high ++ code :: rest) =
    Some ((graphic c table <$> high) ++ graphic c table code :: (graphic c (_selectedTable c) <$> rest),
          lockingShift c (_selectedTable c)).
Proof.
  intros Hh Hc Hr. induction Hh as [|z high Hz _ IH].
  - simpl. rewrite map_code_graphic by lia. zbool. cbn [mbind option_bind singleShift _tableForNextGraphic].
    change (mkCharsets _ _ _) with (lockingShift c (_selectedTable c)).
    rewrite (map_text_locked (lockingShift c (_selectedTable c))) by done. done.
  - simpl. rewrite map_code_graphic by lia. zbool. cbn [mbind option_bind]. rewrite IH. done.
Qed.
