(* ===== verification/Screen.v ===== *)
(** * The screen: state, cursor motion, tabs and margins (src/vtbackend/Screen.h, Screen.cpp)

    A screen is a grid with a cursor, margins and tab stops.  The margins, the
    tab stops and the modes belong to the terminal and are part of the state
    here.  [_currentLine] is a pointer into the storage of the grid's ring,
    cached by [updateCursorIterator]; it is kept as a storage position, so that
    a stale pointer is visible.  Left out are notifications that do not come
    back to the screen (dirty regions, jump history, replies).

    The second half proves that every cursor operation keeps the cursor on the
    page, the margins sound and the cached pointer valid. *)
From stdpp Require Import sorting.
From S2P Require Import Prelude Parser Color Cell Ring Line Grid Charset.

(** ** State *)

Record Cursor := mkCursor {
  position : CellLocation;
  autoWrap : bool;
  originMode : bool;
  wrapPending : bool;
  graphicsRendition : GraphicsAttributes;
  charsets : CharsetMapping;
  c_hyperlink : HyperlinkId
}.
Definition Cursor_init : Cursor :=
  mkCursor (mkLoc 0 0) true false false Attrs_init CharsetMapping_init 0.
Definition set_position (c : Cursor) (p : CellLocation) : Cursor :=
  mkCursor p (autoWrap c) (originMode c) (wrapPending c) (graphicsRendition c) (charsets c) (c_hyperlink c).
Definition set_wrapPending (c : Cursor) (b : bool) : Cursor :=
  mkCursor (position c) (autoWrap c) (originMode c) b (graphicsRendition c) (charsets c) (c_hyperlink c).
Definition set_modes (c : Cursor) (wrap origin : bool) : Cursor :=
  mkCursor (position c) wrap origin (wrapPending c) (graphicsRendition c) (charsets c) (c_hyperlink c).
Definition set_rendition (c : Cursor) (a : GraphicsAttributes) : Cursor :=
  mkCursor (position c) (autoWrap c) (originMode c) (wrapPending c) a (charsets c) (c_hyperlink c).
Definition set_charsets (c : Cursor) (m : CharsetMapping) : Cursor :=
  mkCursor (position c) (autoWrap c) (originMode c) (wrapPending c) (graphicsRendition c) m (c_hyperlink c).

(** The DEC modes the screen asks the terminal about. *)
Inductive DECMode := AutoWrap | Origin | LeftRightMargin.
#[export] Instance DECMode_eq_dec : EqDecision DECMode.
Proof. solve_decision. Defined.

(** What the screen shares with its terminal. *)
Record TerminalState := mkTerm {
  tabs : list Z;
  modeEnabled : DECMode -> bool;
  modeFrozen : DECMode -> bool;
  automaticNewLine : bool;
  usingStdoutFastPipe : bool
}.
Definition set_tabs (t : TerminalState) (l : list Z) : TerminalState :=
  mkTerm l (modeEnabled t) (modeFrozen t) (automaticNewLine t) (usingStdoutFastPipe t).
Definition set_mode (t : TerminalState) (m : DECMode) (enable : bool) : TerminalState :=
  mkTerm (tabs t) (fun k => if bool_decide (k = m) then enable else modeEnabled t k) (modeFrozen t)
    (automaticNewLine t) (usingStdoutFastPipe t).

Record Screen (C : Type) := mkScreen {
  _cursor : Cursor;
  _savedCursor : Cursor;
  _margin : Margin;
  _grid : Grid C;
  _savedGraphicsRenditions : GraphicsAttributes;
  _lastCursorPosition : CellLocation;
  _currentLine : Z;
  _terminal : TerminalState
}.
Arguments mkScreen {C}.
Arguments _cursor {C}.
Arguments _savedCursor {C}.
Arguments _margin {C}.
Arguments _grid {C}.
Arguments _savedGraphicsRenditions {C}.
Arguments _lastCursorPosition {C}.
Arguments _currentLine {C}.
Arguments _terminal {C}.

Section Screen.
Context `{LibUnicode, UnicodeWidth, GraphemeSegmenter} `{CellConcept Cell}.
Abbreviation Screen := (Screen Cell).
Abbreviation Line := (Line Cell).
Implicit Types s : Screen.

Definition with_cursor s (c : Cursor) : Screen :=
  mkScreen c (_savedCursor s) (_margin s) (_grid s) (_savedGraphicsRenditions s) (_lastCursorPosition s)
    (_currentLine s) (_terminal s).
Definition with_saved s (c : Cursor) : Screen :=
  mkScreen (_cursor s) c (_margin s) (_grid s) (_savedGraphicsRenditions s) (_lastCursorPosition s)
    (_currentLine s) (_terminal s).
Definition with_margin s (m : Margin) : Screen :=
  mkScreen (_cursor s) (_savedCursor s) m (_grid s) (_savedGraphicsRenditions s) (_lastCursorPosition s)
    (_currentLine s) (_terminal s).
Definition with_grid s (g : Grid Cell) : Screen :=
  mkScreen (_cursor s) (_savedCursor s) (_margin s) g (_savedGraphicsRenditions s) (_lastCursorPosition s)
    (_currentLine s) (_terminal s).
Definition with_savedRendition s (a : GraphicsAttributes) : Screen :=
  mkScreen (_cursor s) (_savedCursor s) (_margin s) (_grid s) a (_lastCursorPosition s)
    (_currentLine s) (_terminal s).
Definition with_last s (p : CellLocation) : Screen :=
  mkScreen (_cursor s) (_savedCursor s) (_margin s) (_grid s) (_savedGraphicsRenditions s) p
    (_currentLine s) (_terminal s).
Definition with_terminal s (t : TerminalState) : Screen :=
  mkScreen (_cursor s) (_savedCursor s) (_margin s) (_grid s) (_savedGraphicsRenditions s)
    (_lastCursorPosition s) (_currentLine s) t.

(** [_currentLine = &_grid.lineAt(_cursor.position.line)]. *)
Definition updateCursorIterator s : Screen :=
  mkScreen (_cursor s) (_savedCursor s) (_margin s) (_grid s) (_savedGraphicsRenditions s)
    (_lastCursorPosition s) (index (_lines (_grid s)) (line (position (_cursor s)))) (_terminal s).

Definition pageSize s : PageSize := _pageSize (_grid s).
Definition cursor_line s : Z := line (position (_cursor s)).
Definition cursor_column s : Z := column (position (_cursor s)).
Definition set_line s (y : Z) : Screen :=
  with_cursor s (set_position (_cursor s) (mkLoc y (cursor_column s))).
Definition set_column s (x : Z) : Screen :=
  with_cursor s (set_position (_cursor s) (mkLoc (cursor_line s) x)).
Definition set_pending s (b : bool) : Screen := with_cursor s (set_wrapPending (_cursor s) b).

(** The constructor, for a terminal whose margins are the page. *)
Definition full_margin (p : PageSize) : Margin := mkMargin (mkRange 0 (lines p - 1)) (mkRange 0 (columns p - 1)).
Definition Screen_make (p : PageSize) (reflow : bool) (limit : MaxHistoryLineCount) (t : TerminalState) : Screen :=
  updateCursorIterator
    (mkScreen Cursor_init Cursor_init (full_margin p) (Grid_make p reflow limit) Attrs_init (mkLoc 0 0) 0 t).

(** ** Coordinates *)

Definition clamp (v lo hi : Z) : Z := if v <? lo then lo else if hi <? v then hi else v.

Definition isFullHorizontalMargins s : bool := to (horizontal (_margin s)) + 1 =? columns (pageSize s).
Definition isCursorInsideMargins s : bool :=
  range_contains (vertical (_margin s)) (cursor_line s) &&
  (negb (modeEnabled (_terminal s) LeftRightMargin) || range_contains (horizontal (_margin s)) (cursor_column s)).
Definition realCursorPosition s : CellLocation := position (_cursor s).
Definition origin s : CellLocation :=
  if originMode (_cursor s) then mkLoc (from (vertical (_margin s))) (from (horizontal (_margin s)))
  else mkLoc 0 0.
Definition logicalCursorPosition s : CellLocation :=
  if originMode (_cursor s)
  then mkLoc (cursor_line s - from (vertical (_margin s))) (cursor_column s - from (horizontal (_margin s)))
  else realCursorPosition s.
Definition toRealCoordinate s (p : CellLocation) : CellLocation :=
  if originMode (_cursor s)
  then mkLoc (line p + from (vertical (_margin s))) (column p + from (horizontal (_margin s)))
  else p.
Definition clampedLine s (y : Z) : Z := clamp y 0 (lines (pageSize s) - 1).
Definition clampedColumn s (x : Z) : Z := clamp x 0 (columns (pageSize s) - 1).
Definition clampToScreen s (p : CellLocation) : CellLocation :=
  mkLoc (clampedLine s (line p)) (clampedColumn s (column p)).
Definition clampToOrigin s (p : CellLocation) : CellLocation :=
  mkLoc (clamp (line p) 0 (to (vertical (_margin s)))) (clamp (column p) 0 (to (horizontal (_margin s)))).
Definition clampCoordinate s (p : CellLocation) : CellLocation :=
  if originMode (_cursor s) then clampToOrigin s p else clampToScreen s p.

(** [verifyState]: [false] aborts. *)
Definition screen_verifyState s : bool :=
  (cursor_column s <? columns (pageSize s)) && (cursor_line s <? lines (pageSize s)) &&
  bool_decide (realCursorPosition s = clampToScreen s (realCursorPosition s)) && verifyState (_grid s).

(** ** Cursor motion *)

Definition moveCursorTo s (y x : Z) : Screen :=
  let p := toRealCoordinate s (mkLoc y x) in
  let s := set_pending s false in
  updateCursorIterator (with_cursor s (set_position (_cursor s) (clampToScreen s p))).

Definition setCurrentColumn s (n : Z) : Screen :=
  let col := if originMode (_cursor s) then from (horizontal (_margin s)) + n else n in
  let clampedCol := Z.min col (columns (pageSize s) - 1) in
  set_column (set_pending s false) clampedCol.
Definition moveCursorToColumn s (x : Z) : Screen := setCurrentColumn s x.
Definition moveCursorToBeginOfLine s : Screen := setCurrentColumn s 0.
Definition moveCursorToLine s (y : Z) : Screen := moveCursorTo s y (cursor_column s).
Definition moveCursorToNextLine s (n : Z) : Screen := moveCursorTo s (line (logicalCursorPosition s) + n) 0.
Definition moveCursorToPrevLine s (n : Z) : Screen :=
  let sanitizedN := Z.min n (line (logicalCursorPosition s)) in
  moveCursorTo s (line (logicalCursorPosition s) - sanitizedN) 0.

(** The new line when moving vertically: margins confine a cursor inside them. *)
Definition vertical_target s (y : Z) : Z :=
  if range_contains (vertical (_margin s)) (cursor_line s)
  then range_clamp (vertical (_margin s)) y else clampedLine s y.
Definition moveCursorUp s (n : Z) : Screen :=
  updateCursorIterator (set_line (set_pending s false) (vertical_target s (cursor_line s - n))).
Definition moveCursorDown s (n : Z) : Screen :=
  updateCursorIterator (set_line (set_pending s false) (vertical_target s (cursor_line s + n))).
Definition moveCursorForward s (n : Z) : Screen :=
  let x :=
    if range_contains (horizontal (_margin s)) (cursor_column s)
    then range_clamp (horizontal (_margin s)) (cursor_column s + n)
    else clampedColumn s (cursor_column s + n) in
  set_pending (set_column s x) false.
(** Outside the margins the code adds [n], too. *)
Definition moveCursorBackward s (n : Z) : Screen :=
  let x :=
    if range_contains (horizontal (_margin s)) (cursor_column s)
    then range_clamp (horizontal (_margin s)) (cursor_column s - n)
    else clampedColumn s (cursor_column s + n) in
  set_pending (set_column s x) false.
Definition backspace s : Screen :=
  if negb (cursor_column s =? 0) then set_column s (cursor_column s - 1) else s.

(** ** Scrolling *)

Definition screen_scrollUp s (n : Z) (a : GraphicsAttributes) (m : Margin) : option Screen :=
  '(g, _) ← scrollUp_margin (_grid s) n a m;
  Some (updateCursorIterator (with_grid s g)).
Definition scrollUp_here s (n : Z) : option Screen :=
  screen_scrollUp s n (graphicsRendition (_cursor s)) (_margin s).
Definition screen_scrollDown s (n : Z) (m : Margin) : option Screen :=
  g ← scrollDown (_grid s) n (graphicsRendition (_cursor s)) m;
  Some (updateCursorIterator (with_grid s g)).

(** [linefeed(newColumn)]. *)
Definition linefeed_to s (newColumn : Z) : option Screen :=
  let s := set_column (set_pending s false) newColumn in
  if cursor_line s =? to (vertical (_margin s)) then
    screen_scrollUp s 1 (graphicsRendition (_cursor s)) (_margin s)
  else Some (updateCursorIterator (set_line s (cursor_line s + 1))).
Definition crlf s : option Screen := linefeed_to s (from (horizontal (_margin s))).
Definition linefeed s : option Screen :=
  linefeed_to s (if usingStdoutFastPipe (_terminal s) || automaticNewLine (_terminal s)
                 then from (horizontal (_margin s)) else cursor_column s).
Definition screen_index s : option Screen :=
  if cursor_line s =? to (vertical (_margin s)) then scrollUp_here s 1 else Some (moveCursorDown s 1).
Definition reverseIndex s : option Screen :=
  if cursor_line s =? from (vertical (_margin s)) then screen_scrollDown s 1 (_margin s)
  else Some (moveCursorUp s 1).
(** The left margin is not scrolled yet; otherwise the cursor moves forward. *)
Definition backIndex s : Screen :=
  if cursor_column s =? from (horizontal (_margin s)) then s else moveCursorForward s 1.
Definition forwardIndex s : option Screen :=
  if cursor_column s =? to (horizontal (_margin s)) then
    g ← scrollLeft (_grid s) Attrs_init (_margin s); Some (with_grid s g)
  else Some (moveCursorForward s 1).

(** ** Tab stops *)

Definition TabWidth : Z := 8.
Definition screen_tabs s : list Z := tabs (_terminal s).
Definition with_tabs s (l : list Z) : Screen := with_terminal s (set_tabs (_terminal s) l).

Definition clearAllTabs s : Screen := with_tabs s [].
(** The default stops [7, 15, ...] as the loop over the columns adds them. *)
Fixpoint default_tabs (fuel : nat) (column columns : Z) : list Z :=
  match fuel with
  | O => []
  | S fuel =>
      if column <? columns then (column - 1) :: default_tabs fuel (column + TabWidth) columns else []
  end.
Fixpoint erase_first (x : Z) (l : list Z) : list Z :=
  match l with
  | [] => []
  | y :: l => if y =? x then l else y :: erase_first x l
  end.
Definition clearTabUnderCursor s : Screen :=
  let l := if bool_decide (screen_tabs s = [])
           then default_tabs (Z.to_nat (columns (pageSize s))) TabWidth (columns (pageSize s))
           else screen_tabs s in
  with_tabs s (erase_first (cursor_column s) l).
(** [emplace_back] and [sort]. *)
Definition setTabUnderCursor s : Screen :=
  with_tabs s (merge_sort Z.le (screen_tabs s ++ [cursor_column s])).

(** The first tab stop behind the cursor, by position in the vector. *)
Definition next_tab (col : Z) (l : list Z) : option Z := List.find (fun t => negb (t <=? col)) l.
Definition moveCursorToNextTab s : Screen :=
  let logical := column (logicalCursorPosition s) in
  if negb (bool_decide (screen_tabs s = [])) then
    match next_tab (cursor_column s) (screen_tabs s) with
    | Some t => moveCursorForward s (t - logical)
    | None =>
        if cursor_column s <? to (horizontal (_margin s))
        then moveCursorForward s (to (horizontal (_margin s)) - logical) else s
    end
  else if cursor_column s <? to (horizontal (_margin s)) then
    moveCursorForward s (Z.min (TabWidth - Z.rem (cursor_column s) TabWidth) (columns (pageSize s) - logical))
  else s.
Definition cursorForwardTab s (count : Z) : Screen := Nat.iter (Z.to_nat count) moveCursorToNextTab s.

(** The loop over the tab stops to the left. *)
Fixpoint backward_tabs s (k : nat) : Screen :=
  match k with
  | O => s
  | S k =>
      match List.find (fun t => t <? column (logicalCursorPosition s)) (reverse (screen_tabs s)) with
      | Some t => backward_tabs (moveCursorToColumn s t) k
      | None => moveCursorToColumn s (from (horizontal (_margin s)))
      end
  end.
Definition cursorBackwardTab s (count : Z) : Screen :=
  if count =? 0 then s
  else if negb (bool_decide (screen_tabs s = [])) then backward_tabs s (Z.to_nat count)
  else if cursor_column s <? TabWidth then moveCursorToBeginOfLine s
  else
    let m := Z.rem (cursor_column s + 1) TabWidth in
    let n := if negb (m =? 0) then (count - 1) * TabWidth + m else count * TabWidth + m in
    moveCursorBackward s (n - 1).

Inductive HorizontalTabClear := AllTabs | UnderCursor.
Definition horizontalTabClear s (which : HorizontalTabClear) : Screen :=
  match which with AllTabs => clearAllTabs s | UnderCursor => clearTabUnderCursor s end.
Definition horizontalTabSet s : Screen := setTabUnderCursor s.

(** ** Margins (Terminal.cpp) *)

Definition setTopBottomMargin s (top bottom : option Z) : Screen :=
  let defaultBottom := lines (pageSize s) - 1 in
  let sanitizedTop := Z.max 0 (default 0 top) in
  let sanitizedBottom := Z.min defaultBottom (default defaultBottom bottom) in
  if sanitizedTop <? sanitizedBottom
  then with_margin s (mkMargin (mkRange sanitizedTop sanitizedBottom) (horizontal (_margin s))) else s.
Definition setLeftRightMargin s (left right : option Z) : Screen :=
  let defaultRight := columns (pageSize s) - 1 in
  let sanitizedRight := Z.min (default defaultRight right) defaultRight in
  let sanitizedLeft := Z.max (default 0 left) 0 in
  if sanitizedLeft <? sanitizedRight
  then with_margin s (mkMargin (vertical (_margin s)) (mkRange sanitizedLeft sanitizedRight)) else s.

(** [Terminal::setMode] for the modes the cursor carries, and DECLRMM, whose
    reset restores the horizontal margins. *)
Definition screen_setMode s (m : DECMode) (enable : bool) : Screen :=
  if modeFrozen (_terminal s) m then s
  else
    let s :=
      match m with
      | AutoWrap => with_cursor s (set_modes (_cursor s) enable (originMode (_cursor s)))
      | Origin => with_cursor s (set_modes (_cursor s) (autoWrap (_cursor s)) enable)
      | LeftRightMargin =>
          if enable then s
          else with_margin s (mkMargin (vertical (_margin s)) (mkRange 0 (columns (pageSize s) - 1)))
      end in
    with_terminal s (set_mode (_terminal s) m enable).

(** ** Saving and restoring *)

Definition saveCursor s : Screen := with_saved s (_cursor s).
(** [None] if the state does not verify. *)
Definition restoreCursor_from s (saved : Cursor) : option Screen :=
  let s := with_cursor s saved in
  let s := with_cursor s (set_position (_cursor s) (clampCoordinate s (position saved))) in
  let s := screen_setMode s AutoWrap (autoWrap saved) in
  let s := screen_setMode s Origin (originMode saved) in
  let s := updateCursorIterator s in
  if screen_verifyState s then Some s else None.
Definition restoreCursor s : option Screen := restoreCursor_from s (_savedCursor s).
Definition saveGraphicsRendition s : Screen := with_savedRendition s (graphicsRendition (_cursor s)).
Definition restoreGraphicsRendition s : Screen :=
  with_cursor s (set_rendition (_cursor s) (_savedGraphicsRenditions s)).
Definition designateCharset s (table : CharsetTable) (id : CharsetId) : Screen :=
  with_cursor s (set_charsets (_cursor s) (select_charset (charsets (_cursor s)) table id)).
Definition singleShiftSelect s (table : CharsetTable) : Screen :=
  with_cursor s (set_charsets (_cursor s) (singleShift (charsets (_cursor s)) table)).

(** [hardReset] and [applyPageSizeToMainDisplay]. *)
Definition screen_hardReset s : option Screen :=
  g ← grid_reset (_grid s);
  Some (updateCursorIterator (with_last (with_cursor (with_grid s g) Cursor_init) (mkLoc 0 0))).
Definition applyPageSizeToMainDisplay s (p : PageSize) : option Screen :=
  '(g, pos) ← grid_resize (_grid s) p (realCursorPosition s) (wrapPending (_cursor s));
  let s' := with_grid s g in
  let pos := clampCoordinate s' pos in
  let s' := with_margin s' (full_margin p) in
  let s' := if cursor_column s' <? columns p then set_pending s' false else s' in
  let s' := with_last (with_cursor s' (set_position (_cursor s') pos)) pos in
  let s' := updateCursorIterator s' in
  if screen_verifyState s' then Some s' else None.

(** [reportCursorPosition]: the two numbers of the reply. *)
Definition reportCursorPosition s : Z * Z :=
  (line (logicalCursorPosition s) + 1, column (logicalCursorPosition s) + 1).

(** ** The invariant *)

Definition range_ok (r : Range) (n : Z) : Prop := 0 <= from r <= to r /\ to r < n.

(** The cursor is on the page, the margins lie inside it, the tab stops are
    sorted, and the cached line is the cursor's line. *)
Record screen_ok s : Prop := {
  ok_grid : grid_ok (_grid s) /\ verifyState (_grid s) = true;
  ok_line : 0 <= cursor_line s < lines (pageSize s);
  ok_column : 0 <= cursor_column s < columns (pageSize s);
  ok_vertical : range_ok (vertical (_margin s)) (lines (pageSize s));
  ok_horizontal : range_ok (horizontal (_margin s)) (columns (pageSize s));
  ok_tabs : Sorted Z.le (screen_tabs s) /\ Forall (fun t => 0 <= t < columns (pageSize s)) (screen_tabs s);
  ok_current : _currentLine s = index (_lines (_grid s)) (cursor_line s)
}.

(** The cursor operations, by their sequences. *)
Inductive Motion :=
| CUP (y x : Z) | CUU (n : Z) | CUD (n : Z) | CUF (n : Z) | CUB (n : Z) | CHA (x : Z) | VPA (y : Z)
| CNL (n : Z) | CPL (n : Z) | CR | BS | HT | CHT (n : Z) | CBT (n : Z) | HTS | TBC (w : HorizontalTabClear)
| DECSTBM (top bottom : option Z) | DECSLRM (left right : option Z) | MODE (m : DECMode) (enable : bool)
| DECSC | DECRC | SCS (t : CharsetTable) (id : CharsetId) | SS (t : CharsetTable) | SGRSAVE | SGRRESTORE
| DECBI.

(** The parameters [Screen::apply] passes: counts are not negative, and so are
    the columns (lines may be, they are clamped). *)
Definition motion_ok (m : Motion) : Prop :=
  match m with
  | CUU n | CUD n | CUF n | CUB n | CHA n | CNL n | CPL n | CHT n | CBT n => 0 <= n
  | _ => True
  end.

Definition run_motion s (m : Motion) : option Screen :=
  match m with
  | CUP y x => Some (moveCursorTo s y x)
  | CUU n => Some (moveCursorUp s n)
  | CUD n => Some (moveCursorDown s n)
  | CUF n => Some (moveCursorForward s n)
  | CUB n => Some (moveCursorBackward s n)
  | CHA x => Some (moveCursorToColumn s x)
  | VPA y => Some (moveCursorToLine s y)
  | CNL n => Some (moveCursorToNextLine s n)
  | CPL n => Some (moveCursorToPrevLine s n)
  | CR => Some (moveCursorToBeginOfLine s)
  | BS => Some (backspace s)
  | HT => Some (moveCursorToNextTab s)
  | CHT n => Some (cursorForwardTab s n)
  | CBT n => Some (cursorBackwardTab s n)
  | HTS => Some (horizontalTabSet s)
  | TBC w => Some (horizontalTabClear s w)
  | DECSTBM t b => Some (moveCursorTo (setTopBottomMargin s t b) 0 0)
  | DECSLRM l r => Some (moveCursorTo (setLeftRightMargin s l r) 0 0)
  | MODE m b => Some (screen_setMode s m b)
  | DECSC => Some (saveCursor s)
  | DECRC => restoreCursor s
  | SCS t id => Some (designateCharset s t id)
  | SS t => Some (singleShiftSelect s t)
  | SGRSAVE => Some (saveGraphicsRendition s)
  | SGRRESTORE => Some (restoreGraphicsRendition s)
  | DECBI => Some (backIndex s)
  end.

Lemma clamp_range v lo hi : lo <= hi -> lo <= clamp v lo hi <= hi.
Proof. unfold clamp. intros. destruct (Z.ltb_spec v lo), (Z.ltb_spec hi v); lia. Qed.

Lemma range_clamp_range r n v : range_ok r n -> from r <= range_clamp r v <= to r.
Proof. intros [? ?]. unfold range_clamp. destruct (Z.ltb_spec v (from r)), (Z.ltb_spec (to r) v); lia. Qed.

(** Changing the cursor but not its position. *)
Lemma ok_with_cursor s c : screen_ok s -> position c = position (_cursor s) -> screen_ok (with_cursor s c).
Proof.
  intros [] E. split; unfold cursor_line, cursor_column, screen_tabs, pageSize in *; simpl; by rewrite ?E.
Qed.

Lemma ok_set_column s x : screen_ok s -> 0 <= x < columns (pageSize s) -> screen_ok (set_column s x).
Proof. intros [] Hx. by split. Qed.

Lemma ok_set_pending s b : screen_ok s -> screen_ok (set_pending s b).
Proof. intros Hs. by apply ok_with_cursor. Qed.

(** Placing the cursor and caching its line. *)
Lemma ok_place s c : screen_ok s -> 0 <= line (position c) < lines (pageSize s) ->
  0 <= column (position c) < columns (pageSize s) -> screen_ok (updateCursorIterator (with_cursor s c)).
Proof. intros [] Hl Hc. by split. Qed.

Lemma ok_with_tabs s l : screen_ok s -> Sorted Z.le l -> Forall (fun t => 0 <= t < columns (pageSize s)) l ->
  screen_ok (with_tabs s l).
Proof. intros [] Hl Hc. by split. Qed.

Lemma ok_with_margin s m : screen_ok s -> range_ok (vertical m) (lines (pageSize s)) ->
  range_ok (horizontal m) (columns (pageSize s)) -> screen_ok (with_margin s m).
Proof. intros [] Hl Hc. by split. Qed.

Hint Resolve ok_with_cursor ok_set_pending ok_set_column ok_with_tabs ok_with_margin : vt.

Lemma clamped_ok s p : screen_ok s ->
  0 <= clampedLine s (line p) < lines (pageSize s) /\ 0 <= clampedColumn s (column p) < columns (pageSize s).
Proof.
  intros Hs. destruct (ok_line s Hs), (ok_column s Hs). unfold clampedLine, clampedColumn.
  pose proof (clamp_range (line p) 0 (lines (pageSize s) - 1)).
  pose proof (clamp_range (column p) 0 (columns (pageSize s) - 1)). lia.
Qed.

Lemma ok_moveCursorTo s y x : screen_ok s -> screen_ok (moveCursorTo s y x).
Proof.
  intros Hs. unfold moveCursorTo. cbv zeta.
  destruct (clamped_ok s (toRealCoordinate s (mkLoc y x)) Hs) as [Hl Hc].
  by apply ok_place; [apply ok_set_pending| |].
Qed.

Lemma ok_setCurrentColumn s n : screen_ok s -> 0 <= n -> screen_ok (setCurrentColumn s n).
Proof.
  intros Hs Hn. apply ok_set_column; [by apply ok_set_pending|].
  destruct (ok_horizontal s Hs), (ok_column s Hs). unfold pageSize in *. simpl.
  destruct (originMode (_cursor s)); lia.
Qed.

Lemma ok_vertical_move s y : screen_ok s ->
  screen_ok (updateCursorIterator (set_line (set_pending s false) (vertical_target s y))).
Proof.
  intros Hs. apply ok_place; [by apply ok_set_pending| |exact (ok_column s Hs)].
  unfold vertical_target. simpl. destruct (range_contains _ _).
  - pose proof (range_clamp_range _ _ y (ok_vertical s Hs)). destruct (ok_vertical s Hs).
    unfold pageSize in *. simpl. lia.
  - apply (clamped_ok s (mkLoc y 0) Hs).
Qed.

Lemma ok_horizontal_move s x1 x2 : screen_ok s ->
  screen_ok (set_pending (set_column s
    (if range_contains (horizontal (_margin s)) (cursor_column s)
     then range_clamp (horizontal (_margin s)) x1 else clampedColumn s x2)) false).
Proof.
  intros Hs. apply ok_set_pending, ok_set_column; [done|]. destruct (range_contains _ _).
  - pose proof (range_clamp_range _ _ x1 (ok_horizontal s Hs)). destruct (ok_horizontal s Hs). lia.
  - apply (clamped_ok s (mkLoc 0 x2) Hs).
Qed.

Lemma ok_backspace s : screen_ok s -> screen_ok (backspace s).
Proof.
  intros Hs. unfold backspace. destruct (Z.eqb_spec (cursor_column s) 0); [done|].
  destruct (ok_column s Hs). apply ok_set_column; [done|lia].
Qed.

Lemma ok_moveCursorToNextTab s : screen_ok s -> screen_ok (moveCursorToNextTab s).
Proof.
  intros Hs. unfold moveCursorToNextTab. cbv zeta.
  repeat case_match; try done; by apply ok_horizontal_move.
Qed.

Lemma ok_cursorForwardTab s n : screen_ok s -> screen_ok (cursorForwardTab s n).
Proof.
  intros Hs. unfold cursorForwardTab. induction (Z.to_nat n) as [|k IH]; [done|].
  rewrite Nat.iter_succ. by apply ok_moveCursorToNextTab.
Qed.

Lemma ok_backward_tabs s k : screen_ok s -> screen_ok (backward_tabs s k).
Proof.
  revert s. induction k as [|k IH]; intros s Hs; [done|]. simpl.
  destruct (List.find _ _) as [t|] eqn:E.
  - apply IH, ok_setCurrentColumn; [done|]. apply find_some in E as [Hin _].
    apply list_elem_of_In, elem_of_reverse in Hin. rewrite ?reverse_involutive in Hin.
    apply (proj1 (Forall_forall _ _) (proj2 (ok_tabs s Hs))) in Hin. lia.
  - apply ok_setCurrentColumn; [done|]. apply (ok_horizontal s Hs).
Qed.

Lemma ok_cursorBackwardTab s n : screen_ok s -> screen_ok (cursorBackwardTab s n).
Proof.
  intros Hs. unfold cursorBackwardTab. cbv zeta. repeat case_match; try done.
  - by apply ok_backward_tabs.
  - by apply ok_setCurrentColumn.
  - by apply ok_horizontal_move.
  - by apply ok_horizontal_move.
Qed.

Lemma default_tabs_ok fuel c cols : 1 <= c ->
  Forall (fun t => c - 1 <= t < cols - 1) (default_tabs fuel c cols) /\ Sorted Z.le (default_tabs fuel c cols).
Proof.
  revert c. induction fuel as [|fuel IH]; intros c Hc; simpl; [by repeat constructor|].
  destruct (Z.ltb_spec c cols); [|by repeat constructor].
  destruct (IH (c + TabWidth)) as [Hf Hs]; [unfold TabWidth; lia|]. split.
  - constructor; [lia|]. eapply Forall_impl; [exact Hf|]. unfold TabWidth. simpl. lia.
  - constructor; [done|]. destruct Hf; constructor. unfold TabWidth in *. lia.
Qed.

Lemma erase_first_Forall (P : Z -> Prop) x l : Forall P l -> Forall P (erase_first x l).
Proof. induction 1 as [|y l Hy Hl IH]; simpl; [constructor|]. destruct (y =? x); [done|by constructor]. Qed.

Lemma erase_first_sorted x l : Sorted Z.le l -> Sorted Z.le (erase_first x l).
Proof.
  intros Hl. apply StronglySorted_Sorted. apply Sorted_StronglySorted in Hl; [|intros ???; lia].
  induction Hl as [|y l Hl IH Hy]; simpl; [constructor|]. destruct (y =? x); [done|].
  constructor; [done|by apply erase_first_Forall].
Qed.

Lemma ok_horizontalTabClear s w : screen_ok s -> screen_ok (horizontalTabClear s w).
Proof.
  intros Hs. destruct w; simpl; [by apply ok_with_tabs; [|apply Sorted_nil|apply Forall_nil]|].
  unfold clearTabUnderCursor. cbv zeta. set (l := if bool_decide _ then _ else _).
  assert (Hl : Sorted Z.le l /\ Forall (fun t => 0 <= t < columns (pageSize s)) l).
  { unfold l. case_bool_decide; [|exact (ok_tabs s Hs)].
    destruct (default_tabs_ok (Z.to_nat (columns (pageSize s))) TabWidth (columns (pageSize s))) as [Hf Ht];
      [unfold TabWidth; lia|]. split; [done|]. eapply Forall_impl; [exact Hf|]. unfold TabWidth. simpl. lia. }
  destruct Hl. apply ok_with_tabs; [done|by apply erase_first_sorted|by apply erase_first_Forall].
Qed.

Lemma ok_setTabUnderCursor s : screen_ok s -> screen_ok (setTabUnderCursor s).
Proof.
  intros Hs. apply ok_with_tabs; [done|apply Sorted_merge_sort; intros ??; lia|].
  rewrite merge_sort_Permutation. apply Forall_app. split; [apply (ok_tabs s Hs)|].
  apply Forall_singleton, (ok_column s Hs).
Qed.

Lemma ok_setTopBottomMargin s t b : screen_ok s -> screen_ok (setTopBottomMargin s t b).
Proof.
  intros Hs. unfold setTopBottomMargin. cbv zeta. destruct (Z.ltb_spec (Z.max 0 (default 0 t))
    (Z.min (lines (pageSize s) - 1) (default (lines (pageSize s) - 1) b))); [|done].
  apply ok_with_margin; [done| |exact (ok_horizontal s Hs)]. split; simpl; lia.
Qed.

Lemma ok_setLeftRightMargin s l r : screen_ok s -> screen_ok (setLeftRightMargin s l r).
Proof.
  intros Hs. unfold setLeftRightMargin. cbv zeta. destruct (Z.ltb_spec (Z.max (default 0 l) 0)
    (Z.min (default (columns (pageSize s) - 1) r) (columns (pageSize s) - 1))); [|done].
  apply ok_with_margin; [done|exact (ok_vertical s Hs)|]. split; simpl; lia.
Qed.

Lemma ok_screen_setMode s m b : screen_ok s -> screen_ok (screen_setMode s m b).
Proof.
  intros Hs. unfold screen_setMode. destruct (modeFrozen _ _); [done|].
  assert (Hw : forall s' : Screen, screen_ok s' -> screen_ok (with_terminal s' (set_mode (_terminal s') m b))).
  { intros s' []. by split. }
  apply Hw. destruct m; [by apply ok_with_cursor..|]. destruct b; [done|].
  apply ok_with_margin; [done|exact (ok_vertical s Hs)|]. destruct (ok_column s Hs). split; simpl; lia.
Qed.

Lemma screen_setMode_frame s m b :
  _grid (screen_setMode s m b) = _grid s /\ position (_cursor (screen_setMode s m b)) = position (_cursor s).
Proof. unfold screen_setMode. destruct (modeFrozen _ _), m, b; done. Qed.

Lemma ok_verifies s : screen_ok s -> screen_verifyState s = true.
Proof.
  intros Hs. destruct (ok_line s Hs), (ok_column s Hs). unfold screen_verifyState. zbool. simpl.
  rewrite (proj2 (ok_grid s Hs)), andb_true_r. apply bool_decide_eq_true_2.
  unfold clampToScreen, clampedLine, clampedColumn, clamp, realCursorPosition.
  fold (cursor_line s) (cursor_column s). zbool. unfold cursor_line, cursor_column. by destruct (position _).
Qed.

Lemma ok_restoreCursor s saved : screen_ok s ->
  exists s', restoreCursor_from s saved = Some s' /\ screen_ok s' /\ _grid s' = _grid s.
Proof.
  intros Hs. unfold restoreCursor_from. cbv zeta.
  set (p := clampCoordinate _ _). set (s1 := with_cursor (with_cursor s saved) _).
  assert (Hp : 0 <= line p < lines (pageSize s) /\ 0 <= column p < columns (pageSize s)).
  { destruct (ok_vertical s Hs), (ok_horizontal s Hs). unfold p, clampCoordinate, clampToOrigin. simpl.
    pose proof (clamp_range (line (position saved)) 0 (to (vertical (_margin s)))).
    pose proof (clamp_range (column (position saved)) 0 (to (horizontal (_margin s)))).
    destruct (originMode saved); [simpl; lia|]. apply (clamped_ok s (position saved) Hs). }
  set (s2 := screen_setMode s1 AutoWrap _). set (s3 := screen_setMode s2 Origin _).
  assert (H3 : screen_ok (updateCursorIterator s3)).
  { assert (H1' : screen_ok (updateCursorIterator s1)) by (apply (ok_place s (set_position saved p)); [done|apply Hp..]).
    assert (H3' : screen_ok (screen_setMode (screen_setMode (updateCursorIterator s1) AutoWrap (autoWrap saved))
                               Origin (originMode saved))) by (by do 2 apply ok_screen_setMode).
    replace (updateCursorIterator s3) with
      (screen_setMode (screen_setMode (updateCursorIterator s1) AutoWrap (autoWrap saved)) Origin (originMode saved));
      [done|]. unfold s3, s2, screen_setMode.
    destruct (modeFrozen (_terminal s1) AutoWrap) eqn:F1, (modeFrozen (_terminal s1) Origin) eqn:F2;
      simpl in *; rewrite ?F1, ?F2; simpl; rewrite ?F2; done. }
  rewrite (ok_verifies _ H3). eexists. split; [done|]. split; [done|].
  simpl. destruct (screen_setMode_frame s1 AutoWrap (autoWrap saved)) as [G2 _].
  destruct (screen_setMode_frame s2 Origin (originMode saved)) as [G3 _]. unfold s3. rewrite G3. exact G2.
Qed.

(** Grid and saved cursor stay. *)
Definition framed s s' : Prop := _grid s' = _grid s /\ _savedCursor s' = _savedCursor s.

Lemma framed_trans s1 s2 s3 : framed s1 s2 -> framed s2 s3 -> framed s1 s3.
Proof. unfold framed. intros [] []. split; congruence. Qed.

Lemma framed_moveCursorToNextTab s : framed s (moveCursorToNextTab s).
Proof. unfold moveCursorToNextTab. cbv zeta. by repeat case_match. Qed.

Lemma framed_cursorForwardTab s n : framed s (cursorForwardTab s n).
Proof.
  unfold cursorForwardTab. induction (Z.to_nat n) as [|k IH]; [done|].
  rewrite Nat.iter_succ. by eapply framed_trans; [|apply framed_moveCursorToNextTab].
Qed.

Lemma framed_backward_tabs s k : framed s (backward_tabs s k).
Proof.
  revert s. induction k as [|k IH]; intros s; [done|]. simpl.
  destruct (List.find _ _); [|done]. by eapply framed_trans; [|apply IH].
Qed.

Lemma framed_cursorBackwardTab s n : framed s (cursorBackwardTab s n).
Proof.
  unfold cursorBackwardTab. cbv zeta. destruct (n =? 0); [done|].
  case_bool_decide; simpl; [|apply framed_backward_tabs]. by repeat case_match.
Qed.

Lemma framed_screen_setMode s m b : framed s (screen_setMode s m b).
Proof. unfold screen_setMode. by repeat case_match. Qed.

Lemma framed_margins s a b :
  framed s (moveCursorTo (setTopBottomMargin s a b) 0 0) /\
  framed s (moveCursorTo (setLeftRightMargin s a b) 0 0).
Proof. unfold setTopBottomMargin, setLeftRightMargin. cbv zeta. split; by case_match. Qed.

Lemma framed_restoreCursor s c s' : restoreCursor_from s c = Some s' -> framed s s'.
Proof.
  unfold restoreCursor_from. cbv zeta. destruct (screen_verifyState _); [|done]. intros [= <-].
  eapply framed_trans; [|eapply framed_trans; [|apply framed_screen_setMode]]; [|done].
  by eapply framed_trans; [|apply framed_screen_setMode].
Qed.

(** One operation: it returns, keeps the invariant and the grid, and only
    DECSC changes the saved cursor. *)
Lemma motion_step s m : screen_ok s -> motion_ok m ->
  exists s', run_motion s m = Some s' /\ screen_ok s' /\ _grid s' = _grid s /\
    (m <> DECSC -> _savedCursor s' = _savedCursor s).
Proof.
  intros Hs Hm.
  assert (Hdone : forall s', run_motion s m = Some s' -> screen_ok s' -> framed s s' ->
    exists s', run_motion s m = Some s' /\ screen_ok s' /\ _grid s' = _grid s /\
      (m <> DECSC -> _savedCursor s' = _savedCursor s)) by (intros s' ? ? []; by exists s').
  destruct m; simpl in Hm;
    lazymatch goal with
    | |- context [run_motion _ DECSC] => idtac
    | _ => try (eapply Hdone; [reflexivity|..]; clear Hdone)
    end.
  all: try (by apply ok_moveCursorTo || by apply ok_vertical_move || by apply ok_horizontal_move
         || by apply ok_setCurrentColumn || by apply ok_with_cursor).
  all: try done.
  - by apply ok_backspace.
  - unfold backspace. by case_match.
  - by apply ok_moveCursorToNextTab.
  - apply framed_moveCursorToNextTab.
  - by apply ok_cursorForwardTab.
  - apply framed_cursorForwardTab.
  - by apply ok_cursorBackwardTab.
  - apply framed_cursorBackwardTab.
  - by apply ok_setTabUnderCursor.
  - by apply ok_horizontalTabClear.
  - by destruct w.
  - by apply ok_moveCursorTo, ok_setTopBottomMargin.
  - apply framed_margins.
  - by apply ok_moveCursorTo, ok_setLeftRightMargin.
  - apply framed_margins.
  - by apply ok_screen_setMode.
  - apply framed_screen_setMode.
  - exists (saveCursor s). destruct Hs. by split.
  - destruct (ok_restoreCursor s (_savedCursor s) Hs) as (s' & E & Hs' & _).
    eapply Hdone; [exact E|done|by eapply framed_restoreCursor].
  - destruct Hs. by split.
  - unfold backIndex. destruct (_ =? _); [done|by apply ok_horizontal_move].
  - unfold backIndex. by destruct (_ =? _).
Qed.

Fixpoint run_motions s (ms : list Motion) : option Screen :=
  match ms with
  | [] => Some s
  | m :: ms => s ← run_motion s m; run_motions s ms
  end.

Lemma motions_run s ms : screen_ok s -> Forall motion_ok ms ->
  exists s', run_motions s ms = Some s' /\ screen_ok s' /\ _grid s' = _grid s /\
    (DECSC ∉ ms -> _savedCursor s' = _savedCursor s).
Proof.
  intros Hs Hms. revert s Hs. induction Hms as [|m ms Hm _ IH]; intros s Hs; simpl.
  { by exists s. }
  destruct (motion_step s m Hs Hm) as (s1 & -> & Hs1 & E1 & C1). cbn [mbind option_bind].
  destruct (IH s1 Hs1) as (s' & -> & Hs' & E' & C'). exists s'. split_and!; [done|done|congruence|].
  intros Hn. apply not_elem_of_cons in Hn as [Hn1 Hn2]. rewrite C', C1 by (done || congruence). done.
Qed.

(** C34: On a valid screen no sequence of cursor operations - motion by counts that are not
    negative, tabs, margins, modes, saving and restoring, character sets - can put the cursor
    off the page, the margins out of it, the tab stops out of order or the cached line pointer
    off the line of the cursor; every operation returns, and none touches the grid. *)
Theorem cursor_operations_safe s ms : screen_ok s -> Forall motion_ok ms ->
  exists s', run_motions s ms = Some s' /\ screen_ok s' /\ _grid s' = _grid s.
Proof. intros Hs Hms. destruct (motions_run s ms Hs Hms) as (s' & ? & ? & ? & _). by exists s'. Qed.

(** DECRC restores what DECSC saved: whatever cursor operations come between
    (other than another DECSC), the whole cursor - position, rendition,
    character sets, wrap and origin mode, pending wrap - is the saved one, as
    long as origin mode was off or the position is not below or right of the
    margins at the time of DECRC. *)
Lemma decsc_decrc_roundtrip s ms s1 :
  screen_ok s -> Forall motion_ok ms -> DECSC ∉ ms -> run_motions s (DECSC :: ms) = Some s1 ->
  (originMode (_cursor s) = true ->
     cursor_line s <= to (vertical (_margin s1)) /\ cursor_column s <= to (horizontal (_margin s1))) ->
  exists s2, run_motion s1 DECRC = Some s2 /\ screen_ok s2 /\ _cursor s2 = _cursor s.
Proof.
  intros Hs Hms Hn E Horig. simpl in E.
  assert (Hs0 : screen_ok (saveCursor s)) by (destruct Hs; by split).
  destruct (motions_run (saveCursor s) ms Hs0 Hms) as (s1' & E1 & Hs1 & Eg & Ec).
  assert (s1' = s1) as -> by congruence. specialize (Ec Hn). simpl in Eg, Ec.
  destruct (ok_restoreCursor s1 (_savedCursor s1) Hs1) as (s2 & E2 & Hs2 & _).
  exists s2. split; [exact E2|]. split; [done|].
  assert (Hp : clampCoordinate (with_cursor s1 (_savedCursor s1)) (position (_savedCursor s1)) = position (_cursor s)).
  { rewrite Ec. destruct (ok_line s Hs), (ok_column s Hs).
    unfold clampCoordinate, clampToScreen, clampToOrigin, clampedLine, clampedColumn, clamp, pageSize in *.
    unfold cursor_line, cursor_column in *. simpl. rewrite Eg.
    destruct (originMode (_cursor s)); [destruct Horig; [done|]|]; zbool; by destruct (position (_cursor s)). }
  revert E2. unfold restoreCursor_from. cbv zeta. rewrite Hp, Ec.
  destruct (screen_verifyState _); [|done]. intros [= <-].
  unfold screen_setMode. repeat case_match; simpl; by destruct (_cursor s).
Qed.

(** ** Tab stops *)

Lemma next_tab_spec col l : Sorted Z.le l ->
  match next_tab col l with
  | Some t => t ∈ l /\ col < t /\ forall u, u ∈ l -> col < u -> t <= u
  | None => forall u, u ∈ l -> u <= col
  end.
Proof.
  intros Hl. apply Sorted_StronglySorted in Hl; [|intros ???; lia]. unfold next_tab.
  induction Hl as [|y l Hl IH Hy]; simpl; [intros u Hu; by apply elem_of_nil in Hu|].
  destruct (Z.leb_spec y col) as [Hle|Hgt]; simpl.
  - destruct (List.find _ l) as [t|].
    + destruct IH as (Hin & Hlt & Hmin). split_and!; [by right|done|].
      intros u Hu Hc. apply elem_of_cons in Hu as [->|Hu]; [lia|auto].
    + intros u Hu. apply elem_of_cons in Hu as [->|Hu]; [lia|auto].
  - split_and!; [by left|lia|]. intros u Hu _. apply elem_of_cons in Hu as [->|Hu]; [lia|].
    by apply (proj1 (Forall_forall _ _) Hy).
Qed.

(** The column a forward motion cannot pass. *)
Definition right_limit s : Z :=
  if range_contains (horizontal (_margin s)) (cursor_column s)
  then to (horizontal (_margin s)) else columns (pageSize s) - 1.

Lemma moveCursorForward_column s n : screen_ok s -> 0 <= n ->
  cursor_column (moveCursorForward s n) = Z.min (cursor_column s + n) (right_limit s).
Proof.
  intros Hs Hn. destruct (ok_horizontal s Hs), (ok_column s Hs).
  change (cursor_column (moveCursorForward s n)) with
    (if range_contains (horizontal (_margin s)) (cursor_column s)
     then range_clamp (horizontal (_margin s)) (cursor_column s + n) else clampedColumn s (cursor_column s + n)).
  unfold right_limit, range_contains, range_clamp, clampedColumn, clamp.
  destruct (Z.leb_spec (from (horizontal (_margin s))) (cursor_column s)),
    (Z.leb_spec (cursor_column s) (to (horizontal (_margin s)))); simpl;
    repeat match goal with |- context [Z.ltb ?a ?b] => destruct (Z.ltb_spec a b) end; lia.
Qed.

(** A horizontal tab goes to the next tab stop.  With origin mode off and
    stops set, the cursor lands on the smallest stop to its right, but not
    beyond the right margin if it is inside the margins; without such a stop
    it goes to the right margin, or stays if it is there or beyond.  With no
    stops set, the stops are the multiples of eight, and a cursor at or right
    of the right margin stays. *)
Lemma tab_forward_correct s : screen_ok s -> originMode (_cursor s) = false ->
  let x := cursor_column s in
  let x' := cursor_column (moveCursorToNextTab s) in
  (forall t, t ∈ screen_tabs s -> x < t -> (forall u, u ∈ screen_tabs s -> x < u -> t <= u) ->
     x' = Z.min t (right_limit s)) /\
  (screen_tabs s <> [] -> (forall u, u ∈ screen_tabs s -> u <= x) -> x' = Z.max x (to (horizontal (_margin s)))) /\
  (screen_tabs s = [] ->
     x' = if x <? to (horizontal (_margin s)) then Z.min (8 * (x / 8 + 1)) (right_limit s) else x).
Proof.
  intros Hs Ho x x'. destruct (ok_horizontal s Hs) as [Hh1 Hh2], (ok_column s Hs) as [Hc1 Hc2].
  assert (Hlog : column (logicalCursorPosition s) = x) by (unfold logicalCursorPosition; by rewrite Ho).
  assert (Hlim : x < to (horizontal (_margin s)) -> to (horizontal (_margin s)) <= right_limit s)
    by (unfold right_limit; case_match; lia).
  unfold x', moveCursorToNextTab. cbv zeta. rewrite Hlog. fold x.
  pose proof (next_tab_spec x (screen_tabs s) (proj1 (ok_tabs s Hs))) as Hnext.
  split_and!.
  - intros t Ht Hxt Hmin. rewrite bool_decide_false by (intros E; rewrite E in Ht; by apply elem_of_nil in Ht).
    simpl. destruct (next_tab x (screen_tabs s)) as [u|]; [|specialize (Hnext t Ht); lia].
    destruct Hnext as (Hu & Hxu & Hmu). assert (u = t) as -> by (specialize (Hmin u Hu Hxu); specialize (Hmu t Ht Hxt); lia).
    rewrite moveCursorForward_column by (done || lia). fold x. f_equal. lia.
  - intros Hne Hall. rewrite bool_decide_false by done. simpl.
    destruct (next_tab x (screen_tabs s)) as [u|].
    { destruct Hnext as (Hu & Hxu & _). specialize (Hall u Hu). lia. }
    destruct (Z.ltb_spec x (to (horizontal (_margin s)))); [|fold x; lia].
    rewrite moveCursorForward_column by (done || lia). fold x. lia.
  - intros E. rewrite E. simpl. destruct (Z.ltb_spec x (to (horizontal (_margin s)))); [|done].
    assert (Hr : x = 8 * (x / 8) + Z.rem x TabWidth /\ 0 <= Z.rem x TabWidth < 8).
    { unfold TabWidth. rewrite Z.rem_mod_nonneg by lia. split; [apply Z.div_mod; lia|apply Z.mod_pos_bound; lia]. }
    rewrite moveCursorForward_column; [|done|unfold TabWidth in *; lia]. fold x.
    assert (right_limit s <= columns (pageSize s) - 1) by (unfold right_limit; clear -Hh1 Hh2; destruct (range_contains _ _); lia).
    unfold TabWidth in *. lia.
Qed.

End Screen.

(** ** Concrete screens *)

#[local] Instance narrow : UnicodeWidth := fun _ => 1.
#[local] Instance per_char : GraphemeSegmenter := fun _ _ => true.
#[local] Existing Instance latin1.

Definition quiet : TerminalState := mkTerm [] (fun m => bool_decide (m = AutoWrap)) (fun _ => false) false false.
(** Three lines of twenty columns, four lines of history. *)
Definition small_screen : Screen SimpleCell.t := Screen_make (mkPageSize 3 20) true (LimitedTo 4) quiet.

Lemma small_screen_ok : screen_ok small_screen.
Proof.
  split; try (unfold cursor_line, cursor_column, range_ok; simpl; lia); try done.
  - split; [|done]. split; unfold ring_ok, size; simpl; lia.
Qed.

Definition excursion : list Motion :=
  [CUP 7 7; DECSTBM (Some 1) None; HTS; CUF 30; DECSC; CBT 1; CUD 5; DECRC].
Lemma excursion_end : realCursorPosition <$> run_motions small_screen excursion = Some (mkLoc 0 19).
Proof. vm_compute. reflexivity. Qed.

Lemma cursor_operations_safe_witness :
  exists s', run_motions small_screen excursion = Some s' /\ screen_ok s' /\ realCursorPosition s' = mkLoc 0 19.
Proof.
  destruct (cursor_operations_safe small_screen excursion) as (s' & E & Hs & _);
    [apply small_screen_ok|repeat constructor; simpl; lia|].
  exists s'. split; [exact E|]. split; [exact Hs|].
  pose proof excursion_end as Hp. rewrite E in Hp. by injection Hp.
Defined.

(** A cursor below the bottom margin is not stopped at the last line: line feed
    moves it off the page. *)
Example linefeed_off_page :
  let s := moveCursorTo (setTopBottomMargin small_screen None (Some 1)) 2 0 in
  screen_ok s /\ option_map cursor_line (linefeed s) = Some 3 /\ lines (pageSize s) = 3.
Proof.
  split; [|done]. apply ok_moveCursorTo, ok_setTopBottomMargin, small_screen_ok.
Qed.

(** Outside the margins, moving backward moves forward. *)
Example backward_outside_margins :
  let s := setCurrentColumn (setLeftRightMargin small_screen (Some 4) (Some 9)) 12 in
  cursor_column s = 12 /\ cursor_column (moveCursorBackward s 2) = 14.
Proof. done. Qed.

(** In origin mode a tab overshoots by the left margin. *)
Example tab_origin_overshoots :
  let s := with_tabs (setLeftRightMargin small_screen (Some 4) (Some 19)) [10] in
  let s := moveCursorTo (screen_setMode s Origin true) 0 0 in
  cursor_column s = 4 /\ cursor_column (moveCursorToNextTab s) = 14.
Proof. done. Qed.

(** A backward tab from a default stop does not move. *)
Example backward_tab_stays :
  let s := setCurrentColumn small_screen 16 in cursor_column (cursorBackwardTab s 1) = 16.
Proof. done. Qed.
