(* ===== verification/Resize.v ===== *)
(** * Resizing a screen (Grid::resize and Screen::applyPageSizeToMainDisplay)

    Reflow.v shows that reflowing columns keeps the text.  Here: for every new
    size the whole operation - columns, then lines, then cursor and margins -
    succeeds and leaves a consistent screen of the new size. *)
From S2P Require Import Prelude Parser Color Cell Ring Line Grid Charset Screen Reflow.

Section Resize.
Context `{LibUnicode, UnicodeWidth, GraphemeSegmenter} `{CellLaws Cell}.
Abbreviation Line := (Line Cell).
Abbreviation Grid := (Grid Cell).
Abbreviation Screen := (Screen.Screen Cell).
Implicit Types (g : Grid) (l : Line) (s : Screen).

(** ** Columns of a grid without reflow *)

Lemma verifies_lines g r : size r = size (_lines g) -> verifyState g = true -> verifyState (with_lines g r) = true.
Proof. intros E. unfold verifyState, totalLineCount, maxHistoryLineCount. simpl. by rewrite E. Qed.

(** Every line of the ring changed. *)
Lemma update_all g (f : Line -> Line) : grid_ok g -> verifyState g = true ->
  exists g', update_lines g (fun l => Some (f l)) 0 (Z.to_nat (size (_lines g))) = Some g' /\ grid_ok g' /\
    verifyState g' = true /\ _pageSize g' = _pageSize g /\ _historyLimit g' = _historyLimit g.
Proof.
  intros Hok Hv. pose proof Hok as [Hr Hl Hu]. unfold update_lines.
  destruct (view_update_range (_lines g) (fun l => Some (f l)) 0 (Z.to_nat (size (_lines g))) _ Hr
    ltac:(lia) ltac:(lia) (mapM_total _ _)) as (r & -> & Hr' & Hs' & _).
  eexists. split; [done|]. split; [by apply grid_ok_lines|]. split; [by apply verifies_lines|done].
Qed.

Lemma with_columns_ok g c : grid_ok g -> verifyState g = true ->
  grid_ok (with_page_columns g c) /\ verifyState (with_page_columns g c) = true.
Proof. by intros [] Hv. Qed.

(** What the step over the columns gives. *)
Record columns_done g (w : Z) (cursor : CellLocation) g' (cursor' : CellLocation) : Prop := {
  cd_ok : grid_ok g';
  cd_verify : verifyState g' = true;
  cd_lines : lines (_pageSize g') = lines (_pageSize g);
  cd_columns : columns (_pageSize g') = w;
  cd_limit : _historyLimit g' = _historyLimit g;
  cd_cursor : line cursor' <= line cursor
}.

(** The lines of a reflowing grid are as wide as the page. *)
Definition reflowable g : Prop := _reflowOnResize g = true ->
  Forall (fun l => inflatable l /\ columns (_pageSize g) <= line_size l) (contents g) /\
  Z.of_nat (cell_count (contents g)) + 2 * _linesUsed g + Z.max 0 (totalLineCount g) < 2 ^ 32.

Lemma columns_total g w cursor wrapPending : grid_ok g -> verifyState g = true -> reflowable g -> 0 < w ->
  exists g' cursor', (match Z.compare w (columns (_pageSize g)) with
     | Gt => '(g, d) ← growColumns g w wrapPending; Some (g, loc_add cursor d)
     | Lt => shrinkColumns g w cursor
     | Eq => Some (g, cursor)
     end) = Some (g', cursor') /\ columns_done g w cursor g' cursor'.
Proof.
  intros Hok Hv Hre Hw. destruct (Z.compare_spec w (columns (_pageSize g))) as [E|E|E].
  - exists g, cursor. split; [done|]. by split.
  - destruct (_reflowOnResize g) eqn:Ef.
    + destruct (Hre Ef) as [HP Hb].
      destruct (shrinkColumns_core g w cursor) as (g' & Es & G1 & G2 & _ & _ & G3 & G4 & G5); [done|done|lia|done|done|].
      exists g', cursor. split; [done|]. by split.
    + unfold shrinkColumns. rewrite Ef. cbn [negb].
      destruct (with_columns_ok g w Hok Hv) as [Hok1 Hv1].
      destruct (update_all (with_page_columns g w) (fun l => if w <? line_size l then line_resize l w else l) Hok1 Hv1)
        as (g' & Eu & G1 & G2 & G3 & G4).
      change (size (_lines (with_page_columns g w))) with (size (_lines g)) in Eu. rewrite Eu. cbn [mbind option_bind].
      eexists _, _. split; [done|]. split; try done; by rewrite G3.
  - destruct (_reflowOnResize g) eqn:Ef.
    + destruct (Hre Ef) as [HP Hb].
      destruct (growColumns_core g w wrapPending) as (g' & d & Es & G1 & G2 & _ & _ & G3 & G4 & G5 & _ & _ & G6);
        [done|done|lia|lia|done|done|].
      rewrite Es. cbn [mbind option_bind]. eexists _, _. split; [done|]. split; try done. simpl. lia.
    + unfold growColumns. rewrite Ef. cbn [negb].
      destruct (update_all g (fun l => if line_size l <? w then line_resize l w else l) Hok Hv)
        as (g' & Eu & G1 & G2 & G3 & G4). rewrite Eu. cbn [mbind option_bind].
      destruct (with_columns_ok g' w G1 G2) as [Hok1 Hv1].
      eexists _, _. split; [done|]. split; try done; simpl; [by rewrite G3|lia].
Qed.

(** ** Lines *)

Lemma iter_emplace (r : ring Line) l k : ring_ok r -> size r + Z.of_nat k < 2 ^ 32 ->
  let r' := Nat.iter k (fun r => emplace_back r l) r in ring_ok r' /\ size r' = size r + Z.of_nat k.
Proof.
  intros Hr. induction k as [|k IH]; intros Hb; [simpl; split; [done|lia]|].
  destruct IH as [IH1 IH2]; [lia|]. cbv zeta. rewrite !Nat.iter_succ. set (r' := Nat.iter k _ r) in *. clearbody r'.
  assert (Hs : size (push_back r' l) = size r' + 1) by (unfold size; simpl; len; simpl; lia).
  split; [apply push_back_ok; [done|lia]|unfold emplace_back; lia].
Qed.

Lemma growLines_total g n cursor k : grid_ok g -> verifyState g = true -> lines (_pageSize g) < n ->
  _historyLimit g = LimitedTo k -> 0 <= k -> k + n < 2 ^ 32 ->
  exists g' d, growLines g n cursor = Some (g', d) /\ grid_ok g' /\ verifyState g' = true /\
    _pageSize g' = mkPageSize n (columns (_pageSize g)).
Proof.
  intros Hok Hv Hn Hk Hk0 Hb. pose proof Hok as [Hr Hl Hu]. rewrite growLines_pulled by done. cbv zeta.
  set (t := pulled g n cursor). assert (Ht : 0 <= t <= historyLineCount g).
  { unfold t, pulled, historyLineCount. destruct (_ =? _); lia. }
  assert (Hr1 : ring_ok (rotate_right (_lines g) t)) by (apply rotate_right_ok; [done|lia]).
  assert (Hs1 : size (rotate_right (_lines g) t) = size (_lines g)) by done.
  set (r := rotate_right (_lines g) t) in *. clearbody r.
  destruct (back_some r Hr1 ltac:(lia)) as [lastLine ->]. cbn [mbind option_bind].
  replace (maxHistoryLineCount _) with k by (unfold maxHistoryLineCount; simpl; by rewrite Hk).
  set (c := Z.to_nat _). destruct (iter_emplace r (blank_line (wrappableFlag lastLine) (columns (_pageSize g)) Attrs_init) c)
    as [Hr2 Hs2]; [done|unfold c; destruct Hr1; lia|]. cbv zeta in *. set (r2 := Nat.iter c _ r) in *. clearbody r2.
  assert (Hs3 : size r2 = Z.max (size (_lines g)) (k + n)) by (unfold c in Hs2; lia).
  eexists _, _. split; [done|]. unfold historyLineCount in *. split; [split; [done|simpl; lia|]|].
  { cbn [_lines with_used with_page_lines with_lines with_page _pageSize lines _linesUsed]. lia. }
  split; [|done].
  unfold verifyState, totalLineCount, maxHistoryLineCount.
  cbn [_lines with_used with_page_lines with_lines with_page _pageSize lines _linesUsed _historyLimit]. rewrite Hk. zbool. done.
Qed.

Lemma shrinkLines_total g n cursor : grid_ok g -> verifyState g = true -> 0 < n < lines (_pageSize g) ->
  line cursor < lines (_pageSize g) ->
  exists g' d, shrinkLines g n cursor = Some (g', d) /\ grid_ok g' /\ verifyState g' = true /\
    _pageSize g' = mkPageSize n (columns (_pageSize g)).
Proof.
  intros Hok Hv Hn Hc. pose proof Hok as [Hr Hl Hu].
  assert (Hver : forall m u r, m <= lines (_pageSize g) -> u <= _linesUsed g -> m <= u -> size r = size (_lines g) ->
    verifyState (with_used (with_page_lines (with_lines g r) m) u) = true).
  { intros m u r Hm Hu' Hmu Hs. unfold verifyState, totalLineCount, maxHistoryLineCount in *. simpl. rewrite Hs.
    destruct (_historyLimit g); rewrite !andb_true_iff, !Z.leb_le in *; lia. }
  unfold shrinkLines. zbool. set (cut := Z.min _ _).
  set (g0 := with_used (with_page_lines g (lines (_pageSize g) - cut)) (_linesUsed g - cut)).
  set (g1 := if cut =? 0 then g else g0).
  assert (E1 : (if cut =? 0 then Some g else if line cursor <? lines (_pageSize g0) then Some g0 else None) = Some g1).
  { unfold g1. destruct (Z.eqb_spec cut 0); [done|]. unfold g0. simpl. zbool. done. }
  rewrite E1. cbn [mbind option_bind]. clear E1.
  assert (Hg1 : lines (_pageSize g1) = lines (_pageSize g) - cut /\ columns (_pageSize g1) = columns (_pageSize g) /\
    _linesUsed g1 = _linesUsed g - cut /\ _lines g1 = _lines g /\ _historyLimit g1 = _historyLimit g).
  { unfold g1. destruct (Z.eqb_spec cut 0) as [->|]; [|done]. split_and!; try done; lia. }
  destruct Hg1 as (P1 & P2 & P3 & P4 & P5). zbool.
  destruct (Z.eqb_spec (lines (_pageSize g) - n - cut) 0) as [E0|E0].
  - eexists _, _. split; [done|]. assert (lines (_pageSize g1) = n) by lia.
    split; [split; rewrite ?P3, ?P4; [done|lia|lia]|]. split.
    + unfold g1. destruct (cut =? 0); [done|]. unfold g0. apply (Hver (lines (_pageSize g) - cut) (_linesUsed g - cut) (_lines g)); lia || done.
    + destruct (_pageSize g1) as [y x]. simpl in *. congruence.
  - assert ((line cursor + 1 =? lines (_pageSize g1)) = true) as -> by (apply Z.eqb_eq; lia).
    eexists _, _. split; [done|]. rewrite P1. replace (_ - cut - _) with n by lia.
    assert (Hrot : ring_ok (rotate_left (_lines g1) (lines (_pageSize g) - n - cut))) by (apply rotate_left_ok; rewrite P4; [done|lia]).
    split; [split; simpl; [done|lia|]|].
    { change (size (rotate_left ?r _)) with (size r). rewrite P3, P4. lia. }
    split; [|simpl; by rewrite P2].
    unfold verifyState, totalLineCount, maxHistoryLineCount in *. simpl.
    change (size (rotate_left ?r _)) with (size r). rewrite P3, P4, P5.
    destruct (_historyLimit g); rewrite !andb_true_iff, !Z.leb_le in *; lia.
Qed.

(** ** The whole operation *)

Lemma grid_resize_total g p cursor wrapPending k : grid_ok g -> verifyState g = true -> reflowable g ->
  _historyLimit g = LimitedTo k -> 0 <= k -> 0 < lines p -> 0 < columns p -> k + lines p < 2 ^ 32 ->
  line cursor < lines (_pageSize g) ->
  exists g' c', grid_resize g p cursor wrapPending = Some (g', c') /\ grid_ok g' /\ verifyState g' = true /\ _pageSize g' = p.
Proof.
  intros Hok Hv Hre Hk Hk0 Hl Hw Hb Hc. unfold grid_resize.
  destruct (bool_decide_reflect (_pageSize g = p)) as [Ep|_]; [by exists g, cursor|].
  destruct (columns_total g (columns p) cursor wrapPending Hok Hv Hre Hw) as (g1 & c1 & -> & [O1 V1 L1 C1 K1 R1]).
  cbn [mbind option_bind].
  assert (Hlines : exists g2 c2, (match Z.compare (lines p) (lines (_pageSize g1)) with
     | Gt => '(g, d) ← growLines g1 (lines p) c1; Some (g, loc_add c1 d)
     | Lt => '(g, d) ← shrinkLines g1 (lines p) c1; Some (g, loc_add c1 d)
     | Eq => Some (g1, c1)
     end) = Some (g2, c2) /\ grid_ok g2 /\ verifyState g2 = true /\ _pageSize g2 = mkPageSize (lines p) (columns (_pageSize g1))).
  { destruct (Z.compare_spec (lines p) (lines (_pageSize g1))) as [E|E|E].
    - exists g1, c1. split_and!; [done..|]. rewrite E. by destruct (_pageSize g1).
    - destruct (shrinkLines_total g1 (lines p) c1) as (g2 & d & -> & O2 & V2 & P2); [done|done|lia|lia|].
      by eexists _, _.
    - destruct (growLines_total g1 (lines p) c1 k) as (g2 & d & -> & O2 & V2 & P2); [done|done|lia|congruence|done|done|].
      by eexists _, _. }
  destruct Hlines as (g2 & c2 & -> & O2 & V2 & P2). cbn [mbind option_bind].
  rewrite P2, C1. replace (mkPageSize (lines p) (columns p)) with p by (by destruct p). rewrite bool_decide_true by done.
  exists g2, c2. by rewrite P2, C1; destruct p.
Qed.

(** A screen at size [p]. *)
Record sized (p : PageSize) s : Prop := {
  sz_page : pageSize s = p;
  sz_ok : grid_ok (_grid s);
  sz_verify : verifyState (_grid s) = true;
  sz_line : 0 <= cursor_line s < lines p;
  sz_column : 0 <= cursor_column s < columns p
}.

Lemma sized_verifies p s : sized p s -> screen_verifyState s = true.
Proof.
  intros [<- _ Hv [] []]. unfold screen_verifyState. zbool. rewrite Hv, andb_true_r. apply bool_decide_eq_true_2.
  unfold clampToScreen, clampedLine, clampedColumn, clamp, realCursorPosition. fold (cursor_line s) (cursor_column s).
  zbool. unfold cursor_line, cursor_column. by destruct (position _).
Qed.

Lemma clamp_on_page s p pos : pageSize s = p -> 0 < lines p -> 0 < columns p ->
  range_ok (vertical (_margin s)) (lines p) -> range_ok (horizontal (_margin s)) (columns p) ->
  0 <= line (clampCoordinate s pos) < lines p /\ 0 <= column (clampCoordinate s pos) < columns p.
Proof.
  intros Hp Hl Hc [] []. unfold clampCoordinate, clampToOrigin, clampToScreen, clampedLine, clampedColumn. rewrite Hp.
  pose proof (clamp_range (line pos) 0 (to (vertical (_margin s)))).
  pose proof (clamp_range (column pos) 0 (to (horizontal (_margin s)))).
  pose proof (clamp_range (line pos) 0 (lines p - 1)). pose proof (clamp_range (column pos) 0 (columns p - 1)).
  destruct (originMode (_cursor s)); simpl; lia.
Qed.

(** The screen behind a successful resize of its grid. *)
Lemma applyPageSize_sized s p g c :
  grid_resize (_grid s) p (realCursorPosition s) (wrapPending (_cursor s)) = Some (g, c) ->
  grid_ok g -> verifyState g = true -> _pageSize g = p -> 0 < lines p -> 0 < columns p ->
  range_ok (vertical (_margin s)) (lines p) -> range_ok (horizontal (_margin s)) (columns p) ->
  exists s', applyPageSizeToMainDisplay s p = Some s' /\ sized p s' /\ _margin s' = full_margin p /\
    _terminal s' = _terminal s /\ _grid s' = g.
Proof.
  intros E Hok Hv Hp Hl Hc Hmv Hmh. unfold applyPageSizeToMainDisplay. rewrite E. cbn [mbind option_bind]. cbv zeta.
  set (pos := clampCoordinate _ _).
  assert (Hpos : 0 <= line pos < lines p /\ 0 <= column pos < columns p) by (by apply clamp_on_page).
  destruct (cursor_column _ <? columns p); set (s' := updateCursorIterator _);
    (assert (Hs : sized p s') by (split; unfold s', pageSize, cursor_line, cursor_column; simpl; done || lia));
    rewrite (sized_verifies p s' Hs); by exists s'.
Qed.

(** Whatever the new size, resizing a screen succeeds and leaves a
    consistent screen of that size - the cursor on the page, the margins the
    page, the ring large enough for page and history - provided that the
    margins in force lie inside the new page and that the lines of a reflowing
    grid are as wide as the page and may wrap. *)
Lemma resize_safe s p k : grid_ok (_grid s) -> verifyState (_grid s) = true -> reflowable (_grid s) ->
  _historyLimit (_grid s) = LimitedTo k -> 0 <= k -> 0 < lines p -> 0 < columns p -> k + lines p < 2 ^ 32 ->
  cursor_line s < lines (pageSize s) ->
  range_ok (vertical (_margin s)) (lines p) -> range_ok (horizontal (_margin s)) (columns p) ->
  exists s', applyPageSizeToMainDisplay s p = Some s' /\ sized p s' /\ _margin s' = full_margin p.
Proof.
  intros Hok Hv Hre Hk Hk0 Hl Hc Hb Hcur Hmv Hmh.
  destruct (grid_resize_total (_grid s) p (realCursorPosition s) (wrapPending (_cursor s)) k) as (g & c & E & G1 & G2 & G3);
    [done..|]. destruct (applyPageSize_sized s p g c) as (s' & E' & Hs & Hm & _); [done..|]. by exists s'.
Qed.

End Resize.

(** ** Concrete cases *)

Module Examples.

#[local] Instance narrow : UnicodeWidth := fun _ => 1.
#[local] Instance per_char : GraphemeSegmenter := fun _ _ => true.
#[local] Existing Instance latin1.

End Examples.
