(* ===== verification/ScreenEdit.v ===== *)
(** * Erasing and editing on the screen (src/vtbackend/Screen.cpp)

    The operations behind ED, EL, ECH, DECSED, DECSEL, DECSERA, ICH, DCH, IL,
    DL, DECIC, DECDC, DECCRA, DECERA, DECFRA and DECALN.  Cells are reached
    through the cached line of the cursor or through the grid, as the code
    does it; [None] is an access outside a line or a failed check. *)
From stdpp Require Import sorting.
From S2P Require Import Prelude Parser Color Cell Ring Line Grid Charset Screen.

Section ScreenEdit.
Context `{LibUnicode, UnicodeWidth, GraphemeSegmenter} `{CellConcept Cell}.
Abbreviation Screen := (Screen Cell).
Abbreviation Line := (Line Cell).
Implicit Types (s : Screen) (l : Line).

(** ** Access *)

(** [*_currentLine]. *)
Definition currentLine s : option Line := _storage (_lines (_grid s)) !! Z.to_nat (_currentLine s).
Definition put_currentLine s l : Screen :=
  with_grid s (with_lines (_grid s)
    (mk_ring (<[Z.to_nat (_currentLine s) := l]> (_storage (_lines (_grid s)))) (_zero (_lines (_grid s))))).
Definition update_currentLine s (f : Line -> option Line) : option Screen :=
  l ← currentLine s; l ← f l; Some (put_currentLine s l).
(** [f] on the line at an offset, and on a range of offsets. *)
Definition update_line s (f : Line -> option Line) (y : Z) : option Screen :=
  with_grid s <$> update_lines (_grid s) f y 1.
Definition update_line_range s (f : Line -> option Line) (y : Z) (n : Z) : option Screen :=
  with_grid s <$> update_lines (_grid s) f y (Z.to_nat n).

Definition rendition s : GraphicsAttributes := graphicsRendition (_cursor s).
Definition reset_cells s (x width : Z) l : option Line :=
  update_columns (fun c => cell_reset_attrs c (rendition s)) x width l.
Definition reset_line s l : option Line := Some (line_reset l (defaultLineFlags (_grid s)) (rendition s)).

(** ** EL, ED, ECH *)

Definition clearToEndOfLine s : option Screen :=
  if isFullHorizontalMargins s && (cursor_column s =? 0) then
    update_currentLine s (fun l => Some (line_reset l (_flags l) (rendition s)))
  else update_line s (reset_cells s (cursor_column s) (columns (pageSize s) - cursor_column s)) (cursor_line s).
Definition clearToBeginOfLine s : option Screen :=
  update_line s (reset_cells s 0 (cursor_column s + 1)) (cursor_line s).
Definition clearLine s : option Screen := update_currentLine s (reset_line s).

Definition clearToEndOfScreen s : option Screen :=
  s ← clearToEndOfLine s;
  update_line_range s (reset_line s) (cursor_line s + 1) (lines (pageSize s) - (cursor_line s + 1)).
Definition clearToBeginOfScreen s : option Screen :=
  s ← clearToBeginOfLine s;
  update_line_range s (reset_line s) 0 (cursor_line s).
(** The page is scrolled out, inside the margins. *)
Definition clearScreen s : option Screen := scrollUp_here s (lines (pageSize s)).

Definition eraseCharacters s (n : Z) : option Screen :=
  let columnsAvailable := columns (pageSize s) - cursor_column s in
  let clampedN := clamp n 1 columnsAvailable in
  update_currentLine s (reset_cells s (cursor_column s) clampedN).

(** ** DECSEL, DECSED, DECSERA *)

Definition isProtected (c : Cell) : bool := Flags.any (Flags.both (cell_flags c) CellFlag.CharacterProtected).

(** [selectiveErase(line, begin, end)]. *)
Definition selectiveErase s (y x e : Z) : option Screen :=
  update_line s (update_columns (fun c => if isProtected c then c else cell_reset_attrs c (rendition s)) x (e - x)) y.
(** Reading cells inflates the line. *)
Definition containsProtectedCharacters s (y x e : Z) : option (Screen * bool) :=
  s ← update_line s inflated y;
  l ← lineAt (_grid s) y; cells ← inflatedBuffer l;
  if (0 <=? x) && (x <=? e) && (e <=? Z.of_nat (length cells))
  then Some (s, existsb isProtected (take (Z.to_nat (e - x)) (drop (Z.to_nat x) cells))) else None.
(** The line is examined, but without protected cells it is the cursor's line
    that is reset. *)
Definition selectiveEraseLine s (y : Z) : option Screen :=
  '(s, b) ← containsProtectedCharacters s y 0 (columns (pageSize s));
  if (b : bool) then selectiveErase s y 0 (columns (pageSize s)) else update_currentLine s (reset_line s).
Definition selectiveEraseToEndOfLine s : option Screen :=
  if isFullHorizontalMargins s && (cursor_column s =? 0) then selectiveEraseLine s (cursor_line s)
  else selectiveErase s (cursor_line s) (cursor_column s) (columns (pageSize s)).
Definition selectiveEraseToBeginOfLine s : option Screen :=
  if isFullHorizontalMargins s && (cursor_column s =? columns (pageSize s))
  then selectiveEraseLine s (cursor_line s)
  else selectiveErase s (cursor_line s) 0 (cursor_column s + 1).
Fixpoint for_lines (body : Screen -> Z -> option Screen) s (ys : list Z) : option Screen :=
  match ys with
  | [] => Some s
  | y :: ys => s ← body s y; for_lines body s ys
  end.
Definition selectiveEraseToEndOfScreen s : option Screen :=
  s ← selectiveEraseToEndOfLine s;
  for_lines selectiveEraseLine s (seqZ (cursor_line s + 1) (lines (pageSize s) - (cursor_line s + 1))).
Definition selectiveEraseToBeginOfScreen s : option Screen :=
  s ← selectiveEraseToBeginOfLine s;
  for_lines selectiveEraseLine s (seqZ 0 (cursor_line s)).
Definition selectiveEraseScreen s : option Screen :=
  for_lines selectiveEraseLine s (seqZ 0 (lines (pageSize s))).

Record Rect := mkRect { top : Z; left : Z; bottom : Z; right : Z }.
(** The left edge is computed from the top one. *)
Definition applyOriginMode s (a : Rect) : Rect :=
  if originMode (_cursor s)
  then mkRect (top a + from (vertical (_margin s))) (top a + from (horizontal (_margin s)))
              (bottom a + from (vertical (_margin s))) (right a + from (horizontal (_margin s)))
  else a.
Definition clampTo (a : Rect) (p : PageSize) : Rect :=
  mkRect (top a) (left a) (Z.min (bottom a) (lines p)) (Z.min (right a) (columns p)).
(** [settingsPage] is the page size of the settings. *)
Definition selectiveEraseArea s (settingsPage : PageSize) (area : Rect) : option Screen :=
  let a := clampTo (applyOriginMode s area) settingsPage in
  if (bottom a <? top a) || (right a <? left a) then Some s
  else update_line_range s
    (update_columns (fun c => if isProtected c then c else cell_setHyperlink (cell_writeTextOnly c 0x20 1) 0)
       (left a) (right a - left a + 1)) (top a) (bottom a - top a + 1).

(** ** Inserting and deleting *)

(** [std::rotate] of the cells from [a] to [c] so that [b] comes first. *)
Definition rotate_cells (a b c : Z) (cells : list Cell) : option (list Cell) :=
  if (0 <=? a) && (a <=? b) && (b <=? c) && (c <=? Z.of_nat (length cells)) then
    Some (take (Z.to_nat a) cells
          ++ take (Z.to_nat (c - b)) (drop (Z.to_nat b) cells)
          ++ take (Z.to_nat (b - a)) (drop (Z.to_nat a) cells)
          ++ drop (Z.to_nat c) cells)
  else None.
Definition rotate_line (a b c : Z) l : option Line :=
  cells ← inflatedBuffer l; cells ← rotate_cells a b c cells; Some (setBuffer l (Inflated cells)).
Definition write_blanks s (x width : Z) l : option Line :=
  update_columns (fun c => cell_write c (rendition s) 0x20 1) x width l.

(** The room is computed from the logical, the position from the real column. *)
Definition insertChars s (y columnsToInsert : Z) : option Screen :=
  let last := to (horizontal (_margin s)) in
  let sanitizedN := Z.min columnsToInsert (last - column (logicalCursorPosition s) + 1) in
  update_line s (fun l =>
    l ← rotate_line (cursor_column s) (last - sanitizedN + 1) (last + 1) l;
    write_blanks s (cursor_column s) sanitizedN l) y.
Definition insertCharacters s (n : Z) : option Screen :=
  if isCursorInsideMargins s then insertChars s (cursor_line s) n else Some s.
Definition below_cursor s : Margin :=
  mkMargin (mkRange (cursor_line s) (to (vertical (_margin s)))) (horizontal (_margin s)).
Definition insertLines s (n : Z) : option Screen :=
  if isCursorInsideMargins s then screen_scrollDown s n (below_cursor s) else Some s.
Definition deleteLines s (n : Z) : option Screen :=
  if isCursorInsideMargins s then screen_scrollUp s n (rendition s) (below_cursor s) else Some s.
Definition insertColumns s (n : Z) : option Screen :=
  if isCursorInsideMargins s then
    for_lines (fun s y => insertChars s y n) s
      (seqZ (from (vertical (_margin s))) (range_length (vertical (_margin s))))
  else Some s.

Definition deleteChars s (y x columnsToDelete : Z) : option Screen :=
  let right := to (horizontal (_margin s)) + 1 in
  let n := Z.min columnsToDelete (right - x) in
  update_line s (fun l => l ← rotate_line x (x + n) right l; write_blanks s (right - n) n l) y.
Definition deleteCharacters s (n : Z) : option Screen :=
  if isCursorInsideMargins s && negb (n =? 0) then deleteChars s (cursor_line s) (cursor_column s) n else Some s.
Definition deleteColumns s (n : Z) : option Screen :=
  if isCursorInsideMargins s then
    for_lines (fun s y => deleteChars s y (cursor_column s) n) s
      (seqZ (from (vertical (_margin s))) (range_length (vertical (_margin s))))
  else Some s.

(** ** Rectangles *)

Definition use_cell s (y x : Z) : option (Screen * Cell) :=
  c ← grid_at (_grid s) y x; s ← update_line s inflated y; Some (s, c).
Definition put_cell s (y x : Z) (c : Cell) : option Screen := update_line s (fun l => setCellAt l x c) y.

(** [at(target) = at(source)], cell by cell in the given order. *)
Fixpoint copy_cells s (pairs : list (CellLocation * CellLocation)) : option Screen :=
  match pairs with
  | [] => Some s
  | (source, target) :: pairs =>
      '(s, c) ← use_cell s (line source) (column source);
      '(s, t) ← use_cell s (line target) (column target);
      s ← put_cell s (line target) (column target) (copy_assign t c);
      copy_cells s pairs
  end.
(** [0, 1, .. n - 1], from the far end when moving away from the origin. *)
Definition direction (away : bool) (n : Z) : list Z := if away then reverse (seqZ 0 n) else seqZ 0 n.
Definition copy_order (a : Rect) (target : CellLocation) : list (CellLocation * CellLocation) :=
  ys ← direction (top a <? line target) (bottom a - top a + 1);
  xs ← direction (left a <? column target) (right a - left a + 1);
  [(mkLoc (top a + ys) (left a + xs), mkLoc (line target + ys) (column target + xs))].
Definition copyArea s (a : Rect) (target : CellLocation) : option Screen :=
  if (bottom a <? top a) || (right a <? left a) then Some s
  else if (top a =? line target) && (left a =? column target) then Some s
  else copy_cells s (copy_order a target).

Definition eraseArea s (a : Rect) : option Screen :=
  if (bottom a <? top a) || (right a <? left a) then Some s
  else update_line_range s (write_blanks s (left a) (right a - left a + 1)) (top a) (bottom a - top a + 1).
Definition fillArea s (ch : Z) (a : Rect) : option Screen :=
  if negb ((32 <=? ch) && (ch <=? 126)) && negb ((160 <=? ch) && (ch <=? 255)) then Some s
  else update_line_range s
    (update_columns (fun c => cell_write c (rendition s) ch (u8 (unicode_width ch))) (left a) (right a - left a + 1))
    (top a) (bottom a - top a + 1).

(** The lines of [mainPage()], a plain pointer range from line 0 on. *)
Fixpoint fill_span (r : ring Line) (f : flags) (position : Z) (n : nat) : option (ring Line) :=
  match n with
  | O => Some r
  | S n =>
      l ← _storage r !! Z.to_nat position;
      l ← line_fill l f Attrs_init 0x45 1;
      fill_span (mk_ring (<[Z.to_nat position := l]> (_storage r)) (_zero r)) f (position + 1) n
  end.
Definition screenAlignmentPattern s : option Screen :=
  let s := moveCursorTo (with_margin s (full_margin (pageSize s))) 0 0 in
  let g := _grid s in
  r ← fill_span (_lines g) (defaultLineFlags g) (index (_lines g) 0) (Z.to_nat (lines (_pageSize g)));
  Some (with_grid s (with_lines g r)).

Definition setMark s : option Screen := update_currentLine s (fun l => Some (setMarked l true)).

(** ** Rows *)

(** The cells of a line, and lines whose cells fill the page's width. *)
Definition row l : list Cell := default [] (inflatedBuffer l).
Definition row_ok (w : Z) l : Prop :=
  inflatedBuffer l = Some (row l) /\ Z.of_nat (length (row l)) = w /\ line_size l = w.
Definition rows s : list (list Cell) := row <$> page (_grid s).
Definition rows_ok s : Prop := Forall (row_ok (columns (pageSize s))) (page (_grid s)).
Definition screen_cell s (y x : nat) : option Cell := r ← rows s !! y; r !! x.

(** Everything but the page's cells stays. *)
Record kept s s' : Prop := {
  kept_ok : screen_ok s';
  kept_rows : rows_ok s';
  kept_size : pageSize s' = pageSize s;
  kept_cursor : _cursor s' = _cursor s;
  kept_margin : _margin s' = _margin s;
  kept_saved : _savedCursor s' = _savedCursor s;
  kept_terminal : _terminal s' = _terminal s;
  kept_history : history (_grid s') = history (_grid s);
  kept_grid : _linesUsed (_grid s') = _linesUsed (_grid s) /\
              _historyLimit (_grid s') = _historyLimit (_grid s) /\
              _reflowOnResize (_grid s') = _reflowOnResize (_grid s)
}.

Definition within (y n i : Z) : bool := (y <=? i) && (i <? y + n).

Lemma row_inflated l cells : inflatedBuffer l = Some cells -> row l = cells.
Proof. intros E. unfold row. by rewrite E. Qed.

Lemma rows_length s : screen_ok s -> Z.of_nat (length (rows s)) = lines (pageSize s).
Proof.
  intros Hs. destruct (grid_split _ (proj1 (ok_grid s Hs))) as (U & _ & HA & _).
  unfold rows. by rewrite length_fmap.
Qed.

Lemma rows_width s y r : rows_ok s -> rows s !! y = Some r -> Z.of_nat (length r) = columns (pageSize s).
Proof.
  intros Hr E. unfold rows in E. apply list_lookup_fmap_Some in E as (l & -> & Hl).
  by apply (proj1 (Forall_lookup _ _) Hr) in Hl as (_ & ? & _).
Qed.

Lemma mapM_rows w f F ls : Forall (row_ok w) ls ->
  (forall l, row_ok w l -> exists l', f l = Some l' /\ row_ok w l' /\ row l' = F (row l)) ->
  exists ls', mapM f ls = Some ls' /\ Forall (row_ok w) ls' /\ row <$> ls' = F <$> (row <$> ls).
Proof.
  intros Hls Hf. induction Hls as [|l ls Hl _ IH]; [by exists []|].
  destruct (Hf l Hl) as (l' & E & Hl' & Er), IH as (ls' & E' & Hls' & Ers).
  exists (l' :: ls'). cbn [mapM]. rewrite E. cbn [mbind option_bind]. rewrite E'.
  split; [done|]. split; [by constructor|]. by rewrite !fmap_cons, Er, Ers.
Qed.

Lemma splice_rows {A} (F : A -> A) (rs : list A) (y n i : nat) :
  (take y rs ++ (F <$> take n (drop y rs)) ++ drop (y + n) rs) !! i =
  (if within (Z.of_nat y) (Z.of_nat n) (Z.of_nat i) then F else id) <$> rs !! i.
Proof.
  unfold within. destruct (decide (i < y)%nat) as [Hi|Hi].
  { zbool. simpl. destruct (decide (i < length rs)%nat).
    - rewrite lookup_app_l, lookup_take_lt by (len; lia). by rewrite option_fmap_id.
    - rewrite (lookup_ge_None_2 rs) by lia. apply lookup_ge_None_2. len. lia. }
  destruct (decide (i < length rs)%nat) as [Hlt|Hge].
  2: { rewrite (lookup_ge_None_2 rs) by lia. apply lookup_ge_None_2. len. lia. }
  rewrite lookup_app_r by (len; lia). len. replace (Nat.min y (length rs)) with y by lia.
  destruct (decide (i < y + n)%nat).
  - zbool. simpl. rewrite lookup_app_l, list_lookup_fmap, lookup_take_lt, lookup_drop by (len; lia).
    do 2 f_equal. lia.
  - zbool. simpl. rewrite lookup_app_r, length_fmap, lookup_drop by (len; lia). len.
    rewrite option_fmap_id. f_equal. lia.
Qed.

(** Updating a range of lines of the page, row by row. *)
Lemma update_rows s f F y n : screen_ok s -> rows_ok s -> 0 <= y -> 0 <= n -> y + n <= lines (pageSize s) ->
  (forall l, row_ok (columns (pageSize s)) l ->
     exists l', f l = Some l' /\ row_ok (columns (pageSize s)) l' /\ row l' = F (row l)) ->
  exists s', update_line_range s f y n = Some s' /\ kept s s' /\
    forall i : nat, rows s' !! i = (if within y n (Z.of_nat i) then F else id) <$> rows s !! i.
Proof.
  intros Hs Hr Hy Hn Hyn Hf. destruct Hs as [[Hg Hv] Hl Hc Hve Hho Ht Hcur].
  destruct (grid_split _ Hg) as (U & Hview & HA & HH & HU). unfold pageSize in *.
  assert (Hpage : take (Z.to_nat n) (drop (Z.to_nat y) (view (_lines (_grid s)))) =
                  take (Z.to_nat n) (drop (Z.to_nat y) (page (_grid s)))).
  { rewrite Hview, drop_app_le, take_app_le by (len; lia). done. }
  destruct (mapM_rows (columns (_pageSize (_grid s))) f F (take (Z.to_nat n) (drop (Z.to_nat y) (page (_grid s)))))
    as (ls' & Em & Hls' & Ers); [by apply Forall_take, Forall_drop|done|].
  assert (Hlen : length ls' = Z.to_nat n) by (pose proof (f_equal length Ers) as El; revert El; len; lia).
  pose proof Hg as [Hring Hlines Hused].
  destruct (view_update_range (_lines (_grid s)) f y (Z.to_nat n) ls') as (r' & E & Hr' & Hs' & Hz' & Hv');
    [done|lia|lia|by rewrite Hpage|].
  unfold update_line_range, update_lines. rewrite E. simpl. eexists. split; [done|].
  assert (Hvw : view r' = (take (Z.to_nat y) (page (_grid s)) ++ ls' ++ drop (Z.to_nat y + Z.to_nat n) (page (_grid s)))
                          ++ U ++ history (_grid s)).
  { rewrite Hv', Hview, take_app_le, drop_app_le by lia. by rewrite <- !app_assoc. }
  assert (Hgrid : grid_ok (with_lines (_grid s) r')) by (by apply grid_ok_lines).
  destruct (grid_of_view (with_lines (_grid s) r') _ _ _ Hvw) as [Ep Eh]; [simpl; len; lia|done|].
  split; [|].
  - split; try done; simpl.
    + split; try done; simpl.
      * split; [done|]. unfold verifyState, totalLineCount, maxHistoryLineCount in *. simpl.
        rewrite Hs'. exact Hv.
      * unfold cursor_line in *. simpl. rewrite Hcur. unfold index. simpl. by rewrite Hs', Hz'.
    + unfold rows_ok, pageSize. simpl. rewrite Ep. repeat (apply Forall_app; split); [by apply Forall_take|done|by apply Forall_drop].
  - intros i. unfold rows. simpl. rewrite Ep, !fmap_app, Ers, fmap_take, fmap_drop, fmap_take, fmap_drop.
    rewrite splice_rows. by rewrite !Z2Nat.id by lia.
Qed.

(** The cached line is the cursor's. *)
Lemma update_currentLine_line s f : screen_ok s -> update_currentLine s f = update_line s f (cursor_line s).
Proof.
  intros Hs. unfold update_currentLine, update_line, currentLine, put_currentLine, update_lines.
  cbn [update_range]. unfold update_at, at_, set_at. rewrite (ok_current s Hs). fold (index (_lines (_grid s)) (cursor_line s)).
  destruct (_ !! _) as [l|]; [|done]. cbn [mbind option_bind]. by destruct (f l).
Qed.

(** ** Erasing *)

Context `{!CellLaws Cell}.

Definition blank s : Cell := cell_make (rendition s) 0.

Lemma line_reset_row w l f a : row_ok w l ->
  row_ok w (line_reset l f a) /\ row (line_reset l f a) = replicate (length (row l)) (cell_make a 0).
Proof.
  intros (Hi & Hw & Hs).
  assert (Hb : forall b : TrivialLineBuffer, displayWidth b = w -> text b = [] -> fillAttributes b = a ->
    inflate b = Some (replicate (length (row l)) (cell_make a 0))).
  { intros b Hd Ht Ha. unfold inflate. rewrite Ht, Ha, Hd. simpl. by rewrite Nat.sub_0_r, <- Hw, Nat2Z.id. }
  assert (Hr : inflatedBuffer (line_reset l f a) = Some (replicate (length (row l)) (cell_make a 0)) /\
               line_size (line_reset l f a) = w).
  { unfold line_reset, line_size in *. destruct (_buffer l) as [b|cells] eqn:Eb; simpl.
    - split; [by apply Hb|done].
    - rewrite Hs. split; [by apply Hb|done]. }
  destruct Hr as [E Hsz]. split; [|by apply row_inflated]. split_and!; [|by rewrite (row_inflated _ _ E), length_replicate|done].
  by rewrite (row_inflated _ _ E).
Qed.

Lemma update_columns_row w g x n l : row_ok w l -> 0 <= x -> 0 <= n -> x + n <= w ->
  exists l', update_columns g x n l = Some l' /\ row_ok w l' /\
    row l' = take (Z.to_nat x) (row l) ++ (g <$> take (Z.to_nat n) (drop (Z.to_nat x) (row l)))
               ++ drop (Z.to_nat x + Z.to_nat n) (row l).
Proof.
  intros (Hi & Hw & Hs) Hx Hn Hxn. unfold update_columns. rewrite Hi. cbn [mbind option_bind]. zbool. simpl.
  eexists. split; [done|]. unfold splice.
  assert (El : length (g <$> take (Z.to_nat n) (drop (Z.to_nat x) (row l))) = Z.to_nat n) by (len; lia).
  rewrite El. split; [|done]. revert Hw. generalize (row l). intros r Hw.
  unfold row_ok, row, line_size. simpl. split; [done|]. split; len; lia.
Qed.

Lemma update_columns_lookup w g x n l (i : nat) l' : row_ok w l -> 0 <= x -> 0 <= n -> x + n <= w ->
  update_columns g x n l = Some l' ->
  row l' !! i = (if within x n (Z.of_nat i) then g else id) <$> row l !! i.
Proof.
  intros Hl Hx Hn Hxn E. destruct (update_columns_row w g x n l Hl Hx Hn Hxn) as (l2 & E2 & _ & Er).
  rewrite E in E2. injection E2 as <-. rewrite Er, splice_rows. by rewrite !Z2Nat.id by lia.
Qed.

(** What an erasing operation covers. *)
Inductive EraseOp := EL0 | EL1 | EL2 | ED0 | ED1 | ECH (n : Z) | DECSEL0 | DECSEL1 | DECSEL2.
Definition erased (op : EraseOp) s (y x : nat) : bool :=
  let here := Z.of_nat y =? cursor_line s in
  let right_of := cursor_column s <=? Z.of_nat x in
  let left_of := Z.of_nat x <=? cursor_column s in
  match op with
  | EL0 | DECSEL0 => here && right_of
  | EL1 | DECSEL1 => here && left_of
  | EL2 | DECSEL2 => here
  | ED0 => here && right_of || (cursor_line s <? Z.of_nat y)
  | ED1 => here && left_of || (Z.of_nat y <? cursor_line s)
  | ECH n => here && right_of && (Z.of_nat x <? cursor_column s + Z.max 1 n)
  end.
Definition selective (op : EraseOp) : bool := match op with DECSEL0 | DECSEL1 | DECSEL2 => true | _ => false end.
Definition erase_cell (op : EraseOp) s (y x : nat) (c : Cell) : Cell :=
  if erased op s y x && negb (selective op && isProtected c) then blank s else c.
Definition run_erase (op : EraseOp) s : option Screen :=
  match op with
  | EL0 => clearToEndOfLine s
  | EL1 => clearToBeginOfLine s
  | EL2 => clearLine s
  | ED0 => clearToEndOfScreen s
  | ED1 => clearToBeginOfScreen s
  | ECH n => eraseCharacters s n
  | DECSEL0 => selectiveEraseToEndOfLine s
  | DECSEL1 => selectiveEraseToBeginOfLine s
  | DECSEL2 => selectiveEraseLine s (cursor_line s)
  end.

Lemma kept_refl s : screen_ok s -> rows_ok s -> kept s s.
Proof. by split. Qed.

Lemma kept_trans s1 s2 s3 : kept s1 s2 -> kept s2 s3 -> kept s1 s3.
Proof.
  intros [] [? ? ? ? ? ? ? ? (? & ? & ?)]. destruct_and!. split; try done; try congruence. split_and!; congruence.
Qed.

(** One line of the page replaced cell by cell. *)
Definition cellwise (f : Line -> option Line) (w : Z) (g : nat -> Cell -> Cell) : Prop :=
  forall l, row_ok w l -> exists l', f l = Some l' /\ row_ok w l' /\ forall x, row l' !! x = g x <$> row l !! x.

Lemma update_range_cells s f g y n : screen_ok s -> rows_ok s -> 0 <= y -> 0 <= n -> y + n <= lines (pageSize s) ->
  cellwise f (columns (pageSize s)) g ->
  exists s', update_line_range s f y n = Some s' /\ kept s s' /\
    forall i x : nat, screen_cell s' i x = (if within y n (Z.of_nat i) then g x else id) <$> screen_cell s i x.
Proof.
  intros Hs Hr Hy Hn Hyn Hf.
  destruct (update_rows s f (imap g) y n Hs Hr) as (s' & E & Hk & Hi); [done|done|done| |].
  { intros l Hl. destruct (Hf l Hl) as (l' & El & Hl' & Hx). exists l'. split_and!; [done|done|].
    apply list_eq. intros x. by rewrite Hx, list_lookup_imap. }
  exists s'. split; [exact E|]. split; [done|]. intros i x. unfold screen_cell. rewrite Hi.
  destruct (rows s !! i) as [r|]; [|done]. cbn [fmap option_fmap option_map mbind option_bind].
  destruct (within y n (Z.of_nat i)); [by rewrite list_lookup_imap|by rewrite option_fmap_id].
Qed.

Lemma within_one y i : within y 1 i = (i =? y).
Proof. unfold within. lia. Qed.

Lemma update_line_cells s f g y : screen_ok s -> rows_ok s -> 0 <= y < lines (pageSize s) ->
  cellwise f (columns (pageSize s)) g ->
  exists s', update_line s f y = Some s' /\ kept s s' /\
    forall i x : nat, screen_cell s' i x = (if Z.of_nat i =? y then g x else id) <$> screen_cell s i x.
Proof.
  intros Hs Hr Hy Hf. destruct (update_range_cells s f g y 1 Hs Hr) as (s' & E & Hk & Hc); [lia|lia|lia|done|].
  exists s'. split_and!; [exact E|done|]. intros i x. by rewrite Hc, within_one.
Qed.

Lemma cellwise_ext f w g g' : (forall x c, Z.of_nat x < w -> g x c = g' x c) -> cellwise f w g -> cellwise f w g'.
Proof.
  intros Hg Hf l Hl. destruct (Hf l Hl) as (l' & E & Hl' & Hx). exists l'. split_and!; [done|done|].
  intros x. rewrite Hx. destruct (row l !! x) as [c|] eqn:Ec; [|done]. simpl. f_equal. apply Hg.
  apply lookup_lt_Some in Ec. destruct Hl as (_ & ? & _). lia.
Qed.

Lemma cellwise_columns g x n w : 0 <= x -> 0 <= n -> x + n <= w ->
  cellwise (update_columns g x n) w (fun i => if within x n (Z.of_nat i) then g else id).
Proof.
  intros Hx Hn Hxn l Hl. destruct (update_columns_row w g x n l Hl Hx Hn Hxn) as (l' & E & Hl' & _).
  exists l'. split_and!; [done|done|]. intros i. by eapply update_columns_lookup.
Qed.

Lemma cellwise_reset f a w : cellwise (fun l => Some (line_reset l (f l) a)) w (fun _ _ => cell_make a 0).
Proof.
  intros l Hl. destruct (line_reset_row w l (f l) a Hl) as [Hl' Er]. eexists. split_and!; [done|done|].
  intros x. rewrite Er. destruct (row l !! x) as [c|] eqn:Ec.
  - simpl. apply lookup_replicate_2. by eapply lookup_lt_Some.
  - apply lookup_replicate_None. by apply lookup_ge_None.
Qed.

Lemma cellwise_inflated w : cellwise inflated w (fun _ => id).
Proof.
  intros l (Hi & Hw & Hs). unfold inflated. rewrite Hi. cbn [mbind option_bind]. eexists. split; [done|].
  split; [by split_and!|]. intros x. by rewrite option_fmap_id.
Qed.

(** The line behind a row of the page. *)
Lemma lineAt_row s y : screen_ok s -> rows_ok s -> 0 <= y < lines (pageSize s) ->
  exists l, lineAt (_grid s) y = Some l /\ row_ok (columns (pageSize s)) l /\ rows s !! Z.to_nat y = Some (row l).
Proof.
  intros Hs Hr Hy. destruct (ok_grid s Hs) as [Hg _]. destruct (grid_split _ Hg) as (U & Hv & Hp & _ & HU).
  pose proof Hg as [Hring Hl Hu]. unfold pageSize in *.
  destruct (lookup_lt_is_Some_2 (page (_grid s)) (Z.to_nat y)) as [l El]; [lia|].
  exists l. split_and!.
  - unfold lineAt. rewrite at_view by (done || lia). by rewrite Hv, Z.mod_small, lookup_app_l by lia.
  - by apply (proj1 (Forall_lookup _ _) Hr) in El.
  - unfold rows. by rewrite list_lookup_fmap, El.
Qed.

Lemma contains_protected s y : screen_ok s -> rows_ok s -> 0 <= y < lines (pageSize s) ->
  exists s' r, containsProtectedCharacters s y 0 (columns (pageSize s)) = Some (s', existsb isProtected r) /\
    kept s s' /\ rows s !! Z.to_nat y = Some r /\ forall i x, screen_cell s' i x = screen_cell s i x.
Proof.
  intros Hs Hr Hy. unfold containsProtectedCharacters.
  destruct (update_line_cells s inflated (fun _ => id) y Hs Hr Hy (cellwise_inflated _)) as (s' & E & Hk & Hc).
  rewrite E. cbn [mbind option_bind].
  assert (Hsame : forall i x, screen_cell s' i x = screen_cell s i x).
  { intros i x. rewrite Hc. destruct (_ =? _); apply option_fmap_id. }
  destruct (lineAt_row s' y (kept_ok _ _ Hk) (kept_rows _ _ Hk)) as (l & El & (Hi & Hw & _) & Er).
  { by rewrite (kept_size _ _ Hk). }
  rewrite (kept_size _ _ Hk) in Hw. rewrite El. cbn [mbind option_bind]. rewrite Hi. cbn [mbind option_bind].
  zbool. simpl. rewrite Z.sub_0_r, drop_0, take_ge by lia.
  exists s', (row l). split_and!; [done|done| |done].
  destruct (rows s !! Z.to_nat y) as [r|] eqn:Es.
  2: { apply lookup_ge_None_1 in Es. pose proof (rows_length s Hs). lia. }
  f_equal. apply list_eq. intros x. specialize (Hsame (Z.to_nat y) x). unfold screen_cell in Hsame.
  by rewrite Es, Er in Hsame.
Qed.

(** The cells of line [y] changed by [g], everything else as before. *)
Definition line_changed s (y : Z) (g : nat -> Cell -> Cell) s' : Prop :=
  kept s s' /\ forall i x : nat, screen_cell s' i x = (if Z.of_nat i =? y then g x else id) <$> screen_cell s i x.

Lemma line_changed_ext s y g g' s' :
  (forall x c, Z.of_nat x < columns (pageSize s) -> screen_cell s (Z.to_nat y) x = Some c -> g x c = g' x c) ->
  rows_ok s -> line_changed s y g s' -> line_changed s y g' s'.
Proof.
  intros Hg Hr [Hk Hc]. split; [done|]. intros i x. rewrite Hc.
  destruct (Z.eqb_spec (Z.of_nat i) y) as [<-|]; [|done].
  destruct (screen_cell s i x) as [c|] eqn:E; [|done]. simpl. f_equal. apply Hg; [|by rewrite Nat2Z.id].
  unfold screen_cell in E. destruct (rows s !! i) as [r|] eqn:Er; [|done]. simpl in E.
  apply lookup_lt_Some in E. pose proof (rows_width _ _ _ Hr Er). lia.
Qed.

Definition selective_cell s (c : Cell) : Cell := if isProtected c then c else blank s.

Lemma selectiveErase_line s x e : screen_ok s -> rows_ok s -> 0 <= x <= e -> e <= columns (pageSize s) ->
  exists s', selectiveErase s (cursor_line s) x e = Some s' /\
    line_changed s (cursor_line s) (fun i => if within x (e - x) (Z.of_nat i) then selective_cell s else id) s'.
Proof.
  intros Hs Hr Hx He. unfold selectiveErase.
  destruct (update_line_cells s (update_columns (fun c => if isProtected c then c else cell_reset_attrs c (rendition s)) x (e - x))
    (fun i => if within x (e - x) (Z.of_nat i) then selective_cell s else id) (cursor_line s) Hs Hr (ok_line s Hs))
    as (s' & E & Hc); [|by exists s'].
  eapply cellwise_ext, cellwise_columns; [|lia|lia|lia]. intros i c _. simpl.
  destruct (within _ _ _); [|done]. unfold selective_cell, blank. by rewrite reset_attrs_make.
Qed.

Lemma selectiveEraseLine_line s : screen_ok s -> rows_ok s ->
  exists s', selectiveEraseLine s (cursor_line s) = Some s' /\
    line_changed s (cursor_line s) (fun _ => selective_cell s) s'.
Proof.
  intros Hs Hr. unfold selectiveEraseLine.
  destruct (contains_protected s (cursor_line s) Hs Hr (ok_line s Hs)) as (s1 & r & E & Hk & Er & Hsame).
  rewrite E. cbn [mbind option_bind].
  pose proof (kept_ok _ _ Hk) as Hs1. pose proof (kept_rows _ _ Hk) as Hr1. pose proof (kept_size _ _ Hk) as Ep.
  assert (Ecur : cursor_line s1 = cursor_line s) by (unfold cursor_line; by rewrite (kept_cursor _ _ Hk)).
  assert (Ebl : blank s1 = blank s) by (unfold blank, rendition; by rewrite (kept_cursor _ _ Hk)).
  assert (Hlift : forall g s2, line_changed s1 (cursor_line s1) g s2 -> line_changed s (cursor_line s) g s2).
  { intros g s2 [Hk2 Hc2]. split; [by eapply kept_trans|]. intros i x. by rewrite Hc2, Hsame, Ecur. }
  destruct (existsb isProtected r) eqn:Ex.
  - destruct (selectiveErase_line s1 0 (columns (pageSize s1)) Hs1 Hr1) as (s2 & E2 & Hc2);
      [pose proof (ok_column _ Hs1); lia|lia|].
    rewrite Ecur in E2. rewrite E2. exists s2. split; [done|]. apply Hlift.
    eapply line_changed_ext; [|done|exact Hc2]. intros i c Hi _. simpl. unfold within. zbool. simpl.
    unfold selective_cell. by rewrite Ebl.
  - rewrite update_currentLine_line by done.
    destruct (update_line_cells s1 (reset_line s1) (fun _ _ => blank s1) (cursor_line s1) Hs1 Hr1 (ok_line _ Hs1))
      as (s2 & E2 & Hc2); [apply cellwise_reset|].
    rewrite E2. exists s2. split; [done|]. apply Hlift. eapply line_changed_ext; [|done|exact Hc2].
    intros i c Hi Ec. simpl. unfold selective_cell. rewrite Ebl.
    rewrite Hsame, Ecur in Ec. unfold screen_cell in Ec. rewrite Er in Ec. simpl in Ec.
    destruct (isProtected c) eqn:Ep'; [|done]. exfalso. rewrite (proj2 (existsb_exists _ _)) in Ex; [done|].
    exists c. split; [|done]. apply list_elem_of_In. by eapply list_elem_of_lookup_2.
Qed.

Lemma cellwise_reset_cells s x n w : 0 <= x -> 0 <= n -> x + n <= w ->
  cellwise (reset_cells s x n) w (fun i c => if within x n (Z.of_nat i) then blank s else c).
Proof.
  intros Hx Hn Hxn. eapply cellwise_ext, cellwise_columns; [|done..]. intros i c _. simpl.
  destruct (within _ _ _); [|done]. apply reset_attrs_make.
Qed.

Lemma change_line s f g : screen_ok s -> rows_ok s -> cellwise f (columns (pageSize s)) g ->
  exists s', update_line s f (cursor_line s) = Some s' /\ line_changed s (cursor_line s) g s'.
Proof. intros Hs Hr Hf. exact (update_line_cells s f g (cursor_line s) Hs Hr (ok_line s Hs) Hf). Qed.

(** [r] blanks the cells of the cursor's line in the columns [P], except the
    protected ones when it is selective. *)
Definition blanks s (sel : bool) (P : Z -> bool) (r : option Screen) : Prop :=
  exists s', r = Some s' /\ line_changed s (cursor_line s)
    (fun x c => if P (Z.of_nat x) && negb (sel && isProtected c) then blank s else c) s'.

Lemma blanks_ext s sel P P' r : rows_ok s -> (forall x, 0 <= x < columns (pageSize s) -> P x = P' x) ->
  blanks s sel P r -> blanks s sel P' r.
Proof.
  intros Hr HP (s' & E & Hc). exists s'. split; [done|]. eapply line_changed_ext; [|done|exact Hc].
  intros x c Hx _. simpl. by rewrite HP by lia.
Qed.

Section Blanks.
Context s (Hs : screen_ok s) (Hr : rows_ok s).

Lemma blanks_reset f : blanks s false (fun _ => true) (update_currentLine s (fun l => Some (line_reset l (f l) (rendition s)))).
Proof. rewrite update_currentLine_line by done. apply change_line; [done|done|]. apply cellwise_reset. Qed.

Lemma blanks_cells x n : 0 <= x -> 0 <= n -> x + n <= columns (pageSize s) ->
  blanks s false (within x n) (update_line s (reset_cells s x n) (cursor_line s)).
Proof.
  intros Hx Hn Hxn. apply change_line; [done|done|]. eapply cellwise_ext, cellwise_reset_cells; [|done..].
  intros i c _. simpl. by rewrite andb_true_r.
Qed.

Lemma blanks_selective_line : blanks s true (fun _ => true) (selectiveEraseLine s (cursor_line s)).
Proof.
  destruct (selectiveEraseLine_line s Hs Hr) as (s' & E & Hc). exists s'. split; [done|].
  eapply line_changed_ext; [|done|exact Hc]. intros x c _ _. unfold selective_cell. simpl. by destruct (isProtected c).
Qed.

Lemma blanks_selective x e : 0 <= x <= e -> e <= columns (pageSize s) ->
  blanks s true (within x (e - x)) (selectiveErase s (cursor_line s) x e).
Proof.
  intros Hx He. destruct (selectiveErase_line s x e Hs Hr Hx He) as (s' & E & Hc). exists s'. split; [done|].
  eapply line_changed_ext; [|done|exact Hc]. intros i c _ _. unfold selective_cell.
  destruct (within _ _ _); [|done]. simpl. by destruct (isProtected c).
Qed.

(** The columns an operation covers on the cursor's line. *)
Definition covers (op : EraseOp) (x : Z) : bool :=
  match op with
  | EL0 | ED0 | DECSEL0 => cursor_column s <=? x
  | EL1 | ED1 | DECSEL1 => x <=? cursor_column s
  | EL2 | DECSEL2 => true
  | ECH n => (cursor_column s <=? x) && (x <? cursor_column s + Z.max 1 n)
  end.
Definition run_line (op : EraseOp) : option Screen :=
  match op with ED0 => clearToEndOfLine s | ED1 => clearToBeginOfLine s | _ => run_erase op s end.

Lemma run_line_blanks op : blanks s (selective op) (covers op) (run_line op).
Proof.
  pose proof (ok_line s Hs) as Hl. pose proof (ok_column s Hs) as Hc.
  destruct op; cbn [run_line run_erase]; unfold clearToEndOfLine, clearToBeginOfLine, clearLine, reset_line,
    eraseCharacters, selectiveEraseToEndOfLine, selectiveEraseToBeginOfLine;
    try rewrite (update_currentLine_line s (reset_cells s _ _)) by done;
    try match goal with |- context [if ?b then _ else _] => destruct b eqn:? end;
    (eapply blanks_ext; [done| |first [apply (blanks_reset _flags) | apply (blanks_reset (fun _ => _))
        | apply blanks_selective_line | apply blanks_selective | apply blanks_cells]]);
    unfold clamp, within, covers; intros; repeat case_match; lia.
Qed.

End Blanks.

Lemma blank_kept s s' : kept s s' -> blank s' = blank s.
Proof. intros Hk. unfold blank, rendition. by rewrite (kept_cursor _ _ Hk). Qed.

(** The lines above or below the cursor's. *)
Lemma reset_lines s s1 (sel : bool) P y n : line_changed s (cursor_line s)
    (fun x c => if P (Z.of_nat x) && negb (sel && isProtected c) then blank s else c) s1 ->
  0 <= y -> 0 <= n -> y + n <= lines (pageSize s) -> within y n (cursor_line s) = false ->
  exists s', update_line_range s1 (reset_line s1) y n = Some s' /\ kept s s' /\
    forall i x : nat, screen_cell s' i x =
      (fun c => if ((Z.of_nat i =? cursor_line s) && P (Z.of_nat x) || within y n (Z.of_nat i)) &&
                   negb (sel && (Z.of_nat i =? cursor_line s) && isProtected c) then blank s else c)
        <$> screen_cell s i x.
Proof.
  intros [Hk Hc] Hy Hn Hyn Hout.
  destruct (update_range_cells s1 (reset_line s1) (fun _ _ => blank s1) y n (kept_ok _ _ Hk) (kept_rows _ _ Hk))
    as (s2 & E & Hk2 & Hc2); [done|done|by rewrite (kept_size _ _ Hk)|apply cellwise_reset|].
  exists s2. split; [done|]. split; [by eapply kept_trans|]. intros i x. rewrite Hc2, Hc, (blank_kept _ _ Hk).
  destruct (screen_cell s i x) as [c|]; [|done]. simpl. f_equal.
  destruct (Z.eqb_spec (Z.of_nat i) (cursor_line s)) as [->|]; simpl.
  - rewrite Hout, orb_false_r. unfold id. by rewrite andb_true_r.
  - destruct (within y n (Z.of_nat i)), sel; reflexivity.
Qed.

(** C35: Every erasing sequence succeeds on a valid screen and blanks exactly the cells it
    names: EL 0, 1 and 2 from the cursor to the end of its line, from the start of the line to
    the cursor and the whole line; ED 0 and 1 these and all lines below or above; ECH the next
    characters, never past the line; and DECSEL the same as EL but without the cells written as
    protected. A blanked cell is empty and takes the rendition of the cursor; no other cell,
    neither cursor, margins, modes nor history change. *)
Theorem erase_correct op s : screen_ok s -> rows_ok s ->
  exists s', run_erase op s = Some s' /\ kept s s' /\
    forall y x, screen_cell s' y x = erase_cell op s y x <$> screen_cell s y x.
Proof.
  intros Hs Hr. pose proof (ok_line s Hs) as Hl. destruct (run_line_blanks s Hs Hr op) as (s1 & E & Hc).
  assert (Hone : run_line s op = run_erase op s -> (forall y x, erased op s y x = (Z.of_nat y =? cursor_line s) && covers s op (Z.of_nat x)) ->
    exists s', run_erase op s = Some s' /\ kept s s' /\ forall y x, screen_cell s' y x = erase_cell op s y x <$> screen_cell s y x).
  { intros <- He. exists s1. destruct Hc as [Hk Hc]. split_and!; [done|done|]. intros y x. rewrite Hc.
    destruct (screen_cell s y x) as [c|]; [|done]. simpl. f_equal. unfold erase_cell. rewrite He. by destruct (_ =? _). }
  assert (Hmany : forall yy n, run_erase op s = (s ← run_line s op; update_line_range s (reset_line s) (yy s) (n s)) ->
    selective op = false -> (forall s', kept s s' -> yy s' = yy s /\ n s' = n s) ->
    0 <= yy s -> 0 <= n s -> yy s + n s <= lines (pageSize s) -> within (yy s) (n s) (cursor_line s) = false ->
    (forall y x, Z.of_nat y < lines (pageSize s) ->
       erased op s y x = (Z.of_nat y =? cursor_line s) && covers s op (Z.of_nat x) || within (yy s) (n s) (Z.of_nat y)) ->
    exists s', run_erase op s = Some s' /\ kept s s' /\ forall y x, screen_cell s' y x = erase_cell op s y x <$> screen_cell s y x).
  { intros yy n -> Hsel Hkeep Hy Hn Hyn Hout He. destruct (reset_lines s s1 _ _ (yy s) (n s) Hc Hy Hn Hyn Hout) as (s2 & E2 & Hk2 & Hc2).
    rewrite E. cbn [mbind option_bind]. destruct (Hkeep s1 (proj1 Hc)) as [-> ->]. exists s2. split_and!; [done|done|].
    intros y x. rewrite Hc2. destruct (screen_cell s y x) as [c|] eqn:Ec; [|done]. simpl. f_equal. unfold erase_cell.
    rewrite Hsel, He; [done|]. unfold screen_cell in Ec. destruct (rows s !! y) eqn:Er; [|done].
    apply lookup_lt_Some in Er. pose proof (rows_length s Hs). lia. }
  destruct op; try (apply Hone; [done|intros; unfold erased, covers; lia]).
  - apply (Hmany (fun s => cursor_line s + 1) (fun s => lines (pageSize s) - (cursor_line s + 1))); try done; try lia.
    + intros s' Hk. unfold cursor_line. by rewrite (kept_cursor _ _ Hk), (kept_size _ _ Hk).
    + unfold within. lia.
    + intros. unfold erased, covers, within. lia.
  - apply (Hmany (fun s => 0) cursor_line); try done; try lia.
    + intros s' Hk. unfold cursor_line. by rewrite (kept_cursor _ _ Hk).
    + unfold within. lia.
    + intros. unfold erased, covers, within. lia.
Qed.

(** ** Inserting and deleting characters *)

(** The room between the cursor and the right margin, that much of it used by
    [n] characters, and the line with [k] cells inserted or deleted at [c] in
    front of column [e]. *)
Definition margin_end s : nat := Z.to_nat (to (horizontal (_margin s)) + 1).
Definition room s (n : Z) : nat := Z.to_nat (Z.min n (to (horizontal (_margin s)) + 1 - cursor_column s)).
Definition spaced s (c : Cell) : Cell := cell_write c (rendition s) 0x20 1.
Definition ich_row s (k : nat) (r : list Cell) : list Cell :=
  let c := Z.to_nat (cursor_column s) in let e := margin_end s in
  take c r ++ (spaced s <$> take k (drop (e - k) r)) ++ take (e - k - c) (drop c r) ++ drop e r.
Definition dch_row s (k : nat) (r : list Cell) : list Cell :=
  let c := Z.to_nat (cursor_column s) in let e := margin_end s in
  take c r ++ take (e - k - c) (drop (c + k) r) ++ (spaced s <$> take k (drop c r)) ++ drop e r.

Lemma splice_middle (f : Cell -> Cell) (A B C : list Cell) x n : x = length A -> n = length B ->
  take x (A ++ B ++ C) ++ (f <$> take n (drop x (A ++ B ++ C))) ++ drop (x + n) (A ++ B ++ C) = A ++ (f <$> B) ++ C.
Proof.
  intros -> ->. rewrite take_app_length, drop_app_length, take_app_length.
  by rewrite <- drop_drop, drop_app_length, drop_app_length.
Qed.

Lemma three_parts (r : list Cell) c e : (c <= e)%nat -> take c r ++ take (e - c) (drop c r) ++ drop e r = r.
Proof.
  intros Hce. replace (drop e r) with (drop (e - c) (drop c r)) by (rewrite drop_drop; f_equal; lia).
  by rewrite !take_drop.
Qed.

Lemma rotate_line_row w l a b c : row_ok w l -> 0 <= a -> a <= b -> b <= c -> c <= w ->
  exists l', rotate_line a b c l = Some l' /\ row_ok w l' /\
    row l' = take (Z.to_nat a) (row l) ++ take (Z.to_nat (c - b)) (drop (Z.to_nat b) (row l))
             ++ take (Z.to_nat (b - a)) (drop (Z.to_nat a) (row l)) ++ drop (Z.to_nat c) (row l).
Proof.
  intros (Hi & Hw & Hs) Ha Hab Hbc Hcw. unfold rotate_line. rewrite Hi. cbn [mbind option_bind].
  unfold rotate_cells. zbool. simpl. eexists. split; [done|]. split; [|done].
  revert Hw. generalize (row l). intros r Hw. unfold row_ok, row, line_size. simpl. split; [done|]. split; len; lia.
Qed.

Lemma rotate_write w l a b c x n s : row_ok w l -> 0 <= a -> a <= b -> b <= c -> c <= w -> 0 <= x -> 0 <= n -> x + n <= w ->
  exists l', (l ← rotate_line a b c l; write_blanks s x n l) = Some l' /\ row_ok w l' /\
    row l' = let r := take (Z.to_nat a) (row l) ++ take (Z.to_nat (c - b)) (drop (Z.to_nat b) (row l))
                       ++ take (Z.to_nat (b - a)) (drop (Z.to_nat a) (row l)) ++ drop (Z.to_nat c) (row l) in
             take (Z.to_nat x) r ++ (spaced s <$> take (Z.to_nat n) (drop (Z.to_nat x) r)) ++ drop (Z.to_nat x + Z.to_nat n) r.
Proof.
  intros Hl Ha Hab Hbc Hcw Hx Hn Hxn. destruct (rotate_line_row w l a b c) as (l1 & E1 & Hl1 & Er1); [done..|].
  rewrite E1. cbn [mbind option_bind].
  destruct (update_columns_row w (spaced s) x n l1) as (l2 & E2 & Hl2 & Er2); [done..|].
  exists l2. split; [exact E2|]. split; [done|]. rewrite Er2, Er1. done.
Qed.

Definition row_replaced s (y : Z) (F : list Cell -> list Cell) s' : Prop :=
  kept s s' /\ forall i : nat, rows s' !! i = (if Z.of_nat i =? y then F else id) <$> rows s !! i.

Lemma replace_row s f F : screen_ok s -> rows_ok s ->
  (forall l, row_ok (columns (pageSize s)) l ->
     exists l', f l = Some l' /\ row_ok (columns (pageSize s)) l' /\ row l' = F (row l)) ->
  exists s', update_line s f (cursor_line s) = Some s' /\ row_replaced s (cursor_line s) F s'.
Proof.
  intros Hs Hr Hf. pose proof (ok_line s Hs).
  destruct (update_rows s f F (cursor_line s) 1 Hs Hr) as (s' & E & Hk & Hi); [lia|lia|lia|done|].
  exists s'. split; [exact E|]. split; [done|]. intros i. by rewrite Hi, within_one.
Qed.

(** C36: On a valid screen, ICH and DCH with the cursor outside the margins do nothing. With the
    cursor inside them, at or left of the right margin, and origin mode off, they touch the line
    of the cursor only: ICH shifts the cells from the cursor to the right margin by the given
    number, at most up to the margin, drops what leaves the margin and writes blanks into the
    gap; DCH drops as many cells at the cursor, pulls the rest of the margin in and writes
    blanks at its end; cells left of the cursor and right of the margin stay in both. In origin
    mode ICH fails (insert_in_origin_mode). *)
Theorem insert_delete_correct s n : screen_ok s -> rows_ok s -> 0 <= n ->
  (isCursorInsideMargins s = false -> insertCharacters s n = Some s /\ deleteCharacters s n = Some s) /\
  (isCursorInsideMargins s = true -> originMode (_cursor s) = false -> cursor_column s <= to (horizontal (_margin s)) ->
   (exists s', insertCharacters s n = Some s' /\ row_replaced s (cursor_line s) (ich_row s (room s n)) s') /\
   exists s', deleteCharacters s n = Some s' /\ row_replaced s (cursor_line s) (dch_row s (room s n)) s').
Proof.
  intros Hs Hr Hn. unfold insertCharacters, deleteCharacters. split; [by intros ->|]. intros -> Ho Hcol.
  pose proof (ok_column s Hs) as Hc. destruct (ok_horizontal s Hs) as [Hf Ht].
  split.
  - unfold insertChars, logicalCursorPosition. rewrite Ho. unfold realCursorPosition. fold (cursor_column s).
    apply replace_row; [done|done|]. intros l Hl.
    edestruct (rotate_write (columns (pageSize s)) l) as (l' & E & Hl' & Er);
      [done|..|exists l'; split; [exact E|]; split; [done|]; rewrite Er]; try lia.
    destruct Hl as (_ & Hw & _). unfold ich_row, room, margin_end.
    rewrite splice_middle by (len; lia). repeat (f_equal; try lia).
  - simpl. destruct (Z.eqb_spec n 0) as [->|Hn0]; simpl.
    + exists s. split; [done|]. split; [by apply kept_refl|]. intros i.
      destruct (rows s !! i) as [r|] eqn:Er; [|by destruct (_ =? _)]. simpl. f_equal.
      apply rows_width in Er; [|done]. destruct (_ =? _); [|done]. unfold dch_row, room, margin_end.
      rewrite Z.min_l, Nat.add_0_r, take_0, Nat.sub_0_r by lia. by rewrite three_parts by lia.
    + unfold deleteChars. apply replace_row; [done|done|]. intros l Hl.
      edestruct (rotate_write (columns (pageSize s)) l) as (l' & E & Hl' & Er);
        [done|..|exists l'; split; [exact E|]; split; [done|]; rewrite Er]; try lia.
      destruct Hl as (_ & Hw & _). unfold dch_row, room, margin_end.
      rewrite (app_assoc (take _ (row l)) (take _ _)), splice_middle by (len; lia).
      rewrite <- app_assoc. repeat (f_equal; try lia).
Qed.

(** ** Copying rectangles *)

Definition on_page s (p : CellLocation) : Prop :=
  0 <= line p < lines (pageSize s) /\ 0 <= column p < columns (pageSize s).
(** The cell at a position of the page. *)
Definition cell_at s (p : CellLocation) : option Cell := screen_cell s (Z.to_nat (line p)) (Z.to_nat (column p)).

Lemma on_page_eq s p q : on_page s p -> on_page s q ->
  (Z.to_nat (line p) = Z.to_nat (line q) /\ Z.to_nat (column p) = Z.to_nat (column q)) <-> p = q.
Proof.
  intros [Hp Hp'] [Hq Hq']. split; [|by intros ->]. destruct p as [a b], q as [a' b']. simpl in *. intros [? ?].
  f_equal; lia.
Qed.

Lemma use_cell_ok s p : screen_ok s -> rows_ok s -> on_page s p ->
  exists s' c, use_cell s (line p) (column p) = Some (s', c) /\ kept s s' /\ cell_at s p = Some c /\
    forall y x, screen_cell s' y x = screen_cell s y x.
Proof.
  intros Hs Hr [Hy Hx]. unfold use_cell, grid_at.
  destruct (lineAt_row s (line p) Hs Hr Hy) as (l & El & (Hi & Hw & Hsz) & Er). rewrite El. cbn [mbind option_bind].
  unfold useCellAt. rewrite Hi. cbn [mbind option_bind]. rewrite Hsz. zbool. simpl.
  destruct (lookup_lt_is_Some_2 (row l) (Z.to_nat (column p))) as [c Ec]; [lia|]. rewrite Ec. simpl.
  destruct (update_line_cells s inflated (fun _ => id) (line p) Hs Hr Hy (cellwise_inflated _)) as (s' & -> & Hk & Hc).
  exists s', c. split_and!; [done|done| |].
  - unfold cell_at, screen_cell. by rewrite Er.
  - intros y x. rewrite Hc. destruct (_ =? _); apply option_fmap_id.
Qed.

Lemma cellwise_set w x c : 0 <= x < w -> cellwise (fun l => setCellAt l x c) w (fun i => if Z.of_nat i =? x then (fun _ => c) else id).
Proof.
  intros Hx l (Hi & Hw & Hs). unfold setCellAt. rewrite Hi. cbn [mbind option_bind]. zbool. simpl.
  eexists. split; [done|]. revert Hw. generalize (row l). intros r Hw.
  split; [unfold row_ok, row, line_size; simpl; split; [done|]; split; len; lia|].
  intros i. unfold row. simpl. destruct (Z.eqb_spec (Z.of_nat i) x) as [<-|Hn].
  - rewrite Nat2Z.id, list_lookup_insert_eq by lia. by destruct (lookup_lt_is_Some_2 r i) as [v ->]; [lia|].
  - rewrite list_lookup_insert_ne by lia. by rewrite option_fmap_id.
Qed.

Lemma put_cell_ok s p c : screen_ok s -> rows_ok s -> on_page s p ->
  exists s', put_cell s (line p) (column p) c = Some s' /\ kept s s' /\ cell_at s' p = Some c /\
    forall q, on_page s q -> q <> p -> cell_at s' q = cell_at s q.
Proof.
  intros Hs Hr [Hy Hx]. unfold put_cell.
  destruct (update_line_cells s _ _ (line p) Hs Hr Hy (cellwise_set _ (column p) c Hx)) as (s' & -> & Hk & Hc).
  exists s'. split_and!; [done|done| |].
  - destruct (use_cell_ok s p) as (_ & old & _ & _ & Ho & _); [done|done|done|]. unfold cell_at in *.
    rewrite Hc, Ho, !Z2Nat.id by lia. by rewrite !Z.eqb_refl.
  - intros q [Hqy Hqx] Hne. unfold cell_at. rewrite Hc, !Z2Nat.id by lia.
    destruct (Z.eqb_spec (line q) (line p)), (Z.eqb_spec (column q) (column p)); try apply option_fmap_id.
    destruct Hne. destruct p, q. simpl in *. by subst.
Qed.

Definition undisturbed (p q : CellLocation * CellLocation) : Prop := p.2 <> q.1 /\ p.2 <> q.2.

(** Cells copied one after the other are copied as if at once when no copy
    writes what a later one reads or writes. *)
Lemma copy_cells_ok pairs : forall s, screen_ok s -> rows_ok s ->
  Forall (fun p => on_page s p.1 /\ on_page s p.2) pairs -> StronglySorted undisturbed pairs ->
  exists s', copy_cells s pairs = Some s' /\ kept s s' /\
    (forall p c t, p ∈ pairs -> cell_at s p.1 = Some c -> cell_at s p.2 = Some t -> cell_at s' p.2 = Some (copy_assign t c)) /\
    (forall q, on_page s q -> (forall p, p ∈ pairs -> p.2 <> q) -> cell_at s' q = cell_at s q).
Proof.
  induction pairs as [|[a b] pairs IH]; intros s Hs Hr Hon Hso.
  { exists s. split_and!; [done|by apply kept_refl| |done]. intros p c t Hp. by apply elem_of_nil in Hp. }
  apply Forall_cons in Hon as [[Ha Hb] Hon]. simpl in Ha, Hb. apply StronglySorted_inv in Hso as [Hso Hhead].
  cbn [copy_cells].
  destruct (use_cell_ok s a Hs Hr Ha) as (s1 & c & E1 & K1 & Ec & S1). rewrite E1. cbn [mbind option_bind].
  assert (Hp1 : pageSize s1 = pageSize s) by apply K1.
  destruct (use_cell_ok s1 b) as (s2 & t & E2 & K2 & Et & S2); [apply K1|apply K1|unfold on_page; by rewrite Hp1|].
  rewrite E2. cbn [mbind option_bind]. assert (Hp2 : pageSize s2 = pageSize s) by (rewrite <- Hp1; apply K2).
  destruct (put_cell_ok s2 b (copy_assign t c)) as (s3 & E3 & K3 & Eb & Hother); [apply K2|apply K2|unfold on_page; by rewrite Hp2|].
  rewrite E3. cbn [mbind option_bind]. assert (Hp3 : pageSize s3 = pageSize s) by (rewrite <- Hp2; apply K3).
  assert (Hsame : forall q, on_page s q -> q <> b -> cell_at s3 q = cell_at s q).
  { intros q Hq Hne. rewrite Hother by (unfold on_page in *; by rewrite ?Hp2). unfold cell_at. by rewrite S2, S1. }
  destruct (IH s3) as (s' & E' & K' & Hcp & Hot); [apply K3|apply K3|unfold on_page in *; by rewrite Hp3|done|].
  exists s'. split; [done|]. split; [by eapply kept_trans, kept_trans, kept_trans|]. split.
  - intros p c' t' Hp Hc' Ht'. apply elem_of_cons in Hp as [->|Hp]; simpl in *.
    + rewrite Hot; [|unfold on_page in *; by rewrite Hp3|].
      * rewrite Eb. unfold cell_at in *. rewrite S1 in Et. congruence.
      * intros p Hp. apply (proj1 (Forall_forall _ _) Hhead) in Hp as [_ Hp]. simpl in Hp. congruence.
    + pose proof (proj1 (Forall_forall _ _) Hhead _ Hp) as [Hd1 Hd2]. pose proof (proj1 (Forall_forall _ _) Hon _ Hp) as [Ho1 Ho2].
      simpl in *. apply Hcp; [done|rewrite Hsame; [done|done|congruence]|rewrite Hsame; [done|done|congruence]].
  - intros q Hq Hne. rewrite Hot; [|unfold on_page in *; by rewrite Hp3|].
    + apply Hsame; [done|]. intros ->. by apply (Hne (a, b)); [left|].
    + intros p Hp. apply Hne. by right.
Qed.

(** Later in the order of a direction. *)
Definition later (away : bool) (i j : Z) : Prop := if away then j < i else i < j.

Lemma direction_sorted away n : StronglySorted (later away) (direction away n).
Proof.
  unfold direction, later.
  pose proof (seqZ_sorted 0 n) as Hseq.
  destruct away; [|done]. induction Hseq as [|x l Hl IH Hx]; [constructor|].
  rewrite reverse_cons. apply StronglySorted_app_2; [|done|repeat constructor].
  intros a b Ha Hb. apply list_elem_of_singleton in Hb as ->. rewrite elem_of_reverse in Ha.
  exact (proj1 (Forall_forall _ _) Hx a Ha).
Qed.

Lemma elem_direction away n x : x ∈ direction away n <-> 0 <= x < n.
Proof. unfold direction. destruct away; [rewrite elem_of_reverse|]; rewrite elem_of_seqZ; lia. Qed.

Definition shift (p : CellLocation) (d : Z * Z) : CellLocation := mkLoc (line p + d.1) (column p + d.2).
Definition offsets (a : Rect) (target : CellLocation) : list (Z * Z) :=
  ys ← direction (top a <? line target) (bottom a - top a + 1);
  xs ← direction (left a <? column target) (right a - left a + 1); [(ys, xs)].

Lemma copy_order_offsets a target :
  copy_order a target = (fun d => (shift (mkLoc (top a) (left a)) d, shift target d)) <$> offsets a target.
Proof.
  unfold copy_order, offsets. generalize (direction (top a <? line target) (bottom a - top a + 1)).
  generalize (direction (left a <? column target) (right a - left a + 1)). intros xs ys.
  induction ys as [|y ys IH]; [done|]. rewrite !bind_cons, fmap_app, IH. apply (f_equal (fun r => r ++ _)).
  clear IH. induction xs as [|x xs IHx]; [done|]. rewrite !bind_cons, fmap_app, IHx. done.
Qed.

Lemma offsets_sorted a target : StronglySorted (fun d e =>
  later (top a <? line target) d.1 e.1 \/ d.1 = e.1 /\ later (left a <? column target) d.2 e.2) (offsets a target).
Proof.
  unfold offsets. pose proof (direction_sorted (left a <? column target) (right a - left a + 1)) as Hx.
  pose proof (direction_sorted (top a <? line target) (bottom a - top a + 1)) as Hy. revert Hx Hy.
  generalize (direction (left a <? column target) (right a - left a + 1)). intros xs Hx.
  induction 1 as [|y ys _ IH Hy]; [constructor|]. rewrite bind_cons. apply StronglySorted_app_2; [|clear IH|done].
  - intros d e Hd He. apply list_elem_of_bind in Hd as (x & Hd & _). apply list_elem_of_singleton in Hd as ->.
    apply list_elem_of_bind in He as (y' & He & Hy'). apply list_elem_of_bind in He as (x' & He & _).
    apply list_elem_of_singleton in He as ->. left. by apply (proj1 (Forall_forall _ _) Hy).
  - induction Hx as [|x xs _ IHx Hx]; [constructor|]. rewrite bind_cons. constructor; [done|].
    apply Forall_forall. intros d Hd. apply list_elem_of_bind in Hd as (x' & Hd & Hx'). apply list_elem_of_singleton in Hd as ->.
    right. split; [done|]. by apply (proj1 (Forall_forall _ _) Hx).
Qed.

Lemma StronglySorted_map {A B} (f : A -> B) (R : A -> A -> Prop) (S : B -> B -> Prop) (l : list A) :
  (forall x y, R x y -> S (f x) (f y)) -> StronglySorted R l -> StronglySorted S (f <$> l).
Proof.
  intros Hf. induction 1 as [|x l _ IH Hx]; [constructor|]. rewrite fmap_cons. constructor; [done|].
  apply Forall_fmap. eapply Forall_impl; [exact Hx|]. intros y. apply Hf.
Qed.

Lemma elem_offsets a target d : d ∈ offsets a target <->
  0 <= d.1 <= bottom a - top a /\ 0 <= d.2 <= right a - left a.
Proof.
  unfold offsets. rewrite list_elem_of_bind. destruct d as [y x]. simpl. split.
  - intros (y' & Hd & Hy). apply list_elem_of_bind in Hd as (x' & Hd & Hx). apply list_elem_of_singleton in Hd.
    injection Hd as -> ->. apply elem_direction in Hy, Hx. lia.
  - intros Hd. exists y. split; [|apply elem_direction; lia]. apply list_elem_of_bind. exists x.
    split; [by apply list_elem_of_singleton|apply elem_direction; lia].
Qed.

(** DECCRA copies a rectangle as a whole even when source and target
    overlap: whatever the direction, every cell of the target is assigned the
    cell the source held before the operation, every other cell of the page,
    and everything else of the screen, stays. *)
Lemma copyArea_correct s (a : Rect) (target : CellLocation) : screen_ok s -> rows_ok s ->
  top a <= bottom a -> left a <= right a ->
  on_page s (mkLoc (top a) (left a)) -> on_page s (mkLoc (bottom a) (right a)) -> on_page s target ->
  on_page s (shift target (bottom a - top a, right a - left a)) ->
  mkLoc (top a) (left a) <> target ->
  exists s', copyArea s a target = Some s' /\ kept s s' /\
    (forall y x c t, 0 <= y <= bottom a - top a -> 0 <= x <= right a - left a ->
       cell_at s (mkLoc (top a + y) (left a + x)) = Some c -> cell_at s (shift target (y, x)) = Some t ->
       cell_at s' (shift target (y, x)) = Some (copy_assign t c)) /\
    (forall q, on_page s q ->
       ~ (0 <= line q - line target <= bottom a - top a /\ 0 <= column q - column target <= right a - left a) ->
       cell_at s' q = cell_at s q).
Proof.
  intros Hs Hr Htb Hlr Ha1 Ha2 Ht1 Ht2 Hne. unfold copyArea. zbool. simpl.
  assert (Hnot : (top a =? line target) && (left a =? column target) = false).
  { destruct (Z.eqb_spec (top a) (line target)), (Z.eqb_spec (left a) (column target)); try done.
    destruct Hne, target. simpl in *. by subst. }
  rewrite Hnot, copy_order_offsets. unfold on_page, shift in *. simpl in *.
  destruct (copy_cells_ok ((fun d => (shift (mkLoc (top a) (left a)) d, shift target d)) <$> offsets a target) s)
    as (s' & E & Hk & Hcp & Hot); [done|done|..].
  - apply Forall_fmap, Forall_forall. intros d Hd. apply elem_offsets in Hd. unfold on_page, shift. simpl. lia.
  - eapply StronglySorted_map, offsets_sorted. intros d e Hde. unfold undisturbed, shift, later in *. simpl.
    split; injection 1 as Hy Hx; revert Hde Hnot; destruct (Z.ltb_spec (top a) (line target)), (Z.ltb_spec (left a) (column target)); lia.
  - exists s'. split_and!; [done|done| |].
    + intros y x c t Hy Hx Hc Ht. apply (Hcp (mkLoc (top a + y) (left a + x), shift target (y, x))); [|done|done].
      apply list_elem_of_fmap. exists (y, x). split; [done|]. by apply elem_offsets.
    + intros q Hq Hout. apply Hot; [done|]. intros p Hp. apply list_elem_of_fmap in Hp as (d & -> & Hd).
      apply elem_offsets in Hd. simpl. intros <-. apply Hout. unfold shift. simpl. lia.
Qed.

End ScreenEdit.

(** ** Concrete screens *)

#[local] Existing Instance narrow.
#[local] Existing Instance per_char.
#[local] Existing Instance latin1.

(** The small screen filled with [A], the cursor in its middle. *)
Definition filled_screen : Screen SimpleCell.t :=
  default small_screen (fillArea (moveCursorTo small_screen 1 10) 0x41 (mkRect 0 0 2 19)).

Lemma filled_screen_ok : screen_ok filled_screen.
Proof.
  split; try (vm_compute; intuition congruence); try done.
  split; [|done]. split; unfold ring_ok, size; vm_compute; intuition congruence.
Qed.

Lemma filled_screen_rows : rows_ok filled_screen.
Proof. unfold rows_ok. repeat (apply Forall_cons; split; [split_and!; vm_compute; reflexivity|]). apply Forall_nil. done. Qed.

Lemma erase_correct_witness :
  exists s', run_erase ED0 filled_screen = Some s' /\
    screen_cell s' 1 9 = screen_cell filled_screen 1 9 /\ screen_cell s' 1 10 = Some (blank filled_screen).
Proof.
  destruct (erase_correct ED0 filled_screen filled_screen_ok filled_screen_rows) as (s' & E & _ & Hc).
  exists s'. split; [exact E|]. split; rewrite Hc; reflexivity.
Defined.

Lemma insert_delete_correct_witness :
  exists s', insertCharacters filled_screen 3 = Some s' /\
    rows s' !! 1%nat = ich_row filled_screen 3 <$> rows filled_screen !! 1%nat.
Proof.
  destruct (insert_delete_correct filled_screen 3 filled_screen_ok filled_screen_rows) as [_ Hin]; [lia|].
  destruct Hin as [(s' & E & _ & Hc) _]; [reflexivity|reflexivity|vm_compute; discriminate|].
  exists s'. split; [exact E|]. exact (Hc 1%nat).
Defined.

(** With margins set, ED 2 does not clear the lines outside them. *)
Example clear_screen_keeps_outside :
  let s := setTopBottomMargin filled_screen (Some 1) (Some 2) in
  exists s', clearScreen s = Some s' /\ screen_cell s' 0 0 = screen_cell s 0 0 /\ screen_cell s' 1 0 <> screen_cell s 1 0.
Proof. vm_compute. eexists. split; [reflexivity|]. split; [reflexivity|discriminate]. Qed.

(** DECSED 2 resets the cursor's line again and again and leaves the others. *)
Example selective_erase_misses_lines :
  exists s', selectiveEraseScreen filled_screen = Some s' /\
    screen_cell s' 0 0 = screen_cell filled_screen 0 0 /\ screen_cell s' 1 0 = Some (blank filled_screen).
Proof. vm_compute. eexists. split; [reflexivity|]. split; reflexivity. Qed.

(** A rectangle that reaches past the page is clamped to one column too many. *)
Example selective_area_out_of_range :
  selectiveEraseArea filled_screen (pageSize filled_screen) (mkRect 0 0 1 99) = None.
Proof. reflexivity. Qed.

(** With the cursor inside the margins and origin mode on, ICH may rotate past
    the cells of the cursor. *)
Example insert_in_origin_mode :
  let s := screen_setMode (setLeftRightMargin filled_screen (Some 4) (Some 9)) Origin true in
  let s := moveCursorTo s 1 5 in
  cursor_column s = 9 /\ insertCharacters s 6 = None.
Proof. vm_compute. split; reflexivity. Qed.
