(* ===== verification/ScreenText.v ===== *)
(** * Writing text on the screen (src/vtbackend/Screen.cpp)

    Text arrives in two ways: as single code points, each mapped through the
    character sets, written or joined to the previous grapheme cluster and
    followed by the cursor's advance; and in bulk, where US-ASCII text is put
    into an empty or contiguous trivial line at once.  [None] is an access
    outside a line, a code outside the character set or a failed assertion. *)
From S2P Require Import Prelude Parser Color Cell Ring Line Grid Charset Screen ScreenEdit.

(** What writing text relies on of a cell type: the simple cell with the same
    observations, and what a cell shows after it was made or written. *)
Class TextCells (Cell : Type) `{CellConcept Cell} := {
  shown : Cell -> SimpleCell.t;
  shown_width c : cell_width c = SimpleCell._width (shown c);
  shown_flags c : cell_flags c = attr_flags (SimpleCell._graphicsAttributes (shown c));
  shown_make a h : shown (cell_make a h) = SimpleCell.make a h;
  shown_write_link c a ch w h : ch <> 0 -> 1 <= w -> exists image,
    shown (cell_write_link c a ch w h) = SimpleCell.mk [ch] a w h image /\
    (SimpleCell._imageFragment (shown c) = None -> image = None);
  shown_write a ch w h : ch <> 0 -> 1 <= w ->
    shown (cell_write (cell_setHyperlink cell_default h) a ch w) = SimpleCell.mk [ch] a w h None
}.

#[export] Instance simple_text `{UnicodeWidth} : TextCells SimpleCell.t.
Proof. refine {| shown := id |}; try done. intros c a ch w h _ _. eexists. split; [done|]. done. Defined.

#[export] Instance compact_text `{UnicodeWidth} : TextCells CompactCell.t.
Proof.
  refine {| shown := cell_abs |}; [done|done|apply abs_make| |].
  - intros c a ch w h Hch Hw. eexists. split; [by apply abs_write_link|]. done.
  - intros a ch w h Hch Hw. simpl. rewrite abs_write by done. unfold CompactCell.setHyperlink. destruct a as [afg abg ul f]. simpl.
    destruct (Z.eqb_spec h 0) as [->|], (Z.eqb_spec ul DefaultColor) as [->|]; done.
Defined.

Section ScreenText.
Context `{LibUnicode, UnicodeWidth, GraphemeSegmenter} `{CellConcept Cell}.
Abbreviation Screen := (Screen Cell).
Abbreviation Line := (Line Cell).
Implicit Types (s : Screen) (l : Line).

Definition crlfIfWrapPending s : option Screen :=
  if wrapPending (_cursor s) && autoWrap (_cursor s) then
    l ← currentLine s;
    let lineWrappable := wrappable l in
    s ← crlf s;
    if lineWrappable then
      update_currentLine s (fun l => Some (setFlag l (Flags.of_list [LineFlag.Wrappable; LineFlag.Wrapped]) true))
    else Some s
  else Some s.

(** ** Code point by code point *)

Definition isFlagEnabled (c : Cell) (f : flags) : bool := Flags.contains (cell_flags c) f.

Definition clearAndAdvance s (oldWidth newWidth : Z) : option Screen :=
  let cursorInsideMargin := modeEnabled (_terminal s) LeftRightMargin && isCursorInsideMargins s in
  let cellsAvailable := if cursorInsideMargin then to (horizontal (_margin s)) - cursor_column s - 1
                        else columns (pageSize s) - cursor_column s - 1 in
  let sgr := if 1 <? newWidth then attrs_with (rendition s) CellFlag.WideCharContinuation else rendition s in
  let n := Z.min (Z.max oldWidth newWidth) cellsAvailable in
  s ← (if 1 <? n then
         update_currentLine s
           (update_columns (fun c => cell_reset_link c sgr (c_hyperlink (_cursor s))) (cursor_column s + 1) (n - 1))
       else Some s);
  if newWidth =? Z.min newWidth cellsAvailable then Some (set_column s (cursor_column s + newWidth))
  else if autoWrap (_cursor s) then Some (set_pending s true) else Some s.

Definition writeCharToCurrentAndAdvance s (codepoint : Z) : option Screen :=
  l ← currentLine s;
  cell ← useCellAt l (cursor_column s);
  s ← update_currentLine s (fun l =>
    l ← (if isFlagEnabled cell CellFlag.WideCharContinuation && (0 <? cursor_column s) then
           prevCell ← useCellAt l (cursor_column s - 1);
           setCellAt l (cursor_column s - 1) (cell_reset_attrs prevCell (rendition s))
         else Some l);
    setCellAt l (cursor_column s)
      (cell_write_link cell (rendition s) codepoint (u8 (unicode_width codepoint)) (c_hyperlink (_cursor s))));
  let newWidth := cell_width (cell_write_link cell (rendition s) codepoint (u8 (unicode_width codepoint))
                                (c_hyperlink (_cursor s))) in
  clearAndAdvance (with_last s (position (_cursor s))) (cell_width cell) newWidth.

(** [precedingGraphicCharacter] is the parser's hint. *)
Definition writeTextInternal s (precedingGraphicCharacter sourceCodepoint : Z) : option Screen :=
  s ← crlfIfWrapPending s;
  '(codepoint, m) ← map_code (charsets (_cursor s)) sourceCodepoint;
  let s := with_cursor s (set_charsets (_cursor s) m) in
  if breakable precedingGraphicCharacter codepoint then writeCharToCurrentAndAdvance s codepoint
  else
    let p := _lastCursorPosition s in
    '(s, c) ← use_cell s (line p) (column p);
    let '(c, extendedWidth) := cell_appendCharacter c codepoint in
    s ← put_cell s (line p) (column p) c;
    clearAndAdvance s 0 extendedWidth.

Fixpoint writeTextFromExternal s (precedingGraphicCharacter : Z) (codepoints : list Z) : option Screen :=
  match codepoints with
  | [] => Some s
  | ch :: chs => s ← writeTextInternal s precedingGraphicCharacter ch; writeTextFromExternal s precedingGraphicCharacter chs
  end.

(** ** Bulk text *)

(** The screen with the parser's decoder and hint. *)
Record Printer := mkPrinter { p_screen : Screen; p_utf8 : utf8_decoder_state; p_hint : Z }.

(** [parser().printUtf8Byte]. *)
Definition printUtf8Byte (p : Printer) (ch : Z) : option Printer :=
  let '(r, u) := from_utf8 (p_utf8 p) ch in
  match r with
  | Incomplete => Some (mkPrinter (p_screen p) u (p_hint p))
  | _ =>
      let codepoint := match r with Success v => v | _ => ReplacementCharacter end in
      s ← writeTextInternal (p_screen p) (p_hint p) codepoint;
      Some (mkPrinter s u codepoint)
  end.
Fixpoint print_bytes (p : Printer) (chs : list Z) : option Printer :=
  match chs with
  | [] => Some p
  | ch :: chs => p ← printUtf8Byte p ch; print_bytes p chs
  end.

Definition with_screen (p : Printer) s : Printer := mkPrinter s (p_utf8 p) (p_hint p).

Definition advanceCursorAfterWrite s (n : Z) : option Screen :=
  if cursor_column s + n <=? to (horizontal (_margin s)) + 1 then
    Some (if cursor_column s + n <? columns (pageSize s) then set_column s (cursor_column s + n)
          else set_pending (set_column s (cursor_column s + n - 1)) true)
  else None.

Definition emplaceCharsIntoCurrentLine (p : Printer) (chars : list Z) (cellCount : Z) : option Printer :=
  let s := p_screen p in
  let columnsAvailable := to (horizontal (_margin s)) + 1 - cursor_column s in
  l ← (if cellCount <=? columnsAvailable then currentLine s else None);
  match _buffer l with
  | Trivial b =>
      if line_empty l then
        let b := mkTrivial (displayWidth b) (rendition s) (fillAttributes b) (c_hyperlink (_cursor s)) cellCount chars in
        s ← advanceCursorAfterWrite (put_currentLine s (setBuffer l (Trivial b))) cellCount;
        Some (with_screen p s)
      else print_bytes p chars
  | Inflated _ => print_bytes p chars
  end.

(** Appending to a trivial line whose text ends where the new text begins. *)
Definition grow_text (b : TrivialLineBuffer) (chars : list Z) (cellCount : Z) : TrivialLineBuffer :=
  mkTrivial (displayWidth b) (textAttributes b) (fillAttributes b) (tl_hyperlink b) (usedColumns b + cellCount)
    (text b ++ chars).

(** [ends_here l] is the comparison of the addresses of the text's end and the
    new text's begin.  The result holds the text that is left to print. *)
Definition tryEmplaceChars (ends_here : Line -> bool) (p : Printer) (chars : list Z) (cellCount : Z)
    : option (Printer * list Z) :=
  let s := p_screen p in
  if negb (isFullHorizontalMargins s) then Some (p, chars)
  else if negb (isSelected (charsets (_cursor s)) USASCII) then Some (p, chars)
  else
    s ← crlfIfWrapPending s;
    let p := with_screen p s in
    let columnsAvailable := columns (pageSize s) - cursor_column s in
    if negb (cellCount <=? columnsAvailable) then None
    else if negb (modeEnabled (_terminal s) AutoWrap) && (columnsAvailable <? cellCount) then Some (p, chars)
    else
      l ← currentLine s;
      if cursor_column s =? 0 then
        if line_empty l then
          p ← emplaceCharsIntoCurrentLine p chars cellCount; Some (p, [])
        else Some (p, chars)
      else
        match _buffer l with
        | Trivial b =>
            if ends_here l then
              s ← advanceCursorAfterWrite (put_currentLine s (setBuffer l (Trivial (grow_text b chars cellCount)))) cellCount;
              Some (with_screen p s, [])
            else Some (p, chars)
        | Inflated _ => Some (p, chars)
        end.

Definition writeText (ends_here : Line -> bool) (p : Printer) (chars : list Z) (cellCount : Z) : option Printer :=
  let s := p_screen p in
  if negb (cellCount <=? columns (pageSize s) - cursor_column s) then None
  else
    '(p, rest) ← tryEmplaceChars ends_here p chars cellCount;
    print_bytes p rest.

(** ** One character *)

Context `{!CellLaws Cell}.

(** Everything but cells of the page and the cursor stays. *)
Record text_change s (c : Cursor) (g : nat -> nat -> Cell -> Cell) s' : Prop := {
  tc_ok : screen_ok s';
  tc_rows : rows_ok s';
  tc_size : pageSize s' = pageSize s;
  tc_margin : _margin s' = _margin s;
  tc_saved : _savedCursor s' = _savedCursor s;
  tc_terminal : _terminal s' = _terminal s;
  tc_history : history (_grid s') = history (_grid s);
  tc_cursor : _cursor s' = c;
  tc_cells y x : screen_cell s' y x = g y x <$> screen_cell s y x
}.

Definition on_line (y : Z) (g : nat -> Cell -> Cell) (i x : nat) : Cell -> Cell := if Z.of_nat i =? y then g x else id.

(** The cursor after text of [w] columns, and the cells behind its first column
    that [clearAndAdvance] resets, which spares the last column. *)
Definition advance s (w : Z) : Cursor :=
  if w <=? columns (pageSize s) - cursor_column s - 1
  then set_position (_cursor s) (mkLoc (cursor_line s) (cursor_column s + w))
  else if autoWrap (_cursor s) then set_wrapPending (_cursor s) true else _cursor s.
Definition cleared_cell s (oldWidth newWidth : Z) (x : nat) (c : Cell) : Cell :=
  let n := Z.min (Z.max oldWidth newWidth) (columns (pageSize s) - cursor_column s - 1) in
  if (cursor_column s <? Z.of_nat x) && (Z.of_nat x <? cursor_column s + n)
  then cell_reset_link c (if 1 <? newWidth then attrs_with (rendition s) CellFlag.WideCharContinuation else rendition s)
         (c_hyperlink (_cursor s))
  else c.

Lemma ok_moved_cursor s c : screen_ok s -> line (position c) = cursor_line s ->
  0 <= column (position c) < columns (pageSize s) -> screen_ok (with_cursor s c).
Proof.
  intros [Hg Hl Hc Hv Hh Ht Hcur] Hline Hcol. split; try done; unfold cursor_line, cursor_column in *; simpl in *; by rewrite Hline.
Qed.

Lemma change_of_line s y g s0 c : line_changed s y g s0 -> line (position c) = cursor_line s ->
  0 <= column (position c) < columns (pageSize s) -> text_change s c (on_line y g) (with_cursor s0 c).
Proof.
  intros [[Hs0 Hr Hsz Hcu Hm Hsv Hte Hhi _] Hcells] Hline Hcol. split; try done.
  apply ok_moved_cursor; [done|by rewrite Hline; unfold cursor_line; rewrite Hcu|by rewrite Hsz].
Qed.

Lemma line_changed_trans s y g1 g2 s1 s2 : line_changed s y g1 s1 -> line_changed s1 y g2 s2 ->
  line_changed s y (fun x c => g2 x (g1 x c)) s2.
Proof.
  intros [K1 C1] [K2 C2]. split; [by eapply kept_trans|]. intros i x. rewrite C2, C1.
  destruct (screen_cell s i x); [|done]. simpl. by destruct (_ =? _).
Qed.

Lemma line_changed_refl s y : screen_ok s -> rows_ok s -> line_changed s y (fun _ => id) s.
Proof. intros Hs Hr. split; [by apply kept_refl|]. intros i x. destruct (_ =? _); by rewrite option_fmap_id. Qed.

Lemma clearAndAdvance_spec s ow nw : screen_ok s -> rows_ok s -> 0 <= nw ->
  modeEnabled (_terminal s) LeftRightMargin = false ->
  exists s0, line_changed s (cursor_line s) (cleared_cell s ow nw) s0 /\
    clearAndAdvance s ow nw = Some (with_cursor s0 (advance s nw)).
Proof.
  intros Hs Hr Hnw Hm. pose proof (ok_column s Hs) as Hc. unfold clearAndAdvance. rewrite Hm. simpl.
  set (n := Z.min (Z.max ow nw) (columns (pageSize s) - cursor_column s - 1)).
  assert (Hstep : exists s0, line_changed s (cursor_line s) (cleared_cell s ow nw) s0 /\
    (if 1 <? n then update_currentLine s (update_columns (fun c => cell_reset_link c
        (if 1 <? nw then attrs_with (rendition s) CellFlag.WideCharContinuation else rendition s)
        (c_hyperlink (_cursor s))) (cursor_column s + 1) (n - 1)) else Some s) = Some s0).
  { destruct (Z.ltb_spec 1 n) as [Hn|Hn].
    - rewrite update_currentLine_line by done. set (f := fun c => cell_reset_link c _ _).
      destruct (change_line s (update_columns f (cursor_column s + 1) (n - 1)) _ Hs Hr
        (cellwise_columns f (cursor_column s + 1) (n - 1) (columns (pageSize s)) ltac:(lia) ltac:(lia) ltac:(unfold n; lia)))
        as (s0 & E & Hch).
      exists s0. split; [|exact E].
      eapply line_changed_ext; [|done|exact Hch]. intros x c Hx _. simpl. unfold cleared_cell, within. fold n.
      destruct (Z.ltb_spec (cursor_column s) (Z.of_nat x)); zbool; simpl; [|done].
      destruct (Z.ltb_spec (Z.of_nat x) (cursor_column s + n)); zbool; done.
    - exists s. split; [|done]. eapply line_changed_ext; [|done|by apply line_changed_refl].
      intros x c Hx _. unfold cleared_cell. fold n. destruct (Z.ltb_spec (cursor_column s) (Z.of_nat x)); [|done].
      by zbool. }
  destruct Hstep as (s0 & Hch & ->). exists s0. split; [done|]. cbn [mbind option_bind].
  destruct Hch as [Hk _]. pose proof (kept_cursor _ _ Hk) as Ecu. unfold advance.
  replace (nw =? Z.min nw (columns (pageSize s) - cursor_column s - 1))
    with (nw <=? columns (pageSize s) - cursor_column s - 1) by lia.
  unfold set_column, set_pending, cursor_column, cursor_line. rewrite !Ecu.
  repeat case_match; try done. f_equal. destruct s0. simpl in *. by subst.
Qed.

Lemma currentLine_row s : screen_ok s -> rows_ok s -> exists l, currentLine s = Some l /\
  row_ok (columns (pageSize s)) l /\ rows s !! Z.to_nat (cursor_line s) = Some (row l).
Proof.
  intros Hs Hr. destruct (lineAt_row s (cursor_line s) Hs Hr (ok_line s Hs)) as (l & E & Hl & Er).
  exists l. split; [|done]. unfold currentLine. rewrite (ok_current s Hs). exact E.
Qed.

Lemma useCellAt_row w l x : row_ok w l -> 0 <= x < w -> useCellAt l x = row l !! Z.to_nat x.
Proof. intros (Hi & Hw & Hs) Hx. unfold useCellAt. rewrite Hi, Hs. cbn [mbind option_bind]. by zbool. Qed.

Lemma cellwise_comp f1 f2 w g1 g2 : cellwise f1 w g1 -> cellwise f2 w g2 ->
  cellwise (fun l => l ← f1 l; f2 l) w (fun x c => g2 x (g1 x c)).
Proof.
  intros H1' H2' l Hl. destruct (H1' l Hl) as (l1 & -> & Hl1 & C1). destruct (H2' l1 Hl1) as (l2 & E2 & Hl2 & C2).
  exists l2. split_and!; [exact E2|done|]. intros x. rewrite C2, C1. by destruct (row l !! x).
Qed.

Lemma cellwise_blank w x a : 0 <= x < w ->
  cellwise (fun l => prev ← useCellAt l x; setCellAt l x (cell_reset_attrs prev a)) w
    (fun i c => if Z.of_nat i =? x then cell_make a 0 else c).
Proof.
  intros Hx l Hl. rewrite (useCellAt_row w) by done. pose proof Hl as (_ & Hw & _).
  destruct (lookup_lt_is_Some_2 (row l) (Z.to_nat x)) as [c ->]; [lia|]. cbn [mbind option_bind]. rewrite reset_attrs_make.
  destruct (cellwise_set w x (cell_make a 0) Hx l Hl) as (l' & E & Hl' & Hc). exists l'. split_and!; [done|done|].
  intros i. rewrite Hc. by destruct (_ =? _).
Qed.

(** The cell a character is written to, and the line around it. *)
Definition typed s (old : Cell) (codepoint : Z) : Cell :=
  cell_write_link old (rendition s) codepoint (u8 (unicode_width codepoint)) (c_hyperlink (_cursor s)).
Definition typed_width s old codepoint : Z := cell_width (typed s old codepoint).
Definition written_cell s (old : Cell) (codepoint : Z) (x : nat) (c : Cell) : Cell :=
  if Z.of_nat x =? cursor_column s then typed s old codepoint
  else if isFlagEnabled old CellFlag.WideCharContinuation && (Z.of_nat x =? cursor_column s - 1) then blank s
  else cleared_cell s (cell_width old) (typed_width s old codepoint) x c.

Lemma cellwise_put (a : GraphicsAttributes) (cont : bool) (x w : Z) (new : Cell) : 0 <= x < w ->
  cellwise (fun l =>
    l ← (if cont && (0 <? x) then prev ← useCellAt l (x - 1); setCellAt l (x - 1) (cell_reset_attrs prev a) else Some l);
    setCellAt l x new) w
  (fun i c => if Z.of_nat i =? x then new else if cont && (Z.of_nat i =? x - 1) then cell_make a 0 else c).
Proof.
  intros Hx. destruct (cont && (0 <? x)) eqn:Ec.
  - apply andb_prop in Ec as [-> Hpos]. eapply cellwise_ext, cellwise_comp; [|apply (cellwise_blank w (x - 1) a); lia|by apply cellwise_set].
    intros i c _. simpl. by destruct (_ =? x).
  - eapply cellwise_ext, (cellwise_set w x new Hx). intros i c _. simpl.
    destruct (Z.eqb_spec (Z.of_nat i) x); [done|]. destruct cont; [|done]. simpl in *. by zbool.
Qed.

Lemma with_last_changed s y g p s' : line_changed (with_last s p) y g s' -> line_changed s y g s'.
Proof. intros [[] Hc]. by split. Qed.

Lemma ok_with_last s p : screen_ok s -> screen_ok (with_last s p).
Proof. by intros []. Qed.

Lemma writeChar_spec s old codepoint : screen_ok s -> rows_ok s ->
  modeEnabled (_terminal s) LeftRightMargin = false ->
  cell_at s (position (_cursor s)) = Some old -> 0 <= typed_width s old codepoint ->
  exists s', writeCharToCurrentAndAdvance s codepoint = Some s' /\
    text_change s (advance s (typed_width s old codepoint)) (on_line (cursor_line s) (written_cell s old codepoint)) s'.
Proof.
  intros Hs Hr Hm Hold Hw. pose proof (ok_column s Hs) as Hc. unfold writeCharToCurrentAndAdvance.
  destruct (currentLine_row s Hs Hr) as (l & -> & Hl & Er). cbn [mbind option_bind].
  unfold cell_at, screen_cell in Hold. fold (cursor_line s) (cursor_column s) in Hold. rewrite Er in Hold. simpl in Hold.
  rewrite (useCellAt_row (columns (pageSize s)) l (cursor_column s)), Hold by done. cbn [mbind option_bind].
  rewrite update_currentLine_line by done. fold (typed s old codepoint). fold (typed_width s old codepoint).
  destruct (change_line s _ _ Hs Hr (cellwise_put (rendition s) (isFlagEnabled old CellFlag.WideCharContinuation)
    (cursor_column s) _ (typed s old codepoint) Hc)) as (s1 & E1 & Hch1).
  rewrite E1. cbn [mbind option_bind]. pose proof Hch1 as [K1 _]. pose proof (kept_cursor _ _ K1) as Ecu.
  fold (typed s1 old codepoint). fold (typed_width s1 old codepoint).
  assert (Et : typed_width s1 old codepoint = typed_width s old codepoint)
    by (unfold typed_width, typed, rendition; by rewrite Ecu). rewrite Et.
  destruct (clearAndAdvance_spec (with_last s1 (position (_cursor s1))) (cell_width old) (typed_width s old codepoint))
    as (s3 & Hch3 & E3); [apply ok_with_last, K1|apply K1|done|simpl; by rewrite (kept_terminal _ _ K1)|].
  rewrite E3. eexists. split; [done|]. apply with_last_changed in Hch3.
  replace (cursor_line (with_last s1 (position (_cursor s1)))) with (cursor_line s) in Hch3 by (unfold cursor_line; by rewrite <- Ecu).
  pose proof (line_changed_trans _ _ _ _ _ _ Hch1 Hch3) as Hch.
  assert (Eadv : advance (with_last s1 (position (_cursor s1))) (typed_width s old codepoint) = advance s (typed_width s old codepoint)).
  { unfold advance, cursor_column, cursor_line. pose proof (kept_size _ _ K1) as Esz. unfold pageSize in *. simpl. by rewrite Ecu, Esz. }
  rewrite Eadv. apply change_of_line.
  - eapply line_changed_ext; [|done|exact Hch]. intros x c Hx _. simpl. unfold written_cell, cleared_cell, blank, cursor_column, rendition, pageSize.
    pose proof (kept_size _ _ K1) as Esz. unfold pageSize in Esz. simpl. rewrite Ecu, Esz. fold (cursor_column s).
    destruct (Z.eqb_spec (Z.of_nat x) (cursor_column s)) as [->|Hne]; [by rewrite Z.ltb_irrefl|].
    destruct (isFlagEnabled _ _); [|done]. simpl. destruct (Z.eqb_spec (Z.of_nat x) (cursor_column s - 1)) as [->|]; [|done]. by zbool.
  - unfold advance. repeat case_match; done.
  - unfold advance. fold (cursor_column s). repeat case_match; simpl; unfold cursor_column in *; lia.
Qed.

Context `{!TextCells Cell}.

Lemma typed_width_eq s old cp : cp <> 0 -> 1 <= unicode_width cp < 256 -> typed_width s old cp = unicode_width cp.
Proof.
  intros Hcp Hw. unfold typed_width, typed. rewrite shown_width. unfold u8. rewrite Z.mod_small by lia.
  by destruct (shown_write_link old (rendition s) cp (unicode_width cp) (c_hyperlink (_cursor s))) as (i & -> & _); [done|lia|].
Qed.

Lemma text_change_charsets s m c g s' :
  text_change (with_cursor s (set_charsets (_cursor s) m)) c g s' -> text_change s c g s'.
Proof. by intros []. Qed.

Lemma ok_charsets s m : screen_ok s -> screen_ok (with_cursor s (set_charsets (_cursor s) m)).
Proof. by intros []. Qed.

Lemma writeTextInternal_spec s hint source cp m old : screen_ok s -> rows_ok s ->
  wrapPending (_cursor s) && autoWrap (_cursor s) = false ->
  modeEnabled (_terminal s) LeftRightMargin = false ->
  map_code (charsets (_cursor s)) source = Some (cp, m) -> breakable hint cp = true ->
  cp <> 0 -> 1 <= unicode_width cp <= 2 -> cell_at s (position (_cursor s)) = Some old ->
  exists s', writeTextInternal s hint source = Some s' /\
    text_change s (advance (with_cursor s (set_charsets (_cursor s) m)) (unicode_width cp))
      (on_line (cursor_line s) (written_cell s old cp)) s'.
Proof.
  intros Hs Hr Hp Hm Hmap Hb Hcp Hw Hold. unfold writeTextInternal, crlfIfWrapPending.
  rewrite Hp. cbn [mbind option_bind]. rewrite Hmap. cbn [mbind option_bind]. rewrite Hb.
  set (s1 := with_cursor s (set_charsets (_cursor s) m)).
  destruct (writeChar_spec s1 old cp) as (s' & E & Hc); [by apply ok_charsets|done|done|done| |].
  { rewrite typed_width_eq by lia. lia. }
  exists s'. split; [done|]. rewrite typed_width_eq in Hc by lia. by apply text_change_charsets in Hc.
Qed.

(** What writing a character is to do to the cells behind it and around it:
    all columns that the new or the old character reaches over are reset, as
    the right half of a wide character where the new one is wide. *)
Definition tail_cell s (oldWidth newWidth : Z) (x : nat) (c : Cell) : Cell :=
  if (cursor_column s <? Z.of_nat x) && (Z.of_nat x <? cursor_column s + Z.max oldWidth newWidth)
  then cell_reset_link c (if 1 <? newWidth then attrs_with (rendition s) CellFlag.WideCharContinuation else rendition s)
         (c_hyperlink (_cursor s))
  else c.
Definition typed_cell s (old : Cell) (codepoint : Z) (x : nat) (c : Cell) : Cell :=
  if Z.of_nat x =? cursor_column s then typed s old codepoint
  else if isFlagEnabled old CellFlag.WideCharContinuation && (Z.of_nat x =? cursor_column s - 1) then blank s
  else tail_cell s (cell_width old) (unicode_width codepoint) x c.

(** A character that is wide, or written over a wide one, ends before the last column. *)
Definition before_edge s (oldWidth newWidth : Z) : Prop :=
  1 < Z.max oldWidth newWidth -> cursor_column s + Z.max oldWidth newWidth < columns (pageSize s).

Lemma written_as_typed s old cp x c : cp <> 0 -> 1 <= unicode_width cp <= 2 ->
  before_edge s (cell_width old) (unicode_width cp) -> written_cell s old cp x c = typed_cell s old cp x c.
Proof.
  intros Hcp Hw He. unfold written_cell, typed_cell. rewrite typed_width_eq by lia. unfold cleared_cell, tail_cell, before_edge in *.
  set (n := Z.max (cell_width old) (unicode_width cp)) in *. repeat case_match; try done; lia.
Qed.

(** C33: Writing a code point other than 0 that starts a grapheme cluster and is one or two
    columns wide, on a valid screen with no line wrap due (pending while autowrap is on) and the
    mode of left and right margins off, and, if it is wide or is written over a wide character,
    with the character ending before the last column: it is mapped through the character sets
    and written with the rendition and hyperlink of the cursor into the cell under it. If that
    cell was the right half of a wide character, the left half is blanked; all columns the new
    or the old character reaches over are reset, as the right half of a wide character where the
    new one is wide; every other cell stays. The cursor moves behind the character or, where the
    line has no room for that, stays and remembers the wrap if autowrap is on. At the right edge
    the half of a wide character is not repaired (wide_at_end_of_line). *)
Theorem write_char_correct s hint source cp m old : screen_ok s -> rows_ok s ->
  wrapPending (_cursor s) && autoWrap (_cursor s) = false ->
  modeEnabled (_terminal s) LeftRightMargin = false ->
  map_code (charsets (_cursor s)) source = Some (cp, m) -> breakable hint cp = true ->
  cp <> 0 -> 1 <= unicode_width cp <= 2 -> cell_at s (position (_cursor s)) = Some old ->
  before_edge s (cell_width old) (unicode_width cp) ->
  exists s', writeTextInternal s hint source = Some s' /\
    text_change s (advance (with_cursor s (set_charsets (_cursor s) m)) (unicode_width cp))
      (on_line (cursor_line s) (typed_cell s old cp)) s'.
Proof.
  intros Hs Hr Hp Hm Hmap Hb Hcp Hw Hold He.
  destruct (writeTextInternal_spec s hint source cp m old) as (s' & E & []); [done..|]. exists s'. split; [done|].
  split; try done. intros y x. rewrite tc_cells0. destruct (screen_cell s y x); [|done]. simpl. unfold on_line.
  destruct (_ =? _); [|done]. by rewrite written_as_typed.
Qed.

(** ** Runs of US-ASCII text *)

Context `{!AsciiLaws}.

Definition plain_charsets (c : CharsetMapping) : Prop :=
  _tableForNextGraphic c = _selectedTable c /\ _tables c (_selectedTable c) = USASCII.

Lemma map_ascii c ch : plain_charsets c -> printable ch -> map_code c ch = Some (ch, c).
Proof.
  intros [Hn Hu] Hp. unfold printable in Hp. unfold map_code. zbool. unfold map_table. rewrite Hn, Hu. simpl.
  unfold u8. rewrite Z.mod_small by lia. unfold usasciiCharset. rewrite lookup_seqZ_lt by lia. cbn [mbind option_bind].
  destruct c as [a b t]. simpl in *. subst. do 2 f_equal. lia.
Qed.

(** The cursor after [n] narrow characters. *)
Definition cursor_after s (n : Z) : Cursor :=
  if cursor_column s + n <? columns (pageSize s)
  then set_position (_cursor s) (mkLoc (cursor_line s) (cursor_column s + n))
  else set_wrapPending (set_position (_cursor s) (mkLoc (cursor_line s) (columns (pageSize s) - 1))) true.

Definition narrow_cell (c : Cell) : Prop := cell_width c = 1 /\ isFlagEnabled c CellFlag.WideCharContinuation = false.
Definition run_cell s (chs : list Z) (x : nat) (c : Cell) : Cell :=
  match chs !! Z.to_nat (Z.of_nat x - cursor_column s) with
  | Some ch => if cursor_column s <=? Z.of_nat x then typed s c ch else c
  | None => c
  end.

Lemma text_change_trans s c1 g1 s1 c2 g2 s2 : text_change s c1 g1 s1 -> text_change s1 c2 g2 s2 ->
  text_change s c2 (fun y x c => g2 y x (g1 y x c)) s2.
Proof.
  intros [] []. split; try done; try congruence. intros y x. rewrite tc_cells1, tc_cells0. by destruct (screen_cell s y x).
Qed.

(** A printer at a place where text may run on, and its rest of the line. *)
Record ready (p : Printer) : Prop := {
  rd_ok : screen_ok (p_screen p);
  rd_rows : rows_ok (p_screen p);
  rd_utf8 : p_utf8 p = utf8_init;
  rd_hint : p_hint p = 0 \/ printable (p_hint p);
  rd_wrap : autoWrap (_cursor (p_screen p)) = true;
  rd_margins : modeEnabled (_terminal (p_screen p)) LeftRightMargin = false;
  rd_charsets : plain_charsets (charsets (_cursor (p_screen p)))
}.

Lemma cell_under_cursor s : screen_ok s -> rows_ok s -> exists old, cell_at s (position (_cursor s)) = Some old.
Proof.
  intros Hs Hr. destruct (use_cell_ok s (position (_cursor s)) Hs Hr) as (_ & c & _ & _ & E & _); [|by exists c].
  split; [apply (ok_line s Hs)|apply (ok_column s Hs)].
Qed.

Lemma advance_one s : screen_ok s -> autoWrap (_cursor s) = true -> advance s 1 = cursor_after s 1.
Proof.
  intros Hs Ha. pose proof (ok_column s Hs) as Hc. unfold advance, cursor_after. rewrite Ha.
  destruct (Z.ltb_spec (cursor_column s + 1) (columns (pageSize s))); zbool; [done|].
  replace (columns (pageSize s) - 1) with (cursor_column s) by lia. unfold cursor_column, cursor_line.
  by destruct (_cursor s) as [[]].
Qed.

Lemma print_byte_ascii p ch : ready p -> printable ch -> wrapPending (_cursor (p_screen p)) = false ->
  exists p' old, printUtf8Byte p ch = Some p' /\ p_utf8 p' = utf8_init /\ p_hint p' = ch /\
    cell_at (p_screen p) (position (_cursor (p_screen p))) = Some old /\
    text_change (p_screen p) (cursor_after (p_screen p) 1)
      (on_line (cursor_line (p_screen p)) (written_cell (p_screen p) old ch)) (p_screen p').
Proof.
  intros [Hs Hr Hu Hh Ha Hm Hcs] Hch Hp. destruct (cell_under_cursor _ Hs Hr) as [old Hold].
  unfold printUtf8Byte. rewrite Hu, utf8_ascii by done.
  destruct (writeTextInternal_spec (p_screen p) (p_hint p) ch ch (charsets (_cursor (p_screen p))) old) as (s' & E & Hc);
    [done|done|by rewrite Hp|done|by apply map_ascii|by apply ascii_breakable|unfold printable in Hch; lia|
     rewrite ascii_columns by done; lia|done|].
  rewrite E. cbn [mbind option_bind]. eexists _, old. split_and!; [done|done|done|done|]. simpl.
  rewrite ascii_columns in Hc by done.
  replace (with_cursor _ _) with (p_screen p) in Hc by (by destruct (p_screen p) as [[]]).
  by rewrite advance_one in Hc.
Qed.

Lemma ready_step p p' g : ready p -> p_utf8 p' = utf8_init -> printable (p_hint p') ->
  text_change (p_screen p) (cursor_after (p_screen p) 1) g (p_screen p') -> ready p'.
Proof.
  intros [Hs Hr Hu Hh Ha Hm Hcs] Hu' Hh' []. split; try done; [by right| | |].
  - rewrite tc_cursor0. unfold cursor_after. by case_match.
  - by rewrite tc_terminal0.
  - rewrite tc_cursor0. unfold cursor_after. by case_match.
Qed.

Lemma narrow_neighbours s old ch x c : printable ch -> narrow_cell old -> Z.of_nat x <> cursor_column s ->
  written_cell s old ch x c = c.
Proof.
  intros Hch [Hw Hf] Hx. unfold written_cell. zbool. rewrite Hf. simpl.
  unfold printable in Hch. rewrite typed_width_eq by (rewrite ?ascii_columns by done; lia).
  rewrite ascii_columns, Hw by done. unfold cleared_cell. zbool. simpl.
  destruct (Z.ltb_spec (cursor_column s) (Z.of_nat x)); [|done]. simpl. by zbool.
Qed.

(** The cells of the cursor's line from the cursor on for [n] columns. *)
Definition narrow_ahead s (n : nat) : Prop :=
  forall x c, cursor_column s <= Z.of_nat x < cursor_column s + Z.of_nat n ->
    screen_cell s (Z.to_nat (cursor_line s)) x = Some c -> narrow_cell c.

Lemma cursor_after_zero s : screen_ok s -> cursor_after s 0 = _cursor s.
Proof.
  intros Hs. pose proof (ok_column s Hs). unfold cursor_after. zbool. rewrite Z.add_0_r.
  unfold cursor_column, cursor_line. by destruct (_cursor s) as [[]].
Qed.

Lemma text_change_refl s : screen_ok s -> rows_ok s -> text_change s (_cursor s) (fun _ _ => id) s.
Proof. intros Hs Hr. split; try done. intros y x. by rewrite option_fmap_id. Qed.

Lemma text_change_ext s c g g' s' : (forall y x v, screen_cell s y x = Some v -> g y x v = g' y x v) ->
  text_change s c g s' -> text_change s c g' s'.
Proof.
  intros Hg []. split; try done. intros y x. rewrite tc_cells0. destruct (screen_cell s y x) eqn:E; [|done]. simpl.
  f_equal. by apply Hg.
Qed.

(** The first character of a run, then the rest. *)
Lemma run_cell_cons s s1 old ch chs x c : printable ch -> narrow_cell old ->
  _cursor s1 = cursor_after s 1 -> pageSize s1 = pageSize s -> cursor_column s + 1 < columns (pageSize s) ->
  (Z.of_nat x = cursor_column s -> c = old) ->
  run_cell s1 chs x (written_cell s old ch x c) = run_cell s (ch :: chs) x c.
Proof.
  intros Hch Hn Hcu Hsz Hroom Hc. unfold cursor_after in Hcu. rewrite (proj2 (Z.ltb_lt _ _) Hroom) in Hcu.
  assert (Ht : forall v k, typed s1 v k = typed s v k) by (intros; unfold typed, rendition; by rewrite Hcu).
  assert (Ecol : cursor_column s1 = cursor_column s + 1) by (unfold cursor_column at 1; by rewrite Hcu).
  unfold run_cell. rewrite Ecol.
  destruct (Z.eqb_spec (Z.of_nat x) (cursor_column s)) as [Hx|Hx].
  - rewrite Hx, Z.sub_diag, Z.leb_refl. simpl. rewrite (Hc Hx). zbool. unfold written_cell. rewrite Hx, Z.eqb_refl.
    by case_match.
  - rewrite narrow_neighbours by done. destruct (Z.leb_spec (cursor_column s) (Z.of_nat x)) as [Hle|Hgt].
    + replace (Z.to_nat (Z.of_nat x - cursor_column s)) with (S (Z.to_nat (Z.of_nat x - (cursor_column s + 1)))) by lia.
      simpl. zbool. case_match; [apply Ht|done].
    + zbool. by repeat case_match.
Qed.

Lemma run_cell_one s old ch x c : printable ch -> narrow_cell old -> (Z.of_nat x = cursor_column s -> c = old) ->
  written_cell s old ch x c = run_cell s [ch] x c.
Proof.
  intros Hch Hn Hc. unfold run_cell. destruct (Z.eqb_spec (Z.of_nat x) (cursor_column s)) as [Hx|Hx].
  - rewrite Hx, Z.sub_diag, Z.leb_refl. simpl. unfold written_cell. by rewrite Hx, Z.eqb_refl, (Hc Hx).
  - rewrite narrow_neighbours by done. destruct (Z.leb_spec (cursor_column s) (Z.of_nat x)); [|by case_match].
    rewrite lookup_ge_None_2; [done|]. simpl. lia.
Qed.

Lemma narrow_step s s1 old ch n : screen_ok s -> printable ch -> narrow_cell old -> cursor_column s + 1 < columns (pageSize s) ->
  text_change s (cursor_after s 1) (on_line (cursor_line s) (written_cell s old ch)) s1 ->
  narrow_ahead s (S n) -> narrow_ahead s1 n.
Proof.
  intros Hs Hch Hnar Hroom Hc Hn x c Hx Ec. pose proof (ok_line s Hs) as Hl.
  pose proof (tc_cursor _ _ _ _ Hc) as Hcu. unfold cursor_after in Hcu. rewrite (proj2 (Z.ltb_lt _ _) Hroom) in Hcu.
  unfold cursor_column, cursor_line in Hx, Ec. rewrite Hcu in Hx, Ec. simpl in Hx, Ec. fold (cursor_column s) in Hx.
  rewrite (tc_cells _ _ _ _ Hc) in Ec. unfold on_line in Ec. rewrite Z2Nat.id, Z.eqb_refl in Ec by lia.
  destruct (screen_cell s _ x) as [v|] eqn:Ev; [|done]. simpl in Ec.
  rewrite narrow_neighbours in Ec by (done || lia). injection Ec as <-. by apply (Hn x); [lia|].
Qed.

Lemma cursor_after_step s s1 n : _cursor s1 = cursor_after s 1 -> pageSize s1 = pageSize s ->
  cursor_column s + 1 < columns (pageSize s) ->
  cursor_after s1 n = cursor_after s (1 + n) /\ cursor_column s1 = cursor_column s + 1 /\ cursor_line s1 = cursor_line s /\
  wrapPending (_cursor s1) = wrapPending (_cursor s).
Proof.
  intros Hcu Hsz Hroom. unfold cursor_after in Hcu. rewrite (proj2 (Z.ltb_lt _ _) Hroom) in Hcu.
  unfold cursor_after, cursor_column, cursor_line in *. rewrite Hcu, Hsz. simpl. split_and!; try done.
  rewrite Z.add_assoc. by case_match.
Qed.

Lemma print_ascii chs : forall p, ready p -> Forall printable chs ->
  wrapPending (_cursor (p_screen p)) = false ->
  cursor_column (p_screen p) + Z.of_nat (length chs) <= columns (pageSize (p_screen p)) ->
  exists p' g, print_bytes p chs = Some p' /\
    text_change (p_screen p) (cursor_after (p_screen p) (Z.of_nat (length chs))) g (p_screen p') /\
    (narrow_ahead (p_screen p) (length chs) -> forall y x v, screen_cell (p_screen p) y x = Some v ->
       g y x v = on_line (cursor_line (p_screen p)) (run_cell (p_screen p) chs) y x v).
Proof.
  induction chs as [|ch chs IH]; intros p Hrd Hch Hp Hroom.
  { destruct Hrd. exists p, (fun _ _ => id). split_and!; [done|rewrite cursor_after_zero by done; by apply text_change_refl|].
    intros _ y x v _. unfold on_line, run_cell. by case_match. }
  apply Forall_cons in Hch as [Hc Hchs]. simpl length in Hroom.
  destruct (print_byte_ascii p ch Hrd Hc Hp) as (p1 & old & E & Hu & Hh & Hold & Hch1).
  cbn [print_bytes]. rewrite E. cbn [mbind option_bind]. pose proof (ready_step _ _ _ Hrd Hu ltac:(by rewrite Hh) Hch1) as Hrd1.
  pose proof (rd_ok _ Hrd) as Hs. pose proof (ok_column _ Hs) as Hcol. pose proof (ok_line _ Hs) as Hlin.
  set (s := p_screen p) in *. set (s1 := p_screen p1) in *.
  assert (Hnar : forall n, narrow_ahead s (S n) -> narrow_cell old)
    by (intros n Hn; apply (Hn (Z.to_nat (cursor_column s))); [lia|exact Hold]).
  assert (Hat : forall y x v, Z.of_nat y = cursor_line s -> screen_cell s y x = Some v -> Z.of_nat x = cursor_column s -> v = old).
  { intros y x v Hy Ev Hx. unfold cell_at in Hold. fold (cursor_line s) (cursor_column s) in Hold.
    rewrite <- Hy, <- Hx, !Nat2Z.id in Hold. congruence. }
  destruct chs as [|ch2 chs0] eqn:Echs.
  - exists p1, (on_line (cursor_line s) (written_cell s old ch)). split_and!; [done|exact Hch1|].
    intros Hn y x v Ev. unfold on_line. destruct (Z.eqb_spec (Z.of_nat y) (cursor_line s)) as [Hy|]; [|done].
    apply run_cell_one; eauto.
  - rewrite <- Echs in *. assert (Hlen : 0 < Z.of_nat (length chs)) by (subst; simpl; lia).
    destruct (cursor_after_step s s1 (Z.of_nat (length chs))) as (Eaf & Ecol & Elin & Ewp);
      [apply Hch1|apply Hch1|lia|].
    destruct (IH p1) as (p' & g & E' & Hch' & Hg); [done|done|fold s1; by rewrite Ewp| |].
    { fold s1. rewrite Ecol, (tc_size _ _ _ _ Hch1). lia. }
    fold s1 in Hch', Hg. rewrite Eaf in Hch'. eexists p', _. split; [done|]. split.
    + replace (Z.of_nat (length (ch :: chs))) with (1 + Z.of_nat (length chs)) by (simpl; lia). by eapply text_change_trans.
    + intros Hn y x v Ev. cbv beta. rewrite Hg; [|eapply narrow_step; eauto; lia|by rewrite (tc_cells _ _ _ _ Hch1), Ev].
      unfold on_line. rewrite Elin. destruct (Z.eqb_spec (Z.of_nat y) (cursor_line s)) as [Hy|]; [|done].
      apply run_cell_cons; [done|eauto|apply Hch1|apply Hch1|lia|eauto].
Qed.

(** ** Bulk text against text byte by byte *)

Lemma put_currentLine_ok s l l' : screen_ok s -> rows_ok s -> currentLine s = Some l -> row_ok (columns (pageSize s)) l' ->
  kept s (put_currentLine s l') /\
  forall i : nat, rows (put_currentLine s l') !! i = (if Z.of_nat i =? cursor_line s then (fun _ => row l') else id) <$> rows s !! i.
Proof.
  intros Hs Hr El Hl'. destruct (replace_row s (fun _ => Some l') (fun _ => row l') Hs Hr) as (s' & E & Hk); [by eauto|].
  rewrite <- update_currentLine_line in E by done. unfold update_currentLine in E. rewrite El in E. simpl in E.
  injection E as <-. exact Hk.
Qed.

(** A trivial line whose text ends at the cursor and can be continued with the
    cursor's attributes. *)
Record continues s (b : TrivialLineBuffer) : Prop := {
  ct_text : Forall printable (text b);
  ct_end : Z.of_nat (length (text b)) = cursor_column s;
  ct_attrs : text b = [] \/ textAttributes b = rendition s /\ tl_hyperlink b = c_hyperlink (_cursor s);
  ct_fill : Flags.contains (attr_flags (fillAttributes b)) CellFlag.WideCharContinuation = false
}.
Definition continued s (b : TrivialLineBuffer) (used : Z) (chs : list Z) : TrivialLineBuffer :=
  mkTrivial (displayWidth b) (rendition s) (fillAttributes b) (c_hyperlink (_cursor s)) used (text b ++ chs).

Section Continue.
Context s l b (Hs : screen_ok s) (Hl : row_ok (columns (pageSize s)) l) (Hb : _buffer l = Trivial b) (Hct : continues s b).

Lemma trivial_width : displayWidth b = columns (pageSize s).
Proof. destruct Hl as (_ & _ & Hw). unfold line_size in Hw. by rewrite Hb in Hw. Qed.

Lemma continues_row : row l = (ascii_cell b <$> text b) ++
  replicate (Z.to_nat (displayWidth b) - length (text b)) (cell_make (fillAttributes b) 0).
Proof.
  destruct Hct. pose proof (ok_column s Hs). pose proof trivial_width. unfold row, inflatedBuffer.
  rewrite Hb, inflate_ascii_cells by (done || lia). done.
Qed.

Lemma continued_row used chs : Forall printable chs -> cursor_column s + Z.of_nat (length chs) <= columns (pageSize s) ->
  let b' := continued s b used chs in
  let l' := setBuffer l (Trivial b') in
  row_ok (columns (pageSize s)) l' /\ row l' = (ascii_cell b' <$> text b ++ chs) ++
    replicate (Z.to_nat (displayWidth b) - length (text b ++ chs)) (cell_make (fillAttributes b) 0).
Proof.
  intros Hch Hroom b' l'. destruct Hct. pose proof trivial_width.
  assert (E : inflatedBuffer l' = Some ((ascii_cell b' <$> text b ++ chs) ++
    replicate (Z.to_nat (displayWidth b) - length (text b ++ chs)) (cell_make (fillAttributes b) 0))).
  { unfold inflatedBuffer, l'. simpl. rewrite inflate_ascii_cells; [done|by apply Forall_app|simpl; len; lia]. }
  pose proof (row_inflated _ _ E) as Er. split; [|done]. split_and!; [by rewrite Er|rewrite Er; len; lia|done].
Qed.

Lemma blank_narrow : narrow_cell (cell_make (fillAttributes b) 0).
Proof. split; [by rewrite shown_width, shown_make|]. unfold isFlagEnabled. rewrite shown_flags, shown_make. apply Hct. Qed.

Lemma shown_typed_blank a ch : printable ch ->
  shown (typed s (cell_make a 0) ch) = SimpleCell.mk [ch] (rendition s) 1 (c_hyperlink (_cursor s)) None.
Proof.
  intros Hch. unfold typed. rewrite ascii_columns by done.
  destruct (shown_write_link (cell_make a 0) (rendition s) ch (u8 1) (c_hyperlink (_cursor s))) as (i & -> & Hi);
    [unfold printable in Hch; lia|done|]. rewrite Hi; [done|]. by rewrite shown_make.
Qed.

(** The line with the text put into its buffer shows what the line with the
    text written cell by cell shows. *)
Lemma continued_shown used chs (x : nat) : Forall printable chs ->
  cursor_column s + Z.of_nat (length chs) <= columns (pageSize s) ->
  shown <$> row (setBuffer l (Trivial (continued s b used chs))) !! x = shown <$> (run_cell s chs x <$> row l !! x).
Proof.
  intros Hch Hroom. destruct (continued_row used chs Hch Hroom) as [_ ->]. rewrite continues_row.
  pose proof trivial_width as Hw. destruct Hct as [Htx Hend Hat Hfl]. unfold run_cell. rewrite fmap_app, <- app_assoc.
  destruct (decide (x < length (text b))%nat) as [Hx|Hx].
  - rewrite !lookup_app_l by (len; lia). rewrite !list_lookup_fmap. zbool.
    destruct (text b !! x) as [ch|] eqn:Ex; [|by repeat case_match]. simpl.
    replace (match chs !! _ with Some _ => _ | None => _ end) with (ascii_cell b ch) by (by case_match). do 2 f_equal.
    destruct Hat as [E|[Ea Eh]]; [by rewrite E in Ex|]. unfold ascii_cell. simpl. by rewrite Ea, Eh.
  - rewrite !(lookup_app_r (_ <$> text b)) by (len; lia). rewrite !length_fmap.
    replace (Z.to_nat (Z.of_nat x - cursor_column s)) with (x - length (text b))%nat by lia. set (k := (x - length (text b))%nat). zbool.
    destruct (chs !! k) as [ch|] eqn:Ek.
    + pose proof (lookup_lt_Some _ _ _ Ek) as Hk. rewrite lookup_app_l, list_lookup_fmap, Ek by (len; lia).
      rewrite lookup_replicate_2 by lia. simpl. f_equal. apply (proj1 (Forall_lookup _ _) Hch) in Ek.
      rewrite shown_typed_blank by done. unfold ascii_cell. simpl. apply shown_write; [unfold printable in Ek; lia|done].
    + apply lookup_ge_None_1 in Ek. rewrite lookup_app_r by (len; lia).
      destruct (decide (x < Z.to_nat (displayWidth b))%nat).
      * rewrite !lookup_replicate_2 by (len; lia). done.
      * rewrite !lookup_ge_None_2 by (len; lia). done.
Qed.

End Continue.

(** What can be seen of a screen. *)
Record looks_alike s1 s2 : Prop := {
  la_size : pageSize s1 = pageSize s2;
  la_cursor : _cursor s1 = _cursor s2;
  la_saved : _savedCursor s1 = _savedCursor s2;
  la_margin : _margin s1 = _margin s2;
  la_terminal : _terminal s1 = _terminal s2;
  la_history : history (_grid s1) = history (_grid s2);
  la_cells y x : shown <$> screen_cell s1 y x = shown <$> screen_cell s2 y x
}.

Lemma advance_bulk s0 s n : screen_ok s -> kept s s0 -> isFullHorizontalMargins s = true ->
  cursor_column s + n <= columns (pageSize s) ->
  advanceCursorAfterWrite s0 n = Some (with_cursor s0 (cursor_after s n)).
Proof.
  intros Hs Hk Hf Hroom. unfold isFullHorizontalMargins in Hf. apply Z.eqb_eq in Hf.
  pose proof (kept_cursor _ _ Hk) as Ecu. pose proof (kept_size _ _ Hk) as Esz. pose proof (kept_margin _ _ Hk) as Em.
  unfold advanceCursorAfterWrite, cursor_after, set_column, set_pending, cursor_column, cursor_line in *.
  rewrite Ecu, Em, Esz. zbool. f_equal. case_match; [done|].
  replace (column (position (_cursor s)) + n - 1) with (columns (pageSize s) - 1) by lia. done.
Qed.

(** Text put into a line's buffer looks like the text printed into it. *)
Lemma bulk_alike p l b used chs : ready p -> Forall printable chs ->
  let s := p_screen p in
  wrapPending (_cursor s) = false -> isFullHorizontalMargins s = true ->
  cursor_column s + Z.of_nat (length chs) <= columns (pageSize s) ->
  currentLine s = Some l -> _buffer l = Trivial b -> continues s b ->
  exists s' p', advanceCursorAfterWrite (put_currentLine s (setBuffer l (Trivial (continued s b used chs)))) (Z.of_nat (length chs)) = Some s' /\
    print_bytes p chs = Some p' /\ screen_ok s' /\ rows_ok s' /\ looks_alike s' (p_screen p').
Proof.
  intros Hrd Hch s Hp Hf Hroom El Hb Hct. pose proof (rd_ok _ Hrd) as Hs. pose proof (rd_rows _ Hrd) as Hr. fold s in Hs, Hr.
  destruct (currentLine_row s Hs Hr) as (l0 & El0 & Hl & Er). rewrite El in El0. injection El0 as <-.
  destruct (continued_row s l b Hl Hb Hct used chs Hch Hroom) as [Hl' _].
  destruct (put_currentLine_ok s l _ Hs Hr El Hl') as [Hk Hrows].
  set (s0 := put_currentLine s _) in *. rewrite (advance_bulk s0 s) by done.
  destruct (print_ascii chs p Hrd Hch Hp Hroom) as (p' & g & E & Hc & Hg). fold s in Hc, Hg.
  assert (Hcells : forall y x, shown <$> screen_cell s0 y x = shown <$> (on_line (cursor_line s) (run_cell s chs) y x <$> screen_cell s y x)).
  { intros y x. unfold screen_cell. rewrite Hrows. unfold on_line. destruct (Z.eqb_spec (Z.of_nat y) (cursor_line s)) as [Hy|].
    - rewrite <- Hy, Nat2Z.id in Er. rewrite Er. simpl. by apply continued_shown.
    - destruct (rows s !! y); simpl; by rewrite ?option_fmap_id. }
  assert (Hn : narrow_ahead s (length chs)).
  { intros x c Hx Ec. unfold screen_cell in Ec. rewrite Er in Ec. simpl in Ec. rewrite (continues_row s l b Hs Hl Hb Hct) in Ec.
    pose proof (ct_end _ _ Hct). rewrite lookup_app_r in Ec by (len; lia). apply lookup_replicate_1 in Ec as [-> _].
    by apply (blank_narrow s). }
  eexists _, p'. split; [done|]. split; [done|]. clearbody s0.
  destruct Hk as [Hok Hrk Hsz Hcu Hmg Hsv Htm Hhi _], Hc. split_and!.
  - pose proof (ok_column s Hs). apply ok_moved_cursor; [done|..]; unfold cursor_after; unfold cursor_line; rewrite ?Hcu, ?Hsz;
      case_match; simpl; (done || unfold cursor_column in *; lia).
  - done.
  - split; simpl; try congruence.
    + unfold pageSize in *. simpl. congruence.
    + intros y x. rewrite tc_cells0. change (screen_cell (with_cursor s0 _) y x) with (screen_cell s0 y x). rewrite Hcells.
      destruct (screen_cell s y x) eqn:Ev; [|done]. simpl. do 2 f_equal. by rewrite (Hg Hn y x).
Qed.

(** C32: On a valid screen with autowrap on, no wrap pending, the mode of left and right margins
    off, US-ASCII in use without a pending single shift, no incomplete UTF-8 and no cluster open
    but of printable US-ASCII, and where a line that is continued in its buffer carries the
    attributes of the cursor up to the cursor: writing a run of printable US-ASCII text that
    fits the rest of the line through the bulk fast paths - an empty line stored as text, such a
    line whose text ends right before the new one, or neither - gives a valid screen with the
    same cells, cursor, margins, modes and history as printing it byte by byte. With a single
    shift pending the two differ (single_shift_and_bulk). *)
Theorem bulk_text_equiv ends_here p chs : ready p -> Forall printable chs ->
  wrapPending (_cursor (p_screen p)) = false ->
  cursor_column (p_screen p) + Z.of_nat (length chs) <= columns (pageSize (p_screen p)) ->
  (forall l b, currentLine (p_screen p) = Some l -> _buffer l = Trivial b ->
     ends_here l = true \/ text b = [] /\ cursor_column (p_screen p) = 0 -> continues (p_screen p) b) ->
  exists p1 p2, writeText ends_here p chs (Z.of_nat (length chs)) = Some p1 /\ print_bytes p chs = Some p2 /\
    screen_ok (p_screen p1) /\ rows_ok (p_screen p1) /\ looks_alike (p_screen p1) (p_screen p2).
Proof.
  intros Hrd Hch Hp Hroom Hcont. set (s := p_screen p) in *. pose proof Hrd as [Hs Hr _ _ Ha _ Hcs]. fold s in Hs, Hr, Ha, Hcs.
  assert (Hslow : exists p1 p2, print_bytes p chs = Some p1 /\ print_bytes p chs = Some p2 /\
    screen_ok (p_screen p1) /\ rows_ok (p_screen p1) /\ looks_alike (p_screen p1) (p_screen p2)).
  { destruct (print_ascii chs p Hrd Hch Hp Hroom) as (p' & g & E & [] & _). by exists p', p'. }
  unfold writeText. fold s. rewrite (proj2 (Z.leb_le _ _)) by lia. simpl. unfold tryEmplaceChars, crlfIfWrapPending. fold s.
  rewrite Hp. simpl. destruct (isFullHorizontalMargins s) eqn:Hf; simpl; [|done].
  assert (Hsel : isSelected (charsets (_cursor s)) USASCII = true).
  { destruct Hcs as [En Eu]. unfold isSelected, isSelected_table. rewrite En. by apply bool_decide_true. }
  rewrite Hsel. simpl. rewrite (proj2 (Z.leb_le _ _)) by lia. simpl.
  rewrite (proj2 (Z.ltb_ge _ _)) by lia. rewrite andb_false_r.
  destruct (currentLine_row s Hs Hr) as (l & El & Hl & _). rewrite El. cbn [mbind option_bind].
  assert (Hps : with_screen p s = p) by (by destruct p). rewrite Hps.
  assert (Hfast : forall b used, _buffer l = Trivial b -> continues s b -> exists p1 p2,
    (s' ← advanceCursorAfterWrite (put_currentLine s (setBuffer l (Trivial (continued s b used chs)))) (Z.of_nat (length chs));
     print_bytes (with_screen p s') []) = Some p1 /\ print_bytes p chs = Some p2 /\
    screen_ok (p_screen p1) /\ rows_ok (p_screen p1) /\ looks_alike (p_screen p1) (p_screen p2)).
  { intros b used Hb Hct. destruct (bulk_alike p l b used chs Hrd Hch Hp Hf Hroom El Hb Hct) as (s' & p' & E & E' & Hrest).
    fold s in E. rewrite E. by exists (with_screen p s'), p'. }
  destruct (Z.eqb_spec (cursor_column s) 0) as [Hc0|Hc0].
  - destruct (line_empty l) eqn:He; [|done]. unfold emplaceCharsIntoCurrentLine. fold s. unfold isFullHorizontalMargins in Hf.
    rewrite (proj2 (Z.leb_le _ _)) by lia. rewrite El. cbn [mbind option_bind]. destruct (_buffer l) as [b|cells] eqn:Hb.
    + rewrite He. unfold line_empty in He. rewrite Hb in He. apply bool_decide_eq_true in He.
      destruct (Hfast b (Z.of_nat (length chs)) eq_refl) as (p1 & p2 & E1 & Hrest); [by apply (Hcont l); auto|].
      unfold continued in E1. rewrite He, app_nil_l in E1. destruct (advanceCursorAfterWrite _ _); [|done]. by exists p1, p2.
    + destruct Hslow as (p1 & p2 & E1 & Hrest). exists p1, p2. split; [by rewrite E1|done].
  - destruct (_buffer l) as [b|cells] eqn:Hb; [|done]. destruct (ends_here l) eqn:Hend; [|done].
    pose proof (Hcont l b El Hb ltac:(by left)) as Hct.
    destruct (Hfast b (usedColumns b + Z.of_nat (length chs)) eq_refl Hct) as (p1 & p2 & E1 & Hrest).
    destruct Hct as [_ Hen [Hem|[Eat Ehl]] _]; [rewrite Hem in Hen; simpl in Hen; lia|].
    unfold grow_text. rewrite Eat, Ehl. fold (continued s b (usedColumns b + Z.of_nat (length chs)) chs).
    destruct (advanceCursorAfterWrite _ _); [|done]. by exists p1, p2.
Qed.

End ScreenText.

(** ** Concrete screens *)

(** Two columns from U+1100 on; U+0301 joins the character before it. *)
#[local] Instance cjk_width : UnicodeWidth := fun ch => if ch <? 0x1100 then 1 else 2.
#[local] Instance accents : GraphemeSegmenter := fun _ ch => negb (ch =? 0x301).
#[local] Existing Instance latin1.
#[local] Instance latin1_ascii : AsciiLaws.
Proof.
  split; [done|..]; unfold printable.
  - intros b Hb. unfold unicode_width, cjk_width. by zbool.
  - intros x b _ Hb. unfold breakable, accents. by zbool.
Qed.

Definition fresh_screen : Screen SimpleCell.t := Screen_make (mkPageSize 3 20) true (LimitedTo 4) quiet.
Definition fresh_printer : Printer := mkPrinter fresh_screen utf8_init 0.

Lemma fresh_screen_ok : screen_ok fresh_screen /\ rows_ok fresh_screen.
Proof.
  split.
  - split; try (unfold cursor_line, cursor_column, range_ok; simpl; lia); try done.
    split; [|done]. split; unfold ring_ok, size; simpl; lia.
  - unfold rows_ok. repeat (apply Forall_cons; split; [split_and!; reflexivity|]). apply Forall_nil. done.
Qed.

Lemma write_char_correct_witness :
  exists s', writeTextInternal fresh_screen 0 0x4E00 = Some s' /\ cursor_column s' = 2 /\
    screen_cell s' 0 1 = Some (cell_reset_link cell_default (attrs_with Attrs_init CellFlag.WideCharContinuation) 0).
Proof.
  destruct fresh_screen_ok as [Hs Hr].
  destruct (write_char_correct fresh_screen 0 0x4E00 0x4E00 CharsetMapping_init cell_default Hs Hr)
    as (s' & E & Hc); try reflexivity; [discriminate|vm_compute; intuition discriminate|intros _; vm_compute; reflexivity|].
  exists s'. split; [exact E|]. destruct Hc as [_ _ _ _ _ _ _ Hcu Hcells]. split.
  - unfold cursor_column. by rewrite Hcu.
  - by rewrite Hcells.
Defined.

Lemma printed_hi : (p ← print_bytes fresh_printer [0x68; 0x69]; screen_cell (p_screen p) 0 1)
  = Some (SimpleCell.mk [0x69] Attrs_init 1 0 None).
Proof. vm_compute. reflexivity. Qed.

Lemma bulk_text_equiv_witness :
  exists p1, writeText (fun _ => false) fresh_printer [0x68; 0x69] 2 = Some p1 /\
    shown <$> screen_cell (p_screen p1) 0 1 = Some (SimpleCell.mk [0x69] Attrs_init 1 0 None).
Proof.
  destruct fresh_screen_ok as [Hs Hr].
  destruct (bulk_text_equiv (fun _ => false) fresh_printer [0x68; 0x69]) as (p1 & p2 & E1 & E2 & _ & _ & Hl).
  - by split; [done|done|done|left|..].
  - repeat (apply Forall_cons; split; [unfold printable; lia|]). by apply Forall_nil.
  - reflexivity.
  - vm_compute. discriminate.
  - intros l b El Eb _. injection El as <-. injection Eb as <-. by split; [apply Forall_nil|..|left|].
  - exists p1. split; [exact E1|]. rewrite (la_cells _ _ Hl).
    pose proof printed_hi as Hhi. rewrite E2 in Hhi. cbn [mbind option_bind] in Hhi. by rewrite Hhi.
Defined.

(** Bulk text does not record where its last character went, so a combining
    character that does not come with it joins the wrong cell. *)
Example accent_after_bulk :
  (p ← writeText (fun _ => false) fresh_printer [0x61; 0x62; 0x63] 3;
   s ← writeTextInternal (p_screen p) 0x63 0x301;
   Some (cell_codepoints <$> screen_cell s 0 0, cell_codepoints <$> screen_cell s 0 2))
  = Some (Some [0x61; 0x301], Some [0x63]).
Proof. vm_compute. reflexivity. Qed.

(** Between left and right margins the last column is never written. *)
Example last_margin_column_unused :
  let s := screen_setMode fresh_screen LeftRightMargin true in
  let s := moveCursorTo (setLeftRightMargin s (Some 0) (Some 9)) 0 8 in
  (s ← writeTextInternal s 0 0x61; s ← writeTextInternal s 0x61 0x62;
   Some (cell_codepoints <$> screen_cell s 0 8, cell_codepoints <$> screen_cell s 0 9, cell_codepoints <$> screen_cell s 1 0))
  = Some (Some [0x61], Some [], Some [0x62]).
Proof. vm_compute. reflexivity. Qed.

(** A wide character in the last two columns leaves its right half as it was. *)
Example wide_at_end_of_line :
  (s ← writeTextInternal (moveCursorTo fresh_screen 0 19) 0 0x61;
   s ← writeTextInternal (moveCursorTo s 0 18) 0 0x4E00;
   Some (cell_width <$> screen_cell s 0 18, cell_codepoints <$> screen_cell s 0 19)) = Some (Some 2, Some [0x61]).
Proof. vm_compute. reflexivity. Qed.

(** A single shift holds for a whole run of bulk text and stays pending. *)
Example single_shift_and_bulk :
  let c := singleShift (select_charset CharsetMapping_init G0 Special) G2 in
  let p := mkPrinter (with_cursor fresh_screen (set_charsets (_cursor fresh_screen) c)) utf8_init 0 in
  (p ← writeText (fun _ => false) p [0x71; 0x71] 2; Some (cell_codepoints <$> screen_cell (p_screen p) 0 1))
    = Some (Some [0x71]) /\
  (p ← print_bytes p [0x71; 0x71]; Some (cell_codepoints <$> screen_cell (p_screen p) 0 1)) = Some (Some [0x2500]).
Proof. vm_compute. split; reflexivity. Qed.
