(* ===== verification/Dispatch.v ===== *)
(** * Dispatch of control functions (Screen::apply of src/vtbackend/Screen.cpp)

    A dispatched sequence is resolved among the active functions and applied to
    the screen.  The switch of [apply] is a table of its cases, in its order;
    functions it forwards to the terminal or to helpers that do not touch the
    screen's modelled state are [Elsewhere].  [Stuck] is undefined behaviour
    or a failed check. *)
From S2P Require Import Prelude Parser Sequence Functions Color Cell Ring Line Grid Sgr Charset Screen ScreenEdit.

Inductive ApplyResult := Ok | Invalid | Unsupported.
Definition ApplyResult_max (a b : ApplyResult) : ApplyResult :=
  match a, b with
  | Unsupported, _ | _, Unsupported => Unsupported
  | Invalid, _ | _, Invalid => Invalid
  | Ok, Ok => Ok
  end.

(** The screen with what its terminal keeps for it: the supported sequences
    and the page size of the settings. *)
Record Session (C : Type) := mkSession {
  se_screen : Screen.Screen C;
  se_sequences : SupportedSequences;
  se_settingsPage : PageSize
}.
Arguments mkSession {C}.
Arguments se_screen {C}.
Arguments se_sequences {C}.
Arguments se_settingsPage {C}.

Inductive Outcome (C : Type) := Done (t : Session C) (r : ApplyResult) | Elsewhere | Stuck.
Arguments Done {C}.
Arguments Elsewhere {C}.
Arguments Stuck {C}.

Section Dispatch.
Context `{LibUnicode, UnicodeWidth, GraphemeSegmenter} `{CellConcept Cell} `{!SgrTarget Cell}.
Abbreviation Screen := (Screen.Screen Cell).
Abbreviation Session := (Session Cell).
Abbreviation Outcome := (Outcome Cell).
Implicit Types (s : Screen) (t : Session) (seq : Sequence).

Definition with_screen t s : Session := mkSession s (se_sequences t) (se_settingsPage t).
Definition done_ (f : Screen -> Screen) t : Outcome := Done (with_screen t (f (se_screen t))) Ok.
Definition try_ (f : Screen -> option Screen) t : Outcome :=
  match f (se_screen t) with Some s => Done (with_screen t s) Ok | None => Stuck end.
Definition refuse (r : ApplyResult) t : Outcome := Done t r.

(** ** Modes *)

(** What a mode's number stands for: a mode of the screen, the switch that
    saves and restores the cursor, or a mode of the terminal alone. *)
Inductive ModeNumber := ScreenMode (m : DECMode) | SaveCursorMode | TerminalMode.
Definition terminal_modes : list Z :=
  [1; 2; 3; 4; 5; 9; 10; 12; 19; 25; 30; 40; 46; 47; 80; 1000; 1001; 1002; 1003; 1004; 1005; 1006; 1007; 1015;
   1016; 1047; 1049; 2004; 2026; 2027; 2028; 2029; 2030; 2031; 8452].
Definition toDECMode (value : Z) : option ModeNumber :=
  if value =? 6 then Some (ScreenMode Origin)
  else if value =? 7 then Some (ScreenMode AutoWrap)
  else if value =? 69 then Some (ScreenMode LeftRightMargin)
  else if value =? 1048 then Some SaveCursorMode
  else if bool_decide (value ∈ terminal_modes) then Some TerminalMode
  else None.

(** [Terminal::setMode] with the switch of the sequences of DECLRMM. *)
Definition session_setMode t (m : DECMode) (enable : bool) : option Session :=
  sequences ← (if bool_decide (m = LeftRightMargin) && negb (modeFrozen (_terminal (se_screen t)) m)
               then Functions.setLeftRightMargin enable (se_sequences t) else Some (se_sequences t));
  Some (mkSession (screen_setMode (se_screen t) m enable) sequences (se_settingsPage t)).

Definition setModeDEC seq (modeIndex : nat) (enable : bool) t : Outcome :=
  match param seq modeIndex with
  | None => Stuck
  | Some value =>
      match toDECMode value with
      | None => Done t Invalid
      | Some (ScreenMode m) =>
          match session_setMode t m enable with Some t => Done t Ok | None => Stuck end
      | Some _ => Elsewhere
      end
  end.
(** [for_each(times(count))] with the maximum of the results. *)
Fixpoint for_parameters (body : nat -> Session -> Outcome) (idx : list nat) (r : ApplyResult) t : Outcome :=
  match idx with
  | [] => Done t r
  | i :: idx =>
      match body i t with
      | Done t r' => for_parameters body idx (ApplyResult_max r r') t
      | o => o
      end
  end.
Definition setAnsiMode seq (modeIndex : nat) (enable : bool) t : Outcome :=
  match param seq modeIndex with
  | None => Stuck
  | Some value => if value =? 4 then Elsewhere else Done t Unsupported
  end.
Definition each seq (body : nat -> Session -> Outcome) t : Outcome :=
  for_parameters body (List.seq 0 (parameterCount seq)) Ok t.

(** ** The helpers of the switch *)

Definition decr (v : option Z) : option Z := Z.pred <$> v.

Definition apply_EL seq t : Outcome :=
  match param_or seq 0 0 with
  | 0 => try_ clearToEndOfLine t
  | 1 => try_ clearToBeginOfLine t
  | 2 => try_ clearLine t
  | _ => Done t Invalid
  end.
Definition apply_TBC seq t : Outcome :=
  if negb (parameterCount seq =? 1)%nat then done_ (fun s => horizontalTabClear s UnderCursor) t
  else
    match param seq 0 with
    | Some 0 => done_ (fun s => horizontalTabClear s UnderCursor) t
    | Some 3 => done_ (fun s => horizontalTabClear s AllTabs) t
    | Some _ => Done t Invalid
    | None => Stuck
    end.
Definition ED_step seq (i : nat) t : Outcome :=
  match param seq i with
  | Some 0 => try_ clearToEndOfScreen t
  | Some 1 => try_ clearToBeginOfScreen t
  | Some 2 => try_ clearScreen t
  | Some 3 => done_ (fun s => with_grid s (clearHistory (_grid s))) t
  | Some _ => Done t Invalid
  | None => Stuck
  end.
(** Stops at the first parameter that is not a known one. *)
Fixpoint ED_loop seq (idx : list nat) t : Outcome :=
  match idx with
  | [] => Done t Ok
  | i :: idx => match ED_step seq i t with Done t Ok => ED_loop seq idx t | o => o end
  end.
Definition apply_ED seq t : Outcome :=
  if (parameterCount seq =? 0)%nat then try_ clearToEndOfScreen t
  else ED_loop seq (List.seq 0 (parameterCount seq)) t.

(** DECCARA: the rendition of each cell of a rectangle. *)
Fixpoint sgr_cells seq s (cells : list CellLocation) : option Screen :=
  match cells with
  | [] => Some s
  | p :: cells =>
      '(s, c) ← use_cell s (line p) (column p);
      c ← applySGR c seq 4 (parameterCount seq);
      s ← put_cell s (line p) (column p) c;
      sgr_cells seq s cells
  end.
Definition rectangle (a : Rect) : list CellLocation :=
  y ← seqZ (top a) (bottom a - top a + 1); x ← seqZ (left a) (right a - left a + 1); [mkLoc y x].
(** The corners named by four parameters from [i] on, with their defaults. *)
Definition rect_at seq s (i : nat) : Rect :=
  mkRect (param_or seq i (line (origin s) + 1) - 1) (param_or seq (i + 1) (column (origin s) + 1) - 1)
         (param_or seq (i + 2) (lines (pageSize s)) - 1) (param_or seq (i + 3) (columns (pageSize s)) - 1).

Definition apply_DECCRA seq s : option Screen :=
  copyArea s (rect_at seq s 0)
    (mkLoc (param_or seq 5 (line (origin s) + 1) - 1) (param_or seq 6 (column (origin s) + 1) - 1)).
Definition apply_DECERA seq s : option Screen :=
  eraseArea s (mkRect
    (param_or seq 0 (line (origin s) + 1) - 1) (param_or seq 1 (column (origin s) + 1) - 1)
    (Z.min (param_or seq 2 (lines (pageSize s))) (lines (pageSize s)) - 1)
    (Z.min (param_or seq 3 (columns (pageSize s))) (columns (pageSize s)) - 1)).
Definition apply_DECFRA seq s : option Screen :=
  let ch := param_or seq 0 0 in
  let top := param_or seq 1 (line (origin s)) in
  let left := param_or seq 2 (column (origin s)) in
  let bottom := Z.min (param_or seq 3 (lines (pageSize s))) (lines (pageSize s)) in
  let right := Z.min (param_or seq 4 (columns (pageSize s))) (columns (pageSize s)) in
  fillArea s ch (mkRect (Z.max 0 (top - 1)) (Z.max 0 (left - 1)) (bottom - 1) (right - 1)).
Definition set_flags s (f : flags -> flags) : Screen :=
  let a := rendition s in
  with_cursor s (set_rendition (_cursor s)
    (mkAttrs (foregroundColor a) (backgroundColor a) (underlineColor a) (f (attr_flags a)))).
Definition apply_DECSCA seq t : Outcome :=
  match param_or seq 0 0 with
  | 1 => done_ (fun s => set_flags s (fun f => Flags.enable f CellFlag.CharacterProtected)) t
  | 0 | 2 => done_ (fun s => set_flags s (fun f => Flags.disable f CellFlag.CharacterProtected)) t
  | _ => Done t Invalid
  end.
Definition apply_DECSED seq t : Outcome :=
  match param_or seq 0 0 with
  | 0 => try_ selectiveEraseToEndOfScreen t
  | 1 => try_ selectiveEraseToBeginOfScreen t
  | 2 => try_ selectiveEraseScreen t
  | _ => Done t Unsupported
  end.
Definition apply_DECSERA seq t : Outcome :=
  try_ (fun s => selectiveEraseArea s (se_settingsPage t)
    (mkRect (param_or seq 0 1 - 1) (param_or seq 1 1 - 1)
       (param_or seq 2 (lines (pageSize s)) - 1) (param_or seq 3 (columns (pageSize s)) - 1))) t.
Definition apply_DECSEL seq t : Outcome :=
  match param_or seq 0 0 with
  | 0 => try_ selectiveEraseToEndOfLine t
  | 1 => try_ selectiveEraseToBeginOfLine t
  | 2 => try_ (fun s => selectiveEraseLine s (cursor_line s)) t
  | _ => Done t Invalid
  end.
Definition apply_DECSLRM seq t : Outcome :=
  if negb (modeEnabled (_terminal (se_screen t)) LeftRightMargin) then Done t Invalid
  else done_ (fun s => moveCursorTo (Screen.setLeftRightMargin s (decr (param_opt seq 0)) (decr (param_opt seq 1))) 0 0) t.
Definition apply_DECSTBM seq t : Outcome :=
  done_ (fun s => moveCursorTo (setTopBottomMargin s (decr (param_opt seq 0)) (decr (param_opt seq 1))) 0 0) t.
Definition apply_SGR seq s : option Screen :=
  a ← applySGR (rendition s) seq 0 (parameterCount seq);
  Some (with_cursor s (set_rendition (_cursor s) a)).
(** A parameter that has to be there. *)
Definition with_param seq (i : nat) (f : Z -> Screen -> Screen) t : Outcome :=
  match param seq i with Some v => done_ (f v) t | None => Stuck end.

(** ** The switch *)

Abbreviation Case := (Function * (Sequence -> Session -> Outcome))%type.

Definition cases_C0 : list Case :=
  [(Fn.BS, fun _ => done_ backspace);
   (Fn.TAB, fun _ => done_ moveCursorToNextTab);
   (Fn.LF, fun _ => try_ linefeed);
   (Fn.VT, fun _ => try_ screen_index);
   (Fn.FF, fun _ => try_ screen_index);
   (Fn.CR, fun _ => done_ moveCursorToBeginOfLine)].

Definition cases_ESC : list Case :=
  [(Fn.SCS_G0_SPECIAL, fun _ => done_ (fun s => designateCharset s G0 Special));
   (Fn.SCS_G0_USASCII, fun _ => done_ (fun s => designateCharset s G0 USASCII));
   (Fn.SCS_G1_SPECIAL, fun _ => done_ (fun s => designateCharset s G1 Special));
   (Fn.SCS_G1_USASCII, fun _ => done_ (fun s => designateCharset s G1 USASCII));
   (Fn.DECALN, fun _ => try_ screenAlignmentPattern);
   (Fn.DECBI, fun _ => done_ backIndex);
   (Fn.DECFI, fun _ => try_ forwardIndex);
   (Fn.DECRS, fun _ => try_ restoreCursor);
   (Fn.DECSC, fun _ => done_ saveCursor);
   (Fn.HTS, fun _ => done_ horizontalTabSet);
   (Fn.IND, fun _ => try_ screen_index);
   (Fn.NEL, fun _ => done_ (fun s => moveCursorToNextLine s 1));
   (Fn.RI, fun _ => try_ reverseIndex);
   (Fn.SS2, fun _ => done_ (fun s => singleShiftSelect s G2));
   (Fn.SS3, fun _ => done_ (fun s => singleShiftSelect s G3))].

Definition cases_cursor : list Case :=
  [(Fn.ANSISYSSC, fun _ => try_ restoreCursor);
   (Fn.CBT, fun seq => done_ (fun s => cursorBackwardTab s (param_or seq 0 1)));
   (Fn.CHA, fun seq => done_ (fun s => moveCursorToColumn s (param_or seq 0 1 - 1)));
   (Fn.CHT, fun seq => done_ (fun s => cursorForwardTab s (param_or seq 0 1)));
   (Fn.CNL, fun seq => done_ (fun s => moveCursorToNextLine s (param_or seq 0 1)));
   (Fn.CPL, fun seq => done_ (fun s => moveCursorToPrevLine s (param_or seq 0 1)));
   (Fn.CUB, fun seq => done_ (fun s => moveCursorBackward s (param_or seq 0 1)));
   (Fn.CUD, fun seq => done_ (fun s => moveCursorDown s (param_or seq 0 1)));
   (Fn.CUF, fun seq => done_ (fun s => moveCursorForward s (param_or seq 0 1)));
   (Fn.CUP, fun seq => done_ (fun s => moveCursorTo s (param_or seq 0 1 - 1) (param_or seq 1 1 - 1)));
   (Fn.CUU, fun seq => done_ (fun s => moveCursorUp s (param_or seq 0 1)));
   (Fn.DCH, fun seq => try_ (fun s => deleteCharacters s (param_or seq 0 1)))].

Definition cases_rectangles : list Case :=
  [(Fn.DECCARA, fun seq => try_ (fun s => sgr_cells seq s (rectangle (rect_at seq s 0))));
   (Fn.DECCRA, fun seq => try_ (apply_DECCRA seq));
   (Fn.DECERA, fun seq => try_ (apply_DECERA seq));
   (Fn.DECFRA, fun seq => try_ (apply_DECFRA seq));
   (Fn.DECDC, fun seq => try_ (fun s => deleteColumns s (param_or seq 0 1)));
   (Fn.DECIC, fun seq => try_ (fun s => insertColumns s (param_or seq 0 1)));
   (Fn.DECSCA, apply_DECSCA);
   (Fn.DECSED, apply_DECSED);
   (Fn.DECSERA, apply_DECSERA);
   (Fn.DECSEL, apply_DECSEL)].

Definition cases_modes : list Case :=
  [(Fn.DECRM, fun seq => each seq (fun i => setModeDEC seq i false));
   (Fn.DECSLRM, apply_DECSLRM);
   (Fn.DECSM, fun seq => each seq (fun i => setModeDEC seq i true));
   (Fn.DECSTBM, apply_DECSTBM)].

Definition cases_editing : list Case :=
  [(Fn.DL, fun seq => try_ (fun s => deleteLines s (param_or seq 0 1)));
   (Fn.ECH, fun seq => try_ (fun s => eraseCharacters s (param_or seq 0 1)));
   (Fn.ED, apply_ED);
   (Fn.EL, apply_EL);
   (Fn.HPA, fun seq => with_param seq 0 (fun n s => moveCursorToColumn s (n - 1)));
   (Fn.HPR, fun seq => with_param seq 0 (fun n s => moveCursorForward s n));
   (Fn.HVP, fun seq => done_ (fun s => moveCursorTo s (param_or seq 0 1 - 1) (param_or seq 1 1 - 1)));
   (Fn.ICH, fun seq => try_ (fun s => insertCharacters s (param_or seq 0 1)));
   (Fn.IL, fun seq => try_ (fun s => insertLines s (param_or seq 0 1)));
   (Fn.RM, fun seq => each seq (fun i => setAnsiMode seq i false));
   (Fn.SCOSC, fun _ => done_ saveCursor);
   (Fn.SD, fun seq => try_ (fun s => screen_scrollDown s (param_or seq 0 1) (_margin s)));
   (Fn.SETMARK, fun _ => try_ setMark);
   (Fn.SGR, fun seq => try_ (apply_SGR seq));
   (Fn.SGRRESTORE, fun _ => done_ restoreGraphicsRendition);
   (Fn.SGRSAVE, fun _ => done_ saveGraphicsRendition);
   (Fn.SM, fun seq => each seq (fun i => setAnsiMode seq i true));
   (Fn.SU, fun seq => try_ (fun s => scrollUp_here s (param_or seq 0 1)));
   (Fn.TBC, apply_TBC);
   (Fn.VPA, fun seq => done_ (fun s => moveCursorToLine s (param_or seq 0 1 - 1)))].

Definition cases : list Case :=
  cases_C0 ++ cases_ESC ++ cases_cursor ++ cases_rectangles ++ cases_modes ++ cases_editing.

(** The cases that leave the screen's state to the terminal or to a helper
    outside this file. *)
Definition cases_elsewhere : list Function :=
  [Fn.BEL; Fn.DECKPAM; Fn.DECKPNM; Fn.RIS; Fn.ANSIDSR; Fn.DSR; Fn.DA1; Fn.DA2; Fn.DA3; Fn.DECRQM; Fn.DECRQM_ANSI;
   Fn.DECRQPSR; Fn.DECSCUSR; Fn.DECSCPP; Fn.DECSNLS; Fn.DECSSCLS; Fn.DECSTR; Fn.DECXCPR; Fn.REP; Fn.WINMANIP;
   Fn.XTRESTORE; Fn.XTSAVE; Fn.XTPOPCOLORS; Fn.XTPUSHCOLORS; Fn.XTREPORTCOLORS; Fn.XTSMGRAPHICS; Fn.XTVERSION;
   Fn.DECSSDT; Fn.DECSASD; Fn.DECPS; Fn.CSIUENTER; Fn.CSIUQUERY; Fn.CSIUENHCE; Fn.CSIULEAVE; Fn.SETTITLE; Fn.SETICON;
   Fn.SETWINTITLE; Fn.SETXPROP; Fn.SETCOLPAL; Fn.RCOLPAL; Fn.SETCWD; Fn.HYPERLINK; Fn.XTCAPTURE; Fn.COLORFG; Fn.COLORBG;
   Fn.COLORCURSOR; Fn.COLORMOUSEFG; Fn.COLORMOUSEBG; Fn.SETFONT; Fn.SETFONTALL; Fn.CLIPBOARD; Fn.RCOLORFG; Fn.RCOLORBG;
   Fn.RCOLORCURSOR; Fn.RCOLORMOUSEFG; Fn.RCOLORMOUSEBG; Fn.RCOLORHIGHLIGHTFG; Fn.RCOLORHIGHLIGHTBG; Fn.NOTIFY;
   Fn.DUMPSTATE; Fn.DECSIXEL; Fn.STP; Fn.DECRQSS; Fn.XTGETTCAP].

(** The labels are compared by the functions' identifiers. *)
Definition same_label (f g : Function) : bool := Function_id f =? Function_id g.
Definition apply (f : Function) seq t : Outcome :=
  match List.find (fun c => same_label f c.1) cases with
  | Some (_, handler) => handler seq t
  | None => if existsb (same_label f) cases_elsewhere then Elsewhere else Done t Unsupported
  end.

(** [processSequence]: an unknown or refused sequence changes nothing. *)
Definition session_process t seq : Outcome :=
  match functionDefinition seq (activeSequences (se_sequences t)) with
  | Some (Some f) => apply f seq t
  | Some None => Done t Ok
  | None => Stuck
  end.

(** [executeControlCode]. *)
Definition session_control t (controlCode : Z) : Outcome :=
  if controlCode =? 0x07 then Elsewhere
  else if controlCode =? 0x08 then done_ backspace t
  else if controlCode =? 0x09 then done_ moveCursorToNextTab t
  else if controlCode =? 0x0A then try_ linefeed t
  else if (controlCode =? 0x0B) || (controlCode =? 0x0C) then try_ screen_index t
  else if controlCode =? 0x0E then
    done_ (fun s => with_cursor s (set_charsets (_cursor s) (lockingShift (charsets (_cursor s)) G1))) t
  else if controlCode =? 0x0F then
    done_ (fun s => with_cursor s (set_charsets (_cursor s) (lockingShift (charsets (_cursor s)) G0))) t
  else if controlCode =? 0x0D then done_ moveCursorToBeginOfLine t
  else if controlCode =? 0x37 then done_ saveCursor t
  else if controlCode =? 0x38 then try_ restoreCursor t
  else Done t Ok.

(** ** From bytes to the screen *)

(** The session as the handler of a sequence builder.  Text needs the parser's
    last graphic character and is the subject of ScreenText.v. *)
#[export] Instance session_handler : SequenceHandler Outcome (SimpleStringCollector Outcome) := {|
  executeControlCode o ch := match o with Done t _ => session_control t ch | o => o end;
  processSequence o seq := (match o with Done t _ => session_process t seq | o => o end, None);
  writeText _ _ := Elsewhere;
  writeTextBulk _ _ _ := Elsewhere;
  writeTextEnd o := o;
  handler_maxBulkTextSequenceWidth _ := 0%nat
|}.

(** Commands that are control sequences: their function, private marker,
    parameters and final byte, and what they mean. *)
Inductive Command :=
| Move (m : Motion) | Erase (op : EraseOp) | InsertChars (n : Z) | DeleteChars (n : Z) | InsertLines (n : Z)
| DeleteLines (n : Z) | ScrollUp (n : Z) | ScrollDown (n : Z).

Definition run_command s (c : Command) : option Screen :=
  match c with
  | Move m => run_motion s m
  | Erase op => run_erase op s
  | InsertChars n => insertCharacters s n
  | DeleteChars n => deleteCharacters s n
  | InsertLines n => insertLines s n
  | DeleteLines n => deleteLines s n
  | ScrollUp n => scrollUp_here s n
  | ScrollDown n => screen_scrollDown s n (_margin s)
  end.
Fixpoint run_commands s (cs : list Command) : option Screen :=
  match cs with
  | [] => Some s
  | c :: cs => s ← run_command s c; run_commands s cs
  end.

Record Form := mkForm { f_function : Function; f_leader : option Z; f_values : list Z; f_final : Z }.
Definition motion_form (m : Motion) : option Form :=
  match m with
  | CUP y x => Some (mkForm Fn.CUP None [y + 1; x + 1] 0x48)
  | CUU n => Some (mkForm Fn.CUU None [n] 0x41)
  | CUD n => Some (mkForm Fn.CUD None [n] 0x42)
  | CUF n => Some (mkForm Fn.CUF None [n] 0x43)
  | CUB n => Some (mkForm Fn.CUB None [n] 0x44)
  | CNL n => Some (mkForm Fn.CNL None [n] 0x45)
  | CPL n => Some (mkForm Fn.CPL None [n] 0x46)
  | CHA x => Some (mkForm Fn.CHA None [x + 1] 0x47)
  | VPA y => Some (mkForm Fn.VPA None [y + 1] 0x64)
  | CHT n => Some (mkForm Fn.CHT None [n] 0x49)
  | CBT n => Some (mkForm Fn.CBT None [n] 0x5A)
  | TBC UnderCursor => Some (mkForm Fn.TBC None [] 0x67)
  | TBC AllTabs => Some (mkForm Fn.TBC None [3] 0x67)
  | DECSTBM (Some t) (Some b) => Some (mkForm Fn.DECSTBM None [t + 1; b + 1] 0x72)
  | DECSTBM None None => Some (mkForm Fn.DECSTBM None [] 0x72)
  | MODE Origin e => Some (mkForm (if e then Fn.DECSM else Fn.DECRM) (Some 0x3F) [6] (if e then 0x68 else 0x6C))
  | MODE AutoWrap e => Some (mkForm (if e then Fn.DECSM else Fn.DECRM) (Some 0x3F) [7] (if e then 0x68 else 0x6C))
  | _ => None
  end.
Definition command_form (c : Command) : option Form :=
  match c with
  | Move m => motion_form m
  | Erase EL0 => Some (mkForm Fn.EL None [] 0x4B)
  | Erase EL1 => Some (mkForm Fn.EL None [1] 0x4B)
  | Erase EL2 => Some (mkForm Fn.EL None [2] 0x4B)
  | Erase ED0 => Some (mkForm Fn.ED None [] 0x4A)
  | Erase ED1 => Some (mkForm Fn.ED None [1] 0x4A)
  | Erase (ECH n) => Some (mkForm Fn.ECH None [n] 0x58)
  | Erase DECSEL0 => Some (mkForm Fn.DECSEL (Some 0x3F) [] 0x4B)
  | Erase DECSEL1 => Some (mkForm Fn.DECSEL (Some 0x3F) [1] 0x4B)
  | Erase DECSEL2 => Some (mkForm Fn.DECSEL (Some 0x3F) [2] 0x4B)
  | InsertChars n => Some (mkForm Fn.ICH None [n] 0x40)
  | DeleteChars n => Some (mkForm Fn.DCH None [n] 0x50)
  | InsertLines n => Some (mkForm Fn.IL None [n] 0x4C)
  | DeleteLines n => Some (mkForm Fn.DL None [n] 0x4D)
  | ScrollUp n => Some (mkForm Fn.SU None [n] 0x53)
  | ScrollDown n => Some (mkForm Fn.SD None [n] 0x54)
  end.

Definition first_value (vs : list Z) : list Z := match vs with [] => [] | v :: _ => to_string v end.
Definition more_texts (vs : list Z) : list (bool * list Z) := (fun v => (false, to_string v)) <$> tail vs.
Definition form_text (f : Form) : list Z :=
  csi_text (f_leader f) (params_text (first_value (f_values f)) (more_texts (f_values f))) [] (f_final f).
Definition command_text (c : Command) : list Z := from_option form_text [] (command_form c).

(** A command can be sent when it has a form with parameters from 1 to 65535
    whose function is active. *)
Definition sendable (active : list Function) (c : Command) : Prop :=
  exists f, command_form c = Some f /\ Forall (fun v => 1 <= v < 2 ^ 16) (f_values f) /\ f_function f ∈ active.

Definition spelled (f : Form) (seq : Sequence) : Prop :=
  selector seq = mkFunctionSelector CSI (default 0 (f_leader f)) (Z.of_nat (length (f_values f))) 0 (f_final f) /\
  parameterCount seq = length (f_values f) /\ forall i, param_opt seq i = f_values f !! i.

Lemma values_spelled vs : Forall (fun v => 1 <= v < 2 ^ 16) vs ->
  params_values (first_value vs) (more_texts vs) = match vs with [] => [0] | _ => vs end.
Proof.
  intros Hvs. destruct vs as [|v vs]; [done|]. apply Forall_cons in Hvs as [Hv Hvs].
  unfold params_values, more_values, more_texts. simpl.
  destruct (to_string_spec v) as (_ & -> & _); [lia|]. f_equal.
  induction Hvs as [|w ws Hw _ IH]; [done|]. rewrite !fmap_cons. destruct (to_string_spec w) as (_ & -> & _); [lia|]. by rewrite IH.
Qed.

Lemma form_spelled f seq : Forall (fun v => 1 <= v < 2 ^ 16) (f_values f) ->
  is_csi (f_leader f) (first_value (f_values f)) (more_texts (f_values f)) [] (f_final f) seq -> spelled f seq.
Proof.
  intros Hvs (Hcat & Hlead & Hint & Hfin & _ & Hcnt & Htake & _). rewrite values_spelled in Hcnt, Htake by done.
  assert (Hpc : parameterCount seq = length (f_values f)).
  { unfold parameterCount. rewrite Hcnt. destruct (f_values f) as [|v vs]; [by rewrite bool_decide_true|].
    apply Forall_cons in Hvs as [Hv _]. rewrite bool_decide_false; [done|]. injection 1. lia. }
  split; [|split; [done|]].
  - unfold selector. rewrite Hcat, Hlead, Hint, Hfin, Hpc. done.
  - intros i. unfold param_opt. rewrite Hpc. destruct (Nat.ltb_spec i (length (f_values f))) as [Hi|Hi].
    + unfold at_. destruct (f_values f) as [|v vs]; [simpl in Hi; lia|]. rewrite <- Htake. by rewrite lookup_take_lt.
    + by rewrite lookup_ge_None_2.
Qed.

Lemma form_digits vs : Forall (fun v => 1 <= v < 2 ^ 16) vs ->
  digits (first_value vs) /\ Forall (fun q => digits q.2) (more_texts vs) /\ first_value vs <> [] \/ vs = [].
Proof.
  intros Hvs. destruct vs as [|v vs]; [by right|]. left. apply Forall_cons in Hvs as [Hv Hvs].
  destruct (to_string_spec v) as (Hd & _ & Hn); [lia|]. split_and!; [done| |done]. unfold more_texts. simpl.
  apply Forall_fmap. eapply Forall_impl; [exact Hvs|]. intros w Hw. cbv beta in Hw. simpl. destruct (to_string_spec w) as (? & _); [lia|done].
Qed.

Definition form_selector (f : Form) : FunctionSelector :=
  mkFunctionSelector CSI (default 0 (f_leader f)) (Z.of_nat (length (f_values f))) 0 (f_final f).
Definition only_match (f : Form) : bool :=
  forallb (fun g => Bool.eqb (compare_selector (form_selector f) g =? 0) (bool_decide (g = f_function f)))
    allFunctionsArray.

(** No other function of the table takes a command's sequence. *)
Lemma forms_unique c f : command_form c = Some f -> only_match f = true.
Proof.
  destruct c as [m|op|n|n|n|n|n|n]; [|destruct op|..]; try (injection 1 as <-; vm_compute; reflexivity).
  destruct m as [| | | | | | | | | | | | | | |w|[t|] [b|]| |[] e| | | | | | |]; try discriminate;
    [..|destruct w|idtac|idtac|destruct e|destruct e]; injection 1 as <-; vm_compute; reflexivity.
Qed.

Definition form_shape (f : Form) : bool :=
  match f_leader f with Some l => l =? 0x3F | None => true end &&
  ((0x40 <=? f_final f) && (f_final f <=? 0x7E)) && (length (f_values f) <=? 2)%nat.

Lemma forms_shaped c f : command_form c = Some f -> form_shape f = true.
Proof.
  destruct c as [m|op|n|n|n|n|n|n]; [|destruct op|..]; try (by injection 1 as <-).
  destruct m as [| | | | | | | | | | | | | | |w|[t|] [b|]| |[] e| | | | | | |]; try discriminate;
    [..|destruct w|idtac|idtac|destruct e|destruct e]; by injection 1 as <-.
Qed.

Lemma params_bytes first more : digits first -> Forall (fun q : bool * list Z => digits q.2) more ->
  Forall (fun b => 0x30 <= b <= 0x3B) (params_text first more).
Proof.
  intros Hf Hm. unfold params_text, digits in *. apply Forall_app. split; [eapply Forall_impl; [exact Hf|]; simpl; lia|].
  induction Hm as [|[sub ds] more Hd _ IH]; [apply Forall_nil; done|]. rewrite fmap_cons. cbn [mjoin list_join].
  apply Forall_app. split; [|done]. apply Forall_cons. split; [destruct sub; lia|].
  eapply Forall_impl; [exact Hd|]. simpl. lia.
Qed.

Lemma form_selected sequences c f : supported_inv sequences -> command_form c = Some f ->
  f_function f ∈ activeSequences sequences ->
  select (form_selector f) (activeSequences sequences) = Some (Some (f_function f)).
Proof.
  intros Hi Hf Hin. pose proof (forms_unique c f Hf) as Hu. unfold only_match in Hu. rewrite forallb_forall in Hu.
  assert (Hiff : forall g, g ∈ activeSequences sequences -> compare_selector (form_selector f) g = 0 <-> g = f_function f).
  { intros g Hg. apply (active_in_table _ _ Hi) in Hg. specialize (Hu g (proj1 (list_elem_of_In _ _) Hg)).
    apply Bool.eqb_prop in Hu. rewrite <- Z.eqb_eq, Hu. apply bool_decide_eq_true. }
  destruct (select_spec (form_selector f) (activeSequences sequences)) as ([g|] & -> & Hr); [by apply inv_searchable| | | |].
  - intros E. rewrite E in Hin. by apply elem_of_nil in Hin.
  - unfold activeSequences. rewrite length_take, (Permutation_length (inv_perm _ Hi)).
    change (length allFunctionsArray) with 137%nat. lia.
  - destruct Hr as [Hg Hz]. do 2 f_equal. by apply Hiff.
  - destruct (Hr _ Hin). by apply Hiff.
Qed.

(** Finding a case by the position of its label. *)
Fixpoint label_index (f : Function) (l : list Function) : option nat :=
  match l with
  | [] => None
  | g :: l => if same_label f g then Some O else S <$> label_index f l
  end.

Lemma find_label f (l : list Case) k c : label_index f l.*1 = Some k -> l !! k = Some c ->
  List.find (fun c => same_label f c.1) l = Some c.
Proof.
  revert k. induction l as [|[g h] l IH]; intros k Hk Hc; [done|]. simpl in *. destruct (same_label f g).
  - injection Hk as <-. simpl in Hc. congruence.
  - apply fmap_Some in Hk as (j & Hj & ->). by eapply IH.
Qed.

Lemma apply_case k f g h seq t : label_index f cases.*1 = Some k -> cases !! k = Some (g, h) -> apply f seq t = h seq t.
Proof. intros Hk Hc. unfold apply. by rewrite (find_label f cases k (g, h)). Qed.

Definition outcome t (r : option Screen) : Outcome :=
  match r with Some s => Done (with_screen t s) Ok | None => Stuck end.

Ltac find_case := erewrite apply_case; [|vm_compute; reflexivity|reflexivity].

(** Evaluates an applied case whose parameters are known. *)
Ltac run_case Hparam Hcount :=
  cbn [f_function]; find_case; cbv beta;
  unfold apply_EL, apply_DECSEL, apply_ED, apply_TBC, apply_DECSTBM, each; rewrite ?Hcount;
  cbn [f_values length Nat.eqb negb List.seq for_parameters ED_loop];
  unfold ED_step, setModeDEC, param_or; match type of Hparam with forall i, param_opt ?q i = _ => change (param q) with (param_opt q) end; rewrite ?Hparam;
  cbn [f_values lookup list_lookup default from_option id decr fmap option_fmap option_map].

Lemma motion_applied m f seq t : motion_form m = Some f -> spelled f seq ->
  apply (f_function f) seq t = outcome t (run_motion (se_screen t) m).
Proof.
  intros Hf (_ & Hcount & Hparam).
  destruct m as [| | | | | | | | | | | | | | |w|[top|] [bottom|]| |[] e| | | | | | |]; cbn [motion_form] in Hf; try discriminate Hf.
  1-11: injection Hf as <-; run_case Hparam Hcount; unfold done_; cbn [outcome run_motion]; rewrite ?Z.add_simpl_r; reflexivity.
  - destruct w; injection Hf as <-; run_case Hparam Hcount; reflexivity.
  - injection Hf as <-; run_case Hparam Hcount. unfold done_. cbn [outcome run_motion].
    rewrite <- !Z.sub_1_r, !Z.add_simpl_r. reflexivity.
  - injection Hf as <-; run_case Hparam Hcount. reflexivity.
  - destruct e; injection Hf as <-; run_case Hparam Hcount; reflexivity.
  - destruct e; injection Hf as <-; run_case Hparam Hcount; reflexivity.
Qed.

Lemma command_applied c f seq t : command_form c = Some f -> spelled f seq ->
  apply (f_function f) seq t = outcome t (run_command (se_screen t) c).
Proof.
  intros Hf Hsp. destruct c as [m|op|n|n|n|n|n|n]; [by apply motion_applied|..]; destruct Hsp as (_ & Hcount & Hparam);
  cbn [command_form] in Hf; [destruct op|..]; injection Hf as <-; run_case Hparam Hcount; try reflexivity.
  unfold try_, outcome. cbn [run_command run_erase]. by destruct (clearToBeginOfScreen _).
Qed.

Lemma command_processed c f seq t : command_form c = Some f -> spelled f seq ->
  supported_inv (se_sequences t) -> f_function f ∈ activeSequences (se_sequences t) ->
  session_process t seq = outcome t (run_command (se_screen t) c).
Proof.
  intros Hf Hsp Hi Hin. unfold session_process, functionDefinition. pose proof Hsp as (Hsel & _). rewrite Hsel.
  fold (form_selector f). rewrite (form_selected _ c f) by done. by apply command_applied.
Qed.

Lemma form_csi c f : command_form c = Some f -> Forall (fun v => 1 <= v < 2 ^ 16) (f_values f) ->
  csi_wf (f_leader f) (params_text (first_value (f_values f)) (more_texts (f_values f))) [] (f_final f) /\
  (length (more_texts (f_values f)) < 16)%nat /\ digits (first_value (f_values f)) /\
  Forall (fun q => digits q.2) (more_texts (f_values f)).
Proof.
  intros Hf Hvs. pose proof (forms_shaped c f Hf) as Hsh. unfold form_shape in Hsh.
  apply andb_prop in Hsh as [[Hle Hfin]%andb_prop Hlen]. apply Nat.leb_le in Hlen.
  assert (Hd : digits (first_value (f_values f)) /\ Forall (fun q => digits q.2) (more_texts (f_values f)) /\
    hd 0 (params_text (first_value (f_values f)) (more_texts (f_values f))) <> 0x3A).
  { destruct (form_digits _ Hvs) as [(Hd & Hm & Hn)|E]; [|rewrite E; split_and!; [apply Forall_nil; done|apply Forall_nil; done|done]].
    split_and!; [done|done|]. unfold params_text. destruct (first_value _) as [|d ds]; [done|]. simpl.
    apply Forall_cons in Hd as [Hd _]. lia. }
  destruct Hd as (Hd & Hm & Hhd). split_and!; [|unfold more_texts; rewrite length_fmap; destruct (f_values f); simpl in *; lia|done|done].
  split_and!; [|by apply params_bytes|done|lia|lia]. destruct (f_leader f) as [l|]; [|done]. lia.
Qed.

Lemma commands_run cs : forall p b t r,
  _state p = ParserTable.Ground -> _eventListener p = Some b -> sb_wf b -> SequenceBuilder._handler b = outcome t r ->
  supported_inv (se_sequences t) -> Forall (sendable (activeSequences (se_sequences t))) cs ->
  let p' := fsm_run p (mjoin (command_text <$> cs)) in
  _state p' = ParserTable.Ground /\ exists b', _eventListener p' = Some b' /\ sb_wf b' /\
    SequenceBuilder._handler b' = outcome t (s ← r; run_commands s cs).
Proof.
  induction cs as [|c cs IH]; intros p b t r Hs Hl Hwf Hh Hi Hcs p'.
  { split; [done|]. exists b. split_and!; [done|done|]. rewrite Hh. by destruct r. }
  apply Forall_cons in Hcs as [(f & Hf & Hvs & Hin) Hcs]. subst p'. rewrite fmap_cons. cbn [mjoin list_join].
  rewrite fsm_run_app. assert (Ect : command_text c = form_text f) by (unfold command_text; by rewrite Hf). rewrite Ect.
  destruct (form_csi c f Hf Hvs) as (Hcsi & Hlen & Hd & Hm).
  destruct (csi_dispatched _ _ _ _ session_handler p b (f_leader f) (first_value (f_values f)) (more_texts (f_values f)) [] (f_final f))
    as (Hs1 & seq & b1 & Hseq & Hl1 & Hwf1 & Hh1); [done..|].
  pose proof (form_spelled f seq Hvs Hseq) as Hsp.
  destruct (IH (fsm_run p (form_text f)) b1 t (s ← r; run_command s c)) as (Hs2 & b2 & Hl2 & Hwf2 & Hh2); [done|done|done| |done|done|].
  - rewrite Hh1, Hh. destruct r as [s|]; [|done]. cbn [mbind option_bind outcome session_handler processSequence writeTextEnd fst].
    rewrite (command_processed c f seq (with_screen t s) Hf Hsp Hi Hin). by destruct (run_command _ _).
  - split; [exact Hs2|]. exists b2. split; [exact Hl2|]. split; [exact Hwf2|]. rewrite Hh2. by destruct r.
Qed.

(** C2: Bytes drive the screen: the control sequences of any list of commands (cursor motion,
    tabs, margins, origin and wrap mode, erasing, inserting, deleting and scrolling) whose
    functions are active and whose parameters are from 1 to 65535, read by the parser one after
    the other from its ground state, reach the screen as exactly these operations in this order
    with exactly these parameters, through the sequence builder, the selection among the active
    functions and the dispatch. The parser ends in the ground state; only an operation that
    fails itself stops the session. *)
Theorem commands_end_to_end (p : Parser (option (SequenceBuilder.t Outcome (SimpleStringCollector Outcome))))
    b t cs :
  _state p = ParserTable.Ground -> _eventListener p = Some b -> sb_wf b -> SequenceBuilder._handler b = Done t Ok ->
  supported_inv (se_sequences t) -> Forall (sendable (activeSequences (se_sequences t))) cs ->
  let p' := fsm_run p (mjoin (command_text <$> cs)) in
  _state p' = ParserTable.Ground /\ exists b', _eventListener p' = Some b' /\ sb_wf b' /\
    SequenceBuilder._handler b' = outcome t (run_commands (se_screen t) cs).
Proof.
  intros Hs Hl Hwf Hh Hi Hcs. apply (commands_run cs p b t (Some (se_screen t))); try done. rewrite Hh. by destruct t.
Qed.

End Dispatch.

(** ** Concrete sessions *)

#[local] Instance narrow : UnicodeWidth := fun _ => 1.
#[local] Instance per_char : GraphemeSegmenter := fun _ _ => true.
#[local] Existing Instance latin1.

Definition session0 : Session SimpleCell.t :=
  mkSession (Screen_make (mkPageSize 3 20) true (LimitedTo 4) quiet) SupportedSequences_init (mkPageSize 3 20).
Definition parser0 : Parser (option (SequenceBuilder.t (Outcome SimpleCell.t) (SimpleStringCollector (Outcome SimpleCell.t)))) :=
  Parser_new (Some (SequenceBuilder.new (Done session0 Ok))).

Definition program : list Command := [Move (CUP 1 4); Erase EL0; Move (MODE Origin true); Move (DECSTBM (Some 0) (Some 1)); Move (CUF 3)].

Lemma program_sendable : Forall (sendable (activeSequences (se_sequences session0))) program.
Proof.
  repeat (apply Forall_cons; split; [|]); [..|apply Forall_nil; done].
  all: eexists; split; [reflexivity|]; split;
    [repeat (apply Forall_cons; split; [lia|]); apply Forall_nil; done|apply (bool_decide_eq_true_1 _); vm_compute; reflexivity].
Qed.

Lemma program_result : (s ← run_commands (se_screen session0) program; Some (cursor_line s, cursor_column s)) = Some (0, 3).
Proof. vm_compute. reflexivity. Qed.

Lemma commands_end_to_end_witness :
  exists b' t', _eventListener (fsm_run parser0 (mjoin (command_text <$> program))) = Some b' /\
    SequenceBuilder._handler b' = Done t' Ok /\ cursor_column (se_screen t') = 3.
Proof.
  destruct (commands_end_to_end parser0 (SequenceBuilder.new (Done session0 Ok)) session0 program)
    as (_ & b' & E & _ & Hh); [reflexivity|reflexivity|reflexivity|reflexivity|apply init_inv|apply program_sendable|].
  pose proof program_result as Hr. destruct (run_commands (se_screen session0) program) as [s|]; [|discriminate Hr].
  exists b', (with_screen session0 s). split; [exact E|]. split; [exact Hh|]. by injection Hr.
Defined.

(** The functions of the table that the switch leaves to its default. *)
Example unhandled_functions :
  filter (fun f => negb (existsb (same_label f) ((cases (Cell := SimpleCell.t)).*1 ++ cases_elsewhere))) allFunctionsArray
  = [Fn.EOT; Fn.LS0; Fn.LS1; Fn.DECSCL; Fn.XTSHIFTESCAPE; Fn.COLORSPECIAL].
Proof. vm_compute. reflexivity. Qed.
