(* ===== verification/Sixel.v ===== *)
(** * Sixel images (src/vtbackend/SixelParser.h, SixelParser.cpp,
      Screen::hookSixel)

    A byte-wise state machine reads a sixel stream and tells an event handler
    what to do; [SixelImageBuilder] is the handler that paints into an RGBA
    buffer.  The virtual class [SixelParser::Events] is a type class, so that
    the parser is stated once for every handler.  [None] is undefined
    behaviour: an access past the end of a vector, a division by zero, or a
    conversion of a floating-point number that does not fit. *)
From Stdlib Require Import SpecFloat.
From stdpp Require Import list.
From S2P Require Import Prelude Color.

(** ** Machine numbers *)

(** Conversion to [int]. *)
Definition s32 (z : Z) : Z := (z + 2 ^ 31) mod 2 ^ 32 - 2 ^ 31.

(** [float] and [double] with the rounding of IEEE 754. *)
Definition float_of (z : Z) : spec_float := binary_normalize 24 128 z 0 false.
Definition float_mul := SFmul 24 128.
Definition float_div := SFdiv 24 128.
Definition double_of (z : Z) : spec_float := binary_normalize 53 1024 z 0 false.
Definition double_add := SFadd 53 1024.
Definition double_sub := SFsub 53 1024.
Definition double_mul := SFmul 53 1024.
Definition double_div := SFdiv 53 1024.

(** The value rounded towards zero; [None] for an infinity or a NaN. *)
Definition truncate (f : spec_float) : option Z :=
  match f with
  | S754_zero _ => Some 0
  | S754_finite s m e =>
      let v := if 0 <=? e then Z.shiftl (Z.pos m) e else Z.shiftr (Z.pos m) (- e) in
      Some (if s then - v else v)
  | _ => None
  end.

(** [std::ceil], as an integer. *)
Definition ceil (f : spec_float) : option Z :=
  match f with
  | S754_zero _ => Some 0
  | S754_finite s m e =>
      if 0 <=? e then Some (Z.shiftl (if s then Z.neg m else Z.pos m) e)
      else Some (- Z.shiftr (if s then Z.pos m else Z.neg m) (- e))
  | _ => None
  end.

(** [static_cast] of a floating-point number to an integer type. *)
Definition within (lo hi : Z) (z : option Z) : option Z :=
  v ← z; if (lo <=? v) && (v <? hi) then Some v else None.
Definition cast_u8 (f : spec_float) : option Z := within 0 (2 ^ 8) (truncate f).
Definition cast_int (f : spec_float) : option Z := within (- 2 ^ 31) (2 ^ 31) (truncate f).
Definition cast_u32 (z : option Z) : option Z := within 0 (2 ^ 32) z.

(** The ratio of two integers, rounded up. *)
Definition ratio_of (a b : Z) : option Z := cast_u32 (ceil (float_div (float_of a) (float_of b))).

(** ** Characters and colours *)

Definition isDigit (value : Z) : bool := (0x30 <=? value) && (value <=? 0x39).
Definition toDigit (value : Z) : Z := u8 (value - 0x30).
Definition isSixel (value : Z) : bool := (63 <=? value) && (value <=? 126).
Definition toSixel (value : Z) : Z := value - 63.

Definition hue2rgb (p q t : spec_float) : spec_float :=
  let one := double_of 1 in
  let t := if SFltb t (double_of 0) then double_add t one else t in
  let t := if SFltb one t then double_sub t one else t in
  if SFltb t (double_div one (double_of 6)) then
    double_add p (double_mul (double_mul (double_sub q p) (double_of 6)) t)
  else if SFltb t (double_div one (double_of 2)) then q
  else if SFltb t (double_div (double_of 2) (double_of 3)) then
    double_add p (double_mul (double_mul (double_sub q p)
      (double_sub (double_div (double_of 2) (double_of 3)) t)) (double_of 6))
  else p.

Definition hsl2rgb (h s l : spec_float) : option RGBColor :=
  if SFeqb (double_of 0) s then
    grayscale ← cast_u8 (double_mul l (double_of 255));
    Some (mkRGB grayscale grayscale grayscale)
  else
    let q := if SFltb l (double_div (double_of 1) (double_of 2)) then double_mul l (double_add (double_of 1) s)
             else double_sub (double_add l s) (double_mul l s) in
    let p := double_sub (double_mul (double_of 2) l) q in
    let third := double_div (double_of 1) (double_of 3) in
    red ← cast_u8 (double_mul (hue2rgb p q (double_add h third)) (double_of 255));
    green ← cast_u8 (double_mul (hue2rgb p q h) (double_of 255));
    blue ← cast_u8 (double_mul (hue2rgb p q (double_sub h third)) (double_of 255));
    Some (mkRGB red green blue).

(** A percentage as a byte. *)
Definition ConvertValue (value : Z) : option Z :=
  v ← cast_int (float_div (float_mul (float_of value) (float_of 255)) (float_of 100));
  Some (u8 (Z.rem v 256)).

(** The colour of a definition: percentages of red, green and blue, or a hue
    angle with a lightness that is also taken for the saturation. *)
Definition color_of (space p1 p2 p3 : Z) : option RGBColor :=
  if space =? 2 then
    r ← ConvertValue p1; g ← ConvertValue p2; b ← ConvertValue p3; Some (mkRGB r g b)
  else
    let h := double_sub (double_of p1) (double_of 120) in
    let hc := double_div (if SFltb h (double_of 0) then double_add (double_of 360) h else h) (double_of 360) in
    let sc := double_div (double_of p2) (double_of 100) in
    let ls := double_div (double_of p2) (double_of 100) in
    hsl2rgb hc sc ls.

Definition DefaultColors : list RGBColor :=
  [ mkRGB 0 0 0; mkRGB 51 51 204; mkRGB 204 33 33; mkRGB 51 204 51; mkRGB 204 51 204; mkRGB 51 204 204;
    mkRGB 204 204 51; mkRGB 135 135 135; mkRGB 66 66 66; mkRGB 84 84 153; mkRGB 153 66 66; mkRGB 84 153 84;
    mkRGB 153 84 153; mkRGB 84 153 153; mkRGB 153 153 84; mkRGB 204 204 204 ].

(** ** SixelColorPalette *)

Record SixelColorPalette := mk_palette { _palette : list RGBColor; _maxSize : Z }.

(** [std::vector::resize] *)
Definition resize {A} (d : A) (n : Z) (l : list A) : list A :=
  take (Z.to_nat n) l ++ replicate (Z.to_nat n - length l) d.

Definition size (p : SixelColorPalette) : Z := Z.of_nat (length (_palette p)).

Definition reset (p : SixelColorPalette) : SixelColorPalette :=
  let n := Nat.min (length (_palette p)) (length DefaultColors) in
  mk_palette (take n DefaultColors ++ drop n (_palette p)) (_maxSize p).

Definition new_palette (size maxSize : Z) : SixelColorPalette :=
  reset (mk_palette (if 0 <? size then resize RGB_default size [] else []) maxSize).

Definition setSize (newSize : Z) (p : SixelColorPalette) : SixelColorPalette :=
  mk_palette (resize RGB_default (Z.max 0 (Z.min newSize (_maxSize p))) (_palette p)) (_maxSize p).

Definition palette_setColor (index : Z) (color : RGBColor) (p : SixelColorPalette) : SixelColorPalette :=
  if index <? _maxSize p then
    let p := if size p <=? index then setSize (u32 (index + 1)) p else p in
    if index <? size p then mk_palette (<[Z.to_nat index := color]> (_palette p)) (_maxSize p) else p
  else p.

Definition palette_at (index : Z) (p : SixelColorPalette) : option RGBColor :=
  if size p =? 0 then None else _palette p !! Z.to_nat (index mod size p).

(** ** SixelParser *)

Record ImageSize := mk_size { width : Z; height : Z }.
Definition area (s : ImageSize) : Z := width s * height s.

Class Events (B : Type) := {
  setColor : Z -> RGBColor -> B -> option B;
  useColor : Z -> B -> option B;
  rewind : B -> option B;
  newline : B -> option B;
  setRaster : Z -> Z -> option ImageSize -> B -> option B;
  render : Z -> B -> option B;
  finalize : B -> option B
}.

Inductive State := Ground | RasterSettings | RepeatIntroducer | ColorIntroducer | ColorParam.
#[export] Instance State_eq_dec : EqDecision State.
Proof. solve_decision. Defined.

Section Parser.
Context {B : Type} `{Events B}.

Record SixelParser := mk_parser { _state : State; _params : list Z; _events : B }.

Definition set_state (s : State) (p : SixelParser) : SixelParser := mk_parser s (_params p) (_events p).
Definition set_params (l : list Z) (p : SixelParser) : SixelParser := mk_parser (_state p) l (_events p).

(** Runs an event on the handler. *)
Definition emit (f : B -> option B) (p : SixelParser) : option SixelParser :=
  e ← f (_events p); Some (mk_parser (_state p) (_params p) e).

(** [_params.back()] exists only in a vector that is not empty. *)
Definition paramShiftAndAddDigit (value : Z) (p : SixelParser) : option SixelParser :=
  number ← last (_params p);
  Some (set_params (removelast (_params p) ++ [u32 (number * 10 + value)]) p).

Definition enterState (p : SixelParser) : SixelParser :=
  match _state p with
  | ColorIntroducer | RepeatIntroducer | RasterSettings => set_params [0] p
  | Ground | ColorParam => p
  end.

Definition define_color (index space p1 p2 p3 : Z) (p : SixelParser) : option SixelParser :=
  rgb ← color_of space p1 p2 p3;
  p ← emit (setColor index rgb) p;
  emit (useColor index) p.

Definition leaveState (p : SixelParser) : option SixelParser :=
  match _state p, _params p with
  | RasterSettings, [pan; pad] | RasterSettings, [pan; pad; _] =>
      p ← emit (setRaster pan pad None) p; Some (set_state Ground p)
  | RasterSettings, [pan; pad; w; h] =>
      p ← emit (setRaster pan pad (Some (mk_size w h))) p; Some (set_state Ground p)
  | ColorParam, [index] => emit (useColor index) p
  | ColorParam, [index; space; p1; p2; p3] => define_color index space p1 p2 p3 p
  | _, _ => Some p
  end.

Definition transitionTo (newState : State) (p : SixelParser) : option SixelParser :=
  p ← leaveState p;
  Some (enterState (set_state newState p)).

Definition fallback (value : Z) (p : SixelParser) : option SixelParser :=
  if value =? 0x23 then transitionTo ColorIntroducer p
  else if value =? 0x21 then transitionTo RepeatIntroducer p
  else if value =? 0x22 then transitionTo RasterSettings p
  else if value =? 0x24 then p ← transitionTo Ground p; emit rewind p
  else if value =? 0x2D then p ← transitionTo Ground p; emit newline p
  else
    p ← (if decide (_state p = Ground) then Some p else transitionTo Ground p);
    if isSixel value then emit (render (toSixel value)) p else Some p.

Fixpoint repeat_render (n : nat) (sixel : Z) (p : SixelParser) : option SixelParser :=
  match n with
  | O => Some p
  | S n => p ← emit (render sixel) p; repeat_render n sixel p
  end.

Definition parse (value : Z) (p : SixelParser) : option SixelParser :=
  match _state p with
  | Ground => fallback value p
  | RepeatIntroducer =>
      if isDigit value then paramShiftAndAddDigit (toDigit value) p
      else if isSixel value then
        count ← head (_params p);
        p ← repeat_render (Z.to_nat count) (toSixel value) p;
        transitionTo Ground p
      else fallback value p
  | ColorIntroducer =>
      if isDigit value then p ← paramShiftAndAddDigit (toDigit value) p; transitionTo ColorParam p
      else fallback value p
  | ColorParam | RasterSettings =>
      if isDigit value then paramShiftAndAddDigit (toDigit value) p
      else if value =? 0x3B then Some (set_params (_params p ++ [0]) p)
      else fallback value p
  end.

Fixpoint parseFragment (text : list Z) (p : SixelParser) : option SixelParser :=
  match text with
  | [] => Some p
  | ch :: text => p ← parse ch p; parseFragment text p
  end.

(** [done], which [finalize] of the parser extension calls. *)
Definition done_ (finalizer : option (B -> option B)) (p : SixelParser) : option SixelParser :=
  p ← transitionTo Ground p;
  p ← emit finalize p;
  match finalizer with Some f => emit f p | None => Some p end.

Definition new_parser (events : B) : SixelParser := mk_parser Ground [] events.

(** The static [parse]. *)
Definition parse_all (range : list Z) (events : B) : option B :=
  p ← parseFragment range (new_parser events);
  p ← done_ None p;
  Some (_events p).

End Parser.
Arguments SixelParser : clear implicits.

(** ** SixelImageBuilder *)

Record SixelImageBuilder := mk_builder {
  maxSize : ImageSize;
  _colors : SixelColorPalette;
  _size : ImageSize;
  _buffer : list Z;
  cursor_line : Z;
  cursor_column : Z;
  _currentColor : Z;
  _explicitSize : bool;
  _aspectRatio : Z;
  _sixelBandHeight : Z
}.

Definition with_cursor (line column : Z) (b : SixelImageBuilder) : SixelImageBuilder :=
  mk_builder (maxSize b) (_colors b) (_size b) (_buffer b) line column (_currentColor b) (_explicitSize b)
    (_aspectRatio b) (_sixelBandHeight b).
Definition with_buffer (s : list Z) (b : SixelImageBuilder) : SixelImageBuilder :=
  mk_builder (maxSize b) (_colors b) (_size b) s (cursor_line b) (cursor_column b) (_currentColor b)
    (_explicitSize b) (_aspectRatio b) (_sixelBandHeight b).
Definition with_size (s : ImageSize) (b : SixelImageBuilder) : SixelImageBuilder :=
  mk_builder (maxSize b) (_colors b) s (_buffer b) (cursor_line b) (cursor_column b) (_currentColor b)
    (_explicitSize b) (_aspectRatio b) (_sixelBandHeight b).
Definition with_colors (p : SixelColorPalette) (current : Z) (b : SixelImageBuilder) : SixelImageBuilder :=
  mk_builder (maxSize b) p (_size b) (_buffer b) (cursor_line b) (cursor_column b) current
    (_explicitSize b) (_aspectRatio b) (_sixelBandHeight b).
Definition with_ratio (ratio band : Z) (b : SixelImageBuilder) : SixelImageBuilder :=
  mk_builder (maxSize b) (_colors b) (_size b) (_buffer b) (cursor_line b) (cursor_column b) (_currentColor b)
    (_explicitSize b) ratio band.
Definition with_explicit (e : bool) (b : SixelImageBuilder) : SixelImageBuilder :=
  mk_builder (maxSize b) (_colors b) (_size b) (_buffer b) (cursor_line b) (cursor_column b) (_currentColor b)
    e (_aspectRatio b) (_sixelBandHeight b).

(** The four bytes of a colour, as they are stored. *)
Definition fill_bytes (c : RGBAColor) : list Z := [RGBA_red c; RGBA_green c; RGBA_blue c; RGBA_alpha c].

(** [area] pixels of one colour. *)
Definition blank_buffer (n : Z) (c : RGBAColor) : list Z := mjoin (replicate (Z.to_nat n) (fill_bytes c)).

Definition clear (fillColor : RGBAColor) (b : SixelImageBuilder) : SixelImageBuilder :=
  with_buffer (blank_buffer (area (maxSize b)) fillColor) (with_cursor 0 0 b).

Definition new_builder (max : ImageSize) (aspectVertical aspectHorizontal : Z) (backgroundColor : RGBAColor)
    (colorPalette : SixelColorPalette) : option SixelImageBuilder :=
  ratio ← ratio_of aspectVertical aspectHorizontal;
  Some (clear backgroundColor
    (mk_builder max colorPalette (mk_size 1 1) (replicate (Z.to_nat (area max * 4)) 0) 0 0 0 false
       ratio (u32 (6 * ratio)))).

(** [buffer[i] = v] *)
Definition store (i v : Z) (l : list Z) : option (list Z) :=
  if (0 <=? i) && (i <? Z.of_nat (length l)) then Some (<[Z.to_nat i := v]> l) else None.

Definition store_pixel (base : Z) (c : RGBColor) (l : list Z) : option (list Z) :=
  l ← store base (red c) l;
  l ← store (u32 (base + 1)) (green c) l;
  l ← store (u32 (base + 2)) (blue c) l;
  store (u32 (base + 3)) 0xFF l.

(** The width of a row of the buffer. *)
Definition stride (b : SixelImageBuilder) : Z := width (if _explicitSize b then _size b else maxSize b).

(** The loop over the rows of a sixel pixel: [n] rows from row [i] on. *)
Fixpoint write_rows (n : nat) (i line column w : Z) (value : RGBColor) (l : list Z) : option (list Z) :=
  match n with
  | O => Some l
  | S n =>
      let base := u32 (u32 (u32 (u32 (line + i) * w) * 4) + u32 (column * 4)) in
      l ← store_pixel base value l;
      write_rows n (i + 1) line column w value l
  end.

Definition write (line column : Z) (value : RGBColor) (b : SixelImageBuilder) : option SixelImageBuilder :=
  if (0 <=? line) && (line <? s32 (height (maxSize b))) && (0 <=? column) && (column <? s32 (width (maxSize b)))
  then
    let b :=
      if _explicitSize b then b else
      let b := if s32 (height (_size b)) <=? line
               then with_size (mk_size (width (_size b)) (u32 (line + _aspectRatio b))) b else b in
      if s32 (width (_size b)) <=? column
      then with_size (mk_size (u32 (column + 1)) (height (_size b))) b else b in
    l ← write_rows (Z.to_nat (_aspectRatio b)) 0 line column (stride b) value (_buffer b);
    Some (with_buffer l b)
  else Some b.

Definition currentColor (b : SixelImageBuilder) : option RGBColor := palette_at (_currentColor b) (_colors b).

(** The colour at a position. *)
Definition at_ (line column : Z) (b : SixelImageBuilder) : option RGBAColor :=
  if (height (_size b) =? 0) || (width (_size b) =? 0) then None else
  let line := u32 line mod height (_size b) in
  let col := u32 column mod width (_size b) in
  let base := Z.to_nat (u32 (u32 (u32 (line * width (_size b)) * 4) + u32 (col * 4))) in
  r ← _buffer b !! base; g ← _buffer b !! (base + 1)%nat;
  bl ← _buffer b !! (base + 2)%nat; a ← _buffer b !! (base + 3)%nat;
  Some (RGBA_make r g bl a).

Definition builder_setColor (index : Z) (color : RGBColor) (b : SixelImageBuilder) : option SixelImageBuilder :=
  Some (with_colors (palette_setColor index color (_colors b)) (_currentColor b) b).

Definition builder_useColor (index : Z) (b : SixelImageBuilder) : option SixelImageBuilder :=
  if size (_colors b) =? 0 then None
  else Some (with_colors (_colors b) (index mod size (_colors b)) b).

Definition builder_rewind (b : SixelImageBuilder) : option SixelImageBuilder :=
  Some (with_cursor (cursor_line b) 0 b).

Definition builder_newline (b : SixelImageBuilder) : option SixelImageBuilder :=
  let b := with_cursor (cursor_line b) 0 b in
  let next := u32 (u32 (cursor_line b) + _sixelBandHeight b) in
  Some (if next <? height (if _explicitSize b then _size b else maxSize b)
        then with_cursor (s32 next) 0 b else b).

Definition builder_setRaster (pan pad : Z) (imageSize : option ImageSize) (b : SixelImageBuilder) :
    option SixelImageBuilder :=
  ratio ← (if pad =? 0 then Some (_aspectRatio b)
           else r ← ratio_of pan pad; Some (Z.max 1 r));
  let b := with_ratio ratio (u32 (6 * ratio)) b in
  match imageSize with
  | Some s =>
      let w := Z.max 0 (Z.min (width s) (width (maxSize b))) in
      let h := Z.max 0 (Z.min (u32 (height s * ratio)) (height (maxSize b))) in
      let b := with_size (mk_size w h) b in
      let b := with_buffer (resize 0 (area (_size b) * 4) (_buffer b)) b in
      Some (with_explicit true b)
  | None => Some b
  end.

(** The six pins of a sixel, from pin [i] on; the line is an [int]. *)
Fixpoint render_pins (n : nat) (i : Z) (sixel x : Z) (b : SixelImageBuilder) : option SixelImageBuilder :=
  match n with
  | O => Some b
  | S n =>
      let y := cursor_line b + s32 (u32 (i * _aspectRatio b)) in
      if negb ((- 2 ^ 31 <=? y) && (y <? 2 ^ 31)) then None else
      b ← (if Z.testbit sixel i then c ← currentColor b; write y x c b else Some b);
      render_pins n (i + 1) sixel x b
  end.

Definition builder_render (sixel : Z) (b : SixelImageBuilder) : option SixelImageBuilder :=
  let x := cursor_column b in
  if x <? s32 (stride b) then
    b ← render_pins 6 0 sixel x b;
    Some (with_cursor (cursor_line b) (cursor_column b + 1) b)
  else Some b.

(** [std::copy_n] of a row out of the buffer and into the target. *)
Definition copy_n (from n to : nat) (src dst : list Z) : option (list Z) :=
  if (from + n <=? length src)%nat && (to + n <=? length dst)%nat
  then Some (take to dst ++ take n (drop from src) ++ drop (to + n) dst) else None.

(** The loop over [j] copies the same row again. *)
Fixpoint copy_again (j : nat) (from n to : nat) (src dst : list Z) : option (list Z) :=
  match j with
  | O => Some dst
  | S j => dst ← copy_n from n to src dst; copy_again j from n to src dst
  end.

Fixpoint compact_rows (rows i : nat) (w max : nat) (src dst : list Z) : option (list Z) :=
  match rows with
  | O => Some dst
  | S rows =>
      dst ← copy_again w (i * max * 4) (w * 4) (i * w * 4) src dst;
      compact_rows rows (S i) w max src dst
  end.

Definition builder_finalize (b : SixelImageBuilder) : option SixelImageBuilder :=
  if height (_size b) =? 1 then
    let b := with_size (mk_size (width (_size b)) (u32 (u32 (cursor_line b) * _aspectRatio b))) b in
    Some (with_buffer (resize 0 (area (_size b) * 4) (_buffer b)) b)
  else if _explicitSize b then Some b
  else
    let s := _size b in
    let tempBuffer := replicate (Z.to_nat (u32 (height s * width s) * 4)) 0 in
    l ← compact_rows (Z.to_nat (height s)) 0 (Z.to_nat (width s)) (Z.to_nat (width (maxSize b)))
          (_buffer b) tempBuffer;
    Some (with_explicit false (with_buffer l b)).

#[export] Instance SixelImageBuilder_Events : Events SixelImageBuilder := {
  setColor := builder_setColor;
  useColor := builder_useColor;
  rewind := builder_rewind;
  newline := builder_newline;
  setRaster := builder_setRaster;
  render := builder_render;
  finalize := builder_finalize
}.

(** ** Screen::hookSixel *)

Definition aspectVertical (pA : Z) : Z :=
  if pA =? 9 then 1 else if pA =? 8 then 1 else if pA =? 7 then 1
  else if pA =? 6 then 2 else if pA =? 5 then 2
  else if pA =? 4 then 3 else if pA =? 3 then 3
  else if pA =? 2 then 5
  else if pA =? 1 then 2 else if pA =? 0 then 2
  else 1.

(** The builder of a sixel sequence with the parameters [pa] and [pb]. *)
Definition hookSixel (pa pb : Z) (max : ImageSize) (defaultBackground : RGBAColor)
    (usePrivateColorRegisters : bool) (maxRegisters : Z) (shared : SixelColorPalette) :
    option SixelImageBuilder :=
  let transparentBackground := pb =? 1 in
  new_builder max (aspectVertical pa) 1
    (if transparentBackground then RGBA_make 0 0 0 0 else defaultBackground)
    (if usePrivateColorRegisters then new_palette maxRegisters (Z.max 0 (Z.min maxRegisters 16384)) else shared).
