(* ===== verification/SixelSpec.v ===== *)
(** * What a sixel stream means

    The sixel parser against its grammar, for every event handler, and the
    image builder against an abstract picture. *)
From stdpp Require Import sets list.
From S2P Require Import Prelude Color Sixel.

(** ** The grammar *)

(** A number is written as its decimal digits. *)
Inductive command :=
  | Pixels (sixel : Z)
  | Repeat (count : list Z) (sixel : Z)
  | SelectColor (first : list Z) (more : list (list Z))
  | Raster (first : list Z) (more : list (list Z))
  | Rewind
  | Newline
  | Ignored (byte : Z).

Definition print_params (first : list Z) (more : list (list Z)) : list Z :=
  first ++ mjoin ((fun ds => 0x3B :: ds) <$> more).

Definition print_command (c : command) : list Z :=
  match c with
  | Pixels v => [63 + v]
  | Repeat n v => 0x21 :: n ++ [63 + v]
  | SelectColor first more => 0x23 :: print_params first more
  | Raster first more => 0x22 :: print_params first more
  | Rewind => [0x24]
  | Newline => [0x2D]
  | Ignored b => [b]
  end.

Definition print (cs : list command) : list Z := mjoin (print_command <$> cs).

Definition is_sixel (v : Z) : Prop := 0 <= v < 64.

(** A byte without a meaning. *)
Definition no_meaning (b : Z) : Prop :=
  isDigit b = false /\ isSixel b = false /\ b ∉ [0x21; 0x22; 0x23; 0x24; 0x2D; 0x3B].

Definition command_ok (c : command) : Prop :=
  match c with
  | Pixels v => is_sixel v
  | Repeat n v => digits n /\ is_sixel v
  | SelectColor first more => first <> [] /\ digits first /\ Forall digits more
  | Raster first more => digits first /\ Forall digits more
  | Rewind | Newline => True
  | Ignored b => no_meaning b
  end.

Definition number (ds : list Z) : Z := u32 (decimal ds).

Section Meaning.
Context {B : Type} `{Events B}.

(** [n] times the same sixel. *)
Fixpoint renders (n : nat) (sixel : Z) (b : B) : option B :=
  match n with
  | O => Some b
  | S n => b ← render sixel b; renders n sixel b
  end.

Definition color_command (params : list Z) (b : B) : option B :=
  match params with
  | [index] => useColor index b
  | [index; space; p1; p2; p3] =>
      rgb ← color_of space p1 p2 p3; b ← setColor index rgb b; useColor index b
  | _ => Some b
  end.

Definition raster_command (params : list Z) (b : B) : option B :=
  match params with
  | [pan; pad] | [pan; pad; _] => setRaster pan pad None b
  | [pan; pad; w; h] => setRaster pan pad (Some (mk_size w h)) b
  | _ => Some b
  end.

Definition meaning (c : command) (b : B) : option B :=
  match c with
  | Pixels v => render v b
  | Repeat n v => renders (Z.to_nat (number n)) v b
  | SelectColor first more => color_command (number <$> first :: more) b
  | Raster first more => raster_command (number <$> first :: more) b
  | Rewind => rewind b
  | Newline => newline b
  | Ignored _ => Some b
  end.

Fixpoint meanings (cs : list command) (b : B) : option B :=
  match cs with
  | [] => Some b
  | c :: cs => b ← meaning c b; meanings cs b
  end.

(** ** Reading a command *)

(** Between commands, and what the handler will have been told once the
    command that is still open has been closed. *)
Definition between (p : SixelParser B) : Prop :=
  _state p = Ground \/ _state p = ColorParam \/ _state p = RasterSettings.

Definition settled (p : SixelParser B) : option B := _events <$> leaveState p.

Lemma settled_cases p : settled p =
  match _state p with
  | ColorParam => color_command (_params p) (_events p)
  | RasterSettings => raster_command (_params p) (_events p)
  | _ => Some (_events p)
  end.
Proof.
  unfold settled, leaveState, color_command, raster_command, define_color, emit.
  destruct (_state p); try done;
    repeat (match goal with |- context [match ?l with [] => _ | _ :: _ => _ end] => destruct l end; try done);
    cbn [mbind option_bind fmap option_fmap option_map].
  all: try (match goal with |- context [setRaster ?a ?b ?c ?d] => destruct (setRaster a b c d) end; done).
  all: try (match goal with |- context [color_of ?a ?b ?c ?d] => destruct (color_of a b c d) end; [|done]; cbn).
  all: try (match goal with |- context [setColor ?a ?b ?c] => destruct (setColor a b c) end; [|done]; cbn).
  all: by destruct (useColor _ _).
Qed.

Lemma transition_settled s p :
  transitionTo s p = e ← settled p; Some (enterState (mk_parser s (_params p) e)).
Proof.
  unfold transitionTo, settled.
  assert (forall q, leaveState p = Some q -> _params q = _params p) as Hp.
  { intros q. unfold leaveState, define_color, emit, mbind, option_bind.
    destruct (_state p); repeat case_match; intros; simplify_eq/=; done. }
  destruct (leaveState p) as [q|]; [|done]. cbn. by rewrite <- (Hp q).
Qed.

Lemma parseFragment_app (s t : list Z) (p : SixelParser B) :
  parseFragment (s ++ t) p = p ← parseFragment s p; parseFragment t p.
Proof.
  revert p. induction s as [|ch s IH]; intros p; [done|]. cbn.
  destruct (parse ch p); [apply IH|done].
Qed.

Lemma between_parse v p : between p -> isDigit v = false -> v <> 0x3B -> parse v p = fallback v p.
Proof.
  unfold between, parse. intros [-> | [-> | ->]] Hd Hv; [done| |];
    by rewrite Hd, (proj2 (Z.eqb_neq _ _) Hv).
Qed.

(** Digits go to the last parameter. *)
Lemma read_digits s l acc e ds : s = ColorParam \/ s = RasterSettings \/ s = RepeatIntroducer -> digits ds ->
  parseFragment ds (mk_parser s (l ++ [u32 acc]) e) =
    Some (mk_parser s (l ++ [u32 (foldl (fun acc d => acc * 10 + (d - 0x30)) acc ds)]) e).
Proof.
  intros Hs. revert acc. induction ds as [|d ds IH]; intros acc Hd; [done|].
  apply Forall_cons in Hd as [Hd Hds].
  assert (parse d (mk_parser s (l ++ [u32 acc]) e) = Some (mk_parser s (l ++ [u32 (acc * 10 + (d - 0x30))]) e)) as Hp.
  { assert (isDigit d = true) as Hdig by (unfold isDigit; by zbool).
    assert (paramShiftAndAddDigit (toDigit d) (mk_parser s (l ++ [u32 acc]) e) =
      Some (mk_parser s (l ++ [u32 (acc * 10 + (d - 0x30))]) e)) as Hq.
    { unfold paramShiftAndAddDigit, set_params. cbn [_params _state _events].
      rewrite last_snoc. cbn. rewrite removelast_last. do 4 f_equal.
      unfold toDigit, u8, u32. rewrite (Z.mod_small (d - 0x30)) by lia.
      rewrite <- Zplus_mod_idemp_l, Zmult_mod_idemp_l. by rewrite Zplus_mod_idemp_l. }
    unfold parse. cbn [_state]. destruct Hs as [-> | [-> | ->]]; by rewrite Hdig, Hq. }
  cbn [parseFragment]. rewrite Hp. cbn [mbind option_bind foldl]. by apply IH.
Qed.

Lemma read_more s l e more : s = ColorParam \/ s = RasterSettings -> Forall digits more ->
  parseFragment (mjoin ((fun ds => 0x3B :: ds) <$> more)) (mk_parser s l e) =
    Some (mk_parser s (l ++ (number <$> more)) e).
Proof.
  intros Hs. revert l. induction more as [|ds more IH]; intros l Hm.
  { cbn. by rewrite app_nil_r. }
  apply Forall_cons in Hm as [Hd Hm].
  change (mjoin _) with ((0x3B :: ds) ++ mjoin ((fun ds => 0x3B :: ds) <$> more)).
  rewrite parseFragment_app. cbn [parseFragment].
  assert (parse 0x3B (mk_parser s l e) = Some (mk_parser s (l ++ [u32 0]) e)) as ->
    by (by destruct Hs as [-> | ->]).
  cbn [mbind option_bind]. rewrite read_digits by (tauto || done). cbn [mbind option_bind].
  rewrite IH by done. cbn. by rewrite <- app_assoc.
Qed.

(** After a text the parser is between commands and the handler has been
    told [m]. *)
Definition reads (p : option (SixelParser B)) (m : option B) : Prop :=
  match p with Some q => between q /\ settled q = m | None => m = None end.

Lemma read_color first more e : first <> [] -> digits first -> Forall digits more ->
  parseFragment (print_params first more) (mk_parser ColorIntroducer [0] e) =
    Some (mk_parser ColorParam (number <$> first :: more) e).
Proof.
  intros Hne Hd Hm. unfold print_params. rewrite parseFragment_app.
  assert (parseFragment first (mk_parser ColorIntroducer [0] e) =
    parseFragment first (mk_parser ColorParam [0] e)) as ->.
  { destruct first as [|d ds]; [done|]. apply Forall_cons in Hd as [Hd _].
    assert (isDigit d = true) as Hdig by (unfold isDigit; by zbool).
    cbn [parseFragment]. unfold parse. cbn [_state]. by rewrite Hdig. }
  rewrite (read_digits ColorParam [] 0) by (tauto || done). cbn [mbind option_bind app].
  rewrite read_more by (tauto || done). by cbn.
Qed.

Lemma read_raster first more e : digits first -> Forall digits more ->
  parseFragment (print_params first more) (mk_parser RasterSettings [0] e) =
    Some (mk_parser RasterSettings (number <$> first :: more) e).
Proof.
  intros Hd Hm. unfold print_params. rewrite parseFragment_app.
  rewrite (read_digits RasterSettings [] 0) by (tauto || done). cbn [mbind option_bind app].
  rewrite read_more by (tauto || done). by cbn.
Qed.

Lemma repeat_renders n v p :
  repeat_render n v p = e ← renders n v (_events p); Some (mk_parser (_state p) (_params p) e).
Proof.
  revert p. induction n as [|n IH]; intros p; cbn; [by destruct p|]. unfold emit.
  destruct (render v (_events p)); [|done]. cbn. by rewrite IH.
Qed.

Lemma read_repeat n v e : digits n -> is_sixel v ->
  parseFragment (n ++ [63 + v]) (mk_parser RepeatIntroducer [0] e) =
    e ← renders (Z.to_nat (number n)) v e; Some (mk_parser Ground [number n] e).
Proof.
  intros Hn Hv. rewrite parseFragment_app, (read_digits RepeatIntroducer [] 0) by (tauto || done).
  cbn [mbind option_bind app parseFragment]. unfold parse. cbn [_state]. unfold is_sixel in Hv.
  assert (isDigit (63 + v) = false) as -> by (unfold isDigit; zbool; by rewrite andb_false_r).
  assert (isSixel (63 + v) = true) as -> by (unfold isSixel; by zbool).
  cbn [_params head mbind option_bind]. fold (decimal n). fold (number n). unfold toSixel.
  replace (63 + v - 63) with v by lia. rewrite repeat_renders. cbn [_events].
  by destruct (renders _ _ _).
Qed.

Lemma to_ground p :
  (if decide (_state p = Ground) then Some p else transitionTo Ground p) =
    e ← settled p; Some (mk_parser Ground (_params p) e).
Proof.
  case_decide as E; [|by rewrite transition_settled].
  rewrite settled_cases, E. destruct p. cbn in *. by subst.
Qed.

(** A byte that is none of the introducers. *)
Lemma fallback_plain v p : v ∉ [0x21; 0x22; 0x23; 0x24; 0x2D] ->
  fallback v p = e ← settled p;
    if isSixel v then e ← render (toSixel v) e; Some (mk_parser Ground (_params p) e)
    else Some (mk_parser Ground (_params p) e).
Proof.
  intros Hv. unfold fallback. rewrite !(proj2 (Z.eqb_neq v _)) by (intros ->; apply Hv; set_solver).
  rewrite to_ground. destruct (settled p) as [e|]; [|done]. cbn. by destruct (isSixel v).
Qed.

Lemma introduced s p : s = RepeatIntroducer \/ s = ColorIntroducer \/ s = RasterSettings ->
  transitionTo s p = e ← settled p; Some (mk_parser s [0] e).
Proof. rewrite transition_settled. by intros [-> | [-> | ->]]. Qed.

Lemma reads_ground l e m : Some e = m -> reads (Some (mk_parser Ground l e)) m.
Proof. intros <-. split; [by left|]. by rewrite settled_cases. Qed.

Lemma read_command c p : between p -> command_ok c ->
  reads (parseFragment (print_command c) p) (e ← settled p; meaning c e).
Proof.
  intros Hb Hc.
  destruct c as [v|n v|first more|first more| | |b]; cbn [command_ok] in Hc;
    cbn [print_command parseFragment meaning].
  - unfold is_sixel in Hc. assert (isSixel (63 + v) = true) as Hs by (unfold isSixel; by zbool).
    rewrite between_parse; [|done|unfold isDigit; zbool; by rewrite andb_false_r|lia].
    rewrite fallback_plain by (rewrite !elem_of_cons, elem_of_nil; lia).
    rewrite Hs. unfold toSixel. replace (63 + v - 63) with v by lia.
    destruct (settled p) as [e|]; [|done]. cbn. destruct (render v e); [|done]. by apply reads_ground.
  - rewrite between_parse by done. unfold fallback. cbn [Z.eqb Pos.eqb]. rewrite introduced by tauto.
    destruct (settled p) as [e|]; [|done]. cbn [mbind option_bind].
    destruct Hc. rewrite read_repeat by done. destruct (renders _ v e); [|done]. by apply reads_ground.
  - rewrite between_parse by done. unfold fallback. cbn [Z.eqb Pos.eqb]. rewrite introduced by tauto.
    destruct (settled p) as [e|]; [|done]. cbn [mbind option_bind].
    destruct Hc as (? & ? & ?). rewrite read_color by done. split; [right; by left|]. by rewrite settled_cases.
  - rewrite between_parse by done. unfold fallback. cbn [Z.eqb Pos.eqb]. rewrite introduced by tauto.
    destruct (settled p) as [e|]; [|done]. cbn [mbind option_bind].
    destruct Hc. rewrite read_raster by done. split; [right; by right|]. by rewrite settled_cases.
  - rewrite between_parse by done. unfold fallback. cbn [Z.eqb Pos.eqb]. rewrite transition_settled.
    destruct (settled p) as [e|]; [|done]. unfold emit. cbn. destruct (rewind e); [|done]. by apply reads_ground.
  - rewrite between_parse by done. unfold fallback. cbn [Z.eqb Pos.eqb]. rewrite transition_settled.
    destruct (settled p) as [e|]; [|done]. unfold emit. cbn. destruct (newline e); [|done]. by apply reads_ground.
  - destruct Hc as (Hd & Hs & Hn). rewrite !elem_of_cons, elem_of_nil in Hn.
    rewrite between_parse by (done || lia). rewrite fallback_plain by (rewrite !elem_of_cons, elem_of_nil; lia).
    rewrite Hs. destruct (settled p); [|done]. by apply reads_ground.
Qed.

Lemma read_commands cs p : between p -> Forall command_ok cs ->
  reads (parseFragment (print cs) p) (e ← settled p; meanings cs e).
Proof.
  revert p. induction cs as [|c cs IH]; intros p Hb Hc.
  { cbn. split; [done|]. by destruct (settled p). }
  apply Forall_cons in Hc as [Hc Hcs]. unfold print. cbn [fmap list_fmap mjoin list_join].
  rewrite parseFragment_app. pose proof (read_command c p Hb Hc) as Hr.
  destruct (parseFragment (print_command c) p) as [q|]; cbn [mbind option_bind].
  - destruct Hr as [Hq Es]. specialize (IH q Hq Hcs). rewrite Es in IH. unfold print in IH.
    cbn [meanings]. by destruct (settled p).
  - cbn [reads meanings] in *. destruct (settled p); [|done]. cbn in *. by rewrite Hr.
Qed.


End Meaning.


(** ** Handlers that correspond

    When the handler [A] does what [B] does, event by event, then so does the
    parser.  [good] singles out the states of [B] where this is asked for; no
    event leads back to a good state. *)
Section Correspondence.
Context {A B : Type} `{Events A, Events B} (R : A -> B -> Prop) (good : B -> Prop).

Definition follows (f : A -> option A) (g : B -> option B) : Prop :=
  forall b b', g b = Some b' -> good b' -> good b /\ forall a, R a b -> exists a', f a = Some a' /\ R a' b'.

Context (follow_setColor : forall index color, follows (setColor index color) (setColor index color))
  (follow_useColor : forall index, follows (useColor index) (useColor index))
  (follow_rewind : follows rewind rewind) (follow_newline : follows newline newline)
  (follow_setRaster : forall pan pad s, follows (setRaster pan pad s) (setRaster pan pad s))
  (follow_render : forall sixel, follows (render sixel) (render sixel)).

Definition alike (p : SixelParser A) (q : SixelParser B) : Prop :=
  _state p = _state q /\ _params p = _params q /\ R (_events p) (_events q).

Definition parser_follows (f : SixelParser A -> option (SixelParser A))
    (g : SixelParser B -> option (SixelParser B)) : Prop :=
  forall q q', g q = Some q' -> good (_events q') ->
    good (_events q) /\ forall p, alike p q -> exists p', f p = Some p' /\ alike p' q'.

Lemma emit_follows f g : follows f g -> parser_follows (emit f) (emit g).
Proof.
  intros Hf q q' (e & He & [= <-])%bind_Some Hg. destruct (Hf _ _ He Hg) as [Hq Hs]. split; [done|].
  intros p (Es & Ep & HR). destruct (Hs _ HR) as (e' & Hfe & HR'). unfold emit. rewrite Hfe. by eexists.
Qed.

Lemma bind_follows f g f' g' : parser_follows f g -> parser_follows f' g' ->
  parser_follows (fun p => f p ≫= f') (fun q => g q ≫= g').
Proof.
  intros Hf Hf' q q' (r & Hg & Hg')%bind_Some Hq'. destruct (Hf' _ _ Hg' Hq') as [Hr Hs'].
  destruct (Hf _ _ Hg Hr) as [Hq Hs]. split; [done|]. intros p Ha.
  destruct (Hs p Ha) as (p1 & E & Ha1). destruct (Hs' _ Ha1) as (p2 & E2 & Ha2). exists p2. by rewrite E.
Qed.

(** Steps that do not touch the handler. *)
Lemma pure_follows f g : (forall q q', g q = Some q' -> _events q' = _events q) ->
  (forall p q q', alike p q -> g q = Some q' -> exists p', f p = Some p' /\ alike p' q') -> parser_follows f g.
Proof. intros He Hs q q' Hg Hq. rewrite (He _ _ Hg) in Hq. split; [done|]. intros p Ha. by apply (Hs p q). Qed.

(** A step that is chosen by the state and the parameters, which are alike. *)
Lemma case_follows f g : (forall st ps, exists f' g', (forall p, _state p = st -> _params p = ps -> f p = f' p) /\
    (forall q, _state q = st -> _params q = ps -> g q = g' q) /\ parser_follows f' g') -> parser_follows f g.
Proof.
  intros Hc q q' Hg Hq. destruct (Hc (_state q) (_params q)) as (f' & g' & Ef & Eg & Hs). rewrite Eg in Hg by done.
  destruct (Hs q q' Hg Hq) as [Hgood Hp]. split; [done|]. intros p Ha. pose proof Ha as (Es & Ep & _). rewrite Ef by done.
  by apply Hp.
Qed.
Ltac by_case def := eexists _, _; split_and!;
  [intros p Es Ep; unfold def; rewrite Es, ?Ep; reflexivity|intros q Es Ep; unfold def; rewrite Es, ?Ep; reflexivity|].

Lemma keep_follows : parser_follows Some Some.
Proof. apply pure_follows; [by intros q q' [= <-]|]. intros p q q' Ha [= <-]. by exists p. Qed.
Lemma ground_follows : parser_follows (fun p => Some (set_state Ground p)) (fun q => Some (set_state Ground q)).
Proof. apply pure_follows; [by intros q q' [= <-]|]. intros p q q' (Es & Ep & HR) [= <-]. by eexists. Qed.
Lemma fail_follows : parser_follows (fun _ => None) (fun _ => None).
Proof. by apply pure_follows. Qed.
Lemma push_follows ps : parser_follows (fun p => Some (set_params ps p)) (fun q => Some (set_params ps q)).
Proof. apply pure_follows; [by intros q q' [= <-]|]. intros p q q' (Es & Ep & HR) [= <-]. by eexists. Qed.

Lemma define_follows index space p1 p2 p3 :
  parser_follows (define_color index space p1 p2 p3) (define_color index space p1 p2 p3).
Proof.
  unfold define_color. destruct (color_of space p1 p2 p3); [|apply fail_follows].
  apply bind_follows; by apply emit_follows.
Qed.

Lemma leave_follows : parser_follows leaveState leaveState.
Proof.
  apply case_follows. intros st ps. assert (forall pan pad size, parser_follows
    (fun p => emit (setRaster pan pad size) p ≫= fun p => Some (set_state Ground p))
    (fun q => emit (setRaster pan pad size) q ≫= fun q => Some (set_state Ground q))) as Hraster
    by (intros; apply bind_follows; [by apply emit_follows|apply ground_follows]).
  destruct st; destruct ps as [|a [|b [|c [|d [|e [|]]]]]]; by_case @leaveState;
    first [apply keep_follows|apply Hraster|apply define_follows|by apply emit_follows].
Qed.

Lemma transition_follows s : parser_follows (transitionTo s) (transitionTo s).
Proof.
  apply (bind_follows leaveState leaveState _ _ leave_follows). apply pure_follows.
  - intros q q' [= <-]. by destruct s.
  - intros p q q' (Es & Ep & HR) [= <-]. eexists. split; [done|]. unfold enterState, alike. cbn. by destruct s.
Qed.

Lemma fallback_follows v : parser_follows (fallback v) (fallback v).
Proof.
  unfold fallback. repeat (destruct (v =? _); [first [apply transition_follows
    |apply bind_follows; [apply transition_follows|by apply emit_follows]]|]).
  apply bind_follows; [|destruct (isSixel v); [by apply emit_follows|apply keep_follows]].
  apply case_follows. intros st ps. destruct (decide (st = Ground)) as [E|E]; eexists _, _; split_and!.
  1-2: intros ? Es _; rewrite decide_True by congruence; reflexivity.
  2-3: intros ? Es _; rewrite decide_False by congruence; reflexivity.
  - apply keep_follows.
  - apply transition_follows.
Qed.

Lemma repeat_follows n sixel : parser_follows (repeat_render n sixel) (repeat_render n sixel).
Proof.
  induction n as [|n IH]; [apply keep_follows|]. apply bind_follows; [by apply emit_follows|exact IH].
Qed.

Lemma digit_follows d : parser_follows (paramShiftAndAddDigit d) (paramShiftAndAddDigit d).
Proof.
  apply pure_follows.
  - intros q q' (n & _ & [= <-])%bind_Some. done.
  - intros p q q' (Es & Ep & HR). unfold paramShiftAndAddDigit. rewrite Ep.
    destruct (last (_params q)); [|done]. intros [= <-]. eexists. split; [done|]. done.
Qed.

Lemma parse_follows v : parser_follows (parse v) (parse v).
Proof.
  apply case_follows. intros st ps. destruct st; by_case @parse; [apply fallback_follows| | | |];
    (destruct (isDigit v); [try apply digit_follows|]).
  - destruct (v =? 0x3B); [apply push_follows|apply fallback_follows].
  - destruct (isSixel v); [|apply fallback_follows]. destruct (head ps); [|apply fail_follows].
    apply bind_follows; [apply repeat_follows|apply transition_follows].
  - apply bind_follows; [apply digit_follows|apply transition_follows].
  - apply fallback_follows.
  - destruct (v =? 0x3B); [apply push_follows|apply fallback_follows].
Qed.

Lemma parseFragment_follows text : parser_follows (parseFragment text) (parseFragment text).
Proof.
  induction text as [|ch text IH]; [apply keep_follows|]. apply bind_follows; [apply parse_follows|exact IH].
Qed.

(** All but [finalize]. *)
Lemma parse_all_follows text a b b' : R a b -> parse_all text b = Some b' ->
  exists b1, finalize b1 = Some b' /\ (good b1 -> exists a1, R a1 b1 /\ parse_all text a = finalize a1).
Proof.
  intros HR (q & Hq & (q1 & Hq1 & [= <-])%bind_Some)%bind_Some.
  apply bind_Some in Hq1 as (q2 & Hq2 & Hf). apply bind_Some in Hf as (q3 & (e & He & [= <-])%bind_Some & [= <-]).
  exists (_events q2). split; [done|]. intros Hgood.
  destruct (transition_follows Ground q q2 Hq2 Hgood) as [Hg1 Hs2].
  destruct (parseFragment_follows text (new_parser b) q Hq Hg1) as [_ Hs1].
  destruct (Hs1 (new_parser a)) as (p & Hp & Ha); [done|]. destruct (Hs2 p Ha) as (p2 & Hp2 & (_ & _ & HR2)).
  exists (_events p2). split; [done|]. unfold parse_all, done_. rewrite Hp. cbn [mbind option_bind]. rewrite Hp2.
  cbn [mbind option_bind]. unfold emit. by destruct (finalize (_events p2)).
Qed.

End Correspondence.
