(* ===== verification/SixelImage.v ===== *)
(** * The image of a sixel stream

    [picture] is what the stream draws: a colour for every painted position,
    without a buffer.  It is an event handler like the image builder, and the
    builder is related to it event by event; the relation is carried through
    the parser for every text. *)
From Stdlib Require Import String.
From stdpp Require Import sets list.
From S2P Require Import Prelude Color Sixel SixelSpec.

Record picture := mk_picture {
  p_max : ImageSize;
  p_size : ImageSize;
  p_explicit : bool;
  p_ratio : Z;
  p_line : Z;
  p_column : Z;
  p_colors : SixelColorPalette;
  p_current : Z;
  p_paint : Z -> Z -> option RGBColor;
  p_painted : bool;
  p_inside : bool;
  p_sized_first : bool
}.

Definition canvas (p : picture) : ImageSize := if p_explicit p then p_size p else p_max p.

Definition p_at (line column : Z) (p : picture) : picture :=
  mk_picture (p_max p) (p_size p) (p_explicit p) (p_ratio p) line column (p_colors p) (p_current p)
    (p_paint p) (p_painted p) (p_inside p) (p_sized_first p).
Definition p_pen (colors : SixelColorPalette) (current : Z) (p : picture) : picture :=
  mk_picture (p_max p) (p_size p) (p_explicit p) (p_ratio p) (p_line p) (p_column p) colors current
    (p_paint p) (p_painted p) (p_inside p) (p_sized_first p).

(** The first row of pin [i], whether the pin is set and not below the
    largest image, and whether it is inside the canvas. *)
Definition pin_row (p : picture) (i : Z) : Z := p_line p + i * p_ratio p.
Definition pin_drawn (p : picture) (sixel i : Z) : bool :=
  Z.testbit sixel i && (pin_row p i <? height (p_max p)).
Definition pin_fits (p : picture) (sixel i : Z) : bool :=
  negb (pin_drawn p sixel i) || (pin_row p i + p_ratio p <=? height (canvas p)).

Definition pins : list Z := [0; 1; 2; 3; 4; 5].

(** The position is in the part of the column that a sixel colours. *)
Definition covered (p : picture) (sixel x y : Z) : bool :=
  (x =? p_column p) &&
  existsb (fun i => pin_drawn p sixel i && (pin_row p i <=? y) && (y <? pin_row p i + p_ratio p)) pins.

(** The size follows the highest row and column that were drawn, when the
    stream did not fix it. *)
Definition grow (x y ratio : Z) (s : ImageSize) : ImageSize :=
  mk_size (if width s <=? x then x + 1 else width s) (if height s <=? y then y + ratio else height s).
Definition grown (p : picture) (sixel : Z) : ImageSize :=
  if p_explicit p then p_size p else
  foldl (fun s i => if pin_drawn p sixel i then grow (p_column p) (pin_row p i) (p_ratio p) s else s)
    (p_size p) pins.

(** [p_inside] remembers whether every pin so far was inside the canvas. *)
Definition p_render (sixel : Z) (p : picture) : option picture :=
  if p_column p <? width (canvas p) then
    c ← palette_at (p_current p) (p_colors p);
    Some (mk_picture (p_max p) (grown p sixel) (p_explicit p) (p_ratio p) (p_line p) (p_column p + 1)
      (p_colors p) (p_current p)
      (fun x y => if covered p sixel x y then Some c else p_paint p x y) true
      (p_inside p && forallb (pin_fits p sixel) pins) (p_sized_first p))
  else Some p.

Definition p_newline (p : picture) : option picture :=
  let next := p_line p + 6 * p_ratio p in
  Some (p_at (if next <? height (canvas p) then next else p_line p) 0 p).

(** The last size set is the size of the picture; [p_sized_first] remembers
    whether it was set at most once and before anything was painted.  With an
    aspect ratio above 2 ^ 28 a pin is on no canvas. *)
Definition p_setRaster (pan pad : Z) (imageSize : option ImageSize) (p : picture) : option picture :=
  ratio ← (if pad =? 0 then Some (p_ratio p) else Z.max 1 <$> ratio_of pan pad);
  let inside := p_inside p && (ratio <=? 2 ^ 28) in
  match imageSize with
  | None => Some (mk_picture (p_max p) (p_size p) (p_explicit p) ratio (p_line p) (p_column p)
              (p_colors p) (p_current p) (p_paint p) (p_painted p) inside (p_sized_first p))
  | Some s =>
      let w := Z.max 0 (Z.min (width s) (width (p_max p))) in
      let h := Z.max 0 (Z.min (u32 (height s * ratio)) (height (p_max p))) in
      Some (mk_picture (p_max p) (mk_size w h) true ratio (p_line p) (p_column p) (p_colors p) (p_current p)
              (p_paint p) (p_painted p) inside (p_sized_first p && negb (p_painted p || p_explicit p)))
  end.

Definition p_finalize (p : picture) : option picture := Some p.

#[export] Instance picture_Events : Events picture := {
  setColor := fun index color p => Some (p_pen (palette_setColor index color (p_colors p)) (p_current p) p);
  useColor := fun index p => Some (p_pen (p_colors p) (index mod size (p_colors p)) p);
  rewind := fun p => Some (p_at (p_line p) 0 p);
  newline := p_newline;
  setRaster := p_setRaster;
  render := p_render;
  finalize := p_finalize
}.

Definition blank_picture (max : ImageSize) (ratio : Z) (colors : SixelColorPalette) : picture :=
  mk_picture max (mk_size 1 1) false ratio 0 0 colors 0 (fun _ _ => None) false true true.

(** The stream kept to the canvas and set its size, if at all, once and first. *)
Definition orderly (p : picture) : Prop := p_inside p = true /\ p_sized_first p = true.

(** ** The relation *)

(** The four bytes of pixel [k] of a buffer. *)
Definition quad (l : list Z) (k : Z) : list (option Z) :=
  (fun i => l !! Z.to_nat (4 * k + i)) <$> [0; 1; 2; 3].

Definition opaque (c : RGBColor) : list Z := [red c; green c; blue c; 0xFF].

(** What is stored at a position: what was painted, or the background. *)
Definition shown (background : RGBAColor) (p : picture) (x y : Z) : list (option Z) :=
  Some <$> match p_paint p x y with Some c => opaque c | None => fill_bytes background end.

Record draws (background : RGBAColor) (b : SixelImageBuilder) (p : picture) : Prop := {
  dr_max : maxSize b = p_max p;
  dr_size : _size b = p_size p;
  dr_explicit : _explicitSize b = p_explicit p;
  dr_ratio : _aspectRatio b = p_ratio p;
  dr_band : _sixelBandHeight b = 6 * p_ratio p;
  dr_cursor : (cursor_line b, cursor_column b) = (p_line p, p_column p);
  dr_colors : (_colors b, _currentColor b) = (p_colors p, p_current p);
  dr_palette : 0 < size (p_colors p) /\ _maxSize (p_colors p) < 2 ^ 32;
  dr_geometry : 1 <= width (p_max p) < 2 ^ 31 /\ 1 <= height (p_max p) < 2 ^ 31 /\ 4 * area (p_max p) < 2 ^ 31;
  dr_sizes : 0 <= width (p_size p) <= width (p_max p) /\ 0 <= height (p_size p) <= height (p_max p);
  dr_positive : 1 <= p_ratio p <= 2 ^ 28;
  dr_inside : 0 <= p_line p < 2 ^ 29 /\ 0 <= p_column p;
  dr_length : Z.of_nat (length (_buffer b)) = 4 * area (canvas p);
  dr_pixels : forall x y, 0 <= x < width (canvas p) -> 0 <= y < height (canvas p) ->
    quad (_buffer b) (y * width (canvas p) + x) = shown background p x y;
  dr_unpainted : p_painted p = false -> forall x y, p_paint p x y = None
}.

(** ** The buffer *)

Lemma store_ok i v l : 0 <= i < Z.of_nat (length l) -> store i v l = Some (<[Z.to_nat i := v]> l).
Proof. intros Hi. unfold store. by zbool. Qed.

Lemma store_pixel_ok k c l : 0 <= k -> 4 * k + 4 <= Z.of_nat (length l) < 2 ^ 32 ->
  exists l', store_pixel (4 * k) c l = Some l' /\ length l' = length l /\
    forall j, 0 <= j -> quad l' j = if j =? k then Some <$> opaque c else quad l j.
Proof.
  intros Hk Hl. unfold store_pixel, u32. rewrite !Z.mod_small by lia.
  rewrite store_ok by lia. cbn [mbind option_bind].
  rewrite store_ok by (len; lia). cbn [mbind option_bind].
  rewrite store_ok by (len; lia). cbn [mbind option_bind].
  rewrite store_ok by (len; lia). eexists. split; [done|]. split; [by len|].
  intros j Hj. unfold quad, opaque. cbn [fmap list_fmap].
  destruct (Z.eqb_spec j k) as [->|Hne].
  - rewrite Z.add_0_r.
    repeat f_equal;
      repeat first [rewrite list_lookup_insert_eq by (rewrite ?length_insert; lia)
                   |rewrite list_lookup_insert_ne by lia]; done.
  - rewrite !list_lookup_insert_ne by lia. done.
Qed.

Lemma position_inj w x y x' y' : 0 <= x < w -> 0 <= x' < w -> y * w + x = y' * w + x' -> x = x' /\ y = y'.
Proof. intros Hx Hx' E. assert (y = y') by nia. subst. lia. Qed.

Lemma position_range w h x y : 0 <= x < w -> 0 <= y < h -> 0 <= y * w + x < w * h.
Proof. nia. Qed.

(** The rows [line + i] to [line + i + n] of one column. *)
Lemma write_rows_ok n i line x w h c l :
  0 <= line + i -> 0 <= x < w -> line + i + Z.of_nat n <= h ->
  Z.of_nat (length l) = 4 * (w * h) -> 4 * (w * h) < 2 ^ 31 ->
  exists l', write_rows n i line x w c l = Some l' /\ length l' = length l /\
    forall x' y, 0 <= x' < w -> 0 <= y < h ->
      quad l' (y * w + x') =
        if (x' =? x) && (line + i <=? y) && (y <? line + i + Z.of_nat n) then Some <$> opaque c
        else quad l (y * w + x').
Proof.
  revert i l. induction n as [|n IH]; intros i l Hi Hx Hn Hl Hb.
  { exists l. split_and!; [done|done|]. intros x' y Hx' Hy.
    destruct ((x' =? x) && (line + i <=? y) && (y <? line + i + Z.of_nat 0)) eqn:E; [rewrite !andb_true_iff, Z.leb_le, Z.ltb_lt in E; lia|done]. }
  cbn [write_rows].
  assert (0 <= (line + i) * w + x < w * h) as Hpos by (apply position_range; lia).
  assert (u32 (u32 (u32 (u32 (line + i) * w) * 4) + u32 (x * 4)) = 4 * ((line + i) * w + x)) as ->.
  { assert (0 <= (line + i) * w) by nia. unfold u32.
    rewrite (Z.mod_small (line + i)) by nia. rewrite (Z.mod_small ((line + i) * w)) by lia.
    rewrite (Z.mod_small (_ * 4)), (Z.mod_small (x * 4)) by lia. rewrite Z.mod_small; lia. }
  destruct (store_pixel_ok ((line + i) * w + x) c l) as (l1 & Hs & Hl1 & Hq); [lia|nia|].
  rewrite Hs. cbn [mbind option_bind].
  destruct (IH (i + 1) l1) as (l2 & Hw & Hl2 & Hq2); [lia|done|lia|by rewrite Hl1|done|].
  exists l2. split_and!; [done|lia|]. intros x' y Hx' Hy. rewrite Hq2 by done.
  rewrite Hq by (pose proof (position_range w h x' y Hx' Hy); lia).
  destruct (Z.eqb_spec (y * w + x') ((line + i) * w + x)) as [E|Hne].
  - apply position_inj in E as [-> ->]; [|done|done].
    rewrite Z.eqb_refl. cbn [andb]. zbool. done.
  - destruct (Z.eqb_spec x' x) as [->|]; [|done]. cbn [andb].
    destruct (Z.eq_dec y (line + i)) as [->|Hy']; [done|].
    assert ((line + (i + 1) <=? y) = (line + i <=? y)) as -> by lia.
    assert (line + (i + 1) + Z.of_nat n = line + i + Z.of_nat (S n)) as -> by lia. done.
Qed.

(** ** One sixel *)

Lemma s32_small z : 0 <= z < 2 ^ 31 -> s32 z = z.
Proof. intros Hz. unfold s32. rewrite Z.mod_small; lia. Qed.

Lemma u32_small z : 0 <= z < 2 ^ 32 -> u32 z = z.
Proof. apply Z.mod_small. Qed.

Section Rendering.
Context (background : RGBAColor) (b : SixelImageBuilder) (p : picture).
Hypothesis Hd : draws background b p.
Hypothesis Hx : p_column p < width (canvas p).

(** The builder with another buffer and size. *)
Definition at_work (l : list Z) (s : ImageSize) : SixelImageBuilder := with_buffer l (with_size s b).

Definition size_fits (s : ImageSize) : Prop :=
  (p_explicit p = true -> s = p_size p) /\
  0 <= width s <= width (p_max p) /\ 0 <= height s <= height (p_max p).

Lemma canvas_bounds : 0 <= width (canvas p) <= width (p_max p) /\ 0 <= height (canvas p) <= height (p_max p) /\
  4 * (width (canvas p) * height (canvas p)) < 2 ^ 31 /\ height (p_max p) < 2 ^ 29.
Proof.
  destruct (dr_geometry _ _ _ Hd) as (Hw & Hh & Ha). destruct (dr_sizes _ _ _ Hd) as [H1 H2].
  unfold area in Ha. unfold canvas. destruct (p_explicit p); split_and!; nia.
Qed.

Lemma stride_at_work l s : size_fits s -> stride (at_work l s) = width (canvas p).
Proof.
  intros [Hs _]. unfold stride, at_work, canvas. cbn. rewrite (dr_explicit _ _ _ Hd).
  destruct (p_explicit p); [by rewrite Hs|by rewrite (dr_max _ _ _ Hd)].
Qed.

(** The size after a pin at row [y]. *)
Definition next_size (y : Z) (s : ImageSize) : ImageSize :=
  if p_explicit p then s else grow (p_column p) y (p_ratio p) s.

Lemma write_ok y c l s :
  size_fits s -> Z.of_nat (length l) = 4 * area (canvas p) ->
  0 <= y < height (p_max p) -> y + p_ratio p <= height (canvas p) ->
  exists l', write y (p_column p) c (at_work l s) = Some (at_work l' (next_size y s)) /\
    size_fits (next_size y s) /\ length l' = length l /\
    forall x' y', 0 <= x' < width (canvas p) -> 0 <= y' < height (canvas p) ->
      quad l' (y' * width (canvas p) + x') =
        if (x' =? p_column p) && (y <=? y') && (y' <? y + p_ratio p) then Some <$> opaque c
        else quad l (y' * width (canvas p) + x').
Proof.
  intros Hs Hl Hy Hfit. destruct canvas_bounds as (Hcw & Hch & Hca & Hmh).
  destruct (dr_geometry _ _ _ Hd) as (Hw & Hh & _). destruct (dr_inside _ _ _ Hd) as [_ Hc].
  pose proof (dr_positive _ _ _ Hd) as Hr. pose proof Hs as (Hse & Hsw & Hsh).
  assert (size_fits (next_size y s)) as Hs'.
  { unfold next_size, size_fits, canvas in *. destruct (p_explicit p); [done|].
    unfold grow. cbn. split_and!; [done|..]; case_match; lia. }
  destruct (write_rows_ok (Z.to_nat (p_ratio p)) 0 y (p_column p) (width (canvas p)) (height (canvas p)) c l)
    as (l' & Hrows & Hlen & Hq); [lia|lia|lia|unfold area in Hl; lia|lia|].
  exists l'. split_and!; [|done|done|].
  - unfold write. rewrite !(dr_max _ _ _ Hd : maxSize (at_work l s) = p_max p).
    rewrite !s32_small by lia. zbool. cbn [andb].
    assert ((if _explicitSize (at_work l s) then at_work l s else _) = at_work l (next_size y s)) as ->.
    { unfold next_size, grow, at_work. destruct s as [sw sh].
      cbn [_explicitSize _size _aspectRatio with_buffer with_size width height] in *.
      rewrite (dr_explicit _ _ _ Hd). destruct (p_explicit p); [done|].
      rewrite (dr_ratio _ _ _ Hd), (s32_small sh), !u32_small by lia.
      destruct (sh <=? y); cbn [_size with_buffer with_size width height];
        rewrite (s32_small sw) by lia; by destruct (sw <=? p_column p). }
    cbn [_aspectRatio at_work with_buffer with_size]. rewrite (dr_ratio _ _ _ Hd).
    rewrite stride_at_work by done. cbn [_buffer at_work with_buffer]. rewrite Hrows. done.
  - intros x' y' Hx' Hy'. rewrite Hq by done. rewrite Z.add_0_r, Z2Nat.id by lia. done.
Qed.

(** Pin [i] colours the position. *)
Definition pin_covers (sixel i x y : Z) : bool :=
  (x =? p_column p) && (pin_drawn p sixel i && (pin_row p i <=? y) && (y <? pin_row p i + p_ratio p)).

Lemma render_pins_ok sixel c n i l s :
  0 <= i -> i + Z.of_nat n <= 6 -> currentColor b = Some c ->
  (forall j, i <= j < i + Z.of_nat n -> pin_fits p sixel j = true) ->
  size_fits s -> Z.of_nat (length l) = 4 * area (canvas p) ->
  exists l' s', render_pins n i sixel (p_column p) (at_work l s) = Some (at_work l' s') /\
    s' = (if p_explicit p then s else
      foldl (fun s i => if pin_drawn p sixel i then grow (p_column p) (pin_row p i) (p_ratio p) s else s) s
        (seqZ i (Z.of_nat n))) /\
    size_fits s' /\ length l' = length l /\
    forall x y, 0 <= x < width (canvas p) -> 0 <= y < height (canvas p) ->
      quad l' (y * width (canvas p) + x) =
        if existsb (fun j => pin_covers sixel j x y) (seqZ i (Z.of_nat n)) then Some <$> opaque c
        else quad l (y * width (canvas p) + x).
Proof.
  revert i l s. induction n as [|n IH]; intros i l s Hi Hn Hc Hfit Hs Hl.
  { exists l, s. split_and!; try done. by destruct (p_explicit p). }
  destruct canvas_bounds as (_ & _ & _ & Hmh). pose proof (dr_positive _ _ _ Hd) as Hr.
  destruct (dr_inside _ _ _ Hd) as [Hline _].
  pose proof (dr_cursor _ _ _ Hd) as [= Hcl Hcc]. pose proof (dr_ratio _ _ _ Hd) as Hra.
  rewrite seqZ_cons by lia. replace (Z.pred (Z.of_nat (S n))) with (Z.of_nat n) by lia.
  rewrite <- Z.add_1_r. cbn [render_pins foldl existsb].
  assert (cursor_line (at_work l s) + s32 (u32 (i * _aspectRatio (at_work l s))) = pin_row p i) as ->.
  { cbn [cursor_line _aspectRatio at_work with_buffer with_size]. unfold pin_row. rewrite Hcl, Hra.
    rewrite u32_small, s32_small; [done|nia..]. }
  assert (0 <= pin_row p i < 2 ^ 31) as Hrow by (unfold pin_row; nia).
  zbool. cbn [andb negb].
  destruct (pin_drawn p sixel i) eqn:Hdr.
  - pose proof Hdr as Hdr'. unfold pin_drawn in Hdr'. apply andb_true_iff in Hdr' as [Ht Hm].
    assert (pin_row p i + p_ratio p <= height (canvas p)) as Hin.
    { specialize (Hfit i ltac:(lia)). unfold pin_fits in Hfit. rewrite Hdr in Hfit. cbn in Hfit. lia. }
    rewrite Ht, (Hc : currentColor (at_work l s) = Some c). cbn [mbind option_bind].
    destruct (write_ok (pin_row p i) c l s Hs Hl ltac:(lia) Hin) as (l1 & Hw & Hs1 & Hl1 & Hq1).
    rewrite Hw. cbn [mbind option_bind].
    destruct (IH (i + 1) l1 (next_size (pin_row p i) s)) as (l2 & s2 & Hp & Es & Hs2 & Hl2 & Hq2);
      [lia|lia|done|intros j Hj; apply Hfit; lia|done|by rewrite Hl1|].
    exists l2, s2. split_and!; [done| |done|lia|].
    { rewrite Es. unfold next_size. by destruct (p_explicit p). }
    intros x y Hx' Hy'. rewrite Hq2, Hq1 by done. unfold pin_covers at 2. rewrite Hdr. cbn [andb].
    rewrite andb_assoc. destruct (existsb _ _); [by rewrite orb_true_r|by rewrite orb_false_r].
  - assert ((if Z.testbit sixel i then c ← currentColor (at_work l s); write (pin_row p i) (p_column p) c (at_work l s)
             else Some (at_work l s)) = Some (at_work l s)) as ->.
    { unfold pin_drawn in Hdr. destruct (Z.testbit sixel i); [|done]. cbn [andb] in Hdr.
      rewrite (Hc : currentColor (at_work l s) = Some c). cbn [mbind option_bind]. unfold write.
      rewrite !(dr_max _ _ _ Hd : maxSize (at_work l s) = p_max p).
      destruct (dr_geometry _ _ _ Hd) as (Hgw & Hgh & _). rewrite s32_small by lia.
      rewrite Hdr. by rewrite andb_false_r. }
    cbn [mbind option_bind].
    destruct (IH (i + 1) l s) as (l2 & s2 & Hp & Es & Hs2 & Hl2 & Hq2);
      [lia|lia|done|intros j Hj; apply Hfit; lia|done|done|].
    exists l2, s2. split_and!; try done.
    intros x y Hx' Hy'. rewrite Hq2 by done. unfold pin_covers at 2. rewrite Hdr. cbn [andb].
    by rewrite andb_false_r.
Qed.

Lemma covered_pins sixel x y :
  existsb (fun j => pin_covers sixel j x y) (seqZ 0 6) = covered p sixel x y.
Proof.
  change (seqZ 0 6) with pins. unfold covered, pin_covers. induction pins as [|i l IH]; cbn.
  - by rewrite andb_false_r.
  - rewrite IH. by destruct (x =? p_column p).
Qed.

End Rendering.

Lemma at_work_self b : at_work b (_buffer b) (_size b) = b.
Proof. by destruct b. Qed.

Lemma render_orderly sixel p p' : p_render sixel p = Some p' -> orderly p' -> orderly p /\
  (p_column p < width (canvas p) -> forallb (pin_fits p sixel) pins = true).
Proof.
  unfold p_render, orderly. destruct (Z.ltb_spec (p_column p) (width (canvas p))); [|intros [= <-]; split; [done|lia]].
  destruct (palette_at _ _); [|done]. intros [= <-] [[Hi Hp]%andb_prop Hs]. done.
Qed.

Lemma render_draws background b p sixel p' : draws background b p -> p_render sixel p = Some p' -> orderly p' ->
  exists b', builder_render sixel b = Some b' /\ draws background b' p'.
Proof.
  intros Hd E Ho. destruct (render_orderly _ _ _ E Ho) as [_ Hfit']. revert E. clear Ho.
  pose proof (canvas_bounds background b p Hd) as (Hcw & Hch & Hca & Hmh).
  destruct (dr_geometry _ _ _ Hd) as (Hgw & Hgh & Hga). pose proof (dr_cursor _ _ _ Hd) as [= Hcl Hcc].
  assert (size_fits p (_size b)) as Hs.
  { rewrite (dr_size _ _ _ Hd). split; [done|]. apply (dr_sizes _ _ _ Hd). }
  assert (stride b = width (canvas p)) as Hst.
  { rewrite <- (at_work_self b). by apply (stride_at_work background). }
  unfold p_render, builder_render. rewrite Hst, s32_small, Hcc by lia.
  destruct (Z.ltb_spec (p_column p) (width (canvas p))) as [Hx|]; [|intros [= <-]; by exists b].
  pose proof (Hfit' Hx) as Hfit. rewrite Hfit, andb_true_r.
  destruct (palette_at (p_current p) (p_colors p)) as [c|] eqn:Hc; [|done].
  cbn [mbind option_bind]. intros [= <-].
  pose proof (dr_colors _ _ _ Hd) as [= Hco Hcu].
  assert (currentColor b = Some c) as Hc' by (unfold currentColor; by rewrite Hco, Hcu).
  destruct (render_pins_ok background b p Hd Hx sixel c 6 0 (_buffer b) (_size b))
    as (l & s & Hp & Es & Hs' & Hl & Hq); [lia|lia|done| |done|apply (dr_length _ _ _ Hd)|].
  { intros j Hj. rewrite forallb_forall in Hfit. apply Hfit. unfold pins. cbn. lia. }
  rewrite at_work_self in Hp. rewrite Hp. cbn [mbind option_bind]. eexists. split; [done|].
  assert (s = grown p sixel) as -> by (by rewrite Es, (dr_size _ _ _ Hd)).
  assert (canvas (mk_picture (p_max p) (grown p sixel) (p_explicit p) (p_ratio p) (p_line p) (p_column p + 1)
        (p_colors p) (p_current p) (fun x y => if covered p sixel x y then Some c else p_paint p x y) true (p_inside p) (p_sized_first p))
     = canvas p) as Ecan.
  { unfold canvas, grown. cbn. by destruct (p_explicit p). }
  split; rewrite ?Ecan; cbn.
  all: try apply Hd; try done.
  - by rewrite Hcl, Hcc.
  - apply Hs'.
  - destruct (dr_inside _ _ _ Hd). lia.
  - rewrite Hl. apply Hd.
  - intros x y Hx' Hy'. etransitivity; [by apply Hq|]. change (Z.of_nat 6) with 6. rewrite covered_pins.
    destruct (covered p sixel x y); [done|]. by apply (dr_pixels _ _ _ Hd).
Qed.

(** ** The other events *)

Lemma newline_draws background b p p' : draws background b p -> p_newline p = Some p' ->
  exists b', builder_newline b = Some b' /\ draws background b' p'.
Proof.
  intros Hd [= <-]. pose proof (canvas_bounds background b p Hd) as (_ & Hch & _ & Hmh).
  pose proof (dr_cursor _ _ _ Hd) as [= Hcl Hcc]. destruct (dr_inside _ _ _ Hd) as [Hl _].
  pose proof (dr_positive _ _ _ Hd) as Hr. unfold builder_newline. cbn [cursor_line with_cursor _sixelBandHeight].
  rewrite Hcl, (dr_band _ _ _ Hd), !u32_small by (rewrite ?u32_small; lia).
  assert (height (if _explicitSize b then _size b else maxSize b) = height (canvas p)) as Eh.
  { unfold canvas. rewrite (dr_explicit _ _ _ Hd), (dr_size _ _ _ Hd), (dr_max _ _ _ Hd). done. }
  cbn [_explicitSize _size maxSize with_cursor]. rewrite Eh. eexists. split; [done|].
  destruct (Z.ltb_spec (p_line p + 6 * p_ratio p) (height (canvas p))); rewrite ?s32_small by lia;
    destruct Hd; split; try done; cbn in *; lia.
Qed.

Lemma rewind_draws background b p : draws background b p ->
  exists b', builder_rewind b = Some b' /\ draws background b' (p_at (p_line p) 0 p).
Proof.
  intros Hd. pose proof (dr_cursor _ _ _ Hd) as [= Hcl Hcc]. eexists. split; [done|].
  destruct Hd; split; try done; cbn in *; [by rewrite Hcl|lia].
Qed.

Lemma length_resize {A} (d : A) n l : 0 <= n -> Z.of_nat (length (resize d n l)) = n.
Proof. intros Hn. unfold resize. len. lia. Qed.

Lemma palette_setColor_size index color p : 0 < size p -> _maxSize p < 2 ^ 32 ->
  0 < size (palette_setColor index color p) /\ _maxSize (palette_setColor index color p) = _maxSize p.
Proof.
  intros Hs Hm. unfold palette_setColor. destruct (Z.ltb_spec index (_maxSize p)); [|done].
  assert (0 < size (if size p <=? index then setSize (u32 (index + 1)) p else p) /\
    _maxSize (if size p <=? index then setSize (u32 (index + 1)) p else p) = _maxSize p) as Hq.
  { destruct (Z.leb_spec (size p) index); [|done]. split; [|done]. unfold setSize, size. cbn.
    rewrite length_resize by lia. rewrite u32_small by lia. lia. }
  destruct (_ <? _); [|done]. unfold size in *. cbn. rewrite length_insert. done.
Qed.

Lemma setColor_draws background b p index color : draws background b p ->
  draws background (with_colors (palette_setColor index color (_colors b)) (_currentColor b) b)
    (p_pen (palette_setColor index color (p_colors p)) (p_current p) p).
Proof.
  intros Hd. pose proof (dr_colors _ _ _ Hd) as [= Hc Hu]. destruct (dr_palette _ _ _ Hd) as [Hs Hm].
  destruct (palette_setColor_size index color (p_colors p) Hs Hm) as [Hs' Hm'].
  destruct Hd; split; try done; cbn; [by rewrite Hc, Hu|]. by rewrite Hm'.
Qed.

Lemma useColor_draws background b p index : draws background b p ->
  exists b', builder_useColor index b = Some b' /\
    draws background b' (p_pen (p_colors p) (index mod size (p_colors p)) p).
Proof.
  intros Hd. pose proof (dr_colors _ _ _ Hd) as [= Hc Hu]. destruct (dr_palette _ _ _ Hd) as [Hs Hm].
  unfold builder_useColor. rewrite Hc. zbool. eexists. split; [done|].
  by destruct Hd; split.
Qed.

(** Before anything was painted the buffer is all background. *)
Lemma unpainted_quad background b p k : draws background b p -> p_painted p = false ->
  0 <= k < area (canvas p) -> quad (_buffer b) k = Some <$> fill_bytes background.
Proof.
  intros Hd Hp Hk. destruct (canvas_bounds _ _ _ Hd) as (Hw & Hh & _).
  unfold area in Hk. set (w := width (canvas p)) in *.
  assert (0 < w) by nia. rewrite (Z.div_mod k w) by lia. rewrite (Z.mul_comm w).
  pose proof (Z.mod_pos_bound k w ltac:(lia)) as Hm.
  rewrite (dr_pixels _ _ _ Hd) by first [done|split; [apply Z.div_pos; lia|apply Z.div_lt_upper_bound; lia]].
  unfold shown. by rewrite (dr_unpainted _ _ _ Hd Hp).
Qed.

Lemma quad_resize k n l : 0 <= k -> 4 * k + 4 <= n -> n <= Z.of_nat (length l) ->
  quad (resize 0 n l) k = quad l k.
Proof.
  intros Hk Hn Hl. unfold quad. apply list_fmap_ext. intros j i Hi.
  assert (i ∈ [0; 1; 2; 3]) as Hin by (by eapply list_elem_of_lookup_2).
  rewrite !elem_of_cons, elem_of_nil in Hin. unfold resize.
  rewrite lookup_app_l by (len; lia). apply lookup_take_lt. lia.
Qed.

Lemma setRaster_draws background b p pan pad s p' : draws background b p ->
  p_setRaster pan pad s p = Some p' -> orderly p' ->
  exists b', builder_setRaster pan pad s b = Some b' /\ draws background b' p'.
Proof.
  intros Hd E Ho. revert E Ho. pose proof (dr_positive _ _ _ Hd) as Hr.
  destruct (dr_geometry _ _ _ Hd) as (Hgw & Hgh & Hga).
  unfold p_setRaster, builder_setRaster. rewrite (dr_ratio _ _ _ Hd).
  assert ((if pad =? 0 then Some (p_ratio p) else r ← ratio_of pan pad; Some (Z.max 1 r)) =
    (if pad =? 0 then Some (p_ratio p) else Z.max 1 <$> ratio_of pan pad)) as ->.
  { destruct (pad =? 0); [done|]. by destruct (ratio_of pan pad). }
  destruct (if pad =? 0 then _ else _) as [ratio|] eqn:Eratio; [|done]. cbn [mbind option_bind].
  assert (1 <= ratio) as Hr1.
  { destruct (pad =? 0); [simplify_eq; lia|]. destruct (ratio_of pan pad); [|done]. cbn in Eratio. simplify_eq. lia. }
  destruct s as [s|].
  2: { intros [= <-] [[_ ?%Z.leb_le]%andb_prop _]. eexists. split; [done|].
       destruct Hd; split; try done. cbn. rewrite u32_small; lia. }
  intros [= <-] [[_ ?%Z.leb_le]%andb_prop Hfirst]. cbn [p_sized_first] in Hfirst.
  destruct (p_painted p) eqn:Hpt; [by rewrite andb_false_r in Hfirst|].
  destruct (p_explicit p) eqn:Hex; [by rewrite andb_false_r in Hfirst|]. eexists. split; [done|]. cbn [with_ratio maxSize]. rewrite (dr_max _ _ _ Hd).
  set (w := Z.max 0 (Z.min (width s) (width (p_max p)))).
  set (h := Z.max 0 (Z.min (u32 (height s * ratio)) (height (p_max p)))).
  assert (0 <= w <= width (p_max p)) by lia.
  assert (0 <= h <= height (p_max p)) by lia.
  assert (0 <= w * h <= area (p_max p)) as Hwha by (unfold area; nia).
  assert (canvas p = p_max p) as Ecan by (unfold canvas; by rewrite Hex).
  pose proof (dr_length _ _ _ Hd) as Hl. rewrite Ecan in Hl.
  split; cbn; try apply Hd; try done.
  - rewrite u32_small; lia.
  - unfold canvas, area. cbn. rewrite length_resize; lia.
  - intros x y Hx Hy. pose proof (unpainted_quad background b p (y * w + x) Hd Hpt) as Hq. rewrite Ecan in Hq.
    unfold canvas in *. cbn [p_explicit p_size width height] in *.
    pose proof (position_range w h x y Hx Hy).
    etransitivity; [apply quad_resize; unfold area; cbn; lia|].
    unfold shown. cbn [p_paint]. rewrite (dr_unpainted _ _ _ Hd Hpt).
    apply Hq. lia.
  - intros _. by apply (dr_unpainted _ _ _ Hd).
Qed.

(** ** Finishing the image *)

Lemma copy_n_ok from n to src dst : (from + n <= length src)%nat -> (to + n <= length dst)%nat ->
  exists dst', copy_n from n to src dst = Some dst' /\ length dst' = length dst /\
    (forall j, (to <= j < to + n)%nat -> dst' !! j = src !! (from + (j - to))%nat) /\
    (forall j, (j < to \/ to + n <= j)%nat -> dst' !! j = dst !! j).
Proof.
  intros Hf Ht. unfold copy_n. nbool. cbn [andb]. eexists. split; [done|]. split; [len; lia|]. split.
  - intros j Hj. rewrite lookup_app_r by (len; lia). rewrite lookup_app_l by (len; lia).
    rewrite lookup_take_lt, lookup_drop by (len; lia). f_equal. len. lia.
  - intros j [Hj|Hj].
    + rewrite lookup_app_l by (len; lia). apply lookup_take_lt. lia.
    + rewrite lookup_app_r, lookup_app_r by (len; lia). rewrite lookup_drop. f_equal. len. lia.
Qed.

Lemma copy_again_ok j from n to src dst : (from + n <= length src)%nat -> (to + n <= length dst)%nat ->
  exists dst', copy_again (S j) from n to src dst = Some dst' /\ length dst' = length dst /\
    (forall j, (to <= j < to + n)%nat -> dst' !! j = src !! (from + (j - to))%nat) /\
    (forall j, (j < to \/ to + n <= j)%nat -> dst' !! j = dst !! j).
Proof.
  intros Hf. revert dst. induction j as [|j IH]; intros dst Ht.
  - destruct (copy_n_ok from n to src dst Hf Ht) as (d & Hc & Hrest). exists d. cbn. by rewrite Hc.
  - destruct (copy_n_ok from n to src dst Hf Ht) as (d & Hc & Hl & Hin & Hout).
    destruct (IH d) as (d' & Hc' & Hl' & Hin' & Hout'); [lia|].
    exists d'. change (copy_again (S (S j)) from n to src dst) with
      (x ← copy_n from n to src dst; copy_again (S j) from n to src x).
    rewrite Hc. cbn [mbind option_bind]. split_and!; [done|lia|done|].
    intros k Hk. rewrite Hout' by done. by apply Hout.
Qed.

Lemma compact_rows_ok rows i w max h src dst :
  (1 <= w <= max)%nat -> (i + rows <= h)%nat -> (h * max * 4 <= length src)%nat -> length dst = (h * w * 4)%nat ->
  exists dst', compact_rows rows i w max src dst = Some dst' /\ length dst' = length dst /\
    (forall x y q, (x < w)%nat -> (q < 4)%nat -> (i <= y < i + rows)%nat ->
       dst' !! ((y * w + x) * 4 + q)%nat = src !! ((y * max + x) * 4 + q)%nat) /\
    (forall j, (j < i * w * 4)%nat -> dst' !! j = dst !! j).
Proof.
  intros Hw. revert i dst. induction rows as [|rows IH]; intros i dst Hi Hs Hd.
  { exists dst. split_and!; try done. intros x y q _ _ Hy. lia. }
  cbn [compact_rows]. destruct w as [|w0]; [lia|]. set (w := S w0) in *.
  destruct (copy_again_ok w0 (i * max * 4) (w * 4) (i * w * 4) src dst) as (d & Hc & Hl & Hin & Hout).
  { transitivity (h * max * 4)%nat; [|done]. nia. }
  { rewrite Hd. nia. }
  fold w in Hc. rewrite Hc. cbn [mbind option_bind].
  destruct (IH (S i) d) as (d' & Hr & Hl' & Hrows & Hold); [lia|done|lia|].
  exists d'. split_and!; [done|lia| |].
  - intros x y q Hx Hq Hy. destruct (decide (y = i)) as [->|Hne].
    + rewrite Hold by nia. rewrite Hin by nia. f_equal. nia.
    + apply Hrows; lia.
  - intros j Hj. rewrite Hold by nia. apply Hout. left. done.
Qed.

(** The finished image: its bytes are those of the picture, row by row. *)
Record image (background : RGBAColor) (b : SixelImageBuilder) (p : picture) : Prop := {
  im_size : _size b = p_size p;
  im_length : Z.of_nat (length (_buffer b)) = 4 * area (p_size p);
  im_pixels : forall x y, 0 <= x < width (p_size p) -> 0 <= y < height (p_size p) ->
    quad (_buffer b) (y * width (p_size p) + x) = shown background p x y
}.

Lemma finalize_image background b p : draws background b p -> height (p_size p) <> 1 ->
  exists b', builder_finalize b = Some b' /\ image background b' p.
Proof.
  intros Hd Hone. unfold builder_finalize. rewrite (dr_size _ _ _ Hd), (dr_explicit _ _ _ Hd).
  rewrite (proj2 (Z.eqb_neq _ _) Hone).
  pose proof (dr_length _ _ _ Hd) as Hl. pose proof (dr_pixels _ _ _ Hd) as Hq. unfold canvas in *.
  destruct (p_explicit p). { exists b. split; [done|]. split; [apply Hd|done|done]. }
  destruct (dr_geometry _ _ _ Hd) as (Hgw & Hgh & Hga). destruct (dr_sizes _ _ _ Hd) as [Hsw Hsh].
  unfold area in *. rewrite u32_small by nia. rewrite (dr_max _ _ _ Hd).
  destruct (Z.eq_dec (width (p_size p)) 0) as [Ew|Hw0].
  - rewrite Ew, Z.mul_0_r. cbn [Z.to_nat Z.mul replicate].
    assert (forall n i src, compact_rows n i 0 (Z.to_nat (width (p_max p))) src [] = Some []) as ->.
    { intros n. induction n as [|n IH]; intros i src; [done|]. cbn. apply IH. }
    cbn [mbind option_bind]. eexists. split; [done|]. split; [apply Hd|cbn; unfold area; lia|lia].
  - destruct (compact_rows_ok (Z.to_nat (height (p_size p))) 0 (Z.to_nat (width (p_size p)))
      (Z.to_nat (width (p_max p))) (Z.to_nat (height (p_size p))) (_buffer b)
      (replicate (Z.to_nat (height (p_size p) * width (p_size p) * 4)) 0)) as (d & Hc & Hld & Hrows & _);
      [lia|lia|nia|len; nia|].
    rewrite Hc. cbn [mbind option_bind]. eexists. split; [done|]. split; [apply Hd|cbn|].
    + rewrite Hld. len. unfold area. nia.
    + intros x y Hx Hy. specialize (Hq x y ltac:(lia) ltac:(lia)). rewrite <- Hq.
      unfold quad. apply list_fmap_ext. intros j i Hi. apply list_elem_of_lookup_2 in Hi.
      rewrite !elem_of_cons, elem_of_nil in Hi. cbn [_buffer with_explicit with_buffer].
      specialize (Hrows (Z.to_nat x) (Z.to_nat y) (Z.to_nat i) ltac:(lia) ltac:(lia) ltac:(lia)).
      replace (Z.to_nat (4 * (y * width (p_size p) + x) + i))
        with ((Z.to_nat y * Z.to_nat (width (p_size p)) + Z.to_nat x) * 4 + Z.to_nat i)%nat by nia.
      rewrite Hrows. f_equal. nia.
Qed.

(** ** From the first byte to the image *)

Lemma lookup_blank n (c : RGBAColor) j : (j < 4 * n)%nat ->
  mjoin (replicate n (fill_bytes c)) !! j = fill_bytes c !! (j mod 4)%nat.
Proof.
  revert j. induction n as [|n IH]; intros j Hj; [lia|]. cbn [replicate mjoin list_join].
  destruct (decide (j < 4)%nat).
  - rewrite lookup_app_l by (unfold fill_bytes; simpl; lia). by rewrite Nat.mod_small.
  - rewrite lookup_app_r by (unfold fill_bytes; simpl; lia). change (length (fill_bytes c)) with 4%nat.
    rewrite IH by lia. f_equal. replace j with ((j - 4) + 1 * 4)%nat at 2 by lia. by rewrite Nat.Div0.mod_add.
Qed.

Lemma quad_blank n c k : 0 <= k < n -> quad (blank_buffer n c) k = Some <$> fill_bytes c.
Proof.
  intros Hk. unfold quad, blank_buffer. cbn [fmap list_fmap].
  assert (forall i, 0 <= i < 4 -> mjoin (replicate (Z.to_nat n) (fill_bytes c)) !! Z.to_nat (4 * k + i) =
    fill_bytes c !! Z.to_nat i) as Hl.
  { intros i Hi. rewrite lookup_blank by lia. f_equal.
    replace (Z.to_nat (4 * k + i)) with (Z.to_nat i + Z.to_nat k * 4)%nat by lia.
    rewrite Nat.Div0.mod_add. apply Nat.mod_small. lia. }
  by rewrite !Hl by lia.
Qed.

Lemma length_blank n c : Z.of_nat (length (blank_buffer (Z.of_nat n) c)) = 4 * Z.of_nat n.
Proof.
  unfold blank_buffer. rewrite Nat2Z.id. induction n as [|n IH]; [done|].
  change (mjoin (replicate (S n) (fill_bytes c))) with (fill_bytes c ++ mjoin (replicate n (fill_bytes c))).
  rewrite length_app. change (length (fill_bytes c)) with 4%nat. lia.
Qed.

Lemma new_builder_draws max ratio background colors b : ratio_of ratio 1 = Some ratio ->
  new_builder max ratio 1 background colors = Some b -> 1 <= ratio <= 2 ^ 28 ->
  1 <= width max < 2 ^ 31 -> 1 <= height max < 2 ^ 31 -> 4 * area max < 2 ^ 31 ->
  0 < size colors -> _maxSize colors < 2 ^ 32 ->
  draws background b (blank_picture max ratio colors).
Proof.
  intros Er. unfold new_builder. rewrite Er. cbn [mbind option_bind]. intros [= <-] Hr Hw Hh Ha Hs Hm.
  assert (0 <= area max) by (unfold area; nia).
  split; cbn; try done; try lia.
  - rewrite u32_small; lia.
  - rewrite <- (Z2Nat.id (area max)) by lia. apply length_blank.
  - intros x y Hx Hy. etransitivity; [apply quad_blank|done]. unfold area.
    pose proof (position_range (width max) (height max) x y Hx Hy). lia.
Qed.

Lemma aspect_ratio pa : ratio_of (aspectVertical pa) 1 = Some (aspectVertical pa) /\ 1 <= aspectVertical pa <= 2 ^ 28.
Proof. unfold aspectVertical. repeat (case_match; [split; [by vm_compute|lia]|]). split; [by vm_compute|lia]. Qed.

(** The palette of a sixel sequence. *)
Definition hook_palette (usePrivateColorRegisters : bool) (maxRegisters : Z) (shared : SixelColorPalette) :=
  if usePrivateColorRegisters then new_palette maxRegisters (Z.max 0 (Z.min maxRegisters 16384)) else shared.

Lemma setRaster_orderly pan pad s p p' : p_setRaster pan pad s p = Some p' -> orderly p' -> orderly p.
Proof.
  unfold p_setRaster, orderly. destruct (if pad =? 0 then _ else _); [|done]. cbn [mbind option_bind].
  destruct s; intros [= <-]; cbn; rewrite ?andb_true_iff; naive_solver.
Qed.

(** The builder follows the picture of an orderly stream, event by event. *)
Lemma parse_all_draws background text b p p' : draws background b p -> parse_all text p = Some p' -> orderly p' ->
  exists b1, draws background b1 p' /\ parse_all text b = finalize b1.
Proof.
  intros Hd Hp Ho. destruct (parse_all_follows (draws background) orderly) with (text := text) (a := b)
    (b := p) (b' := p') as (p1 & [= ->] & Hf); try done; [..|by apply Hf].
  - intros index color q q' [= <-] Hq. split; [done|]. intros a Ha. eexists. split; [done|]. by apply setColor_draws.
  - intros index q q' [= <-] Hq. split; [done|]. intros a Ha. by apply useColor_draws.
  - intros q q' [= <-] Hq. split; [done|]. intros a Ha. by apply rewind_draws.
  - intros q q' E Hq. split; [by injection E as <-|]. intros a Ha. by apply (newline_draws _ _ _ _ Ha).
  - intros pan pad s q q' E Hq. split; [by eapply setRaster_orderly|]. intros a Ha. by apply (setRaster_draws _ _ _ _ _ _ _ Ha).
  - intros sixel q q' E Hq. split; [by eapply render_orderly|]. intros a Ha. by apply (render_draws _ _ _ _ _ Ha).
Qed.



(** An aspect ratio from the stream that is larger than the image: the first
    pixel is written past the end of the buffer. *)
Example raster_overflow :
  (b ← hookSixel 9 0 (mk_size 4 8) 0 true 16 (new_palette 0 0); Some (parse_all (0x22 :: bytes "20;1@") b)) =
  Some None.
Proof. vm_compute. reflexivity. Qed.

(** The default aspect ratio of two and an odd image height. *)
Example default_ratio_overflow :
  (b ← hookSixel 1 0 (mk_size 4 7) 0 true 16 (new_palette 0 0); Some (parse_all (bytes "~") b)) = Some None.
Proof. vm_compute. reflexivity. Qed.

(** An image height given by the stream that the last band exceeds. *)
Example explicit_size_overflow :
  (b ← hookSixel 9 0 (mk_size 8 12) 0 true 16 (new_palette 0 0);
   Some (parse_all (0x22 :: bytes "1;1;2;4~") b)) = Some None.
Proof. vm_compute. reflexivity. Qed.

(** An image of one row of pixels comes out empty. *)
Example one_row_lost :
  (b ← hookSixel 9 0 (mk_size 4 8) 0 true 16 (new_palette 0 0); b ← parse_all (bytes "@@") b; Some (_size b, _buffer b)) =
  Some (mk_size 2 0, []).
Proof. vm_compute. reflexivity. Qed.

(** The saturation of an HLS colour has no effect: grey comes out red. *)
Example saturation_ignored : color_of 1 120 50 0 = color_of 1 120 50 100 /\ color_of 1 120 50 0 = Some (mkRGB 191 63 63).
Proof. vm_compute. done. Qed.

(** A lightness above 100 percent is a conversion out of range. *)
Example lightness_out_of_range : color_of 1 120 200 0 = None.
Proof. vm_compute. reflexivity. Qed.

(** A size set after painting changes the width of the rows but moves no
    pixel: the second column, painted red from top to bottom, comes out
    scattered. *)
Example late_size_scatters :
  (b ← hookSixel 9 1 (mk_size 4 6) 0 true 16 (new_palette 0 0);
   b ← parse_all (bytes "#2?~" ++ 0x22 :: bytes "1;1;2;6") b;
   Some (_size b, (fun k => bool_decide (quad (_buffer b) k = Some <$> [0; 0; 0; 0])) <$> [1; 3; 5; 7; 9; 11])) =
  Some (mk_size 2 6, [false; true; false; true; false; true]).
Proof. vm_compute. reflexivity. Qed.
