(* ===== verification/Input.v ===== *)
(** * Keyboard and mouse input (src/vtbackend/InputGenerator.h,
      InputGenerator.cpp)

    Key, mouse and paste events become the byte sequences an application
    reads.  The keyboard generator is the extended (CSI u) one, with the
    standard generator it derives from; [InputGenerator] adds mouse reports,
    pastes and the queue of bytes that were not yet sent. *)
From Stdlib Require Import String.
From stdpp Require Import list.
From S2P Require Import Prelude Color Text Cell.
Import Flags.

(** ** Keys *)

Module Modifier.
Definition None_ : flags := 0.
Definition Shift : flags := 1.
Definition Alt : flags := 2.
Definition Control : flags := 4.
Definition Super : flags := 8.
Definition Hyper : flags := 16.
Definition Meta : flags := 32.
Definition CapsLock : flags := 64.
Definition NumLock : flags := 128.
End Modifier.

Abbreviation Modifiers := flags.

Definition makeVirtualTerminalParam (modifier : Modifiers) : Z := 1 + modifier.

Module Key.
Inductive t :=
  | F1 | F2 | F3 | F4 | F5 | F6 | F7 | F8 | F9 | F10 | F11 | F12 | F13 | F14 | F15 | F16 | F17 | F18 | F19 | F20
  | F21 | F22 | F23 | F24 | F25 | F26 | F27 | F28 | F29 | F30 | F31 | F32 | F33 | F34 | F35
  | Escape | Enter | Tab | Backspace
  | DownArrow | LeftArrow | RightArrow | UpArrow
  | Insert | Delete | Home | End_ | PageUp | PageDown
  | MediaPlay | MediaStop | MediaPrevious | MediaNext | MediaPause | MediaTogglePlayPause
  | VolumeUp | VolumeDown | VolumeMute
  | LeftShift | RightShift | LeftControl | RightControl | LeftAlt | RightAlt | LeftSuper | RightSuper
  | LeftHyper | RightHyper | LeftMeta | RightMeta | IsoLevel3Shift | IsoLevel5Shift
  | CapsLock | ScrollLock | NumLock | PrintScreen | Pause | Menu
  | Numpad_Divide | Numpad_Multiply | Numpad_Subtract | Numpad_Add | Numpad_Decimal | Numpad_Enter | Numpad_Equal
  | Numpad_0 | Numpad_1 | Numpad_2 | Numpad_3 | Numpad_4 | Numpad_5 | Numpad_6 | Numpad_7 | Numpad_8 | Numpad_9.
#[global] Instance t_eq_dec : EqDecision t.
Proof. solve_decision. Defined.
End Key.

Inductive KeyMode := NormalKeys | ApplicationKeys.
#[export] Instance KeyMode_eq_dec : EqDecision KeyMode.
Proof. solve_decision. Defined.

Module KeyboardEventType.
Inductive t := Press | Repeat | Release.
#[global] Instance t_eq_dec : EqDecision t.
Proof. solve_decision. Defined.
End KeyboardEventType.

Module KeyboardEventFlag.
Definition None_ : flags := 0.
Definition DisambiguateEscapeCodes : flags := 1.
Definition ReportEventTypes : flags := 2.
Definition ReportAlternateKeys : flags := 4.
Definition ReportAllKeysAsEscapeCodes : flags := 8.
Definition ReportAssociatedText : flags := 16.
End KeyboardEventFlag.
Import KeyboardEventFlag.

(** The state of the extended generator, with that of its base class. *)
Record keyboard := mk_keyboard {
  _cursorKeysMode : KeyMode;
  _numpadKeysMode : KeyMode;
  k_pending : list Z;
  _flags : list flags;
  _currentStackTop : nat
}.

Definition MaxStackDepth : nat := 32.
Definition new_keyboard : keyboard := mk_keyboard NormalKeys NormalKeys [] (replicate MaxStackDepth 0) 0.

Definition applicationCursorKeys (k : keyboard) : bool := bool_decide (_cursorKeysMode k <> NormalKeys).
Definition applicationKeypad (k : keyboard) : bool := bool_decide (_numpadKeysMode k <> NormalKeys).

Definition k_append (s : list Z) (k : keyboard) : keyboard :=
  mk_keyboard (_cursorKeysMode k) (_numpadKeysMode k) (k_pending k ++ s) (_flags k) (_currentStackTop k).
Definition take_pending (k : keyboard) : list Z * keyboard :=
  (k_pending k, mk_keyboard (_cursorKeysMode k) (_numpadKeysMode k) [] (_flags k) (_currentStackTop k)).
Definition k_setCursorKeysMode (mode : KeyMode) (k : keyboard) : keyboard :=
  mk_keyboard mode (_numpadKeysMode k) (k_pending k) (_flags k) (_currentStackTop k).
Definition k_setNumpadKeysMode (mode : KeyMode) (k : keyboard) : keyboard :=
  mk_keyboard (_cursorKeysMode k) mode (k_pending k) (_flags k) (_currentStackTop k).
Definition k_setApplicationKeypadMode (enable : bool) (k : keyboard) : keyboard :=
  k_setNumpadKeysMode (if enable then ApplicationKeys else NormalKeys) k.
Definition with_stack (f : list flags) (top : nat) (k : keyboard) : keyboard :=
  mk_keyboard (_cursorKeysMode k) (_numpadKeysMode k) (k_pending k) f top.

(** *** The stack of flags *)

Definition stackDepth (k : keyboard) : nat := 1 + _currentStackTop k.
Definition top_flags (k : keyboard) : flags := default 0 (_flags k !! _currentStackTop k).

Definition enter (f : flags) (k : keyboard) : keyboard :=
  if (stackDepth k <? MaxStackDepth)%nat
  then with_stack (<[S (_currentStackTop k) := f]> (_flags k)) (S (_currentStackTop k)) k else k.
Definition leave (n : nat) (k : keyboard) : keyboard :=
  with_stack (_flags k) (_currentStackTop k - Nat.min n (_currentStackTop k)) k.
Definition set_flags (f : flags) (k : keyboard) : keyboard :=
  with_stack (<[_currentStackTop k := f]> (_flags k)) (_currentStackTop k) k.

(** [ExtendedKeyboardInputGenerator::reset], which hides that of the base. *)
Definition k_reset (k : keyboard) : keyboard := with_stack (<[0%nat := 0]> (_flags k)) 0 k.

Definition enabled (flag : flags) (k : keyboard) : bool := contains (top_flags k) flag.
Definition event_enabled (eventType : KeyboardEventType.t) (k : keyboard) : bool :=
  negb (bool_decide (eventType = KeyboardEventType.Release)) || enabled ReportEventTypes k.

(** ** The standard generator *)

Definition CSI (s : string) : list Z := 0x1B :: bytes "[" ++ bytes s.
Definition SS3 (s : string) : list Z := 0x1B :: bytes "O" ++ bytes s.

(** [crispy::replace] *)
Definition replace (text pattern value : list Z) : list Z :=
  match find_text pattern text with
  | None => text
  | Some i => take i text ++ value ++ drop (i + length pattern) text
  end.

Section Generator.
(** [unicode::convert_to<char>] of libunicode: a code point in UTF-8. *)
Variable convert_to : Z -> list Z.

Definition generateChar_standard (characterEvent : Z) (modifiers : Modifiers)
    (eventType : KeyboardEventType.t) (k : keyboard) : bool * keyboard :=
  if decide (eventType = KeyboardEventType.Release) then (false, k) else
  let k := if modifiers =? Modifier.Alt then k_append [0x1B] k else k in
  if characterEvent =? 0x08 then
    (true, k_append (if negb (contains modifiers Modifier.Control) then [0x7F] else [0x08]) k)
  else if (modifiers =? Modifier.Shift) && (characterEvent =? 0x09) then (true, k_append (CSI "Z") k)
  else if (modifiers =? Modifier.Control) && (characterEvent <? 32) then (true, k_append [characterEvent] k)
  else
    let control :=
      if without modifiers Modifier.Shift =? Modifier.Control then
        let c := characterEvent in
        if (c =? 0x20) || (c =? 0x32) then Some 0
        else if (0x41 <=? c) && (c <=? 0x5A) then Some (c - 0x41 + 1)
        else if (c =? 0x33) || (c =? 0x5B) then Some 0x1B
        else if (c =? 0x34) || (c =? 0x5C) then Some 0x1C
        else if (c =? 0x35) || (c =? 0x5D) then Some 0x1D
        else if (c =? 0x36) || (c =? 0x7E) || (c =? 0x5E) then Some 0x1E
        else if (c =? 0x37) || (c =? 0x3F) || (c =? 0x5F) then Some 0x1F
        else if c =? 0x38 then Some 0x7F
        else if c =? 0x09 then Some 0x09
        else None
      else None in
    match control with
    | Some byte => (true, k_append [byte] k)
    | None =>
        if none (without modifiers Modifier.Alt) || (modifiers =? Modifier.Shift)
        then (true, k_append (convert_to characterEvent) k)
        else if characterEvent <? 0x7F then (true, k_append [characterEvent] k)
        else (true, k_append (convert_to characterEvent) k)
    end.

Record FunctionKeyMapping := mk_mapping {
  m_std : list Z; m_mods : list Z; m_appCursor : list Z; m_appKeypad : list Z
}.

Definition select (modifiers : Modifiers) (mapping : FunctionKeyMapping) (k : keyboard) : list Z :=
  if any modifiers && negb (bool_decide (m_mods mapping = [])) then
    replace (m_mods mapping) (bytes "{}") (to_string (makeVirtualTerminalParam modifiers))
  else
    let prefix := if contains modifiers Modifier.Alt then [0x1B] else [] in
    if applicationCursorKeys k && negb (bool_decide (m_appCursor mapping = [])) then prefix ++ m_appCursor mapping
    else if applicationKeypad k && negb (bool_decide (m_appKeypad mapping = [])) then prefix ++ m_appKeypad mapping
    else prefix ++ m_std mapping.

Definition plain (std : list Z) : FunctionKeyMapping := mk_mapping std [] [] [].
(** [CSI n ~], with the modifiers as second parameter. *)
Definition tilde (n : string) : FunctionKeyMapping := mk_mapping (CSI (n ++ "~")) (CSI (n ++ ";{}~")) [] [].
Definition ss3_key (c : string) : FunctionKeyMapping := mk_mapping (SS3 c) (SS3 ("{}" ++ c)) [] [].
Definition cursor_key (c : string) : FunctionKeyMapping :=
  mk_mapping (CSI c) (CSI ("1;{}" ++ c)) (SS3 c) [].
Definition numpad (std : string) (app : list Z) : FunctionKeyMapping := mk_mapping (bytes std) [] [] app.

(** What a key sends: through [select], as it is, as a character, or nothing. *)
Inductive key_action :=
  | Mapped (m : FunctionKeyMapping)
  | Direct (s : list Z)
  | AsChar (c : Z)
  | Unsupported.

Definition key_mapping (key : Key.t) (modifiers : Modifiers) : key_action :=
  match key with
  | Key.F1 => Mapped (ss3_key "P") | Key.F2 => Mapped (ss3_key "Q")
  | Key.F3 => Mapped (ss3_key "R") | Key.F4 => Mapped (ss3_key "S")
  | Key.F5 => Mapped (tilde "15") | Key.F6 => Mapped (tilde "17") | Key.F7 => Mapped (tilde "18")
  | Key.F8 => Mapped (tilde "19") | Key.F9 => Mapped (tilde "20") | Key.F10 => Mapped (tilde "21")
  | Key.F11 => Mapped (tilde "23") | Key.F12 => Mapped (tilde "24") | Key.F13 => Mapped (tilde "25")
  | Key.F14 => Mapped (tilde "26") | Key.F15 => Mapped (tilde "28") | Key.F16 => Mapped (tilde "29")
  | Key.F17 => Mapped (tilde "31") | Key.F18 => Mapped (tilde "32") | Key.F19 => Mapped (tilde "33")
  | Key.F20 => Mapped (tilde "34") | Key.F21 => Mapped (tilde "35") | Key.F22 => Mapped (tilde "36")
  | Key.F23 => Mapped (tilde "37") | Key.F24 => Mapped (tilde "38") | Key.F25 => Mapped (tilde "39")
  | Key.F26 => Mapped (tilde "40") | Key.F27 => Mapped (tilde "41") | Key.F28 => Mapped (tilde "42")
  | Key.F29 => Mapped (tilde "43") | Key.F30 => Mapped (tilde "44") | Key.F31 => Mapped (tilde "45")
  | Key.F32 => Mapped (tilde "46") | Key.F33 => Mapped (tilde "47") | Key.F34 => Mapped (tilde "48")
  | Key.F35 => Mapped (tilde "49")
  | Key.Escape => Direct [0x1B]
  | Key.Enter => Mapped (plain [0x0D])
  | Key.Tab => AsChar 0x09
  | Key.Backspace => Mapped (plain (if any (both modifiers Modifier.Control) then [0x08] else [0x7F]))
  | Key.UpArrow => Mapped (cursor_key "A") | Key.DownArrow => Mapped (cursor_key "B")
  | Key.RightArrow => Mapped (cursor_key "C") | Key.LeftArrow => Mapped (cursor_key "D")
  | Key.Home => Mapped (cursor_key "H") | Key.End_ => Mapped (cursor_key "F")
  | Key.PageUp => Mapped (mk_mapping (CSI "5~") (CSI "5;{}~") [] (CSI "5~"))
  | Key.PageDown => Mapped (mk_mapping (CSI "6~") (CSI "6;{}~") [] (CSI "6~"))
  | Key.Insert => Mapped (tilde "2") | Key.Delete => Mapped (tilde "3")
  | Key.Numpad_Enter => Mapped (mk_mapping [0x0D] [] [] (SS3 "M"))
  | Key.Numpad_Multiply => Mapped (numpad "*" (SS3 "j"))
  | Key.Numpad_Add => Mapped (numpad "+" (SS3 "k"))
  | Key.Numpad_Subtract => Mapped (numpad "-" (SS3 "m"))
  | Key.Numpad_Decimal => Mapped (numpad "." (CSI "3~"))
  | Key.Numpad_Divide => Mapped (numpad "/" (SS3 "o"))
  | Key.Numpad_0 => Mapped (numpad "0" (CSI "2~"))
  | Key.Numpad_1 => Mapped (numpad "1" (SS3 "F"))
  | Key.Numpad_2 => Mapped (numpad "2" (CSI "B"))
  | Key.Numpad_3 => Mapped (numpad "3" (CSI "6~"))
  | Key.Numpad_4 => Mapped (numpad "4" (CSI "D"))
  | Key.Numpad_5 => Mapped (numpad "5" (CSI "E"))
  | Key.Numpad_6 => Mapped (numpad "6" (CSI "C"))
  | Key.Numpad_7 => Mapped (numpad "7" (SS3 "H"))
  | Key.Numpad_8 => Mapped (numpad "8" (CSI "A"))
  | Key.Numpad_9 => Mapped (numpad "9" (CSI "5~"))
  | Key.Numpad_Equal => Mapped (numpad "=" (SS3 "X"))
  | Key.MediaPlay | Key.MediaStop | Key.MediaPrevious | Key.MediaNext | Key.MediaPause
  | Key.MediaTogglePlayPause | Key.VolumeUp | Key.VolumeDown | Key.VolumeMute | Key.LeftShift | Key.RightShift
  | Key.LeftControl | Key.RightControl | Key.LeftAlt | Key.RightAlt | Key.LeftSuper | Key.RightSuper
  | Key.LeftHyper | Key.RightHyper | Key.LeftMeta | Key.RightMeta | Key.IsoLevel3Shift | Key.IsoLevel5Shift
  | Key.CapsLock | Key.ScrollLock | Key.NumLock | Key.PrintScreen | Key.Pause | Key.Menu => Unsupported
  end.

Definition generateKey_standard (key : Key.t) (modifiers : Modifiers) (eventType : KeyboardEventType.t)
    (k : keyboard) : bool * keyboard :=
  if decide (eventType = KeyboardEventType.Release) then (false, k) else
  match key_mapping key modifiers with
  | Mapped m => (true, k_append (select modifiers m k) k)
  | Direct s => (true, k_append s k)
  | AsChar c => (true, (generateChar_standard c modifiers eventType k).2)
  | Unsupported => (false, k)
  end.

(** ** The extended generator *)

Definition encodeEventType (eventType : KeyboardEventType.t) : Z :=
  match eventType with
  | KeyboardEventType.Press => 1 | KeyboardEventType.Repeat => 2 | KeyboardEventType.Release => 3
  end.

Definition encodeModifiers (modifiers : Modifiers) (eventType : KeyboardEventType.t) (k : keyboard) : list Z :=
  if enabled ReportEventTypes k then to_string modifiers ++ 0x3A :: to_string (encodeEventType eventType)
  else if negb (modifiers =? 0) then to_string (1 + modifiers)
  else [].

(** [std::tolower] and [std::toupper] of a [char] below 0x80. *)
Definition tolower (c : Z) : Z := if (0x41 <=? c) && (c <=? 0x5A) then c + 0x20 else c.
Definition toupper (c : Z) : Z := if (0x61 <=? c) && (c <=? 0x7A) then c - 0x20 else c.

Definition encodeCharacter (ch physicalKey : Z) (modifiers : Modifiers) (k : keyboard) : list Z :=
  let result := if ch <? 0x80 then to_string (tolower ch) else [] in
  if enabled ReportAlternateKeys k then
    let shiftedKey :=
      if any (both modifiers Modifier.Shift) && ((0x20 <=? ch) && (ch <? 0x80)) then toupper ch else 0 in
    let showPhysicalKey :=
      negb (physicalKey =? 0) && negb (physicalKey =? ch) && negb (physicalKey =? shiftedKey) in
    let result := if negb (shiftedKey =? 0) || showPhysicalKey then result ++ [0x3A] else result in
    let result := if negb (shiftedKey =? 0) then result ++ to_string shiftedKey else result in
    if showPhysicalKey then result ++ 0x3A :: to_string physicalKey else result
  else result.

Definition generateChar (characterEvent physicalKey : Z) (modifiers : Modifiers)
    (eventType : KeyboardEventType.t) (k : keyboard) : bool * keyboard :=
  if event_enabled eventType k
     && (enabled DisambiguateEscapeCodes k
         && (any (without modifiers Modifier.Shift) || enabled ReportAllKeysAsEscapeCodes k))
  then (true, k_append (0x1B :: 0x5B :: encodeCharacter characterEvent physicalKey modifiers k ++
                          0x3B :: encodeModifiers modifiers eventType k ++ [0x75]) k)
  else generateChar_standard characterEvent modifiers eventType k.

Definition mapKey (key : Key.t) : Z * Z :=
  let u := 0x75 in
  let tilde := 0x7E in
  match key with
  | Key.Escape => (27, u) | Key.Enter => (13, u) | Key.Tab => (9, u) | Key.Backspace => (127, u)
  | Key.Insert => (2, tilde) | Key.Delete => (3, tilde)
  | Key.LeftArrow => (1, 0x44) | Key.RightArrow => (1, 0x43) | Key.UpArrow => (1, 0x41) | Key.DownArrow => (1, 0x42)
  | Key.PageUp => (5, tilde) | Key.PageDown => (6, tilde) | Key.Home => (7, tilde) | Key.End_ => (8, tilde)
  | Key.CapsLock => (57358, u) | Key.ScrollLock => (57359, u) | Key.NumLock => (57360, u)
  | Key.PrintScreen => (57361, u) | Key.Pause => (57362, u) | Key.Menu => (57363, u)
  | Key.F1 => (11, tilde) | Key.F2 => (12, tilde) | Key.F3 => (13, tilde) | Key.F4 => (14, tilde)
  | Key.F5 => (15, tilde) | Key.F6 => (17, tilde) | Key.F7 => (18, tilde) | Key.F8 => (19, tilde)
  | Key.F9 => (20, tilde) | Key.F10 => (21, tilde) | Key.F11 => (23, tilde) | Key.F12 => (24, tilde)
  | Key.F13 => (57376, u) | Key.F14 => (57377, u) | Key.F15 => (57378, u) | Key.F16 => (57379, u)
  | Key.F17 => (57380, u) | Key.F18 => (57381, u) | Key.F19 => (57382, u) | Key.F20 => (57383, u)
  | Key.F21 => (57384, u) | Key.F22 => (57385, u) | Key.F23 => (57386, u) | Key.F24 => (57387, u)
  | Key.F25 => (57388, u) | Key.F26 => (57389, u) | Key.F27 => (57390, u) | Key.F28 => (57391, u)
  | Key.F29 => (57392, u) | Key.F30 => (57393, u) | Key.F31 => (57394, u) | Key.F32 => (57395, u)
  | Key.F33 => (57396, u) | Key.F34 => (57397, u) | Key.F35 => (57398, u)
  | Key.MediaPlay => (57428, u) | Key.MediaPause => (57429, u) | Key.MediaTogglePlayPause => (57430, u)
  | Key.MediaStop => (57432, u) | Key.MediaNext => (57435, u) | Key.MediaPrevious => (57436, u)
  | Key.VolumeDown => (57438, u) | Key.VolumeUp => (57439, u) | Key.VolumeMute => (57440, u)
  | Key.LeftShift => (57441, u) | Key.LeftControl => (57442, u) | Key.LeftAlt => (57443, u)
  | Key.LeftSuper => (57444, u) | Key.LeftHyper => (57445, u) | Key.LeftMeta => (57446, u)
  | Key.RightShift => (57447, u) | Key.RightControl => (57448, u) | Key.RightAlt => (57449, u)
  | Key.RightSuper => (57450, u) | Key.RightHyper => (57451, u) | Key.RightMeta => (57452, u)
  | Key.IsoLevel3Shift => (57453, u) | Key.IsoLevel5Shift => (57454, u)
  | Key.Numpad_0 => (57399, u) | Key.Numpad_1 => (57400, u) | Key.Numpad_2 => (57401, u)
  | Key.Numpad_3 => (57402, u) | Key.Numpad_4 => (57403, u) | Key.Numpad_5 => (57404, u)
  | Key.Numpad_6 => (57405, u) | Key.Numpad_7 => (57406, u) | Key.Numpad_8 => (57407, u)
  | Key.Numpad_9 => (57408, u) | Key.Numpad_Decimal => (57409, u) | Key.Numpad_Divide => (57410, u)
  | Key.Numpad_Multiply => (57411, u) | Key.Numpad_Subtract => (57412, u) | Key.Numpad_Add => (57413, u)
  | Key.Numpad_Enter => (57414, u) | Key.Numpad_Equal => (57415, u)
  end.

Definition isModifierKey (key : Key.t) : bool :=
  match key with
  | Key.LeftShift | Key.LeftControl | Key.LeftAlt | Key.LeftSuper | Key.LeftHyper | Key.LeftMeta
  | Key.RightShift | Key.RightControl | Key.RightAlt | Key.RightSuper | Key.RightHyper | Key.RightMeta
  | Key.IsoLevel3Shift | Key.IsoLevel5Shift | Key.CapsLock | Key.NumLock => true
  | _ => false
  end.

Definition generateKey (key : Key.t) (modifiers : Modifiers) (eventType : KeyboardEventType.t) (k : keyboard) :
    bool * keyboard :=
  if negb (event_enabled eventType k) then (false, k)
  else if negb (enabled DisambiguateEscapeCodes k) then generateKey_standard key modifiers eventType k
  else if none modifiers && negb (enabled ReportAllKeysAsEscapeCodes k)
          && bool_decide (key ∈ [Key.Enter; Key.Tab; Key.Backspace])
  then generateKey_standard key modifiers eventType k
  else if isModifierKey key && negb (enabled ReportAllKeysAsEscapeCodes k) then (false, k)
  else
    let '(code, function) := mapKey key in
    let encodedModifiers := encodeModifiers modifiers eventType k in
    let controlSequence := 0x1B :: 0x5B :: to_string code in
    let controlSequence :=
      if decide (encodedModifiers = []) then controlSequence else controlSequence ++ 0x3B :: encodedModifiers in
    (true, k_append (controlSequence ++ [function]) k).

(** ** The mouse *)

Inductive MouseProtocol := X10 | NormalTracking | HighlightTracking | ButtonTracking | AnyEventTracking.
#[global] Instance MouseProtocol_eq_dec : EqDecision MouseProtocol.
Proof. solve_decision. Defined.

Inductive MouseTransport := DefaultTransport | Extended | SGR | SGRPixels | URXVT.
#[global] Instance MouseTransport_eq_dec : EqDecision MouseTransport.
Proof. solve_decision. Defined.

Inductive MouseWheelMode := DefaultWheel | NormalCursorKeys | ApplicationCursorKeys.

(** In the order of the enumeration, which is that of the set of pressed
    buttons. *)
Inductive MouseButton := Left | Right | Middle | NoButton | WheelUp | WheelDown | WheelLeft | WheelRight.
#[global] Instance MouseButton_eq_dec : EqDecision MouseButton.
Proof. solve_decision. Defined.
Definition button_rank (b : MouseButton) : Z :=
  match b with
  | Left => 0 | Right => 1 | Middle => 2 | NoButton => 3
  | WheelUp => 4 | WheelDown => 5 | WheelLeft => 6 | WheelRight => 7
  end.

Inductive MouseEventType := Press | Drag | Release.
#[global] Instance MouseEventType_eq_dec : EqDecision MouseEventType.
Proof. solve_decision. Defined.

(** [std::set<MouseButton>]: a list without duplicates, in order. *)
Fixpoint set_insert (b : MouseButton) (s : list MouseButton) : list MouseButton :=
  match s with
  | [] => [b]
  | c :: s' => if button_rank b <? button_rank c then b :: s
               else if decide (b = c) then s else c :: set_insert b s'
  end.
Definition set_erase (b : MouseButton) (s : list MouseButton) : list MouseButton := filter (fun c => c <> b) s.

Definition modifierBits (modifiers : Modifiers) : Z :=
  let mods := 0 in
  let mods := if contains modifiers Modifier.Shift then Z.lor mods 4 else mods in
  let mods := if contains modifiers Modifier.Super then Z.lor mods 8 else mods in
  if contains modifiers Modifier.Control then Z.lor mods 16 else mods.

Definition buttonNumber (button : MouseButton) : Z :=
  match button with
  | Left => 0 | Middle => 1 | Right => 2 | NoButton => 3
  | WheelUp => 4 | WheelDown => 5 | WheelRight => 6 | WheelLeft => 7
  end.

Definition isMouseWheel (button : MouseButton) : bool :=
  match button with WheelUp | WheelDown | WheelLeft | WheelRight => true | _ => false end.

Definition buttonX10 (button : MouseButton) : Z :=
  if isMouseWheel button then u8 (buttonNumber button + 0x3C) else buttonNumber button.

Definition buttonNormal (button : MouseButton) (eventType : MouseEventType) : Z :=
  if decide (eventType = Release) then 3 else buttonX10 button.

Record InputGenerator := mk_input {
  _bracketedPaste : bool;
  _generateFocusEvents : bool;
  _mouseProtocol : option MouseProtocol;
  _passiveMouseTracking : bool;
  _mouseTransport : MouseTransport;
  _mouseWheelMode : MouseWheelMode;
  _pendingSequence : list Z;
  _consumedBytes : Z;
  _currentlyPressedMouseButtons : list MouseButton;
  _currentMousePosition : CellLocation;
  _keyboard : keyboard
}.

Definition new_input : InputGenerator :=
  mk_input false false None false DefaultTransport DefaultWheel [] 0 [] (mkLoc 0 0) new_keyboard.

Definition append (s : list Z) (g : InputGenerator) : InputGenerator :=
  mk_input (_bracketedPaste g) (_generateFocusEvents g) (_mouseProtocol g) (_passiveMouseTracking g)
    (_mouseTransport g) (_mouseWheelMode g) (_pendingSequence g ++ s) (_consumedBytes g)
    (_currentlyPressedMouseButtons g) (_currentMousePosition g) (_keyboard g).
Definition with_keyboard (k : keyboard) (g : InputGenerator) : InputGenerator :=
  mk_input (_bracketedPaste g) (_generateFocusEvents g) (_mouseProtocol g) (_passiveMouseTracking g)
    (_mouseTransport g) (_mouseWheelMode g) (_pendingSequence g) (_consumedBytes g)
    (_currentlyPressedMouseButtons g) (_currentMousePosition g) k.
Definition with_mouse (buttons : list MouseButton) (pos : CellLocation) (g : InputGenerator) : InputGenerator :=
  mk_input (_bracketedPaste g) (_generateFocusEvents g) (_mouseProtocol g) (_passiveMouseTracking g)
    (_mouseTransport g) (_mouseWheelMode g) (_pendingSequence g) (_consumedBytes g)
    buttons pos (_keyboard g).
Definition with_queue (s : list Z) (n : Z) (g : InputGenerator) : InputGenerator :=
  mk_input (_bracketedPaste g) (_generateFocusEvents g) (_mouseProtocol g) (_passiveMouseTracking g)
    (_mouseTransport g) (_mouseWheelMode g) s n
    (_currentlyPressedMouseButtons g) (_currentMousePosition g) (_keyboard g).
Definition with_modes (paste focus : bool) (protocol : option MouseProtocol) (passive : bool)
    (transport : MouseTransport) (wheel : MouseWheelMode) (g : InputGenerator) : InputGenerator :=
  mk_input paste focus protocol passive transport wheel (_pendingSequence g) (_consumedBytes g)
    (_currentlyPressedMouseButtons g) (_currentMousePosition g) (_keyboard g).

(** *** Transports *)

Definition mouseTransportExtended (button modifier : Z) (pos : CellLocation) (g : InputGenerator) :
    bool * InputGenerator :=
  if (line pos <? 2015) && (column pos <? 2015) then
    let buttonValue := u8 (0x20 + u8 (Z.lor button modifier)) in
    (true, append (CSI "M" ++ [buttonValue] ++ convert_to (0x20 + column pos + 1) ++ convert_to (0x20 + line pos + 1)) g)
  else (false, g).

Definition mouseTransportX10 (button modifier : Z) (pos : CellLocation) (g : InputGenerator) :
    bool * InputGenerator :=
  if (line pos <? 255 - 0x20) && (column pos <? 255 - 0x20) then
    let buttonValue := u8 (0x20 + u8 (Z.lor button modifier)) in
    (true, append (CSI "M" ++ [buttonValue; u8 (0x20 + column pos + 1); u8 (0x20 + line pos + 1)]) g)
  else (false, g).

(** [append(unsigned)] prints the number. *)
Definition mouseTransportSGR (eventType : MouseEventType) (button modifier x y : Z) (uiHandled : bool)
    (g : InputGenerator) : bool * InputGenerator :=
  (true, append (CSI "<" ++ to_string (Z.lor button modifier) ++ 0x3B :: to_string (u32 x) ++ 0x3B :: to_string (u32 y) ++
     (if _passiveMouseTracking g then [0x3B; if uiHandled then 0x31 else 0x30] else []) ++
     [if decide (eventType <> Release) then 0x4D else 0x6D]) g).

Definition mouseTransportURXVT (eventType : MouseEventType) (button modifier : Z) (pos : CellLocation)
    (g : InputGenerator) : bool * InputGenerator :=
  (true, if decide (eventType = Press) then
           append (CSI "" ++ to_string (Z.lor button modifier) ++ 0x3B :: to_string (u32 (column pos + 1)) ++
             0x3B :: to_string (u32 (line pos + 1)) ++ [0x4D]) g
         else g).

(** [pixel]: the position in pixels, (x, y). *)
Definition mouseTransport (eventType : MouseEventType) (button modifier : Z) (pos : CellLocation)
    (pixel : Z * Z) (uiHandled : bool) (g : InputGenerator) : bool * InputGenerator :=
  if (line pos <? 0) || (column pos <? 0) then (true, g) else
  match _mouseTransport g with
  | DefaultTransport => (true, (mouseTransportX10 button modifier pos g).2)
  | Extended => (false, (mouseTransportExtended button modifier pos g).2)
  | SGR => mouseTransportSGR eventType button modifier (column pos + 1) (line pos + 1) uiHandled g
  | URXVT => mouseTransportURXVT eventType button modifier pos g
  | SGRPixels => mouseTransportSGR eventType button modifier pixel.1 pixel.2 uiHandled g
  end.

Definition buttonValue (eventType : MouseEventType) (button : MouseButton) (g : InputGenerator) : Z :=
  if decide (_mouseTransport g <> SGR) then buttonNormal button eventType else buttonX10 button.

Definition draggableButton (eventType : MouseEventType) (button : MouseButton) (g : InputGenerator) : Z :=
  if decide (eventType = Drag) then u8 (buttonValue eventType button g + 0x20) else buttonValue eventType button g.

Definition generateMouse (eventType : MouseEventType) (modifiers : Modifiers) (button : MouseButton)
    (pos : CellLocation) (pixel : Z * Z) (uiHandled : bool) (g : InputGenerator) : bool * InputGenerator :=
  let transport b := (mouseTransport eventType b (modifierBits modifiers) pos pixel uiHandled g).2 in
  match _mouseProtocol g with
  | None => (false, g)
  | Some X10 => (true, if decide (eventType = Press) then transport (buttonX10 button) else g)
  | Some NormalTracking =>
      (true, if decide (eventType = Press \/ eventType = Release)
             then transport (buttonValue eventType button g) else g)
  | Some ButtonTracking | Some AnyEventTracking =>
      (true, transport (draggableButton eventType button g))
  | Some HighlightTracking => (false, g)
  end.

(** *** Events *)

Definition generateMousePress (modifiers : Modifiers) (button : MouseButton) (pos : CellLocation)
    (pixel : Z * Z) (uiHandled : bool) (g : InputGenerator) : bool * InputGenerator :=
  let g := with_mouse (_currentlyPressedMouseButtons g) pos g in
  match _mouseProtocol g with
  | None => (false, g)
  | Some _ =>
      let wheel :=
        if _passiveMouseTracking g then None else
        match _mouseWheelMode g, button with
        | NormalCursorKeys, WheelUp => Some (CSI "A")
        | NormalCursorKeys, WheelDown => Some (CSI "B")
        | ApplicationCursorKeys, WheelUp => Some (SS3 "A")
        | ApplicationCursorKeys, WheelDown => Some (SS3 "B")
        | _, _ => None
        end in
      match wheel with
      | Some s => (true, append s g)
      | None =>
          let g := if isMouseWheel button then g
                   else with_mouse (set_insert button (_currentlyPressedMouseButtons g)) pos g in
          generateMouse Press modifiers button (_currentMousePosition g) pixel uiHandled g
      end
  end.

Definition generateMouseRelease (modifiers : Modifiers) (button : MouseButton) (pos : CellLocation)
    (pixel : Z * Z) (uiHandled : bool) (g : InputGenerator) : bool * InputGenerator :=
  let g := with_mouse (set_erase button (_currentlyPressedMouseButtons g)) pos g in
  generateMouse Release modifiers button (_currentMousePosition g) pixel uiHandled g.

Definition generateMouseMove (modifiers : Modifiers) (pos : CellLocation) (pixel : Z * Z) (uiHandled : bool)
    (g : InputGenerator) : bool * InputGenerator :=
  if bool_decide (pos = _currentMousePosition g) && bool_decide (_mouseTransport g <> SGRPixels) then (false, g) else
  let g := with_mouse (_currentlyPressedMouseButtons g) pos g in
  let button := head (_currentlyPressedMouseButtons g) in
  match _mouseProtocol g with
  | None => (false, g)
  | Some protocol =>
      if (bool_decide (protocol = ButtonTracking) && bool_decide (is_Some button))
         || bool_decide (protocol = AnyEventTracking)
      then generateMouse Drag modifiers (default NoButton button) pos pixel uiHandled g
      else (false, g)
  end.

(** ** Text and the queue *)

Definition generate_char (characterEvent physicalKey : Z) (modifiers : Modifiers)
    (eventType : KeyboardEventType.t) (g : InputGenerator) : bool * InputGenerator :=
  let '(success, k) := generateChar characterEvent physicalKey modifiers eventType (_keyboard g) in
  if (success : bool) then
    let '(s, k) := take_pending k in (true, append s (with_keyboard k g))
  else (false, with_keyboard k g).

Definition generate_key (key : Key.t) (modifiers : Modifiers) (eventType : KeyboardEventType.t)
    (g : InputGenerator) : bool * InputGenerator :=
  let '(success, k) := generateKey key modifiers eventType (_keyboard g) in
  if (success : bool) then
    let '(s, k) := take_pending k in (true, append s (with_keyboard k g))
  else (false, with_keyboard k g).

Definition generatePaste (text : list Z) (g : InputGenerator) : InputGenerator :=
  if decide (text = []) then g else
  let g := if _bracketedPaste g then append (CSI "200~") g else g in
  let g := append text g in
  if _bracketedPaste g then append (CSI "201~") g else g.

Definition generateFocusInEvent (g : InputGenerator) : bool * InputGenerator :=
  if _generateFocusEvents g then (true, append (CSI "I") g) else (false, g).
Definition generateFocusOutEvent (g : InputGenerator) : bool * InputGenerator :=
  if _generateFocusEvents g then (true, append (CSI "O") g) else (true, g).
Definition generateRaw (raw : list Z) (g : InputGenerator) : bool * InputGenerator := (true, append raw g).

Definition peek (g : InputGenerator) : list Z := drop (Z.to_nat (_consumedBytes g)) (_pendingSequence g).

Definition consume (n : Z) (g : InputGenerator) : InputGenerator :=
  let consumed := _consumedBytes g + n in
  if consumed =? Z.of_nat (length (_pendingSequence g)) then with_queue [] 0 g
  else with_queue (_pendingSequence g) consumed g.

(** ** Modes *)

Definition setMouseProtocol (protocol : MouseProtocol) (enable : bool) (g : InputGenerator) : InputGenerator :=
  if enable then
    with_modes (_bracketedPaste g) (_generateFocusEvents g) (Some protocol) (_passiveMouseTracking g)
      (_mouseTransport g) DefaultWheel g
  else
    with_modes (_bracketedPaste g) (_generateFocusEvents g) None (_passiveMouseTracking g)
      (_mouseTransport g) (_mouseWheelMode g) g.
Definition setMouseTransport (t : MouseTransport) (g : InputGenerator) : InputGenerator :=
  with_modes (_bracketedPaste g) (_generateFocusEvents g) (_mouseProtocol g) (_passiveMouseTracking g)
    t (_mouseWheelMode g) g.
Definition setMouseWheelMode (mode : MouseWheelMode) (g : InputGenerator) : InputGenerator :=
  with_modes (_bracketedPaste g) (_generateFocusEvents g) (_mouseProtocol g) (_passiveMouseTracking g)
    (_mouseTransport g) mode g.
Definition setBracketedPaste (enable : bool) (g : InputGenerator) : InputGenerator :=
  with_modes enable (_generateFocusEvents g) (_mouseProtocol g) (_passiveMouseTracking g)
    (_mouseTransport g) (_mouseWheelMode g) g.
Definition setGenerateFocusEvents (enable : bool) (g : InputGenerator) : InputGenerator :=
  with_modes (_bracketedPaste g) enable (_mouseProtocol g) (_passiveMouseTracking g)
    (_mouseTransport g) (_mouseWheelMode g) g.
Definition setPassiveMouseTracking (v : bool) (g : InputGenerator) : InputGenerator :=
  with_modes (_bracketedPaste g) (_generateFocusEvents g) (_mouseProtocol g) v
    (_mouseTransport g) (_mouseWheelMode g) g.
Definition on_keyboard (f : keyboard -> keyboard) (g : InputGenerator) : InputGenerator :=
  with_keyboard (f (_keyboard g)) g.
Definition setCursorKeysMode (mode : KeyMode) (g : InputGenerator) : InputGenerator :=
  on_keyboard (k_setCursorKeysMode mode) g.
Definition setNumpadKeysMode (mode : KeyMode) (g : InputGenerator) : InputGenerator :=
  on_keyboard (k_setNumpadKeysMode mode) g.
Definition setApplicationKeypadMode (enable : bool) (g : InputGenerator) : InputGenerator :=
  on_keyboard (k_setApplicationKeypadMode enable) g.

Definition reset (g : InputGenerator) : InputGenerator :=
  with_modes false false None (_passiveMouseTracking g) DefaultTransport DefaultWheel (on_keyboard k_reset g).

End Generator.
