(* ===== verification/InputSpec.v ===== *)
(** * What the application reads

    Mouse and key reports read back by the parser of this library, and the
    queue of bytes between the generator and the application. *)
From Stdlib Require Import String.
From stdpp Require Import list.
From S2P Require Import Prelude ParserTable Parser Sequence Color Text Cell Input.
Import Flags.

(** ** Mouse reports *)

Record mouse_report := mk_report {
  r_button : MouseButton;
  r_shift : bool;
  r_super : bool;
  r_control : bool;
  r_drag : bool;
  r_release : bool;
  r_column : Z;
  r_line : Z
}.

(** Bits 0, 1 and 6 of the button code are the button, the others are the
    modifiers and the mark of a motion. *)
Definition read_button (code : Z) : MouseButton :=
  match Z.land code 3 + (if Z.testbit code 6 then 4 else 0) with
  | 0 => Left | 1 => Middle | 2 => Right | 3 => NoButton
  | 4 => WheelUp | 5 => WheelDown | 6 => WheelRight | _ => WheelLeft
  end.

Definition read_report (s : Sequence) : option mouse_report :=
  if (_leaderSymbol s =? 0x3C) && (parameterCount s =? 3)%nat then
    code ← param_opt s 0; x ← param_opt s 1; y ← param_opt s 2;
    Some (mk_report (read_button code) (Z.testbit code 2) (Z.testbit code 3) (Z.testbit code 4) (Z.testbit code 5)
      (_finalChar s =? 0x6D) (x - 1) (y - 1))
  else None.

Definition report_of (eventType : MouseEventType) (modifiers : Modifiers) (button : MouseButton)
    (pos : CellLocation) : mouse_report :=
  mk_report button (contains modifiers Modifier.Shift) (contains modifiers Modifier.Super)
    (contains modifiers Modifier.Control) (bool_decide (eventType = Drag)) (bool_decide (eventType = Release))
    (column pos) (line pos).

(** The code of the SGR transport. *)
Definition sgr_code (eventType : MouseEventType) (modifiers : Modifiers) (button : MouseButton) : Z :=
  Z.lor (if decide (eventType = Drag) then u8 (buttonX10 button + 0x20) else buttonX10 button) (modifierBits modifiers).

Lemma sgr_code_read eventType modifiers button :
  let code := sgr_code eventType modifiers button in
  0 <= code < 2 ^ 8 /\ read_button code = button /\
  Z.testbit code 2 = contains modifiers Modifier.Shift /\ Z.testbit code 3 = contains modifiers Modifier.Super /\
  Z.testbit code 4 = contains modifiers Modifier.Control /\ Z.testbit code 5 = bool_decide (eventType = Drag).
Proof.
  unfold sgr_code, modifierBits.
  destruct (contains modifiers Modifier.Shift), (contains modifiers Modifier.Super),
    (contains modifiers Modifier.Control), eventType, button; vm_compute; done.
Qed.

Definition sgr_report (eventType : MouseEventType) (modifiers : Modifiers) (button : MouseButton)
    (pos : CellLocation) : list Z :=
  csi_text (Some 0x3C)
    (params_text (to_string (sgr_code eventType modifiers button))
       [(false, to_string (column pos + 1)); (false, to_string (line pos + 1))])
    [] (if decide (eventType = Release) then 0x6D else 0x4D).

(** Protocols that report the event. *)
Definition reports (protocol : MouseProtocol) (eventType : MouseEventType) : Prop :=
  match protocol with
  | NormalTracking => eventType <> Drag
  | ButtonTracking | AnyEventTracking => True
  | X10 | HighlightTracking => False
  end.

Definition on_screen (pos : CellLocation) : Prop :=
  0 <= line pos < 2 ^ 16 - 1 /\ 0 <= column pos < 2 ^ 16 - 1.

Lemma sgr_text a b c final :
  Input.CSI "<" ++ a ++ 0x3B :: b ++ 0x3B :: c ++ [] ++ [final] =
  csi_text (Some 0x3C) (params_text a [(false, b); (false, c)]) [] final.
Proof.
  unfold csi_text, params_text, Input.CSI. cbn. rewrite app_nil_r, <- !app_assoc. cbn.
  by rewrite <- !app_assoc.
Qed.

Lemma generateMouse_sgr convert_to eventType modifiers button pos pixel ui protocol g :
  _mouseProtocol g = Some protocol -> reports protocol eventType -> _mouseTransport g = SGR ->
  _passiveMouseTracking g = false -> on_screen pos ->
  generateMouse convert_to eventType modifiers button pos pixel ui g =
    (true, append (sgr_report eventType modifiers button pos) g).
Proof.
  intros Hp Hr Ht Hpass [Hl Hc]. unfold generateMouse, mouseTransport, mouseTransportSGR. rewrite Hp, Ht, Hpass.
  zbool. cbn [orb].
  assert (buttonValue eventType button g = buttonX10 button) as Hv by (unfold buttonValue; by rewrite Ht).
  assert (forall c, (true, append (Input.CSI "<" ++ to_string (Z.lor c (modifierBits modifiers)) ++
      0x3B :: to_string (u32 (column pos + 1)) ++ 0x3B :: to_string (u32 (line pos + 1)) ++ [] ++
      [if decide (eventType <> Release) then 0x4D else 0x6D]) g) =
    (true, append (csi_text (Some 0x3C) (params_text (to_string (Z.lor c (modifierBits modifiers)))
       [(false, to_string (column pos + 1)); (false, to_string (line pos + 1))])
      [] (if decide (eventType = Release) then 0x6D else 0x4D)) g)) as E.
  { intros c. do 2 f_equal. unfold u32. rewrite !Z.mod_small by lia. rewrite <- sgr_text.
    by destruct eventType. }
  unfold sgr_report, sgr_code, draggableButton.
  destruct protocol; cbn [reports] in Hr; try done; rewrite ?Hv.
  - rewrite decide_True by (destruct eventType; tauto). cbn [snd]. rewrite E. by destruct eventType.
  - cbn [snd]. rewrite E. by destruct (decide (eventType = Drag)).
  - cbn [snd]. rewrite E. by destruct (decide (eventType = Drag)).
Qed.

(** ** The queue *)

Definition queue_ok (g : InputGenerator) : Prop :=
  0 <= _consumedBytes g <= Z.of_nat (length (_pendingSequence g)) /\ k_pending (_keyboard g) = [].

Lemma peek_append s g : queue_ok g -> peek (append s g) = peek g ++ s.
Proof. intros [Hc _]. unfold peek. cbn [append _pendingSequence _consumedBytes]. apply drop_app_le. lia. Qed.

Lemma read_three s a b c final :
  is_csi (Some 0x3C) a [(false, b); (false, c)] [] final s ->
  _leaderSymbol s = 0x3C /\ parameterCount s = 3%nat /\ _finalChar s = final /\
  param_opt s 0 = Some (u16 (decimal a)) /\ param_opt s 1 = Some (u16 (decimal b)) /\
  param_opt s 2 = Some (u16 (decimal c)).
Proof.
  intros (_ & Hl & _ & Hf & _ & Hcount & Hvals & _). cbn in Hl, Hvals.
  assert (parameterCount s = 3%nat) as Hn by (unfold parameterCount; by rewrite Hcount, bool_decide_eq_false_2).
  unfold param_opt, at_. rewrite Hn. cbn [Nat.ltb Nat.leb]. split_and!; try done.
  all: match goal with |- _ !! ?i = _ =>
    rewrite <- (lookup_take_lt _ 3 i) by lia; rewrite Hvals; done end.
Qed.

Lemma report_wf eventType modifiers button pos : on_screen pos ->
  let first := to_string (sgr_code eventType modifiers button) in
  let more := [(false, to_string (column pos + 1)); (false, to_string (line pos + 1))] in
  digits first /\ Forall (fun q => digits q.2) more /\
  csi_wf (Some 0x3C) (params_text first more) [] (if decide (eventType = Release) then 0x6D else 0x4D) /\
  u16 (decimal first) = sgr_code eventType modifiers button /\
  u16 (decimal (to_string (column pos + 1))) = column pos + 1 /\
  u16 (decimal (to_string (line pos + 1))) = line pos + 1.
Proof.
  intros [Hl Hc]. destruct (sgr_code_read eventType modifiers button) as (Hcode & _).
  destruct (to_string_spec (sgr_code eventType modifiers button)) as (Hd1 & He1 & _); [lia|].
  destruct (to_string_spec (column pos + 1)) as (Hd2 & He2 & _); [lia|].
  destruct (to_string_spec (line pos + 1)) as (Hd3 & He3 & _); [lia|].
  assert (forall ds, digits ds -> Forall (fun b => 0x30 <= b <= 0x3B) ds) as Hany.
  { intros ds Hds. eapply Forall_impl; [exact Hds|]. cbn. lia. }
  cbn zeta. split_and!; try done.
  - repeat (apply Forall_cons_2; [done|]). apply Forall_nil_2.
  - unfold csi_wf. split_and!; [done|done| |apply Forall_nil_2|case_decide; lia|case_decide; lia].
    unfold params_text. cbn [fmap list_fmap mjoin list_join]. rewrite app_nil_r.
    repeat first [by apply Hany|apply Forall_app; split|apply Forall_cons_2]; lia.
Qed.



(** ** Key reports *)

Definition all_keys : list Key.t :=
  [Key.F1; Key.F2; Key.F3; Key.F4; Key.F5; Key.F6; Key.F7; Key.F8; Key.F9; Key.F10; Key.F11; Key.F12; Key.F13;
   Key.F14; Key.F15; Key.F16; Key.F17; Key.F18; Key.F19; Key.F20; Key.F21; Key.F22; Key.F23; Key.F24; Key.F25;
   Key.F26; Key.F27; Key.F28; Key.F29; Key.F30; Key.F31; Key.F32; Key.F33; Key.F34; Key.F35; Key.Escape; Key.Enter;
   Key.Tab; Key.Backspace; Key.DownArrow; Key.LeftArrow; Key.RightArrow; Key.UpArrow; Key.Insert; Key.Delete;
   Key.Home; Key.End_; Key.PageUp; Key.PageDown; Key.MediaPlay; Key.MediaStop; Key.MediaPrevious; Key.MediaNext;
   Key.MediaPause; Key.MediaTogglePlayPause; Key.VolumeUp; Key.VolumeDown; Key.VolumeMute; Key.LeftShift;
   Key.RightShift; Key.LeftControl; Key.RightControl; Key.LeftAlt; Key.RightAlt; Key.LeftSuper; Key.RightSuper;
   Key.LeftHyper; Key.RightHyper; Key.LeftMeta; Key.RightMeta; Key.IsoLevel3Shift; Key.IsoLevel5Shift; Key.CapsLock;
   Key.ScrollLock; Key.NumLock; Key.PrintScreen; Key.Pause; Key.Menu; Key.Numpad_Divide; Key.Numpad_Multiply;
   Key.Numpad_Subtract; Key.Numpad_Add; Key.Numpad_Decimal; Key.Numpad_Enter; Key.Numpad_Equal; Key.Numpad_0;
   Key.Numpad_1; Key.Numpad_2; Key.Numpad_3; Key.Numpad_4; Key.Numpad_5; Key.Numpad_6; Key.Numpad_7; Key.Numpad_8;
   Key.Numpad_9].

(** The key of a code and a final byte; the modifiers are the second
    parameter less one. *)
Definition find_key (code final : Z) : option Key.t :=
  snd <$> list_find (fun k => mapKey k = (code, final)) all_keys.

Definition read_key (s : Sequence) : option (Key.t * Modifiers) :=
  code ← param_opt s 0;
  key ← find_key code (_finalChar s);
  Some (key, default 1 (param_opt s 1) - 1).

Lemma find_mapped key : find_key (mapKey key).1 (mapKey key).2 = Some key.
Proof. destruct key; vm_compute; reflexivity. Qed.

Lemma mapKey_range key : 1 <= (mapKey key).1 < 2 ^ 16 /\ 0x40 <= (mapKey key).2 <= 0x7E.
Proof. destruct key; vm_compute; split; split; congruence. Qed.

(** The report of a key with the flags that ask for it. *)
Definition key_more (modifiers : Modifiers) : list (bool * list Z) :=
  if modifiers =? 0 then [] else [(false, to_string (1 + modifiers))].
Definition key_report (key : Key.t) (modifiers : Modifiers) : list Z :=
  csi_text None (params_text (to_string (mapKey key).1) (key_more modifiers)) [] (mapKey key).2.

Definition asks_for_all (k : keyboard) : Prop :=
  enabled KeyboardEventFlag.DisambiguateEscapeCodes k = true /\
  enabled KeyboardEventFlag.ReportAllKeysAsEscapeCodes k = true /\
  enabled KeyboardEventFlag.ReportEventTypes k = false.

Lemma generateKey_all convert_to key modifiers eventType k :
  asks_for_all k -> eventType <> KeyboardEventType.Release -> 0 <= modifiers < 2 ^ 8 ->
  generateKey convert_to key modifiers eventType k = (true, k_append (key_report key modifiers) k).
Proof.
  intros (Hd & Ha & He) Hev Hm. unfold generateKey, event_enabled, encodeModifiers.
  rewrite Hd, Ha, He, bool_decide_eq_false_2 by done. cbn [negb orb]. rewrite !andb_false_r. cbn [andb].
  destruct (mapKey key) as [code function] eqn:Ek. unfold key_report, key_more. rewrite Ek. cbn [fst snd].
  assert (to_string (1 + modifiers) <> []) as Hne by (apply to_string_spec; lia).
  destruct (modifiers =? 0); cbn [negb].
  - rewrite decide_True by done. unfold csi_text, params_text. cbn [option_list fmap list_fmap mjoin list_join app].
    by rewrite app_nil_r.
  - rewrite decide_False by done. unfold csi_text, params_text. generalize (to_string (1 + modifiers)), (to_string code).
    intros s t. cbn. rewrite app_nil_r. by rewrite <- !app_assoc.
Qed.

Lemma key_report_wf key modifiers : 0 <= modifiers < 2 ^ 8 ->
  let first := to_string (mapKey key).1 in
  digits first /\ Forall (fun q => digits q.2) (key_more modifiers) /\
  csi_wf None (params_text first (key_more modifiers)) [] (mapKey key).2 /\
  params_values first (key_more modifiers) = (mapKey key).1 :: (if modifiers =? 0 then [] else [1 + modifiers]).
Proof.
  intros Hm. destruct (mapKey_range key) as [Hk Hf].
  destruct (to_string_spec (mapKey key).1) as (Hd1 & He1 & Hn1); [lia|].
  destruct (to_string_spec (1 + modifiers)) as (Hd2 & He2 & Hn2); [lia|].
  assert (forall ds, digits ds -> Forall (fun b => 0x30 <= b <= 0x3B) ds) as Hany.
  { intros ds Hds. eapply Forall_impl; [exact Hds|]. cbn. lia. }
  cbn zeta. unfold key_more. split_and!; [done| | |].
  - destruct (modifiers =? 0); repeat (apply Forall_cons_2; [done|]); apply Forall_nil_2.
  - unfold csi_wf. split_and!; [| |apply Forall_nil_2|lia|lia].
    + unfold params_text. destruct (to_string (mapKey key).1) as [|d ds]; [done|].
      apply Forall_cons in Hd1 as [Hd1 _]. cbn. lia.
    + unfold params_text. destruct (modifiers =? 0); cbn [fmap list_fmap mjoin list_join]; rewrite app_nil_r;
        repeat first [by apply Hany|apply Forall_app; split|apply Forall_cons_2]; lia.
  - unfold params_values, more_values. rewrite He1. destruct (modifiers =? 0); [done|].
    cbn [fmap list_fmap]. by rewrite He2.
Qed.

(** C13: With the keyboard flags that disambiguate escape codes and report all keys as escape
    codes set and the flag that reports event types not set, a press or a repetition (not a
    release) of any key with any set of modifiers is reported by bytes of its own: appended to
    the queue, and read by the parser of this library from its ground state, they are dispatched
    as one control sequence from which the key and the modifiers are read back. With event types
    reported the modifiers are not (event_type_modifiers). *)
Theorem key_report_read_back (U : LibUnicode) (H X : Type) (EX : ParserExtension H X)
    (SH : SequenceHandler H X) (p : Parser (option (SequenceBuilder.t H X))) (b : SequenceBuilder.t H X)
    (convert_to : Z -> list Z) (key : Key.t) (modifiers : Modifiers) (eventType : KeyboardEventType.t)
    (g : InputGenerator) :
  _state p = Ground -> _eventListener p = Some b -> sb_wf b -> queue_ok g ->
  asks_for_all (_keyboard g) -> eventType <> KeyboardEventType.Release -> 0 <= modifiers < 2 ^ 8 ->
  exists report g', generate_key convert_to key modifiers eventType g = (true, g') /\
    peek g' = peek g ++ report /\
    _state (fsm_run p report) = Ground /\
    exists seq b', _eventListener (fsm_run p report) = Some b' /\ sb_wf b' /\
      SequenceBuilder._handler b' = (processSequence (writeTextEnd (SequenceBuilder._handler b)) seq).1 /\
      read_key seq = Some (key, modifiers).
Proof.
  intros Hs Hl Hwf Hq Hk Hev Hm.
  exists (key_report key modifiers), (append (key_report key modifiers) g). split_and!.
  - unfold generate_key. rewrite generateKey_all by done. destruct Hq as [_ Hkp]. cbn. rewrite Hkp.
    do 2 f_equal. destruct g as [? ? ? ? ? ? ? ? ? ? kb]. destruct kb. cbn in *. by subst.
  - by apply peek_append.
  - destruct (key_report_wf key modifiers Hm) as (Hd & Hmo & Hcsi & Hv).
    assert (length (key_more modifiers) < 16)%nat as Hlen by (unfold key_more; case_match; simpl; lia).
    apply (csi_dispatched U H X EX SH p b _ _ _ _ _ Hs Hl Hwf Hcsi Hd Hmo Hlen).
  - destruct (key_report_wf key modifiers Hm) as (Hd & Hmo & Hcsi & Hv).
    assert (length (key_more modifiers) < 16)%nat as Hlen by (unfold key_more; case_match; simpl; lia).
    destruct (csi_dispatched U H X EX SH p b _ _ _ _ _ Hs Hl Hwf Hcsi Hd Hmo Hlen)
      as [_ (seq & b' & Hseq & Hb' & Hwf' & Hh)].
    exists seq, b'. split_and!; try done.
    destruct Hseq as (_ & _ & _ & Hf & _ & Hcount & Hvals & _). rewrite Hv in Hcount, Hvals.
    destruct (mapKey_range key) as [Hk1 _]. unfold read_key, param_opt, at_, parameterCount.
    rewrite Hcount, bool_decide_eq_false_2 by (destruct (modifiers =? 0); intros [=]; lia).
    destruct (Z.eqb_spec modifiers 0) as [->|Hne]; cbn [length] in *; cbn [Nat.ltb Nat.leb].
    + rewrite <- (lookup_take_lt _ 1 0) by lia. rewrite Hvals. cbn [lookup list_lookup mbind option_bind].
      by rewrite Hf, find_mapped.
    + rewrite <- (lookup_take_lt _ 2 0), <- (lookup_take_lt (_values _) 2 1) by lia. rewrite Hvals.
      cbn [lookup list_lookup mbind option_bind default]. rewrite Hf, find_mapped. cbn. do 2 f_equal. lia.
Qed.

Lemma key_report_read_back_witness :
  let g := on_keyboard (enter 9) new_input in
  let p := mkParser (H := latin1) Ground scan_state_init (Some (SequenceBuilder.new [] : log_builder)) in
  exists report g', generate_key (fun c => [c]) Key.F3 3 KeyboardEventType.Press g = (true, g') /\
    peek g' = peek g ++ report /\ _state (fsm_run p report) = Ground /\
    exists seq b', _eventListener (fsm_run p report) = Some b' /\ sb_wf b' /\
      SequenceBuilder._handler b' = [seq] /\ read_key seq = Some (Key.F3, 3).
Proof.
  apply (key_report_read_back latin1 (list Sequence) _ _ log_handler
    (mkParser (H := latin1) Ground scan_state_init (Some (SequenceBuilder.new [] : log_builder)))
    (SequenceBuilder.new []) (fun c => [c]) Key.F3 3 KeyboardEventType.Press (on_keyboard (enter 9) new_input));
    done.
Defined.

(** ** What was generated is what is sent *)

Inductive event :=
  | Char (c physicalKey : Z) (modifiers : Modifiers) (e : KeyboardEventType.t)
  | KeyEvent (key : Key.t) (modifiers : Modifiers) (e : KeyboardEventType.t)
  | MousePress (modifiers : Modifiers) (button : MouseButton) (pos : CellLocation) (pixel : Z * Z) (ui : bool)
  | MouseRelease (modifiers : Modifiers) (button : MouseButton) (pos : CellLocation) (pixel : Z * Z) (ui : bool)
  | MouseMove (modifiers : Modifiers) (pos : CellLocation) (pixel : Z * Z) (ui : bool)
  | Paste (text : list Z)
  | FocusIn | FocusOut
  | Raw (text : list Z)
  | SetProtocol (protocol : MouseProtocol) (enable : bool)
  | SetTransport (t : MouseTransport)
  | SetWheel (mode : MouseWheelMode)
  | SetPaste (enable : bool)
  | SetFocus (enable : bool)
  | SetPassive (v : bool)
  | SetCursorKeys (mode : KeyMode)
  | SetNumpadKeys (mode : KeyMode)
  | SetKeypad (enable : bool)
  | EnterFlags (f : flags)
  | LeaveFlags (n : nat)
  | Reset.

Section Queue.
Variable convert_to : Z -> list Z.

Definition handle (e : event) (g : InputGenerator) : InputGenerator :=
  match e with
  | Char c physicalKey modifiers e => (generate_char convert_to c physicalKey modifiers e g).2
  | KeyEvent key modifiers e => (generate_key convert_to key modifiers e g).2
  | MousePress modifiers button pos pixel ui => (generateMousePress convert_to modifiers button pos pixel ui g).2
  | MouseRelease modifiers button pos pixel ui => (generateMouseRelease convert_to modifiers button pos pixel ui g).2
  | MouseMove modifiers pos pixel ui => (generateMouseMove convert_to modifiers pos pixel ui g).2
  | Paste text => generatePaste text g
  | FocusIn => (generateFocusInEvent g).2
  | FocusOut => (generateFocusOutEvent g).2
  | Raw text => (generateRaw text g).2
  | SetProtocol protocol enable => setMouseProtocol protocol enable g
  | SetTransport t => setMouseTransport t g
  | SetWheel mode => setMouseWheelMode mode g
  | SetPaste enable => setBracketedPaste enable g
  | SetFocus enable => setGenerateFocusEvents enable g
  | SetPassive v => setPassiveMouseTracking v g
  | SetCursorKeys mode => setCursorKeysMode mode g
  | SetNumpadKeys mode => setNumpadKeysMode mode g
  | SetKeypad enable => setApplicationKeypadMode enable g
  | EnterFlags f => on_keyboard (enter f) g
  | LeaveFlags n => on_keyboard (leave n) g
  | Reset => reset g
  end.

(** A session: events, and the connection taking bytes off the queue. *)
Inductive action := Event (e : event) | Send (n : nat).

Definition drained (g : InputGenerator) : InputGenerator := with_queue [] 0 g.

(** What an event generates by itself. *)
Definition output (e : event) (g : InputGenerator) : list Z := peek (handle e (drained g)).

(** The bytes that went out, the bytes that were generated, and the state at
    the end.  [Send] takes at most what there is. *)
Fixpoint session (actions : list action) (g : InputGenerator) : list Z * list Z * InputGenerator :=
  match actions with
  | [] => ([], [], g)
  | Event e :: actions =>
      let '(sent, generated, g') := session actions (handle e g) in (sent, output e g ++ generated, g')
  | Send n :: actions =>
      let n := Nat.min n (length (peek g)) in
      let '(sent, generated, g') := session actions (consume (Z.of_nat n) g) in
      (take n (peek g) ++ sent, generated, g')
  end.

(** An operation that only adds to the queue. *)
Definition appends (f : InputGenerator -> InputGenerator) : Prop := forall g, k_pending (_keyboard g) = [] ->
  _pendingSequence (f g) = _pendingSequence g ++ _pendingSequence (f (drained g)) /\
  _consumedBytes (f g) = _consumedBytes g /\ k_pending (_keyboard (f g)) = [].

(** What the keyboard generator adds. *)
Lemma generateChar_standard_pending c m e k :
  let r := generateChar_standard convert_to c m e k in
  exists s, k_pending r.2 = k_pending k ++ s /\ (r.1 = false -> s = []).
Proof.
  unfold generateChar_standard. case_decide; [exists []; by rewrite app_nil_r|].
  destruct (m =? Modifier.Alt); repeat case_match; cbn; eexists; split;
    rewrite <- ?app_assoc; try done; by intros [=].
Qed.

Lemma generateKey_standard_pending key m e k :
  let r := generateKey_standard convert_to key m e k in
  exists s, k_pending r.2 = k_pending k ++ s /\ (r.1 = false -> s = []).
Proof.
  unfold generateKey_standard. case_decide; [exists []; by rewrite app_nil_r|].
  destruct (key_mapping key m); cbn; [eexists; split; [done|by intros [=]]..| |exists []; by rewrite app_nil_r].
  destruct (generateChar_standard_pending c m e k) as (s & Hs & _). exists s. split; [done|by intros [=]].
Qed.

Lemma generateChar_pending c ph m e k :
  let r := generateChar convert_to c ph m e k in
  exists s, k_pending r.2 = k_pending k ++ s /\ (r.1 = false -> s = []).
Proof.
  unfold generateChar. case_match; [cbn; eexists; split; [done|by intros [=]]|].
  apply generateChar_standard_pending.
Qed.

Lemma generateKey_pending key m e k :
  let r := generateKey convert_to key m e k in
  exists s, k_pending r.2 = k_pending k ++ s /\ (r.1 = false -> s = []).
Proof.
  unfold generateKey. case_match; [exists []; by rewrite app_nil_r|].
  case_match; [apply generateKey_standard_pending|]. case_match; [apply generateKey_standard_pending|].
  case_match; [exists []; by rewrite app_nil_r|].
  destruct (mapKey key). cbn. eexists. split; [done|by intros [=]].
Qed.

(** The two shapes: bytes are appended, or nothing is. *)
Definition adds (s : list Z) (g g' : InputGenerator) : Prop :=
  _pendingSequence g' = _pendingSequence g ++ s /\ _consumedBytes g' = _consumedBytes g /\
  _keyboard g' = _keyboard g.

Lemma transport_adds eventType button modifier pos pixel ui g :
  exists s, forall q n, adds s (with_queue q n g)
    (mouseTransport convert_to eventType button modifier pos pixel ui (with_queue q n g)).2.
Proof.
  unfold mouseTransport, mouseTransportX10, mouseTransportExtended, mouseTransportSGR, mouseTransportURXVT.
  cbn [_mouseTransport _passiveMouseTracking with_queue].
  repeat case_match; eexists; intros ? ?; unfold adds; cbn; split_and!;
    first [done|reflexivity|symmetry; apply app_nil_r].
Qed.

Lemma generateMouse_adds eventType modifiers button pos pixel ui g :
  exists s, forall q n, adds s (with_queue q n g)
    (generateMouse convert_to eventType modifiers button pos pixel ui (with_queue q n g)).2.
Proof.
  unfold generateMouse, draggableButton, buttonValue. cbn [_mouseProtocol _mouseTransport with_queue].
  assert (forall g, exists s, forall q n, adds s (with_queue q n g) (with_queue q n g)) as Hnone.
  { intros g0. exists []. intros q n. split; [by rewrite app_nil_r|done]. }
  repeat case_match; cbn [snd]; first [apply transport_adds|apply Hnone].
Qed.

Lemma adds_appends (f : InputGenerator -> InputGenerator) :
  (forall g, exists s, forall q n, adds s (with_queue q n g) (f (with_queue q n g))) -> appends f.
Proof.
  intros Hf g Hk. destruct (Hf g) as (s & Hs).
  pose proof (Hs (_pendingSequence g) (_consumedBytes g)) as (Hp & Hc & Hkb).
  pose proof (Hs [] 0) as (Hp0 & _). cbn in Hp0. unfold drained. rewrite Hp0.
  replace (with_queue (_pendingSequence g) (_consumedBytes g) g) with g in * by (by destruct g).
  split_and!; [done|done|by rewrite Hkb].
Qed.

Lemma press_adds modifiers button pos pixel ui g :
  exists s, forall q n, adds s (with_queue q n g)
    (generateMousePress convert_to modifiers button pos pixel ui (with_queue q n g)).2.
Proof.
  unfold generateMousePress.
  cbn [with_queue with_mouse _mouseProtocol _passiveMouseTracking _mouseWheelMode _currentMousePosition].
  assert (forall g pressed, exists s, forall q n, adds s (with_queue q n g)
    (generateMouse convert_to Press modifiers button pos pixel ui (with_mouse pressed pos (with_queue q n g))).2) as Hg.
  { intros g0 pressed. destruct (generateMouse_adds Press modifiers button pos pixel ui (with_mouse pressed pos g0))
      as (s & Hs). exists s. intros q n. apply (Hs q n). }
  destruct (_mouseProtocol g) as [protocol|].
  2: { exists []. intros q n. split; [by rewrite app_nil_r|done]. }
  match goal with |- context [match ?w with Some s => (true, append s _) | None => _ end] => destruct w as [s|] end.
  - exists s. intros q n. done.
  - destruct (isMouseWheel button); [apply (Hg g (_currentlyPressedMouseButtons g))|].
    apply (Hg g (set_insert button (_currentlyPressedMouseButtons g))).
Qed.

Lemma release_adds modifiers button pos pixel ui g :
  exists s, forall q n, adds s (with_queue q n g)
    (generateMouseRelease convert_to modifiers button pos pixel ui (with_queue q n g)).2.
Proof.
  destruct (generateMouse_adds Release modifiers button pos pixel ui
    (with_mouse (set_erase button (_currentlyPressedMouseButtons g)) pos g)) as (s & Hs).
  exists s. intros q n. apply (Hs q n).
Qed.

Lemma move_adds modifiers pos pixel ui g :
  exists s, forall q n, adds s (with_queue q n g)
    (generateMouseMove convert_to modifiers pos pixel ui (with_queue q n g)).2.
Proof.
  destruct (generateMouse_adds Drag modifiers (default NoButton (head (_currentlyPressedMouseButtons g))) pos pixel ui
    (with_mouse (_currentlyPressedMouseButtons g) pos g)) as (s & Hs).
  assert (exists s, forall q n, adds s (with_queue q n g) (with_queue q n g)) as Hnone.
  { exists []. intros q n. split; [by rewrite app_nil_r|done]. }
  unfold generateMouseMove.
  cbn [with_queue with_mouse _mouseProtocol _mouseTransport _currentMousePosition _currentlyPressedMouseButtons].
  destruct (bool_decide (pos = _currentMousePosition g) && _); [done|].
  destruct (_mouseProtocol g) as [protocol|]; [|done].
  destruct (_ || _); [|done]. exists s. intros q n. apply (Hs q n).
Qed.

Ltac mode_change :=
  intros g Hk; cbn [handle];
  unfold setMouseProtocol, setMouseTransport, setMouseWheelMode, setBracketedPaste, setGenerateFocusEvents,
    setPassiveMouseTracking, setCursorKeysMode, setNumpadKeysMode, setApplicationKeypadMode, reset, on_keyboard,
    enter, leave, k_reset;
  try case_match; cbn; by rewrite app_nil_r.

Lemma handle_appends e : appends (handle e).
Proof.
  destruct e; cbn [handle].
  - intros g Hk. cbn [handle]. unfold generate_char. cbn [drained with_queue _keyboard].
    destruct (generateChar_pending c physicalKey modifiers e (_keyboard g)) as (s & Hs & Hf).
    destruct (generateChar convert_to c physicalKey modifiers e (_keyboard g)) as [[] k]; cbn in *; [done|].
    rewrite Hf, Hk in Hs by done. split_and!; [by rewrite app_nil_r|done|done].
  - intros g Hk. cbn [handle]. unfold generate_key. cbn [drained with_queue _keyboard].
    destruct (generateKey_pending key modifiers e (_keyboard g)) as (s & Hs & Hf).
    destruct (generateKey convert_to key modifiers e (_keyboard g)) as [[] k]; cbn in *; [done|].
    rewrite Hf, Hk in Hs by done. split_and!; [by rewrite app_nil_r|done|done].
  - apply adds_appends. intros g. apply press_adds.
  - apply adds_appends. intros g. apply release_adds.
  - apply adds_appends. intros g. apply move_adds.
  - intros g Hk. cbn [handle]. unfold generatePaste. case_decide; cbn; [by rewrite app_nil_r|].
    destruct (_bracketedPaste g) eqn:E; cbn [append drained with_queue _bracketedPaste]; rewrite ?E; cbn;
      rewrite <- ?app_assoc; done.
  - intros g Hk. cbn [handle]. unfold generateFocusInEvent. cbn. destruct (_generateFocusEvents g); cbn; [done|by rewrite app_nil_r].
  - intros g Hk. cbn [handle]. unfold generateFocusOutEvent. cbn. destruct (_generateFocusEvents g); cbn; [done|by rewrite app_nil_r].
  - done.
  - mode_change.
  - mode_change.
  - mode_change.
  - mode_change.
  - mode_change.
  - mode_change.
  - mode_change.
  - mode_change.
  - mode_change.
  - mode_change.
  - mode_change.
  - mode_change.
Qed.

Lemma handle_peek e g : queue_ok g -> queue_ok (handle e g) /\ peek (handle e g) = peek g ++ output e g.
Proof.
  intros [Hc Hk]. destruct (handle_appends e g Hk) as (Hp & Hn & Hk').
  destruct (handle_appends e (drained g) Hk) as (_ & Hn0 & _). cbn in Hn0. split.
  - split; [|done]. rewrite Hp, Hn, length_app. lia.
  - unfold output, peek. rewrite Hp, Hn, Hn0, drop_0. apply drop_app_le. lia.
Qed.

Lemma consume_peek n g : queue_ok g -> (n <= length (peek g))%nat ->
  queue_ok (consume (Z.of_nat n) g) /\ peek (consume (Z.of_nat n) g) = drop n (peek g).
Proof.
  intros [Hc Hk] Hn. unfold peek in *. rewrite length_drop in Hn. unfold consume.
  destruct (Z.eqb_spec (_consumedBytes g + Z.of_nat n) (Z.of_nat (length (_pendingSequence g)))) as [E|Hne].
  - split; [split; [cbn; lia|done]|]. rewrite drop_drop, (drop_ge (_pendingSequence g)) by lia. done.
  - split; [split; [cbn; lia|done]|]. cbn. rewrite drop_drop. f_equal. lia.
Qed.

(** C15: The bytes of key, mouse, paste and focus events reach the application exactly as they
    were generated, in order and once: whatever the events, the mode changes and the portions in
    which the queue is sent, the bytes that went out and those still queued are what was queued
    at first and then the output of each event, which does not depend on what is still queued.
    *)
Theorem input_queue_fifo (actions : list action) (g : InputGenerator) : queue_ok g ->
  let '(sent, generated, g') := session actions g in
  sent ++ peek g' = peek g ++ generated /\ queue_ok g'.
Proof.
  revert g. induction actions as [|[e|n] actions IH]; intros g Hq; cbn [session].
  - by rewrite app_nil_r.
  - destruct (handle_peek e g Hq) as [Hq' Hp]. specialize (IH _ Hq').
    destruct (session actions (handle e g)) as [[sent generated] g']. destruct IH as [IH Hq''].
    split; [|done]. by rewrite IH, Hp, <- app_assoc.
  - set (m := Nat.min n (length (peek g))).
    destruct (consume_peek m g Hq) as [Hq' Hp]; [lia|]. specialize (IH _ Hq').
    destruct (session actions (consume (Z.of_nat m) g)) as [[sent generated] g']. destruct IH as [IH Hq''].
    split; [|done]. rewrite <- app_assoc, IH, Hp. by rewrite app_assoc, take_drop.
Qed.
End Queue.

Lemma input_queue_fifo_witness :
  let '(sent, generated, g') := session (fun c => [c])
    [Event (SetPaste true); Event (Paste (bytes "hi")); Send 4; Event (KeyEvent Key.UpArrow 0 KeyboardEventType.Press);
     Send 100] new_input in
  sent ++ peek g' = peek new_input ++ generated /\ queue_ok g'.
Proof.
  apply (input_queue_fifo (fun c => [c])
    [Event (SetPaste true); Event (Paste (bytes "hi")); Send 4; Event (KeyEvent Key.UpArrow 0 KeyboardEventType.Press);
     Send 100] new_input). done.
Defined.

(** With event types the modifiers are reported without the added one, so
    that Shift reads as no modifier. *)
Example event_type_modifiers :
  encodeModifiers Modifier.Shift KeyboardEventType.Press (set_flags 2 new_keyboard) = bytes "1:1" /\
  encodeModifiers Modifier.Shift KeyboardEventType.Press (set_flags 1 new_keyboard) = bytes "2".
Proof. done. Qed.

(** A reset leaves the cursor keys in application mode. *)
Example reset_keeps_cursor_keys :
  applicationCursorKeys (_keyboard (reset (setCursorKeysMode ApplicationKeys new_input))) = true.
Proof. done. Qed.

(** In the pixel encoding the released button is lost. *)
Example pixels_lose_button (convert_to : Z -> list Z) :
  let g := setMouseProtocol NormalTracking true new_input in
  let released t := peek (generateMouse convert_to Release 0 Left (mkLoc 0 0) (1, 1) false (setMouseTransport t g)).2 in
  released SGR = 0x1B :: bytes "[<0;1;1m" /\ released SGRPixels = 0x1B :: bytes "[<3;1;1m".
Proof. done. Qed.

(** Beyond the deepest level a push is dropped, and the pop that belongs to
    it takes the level below. *)
Example push_beyond_depth :
  let full := Nat.iter 31 (enter 1) new_keyboard in
  top_flags (leave 1 (enter 4 (enter 2 (leave 1 full)))) = 1 /\ top_flags (enter 2 (leave 1 full)) = 2.
Proof. vm_compute. done. Qed.
