(* ===== verification/Terminal.v ===== *)
(** * The terminal: screens, modes, status lines and resets (src/vtbackend/Terminal.h, Terminal.cpp)

    The terminal owns four screens.  The primary and the alternate one share
    the main margins, the status lines have margins of their own, and all
    share the modes and the tab stops.  The shared state is kept once, in the
    terminal: an operation of a screen is run on the screen with the shared
    state put in, and the shared state is taken out again behind it
    ([on_screen]).  [_currentScreen] is a pointer to one of the four.

    The cells of the main screens and of the status lines are two types.  The
    device behind the terminal only keeps the page size it was told.  Requests
    to the user interface are recorded in [_events].  Left out are rendering,
    the selection and viewport (Viewport.v), pixel sizes and logging.

    Proved: an application on the alternate screen leaves the primary screen
    as it was; the consistency the terminal checks for is kept by every
    operation; what a hard reset leaves; the stack of colour palettes. *)
From Stdlib Require Import String.
From stdpp Require Import gmap list.
From S2P Require Import Prelude Parser Sequence Functions Color Modes Cell Ring Line Grid Sgr Charset Screen Reflow Resize ScreenEdit Input.

Inductive ScreenType := Primary | Alternate.
Inductive StatusDisplayType := NoStatusLine | Indicator | HostWritable.
Inductive ActiveStatusDisplay := MainDisplay | StatusLine | IndicatorStatusLine.
(** What [_currentScreen] points to. *)
Inductive ScreenRef := PrimaryRef | AlternateRef | HostWritableRef | IndicatorRef.
#[export] Instance ScreenType_eq_dec : EqDecision ScreenType.
Proof. solve_decision. Defined.
#[export] Instance StatusDisplayType_eq_dec : EqDecision StatusDisplayType.
Proof. solve_decision. Defined.
#[export] Instance ActiveStatusDisplay_eq_dec : EqDecision ActiveStatusDisplay.
Proof. solve_decision. Defined.
#[export] Instance ScreenRef_eq_dec : EqDecision ScreenRef.
Proof. solve_decision. Defined.

(** Calls of the event listener. *)
Inductive Event := BufferChanged (type : ScreenType) | RequestWindowResize (size : PageSize) | SetWindowTitle (title : list Z).

(** What the terminal uses of its settings; the frozen modes in the order of the map. *)
Record Settings := mk_settings {
  set_pageSize : PageSize;
  allowReflowOnResize : bool;
  frozenModes : list (Z * bool);
  factoryStatusDisplay : StatusDisplayType;
  fastPipe : bool
}.
Definition with_pageSize (p : PageSize) (s : Settings) : Settings :=
  mk_settings p (allowReflowOnResize s) (frozenModes s) (factoryStatusDisplay s) (fastPipe s).

(** ** The stack of colour palettes *)

Record Palettes := mk_palettes {
  _colorPalette : ColorPalette;
  _defaultColorPalette : ColorPalette;
  _savedColorPalettes : list ColorPalette;
  _lastSavedColorPalette : nat
}.
Definition MaxColorPaletteSaveStackSize : nat := 10.
Definition setColorPalette (c : ColorPalette) (p : Palettes) : Palettes :=
  mk_palettes c (_defaultColorPalette p) (_savedColorPalettes p) (_lastSavedColorPalette p).
Definition resetColorPalette (p : Palettes) : Palettes := setColorPalette (_defaultColorPalette p) p.
(** [std::vector::resize] appends palettes [ColorPalette{}]. *)
Definition pushColorPalette (slot : nat) (p : Palettes) : Palettes :=
  if (MaxColorPaletteSaveStackSize <? slot)%nat then p
  else
    let stack := _savedColorPalettes p in
    let index := if (slot =? 0)%nat then (length stack - 1)%nat else (slot - 1)%nat in
    let stack := if (length stack <=? index)%nat
                 then stack ++ replicate (index + 1 - length stack) ColorPalette_init else stack in
    let lastSaved := if negb (slot =? 0)%nat && (_lastSavedColorPalette p <? length stack)%nat
                     then length stack else _lastSavedColorPalette p in
    mk_palettes (_colorPalette p) (_defaultColorPalette p) (<[index := _colorPalette p]> stack) lastSaved.
(** [None] is an index outside the vector. *)
Definition popColorPalette (slot : nat) (p : Palettes) : option Palettes :=
  match _savedColorPalettes p with
  | [] => Some p
  | stack =>
      let index := if (slot =? 0)%nat then (length stack - 1)%nat else (slot - 1)%nat in
      saved ← stack !! index;
      let p := setColorPalette saved p in
      Some (if (slot =? 0)%nat
            then mk_palettes (_colorPalette p) (_defaultColorPalette p) (removelast stack) (_lastSavedColorPalette p)
            else p)
  end.
(** The numbers of XTREPORTCOLORS. *)
Definition reportColorPaletteStack (p : Palettes) : list Z :=
  0x1B :: bytes "[" ++ to_string (Z.of_nat (length (_savedColorPalettes p))) ++ bytes ";"
  ++ to_string (Z.of_nat (_lastSavedColorPalette p)) ++ bytes "#Q".

(** Window titles; the top of the stack first. *)
Record Titles := mk_titles { _windowTitle : list Z; _savedWindowTitles : list (list Z) }.

(** ** State *)

Record Terminal (MC SC : Type) := mk_terminal {
  _primaryScreen : Screen.Screen MC;
  _alternateScreen : Screen.Screen MC;
  _hostWritableStatusLineScreen : Screen.Screen SC;
  _indicatorStatusScreen : Screen.Screen SC;
  _currentScreen : ScreenRef;
  _mainScreenMargin : Margin;
  _hostWritableScreenMargin : Margin;
  _indicatorScreenMargin : Margin;
  _modes : Modes;
  _tabs : list Z;
  _settings : Settings;
  _ptyPageSize : PageSize;
  _currentScreenType : ScreenType;
  _statusDisplayType : StatusDisplayType;
  _savedStatusDisplayType : option StatusDisplayType;
  _activeStatusDisplay : ActiveStatusDisplay;
  _inputGenerator : InputGenerator;
  _supportedVTSequences : SupportedSequences;
  _renderBufferUpdateEnabled : bool;
  _usePrivateColorRegisters : bool;
  _mousePosition : CellLocation;
  _viCursorPosition : CellLocation;
  _palettes : Palettes;
  _titles : Titles;
  _events : list Event
}.
Arguments mk_terminal {MC SC}.
Arguments _primaryScreen {MC SC}.
Arguments _alternateScreen {MC SC}.
Arguments _hostWritableStatusLineScreen {MC SC}.
Arguments _indicatorStatusScreen {MC SC}.
Arguments _currentScreen {MC SC}.
Arguments _mainScreenMargin {MC SC}.
Arguments _hostWritableScreenMargin {MC SC}.
Arguments _indicatorScreenMargin {MC SC}.
Arguments _modes {MC SC}.
Arguments _tabs {MC SC}.
Arguments _settings {MC SC}.
Arguments _ptyPageSize {MC SC}.
Arguments _currentScreenType {MC SC}.
Arguments _statusDisplayType {MC SC}.
Arguments _savedStatusDisplayType {MC SC}.
Arguments _activeStatusDisplay {MC SC}.
Arguments _inputGenerator {MC SC}.
Arguments _supportedVTSequences {MC SC}.
Arguments _renderBufferUpdateEnabled {MC SC}.
Arguments _usePrivateColorRegisters {MC SC}.
Arguments _mousePosition {MC SC}.
Arguments _viCursorPosition {MC SC}.
Arguments _palettes {MC SC}.
Arguments _titles {MC SC}.
Arguments _events {MC SC}.

Section Terminal.
Context `{LibUnicode, UnicodeWidth, GraphemeSegmenter} {MC SC : Type} `{CM : !CellConcept MC} `{CS : !CellConcept SC}.
Abbreviation Terminal := (Terminal MC SC).
Implicit Types t : Terminal.

Definition with_primary (x : Screen.Screen MC) t : Terminal :=
  mk_terminal x (_alternateScreen t) (_hostWritableStatusLineScreen t) (_indicatorStatusScreen t)
    (_currentScreen t) (_mainScreenMargin t) (_hostWritableScreenMargin t) (_indicatorScreenMargin t) (_modes t)
    (_tabs t) (_settings t) (_ptyPageSize t) (_currentScreenType t) (_statusDisplayType t)
    (_savedStatusDisplayType t) (_activeStatusDisplay t) (_inputGenerator t) (_supportedVTSequences t)
    (_renderBufferUpdateEnabled t) (_usePrivateColorRegisters t) (_mousePosition t) (_viCursorPosition t)
    (_palettes t) (_titles t) (_events t).
Definition with_alternate (x : Screen.Screen MC) t : Terminal :=
  mk_terminal (_primaryScreen t) x (_hostWritableStatusLineScreen t) (_indicatorStatusScreen t)
    (_currentScreen t) (_mainScreenMargin t) (_hostWritableScreenMargin t) (_indicatorScreenMargin t) (_modes t)
    (_tabs t) (_settings t) (_ptyPageSize t) (_currentScreenType t) (_statusDisplayType t)
    (_savedStatusDisplayType t) (_activeStatusDisplay t) (_inputGenerator t) (_supportedVTSequences t)
    (_renderBufferUpdateEnabled t) (_usePrivateColorRegisters t) (_mousePosition t) (_viCursorPosition t)
    (_palettes t) (_titles t) (_events t).
Definition with_hostWritable (x : Screen.Screen SC) t : Terminal :=
  mk_terminal (_primaryScreen t) (_alternateScreen t) x (_indicatorStatusScreen t) (_currentScreen t)
    (_mainScreenMargin t) (_hostWritableScreenMargin t) (_indicatorScreenMargin t) (_modes t) (_tabs t)
    (_settings t) (_ptyPageSize t) (_currentScreenType t) (_statusDisplayType t) (_savedStatusDisplayType t)
    (_activeStatusDisplay t) (_inputGenerator t) (_supportedVTSequences t) (_renderBufferUpdateEnabled t)
    (_usePrivateColorRegisters t) (_mousePosition t) (_viCursorPosition t) (_palettes t) (_titles t) (_events t).
Definition with_indicator (x : Screen.Screen SC) t : Terminal :=
  mk_terminal (_primaryScreen t) (_alternateScreen t) (_hostWritableStatusLineScreen t) x (_currentScreen t)
    (_mainScreenMargin t) (_hostWritableScreenMargin t) (_indicatorScreenMargin t) (_modes t) (_tabs t)
    (_settings t) (_ptyPageSize t) (_currentScreenType t) (_statusDisplayType t) (_savedStatusDisplayType t)
    (_activeStatusDisplay t) (_inputGenerator t) (_supportedVTSequences t) (_renderBufferUpdateEnabled t)
    (_usePrivateColorRegisters t) (_mousePosition t) (_viCursorPosition t) (_palettes t) (_titles t) (_events t).
Definition with_current (x : ScreenRef) t : Terminal :=
  mk_terminal (_primaryScreen t) (_alternateScreen t) (_hostWritableStatusLineScreen t)
    (_indicatorStatusScreen t) x (_mainScreenMargin t) (_hostWritableScreenMargin t) (_indicatorScreenMargin t)
    (_modes t) (_tabs t) (_settings t) (_ptyPageSize t) (_currentScreenType t) (_statusDisplayType t)
    (_savedStatusDisplayType t) (_activeStatusDisplay t) (_inputGenerator t) (_supportedVTSequences t)
    (_renderBufferUpdateEnabled t) (_usePrivateColorRegisters t) (_mousePosition t) (_viCursorPosition t)
    (_palettes t) (_titles t) (_events t).
Definition with_mainMargin (x : Margin) t : Terminal :=
  mk_terminal (_primaryScreen t) (_alternateScreen t) (_hostWritableStatusLineScreen t)
    (_indicatorStatusScreen t) (_currentScreen t) x (_hostWritableScreenMargin t) (_indicatorScreenMargin t)
    (_modes t) (_tabs t) (_settings t) (_ptyPageSize t) (_currentScreenType t) (_statusDisplayType t)
    (_savedStatusDisplayType t) (_activeStatusDisplay t) (_inputGenerator t) (_supportedVTSequences t)
    (_renderBufferUpdateEnabled t) (_usePrivateColorRegisters t) (_mousePosition t) (_viCursorPosition t)
    (_palettes t) (_titles t) (_events t).
Definition with_hostMargin (x : Margin) t : Terminal :=
  mk_terminal (_primaryScreen t) (_alternateScreen t) (_hostWritableStatusLineScreen t)
    (_indicatorStatusScreen t) (_currentScreen t) (_mainScreenMargin t) x (_indicatorScreenMargin t) (_modes t)
    (_tabs t) (_settings t) (_ptyPageSize t) (_currentScreenType t) (_statusDisplayType t)
    (_savedStatusDisplayType t) (_activeStatusDisplay t) (_inputGenerator t) (_supportedVTSequences t)
    (_renderBufferUpdateEnabled t) (_usePrivateColorRegisters t) (_mousePosition t) (_viCursorPosition t)
    (_palettes t) (_titles t) (_events t).
Definition with_indicatorMargin (x : Margin) t : Terminal :=
  mk_terminal (_primaryScreen t) (_alternateScreen t) (_hostWritableStatusLineScreen t)
    (_indicatorStatusScreen t) (_currentScreen t) (_mainScreenMargin t) (_hostWritableScreenMargin t) x (_modes
    t) (_tabs t) (_settings t) (_ptyPageSize t) (_currentScreenType t) (_statusDisplayType t)
    (_savedStatusDisplayType t) (_activeStatusDisplay t) (_inputGenerator t) (_supportedVTSequences t)
    (_renderBufferUpdateEnabled t) (_usePrivateColorRegisters t) (_mousePosition t) (_viCursorPosition t)
    (_palettes t) (_titles t) (_events t).
Definition with_modes (x : Modes) t : Terminal :=
  mk_terminal (_primaryScreen t) (_alternateScreen t) (_hostWritableStatusLineScreen t)
    (_indicatorStatusScreen t) (_currentScreen t) (_mainScreenMargin t) (_hostWritableScreenMargin t)
    (_indicatorScreenMargin t) x (_tabs t) (_settings t) (_ptyPageSize t) (_currentScreenType t)
    (_statusDisplayType t) (_savedStatusDisplayType t) (_activeStatusDisplay t) (_inputGenerator t)
    (_supportedVTSequences t) (_renderBufferUpdateEnabled t) (_usePrivateColorRegisters t) (_mousePosition t)
    (_viCursorPosition t) (_palettes t) (_titles t) (_events t).
Definition with_tabs (x : list Z) t : Terminal :=
  mk_terminal (_primaryScreen t) (_alternateScreen t) (_hostWritableStatusLineScreen t)
    (_indicatorStatusScreen t) (_currentScreen t) (_mainScreenMargin t) (_hostWritableScreenMargin t)
    (_indicatorScreenMargin t) (_modes t) x (_settings t) (_ptyPageSize t) (_currentScreenType t)
    (_statusDisplayType t) (_savedStatusDisplayType t) (_activeStatusDisplay t) (_inputGenerator t)
    (_supportedVTSequences t) (_renderBufferUpdateEnabled t) (_usePrivateColorRegisters t) (_mousePosition t)
    (_viCursorPosition t) (_palettes t) (_titles t) (_events t).
Definition with_settings (x : Settings) t : Terminal :=
  mk_terminal (_primaryScreen t) (_alternateScreen t) (_hostWritableStatusLineScreen t)
    (_indicatorStatusScreen t) (_currentScreen t) (_mainScreenMargin t) (_hostWritableScreenMargin t)
    (_indicatorScreenMargin t) (_modes t) (_tabs t) x (_ptyPageSize t) (_currentScreenType t)
    (_statusDisplayType t) (_savedStatusDisplayType t) (_activeStatusDisplay t) (_inputGenerator t)
    (_supportedVTSequences t) (_renderBufferUpdateEnabled t) (_usePrivateColorRegisters t) (_mousePosition t)
    (_viCursorPosition t) (_palettes t) (_titles t) (_events t).
Definition with_ptyPageSize (x : PageSize) t : Terminal :=
  mk_terminal (_primaryScreen t) (_alternateScreen t) (_hostWritableStatusLineScreen t)
    (_indicatorStatusScreen t) (_currentScreen t) (_mainScreenMargin t) (_hostWritableScreenMargin t)
    (_indicatorScreenMargin t) (_modes t) (_tabs t) (_settings t) x (_currentScreenType t) (_statusDisplayType
    t) (_savedStatusDisplayType t) (_activeStatusDisplay t) (_inputGenerator t) (_supportedVTSequences t)
    (_renderBufferUpdateEnabled t) (_usePrivateColorRegisters t) (_mousePosition t) (_viCursorPosition t)
    (_palettes t) (_titles t) (_events t).
Definition with_screenType (x : ScreenType) t : Terminal :=
  mk_terminal (_primaryScreen t) (_alternateScreen t) (_hostWritableStatusLineScreen t)
    (_indicatorStatusScreen t) (_currentScreen t) (_mainScreenMargin t) (_hostWritableScreenMargin t)
    (_indicatorScreenMargin t) (_modes t) (_tabs t) (_settings t) (_ptyPageSize t) x (_statusDisplayType t)
    (_savedStatusDisplayType t) (_activeStatusDisplay t) (_inputGenerator t) (_supportedVTSequences t)
    (_renderBufferUpdateEnabled t) (_usePrivateColorRegisters t) (_mousePosition t) (_viCursorPosition t)
    (_palettes t) (_titles t) (_events t).
Definition with_statusDisplayType (x : StatusDisplayType) t : Terminal :=
  mk_terminal (_primaryScreen t) (_alternateScreen t) (_hostWritableStatusLineScreen t)
    (_indicatorStatusScreen t) (_currentScreen t) (_mainScreenMargin t) (_hostWritableScreenMargin t)
    (_indicatorScreenMargin t) (_modes t) (_tabs t) (_settings t) (_ptyPageSize t) (_currentScreenType t) x
    (_savedStatusDisplayType t) (_activeStatusDisplay t) (_inputGenerator t) (_supportedVTSequences t)
    (_renderBufferUpdateEnabled t) (_usePrivateColorRegisters t) (_mousePosition t) (_viCursorPosition t)
    (_palettes t) (_titles t) (_events t).
Definition with_savedStatusDisplayType (x : option StatusDisplayType) t : Terminal :=
  mk_terminal (_primaryScreen t) (_alternateScreen t) (_hostWritableStatusLineScreen t)
    (_indicatorStatusScreen t) (_currentScreen t) (_mainScreenMargin t) (_hostWritableScreenMargin t)
    (_indicatorScreenMargin t) (_modes t) (_tabs t) (_settings t) (_ptyPageSize t) (_currentScreenType t)
    (_statusDisplayType t) x (_activeStatusDisplay t) (_inputGenerator t) (_supportedVTSequences t)
    (_renderBufferUpdateEnabled t) (_usePrivateColorRegisters t) (_mousePosition t) (_viCursorPosition t)
    (_palettes t) (_titles t) (_events t).
Definition with_activeStatusDisplay (x : ActiveStatusDisplay) t : Terminal :=
  mk_terminal (_primaryScreen t) (_alternateScreen t) (_hostWritableStatusLineScreen t)
    (_indicatorStatusScreen t) (_currentScreen t) (_mainScreenMargin t) (_hostWritableScreenMargin t)
    (_indicatorScreenMargin t) (_modes t) (_tabs t) (_settings t) (_ptyPageSize t) (_currentScreenType t)
    (_statusDisplayType t) (_savedStatusDisplayType t) x (_inputGenerator t) (_supportedVTSequences t)
    (_renderBufferUpdateEnabled t) (_usePrivateColorRegisters t) (_mousePosition t) (_viCursorPosition t)
    (_palettes t) (_titles t) (_events t).
Definition with_inputGenerator (x : InputGenerator) t : Terminal :=
  mk_terminal (_primaryScreen t) (_alternateScreen t) (_hostWritableStatusLineScreen t)
    (_indicatorStatusScreen t) (_currentScreen t) (_mainScreenMargin t) (_hostWritableScreenMargin t)
    (_indicatorScreenMargin t) (_modes t) (_tabs t) (_settings t) (_ptyPageSize t) (_currentScreenType t)
    (_statusDisplayType t) (_savedStatusDisplayType t) (_activeStatusDisplay t) x (_supportedVTSequences t)
    (_renderBufferUpdateEnabled t) (_usePrivateColorRegisters t) (_mousePosition t) (_viCursorPosition t)
    (_palettes t) (_titles t) (_events t).
Definition with_sequences (x : SupportedSequences) t : Terminal :=
  mk_terminal (_primaryScreen t) (_alternateScreen t) (_hostWritableStatusLineScreen t)
    (_indicatorStatusScreen t) (_currentScreen t) (_mainScreenMargin t) (_hostWritableScreenMargin t)
    (_indicatorScreenMargin t) (_modes t) (_tabs t) (_settings t) (_ptyPageSize t) (_currentScreenType t)
    (_statusDisplayType t) (_savedStatusDisplayType t) (_activeStatusDisplay t) (_inputGenerator t) x
    (_renderBufferUpdateEnabled t) (_usePrivateColorRegisters t) (_mousePosition t) (_viCursorPosition t)
    (_palettes t) (_titles t) (_events t).
Definition with_renderBuffer (x : bool) t : Terminal :=
  mk_terminal (_primaryScreen t) (_alternateScreen t) (_hostWritableStatusLineScreen t)
    (_indicatorStatusScreen t) (_currentScreen t) (_mainScreenMargin t) (_hostWritableScreenMargin t)
    (_indicatorScreenMargin t) (_modes t) (_tabs t) (_settings t) (_ptyPageSize t) (_currentScreenType t)
    (_statusDisplayType t) (_savedStatusDisplayType t) (_activeStatusDisplay t) (_inputGenerator t)
    (_supportedVTSequences t) x (_usePrivateColorRegisters t) (_mousePosition t) (_viCursorPosition t)
    (_palettes t) (_titles t) (_events t).
Definition with_privateRegisters (x : bool) t : Terminal :=
  mk_terminal (_primaryScreen t) (_alternateScreen t) (_hostWritableStatusLineScreen t)
    (_indicatorStatusScreen t) (_currentScreen t) (_mainScreenMargin t) (_hostWritableScreenMargin t)
    (_indicatorScreenMargin t) (_modes t) (_tabs t) (_settings t) (_ptyPageSize t) (_currentScreenType t)
    (_statusDisplayType t) (_savedStatusDisplayType t) (_activeStatusDisplay t) (_inputGenerator t)
    (_supportedVTSequences t) (_renderBufferUpdateEnabled t) x (_mousePosition t) (_viCursorPosition t)
    (_palettes t) (_titles t) (_events t).
Definition with_mousePosition (x : CellLocation) t : Terminal :=
  mk_terminal (_primaryScreen t) (_alternateScreen t) (_hostWritableStatusLineScreen t)
    (_indicatorStatusScreen t) (_currentScreen t) (_mainScreenMargin t) (_hostWritableScreenMargin t)
    (_indicatorScreenMargin t) (_modes t) (_tabs t) (_settings t) (_ptyPageSize t) (_currentScreenType t)
    (_statusDisplayType t) (_savedStatusDisplayType t) (_activeStatusDisplay t) (_inputGenerator t)
    (_supportedVTSequences t) (_renderBufferUpdateEnabled t) (_usePrivateColorRegisters t) x (_viCursorPosition
    t) (_palettes t) (_titles t) (_events t).
Definition with_viCursor (x : CellLocation) t : Terminal :=
  mk_terminal (_primaryScreen t) (_alternateScreen t) (_hostWritableStatusLineScreen t)
    (_indicatorStatusScreen t) (_currentScreen t) (_mainScreenMargin t) (_hostWritableScreenMargin t)
    (_indicatorScreenMargin t) (_modes t) (_tabs t) (_settings t) (_ptyPageSize t) (_currentScreenType t)
    (_statusDisplayType t) (_savedStatusDisplayType t) (_activeStatusDisplay t) (_inputGenerator t)
    (_supportedVTSequences t) (_renderBufferUpdateEnabled t) (_usePrivateColorRegisters t) (_mousePosition t) x
    (_palettes t) (_titles t) (_events t).
Definition with_palettes (x : Palettes) t : Terminal :=
  mk_terminal (_primaryScreen t) (_alternateScreen t) (_hostWritableStatusLineScreen t)
    (_indicatorStatusScreen t) (_currentScreen t) (_mainScreenMargin t) (_hostWritableScreenMargin t)
    (_indicatorScreenMargin t) (_modes t) (_tabs t) (_settings t) (_ptyPageSize t) (_currentScreenType t)
    (_statusDisplayType t) (_savedStatusDisplayType t) (_activeStatusDisplay t) (_inputGenerator t)
    (_supportedVTSequences t) (_renderBufferUpdateEnabled t) (_usePrivateColorRegisters t) (_mousePosition t)
    (_viCursorPosition t) x (_titles t) (_events t).
Definition with_titles (x : Titles) t : Terminal :=
  mk_terminal (_primaryScreen t) (_alternateScreen t) (_hostWritableStatusLineScreen t)
    (_indicatorStatusScreen t) (_currentScreen t) (_mainScreenMargin t) (_hostWritableScreenMargin t)
    (_indicatorScreenMargin t) (_modes t) (_tabs t) (_settings t) (_ptyPageSize t) (_currentScreenType t)
    (_statusDisplayType t) (_savedStatusDisplayType t) (_activeStatusDisplay t) (_inputGenerator t)
    (_supportedVTSequences t) (_renderBufferUpdateEnabled t) (_usePrivateColorRegisters t) (_mousePosition t)
    (_viCursorPosition t) (_palettes t) x (_events t).
Definition with_events (x : list Event) t : Terminal :=
  mk_terminal (_primaryScreen t) (_alternateScreen t) (_hostWritableStatusLineScreen t)
    (_indicatorStatusScreen t) (_currentScreen t) (_mainScreenMargin t) (_hostWritableScreenMargin t)
    (_indicatorScreenMargin t) (_modes t) (_tabs t) (_settings t) (_ptyPageSize t) (_currentScreenType t)
    (_statusDisplayType t) (_savedStatusDisplayType t) (_activeStatusDisplay t) (_inputGenerator t)
    (_supportedVTSequences t) (_renderBufferUpdateEnabled t) (_usePrivateColorRegisters t) (_mousePosition t)
    (_viCursorPosition t) (_palettes t) (_titles t) x.

(** ** Screens and their shared state *)

Definition screen_mode (m : Screen.DECMode) : Z :=
  match m with AutoWrap => Mode.AutoWrap | Origin => Mode.Origin | LeftRightMargin => Mode.LeftRightMargin end.
Definition isModeEnabled t (m : Z) : bool := Modes.enabled (_modes t) m.
Definition shared t : TerminalState :=
  mkTerm (_tabs t) (fun m => Modes.enabled (_modes t) (screen_mode m)) (fun m => frozen (_modes t) (screen_mode m))
    (ansi_enabled (_modes t) AnsiMode.AutomaticNewLine) (fastPipe (_settings t)).
Definition load {C} t (s : Screen.Screen C) (m : Margin) : Screen.Screen C := with_terminal (with_margin s m) (shared t).

(** The modes as a screen left them. *)
Definition unload_mode (st : TerminalState) (ms : Modes) (m : Screen.DECMode) : Modes :=
  mk_modes (_ansi ms) (put_bit (screen_mode m) (modeEnabled st m) (_dec ms)) (_decFrozen ms) (_savedModes ms).
Definition unload_modes (st : TerminalState) (ms : Modes) : Modes :=
  foldl (unload_mode st) ms [AutoWrap; Origin; LeftRightMargin].
Definition unload (st : TerminalState) t : Terminal := with_tabs (tabs st) (with_modes (unload_modes st (_modes t)) t).

(** An operation of a screen, for either type of cell. *)
Definition ScreenOp : Type := forall C, CellConcept C -> Screen.Screen C -> option (Screen.Screen C).
Definition on_screen (r : ScreenRef) (f : ScreenOp) t : option Terminal :=
  match r with
  | PrimaryRef =>
      s ← f _ _ (load t (_primaryScreen t) (_mainScreenMargin t));
      Some (unload (_terminal s) (with_mainMargin (_margin s) (with_primary s t)))
  | AlternateRef =>
      s ← f _ _ (load t (_alternateScreen t) (_mainScreenMargin t));
      Some (unload (_terminal s) (with_mainMargin (_margin s) (with_alternate s t)))
  | HostWritableRef =>
      s ← f _ _ (load t (_hostWritableStatusLineScreen t) (_hostWritableScreenMargin t));
      Some (unload (_terminal s) (with_hostMargin (_margin s) (with_hostWritable s t)))
  | IndicatorRef =>
      s ← f _ _ (load t (_indicatorStatusScreen t) (_indicatorScreenMargin t));
      Some (unload (_terminal s) (with_indicatorMargin (_margin s) (with_indicator s t)))
  end.
(** A change of the cursor of a screen. *)
Definition on_cursor (r : ScreenRef) (f : Cursor -> Cursor) t : Terminal :=
  match r with
  | PrimaryRef => with_primary (with_cursor (_primaryScreen t) (f (_cursor (_primaryScreen t)))) t
  | AlternateRef => with_alternate (with_cursor (_alternateScreen t) (f (_cursor (_alternateScreen t)))) t
  | HostWritableRef =>
      with_hostWritable (with_cursor (_hostWritableStatusLineScreen t) (f (_cursor (_hostWritableStatusLineScreen t)))) t
  | IndicatorRef => with_indicator (with_cursor (_indicatorStatusScreen t) (f (_cursor (_indicatorStatusScreen t)))) t
  end.
Definition cursor_of (r : ScreenRef) t : Cursor :=
  match r with
  | PrimaryRef => _cursor (_primaryScreen t)
  | AlternateRef => _cursor (_alternateScreen t)
  | HostWritableRef => _cursor (_hostWritableStatusLineScreen t)
  | IndicatorRef => _cursor (_indicatorStatusScreen t)
  end.
Definition savedCursor_of (r : ScreenRef) t : Cursor :=
  match r with
  | PrimaryRef => _savedCursor (_primaryScreen t)
  | AlternateRef => _savedCursor (_alternateScreen t)
  | HostWritableRef => _savedCursor (_hostWritableStatusLineScreen t)
  | IndicatorRef => _savedCursor (_indicatorStatusScreen t)
  end.

Definition screen_ref (type : ScreenType) : ScreenRef :=
  match type with Primary => PrimaryRef | Alternate => AlternateRef end.
(** [activeDisplay]: where output goes. *)
Definition activeDisplay t : ScreenRef :=
  match _activeStatusDisplay t with
  | MainDisplay => _currentScreen t
  | StatusLine => HostWritableRef
  | IndicatorStatusLine => IndicatorRef
  end.
Definition isPrimaryScreen t : bool := bool_decide (_currentScreenType t = Primary).

(** ** Page size *)

Definition statusLineHeight t : Z :=
  match _statusDisplayType t with
  | NoStatusLine => 0
  | Indicator => lines (pageSize (_indicatorStatusScreen t))
  | HostWritable => lines (pageSize (_hostWritableStatusLineScreen t))
  end.
Definition page_minus (p : PageSize) (n : Z) : PageSize := mkPageSize (lines p - n) (columns p).
Definition totalPageSize t : PageSize := set_pageSize (_settings t).
Definition mainDisplayPageSize t : PageSize := page_minus (totalPageSize t) (statusLineHeight t).

Definition clampToTotal t (p : CellLocation) : CellLocation :=
  mkLoc (clamp (line p) 0 (lines (totalPageSize t) - 1)) (clamp (column p) 0 (columns (totalPageSize t) - 1)).

Fixpoint truncate_tabs (rev_tabs : list Z) (limit : Z) : list Z :=
  match rev_tabs with
  | x :: l => if limit <=? x then truncate_tabs l limit else rev_tabs
  | [] => []
  end.

(** [grid().resize({1, columns}, {}, false)] of a status line. *)
Definition resize_status_line t (s : Screen.Screen SC) : option (Screen.Screen SC) :=
  '(g, _) ← grid_resize (_grid s) (mkPageSize 1 (columns (totalPageSize t))) (mkLoc 0 0) false;
  Some (with_grid s g).

Definition terminal_applyPageSize (type : ScreenType) t : option Terminal :=
  t ← on_screen (screen_ref type) (fun C _ s => applyPageSizeToMainDisplay s (mainDisplayPageSize t)) t;
  h ← resize_status_line t (_hostWritableStatusLineScreen t);
  i ← resize_status_line t (_indicatorStatusScreen t);
  let t := with_indicator i (with_hostWritable h t) in
  let m := mkMargin (mkRange 0 (statusLineHeight t - 1)) (mkRange 0 (columns (totalPageSize t) - 1)) in
  let t := with_hostMargin m (with_indicatorMargin m t) in
  Some (with_tabs (reverse (truncate_tabs (reverse (_tabs t)) (columns (totalPageSize t)))) t).
Definition applyPageSizeToCurrentBuffer t : option Terminal := terminal_applyPageSize (_currentScreenType t) t.

(** [verifyState], of debug builds. *)
Definition currentScreen_verifies t : bool :=
  match _currentScreen t with
  | PrimaryRef => screen_verifyState (_primaryScreen t)
  | AlternateRef => screen_verifyState (_alternateScreen t)
  | HostWritableRef => screen_verifyState (_hostWritableStatusLineScreen t)
  | IndicatorRef => screen_verifyState (_indicatorStatusScreen t)
  end.
Definition terminal_verifyState t : bool :=
  let p := totalPageSize t in
  let h := pageSize (_hostWritableStatusLineScreen t) in
  let i := pageSize (_indicatorStatusScreen t) in
  let m := _mainScreenMargin t in
  (column (_mousePosition t) <? columns p) && (line (_mousePosition t) <? lines p)
  && (lines h =? lines i) && (columns h =? columns i) && (lines h =? 1) && (columns h =? columns p) && (columns i =? columns p)
  && (match last (_tabs t) with Some x => x <? columns p | None => true end)
  && currentScreen_verifies t
  && (0 <=? from (horizontal m)) && (to (horizontal m) <? columns (_ptyPageSize t))
  && (0 <=? from (vertical m)) && (to (vertical m) <? lines (_ptyPageSize t)).

(** [resizeScreen] without a pixel size; [None] if a check fails. *)
Definition resizeScreen (total : PageSize) t : option Terminal :=
  let main := page_minus total (statusLineHeight t) in
  let old := totalPageSize t in
  let t := with_settings (with_pageSize total (_settings t)) t in
  let t := with_mousePosition (clampToTotal t (_mousePosition t)) t in
  let t := with_mainMargin (full_margin main) t in
  t ← applyPageSizeToCurrentBuffer t;
  let t := with_ptyPageSize main t in
  let vi := _viCursorPosition t in
  let vi := mkLoc (line vi + (lines main - lines old)) (column vi) in
  let t := with_viCursor (clampToTotal t vi) t in
  if terminal_verifyState t then Some t else None.

(** ** Status lines *)

Definition visible (d : StatusDisplayType) : bool := negb (bool_decide (d = NoStatusLine)).
Definition setStatusDisplay (d : StatusDisplayType) t : option Terminal :=
  if bool_decide (_currentScreen t = IndicatorRef) then None
  else if bool_decide (_statusDisplayType t = d) then Some t
  else
    let t' := with_statusDisplayType d t in
    if negb (Bool.eqb (visible (_statusDisplayType t)) (visible d)) then resizeScreen (totalPageSize t') t' else Some t'.
Definition setActiveStatusDisplay (d : ActiveStatusDisplay) t : Terminal :=
  if bool_decide (_activeStatusDisplay t = d) then t
  else
    let t := with_activeStatusDisplay d t in
    with_current (match d with
                  | MainDisplay => screen_ref (_currentScreenType t)
                  | StatusLine => HostWritableRef
                  | IndicatorStatusLine => IndicatorRef
                  end) t.
Definition pushStatusDisplay (d : StatusDisplayType) t : option Terminal :=
  let t := match _savedStatusDisplayType t with
           | None => with_savedStatusDisplayType (Some (_statusDisplayType t)) t
           | Some _ => t
           end in
  setStatusDisplay d t.
Definition popStatusDisplay t : option Terminal :=
  match _savedStatusDisplayType t with
  | None => Some t
  | Some d => t ← setStatusDisplay d t; Some (with_savedStatusDisplayType None t)
  end.

(** ** Modes *)

Definition on_input (f : InputGenerator -> InputGenerator) t : Terminal :=
  with_inputGenerator (f (_inputGenerator t)) t.
Definition emit_event (e : Event) t : Terminal := with_events (_events t ++ [e]) t.

Definition setScreen (type : ScreenType) t : option Terminal :=
  if bool_decide (type = _currentScreenType t) then Some t
  else
    let t := with_current (screen_ref type) t in
    let wheel := match type with
                 | Primary => DefaultWheel
                 | Alternate =>
                     if isModeEnabled t Mode.MouseAlternateScroll then ApplicationCursorKeys else NormalCursorKeys
                 end in
    let t := with_screenType type (on_input (setMouseWheelMode wheel) t) in
    t ← applyPageSizeToCurrentBuffer t;
    Some (emit_event (BufferChanged type) t).

Definition terminal_clearScreen t : option Terminal :=
  on_screen (screen_ref (_currentScreenType t)) (fun C _ s => clearScreen s) t.

(** The page is the one of the device. *)
Definition terminal_setTopBottomMargin (top bottom : option Z) t : Terminal :=
  let defaultBottom := lines (_ptyPageSize t) - 1 in
  let sanitizedTop := Z.max 0 (default 0 top) in
  let sanitizedBottom := Z.min defaultBottom (default defaultBottom bottom) in
  if sanitizedTop <? sanitizedBottom
  then with_mainMargin (mkMargin (mkRange sanitizedTop sanitizedBottom) (horizontal (_mainScreenMargin t))) t else t.
Definition terminal_setLeftRightMargin (left right : option Z) t : Terminal :=
  let defaultRight := columns (_ptyPageSize t) - 1 in
  let sanitizedRight := Z.min (default defaultRight right) defaultRight in
  let sanitizedLeft := Z.max (default 0 left) 0 in
  if sanitizedLeft <? sanitizedRight
  then with_mainMargin (mkMargin (vertical (_mainScreenMargin t)) (mkRange sanitizedLeft sanitizedRight)) t else t.

Definition setMouse (m : MouseTransport) (enable : bool) t : Terminal :=
  on_input (setMouseTransport (if enable then m else DefaultTransport)) t.
Definition setWheel (enable : bool) t : Terminal :=
  on_input (setMouseWheelMode (if enable then ApplicationCursorKeys else NormalCursorKeys)) t.

(** DECLRMM. *)
Definition mode_LeftRightMargin (enable : bool) t : option Terminal :=
  sequences ← Functions.setLeftRightMargin enable (_supportedVTSequences t);
  let t := with_sequences sequences t in
  Some (if enable then t
        else with_mainMargin (mkMargin (vertical (_mainScreenMargin t))
                                (mkRange 0 (columns (totalPageSize t) - 1))) t).
(** DECCOLM; [setMode] is the call back. *)
Definition mode_Columns132 (setMode : Z -> bool -> Terminal -> option Terminal) (enable : bool) t : option Terminal :=
  if negb (isModeEnabled t Mode.AllowColumns80to132) then Some t
  else
    let t := terminal_setTopBottomMargin None None t in
    let t := terminal_setLeftRightMargin None None t in
    t ← setMode Mode.LeftRightMargin false t;
    t ← (if bool_decide (_statusDisplayType t = HostWritable)
         then on_screen HostWritableRef (fun C _ s => clearScreen s) t else Some t);
    t ← terminal_clearScreen t;
    Some (emit_event (RequestWindowResize (mkPageSize (lines (totalPageSize t)) (if enable then 132 else 80))) t).
(** Enabling concerns the whole page, disabling the lines from the cursor on. *)
Definition mode_TextReflow (enable : bool) t : option Terminal :=
  if allowReflowOnResize (_settings t) && isPrimaryScreen t then
    let startLine := if enable then 0 else line (position (cursor_of (_currentScreen t) t)) in
    g ← update_lines (_grid (_primaryScreen t)) (fun l => Some (setWrappable l enable)) startLine
          (Z.to_nat (lines (totalPageSize t) - startLine));
    Some (with_primary (with_grid (_primaryScreen t) g) t)
  else Some t.

(** The switch of [setMode]. *)
Definition mode_effect (setMode : Z -> bool -> Terminal -> option Terminal) (mode : Z) (enable : bool) t
  : option Terminal :=
  if mode =? Mode.AutoWrap then Some (on_cursor (_currentScreen t) (fun c => set_modes c enable (originMode c)) t)
  else if mode =? Mode.LeftRightMargin then mode_LeftRightMargin enable t
  else if mode =? Mode.Origin then Some (on_cursor (_currentScreen t) (fun c => set_modes c (autoWrap c) enable) t)
  else if mode =? Mode.Columns132 then mode_Columns132 setMode enable t
  else if mode =? Mode.BatchedRendering then
    Some (if Bool.eqb (isModeEnabled t Mode.BatchedRendering) enable then t else with_renderBuffer (negb enable) t)
  else if mode =? Mode.TextReflow then mode_TextReflow enable t
  else if mode =? Mode.UseAlternateScreen then setScreen (if enable then Alternate else Primary) t
  else if mode =? Mode.UseApplicationCursorKeys then
    let t := on_input (setCursorKeysMode (if enable then ApplicationKeys else NormalKeys)) t in
    Some (if isPrimaryScreen t then t else setWheel enable t)
  else if mode =? Mode.BracketedPaste then Some (on_input (setBracketedPaste enable) t)
  else if mode =? Mode.MouseSGR then Some (setMouse SGR enable t)
  else if mode =? Mode.MouseExtended then Some (setMouse Extended true t)
  else if mode =? Mode.MouseURXVT then Some (setMouse URXVT true t)
  else if mode =? Mode.MousePassiveTracking then
    let t := on_input (setPassiveMouseTracking enable) t in
    t ← setMode Mode.MouseSGR enable t;
    setMode Mode.MouseProtocolButtonTracking enable t
  else if mode =? Mode.MouseSGRPixels then Some (setMouse SGRPixels enable t)
  else if mode =? Mode.MouseAlternateScroll then Some (setWheel enable t)
  else if mode =? Mode.FocusTracking then Some (on_input (setGenerateFocusEvents enable) t)
  else if mode =? Mode.UsePrivateColorRegisters then Some (with_privateRegisters enable t)
  else if mode =? Mode.MouseProtocolX10 then Some (on_input (setMouseProtocol X10 enable) t)
  else if mode =? Mode.MouseProtocolNormalTracking then Some (on_input (setMouseProtocol NormalTracking enable) t)
  else if mode =? Mode.MouseProtocolHighlightTracking then Some (on_input (setMouseProtocol HighlightTracking enable) t)
  else if mode =? Mode.MouseProtocolButtonTracking then Some (on_input (setMouseProtocol ButtonTracking enable) t)
  else if mode =? Mode.MouseProtocolAnyEventTracking then Some (on_input (setMouseProtocol AnyEventTracking enable) t)
  else if mode =? Mode.SaveCursor then
    on_screen (_currentScreen t) (fun C _ s => if enable then Some (saveCursor s) else restoreCursor s) t
  else if mode =? Mode.ExtendedAltScreen then
    t ← setMode Mode.UseAlternateScreen enable t;
    if enable then terminal_clearScreen t else Some t
  else Some t.

Fixpoint setMode_fuel (fuel : nat) (mode : Z) (enable : bool) t : option Terminal :=
  if negb (isValidDECMode mode) then Some t
  else if frozen (_modes t) mode then Some t
  else
    match fuel with
    | O => None
    | S fuel =>
        t ← mode_effect (setMode_fuel fuel) mode enable t;
        Some (with_modes (set_dec mode enable (_modes t)) t)
    end.
(** The modes that set further modes are one level deep. *)
Definition setMode : Z -> bool -> Terminal -> option Terminal := setMode_fuel 2.

Definition terminal_setAnsiMode (mode : Z) (enable : bool) t : option Terminal :=
  if negb (isValidAnsiMode mode) then Some t
  else
    t ← (if mode =? AnsiMode.KeyboardAction
         then if enable then pushStatusDisplay Indicator t else popStatusDisplay t else Some t);
    Some (with_modes (set_ansi mode enable (_modes t)) t).

Definition freezeMode (mode : Z) (enable : bool) t : option Terminal :=
  t ← setMode mode enable t; Some (with_modes (freeze mode (_modes t)) t).
Definition unfreezeMode (mode : Z) t : Terminal := with_modes (unfreeze mode (_modes t)) t.
(** Only the bits are restored. *)
Definition saveModes (modes : list Z) t : Terminal := with_modes (save modes (_modes t)) t.
Definition restoreModes (modes : list Z) t : Terminal := with_modes (restore modes (_modes t)) t.

(** [saveDECModes] and [restoreDECModes]: the parameters that name a mode. *)
Definition sequence_modes (seq : Sequence) : option (list Z) :=
  values ← mapM (fun i => param seq i) (List.seq 0 (parameterCount seq)); Some (omap number_mode values).
Definition saveDECModes (seq : Sequence) t : option Terminal :=
  modes ← sequence_modes seq; Some (saveModes modes t).
Definition restoreDECModes (seq : Sequence) t : option Terminal :=
  modes ← sequence_modes seq; Some (restoreModes modes t).

(** ** Titles *)

Definition setWindowTitle (title : list Z) t : Terminal :=
  emit_event (SetWindowTitle title) (with_titles (mk_titles title (_savedWindowTitles (_titles t))) t).
Definition saveWindowTitle t : Terminal :=
  with_titles (mk_titles (_windowTitle (_titles t)) (_windowTitle (_titles t) :: _savedWindowTitles (_titles t))) t.
Definition restoreWindowTitle t : Terminal :=
  match _savedWindowTitles (_titles t) with
  | [] => t
  | title :: rest => setWindowTitle title (with_titles (mk_titles title rest) t)
  end.

(** ** Resets *)

Definition on_palettes (f : Palettes -> Palettes) t : Terminal := with_palettes (f (_palettes t)) t.
Definition set_hyperlink (c : Cursor) (h : HyperlinkId) : Cursor :=
  mkCursor (position c) (autoWrap c) (originMode c) (wrapPending c) (graphicsRendition c) (charsets c) h.

(** DECSTR. *)
Definition softReset t : option Terminal :=
  t ← setMode Mode.BatchedRendering false t;
  t ← setMode Mode.TextReflow (allowReflowOnResize (_settings t)) t;
  let t := on_cursor (_currentScreen t) (fun c => set_rendition c Attrs_init) t in
  t ← on_screen (_currentScreen t) (fun C _ s => Some (with_saved s Cursor_init)) t;
  t ← setMode Mode.VisibleCursor true t;
  t ← setMode Mode.Origin false t;
  t ← terminal_setAnsiMode AnsiMode.KeyboardAction false t;
  t ← setMode Mode.AutoWrap false t;
  t ← terminal_setAnsiMode AnsiMode.Insert false t;
  t ← setMode Mode.UseApplicationCursorKeys false t;
  let t := terminal_setTopBottomMargin None (Some (lines (totalPageSize t) - 1)) t in
  let t := terminal_setLeftRightMargin None (Some (columns (totalPageSize t) - 1)) t in
  let t := on_cursor (_currentScreen t) (fun c => set_hyperlink c 0) t in
  let t := on_palettes resetColorPalette t in
  setStatusDisplay NoStatusLine (setActiveStatusDisplay MainDisplay t).

Fixpoint freezeModes (l : list (Z * bool)) t : option Terminal :=
  match l with
  | [] => Some t
  | (mode, b) :: l => t ← freezeMode mode b t; freezeModes l t
  end.
(** The modes a terminal starts with. *)
Definition initial_modes t : option Terminal :=
  t ← setMode Mode.AutoWrap true t;
  t ← setMode Mode.SixelCursorNextToGraphic true t;
  t ← setMode Mode.TextReflow (allowReflowOnResize (_settings t)) t;
  t ← setMode Mode.Unicode true t;
  setMode Mode.VisibleCursor true t.
Definition hardReset_screens t : option Terminal :=
  t ← on_screen PrimaryRef (fun C _ s => screen_hardReset s) t;
  t ← on_screen AlternateRef (fun C _ s => screen_hardReset s) t;
  t ← on_screen HostWritableRef (fun C _ s => screen_hardReset s) t;
  on_screen IndicatorRef (fun C _ s => screen_hardReset s) t.
(** What follows the reset of the screens. *)
Definition hardReset_last t : option Terminal :=
  let t := on_palettes resetColorPalette (with_tabs [] t) in
  let t := with_hostMargin (full_margin (pageSize (_hostWritableStatusLineScreen t))) t in
  if negb (screen_verifyState (_hostWritableStatusLineScreen t)) then None
  else
    let t := setActiveStatusDisplay MainDisplay t in
    t ← on_screen HostWritableRef (fun C _ s => s ← clearScreen s; Some (updateCursorIterator s)) t;
    let t := with_mainMargin (full_margin (mainDisplayPageSize t)) t in
    if negb (screen_verifyState (_primaryScreen t)) then None
    else
      t ← setStatusDisplay (factoryStatusDisplay (_settings t)) t;
      Some (on_input Input.reset t).
(** RIS. *)
Definition hardReset t : option Terminal :=
  t ← setScreen Primary t;
  t ← terminal_applyPageSize Alternate t;
  t ← initial_modes (with_modes Modes_init t);
  t ← freezeModes (frozenModes (_settings t)) t;
  t ← hardReset_screens t;
  hardReset_last t.

(** The constructor: the members, then the initial modes. *)
Definition Terminal_members (p : PageSize) (reflow : bool) (limit : MaxHistoryLineCount) (frozen : list (Z * bool))
    (statusDisplay : StatusDisplayType) (pipe : bool) (input : InputGenerator) (sequences : SupportedSequences)
    (colors : ColorPalette) : Terminal :=
  let st := mkTerm [] (fun _ => false) (fun _ => false) false pipe in
  let one := mkPageSize 1 (columns p) in
  let status := Screen_make one false (LimitedTo 0) st in
  mk_terminal (Screen_make p reflow limit st) (Screen_make p false (LimitedTo 0) st) status status
    PrimaryRef (full_margin p) (full_margin one) (mkMargin (mkRange 0 0) (mkRange 0 0)) Modes_init []
    (mk_settings p reflow frozen statusDisplay pipe) p Primary NoStatusLine None MainDisplay input sequences
    true false (mkLoc 0 0) (mkLoc 0 0) (mk_palettes colors colors [] 0) (mk_titles [] []) [].
Definition terminal_construct t : option Terminal :=
  t ← initial_modes t;
  t ← setMode Mode.LeftRightMargin false t;
  freezeModes (frozenModes (_settings t)) t.

(** ** Modes: fuel and effect *)

(** Decides the comparisons of closed modes. *)
Local Ltac decide_modes :=
  repeat match goal with
  | |- context [?a =? ?b] => let v := eval vm_compute in (a =? b) in change (a =? b) with v; cbv iota
  end.

(** The modes set by other modes set none themselves. *)
Definition leaf_modes : list Z :=
  [Mode.LeftRightMargin; Mode.MouseSGR; Mode.MouseProtocolButtonTracking; Mode.UseAlternateScreen].

Lemma mode_effect_leaf r1 r2 m b t : m ∈ leaf_modes -> mode_effect r1 m b t = mode_effect r2 m b t.
Proof.
  intros Hm. unfold leaf_modes in Hm. rewrite !elem_of_cons, elem_of_nil in Hm.
  destruct Hm as [->|[->|[->|[->|[]]]]]; unfold mode_effect; decide_modes; reflexivity.
Qed.

Lemma mode_effect_ext r1 r2 mode b t : (forall m c u, m ∈ leaf_modes -> r1 m c u = r2 m c u) ->
  mode_effect r1 mode b t = mode_effect r2 mode b t.
Proof.
  intros Hr. unfold mode_effect, mode_Columns132. repeat (destruct (mode =? _); [first [reflexivity|idtac]|]).
  - destruct (negb _); [reflexivity|]. rewrite Hr by set_solver. reflexivity.
  - cbv zeta. rewrite Hr by set_solver. destruct (r2 _ _ _) as [u|]; [|reflexivity]. simpl. apply Hr. set_solver.
  - rewrite Hr by set_solver. reflexivity.
  - reflexivity.
Qed.

(** The recursion is one level deep, so that two steps of fuel are enough. *)
Lemma setMode_enough_fuel n mode enable t : setMode_fuel (2 + n) mode enable t = setMode mode enable t.
Proof.
  unfold setMode. cbn [Nat.add setMode_fuel]. destruct (negb _); [reflexivity|]. destruct (frozen _ _); [reflexivity|].
  rewrite (mode_effect_ext _ (setMode_fuel 1)); [reflexivity|].
  intros m c u Hm. cbn [setMode_fuel]. destruct (negb _); [reflexivity|]. destruct (frozen _ _); [reflexivity|].
  by rewrite (mode_effect_leaf _ (setMode_fuel 0)).
Qed.

(** ** Page sizes *)

Lemma grid_resize_page {C} `{!CellConcept C} (g : Grid C) p c w g' c' : grid_resize g p c w = Some (g', c') -> _pageSize g' = p.
Proof.
  unfold grid_resize. destruct (bool_decide_reflect (_pageSize g = p)) as [<-|_]; [by intros [= <- _]|].
  intros E. apply bind_Some in E as ([g1 c1] & _ & E). apply bind_Some in E as ([g2 c2] & _ & E).
  destruct (bool_decide_reflect (_pageSize g2 = p)) as [|]; [|done]. by injection E as <- <-.
Qed.

Lemma for_each_line_page {C} (body : Grid C -> Z -> option (Grid C)) ys : forall g g',
  (forall h y h', body h y = Some h' -> _pageSize h' = _pageSize h) ->
  for_each_line body ys g = Some g' -> _pageSize g' = _pageSize g.
Proof.
  induction ys as [|y ys IH]; intros g g' Hb E; [by injection E as <-|].
  apply bind_Some in E as (g1 & E1 & E). rewrite (IH _ _ Hb E). by eapply Hb.
Qed.
Lemma update_lines_page {C} (g : Grid C) f y n g' : update_lines g f y n = Some g' -> _pageSize g' = _pageSize g.
Proof. unfold update_lines. intros E. by apply fmap_Some in E as (r & _ & ->). Qed.
Lemma copy_columns_page {C} `{!CellConcept C} (g : Grid C) a b x w g' :
  copy_columns g a b x w = Some g' -> _pageSize g' = _pageSize g.
Proof.
  unfold copy_columns. intros E. repeat (apply bind_Some in E as (? & _ & E)).
  destruct (_ && _); [|done]. apply bind_Some in E as (? & _ & E). by injection E as <-.
Qed.
Lemma scrollUp_alloc_page {C} `{!CellConcept C} (g : Grid C) n : _pageSize (scrollUp_alloc g n) = _pageSize g.
Proof. unfold scrollUp_alloc. destruct (_historyLimit g); [done|]. by destruct (_ <? _). Qed.

Lemma scrollUp_page {C} `{!CellConcept C} (g : Grid C) n a g' k :
  scrollUp g n a = Some (g', k) -> _pageSize g' = _pageSize g.
Proof.
  unfold scrollUp. rewrite <- (scrollUp_alloc_page g n). set (h := scrollUp_alloc g n). clearbody h.
  destruct (_ =? _); [|destruct (_ <? _); [|done]].
  - intros E. apply bind_Some in E as (g1 & E1 & [= <- _]). by apply update_lines_page in E1.
  - destruct (Z.min _ _ =? 0); intros E; apply bind_Some in E as (g1 & E1 & [= <- _]);
      (destruct (_ <? n); [by apply update_lines_page in E1|by injection E1 as <-]).
Qed.

Lemma scrollUp_margin_page {C} `{!CellConcept C} (g : Grid C) n a m g' k :
  scrollUp_margin g n a m = Some (g', k) -> _pageSize g' = _pageSize g.
Proof.
  unfold scrollUp_margin. destruct (negb _); [done|]. destruct (fullHorizontal g m).
  - destruct (fullVertical g m); [apply scrollUp_page|].
    intros E. apply bind_Some in E as (r & _ & E). apply bind_Some in E as (g1 & E1 & [= <- _]).
    by apply update_lines_page in E1.
  - intros E. apply bind_Some in E as (g1 & E1 & E). apply bind_Some in E as (g2 & E2 & [= <- _]).
    rewrite (update_lines_page _ _ _ _ _ E2). eapply for_each_line_page; [|exact E1].
    intros h y h'. apply copy_columns_page.
Qed.

(** An operation that keeps the size of the page. *)
Definition keeps_page (f : ScreenOp) : Prop := forall C CC s s', f C CC s = Some s' -> pageSize s' = pageSize s.

Lemma clearScreen_page : keeps_page (fun C _ s => clearScreen s).
Proof.
  intros C CC s s' E. unfold clearScreen, scrollUp_here, screen_scrollUp in E.
  apply bind_Some in E as ([g k] & E & [= <-]). unfold pageSize. simpl. by eapply scrollUp_margin_page.
Qed.
Lemma cursor_save_page (enable : bool) : keeps_page (fun C _ s => if enable then Some (saveCursor s) else restoreCursor s).
Proof.
  intros C CC s s' E. destruct enable; [by injection E as <-|]. apply framed_restoreCursor in E as [E _].
  unfold pageSize. by rewrite E.
Qed.


(** ** An application on the alternate screen *)

(** The state of a screen that is its own. *)
Record same_screen {C} (s s' : Screen.Screen C) : Prop := {
  same_grid : _grid s' = _grid s;
  same_cursor : _cursor s' = _cursor s;
  same_saved : _savedCursor s' = _savedCursor s;
  same_rendition : _savedGraphicsRenditions s' = _savedGraphicsRenditions s
}.

(** Output goes elsewhere; the primary screen and the sizes are as in [t0]. *)
Record away t0 t : Prop := {
  aw_primary : same_screen (_primaryScreen t0) (_primaryScreen t);
  aw_total : totalPageSize t = totalPageSize t0;
  aw_status : _statusDisplayType t = _statusDisplayType t0;
  aw_host : pageSize (_hostWritableStatusLineScreen t) = pageSize (_hostWritableStatusLineScreen t0);
  aw_indicator : pageSize (_indicatorStatusScreen t) = pageSize (_indicatorStatusScreen t0);
  aw_frozen : forall m, frozen (_modes t) m = frozen (_modes t0) m;
  aw_type : _currentScreenType t = Alternate;
  aw_current : _currentScreen t <> PrimaryRef
}.

Lemma away_on_screen t0 t r f t' : away t0 t -> r <> PrimaryRef -> keeps_page f ->
  on_screen r f t = Some t' -> away t0 t'.
Proof.
  intros [] Hr Hf E. destruct r; [done|..]; apply bind_Some in E as (s & E & [= <-]);
    pose proof (Hf _ _ _ _ E) as Hp; split; try done; simpl; by rewrite Hp.
Qed.
Lemma away_on_cursor t0 t r f : away t0 t -> r <> PrimaryRef -> away t0 (on_cursor r f t).
Proof. intros [] Hr. by destruct r. Qed.

Lemma away_active t0 t d : away t0 t -> away t0 (setActiveStatusDisplay d t).
Proof.
  intros Ht. unfold setActiveStatusDisplay. destruct (bool_decide _); [done|]. destruct Ht. split; try done.
  simpl. rewrite aw_type0. by destruct d.
Qed.

(** Changes that concern neither screens nor sizes. *)
Ltac away_field := intros []; split; try done.
Lemma away_input t0 t f : away t0 t -> away t0 (on_input f t).
Proof. away_field. Qed.
Lemma away_margin t0 t m : away t0 t -> away t0 (with_mainMargin m t).
Proof. away_field. Qed.
Lemma away_sequences t0 t q : away t0 t -> away t0 (with_sequences q t).
Proof. away_field. Qed.
Lemma away_renderBuffer t0 t b : away t0 t -> away t0 (with_renderBuffer b t).
Proof. away_field. Qed.
Lemma away_registers t0 t b : away t0 t -> away t0 (with_privateRegisters b t).
Proof. away_field. Qed.
Lemma away_event t0 t e : away t0 t -> away t0 (emit_event e t).
Proof. away_field. Qed.
Lemma away_palettes t0 t f : away t0 t -> away t0 (on_palettes f t).
Proof. away_field. Qed.
Lemma away_titles t0 t x : away t0 t -> away t0 (with_titles x t).
Proof. away_field. Qed.
Lemma away_modes t0 t ms : away t0 t -> (forall m, frozen ms m = frozen (_modes t) m) -> away t0 (with_modes ms t).
Proof. intros [] Hm. split; try done. simpl. intros m. by rewrite Hm. Qed.

Lemma away_clearScreen t0 t t' : away t0 t -> terminal_clearScreen t = Some t' -> away t0 t'.
Proof.
  intros Ht. unfold terminal_clearScreen. rewrite (aw_type _ _ Ht). apply away_on_screen; [done..|]. apply clearScreen_page.
Qed.
Lemma away_margins t0 t a b : away t0 t ->
  away t0 (terminal_setTopBottomMargin a b t) /\ away t0 (terminal_setLeftRightMargin a b t).
Proof.
  intros Ht. unfold terminal_setTopBottomMargin, terminal_setLeftRightMargin.
  split; destruct (_ <? _); try done; by apply away_margin.
Qed.

(** The modes that switch between the screens. *)
Definition screen_switch (m : Z) : bool := (m =? Mode.UseAlternateScreen) || (m =? Mode.ExtendedAltScreen).

Lemma away_Columns132 t0 r b t t' : away t0 t ->
  (forall m c u u', away t0 u -> screen_switch m = false -> r m c u = Some u' -> away t0 u') ->
  mode_Columns132 r b t = Some t' -> away t0 t'.
Proof.
  intros Ht Hr. unfold mode_Columns132. destruct (negb _); [by intros [= <-]|]. cbv zeta.
  destruct (away_margins t0 t None None Ht) as [H1' _].
  destruct (away_margins t0 _ None None H1') as [_ H2']. intros E.
  apply bind_Some in E as (u1 & E1 & E). apply Hr in E1; [|done|reflexivity].
  apply bind_Some in E as (u2 & E2 & E).
  assert (Hu2 : away t0 u2).
  { destruct (bool_decide _); [|by injection E2 as <-].
    eapply away_on_screen; [exact E1| |apply clearScreen_page|exact E2]. done. }
  apply bind_Some in E as (u3 & E3 & [= <-]). apply away_event. by eapply away_clearScreen.
Qed.

Lemma away_effect t0 r m b t t' : away t0 t -> screen_switch m = false ->
  (forall m c u u', away t0 u -> screen_switch m = false -> r m c u = Some u' -> away t0 u') ->
  mode_effect r m b t = Some t' -> away t0 t'.
Proof.
  intros Ht Hs Hr. unfold screen_switch in Hs. apply orb_false_elim in Hs as [Hs1 Hs2].
  pose proof (aw_current _ _ Ht) as Hc. unfold mode_effect, setMouse, setWheel. rewrite Hs1, Hs2. clear Hs1 Hs2.
  repeat (destruct (m =? _); [first [solve [intros [= <-]; auto using away_on_cursor, away_input, away_registers]|idtac]|]).
  - unfold mode_LeftRightMargin. intros E. apply bind_Some in E as (q & _ & [= <-]).
    destruct b; auto using away_sequences, away_margin.
  - by apply away_Columns132.
  - intros [= <-]. destruct (Bool.eqb _ _); auto using away_renderBuffer.
  - unfold mode_TextReflow, isPrimaryScreen. rewrite (aw_type _ _ Ht), andb_false_r. by intros [= <-].
  - intros [= <-]. destruct (isPrimaryScreen _); auto using away_input.
  - intros E. apply bind_Some in E as (u1 & E1 & E). apply Hr in E1; [|by apply away_input|reflexivity].
    eapply Hr; [exact E1| |exact E]. reflexivity.
  - apply away_on_screen; [done..|]. apply cursor_save_page.
  - by intros [= <-].
Qed.

Lemma away_setMode_fuel n : forall t0 m b t t', away t0 t -> screen_switch m = false ->
  setMode_fuel n m b t = Some t' -> away t0 t'.
Proof.
  induction n as [|n IH]; intros t0 m b t t' Ht Hs; cbn [setMode_fuel];
    (destruct (negb _); [by intros [= <-]|]); (destruct (frozen _ _); [by intros [= <-]|]); [done|].
  intros E. apply bind_Some in E as (u & E & [= <-]).
  apply away_effect with (t0 := t0) in E; [|done..|intros; by eapply IH].
  apply away_modes; [done|]. intros k. apply frozen_set.
Qed.

(** What an application does on the alternate screen: operations of the screen
    its output goes to, changes of other modes, of the palette, the titles and
    the status line it writes to.  Left out are the two modes that switch the
    screen, the commands that show or hide the status line and so change the
    size of the page (DECSSDT, the mode KAM, and DECSTR, which does both), and
    RIS. *)
Inductive app_step : Terminal -> Terminal -> Prop :=
| step_screen t (f : ScreenOp) t' : keeps_page f -> activeDisplay t <> PrimaryRef ->
    on_screen (activeDisplay t) f t = Some t' -> app_step t t'
| step_mode t m b t' : screen_switch m = false -> setMode m b t = Some t' -> app_step t t'
| step_margins t a b c d : app_step t (terminal_setTopBottomMargin a b (terminal_setLeftRightMargin c d t))
| step_ansi t m b t' : m <> AnsiMode.KeyboardAction -> terminal_setAnsiMode m b t = Some t' -> app_step t t'
| step_active t d : app_step t (setActiveStatusDisplay d t)
| step_save t ms : app_step t (saveModes ms t)
| step_restore t ms : app_step t (restoreModes ms t)
| step_palettes t f : app_step t (on_palettes f t)
| step_title t title : app_step t (setWindowTitle title t)
| step_saveTitle t : app_step t (saveWindowTitle t)
| step_restoreTitle t : app_step t (restoreWindowTitle t).

Lemma frozen_restore ms modes m : frozen (restore modes ms) m = frozen ms m.
Proof.
  unfold restore. revert ms. induction modes as [|k modes IH]; intros ms; [done|]. simpl. by rewrite IH, restore_one_frozen.
Qed.

Lemma away_step t0 t t' : away t0 t -> app_step t t' -> away t0 t'.
Proof.
  intros Ht Hs. inversion Hs; subst.
  - by eapply away_on_screen.
  - by eapply (away_setMode_fuel 2).
  - by apply away_margins, away_margins.
  - unfold terminal_setAnsiMode in *. destruct (negb _); [by simplify_eq|].
    rewrite (proj2 (Z.eqb_neq m _)) in * by done. simplify_option_eq. by apply away_modes.
  - by apply away_active.
  - apply away_modes; [done|]. intros m. apply (save_spec ms (_modes t) m).
  - apply away_modes; [done|]. intros m. apply frozen_restore.
  - by apply away_palettes.
  - by apply away_event, away_titles.
  - by apply away_titles.
  - unfold restoreWindowTitle. destruct (_savedWindowTitles _); [done|]. by apply away_event, away_titles, away_titles.
Qed.

Lemma away_steps t0 t t' : away t0 t -> rtc app_step t t' -> away t0 t'.
Proof. intros Ht Hs. induction Hs as [|x y z Hxy _ IH]; [done|]. by apply IH, (away_step t0 x). Qed.


(** Applying the size a screen already has. *)
Lemma applyPageSize_same {C} `{!CellConcept C} (s : Screen.Screen C) p :
  pageSize s = p -> 0 <= cursor_line s < lines p -> 0 <= cursor_column s < columns p ->
  originMode (_cursor s) = false -> verifyState (_grid s) = true ->
  exists s', applyPageSizeToMainDisplay s p = Some s' /\ _grid s' = _grid s /\
    _cursor s' = set_wrapPending (_cursor s) false /\ _savedCursor s' = _savedCursor s /\
    _savedGraphicsRenditions s' = _savedGraphicsRenditions s /\ _margin s' = full_margin p /\ _terminal s' = _terminal s.
Proof.
  intros Hp Hy Hx Ho Hv. unfold applyPageSizeToMainDisplay, grid_resize, realCursorPosition.
  unfold pageSize in Hp. rewrite bool_decide_true by done. cbn [mbind option_bind]. cbv zeta.
  assert (Hpos : forall s' : Screen.Screen C, _grid s' = _grid s -> originMode (_cursor s') = false ->
            clampCoordinate s' (position (_cursor s)) = position (_cursor s)).
  { intros s' Hg Ho'. unfold clampCoordinate. rewrite Ho'. unfold clampToScreen, clampedLine, clampedColumn, clamp, pageSize.
    rewrite Hg, Hp. fold (cursor_line s) (cursor_column s). zbool. unfold cursor_line, cursor_column. by destruct (position _). }
  rewrite Hpos by done.
  change (cursor_column (with_margin (with_grid s (_grid s)) (full_margin p))) with (cursor_column s).
  replace (cursor_column s <? columns p) with true by (symmetry; apply Z.ltb_lt; lia). cbv iota.
  set (s' := updateCursorIterator _). assert (Hver : screen_verifyState s' = true).
  { unfold screen_verifyState. unfold s', cursor_column, cursor_line, pageSize, realCursorPosition, clampToScreen,
      clampedLine, clampedColumn, clamp, pageSize. simpl. rewrite Hv, Hp.
    unfold cursor_line, cursor_column in *. zbool. simpl. rewrite bool_decide_true; [done|]. by destruct (position _). }
  rewrite Hver. eexists. split; [done|]. unfold s'. simpl. by destruct (_cursor s).
Qed.

Lemma resize_status_same t (s : Screen.Screen SC) : pageSize s = mkPageSize 1 (columns (totalPageSize t)) ->
  exists s', resize_status_line t s = Some s' /\ _grid s' = _grid s.
Proof.
  intros Hp. unfold resize_status_line, grid_resize. unfold pageSize in Hp. rewrite bool_decide_true by done.
  eexists. split; [done|]. done.
Qed.
Lemma resize_status_page t (s s' : Screen.Screen SC) :
  resize_status_line t s = Some s' -> pageSize s' = mkPageSize 1 (columns (totalPageSize t)).
Proof. unfold resize_status_line. intros E. apply bind_Some in E as ([g c] & E & [= <-]). by eapply grid_resize_page. Qed.

(** The terminal shows the primary screen, at its size, outside origin mode. *)
Record at_primary t : Prop := {
  ap_type : _currentScreenType t = Primary;
  ap_page : pageSize (_primaryScreen t) = mainDisplayPageSize t;
  ap_line : 0 <= cursor_line (_primaryScreen t) < lines (mainDisplayPageSize t);
  ap_column : 0 <= cursor_column (_primaryScreen t) < columns (mainDisplayPageSize t);
  ap_grid : verifyState (_grid (_primaryScreen t)) = true;
  ap_origin : originMode (_cursor (_primaryScreen t)) = false;
  ap_status : lines (pageSize (_hostWritableStatusLineScreen t)) = 1 /\ lines (pageSize (_indicatorStatusScreen t)) = 1;
  ap_frozen : frozen (_modes t) Mode.UseAlternateScreen = false /\ frozen (_modes t) Mode.ExtendedAltScreen = false
}.

Lemma statusLineHeight_one t : lines (pageSize (_hostWritableStatusLineScreen t)) = 1 ->
  lines (pageSize (_indicatorStatusScreen t)) = 1 -> statusLineHeight t = if visible (_statusDisplayType t) then 1 else 0.
Proof. intros Hh Hi. unfold statusLineHeight. by destruct (_statusDisplayType t). Qed.

(** What switching the alternate screen on leaves alone. *)
Record entered t t1 : Prop := {
  en_away : away t1 t1;
  en_primary : same_screen (_primaryScreen t) (_primaryScreen t1);
  en_total : totalPageSize t1 = totalPageSize t;
  en_status : _statusDisplayType t1 = _statusDisplayType t;
  en_host : pageSize (_hostWritableStatusLineScreen t1) = mkPageSize 1 (columns (totalPageSize t));
  en_indicator : pageSize (_indicatorStatusScreen t1) = mkPageSize 1 (columns (totalPageSize t));
  en_frozen : forall m, frozen (_modes t1) m = frozen (_modes t) m
}.

Lemma entered_setScreen t t1 : at_primary t -> setScreen Alternate t = Some t1 -> entered t t1.
Proof.
  intros Ht. unfold setScreen. rewrite (ap_type _ Ht). cbn [bool_decide decide_rel ScreenType_eq_dec].
  rewrite bool_decide_false by done. cbv zeta. intros E. apply bind_Some in E as (u & E & [= <-]).
  unfold applyPageSizeToCurrentBuffer, terminal_applyPageSize in E. apply bind_Some in E as (u1 & E1 & E).
  apply bind_Some in E1 as (s & E1 & [= <-]).
  apply bind_Some in E as (h & Eh & E). apply bind_Some in E as (i & Ei & [= <-]).
  apply resize_status_page in Eh, Ei. by split; try done; split.
Qed.

Lemma entered_more t t1 t2 : entered t t1 -> away t1 t2 -> entered t t2.
Proof.
  intros [_ [] ? ? ? ? Hf] [[] ? ? ? ? Hf2 ? ?].
  split; [by split|by split; congruence|congruence..|]. intros m. by rewrite Hf2, Hf.
Qed.

Lemma entered_setMode t t1 : at_primary t -> setMode Mode.ExtendedAltScreen true t = Some t1 -> entered t t1.
Proof.
  intros Ht. destruct (ap_frozen _ Ht) as [F1 F2].
  unfold setMode. cbn [setMode_fuel]. change (isValidDECMode Mode.ExtendedAltScreen) with true. cbn [negb]. rewrite F2.
  intros E. apply bind_Some in E as (u & E & [= <-]). unfold mode_effect in E. revert E. decide_modes.
  change (isValidDECMode Mode.UseAlternateScreen) with true. cbn [negb]. rewrite F1. decide_modes.
  intros E. apply bind_Some in E as (u1 & E1 & E). apply bind_Some in E1 as (u2 & E1 & [= <-]).
  apply entered_setScreen in E1; [|done].
  assert (H2' : entered t (with_modes (set_dec Mode.UseAlternateScreen true (_modes u2)) u2)).
  { eapply entered_more; [exact E1|]. apply away_modes; [apply E1|]. intros m. apply frozen_set. }
  eapply away_clearScreen in E; [|apply H2']. eapply entered_more; [exact H2'|].
  apply away_modes; [done|]. intros m. apply frozen_set.
Qed.


Lemma left_setScreen t t2 : at_primary t -> entered t t2 -> exists t3, setScreen Primary t2 = Some t3 /\
  _grid (_primaryScreen t3) = _grid (_primaryScreen t) /\
  _cursor (_primaryScreen t3) = set_wrapPending (_cursor (_primaryScreen t)) false /\
  _savedCursor (_primaryScreen t3) = _savedCursor (_primaryScreen t) /\
  _savedGraphicsRenditions (_primaryScreen t3) = _savedGraphicsRenditions (_primaryScreen t) /\
  _mainScreenMargin t3 = full_margin (mainDisplayPageSize t) /\
  _currentScreen t3 = PrimaryRef /\ _currentScreenType t3 = Primary.
Proof.
  intros Ht [Ha [Eg Ec Es Er] Et Est Eh Ei Ef]. unfold setScreen. rewrite (aw_type _ _ Ha), bool_decide_false by done.
  cbv zeta. set (u := with_screenType Primary _). unfold applyPageSizeToCurrentBuffer.
  change (_currentScreenType u) with Primary. unfold terminal_applyPageSize. cbn [screen_ref on_screen].
  assert (Hm : mainDisplayPageSize u = mainDisplayPageSize t).
  { unfold mainDisplayPageSize. change (totalPageSize u) with (totalPageSize t2). rewrite Et. f_equal.
    destruct (ap_status _ Ht) as [Hh Hi]. rewrite (statusLineHeight_one t Hh Hi), statusLineHeight_one.
    - change (_statusDisplayType u) with (_statusDisplayType t2). by rewrite Est.
    - change (_hostWritableStatusLineScreen u) with (_hostWritableStatusLineScreen t2). by rewrite Eh.
    - change (_indicatorStatusScreen u) with (_indicatorStatusScreen t2). by rewrite Ei. }
  destruct (applyPageSize_same (load u (_primaryScreen u) (_mainScreenMargin u)) (mainDisplayPageSize u))
    as (s & Es' & G1 & G2 & G3 & G4 & G5 & _).
  - rewrite Hm. unfold pageSize. simpl. rewrite Eg. apply (ap_page _ Ht).
  - rewrite Hm. unfold cursor_line. simpl _cursor. rewrite Ec. apply (ap_line _ Ht).
  - rewrite Hm. unfold cursor_column. simpl _cursor. rewrite Ec. apply (ap_column _ Ht).
  - simpl. rewrite Ec. apply (ap_origin _ Ht).
  - simpl. rewrite Eg. apply (ap_grid _ Ht).
  - rewrite Es'. cbn [mbind option_bind]. set (v := unload _ _).
    destruct (resize_status_same v (_hostWritableStatusLineScreen v)) as (h & -> & _).
    { change (_hostWritableStatusLineScreen v) with (_hostWritableStatusLineScreen t2). rewrite Eh.
      change (totalPageSize v) with (totalPageSize t2). by rewrite Et. }
    cbn [mbind option_bind]. destruct (resize_status_same v (_indicatorStatusScreen v)) as (i & -> & _).
    { change (_indicatorStatusScreen v) with (_indicatorStatusScreen t2). rewrite Ei.
      change (totalPageSize v) with (totalPageSize t2). by rewrite Et. }
    cbn [mbind option_bind]. eexists. split; [done|]. split_and!; try done.
    + transitivity (_grid s); [done|]. by rewrite G1.
    + transitivity (_cursor s); [done|]. rewrite G2. by change (_cursor (load u _ _)) with (_cursor (_primaryScreen t2)); rewrite Ec.
    + transitivity (_savedCursor s); [done|]. by rewrite G3.
    + transitivity (_savedGraphicsRenditions s); [done|]. by rewrite G4.
    + transitivity (_margin s); [done|]. by rewrite G5, Hm.
Qed.

(** C5: Let the terminal show the primary screen at its size, with its grid passing its checks,
    its cursor on the page and origin mode off in it, let the status lines be one line high, and
    let modes 47 and 1049 not be frozen. If mode 1049 is then set, and on the alternate screen
    any sequence of steps follows that are operations of the screen written to (text, scrolling,
    cursor, margins, tab stops), other DEC and ANSI modes, margins, saved and restored modes,
    palettes, titles or the choice of the display written to - all but RIS and the commands that
    show or hide the status line (DECSSDT, KAM, DECSTR) -, then resetting mode 1049 succeeds and
    brings the primary screen back: its page and history, its saved cursor and rendition, and
    its cursor with the pending wrap cleared; the margins are the page, and the terminal shows
    the primary screen. With origin mode on, the cursor can move (origin_cursor_moved). *)
Theorem alternate_screen_roundtrip t t1 t2 : at_primary t ->
  setMode Mode.ExtendedAltScreen true t = Some t1 -> rtc app_step t1 t2 ->
  exists t3, setMode Mode.ExtendedAltScreen false t2 = Some t3 /\
    _grid (_primaryScreen t3) = _grid (_primaryScreen t) /\
    _cursor (_primaryScreen t3) = set_wrapPending (_cursor (_primaryScreen t)) false /\
    _savedCursor (_primaryScreen t3) = _savedCursor (_primaryScreen t) /\
    _savedGraphicsRenditions (_primaryScreen t3) = _savedGraphicsRenditions (_primaryScreen t) /\
    _mainScreenMargin t3 = full_margin (mainDisplayPageSize t) /\
    _currentScreen t3 = PrimaryRef /\ _currentScreenType t3 = Primary.
Proof.
  intros Ht E1 Hs. apply entered_setMode in E1; [|done].
  assert (H2' : entered t t2) by (eapply entered_more, away_steps; [exact E1|apply E1|exact Hs]).
  destruct (left_setScreen t t2 Ht H2') as (t3 & E3 & G). destruct (ap_frozen _ Ht) as [F1 F2].
  unfold setMode. cbn [setMode_fuel]. change (isValidDECMode Mode.ExtendedAltScreen) with true. cbn [negb].
  rewrite (en_frozen _ _ H2'), F2. unfold mode_effect. decide_modes.
  change (isValidDECMode Mode.UseAlternateScreen) with true. cbn [negb]. rewrite (en_frozen _ _ H2'), F1. decide_modes.
  rewrite E3. cbn [mbind option_bind]. eexists. split; [done|]. exact G.
Qed.


(** ** Hard reset *)

(** A grid that was reset: blank lines on the page, nothing in the history. *)
Definition blank_grid {C} (g : Grid C) : Prop :=
  historyLineCount g = 0 /\ Forall (fun l => exists w, l = blank_line (defaultLineFlags g) w Attrs_init) (page g).

Lemma grid_reset_blank {C} `{!CellConcept C} (g : Grid C) : grid_ok g -> verifyState g = true ->
  exists g', grid_reset g = Some g' /\ grid_ok g' /\ verifyState g' = true /\ _pageSize g' = _pageSize g /\ blank_grid g' /\
    _historyLimit g' = _historyLimit g /\ size (_lines g') = size (_lines g).
Proof.
  intros Hok Hv. pose proof Hok as [Hr Hl Hu]. unfold grid_reset. set (g1 := with_used g _).
  set (r := rotate_right _ _). assert (Hr1 : ring_ok r) by (apply rotate_right_ok; simpl; [done|lia]).
  assert (Hs1 : size r = size (_lines g)) by done.
  destruct (view_update_range r (fun l => Some (line_reset l (defaultLineFlags g1) Attrs_init)) 0
    (Z.to_nat (lines (_pageSize g1)))
    ((fun l => line_reset l (defaultLineFlags g1) Attrs_init) <$> take (Z.to_nat (lines (_pageSize g1))) (view r)))
    as (r' & E & Hr' & Hs' & _ & Hv'); [done|lia|simpl; lia|apply mapM_total|].
  unfold update_lines. simpl _lines. rewrite E. cbn [fmap option_fmap option_map]. eexists. split; [done|].
  assert (Hlen : (Z.to_nat (lines (_pageSize g)) <= length (view r))%nat) by (rewrite view_length; unfold size in *; lia).
  split; [split; simpl; [done|done|lia]|]. split.
  { unfold verifyState in *. apply andb_prop in Hv as [[V1 V2]%andb_prop V3]. apply Z.leb_le in V1, V2, V3.
    unfold totalLineCount, maxHistoryLineCount in *. simpl. rewrite Hs', Hs1. destruct (_historyLimit g); zbool; done. }
  split; [done|]. split; [|by rewrite <- Hs1]. split; [unfold historyLineCount; simpl; lia|].
  unfold page. simpl. rewrite Hv'. simpl. rewrite take_app_le, take_ge by (len; simpl; lia).
  apply Forall_fmap, Forall_forall. intros l _. exists (line_size l). apply line_reset_blank.
Qed.

Lemma sized_apply {C} `{!CellConcept C} (s : Screen.Screen C) p : sized p s ->
  range_ok (vertical (_margin s)) (lines p) -> range_ok (horizontal (_margin s)) (columns p) ->
  exists s', applyPageSizeToMainDisplay s p = Some s' /\ sized p s' /\ _margin s' = full_margin p /\
    _terminal s' = _terminal s /\ _grid s' = _grid s.
Proof.
  intros [Hp Hok Hv Hy Hx] Hmv Hmh. apply (applyPageSize_sized s p _ (realCursorPosition s)); try done; try lia.
  unfold grid_resize. unfold pageSize in Hp. by rewrite bool_decide_true.
Qed.

Lemma sized_hardReset {C} `{!CellConcept C} (s : Screen.Screen C) p : sized p s -> exists s', screen_hardReset s = Some s' /\
  sized p s' /\ _cursor s' = Cursor_init /\ blank_grid (_grid s') /\ _margin s' = _margin s /\ _terminal s' = _terminal s /\
  _historyLimit (_grid s') = _historyLimit (_grid s) /\ size (_lines (_grid s')) = size (_lines (_grid s)).
Proof.
  intros [Hp Hok Hv Hy Hx]. unfold screen_hardReset.
  destruct (grid_reset_blank (_grid s) Hok Hv) as (g & -> & Hok' & Hv' & Hp' & Hb & Hlim & Hsz). cbn [mbind option_bind].
  eexists. split; [done|]. split; [|done]. split; simpl; try done; [|unfold cursor_line; simpl; lia|unfold cursor_column; simpl; lia].
  unfold pageSize in *. simpl. by rewrite Hp'.
Qed.


(** Scrolling a page of a grid without unlimited history always succeeds. *)
Lemma reset_bottom_total {C} `{!CellConcept C} (g : Grid C) n a : ring_ok (_lines g) -> 0 <= n <= lines (_pageSize g) ->
  lines (_pageSize g) <= size (_lines g) -> is_Some (reset_bottom g n a).
Proof.
  intros Hr Hn Hs. unfold reset_bottom, update_lines.
  destruct (view_update_range (_lines g) (fun l => Some (line_reset l (defaultLineFlags g) a)) (lines (_pageSize g) - n)
    (Z.to_nat n) _ Hr ltac:(lia) ltac:(lia) (mapM_total _ _)) as (r & -> & _). by eexists.
Qed.

Lemma scrollUp_total {C} `{!CellConcept C} (g : Grid C) n a k : grid_ok g -> _historyLimit g = LimitedTo k ->
  0 <= n <= lines (_pageSize g) -> is_Some (scrollUp g n a).
Proof.
  intros [Hr Hl Hu] Hk Hn. unfold scrollUp, scrollUp_alloc. rewrite Hk.
  destruct (Z.eqb_spec (_linesUsed g) (size (_lines g))) as [E|E].
  - destruct (reset_bottom_total (with_lines g (rotate_left (_lines g) n)) n a) as [g' ->];
      [apply rotate_left_ok; [done|lia]|done|simpl; change (size (rotate_left ?r _)) with (size r); lia|by eexists].
  - zbool. set (c := Z.min n _). set (g1 := if c =? 0 then g else _).
    assert (Hg1 : ring_ok (_lines g1) /\ size (_lines g1) = size (_lines g) /\ _pageSize g1 = _pageSize g).
    { unfold g1. destruct (c =? 0); [done|]. simpl. change (size (rotate_left ?r _)) with (size r).
      rewrite write_range_size. split_and!; [|done..].
      apply rotate_left_ok; [by apply write_range_ok|rewrite write_range_size; lia]. }
    destruct Hg1 as (Hr1 & Hs1 & Hp1). destruct (c <? n); [|by eexists].
    destruct (reset_bottom_total (with_lines g1 (rotate_left (_lines g1) (n - c))) n a) as [g' ->]; simpl;
      [apply rotate_left_ok; [done|lia]|by rewrite Hp1| |by eexists].
    change (size (rotate_left ?r _)) with (size r). rewrite Hp1. lia.
Qed.

Lemma clearScreen_total {C} `{!CellConcept C} (s : Screen.Screen C) p k : sized p s -> _margin s = full_margin p ->
  _historyLimit (_grid s) = LimitedTo k -> exists s', clearScreen s = Some s' /\ _terminal s' = _terminal s.
Proof.
  intros [Hp Hok _ Hy Hx] Hm Hk. unfold clearScreen, scrollUp_here, screen_scrollUp, scrollUp_margin. unfold pageSize in *.
  rewrite Hm. unfold fullHorizontal, fullVertical. rewrite Hp. simpl. zbool. simpl. rewrite !bool_decide_true by done.
  destruct (scrollUp_total (_grid s) (lines p) (graphicsRendition (_cursor s)) k) as [[g n] ->]; [done|done|rewrite Hp; lia|].
  by eexists.
Qed.

(** ** Every screen at its size *)

Record settled t : Prop := {
  se_primary : sized (mainDisplayPageSize t) (_primaryScreen t);
  se_alternate : sized (mainDisplayPageSize t) (_alternateScreen t);
  se_host : sized (mkPageSize 1 (columns (totalPageSize t))) (_hostWritableStatusLineScreen t);
  se_indicator : sized (mkPageSize 1 (columns (totalPageSize t))) (_indicatorStatusScreen t);
  se_hostLimit : exists k, _historyLimit (_grid (_hostWritableStatusLineScreen t)) = LimitedTo k;
  se_margins : range_ok (vertical (_mainScreenMargin t)) (lines (mainDisplayPageSize t)) /\
               range_ok (horizontal (_mainScreenMargin t)) (columns (mainDisplayPageSize t));
  se_room : lines (totalPageSize t) <= size (_lines (_grid (_primaryScreen t)));
  se_current : _activeStatusDisplay t = MainDisplay -> _currentScreen t = screen_ref (_currentScreenType t)
}.

(** What the operations of a reset leave alone. *)
Record untouched t t' : Prop := {
  un_status : _statusDisplayType t' = _statusDisplayType t;
  un_settings : _settings t' = _settings t;
  un_active : _activeStatusDisplay t' = _activeStatusDisplay t;
  un_sequences : _supportedVTSequences t' = _supportedVTSequences t;
  un_render : _renderBufferUpdateEnabled t' = _renderBufferUpdateEnabled t;
  un_palettes : _palettes t' = _palettes t;
  un_input : Input.reset (_inputGenerator t') = Input.reset (_inputGenerator t)
}.
#[local] Instance untouched_preorder : PreOrder untouched.
Proof. split; [by split|]. intros a b c [] []. split; congruence. Qed.

Lemma put_bit_same i (bits : gset Z) : put_bit i (bool_decide (i ∈ bits)) bits = bits.
Proof. unfold put_bit. case_bool_decide; set_solver. Qed.
Lemma unload_same t u : _tabs u = _tabs t -> _modes u = _modes t -> unload (shared t) u = u.
Proof.
  intros Ht Hm. unfold unload, unload_modes, unload_mode, shared, Modes.enabled. simpl. rewrite Hm. simpl.
  destruct u, (_modes t) as [an de fr sa]; simpl in *. subst. rewrite !put_bit_same. done.
Qed.

Lemma full_margin_ok p : 0 < lines p -> 0 < columns p ->
  range_ok (vertical (full_margin p)) (lines p) /\ range_ok (horizontal (full_margin p)) (columns p).
Proof. intros. unfold full_margin, range_ok. simpl. lia. Qed.


Lemma main_page_same t t' : totalPageSize t' = totalPageSize t -> _statusDisplayType t' = _statusDisplayType t ->
  lines (pageSize (_hostWritableStatusLineScreen t')) = lines (pageSize (_hostWritableStatusLineScreen t)) ->
  lines (pageSize (_indicatorStatusScreen t')) = lines (pageSize (_indicatorStatusScreen t)) ->
  mainDisplayPageSize t' = mainDisplayPageSize t.
Proof.
  intros E1 E2 E3 E4. unfold mainDisplayPageSize, statusLineHeight. rewrite E1, E2, E3, E4. done.
Qed.

(** A terminal whose screens were changed but kept their sizes. *)
Lemma settled_change t t' : settled t -> totalPageSize t' = totalPageSize t -> _statusDisplayType t' = _statusDisplayType t ->
  sized (mainDisplayPageSize t) (_primaryScreen t') -> sized (mainDisplayPageSize t) (_alternateScreen t') ->
  sized (mkPageSize 1 (columns (totalPageSize t))) (_hostWritableStatusLineScreen t') ->
  sized (mkPageSize 1 (columns (totalPageSize t))) (_indicatorStatusScreen t') ->
  (exists k, _historyLimit (_grid (_hostWritableStatusLineScreen t')) = LimitedTo k) ->
  (_mainScreenMargin t' = _mainScreenMargin t \/ _mainScreenMargin t' = full_margin (mainDisplayPageSize t)) ->
  lines (totalPageSize t) <= size (_lines (_grid (_primaryScreen t'))) ->
  (_activeStatusDisplay t' = MainDisplay -> _currentScreen t' = screen_ref (_currentScreenType t')) -> settled t'.
Proof.
  intros [] Et Es Sp Sa Sh Si Hl Hm Hr Hc.
  assert (Ep : mainDisplayPageSize t' = mainDisplayPageSize t).
  { apply main_page_same; [done|done|..].
    - by rewrite (sz_page _ _ Sh), (sz_page _ _ se_host0).
    - by rewrite (sz_page _ _ Si), (sz_page _ _ se_indicator0). }
  split; rewrite ?Ep, ?Et; try done. destruct Hm as [->| ->]; [done|].
  apply full_margin_ok; [destruct (sz_line _ _ Sp)|destruct (sz_column _ _ Sp)]; lia.
Qed.

Lemma settled_apply type t : settled t -> exists t', terminal_applyPageSize type t = Some t' /\ settled t' /\
  untouched t t' /\ _currentScreen t' = _currentScreen t /\ _currentScreenType t' = _currentScreenType t.
Proof.
  intros Ht. pose proof Ht as [Sp Sa Sh Si Hl [Hmv Hmh] Hr Hc]. unfold terminal_applyPageSize.
  assert (Hres : forall u s, totalPageSize u = totalPageSize t -> sized (mkPageSize 1 (columns (totalPageSize t))) s ->
    exists s', resize_status_line u s = Some s' /\ sized (mkPageSize 1 (columns (totalPageSize t))) s' /\ _grid s' = _grid s).
  { intros u s Eu Hs. destruct (resize_status_same u s) as (s' & E & G); [by rewrite Eu; apply Hs|].
    exists s'. split; [done|]. split; [|done]. unfold resize_status_line in E. apply bind_Some in E as ([g c] & _ & [= <-]).
    simpl in G. subst g. by destruct Hs. }
  destruct type; cbn [screen_ref on_screen].
  - destruct (sized_apply (load t (_primaryScreen t) (_mainScreenMargin t)) (mainDisplayPageSize t))
      as (s & -> & Ss & Sm & St & Sg); [by destruct Sp|done|done|]. cbn [mbind option_bind]. rewrite St, Sm.
    change (_terminal (load t _ _)) with (shared t). rewrite unload_same by done.
    set (u := with_mainMargin _ _). destruct (Hres u (_hostWritableStatusLineScreen u) eq_refl Sh) as (h & -> & Sh' & Gh).
    cbn [mbind option_bind]. destruct (Hres u (_indicatorStatusScreen u) eq_refl Si) as (i & -> & Si' & _).
    cbn [mbind option_bind]. eexists. split; [done|]. split; [|done].
    apply (settled_change t); try done; simpl; [by rewrite Gh|by right|by rewrite Sg].
  - destruct (sized_apply (load t (_alternateScreen t) (_mainScreenMargin t)) (mainDisplayPageSize t))
      as (s & -> & Ss & Sm & St & Sg); [by destruct Sa|done|done|]. cbn [mbind option_bind]. rewrite St, Sm.
    change (_terminal (load t _ _)) with (shared t). rewrite unload_same by done.
    set (u := with_mainMargin _ _). destruct (Hres u (_hostWritableStatusLineScreen u) eq_refl Sh) as (h & -> & Sh' & Gh).
    cbn [mbind option_bind]. destruct (Hres u (_indicatorStatusScreen u) eq_refl Si) as (i & -> & Si' & _).
    cbn [mbind option_bind]. eexists. split; [done|]. split; [|done].
    apply (settled_change t); try done; simpl; [by rewrite Gh|by right].
Qed.

Lemma settled_setScreen type t : settled t -> exists t', setScreen type t = Some t' /\ settled t' /\ untouched t t' /\
  _currentScreenType t' = type.
Proof.
  intros Ht. unfold setScreen. case_bool_decide as E; [by exists t|]. cbv zeta. set (u := with_screenType type _).
  assert (Hu : settled u) by (pose proof Ht as []; apply (settled_change t); first [done|by left]).
  destruct (settled_apply type u Hu) as (t' & E' & Ht' & Hun & Hc & Hty).
  unfold applyPageSizeToCurrentBuffer. change (_currentScreenType u) with type. rewrite E'. cbn [mbind option_bind].
  eexists. split; [done|]. split; [pose proof Ht' as []; apply (settled_change t'); first [done|by left]|].
  split; [|exact Hty]. by transitivity t'; [transitivity u|].
Qed.

(** ** The modes of a reset *)

Lemma setMode_bit m b t : m ∈ [Mode.SixelCursorNextToGraphic; Mode.Unicode; Mode.VisibleCursor] ->
  frozen (_modes t) m = false -> setMode m b t = Some (with_modes (set_dec m b (_modes t)) t).
Proof.
  intros Hm Hf. unfold setMode. cbn [setMode_fuel]. rewrite Hf. rewrite !elem_of_cons, elem_of_nil in Hm.
  destruct Hm as [->|[->|[->|[]]]]; unfold mode_effect; decide_modes; reflexivity.
Qed.
Lemma setMode_AutoWrap b t : frozen (_modes t) Mode.AutoWrap = false -> setMode Mode.AutoWrap b t =
  Some (with_modes (set_dec Mode.AutoWrap b (_modes t)) (on_cursor (_currentScreen t) (fun c => set_modes c b (originMode c)) t)).
Proof.
  intros Hf. unfold setMode. cbn [setMode_fuel]. rewrite Hf. unfold mode_effect. decide_modes. destruct (_currentScreen t); reflexivity.
Qed.
Lemma setMode_TextReflow b t : frozen (_modes t) Mode.TextReflow = false -> setMode Mode.TextReflow b t =
  (t' ← mode_TextReflow b t; Some (with_modes (set_dec Mode.TextReflow b (_modes t')) t')).
Proof. intros Hf. unfold setMode. cbn [setMode_fuel]. rewrite Hf. unfold mode_effect. decide_modes. reflexivity. Qed.

Lemma settled_modes t ms : settled t -> settled (with_modes ms t).
Proof. intros Ht. pose proof Ht as []. apply (settled_change t); first [done|by left]. Qed.
Lemma settled_cursor t r f : settled t -> (forall c, position (f c) = position c) -> settled (on_cursor r f t).
Proof.
  intros Ht Hf. pose proof Ht as [[] [] [] [] ? ? ? ?].
  destruct r; apply (settled_change t); first [done|by left|by split; unfold cursor_line, cursor_column in *; simpl; rewrite ?Hf].
Qed.


(** [mode_TextReflow] changes flags of lines only. *)
Lemma settled_TextReflow t : settled t -> exists t', mode_TextReflow (allowReflowOnResize (_settings t)) t = Some t' /\
  settled t' /\ untouched t t' /\ _modes t' = _modes t /\ _currentScreen t' = _currentScreen t /\
  _currentScreenType t' = _currentScreenType t.
Proof.
  intros Ht. pose proof Ht as [Sp Sa Sh Si Hl Hm Hr Hc]. unfold mode_TextReflow.
  destruct (allowReflowOnResize (_settings t) && isPrimaryScreen t) eqn:E; [|by exists t].
  apply andb_prop in E as [-> _]. rewrite Z.sub_0_r. unfold update_lines.
  pose proof Sp as [Gp [Gr Gl Gu] Gv Gy Gx].
  assert (Hpos : 0 <= lines (totalPageSize t)).
  { pose proof (sz_page _ _ Sh) as Eh. pose proof (sz_page _ _ Si) as Ei.
    assert (lines (mainDisplayPageSize t) <= lines (totalPageSize t)); [|lia].
    unfold mainDisplayPageSize, page_minus. simpl. rewrite statusLineHeight_one by (by rewrite ?Eh, ?Ei).
    destruct (visible _); lia. }
  destruct (view_update_range (_lines (_grid (_primaryScreen t))) (fun l => Some (setWrappable l true)) 0
    (Z.to_nat (lines (totalPageSize t))) _ Gr ltac:(lia) ltac:(lia) (mapM_total _ _)) as (r & -> & Hr' & Hs' & _).
  cbn [fmap option_fmap option_map mbind option_bind]. eexists. split; [done|]. split; [|done].
  apply (settled_change t); try done; [|by left|simpl; by rewrite Hs'].
  split; try done; [split; simpl; rewrite ?Hs'; done|].
  unfold verifyState, totalLineCount, maxHistoryLineCount in *. simpl. by rewrite Hs'.
Qed.

Lemma on_cursor_refs r f t ms : untouched t (with_modes ms (on_cursor r f t)) /\
  _currentScreen (with_modes ms (on_cursor r f t)) = _currentScreen t /\
  _currentScreenType (with_modes ms (on_cursor r f t)) = _currentScreenType t.
Proof. by destruct r. Qed.

(** The modes behind [initial_modes]. *)
Definition reset_modes (reflow : bool) : Modes :=
  set_dec Mode.VisibleCursor true (set_dec Mode.Unicode true (set_dec Mode.TextReflow reflow
    (set_dec Mode.SixelCursorNextToGraphic true (set_dec Mode.AutoWrap true Modes_init)))).

Lemma settled_initial_modes t : settled t -> _modes t = Modes_init -> exists t', initial_modes t = Some t' /\
  settled t' /\ untouched t t' /\ _modes t' = reset_modes (allowReflowOnResize (_settings t)) /\
  _currentScreen t' = _currentScreen t /\ _currentScreenType t' = _currentScreenType t.
Proof.
  intros Ht Hm. unfold initial_modes. rewrite setMode_AutoWrap by (by rewrite Hm). cbn [mbind option_bind]. rewrite Hm.
  set (t1 := with_modes _ _).
  assert (Ht1 : settled t1) by (by apply settled_modes, settled_cursor).
  assert (Hu1 : untouched t t1 /\ _currentScreen t1 = _currentScreen t /\ _currentScreenType t1 = _currentScreenType t)
    by apply on_cursor_refs.
  rewrite setMode_bit by (set_solver || (simpl; by rewrite !frozen_set)). cbn [mbind option_bind]. set (t2 := with_modes _ t1).
  assert (Ht2 : settled t2) by (by apply settled_modes).
  rewrite setMode_TextReflow by (simpl; by rewrite !frozen_set). destruct (settled_TextReflow t2 Ht2) as (t3 & E3 & Ht3 & Hu3 & Hm3 & Hc3 & Hy3).
  assert (Hset : _settings t2 = _settings t) by exact (un_settings _ _ (proj1 Hu1)). rewrite Hset in E3.
  change (_settings t1) with (_settings t2). rewrite Hset, E3. cbn [mbind option_bind]. rewrite Hm3.
  rewrite setMode_bit by (set_solver || (simpl; by rewrite !frozen_set)).
  cbn [mbind option_bind]. rewrite setMode_bit by (set_solver || (simpl; by rewrite !frozen_set)).
  destruct Hu1 as (Hu1 & Hc1 & Hy1). eexists. split; [done|].
  split; [by apply settled_modes, settled_modes, settled_modes|].
  split; [by transitivity t1; [|transitivity t3; [transitivity t2|]]|].
  split; [done|]. by rewrite <- Hc1, <- Hy1.
Qed.

Lemma settled_hardReset_screens t : settled t -> exists t', hardReset_screens t = Some t' /\ settled t' /\ untouched t t' /\
  _modes t' = _modes t /\ _currentScreen t' = _currentScreen t /\ _currentScreenType t' = _currentScreenType t /\
  _cursor (_primaryScreen t') = Cursor_init /\ blank_grid (_grid (_primaryScreen t')) /\
  _cursor (_alternateScreen t') = Cursor_init /\ blank_grid (_grid (_alternateScreen t')).
Proof.
  intros Ht. pose proof Ht as [Sp Sa Sh Si Hl Hm Hr Hc]. unfold hardReset_screens. cbn [on_screen].
  destruct (sized_hardReset (load t (_primaryScreen t) (_mainScreenMargin t)) (mainDisplayPageSize t))
    as (p & -> & Sp' & Cp & Bp & Mp & Tp & Lp & Zp); [by destruct Sp|]. cbn [mbind option_bind]. rewrite Tp, Mp.
  change (_terminal (load t _ _)) with (shared t). rewrite unload_same by done. set (t1 := with_mainMargin _ _).
  destruct (sized_hardReset (load t1 (_alternateScreen t1) (_mainScreenMargin t1)) (mainDisplayPageSize t))
    as (a & -> & Sa' & Ca & Ba & Ma & Ta & La & Za); [by destruct Sa|]. cbn [mbind option_bind]. rewrite Ta, Ma.
  change (_terminal (load t1 _ _)) with (shared t1). rewrite unload_same by done. set (t2 := with_mainMargin _ _).
  destruct (sized_hardReset (load t2 (_hostWritableStatusLineScreen t2) (_hostWritableScreenMargin t2))
    (mkPageSize 1 (columns (totalPageSize t)))) as (h & Eh & Sh' & Ch & Bh & Mh & Th & Lh & Zh); [by destruct Sh|].
  rewrite Eh. cbn [mbind option_bind]. rewrite Th, Mh.
  change (_terminal (load t2 _ _)) with (shared t2). rewrite unload_same by done. set (t3 := with_hostMargin _ _).
  destruct (sized_hardReset (load t3 (_indicatorStatusScreen t3) (_indicatorScreenMargin t3))
    (mkPageSize 1 (columns (totalPageSize t)))) as (i & -> & Si' & Ci & Bi & Mi & Ti & Li & Zi); [by destruct Si|].
  cbn [mbind option_bind]. rewrite Ti, Mi.
  change (_terminal (load t3 _ _)) with (shared t3). rewrite unload_same by done.
  eexists. split; [done|]. split; [|done].
  apply (settled_change t); try done; simpl; [by rewrite Lh|by left|rewrite Zp; exact Hr].
Qed.

Lemma settled_main t t' : settled t -> settled t' -> untouched t t' -> mainDisplayPageSize t' = mainDisplayPageSize t.
Proof.
  intros [_ _ Sh Si _ _ _ _] [_ _ Sh' Si' _ _ _ _] [Hs Hse _ _ _ _ _].
  apply main_page_same; [unfold totalPageSize; by rewrite Hse|done|..].
  - by rewrite (sz_page _ _ Sh), (sz_page _ _ Sh').
  - by rewrite (sz_page _ _ Si), (sz_page _ _ Si').
Qed.

(** The steps of the reset up to the screens. *)
Lemma hardReset_first t : settled t -> frozenModes (_settings t) = [] -> exists t3 t4,
  (t ← setScreen Primary t; t ← terminal_applyPageSize Alternate t; t ← initial_modes (with_modes Modes_init t);
   freezeModes (frozenModes (_settings t)) t) = Some t3 /\
  hardReset_screens t3 = Some t4 /\ settled t4 /\ untouched t t4 /\ _currentScreenType t4 = Primary /\
  _modes t4 = reset_modes (allowReflowOnResize (_settings t)) /\
  (_cursor (_primaryScreen t4) = Cursor_init /\ blank_grid (_grid (_primaryScreen t4)) /\
   _cursor (_alternateScreen t4) = Cursor_init /\ blank_grid (_grid (_alternateScreen t4))).
Proof.
  intros Ht Hf. destruct (settled_setScreen Primary t Ht) as (t1 & -> & S1 & U1 & Y1). cbn [mbind option_bind].
  destruct (settled_apply Alternate t1 S1) as (t2 & -> & S2 & U2 & _ & Y2). cbn [mbind option_bind].
  destruct (settled_initial_modes (with_modes Modes_init t2)) as (t3 & -> & S3 & U3 & M3 & _ & Y3);
    [by apply settled_modes|done|]. cbn [mbind option_bind].
  assert (U : untouched t t3) by (transitivity t1; [done|]; transitivity t2; [done|]; by transitivity (with_modes Modes_init t2)).
  rewrite (un_settings _ _ U), Hf. cbn [freezeModes].
  destruct (settled_hardReset_screens t3 S3) as (t4 & E4 & S4 & U4 & M4 & _ & Y4 & B). exists t3, t4.
  split_and!; [done|done|done|by transitivity t3| | |apply B..].
  - rewrite Y4, Y3. change (_currentScreenType (with_modes _ t2)) with (_currentScreenType t2). by rewrite Y2.
  - rewrite M4, M3. change (_settings (with_modes _ t2)) with (_settings t2).
    by rewrite (un_settings _ _ U2), (un_settings _ _ U1).
Qed.

Lemma settled_hardReset_last t : settled t -> _currentScreenType t = Primary ->
  factoryStatusDisplay (_settings t) = _statusDisplayType t -> exists t', hardReset_last t = Some t' /\
  _currentScreenType t' = Primary /\ _currentScreen t' = PrimaryRef /\ _activeStatusDisplay t' = MainDisplay /\
  _primaryScreen t' = _primaryScreen t /\ _alternateScreen t' = _alternateScreen t /\
  _mainScreenMargin t' = full_margin (mainDisplayPageSize t) /\ _tabs t' = [] /\ _modes t' = _modes t /\
  _palettes t' = resetColorPalette (_palettes t) /\ _supportedVTSequences t' = _supportedVTSequences t /\
  _renderBufferUpdateEnabled t' = _renderBufferUpdateEnabled t /\ _inputGenerator t' = Input.reset (_inputGenerator t).
Proof.
  intros Ht Hy Hfac. pose proof Ht as [Sp Sa Sh Si [k Hk] Hm Hr Hc]. unfold hardReset_last. cbv zeta.
  set (t1 := on_palettes _ _). set (t2 := with_hostMargin _ t1).
  change (_hostWritableStatusLineScreen t2) with (_hostWritableStatusLineScreen t) at 1.
  rewrite (sized_verifies _ _ Sh). cbn [negb].
  set (t3 := setActiveStatusDisplay MainDisplay t2).
  assert (H3 : exists a, t3 = with_current PrimaryRef (with_activeStatusDisplay a t2) /\ a = MainDisplay).
  { unfold t3, setActiveStatusDisplay. case_bool_decide as Ea.
    - eexists. split; [|done]. change (_activeStatusDisplay t2) with (_activeStatusDisplay t) in Ea.
      specialize (Hc Ea). rewrite Hy in Hc. cbn [screen_ref] in Hc. clear -Ea Hc. subst t2 t1. destruct t. simpl in *. by subst.
    - eexists. split; [|done]. change (_currentScreenType (with_activeStatusDisplay _ t2)) with (_currentScreenType t). by rewrite Hy. }
  destruct H3 as (? & E3 & ->). clearbody t3. subst t3. cbn [on_screen].
  set (t3 := with_current PrimaryRef _).
  destruct (clearScreen_total (load t3 (_hostWritableStatusLineScreen t3) (_hostWritableScreenMargin t3))
    (mkPageSize 1 (columns (totalPageSize t))) k) as (s & Es & Ts); [by destruct Sh| |done|].
  { change (_margin (load t3 _ _)) with (full_margin (pageSize (_hostWritableStatusLineScreen t))). by rewrite (sz_page _ _ Sh). }
  pose proof (clearScreen_page _ _ _ _ Es) as Ps. rewrite Es. cbn [mbind option_bind].
  change (_terminal (updateCursorIterator s)) with (_terminal s). rewrite Ts.
  change (_terminal (load t3 _ _)) with (shared t3). rewrite unload_same by done. set (t4 := with_hostMargin _ _).
  change (_primaryScreen (with_mainMargin _ t4)) with (_primaryScreen t). rewrite (sized_verifies _ _ Sp). cbn [negb].
  set (t5 := with_mainMargin _ t4). unfold setStatusDisplay. change (_currentScreen t5) with PrimaryRef.
  rewrite bool_decide_false by done. change (_settings t5) with (_settings t). rewrite Hfac.
  rewrite bool_decide_true by done. cbn [mbind option_bind]. eexists. split; [done|]. split_and!; try done.
  change (full_margin (mainDisplayPageSize t4) = full_margin (mainDisplayPageSize t)). f_equal.
  apply main_page_same; try done. exact (f_equal lines Ps).
Qed.

(** The input generator [g'] after the reset of [g]: no paste brackets, focus
    events or mouse protocol, the plain mouse transport and wheel, and the
    lowest level of the keyboard flags, empty.  The modes of the cursor and
    keypad keys, the passive tracking and the bytes not yet sent stay. *)
Record input_reset (g g' : InputGenerator) : Prop := {
  ir_paste : _bracketedPaste g' = false;
  ir_focus : _generateFocusEvents g' = false;
  ir_mouse : _mouseProtocol g' = None /\ _mouseTransport g' = DefaultTransport /\ _mouseWheelMode g' = DefaultWheel;
  ir_flags : _currentStackTop (_keyboard g') = 0%nat /\ top_flags (_keyboard g') = 0;
  ir_keys : _cursorKeysMode (_keyboard g') = _cursorKeysMode (_keyboard g) /\
            _numpadKeysMode (_keyboard g') = _numpadKeysMode (_keyboard g);
  ir_pending : Input.peek g' = Input.peek g;
  ir_passive : _passiveMouseTracking g' = _passiveMouseTracking g
}.
Lemma input_reset_done g : input_reset g (Input.reset g).
Proof.
  split; try done. split; [done|]. unfold top_flags. simpl. destruct (_flags (_keyboard g)); done.
Qed.

(** C7: A hard reset (RIS) of a terminal whose four screens have their sizes, whose settings
    freeze no modes and whose configured status display is the one shown, always succeeds:
    output goes to the primary screen, both main screens are blank with initial cursors and
    without history, the margins are the page, there are no own tab stops, exactly the initial
    modes are set, and the palette is the default one. The input generator has no paste
    brackets, focus events, mouse protocol or keyboard flags any more, but keeps the modes of
    the cursor and keypad keys, passive tracking and the bytes not yet sent; the supported
    sequences and the switch of synchronized output also stay, even though the modes that govern
    them are reset. With a frozen mode its cursor flag is lost (frozen_mode_lost). *)
Theorem hard_reset_correct t : settled t -> frozenModes (_settings t) = [] ->
  factoryStatusDisplay (_settings t) = _statusDisplayType t ->
  exists t', hardReset t = Some t' /\
    (_currentScreenType t' = Primary /\ _currentScreen t' = PrimaryRef /\ _activeStatusDisplay t' = MainDisplay) /\
    (_cursor (_primaryScreen t') = Cursor_init /\ blank_grid (_grid (_primaryScreen t')) /\
     _cursor (_alternateScreen t') = Cursor_init /\ blank_grid (_grid (_alternateScreen t'))) /\
    _mainScreenMargin t' = full_margin (mainDisplayPageSize t) /\ _tabs t' = [] /\
    _modes t' = reset_modes (allowReflowOnResize (_settings t)) /\
    _colorPalette (_palettes t') = _defaultColorPalette (_palettes t) /\
    input_reset (_inputGenerator t) (_inputGenerator t') /\
    _supportedVTSequences t' = _supportedVTSequences t /\
    _renderBufferUpdateEnabled t' = _renderBufferUpdateEnabled t.
Proof.
  intros Ht Hf Hfac. destruct (hardReset_first t Ht Hf) as (t3 & t4 & E3 & E4 & S4 & U4 & Y4 & M4 & B4).
  assert (E : hardReset t = (t ← (t ← setScreen Primary t; t ← terminal_applyPageSize Alternate t;
    t ← initial_modes (with_modes Modes_init t); freezeModes (frozenModes (_settings t)) t);
    t ← hardReset_screens t; hardReset_last t)).
  { unfold hardReset. destruct (setScreen Primary t) as [u1|]; [|done]. cbn [mbind option_bind].
    destruct (terminal_applyPageSize Alternate u1) as [u2|]; [|done]. cbn [mbind option_bind].
    by destruct (initial_modes _). }
  rewrite E, E3. cbn [mbind option_bind]. rewrite E4. cbn [mbind option_bind].
  destruct (settled_hardReset_last t4) as (t' & -> & G); [done|done|by rewrite (un_settings _ _ U4), (un_status _ _ U4)|].
  exists t'. split; [done|]. destruct G as (G1 & G2 & G3 & G4 & G5 & G6 & G7 & G8 & G9 & G10 & G11 & G12).
  rewrite G1, G2, G3, G4, G5, G6, G7, G8, G9, G10, G11, G12, M4, (un_palettes _ _ U4), (un_sequences _ _ U4), (un_render _ _ U4), (un_input _ _ U4).
  rewrite (settled_main t t4) by done. split_and!; try done; [apply B4..|apply input_reset_done].
Qed.

End Terminal.

(** ** The stack of palettes *)

(** Pushing to a slot and popping it brings the palette back. *)
Lemma palette_slot_roundtrip slot p : (1 <= slot <= MaxColorPaletteSaveStackSize)%nat -> forall c,
  exists p', popColorPalette slot (setColorPalette c (pushColorPalette slot p)) = Some p' /\ _colorPalette p' = _colorPalette p.
Proof.
  intros Hs c. unfold pushColorPalette. rewrite (proj2 (Nat.ltb_ge _ slot)), (proj2 (Nat.eqb_neq slot 0)) by lia. cbn [negb andb].
  set (stack := if (length (_savedColorPalettes p) <=? slot - 1)%nat then _ else _). assert (Hl : (slot - 1 < length stack)%nat).
  { unfold stack. destruct (Nat.leb_spec (length (_savedColorPalettes p)) (slot - 1)); [rewrite length_app, length_replicate|]; lia. }
  unfold popColorPalette. cbn [_savedColorPalettes setColorPalette].
  assert (Hn : <[(slot - 1)%nat := _colorPalette p]> stack <> []).
  { intros E. apply (f_equal length) in E. rewrite length_insert in E. simpl in E. lia. }
  destruct (<[(slot - 1)%nat := _colorPalette p]> stack) as [|x l] eqn:E; [done|].
  rewrite (proj2 (Nat.eqb_neq slot 0)) by lia. rewrite <- E, list_lookup_insert_eq by done. cbn [mbind option_bind].
  by eexists.
Qed.

(** ** Concrete terminals *)

Module Examples.

#[local] Instance narrow : UnicodeWidth := fun _ => 1.
#[local] Instance per_char : GraphemeSegmenter := fun _ _ => true.
#[local] Existing Instance latin1.

(** Three lines of ten columns, four lines of history. *)
Definition demo : Terminal SimpleCell.t SimpleCell.t :=
  Terminal_members (mkPageSize 3 10) true (LimitedTo 4) [] NoStatusLine false new_input SupportedSequences_init ColorPalette_init.

Lemma demo_at_primary : at_primary demo.
Proof. split; try done; unfold cursor_line, cursor_column; simpl; lia. Qed.
Lemma demo_settled : settled demo.
Proof.
  split; try done; try (split; try done; unfold cursor_line, cursor_column; simpl; try lia; split; unfold ring_ok, size; simpl; lia).
  by eexists.
Qed.

(** An application that moves the cursor, sets a margin and switches off
    wrapping on the alternate screen. *)
Definition moved : ScreenOp := fun C _ s => Some (moveCursorTo s 2 5).

Lemma alternate_screen_roundtrip_witness :
  exists t1 t2 t3, setMode Mode.ExtendedAltScreen true demo = Some t1 /\ rtc app_step t1 t2 /\
    setMode Mode.ExtendedAltScreen false t2 = Some t3 /\ _grid (_primaryScreen t3) = _grid (_primaryScreen demo).
Proof.
  destruct (setMode Mode.ExtendedAltScreen true demo) as [t1|] eqn:E1; [|vm_compute in E1; discriminate E1].
  assert (Ea : activeDisplay t1 = AlternateRef) by (vm_compute in E1; injection E1 as <-; reflexivity).
  destruct (on_screen (activeDisplay t1) moved t1) as [t2|] eqn:E2; [|rewrite Ea in E2; discriminate E2].
  assert (Hs : rtc app_step t1 t2).
  { apply rtc_once. eapply (step_screen t1 moved); [|by rewrite Ea|exact E2]. intros C CC s s' [= <-]. reflexivity. }
  destruct (alternate_screen_roundtrip demo t1 t2 demo_at_primary E1 Hs) as (t3 & E3 & G & _).
  exists t1, t2, t3. split; [reflexivity|]. split; [exact Hs|]. split; [exact E3|exact G].
Defined.

Lemma hard_reset_correct_witness :
  exists t', hardReset demo = Some t' /\ blank_grid (_grid (_primaryScreen t')) /\
    isModeEnabled t' Mode.AutoWrap = true /\ isModeEnabled t' Mode.Origin = false.
Proof.
  destruct (hard_reset_correct demo demo_settled eq_refl eq_refl) as (t' & E & _ & (_ & B & _) & _ & _ & M & _).
  exists t'. split; [exact E|]. split; [exact B|]. unfold isModeEnabled. rewrite M. split; vm_compute; reflexivity.
Defined.

(** Pushing without a slot overwrites the top: of two nested pushes only the
    inner palette comes back. *)
Example palette_pushes_do_not_nest :
  let a := ColorPalette_init in
  let b := mkColorPalette true (palette a) (defaultForeground a) (defaultBackground a) (defaultForegroundBright a) (defaultForegroundDimmed a) in
  let p := pushColorPalette 0 (setColorPalette b (pushColorPalette 0 (mk_palettes a a [] 0))) in
  (useBrightColors ∘ _colorPalette <$> (p ← popColorPalette 0 p; popColorPalette 0 p)) = Some true.
Proof. vm_compute. reflexivity. Qed.

(** Popping a slot that was never pushed reads behind the vector. *)
Example palette_pop_out_of_range :
  popColorPalette 3 (pushColorPalette 0 (mk_palettes ColorPalette_init ColorPalette_init [] 0)) = None.
Proof. vm_compute. reflexivity. Qed.

(** Restoring saved modes changes the bit but not the cursor that carries the
    mode. *)
Example restored_mode_without_effect :
  (fun t => let t := restoreModes [Mode.AutoWrap] t in
            (isModeEnabled t Mode.AutoWrap, autoWrap (_cursor (_primaryScreen t)))) <$>
    (t ← setMode Mode.AutoWrap true demo; setMode Mode.AutoWrap false (saveModes [Mode.AutoWrap] t)) = Some (true, false).
Proof. vm_compute. reflexivity. Qed.

(** A mode carried by the cursor changes for one screen only, its bit for both. *)
Example mode_differs_between_screens :
  (fun t => (isModeEnabled t Mode.AutoWrap, autoWrap (_cursor (_primaryScreen t)))) <$>
    (t ← setMode Mode.AutoWrap true demo; t ← setMode Mode.ExtendedAltScreen true t;
     t ← setMode Mode.AutoWrap false t; setMode Mode.ExtendedAltScreen false t) = Some (false, true).
Proof. vm_compute. reflexivity. Qed.

(** In origin mode a margin set on the alternate screen moves the cursor of
    the primary screen. *)
Example origin_cursor_moved :
  (fun t => cursor_line (_primaryScreen t)) <$>
    (t ← setMode Mode.Origin true demo; t ← on_screen PrimaryRef moved t;
     t ← setMode Mode.ExtendedAltScreen true t;
     setMode Mode.ExtendedAltScreen false (terminal_setTopBottomMargin (Some 0) (Some 1) t)) = Some 1.
Proof. vm_compute. reflexivity. Qed.

(** A hard reset inside synchronized output clears the mode but leaves the
    display off, and resetting the mode again has no effect. *)
Example reset_keeps_display_off :
  (fun t => (isModeEnabled t Mode.BatchedRendering, _renderBufferUpdateEnabled t)) <$>
    (t ← setMode Mode.BatchedRendering true demo; t ← hardReset t; setMode Mode.BatchedRendering false t)
  = Some (false, false).
Proof. vm_compute. reflexivity. Qed.

(** A frozen mode of the cursor is set by the reset and then lost with the
    cursor. *)
Example frozen_mode_lost :
  let t := with_settings (mk_settings (mkPageSize 3 10) true [(Mode.AutoWrap, false)] NoStatusLine false) demo in
  (fun t => (isModeEnabled t Mode.AutoWrap, autoWrap (_cursor (_primaryScreen t)))) <$> hardReset t = Some (false, true).
Proof. vm_compute. reflexivity. Qed.

(** Resetting the mode of an extended mouse transport selects it. *)
Example mouse_transport_selected :
  (fun t => _mouseTransport (_inputGenerator t)) <$> setMode Mode.MouseURXVT false demo = Some URXVT.
Proof. vm_compute. reflexivity. Qed.

(** Switching the screen while output goes to the status line makes the
    current screen another one than the one written to. *)
Example current_is_not_active :
  (fun t => (_currentScreen t, activeDisplay t)) <$>
    setMode Mode.UseAlternateScreen true (setActiveStatusDisplay StatusLine demo) = Some (AlternateRef, HostWritableRef).
Proof. vm_compute. reflexivity. Qed.

(** With a status line shown, resizing to the same size moves the cursor of
    the normal mode up. *)
Example vi_cursor_drifts :
  (fun t => line (_viCursorPosition t)) <$>
    (t ← setStatusDisplay Indicator demo; resizeScreen (mkPageSize 3 10) (with_viCursor (mkLoc 1 0) t)) = Some 0.
Proof. vm_compute. reflexivity. Qed.

End Examples.
