(* ===== verification/TerminalResize.v ===== *)
(** * Resizing the window (Terminal::resizeScreen of src/vtbackend/Terminal.cpp)

    The definitions are in Terminal.v.  Here: a resize of the window never
    trips the checks of the terminal, whatever the new size, and gives the
    screen shown, the status lines, the margins and the device their sizes. *)
From S2P Require Import Prelude Parser Color Modes Cell Ring Line Grid Charset Screen Reflow Resize Input Terminal.

Section TerminalResize.
Context `{LibUnicode, UnicodeWidth, GraphemeSegmenter} {MC SC : Type} `{CellLaws MC} `{CellLaws SC}.
Abbreviation Terminal := (Terminal.Terminal MC SC).
Implicit Types t : Terminal.

Definition main_screen t : Screen.Screen MC :=
  match _currentScreenType t with Primary => _primaryScreen t | Alternate => _alternateScreen t end.

(** A status line: one line, no history, no reflow. *)
Record status_line (s : Screen.Screen SC) : Prop := {
  sl_ok : grid_ok (_grid s);
  sl_verify : verifyState (_grid s) = true;
  sl_reflow : _reflowOnResize (_grid s) = false;
  sl_limit : _historyLimit (_grid s) = LimitedTo 0;
  sl_lines : lines (pageSize s) = 1
}.

(** The terminal shows a main screen, with a history of at most [k] lines. *)
Record showing t (k : Z) : Prop := {
  sh_active : _activeStatusDisplay t = MainDisplay;
  sh_current : _currentScreen t = screen_ref (_currentScreenType t);
  sh_ok : grid_ok (_grid (main_screen t));
  sh_verify : verifyState (_grid (main_screen t)) = true;
  sh_reflow : reflowable (_grid (main_screen t));
  sh_limit : _historyLimit (_grid (main_screen t)) = LimitedTo k;
  sh_bound : 0 <= k < 2 ^ 31;
  sh_cursor : cursor_line (main_screen t) < lines (pageSize (main_screen t));
  sh_host : status_line (_hostWritableStatusLineScreen t);
  sh_indicator : status_line (_indicatorStatusScreen t)
}.

Lemma status_line_resize t (s : Screen.Screen SC) : status_line s -> 0 < columns (totalPageSize t) ->
  exists s', resize_status_line t s = Some s' /\ pageSize s' = mkPageSize 1 (columns (totalPageSize t)).
Proof.
  intros [Ho Hv Hr Hl Hn] Hc. unfold resize_status_line.
  destruct (grid_resize_total (_grid s) (mkPageSize 1 (columns (totalPageSize t))) (mkLoc 0 0) false 0)
    as (g & c & -> & _ & _ & Hp); try done; try (simpl; lia).
  - intros E. by rewrite Hr in E.
  - unfold pageSize in Hn. rewrite Hn. simpl. lia.
  - eexists. split; [done|]. exact Hp.
Qed.

Lemma truncated_tabs l limit : match last (reverse (truncate_tabs l limit)) with Some x => x < limit | None => True end.
Proof.
  rewrite last_reverse. induction l as [|x l IH]; [done|]. cbn [truncate_tabs].
  destruct (Z.leb_spec limit x); [exact IH|done].
Qed.

Lemma clampToTotal_range t p : 0 < lines (totalPageSize t) -> 0 < columns (totalPageSize t) ->
  line (clampToTotal t p) < lines (totalPageSize t) /\ column (clampToTotal t p) < columns (totalPageSize t).
Proof.
  intros Hl Hc. unfold clampToTotal. simpl.
  pose proof (clamp_range (line p) 0 (lines (totalPageSize t) - 1)).
  pose proof (clamp_range (column p) 0 (columns (totalPageSize t) - 1)). lia.
Qed.

(** The page size reaches the screen shown and both status lines. *)
Lemma showing_apply t k : showing t k -> _mainScreenMargin t = full_margin (mainDisplayPageSize t) ->
  0 < lines (mainDisplayPageSize t) < 2 ^ 31 -> 0 < columns (mainDisplayPageSize t) ->
  exists t', applyPageSizeToCurrentBuffer t = Some t' /\ sized (mainDisplayPageSize t) (main_screen t') /\
    _mainScreenMargin t' = full_margin (mainDisplayPageSize t) /\ _settings t' = _settings t /\
    pageSize (_hostWritableStatusLineScreen t') = mkPageSize 1 (columns (totalPageSize t)) /\
    pageSize (_indicatorStatusScreen t') = mkPageSize 1 (columns (totalPageSize t)) /\
    (match last (_tabs t') with Some x => x < columns (totalPageSize t) | None => True end) /\
    _currentScreen t' = _currentScreen t /\ _currentScreenType t' = _currentScreenType t /\
    _statusDisplayType t' = _statusDisplayType t /\ _mousePosition t' = _mousePosition t.
Proof.
  intros Ht Hm Hl Hc. pose proof Ht as [Ha Hcur Ho Hv Hre Hk Hkb Hy Hh Hi].
  assert (Hcols : columns (mainDisplayPageSize t) = columns (totalPageSize t)) by done.
  assert (Hone : exists s, applyPageSizeToMainDisplay (load t (main_screen t) (_mainScreenMargin t)) (mainDisplayPageSize t) = Some s /\
    sized (mainDisplayPageSize t) s /\ _margin s = full_margin (mainDisplayPageSize t)).
  { destruct (full_margin_ok (mainDisplayPageSize t)) as [Hmv Hmh]; [lia|lia|].
    destruct (grid_resize_total (_grid (main_screen t)) (mainDisplayPageSize t)
      (realCursorPosition (main_screen t)) (wrapPending (_cursor (main_screen t))) k) as (g & c & E & G1 & G2 & G3);
      try done; try lia.
    destruct (applyPageSize_sized (load t (main_screen t) (_mainScreenMargin t)) (mainDisplayPageSize t) g c)
      as (s & E' & Hs & Hms & _); [exact E|done|done|done|lia|lia|simpl; by rewrite Hm|simpl; by rewrite Hm|].
    by exists s. }
  destruct Hone as (s & Es & Hs & Hms). unfold applyPageSizeToCurrentBuffer, terminal_applyPageSize.
  assert (Hon : exists u, on_screen (screen_ref (_currentScreenType t))
      (fun C _ s => applyPageSizeToMainDisplay s (mainDisplayPageSize t)) t = Some u /\ main_screen u = s /\
      _mainScreenMargin u = _margin s /\ _settings u = _settings t /\
      _hostWritableStatusLineScreen u = _hostWritableStatusLineScreen t /\ _indicatorStatusScreen u = _indicatorStatusScreen t /\
      _currentScreen u = _currentScreen t /\ _currentScreenType u = _currentScreenType t /\
      _statusDisplayType u = _statusDisplayType t /\ _mousePosition u = _mousePosition t).
  { unfold main_screen in *. destruct (_currentScreenType t) eqn:Ey; cbn [screen_ref on_screen]; rewrite Es;
      cbn [mbind option_bind]; eexists; (split; [done|]); simpl; by rewrite Ey. }
  destruct Hon as (u & -> & U1 & U2 & U3 & U4 & U5 & U6 & U7 & U8 & U9). cbn [mbind option_bind].
  assert (Eu : totalPageSize u = totalPageSize t) by (unfold totalPageSize; by rewrite U3).
  destruct (status_line_resize u (_hostWritableStatusLineScreen u)) as (h & -> & Ph); [by rewrite U4|by rewrite Eu, <- Hcols|].
  cbn [mbind option_bind].
  destruct (status_line_resize u (_indicatorStatusScreen u)) as (i & -> & Pi); [by rewrite U5|by rewrite Eu, <- Hcols|].
  cbn [mbind option_bind]. eexists. split; [done|]. rewrite Eu in Ph, Pi.
  split; [exact (eq_rect_r (sized (mainDisplayPageSize t)) Hs U1)|].
  split; [exact (eq_trans U2 Hms)|]. split; [done|]. split; [done|]. split; [done|]. split; [|done].
  rewrite <- Eu. exact (truncated_tabs (reverse (_tabs u)) (columns (totalPageSize u))).
Qed.

(** What the checks of the terminal look at. *)
Lemma settled_verifies t p : sized p (main_screen t) -> _currentScreen t = screen_ref (_currentScreenType t) ->
  _mainScreenMargin t = full_margin p -> _ptyPageSize t = p ->
  line (_mousePosition t) < lines (totalPageSize t) -> column (_mousePosition t) < columns (totalPageSize t) ->
  pageSize (_hostWritableStatusLineScreen t) = mkPageSize 1 (columns (totalPageSize t)) ->
  pageSize (_indicatorStatusScreen t) = mkPageSize 1 (columns (totalPageSize t)) ->
  (match last (_tabs t) with Some x => x < columns (totalPageSize t) | None => True end) ->
  terminal_verifyState t = true.
Proof.
  intros Hs Hcur Hm Hp Hl Hc Hh Hi Ht. unfold terminal_verifyState. cbv zeta. rewrite Hh, Hi, Hm, Hp.
  assert (Hv : currentScreen_verifies t = true).
  { unfold currentScreen_verifies. rewrite Hcur. apply sized_verifies in Hs. unfold main_screen in Hs.
    by destruct (_currentScreenType t). }
  rewrite Hv. cbn [lines columns from to horizontal vertical full_margin]. rewrite !Z.eqb_refl. zbool.
  destruct (last (_tabs t)); zbool; done.
Qed.

(** C8: While the terminal writes to a main screen (the active display is the main one, not the
    status line), that screen has a limited history of fewer than 2^31 lines and passes the
    checks of its grid, with its cursor above the bottom of the page and, if it reflows, with
    lines at least as wide as the page and fewer than 2^32 cells and lines in use, and the
    status lines are single lines that do not reflow: resizing the window to any size that
    leaves the page at least one line and one column succeeds. The screen shown gets the window
    less the status line, with its cursor inside; the margins are that page; both status lines
    get one line of the width of the window; the device is told the size of the page, and every
    check of the terminal passes. While the host writes to the status line the resize can fail
    (narrowed_status_line). *)
Theorem window_resize_safe t k (total : PageSize) : showing t k ->
  let main := page_minus total (statusLineHeight t) in
  0 < lines main < 2 ^ 31 -> 0 < columns main ->
  exists t', resizeScreen total t = Some t' /\ sized main (main_screen t') /\
    _mainScreenMargin t' = full_margin main /\ totalPageSize t' = total /\ _ptyPageSize t' = main /\
    pageSize (_hostWritableStatusLineScreen t') = mkPageSize 1 (columns total) /\
    pageSize (_indicatorStatusScreen t') = mkPageSize 1 (columns total) /\ terminal_verifyState t' = true.
Proof.
  intros Ht main Hl Hc. unfold resizeScreen. cbv zeta. fold main.
  set (u := with_mainMargin (full_margin main) _).
  assert (Hu : showing u k) by (by destruct Ht).
  assert (Hlines : 0 <= statusLineHeight t).
  { destruct Ht as [_ _ _ _ _ _ _ _ [_ _ _ _ Eh] [_ _ _ _ Ei]]. unfold statusLineHeight.
    destruct (_statusDisplayType t); lia. }
  destruct (showing_apply u k Hu eq_refl Hl Hc) as (t' & -> & Hs & Hm & Hset & Hh & Hi & Htab & Hcur & Htype & _ & Hmouse).
  cbn [mbind option_bind].
  assert (Etot : totalPageSize t' = total) by (unfold totalPageSize; by rewrite Hset).
  change (mainDisplayPageSize u) with main in *. change (totalPageSize u) with total in *.
  set (w := with_viCursor _ _).
  assert (Hv : terminal_verifyState w = true).
  { destruct (clampToTotal_range (with_settings (with_pageSize total (_settings t)) t) (_mousePosition t)) as [M1 M2];
      [change (0 < lines total); change (lines main) with (lines total - statusLineHeight t) in Hl; lia|exact Hc|].
    assert (Ew : totalPageSize w = total) by exact Etot.
    apply (settled_verifies w main); rewrite ?Ew; try done.
    - change (_currentScreen t' = screen_ref (_currentScreenType t')). rewrite Hcur, Htype. apply (sh_current _ _ Hu).
    - change (line (_mousePosition t') < lines total). rewrite Hmouse. exact M1.
    - change (column (_mousePosition t') < columns total). rewrite Hmouse. exact M2. }
  rewrite Hv. by exists w.
Qed.

End TerminalResize.

(** ** Concrete cases *)

Module Examples.

#[local] Instance narrow : UnicodeWidth := fun _ => 1.
#[local] Instance per_char : GraphemeSegmenter := fun _ _ => true.
#[local] Existing Instance latin1.
Import Terminal.Examples.

(** Three lines of ten columns become seven of four. *)
Lemma window_resize_safe_witness :
  exists t', resizeScreen (mkPageSize 7 4) demo = Some t' /\ pageSize (_primaryScreen t') = mkPageSize 7 4.
Proof.
  destruct (window_resize_safe demo 4 (mkPageSize 7 4)) as (t' & E & Hs & _).
  - split; try done; try lia.
    + split; unfold ring_ok, size; simpl; lia.
    + intros _. split; [repeat constructor; unfold line_size; simpl; try lia; by eexists|vm_compute; reflexivity].
    + split; try done. split; unfold ring_ok, size; simpl; lia.
    + split; try done. split; unfold ring_ok, size; simpl; lia.
  - vm_compute; split; reflexivity.
  - vm_compute; reflexivity.
  - exists t'. split; [exact E|]. vm_compute in E. injection E as <-. reflexivity.
Defined.

(** While the host writes to the status line, its cursor stays where it was
    when the window narrows, and the check of the current screen fails. *)
Definition writing_status_line : Terminal.Terminal SimpleCell.t SimpleCell.t :=
  let t := setActiveStatusDisplay StatusLine demo in
  with_hostWritable (with_cursor (_hostWritableStatusLineScreen t)
    (set_position (_cursor (_hostWritableStatusLineScreen t)) (mkLoc 0 8))) t.
Example narrowed_status_line : resizeScreen (mkPageSize 3 10) writing_status_line <> None /\
  resizeScreen (mkPageSize 3 4) writing_status_line = None.
Proof. split; vm_compute; done. Qed.

End Examples.
