(* ===== verification/Selection.v ===== *)
(** * Selections (src/vtbackend/Selector.h, Selector.cpp, and the coordinates
      of primitives.h)

    A selection is a pair of positions and a way to extend it; what is
    selected is a predicate on positions ([contains]) and a list of column
    ranges ([ranges]).  The screen is seen through [SelectionHelper]. *)
From stdpp Require Import list numbers sets sorting.
From S2P Require Import Prelude Cell.

(** ** Positions *)

(** [operator<=>]: by line, then by column. *)
Definition loc_leb (a b : CellLocation) : bool :=
  (line a <? line b) || ((line a =? line b) && (column a <=? column b)).

(** [crispy::ascending] *)
Definition ascending (low val high : Z) : bool := (low <=? val) && (val <=? high).
Definition loc_ascending (low val high : CellLocation) : bool := loc_leb low val && loc_leb val high.

Definition orderedPoints (a b : CellLocation) : CellLocation * CellLocation :=
  (mkLoc (Z.min (line a) (line b)) (Z.min (column a) (column b)),
   mkLoc (Z.max (line a) (line b)) (Z.max (column a) (column b))).

Record ColumnRange := mk_range { r_line : Z; fromColumn : Z; toColumn : Z }.
Definition range_length (r : ColumnRange) : Z := toColumn r - fromColumn r + 1.
Definition range_contains (r : ColumnRange) (l : CellLocation) : bool :=
  (r_line r =? line l) && (fromColumn r <=? column l) && (column l <=? toColumn r).

Record Rect := mk_rect { r_top : Z; r_left : Z; r_bottom : Z; r_right : Z }.

(** ** The screen, as a selection sees it *)

Class SelectionHelper := {
  page_lines : Z;
  page_columns : Z;
  wordDelimited : CellLocation -> bool;
  wrappedLine : Z -> bool;
  cellWidth : CellLocation -> Z
}.

Inductive SelectionState := Waiting | InProgress | Complete.
#[export] Instance SelectionState_eq_dec : EqDecision SelectionState.
Proof. solve_decision. Defined.

(** The classes derived from [Selection]. *)
Inductive kind := Linear | WordWise | Rectangular | FullLine.

Record Selection := mk_selection {
  s_kind : kind;
  s_state : SelectionState;
  s_from : CellLocation;
  s_to : CellLocation
}.

Definition with_from (l : CellLocation) (s : Selection) : Selection :=
  mk_selection (s_kind s) (s_state s) l (s_to s).

Section Selecting.
Context `{SelectionHelper}.

Definition stretchedColumn (coord : CellLocation) : CellLocation :=
  let w := cellWidth coord in
  if 1 <? w then mkLoc (line coord) (column coord + (w - 1)) else coord.

(** ** What is selected *)

Definition linear_contains (s : Selection) (coord : CellLocation) : bool :=
  loc_ascending (s_from s) coord (s_to s) || loc_ascending (s_to s) coord (s_from s).

Definition rectangular_contains (s : Selection) (coord : CellLocation) : bool :=
  let '(from, to) := orderedPoints (s_from s) (s_to s) in
  ascending (line from) (line coord) (line to) && ascending (column from) (column coord) (column to).

Definition contains (s : Selection) (coord : CellLocation) : bool :=
  match s_kind s with Rectangular => rectangular_contains s coord | _ => linear_contains s coord end.

Definition containsLine (s : Selection) (l : Z) : bool :=
  ascending (line (s_from s)) l (line (s_to s)) || ascending (line (s_to s)) l (line (s_from s)).

Definition linear_intersects (s : Selection) (area : Rect) : bool :=
  existsb (fun l => existsb (fun col => contains s (mkLoc l col))
    (seqZ (r_left area) (r_right area - r_left area + 1)))
    (seqZ (r_top area) (r_bottom area - r_top area + 1)).

Definition rectangular_intersects (s : Selection) (area : Rect) : bool :=
  let '(from, to) := orderedPoints (s_from s) (s_to s) in
  if line to <? r_top area then false
  else if r_bottom area <? line from then false
  else if line from =? r_top area then (r_left area <=? column from) && (column from <=? r_right area)
  else if line to =? r_bottom area then (r_left area <=? column to) && (column to <=? r_right area)
  else (r_top area <? line from) && (line to <? r_bottom area).

Definition intersects (s : Selection) (area : Rect) : bool :=
  match s_kind s with Rectangular => rectangular_intersects s area | _ => linear_intersects s area end.

(** [prepare]: the number of lines and the ends in order. *)
Definition prepare (s : Selection) : nat * CellLocation * CellLocation :=
  let '(from, to) := if loc_leb (s_from s) (s_to s) then (s_from s, s_to s) else (s_to s, s_from s) in
  (Z.to_nat (line to - line from + 1), from, to).

Definition linear_ranges (s : Selection) : list ColumnRange :=
  let '(n, from, to) := prepare s in
  let rightMargin := page_columns - 1 in
  match n with
  | 0%nat => []
  | 1%nat => [mk_range (line from) (column from) (Z.min (column to) rightMargin)]
  | 2%nat => [mk_range (line from) (column from) rightMargin;
              mk_range (line to) 0 (Z.min (column to) rightMargin)]
  | _ =>
      let inner := map (fun k => mk_range (line from + Z.of_nat k) 0 rightMargin) (seq 1 (n - 1)) in
      <[(n - 1)%nat := mk_range (line to) 0 (Z.min (column to) rightMargin)]>
        (mk_range (line from) (column from) rightMargin :: inner)
  end.

Definition rectangular_ranges (s : Selection) : list ColumnRange :=
  let '(from, to) := orderedPoints (s_from s) (s_to s) in
  map (fun k => let l := line from + Z.of_nat k in
                mk_range l (column from) (column (stretchedColumn (mkLoc l (column to)))))
    (seq 0 (Z.to_nat (line to - line from + 1))).

Definition ranges (s : Selection) : list ColumnRange :=
  match s_kind s with Rectangular => rectangular_ranges s | _ => linear_ranges s end.

(** [crispy::times(start, count)] counts down to zero: a negative count runs
    through an overflow. *)
Definition times (start count : Z) : option (list Z) := if count <? 0 then None else Some (seqZ start count).

(** [renderSelection]: the positions in the order they are rendered. *)
Fixpoint render_ranges (l : list ColumnRange) : option (list CellLocation) :=
  match l with
  | [] => Some []
  | r :: l =>
      cols ← times (fromColumn r) (range_length r);
      rest ← render_ranges l;
      Some (map (mkLoc (r_line r)) cols ++ rest)
  end.
Definition renderSelection (s : Selection) : option (list CellLocation) := render_ranges (ranges s).

(** ** Extending *)

(** [Selection::extend]; [None] is its failed assertion. *)
Definition base_extend (to : CellLocation) (s : Selection) : option Selection :=
  if decide (s_state s = Complete) then None
  else Some (mk_selection (s_kind s) InProgress (s_from s) to).

Definition complete (s : Selection) : Selection :=
  if decide (s_state s = InProgress) then mk_selection (s_kind s) Complete (s_from s) (s_to s) else s.

Definition applyScroll (value historyLineCount : Z) (s : Selection) : Selection :=
  let n := - historyLineCount in
  mk_selection (s_kind s) (s_state s)
    (mkLoc (Z.max (line (s_from s) - value) n) (column (s_from s)))
    (mkLoc (Z.max (line (s_to s) - value) n) (column (s_to s))).

(** *** Words *)

(** One step back: the cell before, or the last of the line above. *)
Definition step_backward (current : CellLocation) : option CellLocation :=
  let wrapIntoPreviousLine := (column current =? 0) && (0 <? line current) && wrappedLine (line current) in
  if 0 <? column current then Some (mkLoc (line current) (column current - 1))
  else if (0 <? line current) || wrapIntoPreviousLine then Some (mkLoc (line current - 1) (page_columns - 1))
  else None.

Fixpoint backward_loop (fuel : nat) (last current : CellLocation) : option CellLocation :=
  match fuel with
  | O => None
  | S fuel =>
      match step_backward current with
      | None => Some last
      | Some current =>
          if wordDelimited current then Some last else backward_loop fuel current current
      end
  end.

(** Enough for a position with at most [page_columns] columns. *)
Definition backward_fuel (pos : CellLocation) : nat :=
  S (Z.to_nat (Z.max 0 (line pos) * Z.max 0 page_columns + Z.max 0 (column pos))).

Definition extendSelectionBackward (pos : CellLocation) : option CellLocation :=
  backward_loop (backward_fuel pos) pos pos.

Definition step_forward (current : CellLocation) : option CellLocation :=
  let current :=
    if (column current =? page_columns - 1) && (line current + 1 <? page_lines) && wrappedLine (line current)
    then stretchedColumn (mkLoc (line current + 1) 1) else current in
  if column current + 1 <? page_columns then Some (stretchedColumn (mkLoc (line current) (column current + 1)))
  else if line current + 1 <? page_lines then Some (mkLoc (line current + 1) 0)
  else None.

Fixpoint forward_loop (fuel : nat) (last current : CellLocation) : option CellLocation :=
  match fuel with
  | O => None
  | S fuel =>
      match step_forward current with
      | None => Some (stretchedColumn last)
      | Some current =>
          if wordDelimited current then Some (stretchedColumn last) else forward_loop fuel current current
      end
  end.

Definition forward_fuel (pos : CellLocation) : nat :=
  S (Z.to_nat (Z.max 0 (page_lines - line pos) * (Z.max 0 page_columns + 1) + Z.max 0 (page_columns - column pos))).

Definition extendSelectionForward (pos : CellLocation) : option CellLocation :=
  forward_loop (forward_fuel pos) pos pos.

Definition word_extend (to : CellLocation) (s : Selection) : option Selection :=
  if loc_leb (s_from s) to then
    from ← extendSelectionBackward (s_from s);
    to ← extendSelectionForward to;
    base_extend to (with_from from s)
  else
    from ← extendSelectionForward (s_from s);
    to ← extendSelectionBackward to;
    base_extend to (with_from from s).

(** *** Lines *)

(** [while (wrappedLine(line + 1)) ++line;], at most [fuel] tests. *)
Fixpoint last_wrapped (fuel : nat) (l : Z) : option Z :=
  match fuel with
  | O => None
  | S fuel => if wrappedLine (l + 1) then last_wrapped fuel (l + 1) else Some l
  end.
Fixpoint first_wrapped (fuel : nat) (l : Z) : option Z :=
  match fuel with
  | O => None
  | S fuel => if wrappedLine l then first_wrapped fuel (l - 1) else Some l
  end.

(** One more than the lines of the page and the history is enough fuel. *)
Definition line_extend (fuel : nat) (to : CellLocation) (s : Selection) : option Selection :=
  let last := page_columns - 1 in
  if line (s_from s) <=? line to then
    l ← last_wrapped fuel (line to);
    base_extend (mkLoc l last) (with_from (mkLoc (line (s_from s)) 0) s)
  else
    f ← last_wrapped fuel (line (s_from s));
    l ← first_wrapped fuel (line to);
    base_extend (mkLoc l 0) (with_from (mkLoc f last) s).

Definition extend (fuel : nat) (to : CellLocation) (s : Selection) : option Selection :=
  match s_kind s with
  | WordWise => word_extend to s
  | FullLine => line_extend fuel to s
  | Linear | Rectangular => base_extend to s
  end.

(** ** Constructors *)

Definition new_selection (k : kind) (start : CellLocation) : Selection := mk_selection k Waiting start start.

Definition LinearSelection (start : CellLocation) : Selection := new_selection Linear start.
Definition RectangularSelection (start : CellLocation) : Selection := new_selection Rectangular start.

Definition WordWiseSelection (start : CellLocation) : option Selection :=
  let s := new_selection WordWise start in
  from ← extendSelectionBackward (s_from s);
  to ← extendSelectionForward (s_to s);
  word_extend to (with_from from s).

Definition FullLineSelection (fuel : nat) (start : CellLocation) : option Selection :=
  let s := new_selection FullLine start in
  let s := with_from (mkLoc (line start) 0) s in
  line_extend fuel (mkLoc (line start) (page_columns - 1)) s.

(** ** Rendering visits what is selected *)

Definition loc_lt (a b : CellLocation) : Prop := line a < line b \/ (line a = line b /\ column a < column b).

(** The linear ranges as one comprehension over the lines. *)
Definition line_range (from to : CellLocation) (l : Z) : ColumnRange :=
  mk_range l (if l =? line from then column from else 0)
    (if l =? line to then Z.min (column to) (page_columns - 1) else page_columns - 1).

Lemma prepare_lines s n from to :
  prepare s = (n, from, to) ->
  loc_leb from to = true /\ n = Z.to_nat (line to - line from + 1) /\ (1 <= n)%nat /\
  ((from = s_from s /\ to = s_to s) \/ (from = s_to s /\ to = s_from s)).
Proof.
  unfold prepare, loc_leb. intros E.
  destruct ((line (s_from s) <? line (s_to s)) || _) eqn:L; injection E as <- <- <-.
  all: rewrite orb_true_iff, andb_true_iff, ?Z.ltb_lt, ?Z.eqb_eq, ?Z.leb_le.
  - rewrite orb_true_iff, andb_true_iff, Z.ltb_lt, Z.eqb_eq, Z.leb_le in L. repeat split; try lia; auto.
  - rewrite orb_false_iff, andb_false_iff, Z.ltb_ge, Z.eqb_neq, Z.leb_gt in L. repeat split; try lia; auto.
Qed.

Lemma linear_ranges_lines s n from to :
  prepare s = (n, from, to) ->
  linear_ranges s = map (line_range from to) (seqZ (line from) (Z.of_nat n)).
Proof.
  intros E. unfold linear_ranges. rewrite E. destruct (prepare_lines _ _ _ _ E) as (O & En & Hn & _).
  destruct n as [|[|[|n]]]; [lia|..].
  - change (Z.of_nat 1) with 1. rewrite seqZ_cons by lia. cbn [map]. unfold line_range.
    rewrite !(proj2 (Z.eqb_eq _ _)) by lia. reflexivity.
  - change (Z.of_nat 2) with 2. rewrite !seqZ_cons by lia. cbn [map]. unfold line_range.
    rewrite Z.eqb_refl, (proj2 (Z.eqb_neq (line from) (line to))) by lia.
    rewrite (proj2 (Z.eqb_neq _ (line from))) by lia. rewrite (proj2 (Z.eqb_eq _ (line to))) by lia.
    repeat f_equal; lia.
  - set (m := S (S (S n))) in *. apply list_eq. intros i. rewrite list_lookup_fmap.
    destruct (decide (i < m)%nat) as [Hi|Hi].
    + rewrite lookup_seqZ_lt by lia. cbn [fmap option_fmap option_map]. unfold line_range.
      destruct (decide (i = m - 1)%nat) as [->|Hl].
      * rewrite list_lookup_insert_eq by (cbn; rewrite length_map, length_seq; lia).
        rewrite (proj2 (Z.eqb_neq _ (line from))) by lia. rewrite (proj2 (Z.eqb_eq _ (line to))) by lia.
        repeat f_equal; lia.
      * rewrite list_lookup_insert_ne by lia. rewrite (proj2 (Z.eqb_neq _ (line to))) by lia.
        destruct i as [|i].
        -- rewrite (proj2 (Z.eqb_eq _ (line from))) by lia. cbn [lookup list_lookup]. repeat f_equal; lia.
        -- rewrite (proj2 (Z.eqb_neq _ (line from))) by lia.
           rewrite <- lookup_tail. cbn [tail]. rewrite list_lookup_fmap, lookup_seq_lt by lia.
           cbn. repeat f_equal; lia.
    + rewrite lookup_seqZ_ge by lia. apply lookup_ge_None.
      rewrite length_insert. cbn. rewrite length_map, length_seq. lia.
Qed.

Lemma range_contains_true r p :
  range_contains r p = true <-> line p = r_line r /\ fromColumn r <= column p <= toColumn r.
Proof. unfold range_contains. rewrite !andb_true_iff, Z.eqb_eq, !Z.leb_le. split; intros; intuition lia. Qed.

Lemma render_ranges_spec l :
  Forall (fun r => fromColumn r <= toColumn r + 1) l ->
  StronglySorted (fun a b => r_line a < r_line b) l ->
  exists cells, render_ranges l = Some cells /\ StronglySorted loc_lt cells /\
    forall p, p ∈ cells <-> exists r, r ∈ l /\ range_contains r p = true.
Proof.
  intros F S. induction l as [|r l IH].
  - exists []. split_and!; [reflexivity|constructor|]. intros p. split; [intros Hp|intros (r & Hr & _)]; by apply not_elem_of_nil in Hp || apply not_elem_of_nil in Hr.
  - apply Forall_cons in F as [Fr Fl]. apply StronglySorted_inv in S as [Sl Sr].
    destruct (IH Fl Sl) as (cells & E & Sc & M). clear IH.
    cbn [render_ranges]. unfold times, range_length. rewrite (proj2 (Z.ltb_ge _ _)) by lia. cbn [mbind option_bind].
    rewrite E. cbn [mbind option_bind]. eexists. split; [reflexivity|].
    assert (Hin : forall p, p ∈ map (mkLoc (r_line r)) (seqZ (fromColumn r) (toColumn r - fromColumn r + 1)) <->
      range_contains r p = true).
    { intros [pl pc]. rewrite range_contains_true. cbn [line column]. change (@map Z CellLocation) with (@fmap list list_fmap Z CellLocation).
      rewrite list_elem_of_fmap. setoid_rewrite elem_of_seqZ. split.
      - intros (y & [= -> ->] & ?). lia.
      - intros [-> ?]. exists pc. split; [reflexivity|lia]. }
    split.
    + apply StronglySorted_app_2; [|change (@map Z CellLocation) with (@fmap list list_fmap Z CellLocation)|exact Sc].
      * intros x y Hx Hy. apply Hin, range_contains_true in Hx. apply M in Hy as (r' & Hr' & Hy).
        apply range_contains_true in Hy. rewrite Forall_forall in Sr. apply Sr in Hr'.
        left. lia.
      * eapply StronglySorted_fmap; [|apply seqZ_sorted]. intros x y Hxy. right. cbn. lia.
    + intros p. rewrite elem_of_app, Hin, M. setoid_rewrite elem_of_cons. firstorder congruence.
Qed.

Lemma line_ranges_sorted from to n :
  StronglySorted (fun a b => r_line a < r_line b) (map (line_range from to) (seqZ (line from) n)).
Proof.
  change (@map Z ColumnRange) with (@fmap list list_fmap Z ColumnRange). eapply StronglySorted_fmap; [|apply seqZ_sorted].
  intros x y Hxy. exact Hxy.
Qed.

Definition in_page (p : CellLocation) : Prop := 0 <= column p < page_columns.

Lemma loc_leb_true a b : loc_leb a b = true <-> line a < line b \/ (line a = line b /\ column a <= column b).
Proof. unfold loc_leb. rewrite orb_true_iff, andb_true_iff, Z.ltb_lt, Z.eqb_eq, Z.leb_le. reflexivity. Qed.

Lemma contains_ordered s n from to p :
  prepare s = (n, from, to) ->
  linear_contains s p = true <-> loc_leb from p = true /\ loc_leb p to = true.
Proof.
  intros E. destruct (prepare_lines _ _ _ _ E) as (O & _ & _ & D). unfold linear_contains, loc_ascending.
  rewrite orb_true_iff, !andb_true_iff. rewrite loc_leb_true in O. rewrite !loc_leb_true.
  destruct D as [[-> ->]|[-> ->]]; lia.
Qed.

(** C27: Rendering a linear, word-wise or full-line selection whose ends lie within the columns
    of the page terminates and visits exactly the cells of the page that contains accepts, each
    once and in reading order. *)
Theorem selection_rendered s :
  s_kind s <> Rectangular -> in_page (s_from s) -> in_page (s_to s) ->
  exists cells, renderSelection s = Some cells /\ StronglySorted loc_lt cells /\
    forall p, p ∈ cells <-> contains s p = true /\ in_page p.
Proof.
  intros K F T. destruct (prepare s) as [[n from] to] eqn:E.
  destruct (prepare_lines _ _ _ _ E) as (O & En & Hn & D). rewrite loc_leb_true in O.
  assert (HF : in_page from) by (destruct D as [[-> ->]|[-> ->]]; assumption).
  assert (HT : in_page to) by (destruct D as [[-> ->]|[-> ->]]; assumption).
  unfold in_page in *.
  assert (R : ranges s = map (line_range from to) (seqZ (line from) (Z.of_nat n))).
  { rewrite <- (linear_ranges_lines s) by exact E. unfold ranges. destruct (s_kind s); congruence. }
  assert (C : forall p, contains s p = linear_contains s p) by (unfold contains; destruct (s_kind s); congruence).
  unfold renderSelection. rewrite R.
  destruct (render_ranges_spec (map (line_range from to) (seqZ (line from) (Z.of_nat n)))) as (cells & Ec & Sc & M).
  - apply Forall_map, Forall_forall. intros l Hl. apply elem_of_seqZ in Hl. cbn.
    destruct (Z.eqb_spec l (line from)), (Z.eqb_spec l (line to)); lia.
  - apply line_ranges_sorted.
  - exists cells. split_and!; [exact Ec|exact Sc|]. intros p. rewrite M, C, (contains_ordered s n from to) by exact E.
    rewrite !loc_leb_true. setoid_rewrite range_contains_true.
    change (@map Z ColumnRange) with (@fmap list list_fmap Z ColumnRange). setoid_rewrite list_elem_of_fmap. split.
    + intros (r & (l & -> & Hl) & Hp). apply elem_of_seqZ in Hl. cbn in Hp.
      destruct (Z.eqb_spec l (line from)), (Z.eqb_spec l (line to)); lia.
    + intros Hp. exists (line_range from to (line p)). split.
      * exists (line p). split; [reflexivity|]. apply elem_of_seqZ. lia.
      * cbn. split; [reflexivity|]. destruct (Z.eqb_spec (line p) (line from)), (Z.eqb_spec (line p) (line to)); lia.
Qed.

(** A rectangular selection renders its rectangle and, past its right edge,
    the rest of a wide character that begins in its last column. *)
Lemma rectangle_rendered s :
  s_kind s = Rectangular ->
  let '(a, b) := orderedPoints (s_from s) (s_to s) in
  exists cells, renderSelection s = Some cells /\ StronglySorted loc_lt cells /\
    forall p, p ∈ cells <-> line a <= line p <= line b /\
      column a <= column p <= column (stretchedColumn (mkLoc (line p) (column b))).
Proof.
  intros K. destruct (orderedPoints (s_from s) (s_to s)) as [a b] eqn:E.
  assert (Hc : line a <= line b /\ column a <= column b) by (injection E as <- <-; cbn; lia).
  unfold renderSelection, ranges, rectangular_ranges. rewrite K, E.
  match goal with |- context [render_ranges ?l] => destruct (render_ranges_spec l) as (cells & Ec & Sc & M) end.
  - apply Forall_map, Forall_forall. intros k Hk. cbn. unfold stretchedColumn.
    destruct (1 <? cellWidth _) eqn:W; cbn; [apply Z.ltb_lt in W|]; lia.
  - change (@map nat ColumnRange) with (@fmap list list_fmap nat ColumnRange).
    eapply StronglySorted_fmap; [|apply seq_sorted]. intros x y Hxy. cbn. lia.
  - exists cells. split_and!; [exact Ec|exact Sc|]. intros p. rewrite M. setoid_rewrite range_contains_true.
    change (@map nat ColumnRange) with (@fmap list list_fmap nat ColumnRange). setoid_rewrite list_elem_of_fmap. split.
    + intros (r & (k & -> & Hk) & Hl & Hp). apply elem_of_seq in Hk. cbn in Hl, Hp. rewrite Hl. split; [lia|exact Hp].
    + intros (Hl & Hp). eexists. split.
      * exists (Z.to_nat (line p - line a)). split; [reflexivity|]. apply elem_of_seq. lia.
      * cbn. replace (line a + Z.of_nat (Z.to_nat (line p - line a))) with (line p) by lia. split; [reflexivity|exact Hp].
Qed.

Lemma linear_intersects_spec s area :
  linear_intersects s area = true <->
  exists p, contains s p = true /\ r_top area <= line p <= r_bottom area /\ r_left area <= column p <= r_right area.
Proof.
  unfold linear_intersects. rewrite existsb_exists. setoid_rewrite existsb_exists.
  setoid_rewrite <- list_elem_of_In. setoid_rewrite elem_of_seqZ. split.
  - intros (l & Hl & c & Hc & Hp). exists (mkLoc l c). cbn. split_and!; auto; lia.
  - intros ([l c] & Hp & Hl & Hc). cbn in *. exists l. split; [lia|]. exists c. split; [lia|exact Hp].
Qed.

(** ** Word boundaries *)

Hypothesis columns_positive : 0 < page_columns.

Definition backward_measure (p : CellLocation) : Z :=
  Z.max 0 (line p) * page_columns + Z.max 0 (column p).
Definition forward_measure (p : CellLocation) : Z :=
  Z.max 0 (page_lines - line p) * (page_columns + 1) + Z.max 0 (page_columns - column p).

Lemma step_backward_decreases p q :
  step_backward p = Some q -> 0 <= backward_measure q < backward_measure p.
Proof.
  unfold step_backward, backward_measure. destruct p as [l c]. cbn [line column].
  destruct (0 <? c) eqn:C; [intros [= <-]; apply Z.ltb_lt in C; cbn [line column]; nia|].
  destruct (0 <? l) eqn:L; [|rewrite andb_false_r; discriminate].
  intros [= <-]. apply Z.ltb_lt in L. cbn [line column]. nia.
Qed.

Lemma stretched_bounds p : line (stretchedColumn p) = line p /\ column p <= column (stretchedColumn p).
Proof. unfold stretchedColumn. destruct (1 <? cellWidth p) eqn:E; cbn; [apply Z.ltb_lt in E|]; lia. Qed.

Lemma forward_lex p q :
  line q < page_lines ->
  (line p < line q /\ 0 <= column q) \/ (line p = line q /\ column p < column q /\ column p < page_columns) ->
  line q < page_lines /\ 0 <= forward_measure q < forward_measure p.
Proof. unfold forward_measure. nia. Qed.

Lemma step_forward_decreases p q :
  line p < page_lines -> step_forward p = Some q ->
  line q < page_lines /\ 0 <= forward_measure q < forward_measure p.
Proof.
  intros Hl. unfold step_forward.
  destruct ((column p =? page_columns - 1) && _ && _) eqn:W.
  - apply andb_true_iff in W as [W _]. apply andb_true_iff in W as [_ W]. apply Z.ltb_lt in W.
    destruct (stretched_bounds (mkLoc (line p + 1) 1)) as [Sl Sc]. cbn in Sl, Sc.
    set (c := stretchedColumn _) in *. clearbody c.
    destruct (Z.ltb_spec (column c + 1) page_columns) as [C|C].
    + intros [= <-]. destruct (stretched_bounds (mkLoc (line c) (column c + 1))) as [Tl Tc]. cbn in Tl, Tc.
      apply forward_lex; lia.
    + destruct (Z.ltb_spec (line c + 1) page_lines); [|discriminate]. intros [= <-]. apply forward_lex; cbn; lia.
  - destruct (Z.ltb_spec (column p + 1) page_columns) as [C|C].
    + intros [= <-]. destruct (stretched_bounds (mkLoc (line p) (column p + 1))) as [Tl Tc]. cbn in Tl, Tc.
      apply forward_lex; lia.
    + destruct (Z.ltb_spec (line p + 1) page_lines); [|discriminate]. intros [= <-]. apply forward_lex; cbn; lia.
Qed.

(** What either loop does, for a step function: it follows the steps as long
    as they lead to cells that are no delimiters. *)
Inductive word_path (step : CellLocation -> option CellLocation) : CellLocation -> CellLocation -> Prop :=
  | path_end p : (forall q, step p = Some q -> wordDelimited q = true) -> word_path step p p
  | path_step p q r : step p = Some q -> wordDelimited q = false -> word_path step q r -> word_path step p r.

Lemma backward_path fuel p :
  backward_measure p < Z.of_nat fuel -> exists q, backward_loop fuel p p = Some q /\ word_path step_backward p q.
Proof.
  revert p. induction fuel as [|fuel IH]; intros p F; [unfold backward_measure in F; nia|]. cbn [backward_loop].
  destruct (step_backward p) as [q|] eqn:E; [|exists p; split; [done|constructor; congruence]].
  destruct (wordDelimited q) eqn:D; [exists p; split; [done|constructor; congruence]|].
  pose proof (step_backward_decreases _ _ E). destruct (IH q) as (r & -> & P); [lia|].
  exists r. split; [done|]. econstructor; eassumption.
Qed.

Lemma forward_path fuel p :
  line p < page_lines -> forward_measure p < Z.of_nat fuel ->
  exists q, forward_loop fuel p p = Some (stretchedColumn q) /\ word_path step_forward p q.
Proof.
  revert p. induction fuel as [|fuel IH]; intros p L F; [unfold forward_measure in F; nia|]. cbn [forward_loop].
  destruct (step_forward p) as [q|] eqn:E; [|exists p; split; [done|constructor; congruence]].
  destruct (wordDelimited q) eqn:D; [exists p; split; [done|constructor; congruence]|].
  destruct (step_forward_decreases _ _ L E). destruct (IH q) as (r & -> & P); [lia..|].
  exists r. split; [done|]. econstructor; eassumption.
Qed.

Lemma extendSelectionBackward_path p :
  exists q, extendSelectionBackward p = Some q /\ word_path step_backward p q.
Proof. apply backward_path. unfold backward_measure, backward_fuel. nia. Qed.

Lemma extendSelectionForward_path p :
  line p < page_lines ->
  exists q, extendSelectionForward p = Some (stretchedColumn q) /\ word_path step_forward p q.
Proof. intros L. apply forward_path; [exact L|]. unfold forward_measure, forward_fuel. nia. Qed.

Lemma path_stop step p q : word_path step p q -> forall r, step q = Some r -> wordDelimited r = true.
Proof. induction 1; auto. Qed.

Lemma path_stopped step p q : (forall r, step p = Some r -> wordDelimited r = true) -> word_path step p q -> q = p.
Proof. intros S P. destruct P as [|p r q E D P]; [reflexivity|]. rewrite (S r E) in D. discriminate. Qed.

(** *** Words in reading order *)

Definition on_page (p : CellLocation) : Prop := in_page p /\ 0 <= line p < page_lines.
Definition index (p : CellLocation) : Z := line p * page_columns + column p.

Lemma index_ordered p q : in_page p -> in_page q -> loc_leb p q = true <-> index p <= index q.
Proof. rewrite loc_leb_true. unfold in_page, index. nia. Qed.

Lemma index_inj p q : in_page p -> in_page q -> index p = index q -> p = q.
Proof.
  intros P Q E. apply Z.eq_le_incl in E as L. apply Z.eq_sym, Z.eq_le_incl in E as G.
  apply index_ordered in L, G; try assumption. rewrite loc_leb_true in L, G.
  destruct p, q. cbn in *. f_equal; lia.
Qed.

Definition steps_by (d : Z) (step : CellLocation -> option CellLocation) : Prop :=
  forall p, on_page p ->
    match step p with
    | Some q => on_page q /\ index q = index p + d
    | None => forall q, on_page q -> index q <> index p + d
    end.

Lemma path_run d step p q :
  steps_by d step -> on_page p -> word_path step p q ->
  on_page q /\ (forall r, on_page r -> index r = index q + d -> wordDelimited r = true) /\
  exists n, 0 <= n /\ index q = index p + d * n /\
    forall r k, on_page r -> 0 < k <= n -> index r = index p + d * k -> wordDelimited r = false.
Proof.
  intros S P W. induction W as [p E|p q r E D W IH]; specialize (S p P) as Sp.
  - split_and!; [exact P| |exists 0; split_and!; lia].
    intros r R I. destruct (step p) as [q|]; [|exfalso; exact (Sp r R I)].
    destruct Sp as [Q J]. rewrite (index_inj r q); [apply E; reflexivity|apply R|apply Q|lia].
  - rewrite E in Sp. destruct Sp as [Q J]. destruct (IH Q) as (R & St & n & N & I & F).
    split_and!; [exact R|exact St|]. exists (n + 1). split_and!; [lia|lia|]. intros t k T K X.
    destruct (decide (k = 1)) as [->|]; [rewrite (index_inj t q); [exact D|apply T|apply Q|lia]|].
    apply (F t (k - 1)); [exact T|lia|lia].
Qed.

Lemma backward_steps : steps_by (-1) step_backward.
Proof.
  intros [l c] [[C0 C1] [L0 L1]]. unfold step_backward, on_page, in_page, index in *. cbn [line column] in *.
  destruct (Z.ltb_spec 0 c); [split; cbn; lia|]. destruct (Z.ltb_spec 0 l); cbn [orb].
  - split; cbn [line column]; nia.
  - rewrite andb_false_r. cbn [andb]. intros q Q. nia.
Qed.

Lemma narrow_stretched p : (forall p, cellWidth p <= 1) -> stretchedColumn p = p.
Proof. intros N. unfold stretchedColumn. rewrite (proj2 (Z.ltb_ge 1 _)) by apply N. reflexivity. Qed.

Lemma forward_steps :
  (forall p, cellWidth p <= 1) -> (forall l, wrappedLine l = false) -> steps_by 1 step_forward.
Proof.
  intros N U [l c] [[C0 C1] [L0 L1]]. unfold step_forward. rewrite U, andb_false_r. cbn [line column] in *.
  rewrite narrow_stretched by exact N.
  unfold on_page, in_page, index. destruct (Z.ltb_spec (c + 1) page_columns); [split; cbn; lia|].
  destruct (Z.ltb_spec (l + 1) page_lines); [split; cbn [line column]; nia|]. intros q Q. cbn [line column]. nia.
Qed.

(** Double-clicking a cell of a page without wide characters and wrapped
    lines selects the word under it, whatever the delimiters are: the
    selection holds the cell, every other selected cell of the page is no
    delimiter, and the cells just before and after it, in reading order, are
    delimiters where the page has such cells. *)
Lemma word_selected start :
  (forall p, cellWidth p <= 1) -> (forall l, wrappedLine l = false) -> on_page start ->
  exists s, WordWiseSelection start = Some s /\ s_state s = InProgress /\ contains s start = true /\
    (forall p, on_page p -> contains s p = true -> p <> start -> wordDelimited p = false) /\
    (forall p, on_page p -> index p = index (s_from s) - 1 \/ index p = index (s_to s) + 1 -> wordDelimited p = true).
Proof.
  intros N U P.
  assert (St : forall p, stretchedColumn p = p) by (intros p; apply narrow_stretched, N).
  destruct (extendSelectionBackward_path start) as (a & Ea & Wa).
  destruct (extendSelectionForward_path start) as (b & Eb & Wb); [apply P|]. rewrite St in Eb.
  destruct (path_run _ _ _ _ backward_steps P Wa) as (A & Sa & n & Hn & Ia & Fa).
  destruct (path_run _ _ _ _ (forward_steps N U) P Wb) as (B & Sb & m & Hm & Ib & Fb).
  destruct (extendSelectionBackward_path a) as (a' & Ea' & Wa').
  destruct (extendSelectionForward_path b) as (b' & Eb' & Wb'); [apply B|]. rewrite St in Eb'.
  apply path_stopped in Wa' as ->; [|exact (path_stop _ _ _ Wa)].
  apply path_stopped in Wb' as ->; [|exact (path_stop _ _ _ Wb)].
  assert (O : loc_leb a b = true) by (apply index_ordered; [apply A|apply B|lia]).
  exists (mk_selection WordWise InProgress a b). split.
  { unfold WordWiseSelection, word_extend. cbn [s_from s_to new_selection]. rewrite Ea. cbn [mbind option_bind].
    rewrite Eb. cbn [mbind option_bind with_from s_from]. rewrite O, Ea'. cbn [mbind option_bind]. rewrite Eb'. reflexivity. }
  assert (Ct : forall p, in_page p ->
    contains (mk_selection WordWise InProgress a b) p = true <-> index a <= index p <= index b).
  { intros p Hp. unfold contains, linear_contains, loc_ascending. cbn [s_kind s_from s_to].
    rewrite orb_true_iff, !andb_true_iff, !index_ordered by (apply Hp || apply A || apply B). lia. }
  split_and!; [reflexivity|apply Ct; [apply P|lia]| |].
  - intros p Hp C Ne. apply Ct in C; [|apply Hp].
    destruct (Z.lt_trichotomy (index p) (index start)) as [L|[E|G]].
    + apply (Fa p (index start - index p)); [exact Hp|lia|lia].
    + destruct Ne. apply index_inj; [apply Hp|apply P|exact E].
    + apply (Fb p (index p - index start)); [exact Hp|lia|lia].
  - cbn [s_from s_to]. intros p Hp [I|I]; [apply (Sa p Hp)|apply (Sb p Hp)]; lia.
Qed.

(** ** Whole lines *)

Lemma last_wrapped_spec fuel l k :
  0 <= k < Z.of_nat fuel -> wrappedLine (l + 1 + k) = false ->
  exists l', last_wrapped fuel l = Some l' /\ l <= l' <= l + k /\ wrappedLine (l' + 1) = false /\
    forall x, l < x <= l' -> wrappedLine x = true.
Proof.
  revert l k. induction fuel as [|fuel IH]; intros l k K W; [lia|]. cbn [last_wrapped].
  destruct (wrappedLine (l + 1)) eqn:E; [|exists l; split_and!; auto; lia].
  destruct (decide (k = 0)) as [->|]; [rewrite Z.add_0_r in W; congruence|].
  destruct (IH (l + 1) (k - 1)) as (l' & -> & B & N & F); [lia| |].
  - rewrite <- W. f_equal. lia.
  - exists l'. split_and!; auto; [lia..|]. intros x X.
    destruct (decide (x = l + 1)) as [->|]; [exact E|apply F; lia].
Qed.

Lemma first_wrapped_spec fuel l k :
  0 <= k < Z.of_nat fuel -> wrappedLine (l - k) = false ->
  exists l', first_wrapped fuel l = Some l' /\ l - k <= l' <= l /\ wrappedLine l' = false /\
    forall x, l' < x <= l -> wrappedLine x = true.
Proof.
  revert l k. induction fuel as [|fuel IH]; intros l k K W; [lia|]. cbn [first_wrapped].
  destruct (wrappedLine l) eqn:E; [|exists l; split_and!; auto; lia].
  destruct (decide (k = 0)) as [->|]; [rewrite Z.sub_0_r in W; congruence|].
  destruct (IH (l - 1) (k - 1)) as (l' & -> & B & N & F); [lia| |].
  - rewrite <- W. f_equal. lia.
  - exists l'. split_and!; auto; [lia..|]. intros x X.
    destruct (decide (x = l)) as [->|]; [exact E|apply F; lia].
Qed.

(** A full-line selection dragged up selects whole logical lines, from the
    one it is dragged to through the one it began in. *)
Lemma lines_selected_upwards fuel to s j k :
  s_kind s = FullLine -> s_state s <> Complete -> line to < line (s_from s) ->
  0 <= j < Z.of_nat fuel -> wrappedLine (line (s_from s) + 1 + j) = false ->
  0 <= k < Z.of_nat fuel -> wrappedLine (line to - k) = false ->
  exists s', extend fuel to s = Some s' /\
    wrappedLine (line (s_to s')) = false /\ wrappedLine (line (s_from s') + 1) = false /\
    (forall x, line (s_to s') < x <= line to \/ line (s_from s) < x <= line (s_from s') -> wrappedLine x = true) /\
    (forall p, in_page p -> contains s' p = true <-> line (s_to s') <= line p <= line (s_from s')).
Proof.
  intros K C L J WJ Kk WK. unfold extend, line_extend. rewrite K, (proj2 (Z.leb_gt _ _)) by lia.
  destruct (last_wrapped_spec fuel (line (s_from s)) j J WJ) as (f & -> & Bf & Nf & Ff).
  destruct (first_wrapped_spec fuel (line to) k Kk WK) as (t & -> & Bt & Nt & Ft).
  cbn [mbind option_bind]. unfold base_extend, with_from. cbn [s_kind s_state s_from s_to].
  rewrite decide_False by exact C. eexists. split; [reflexivity|]. cbn [s_kind s_state s_from s_to line].
  split_and!; [assumption..| |].
  - intros x [X|X]; auto.
  - intros p Hp. unfold contains. cbn [s_kind]. rewrite K. unfold linear_contains, loc_ascending. cbn [s_from s_to].
    rewrite orb_true_iff, !andb_true_iff, !loc_leb_true. cbn [line column]. unfold in_page in Hp. lia.
Qed.

End Selecting.

(** ** Witnesses and examples *)

Module Examples.

(** A page of three lines and eight columns: letters but for column 4. *)
Definition words_helper : SelectionHelper := {|
  page_lines := 3; page_columns := 8;
  wordDelimited := fun p => column p =? 4;
  wrappedLine := fun _ => false; cellWidth := fun _ => 1 |}.

Lemma selection_rendered_witness :
  exists cells, renderSelection (H := words_helper) (mk_selection Linear InProgress (mkLoc 2 1) (mkLoc 0 6)) = Some cells /\
    mkLoc 1 3 ∈ cells /\ (mkLoc 0 5 ∉ cells).
Proof.
  destruct (selection_rendered (H := words_helper) (mk_selection Linear InProgress (mkLoc 2 1) (mkLoc 0 6)))
    as (cells & E & _ & M); [discriminate|unfold in_page; cbn; lia..|].
  exists cells. split_and!; [exact E|apply M; split; [reflexivity|unfold in_page; cbn; lia]|].
  intros X. apply M in X as [X _]. discriminate.
Defined.

(** A word goes on over the end of a line even where the line is not wrapped. *)
Example word_crosses_lines :
  WordWiseSelection (H := words_helper) (mkLoc 1 2) = Some (mk_selection WordWise InProgress (mkLoc 0 5) (mkLoc 1 3)).
Proof. vm_compute. reflexivity. Qed.

(** Where a line is wrapped, the step over its end skips two cells: the
    delimiter in the first column of the next line does not end the word. *)
Definition wrapped_helper : SelectionHelper := {|
  page_lines := 2; page_columns := 4;
  wordDelimited := fun p => (line p =? 1) && (column p <? 2);
  wrappedLine := fun l => l =? 0; cellWidth := fun _ => 1 |}.
Example word_skips_delimiters :
  extendSelectionForward (H := wrapped_helper) (mkLoc 0 2) = Some (mkLoc 1 3).
Proof. vm_compute. reflexivity. Qed.

(** A full-line selection begun in the continuation of a wrapped line leaves
    out the line's beginning. *)
Definition continued_helper : SelectionHelper := {|
  page_lines := 3; page_columns := 4; wordDelimited := fun _ => false;
  wrappedLine := fun l => l =? 1; cellWidth := fun _ => 1 |}.
Example full_line_misses_beginning :
  FullLineSelection (H := continued_helper) 4 (mkLoc 1 2) =
    Some (mk_selection FullLine InProgress (mkLoc 1 0) (mkLoc 1 3)).
Proof. vm_compute. reflexivity. Qed.

(** A rectangle that encloses the area, and one that begins left of it on its
    top line, are said not to intersect it. *)
Example enclosing_rectangle :
  intersects (mk_selection Rectangular InProgress (mkLoc 0 0) (mkLoc 9 9)) (mk_rect 2 2 4 4) = false /\
  contains (mk_selection Rectangular InProgress (mkLoc 0 0) (mkLoc 9 9)) (mkLoc 3 3) = true.
Proof. vm_compute. auto. Qed.
Example rectangle_from_left :
  intersects (mk_selection Rectangular InProgress (mkLoc 2 0) (mkLoc 3 9)) (mk_rect 2 2 4 4) = false /\
  contains (mk_selection Rectangular InProgress (mkLoc 2 0) (mkLoc 3 9)) (mkLoc 2 2) = true.
Proof. vm_compute. auto. Qed.

(** Scrolled against the top of the history, the two ends meet on one line
    without being ordered in their columns: nothing is lost, the ends swap. *)
Example scrolled_ends_swap :
  let s := applyScroll 5 0 (mk_selection Linear InProgress (mkLoc 0 6) (mkLoc 2 1)) in
  ranges (H := words_helper) s = [mk_range 0 1 6].
Proof. vm_compute. reflexivity. Qed.

End Examples.
