(* ===== verification/Viewport.v ===== *)
(** * The viewport and the jump history (src/vtbackend/Viewport.h, Viewport.cpp,
      JumpHistory.h, JumpHistory.cpp, the marker search of Screen.cpp, and
      [Terminal::onBufferScrolled])

    The viewport is an offset into the history.  It sees the terminal through
    [ViewedTerminal]; [viewed] gives the view of a grid.  An operation returns
    the flag the code returns and the new viewport. *)
From stdpp Require Import list numbers sorting.
From S2P Require Import Prelude Parser Color Ring Cell Line Grid Selection.

(** ** The terminal, as the viewport sees it *)

Class ViewedTerminal := {
  history_lines : Z;
  screen_lines : Z;
  screen_columns : Z;
  isAlternateScreen : bool;
  line_marked : Z -> bool
}.

Record Viewport := mk_viewport { _scrollOffset : Z; _scrollOff : Z }.

Definition Viewport_init : Viewport := mk_viewport 0 8.

Section Viewport.
Context `{ViewedTerminal}.
Implicit Types (v : Viewport).

Definition setScrollOff (count : Z) v : Viewport := mk_viewport (_scrollOffset v) count.
Definition scrolled v : bool := negb (_scrollOffset v =? 0).
Definition scrollingDisabled : bool := isAlternateScreen.

Definition isLineVisible v (l : Z) : bool :=
  let a := - _scrollOffset v in
  let c := screen_lines - _scrollOffset v in
  (a <=? l) && (l <? c).

Definition scrollTo (offset : Z) v : bool * Viewport :=
  if scrollingDisabled && negb (offset =? 0) then (false, v)
  else if offset =? _scrollOffset v then (false, v)
  else if (0 <=? offset) && (offset <=? history_lines) then (true, mk_viewport offset (_scrollOff v))
  else (false, v).

Definition scrollUp (numLines : Z) v : bool * Viewport :=
  scrollTo (Z.min (_scrollOffset v + numLines) history_lines) v.
Definition scrollDown (numLines : Z) v : bool * Viewport :=
  scrollTo (Z.max (_scrollOffset v - numLines) 0) v.
Definition scrollToTop v : bool * Viewport := scrollTo history_lines v.
Definition forceScrollToBottom v : bool * Viewport := scrollTo 0 v.
Definition scrollToBottom v : bool * Viewport :=
  if scrollingDisabled then (false, v) else forceScrollToBottom v.

(** [makeVisibleWithinSafeArea(lineOffset, paddingLines)] *)
Definition makeVisibleWithin (lineOffset paddingLines : Z) v : bool * Viewport :=
  let viewportTop := - _scrollOffset v + paddingLines in
  let viewportBottom := screen_lines - 1 - _scrollOffset v - paddingLines in
  if negb (viewportTop <? lineOffset) then scrollUp (viewportTop - lineOffset) v
  else if negb (lineOffset <? viewportBottom) then scrollDown (lineOffset - viewportBottom) v
  else (false, v).
Definition makeVisibleWithinSafeArea (lineOffset : Z) v : bool * Viewport :=
  makeVisibleWithin lineOffset (_scrollOff v) v.
Definition makeVisible (lineOffset : Z) v : bool * Viewport := makeVisibleWithin lineOffset 0 v.

Definition clamp (x low high : Z) : Z := if x <? low then low else if high <? x then high else x.

Definition clampCellLocation v (location : CellLocation) : CellLocation :=
  let viewportTop := - _scrollOffset v in
  let viewportBottom := screen_lines - 1 - _scrollOffset v in
  mkLoc (clamp (line location) viewportTop viewportBottom)
        (clamp (column location) 0 (screen_columns - 1)).

Definition translateScreenToGridCoordinate v (p : CellLocation) : CellLocation :=
  mkLoc (line p - _scrollOffset v) (column p).
Definition translateGridToScreenCoordinate v (p : CellLocation) : CellLocation :=
  mkLoc (line p + _scrollOffset v) (column p).

(** *** Marked lines *)

(** The loops of [findMarkerUpwards] and [findMarkerDownwards]. *)
Definition first_marked (ls : list Z) : option Z := List.find line_marked ls.

Definition findMarkerUpwards (startLine : Z) : option Z :=
  if history_lines =? 0 then None
  else if startLine <=? - history_lines then None
  else
    let startLine := Z.min startLine (screen_lines - 1) in
    first_marked (reverse (seqZ (- history_lines) (startLine + history_lines))).

Definition findMarkerDownwards (startLine : Z) : option Z :=
  if history_lines =? 0 then None
  else
    let top := clamp startLine (- history_lines) (screen_lines - 1) in
    let bottom := 0 in
    first_marked (seqZ (top + 1) (bottom - top)).

Definition scrollMarkUp v : bool * Viewport :=
  if scrollingDisabled then (false, v)
  else match findMarkerUpwards (- _scrollOffset v) with
       | Some newScrollOffset => scrollTo (- newScrollOffset) v
       | None => (false, v)
       end.

Definition scrollMarkDown v : bool * Viewport :=
  if scrollingDisabled then (false, v)
  else match findMarkerDownwards (- _scrollOffset v) with
       | Some newScrollOffset => scrollTo (- newScrollOffset) v
       | None => forceScrollToBottom v
       end.

(** ** The invariant, over every operation *)

Definition viewport_ok v : Prop :=
  0 <= _scrollOffset v <= history_lines /\ (isAlternateScreen = true -> _scrollOffset v = 0).

Inductive viewport_op :=
  | ScrollUp (n : Z) | ScrollDown (n : Z) | ScrollToTop | ScrollToBottom | ForceScrollToBottom
  | ScrollTo (offset : Z) | ScrollMarkUp | ScrollMarkDown
  | MakeVisible (l : Z) | MakeVisibleWithinSafeArea (l : Z) | MakeVisibleWithin (l padding : Z).

Definition run_op (o : viewport_op) : Viewport -> bool * Viewport :=
  match o with
  | ScrollUp n => scrollUp n | ScrollDown n => scrollDown n
  | ScrollToTop => scrollToTop | ScrollToBottom => scrollToBottom | ForceScrollToBottom => forceScrollToBottom
  | ScrollTo offset => scrollTo offset
  | ScrollMarkUp => scrollMarkUp | ScrollMarkDown => scrollMarkDown
  | MakeVisible l => makeVisible l | MakeVisibleWithinSafeArea l => makeVisibleWithinSafeArea l
  | MakeVisibleWithin l padding => makeVisibleWithin l padding
  end.

(** An operation either moves the viewport, staying in bounds, and says so,
    or leaves it as it is and says that. *)
Definition moves v (r : bool * Viewport) : Prop :=
  match r with
  | (true, v') => viewport_ok v' /\ _scrollOffset v' <> _scrollOffset v /\ _scrollOff v' = _scrollOff v
  | (false, v') => v' = v
  end.

Lemma scrollTo_moves offset v : moves v (scrollTo offset v).
Proof.
  unfold scrollTo, scrollingDisabled.
  destruct (isAlternateScreen && negb (offset =? 0)) eqn:A; [reflexivity|].
  destruct (Z.eqb_spec offset (_scrollOffset v)); [reflexivity|].
  destruct ((0 <=? offset) && (offset <=? history_lines)) eqn:B; [|reflexivity].
  apply andb_true_iff in B as [B1 B2]. apply Z.leb_le in B1, B2.
  cbn. unfold viewport_ok. cbn. split_and!; [lia|lia| |lia|reflexivity].
  intros Alt. rewrite Alt in A. cbn in A. apply negb_false_iff, Z.eqb_eq in A. exact A.
Qed.

Lemma run_op_moves o v : moves v (run_op o v).
Proof.
  destruct o; cbn [run_op]; unfold scrollUp, scrollDown, scrollToTop, scrollToBottom, forceScrollToBottom,
    scrollMarkUp, scrollMarkDown, makeVisible, makeVisibleWithinSafeArea, makeVisibleWithin;
    repeat case_match; unfold scrollUp, scrollDown, forceScrollToBottom; try apply scrollTo_moves; reflexivity.
Qed.

Definition run_ops (os : list viewport_op) v : Viewport := foldl (fun v o => (run_op o v).2) v os.

(** C28: Whatever is asked of the viewport, in whatever order and with whatever arguments, its
    offset stays within the history, it stays at the bottom while the alternate screen is shown,
    and an operation reports a change exactly when it has moved the viewport. *)
Theorem viewport_invariant os v :
  viewport_ok v ->
  viewport_ok (run_ops os v) /\
  forall o, let (changed, v') := run_op o (run_ops os v) in
    changed = negb (_scrollOffset v' =? _scrollOffset (run_ops os v)).
Proof.
  intros Hv. assert (Hr : viewport_ok (run_ops os v)).
  { revert v Hv. induction os as [|o os IH]; intros v Hv; [exact Hv|]. cbn [run_ops foldl]. apply IH.
    pose proof (run_op_moves o v) as M. destruct (run_op o v) as [[] v']; cbn in M |- *; [apply M|congruence]. }
  split; [exact Hr|]. intros o. pose proof (run_op_moves o (run_ops os v)) as M.
  destruct (run_op o (run_ops os v)) as [[] v']; cbn in M |- *.
  - destruct M as (_ & N & _). symmetry. apply negb_true_iff, Z.eqb_neq. exact N.
  - rewrite M, Z.eqb_refl. reflexivity.
Qed.

(** ** Making a line visible *)

Lemma scrollTo_offset offset v :
  isAlternateScreen = false -> 0 <= offset <= history_lines -> _scrollOffset (scrollTo offset v).2 = offset.
Proof.
  intros A B. unfold scrollTo, scrollingDisabled. rewrite A. cbn [andb].
  destruct (Z.eqb_spec offset (_scrollOffset v)) as [->|]; [reflexivity|].
  rewrite !(proj2 (Z.leb_le _ _)) by lia. reflexivity.
Qed.

Lemma isLineVisible_true v l :
  isLineVisible v l = true <-> 0 <= l + _scrollOffset v < screen_lines.
Proof. unfold isLineVisible. rewrite andb_true_iff, Z.leb_le, Z.ltb_lt. lia. Qed.

(** On the primary screen, making a line of the page or the history
    visible makes it visible, and at least [padding] lines away from the
    viewport's edges unless the viewport is at that end of the buffer, for
    any padding that leaves a line between the two margins. *)
Lemma made_visible l padding v :
  viewport_ok v -> isAlternateScreen = false -> 0 <= padding -> 2 * padding < screen_lines ->
  - history_lines <= l < screen_lines ->
  let v' := (makeVisibleWithin l padding v).2 in
  isLineVisible v' l = true /\
  (padding <= l + _scrollOffset v' \/ _scrollOffset v' = history_lines) /\
  (l + _scrollOffset v' < screen_lines - padding \/ _scrollOffset v' = 0).
Proof.
  intros [Ho _] A P0 P1 L. cbn zeta. rewrite isLineVisible_true. unfold makeVisibleWithin.
  destruct (Z.ltb_spec (- _scrollOffset v + padding) l) as [T|T]; cbn [negb].
  - destruct (Z.ltb_spec l (screen_lines - 1 - _scrollOffset v - padding)) as [B|B]; cbn [negb snd]; [lia|].
    unfold scrollDown. rewrite scrollTo_offset; [lia|exact A|lia].
  - unfold scrollUp. rewrite scrollTo_offset; [lia|exact A|lia].
Qed.

(** ** Positions *)

Lemma translate_roundtrip v p :
  translateGridToScreenCoordinate v (translateScreenToGridCoordinate v p) = p /\
  translateScreenToGridCoordinate v (translateGridToScreenCoordinate v p) = p.
Proof.
  unfold translateGridToScreenCoordinate, translateScreenToGridCoordinate.
  destruct p as [l c]; cbn. split; f_equal; lia.
Qed.

Lemma clampCellLocation_visible v p :
  0 < screen_lines -> 0 < screen_columns ->
  let q := clampCellLocation v p in
  isLineVisible v (line q) = true /\ 0 <= column q < screen_columns /\
  (isLineVisible v (line p) = true -> 0 <= column p < screen_columns -> q = p).
Proof.
  intros L C. cbn zeta. rewrite !isLineVisible_true. destruct p as [l c]. unfold clampCellLocation, clamp. cbn [line column].
  repeat match goal with |- context [Z.ltb ?a ?b] => destruct (Z.ltb_spec a b) end; split_and!; intros; try f_equal; lia.
Qed.

(** ** Marks *)

Lemma find_sorted (R : Z -> Z -> Prop) ls :
  StronglySorted R ls -> (forall x, ~ R x x) ->
  match first_marked ls with
  | Some i => i ∈ ls /\ line_marked i = true /\ forall j, j ∈ ls -> line_marked j = true -> j = i \/ R i j
  | None => forall j, j ∈ ls -> line_marked j = false
  end.
Proof.
  intros S N. unfold first_marked. induction S as [|x l S IH F]; cbn [List.find].
  - intros j J. by apply not_elem_of_nil in J.
  - destruct (line_marked x) eqn:M.
    + split_and!; [left|exact M|]. intros j J _. apply elem_of_cons in J as [->|J]; [auto|].
      rewrite Forall_forall in F. auto.
    + destruct (List.find line_marked l) as [i|].
      * destruct IH as (I & Mi & U). split_and!; [right; exact I|exact Mi|]. intros j J Mj.
        apply elem_of_cons in J as [->|J]; [congruence|auto].
      * intros j J. apply elem_of_cons in J as [->|J]; auto.
Qed.

Lemma reverse_sorted (R : Z -> Z -> Prop) ls : StronglySorted R ls -> StronglySorted (fun a b => R b a) (reverse ls).
Proof.
  induction 1 as [|x l S IH F]; [constructor|]. rewrite reverse_cons. apply StronglySorted_app_2; [|exact IH|repeat constructor].
  intros a b Ha Hb. apply list_elem_of_singleton in Hb as ->. rewrite elem_of_reverse in Ha.
  rewrite Forall_forall in F. auto.
Qed.

(** The mark found upwards is the nearest one above, and none is missed. *)
Lemma marker_upwards start :
  0 < history_lines -> start < screen_lines ->
  match findMarkerUpwards start with
  | Some i => - history_lines <= i < start /\ line_marked i = true /\ forall j, i < j < start -> line_marked j = false
  | None => forall j, - history_lines <= j < start -> line_marked j = false
  end.
Proof.
  intros Hh Hs. unfold findMarkerUpwards. rewrite (proj2 (Z.eqb_neq _ _)) by lia.
  destruct (Z.leb_spec start (- history_lines)); [intros; lia|]. rewrite Z.min_l by lia.
  pose proof (find_sorted _ _ (reverse_sorted _ _ (seqZ_sorted (- history_lines) (start + history_lines))))
    as F. specialize (F ltac:(cbn beta; intros; lia)).
  destruct (first_marked _) as [i|].
  - destruct F as (I & M & U). rewrite elem_of_reverse, elem_of_seqZ in I. split_and!; [lia..|exact M|].
    intros j J. apply not_true_is_false. intros Mj. destruct (U j) as [->|Lt]; [|exact Mj|lia|cbn beta in Lt; lia].
    rewrite elem_of_reverse, elem_of_seqZ. lia.
  - intros j J. apply F. rewrite elem_of_reverse, elem_of_seqZ. lia.
Qed.

(** Downwards: the nearest mark below, down to the first line of the page. *)
Lemma marker_downwards start :
  0 < history_lines -> - history_lines <= start <= 0 -> 0 < screen_lines ->
  match findMarkerDownwards start with
  | Some i => start < i <= 0 /\ line_marked i = true /\ forall j, start < j < i -> line_marked j = false
  | None => forall j, start < j <= 0 -> line_marked j = false
  end.
Proof.
  intros Hh Hs Hl. unfold findMarkerDownwards. rewrite (proj2 (Z.eqb_neq _ _)) by lia.
  assert (clamp start (- history_lines) (screen_lines - 1) = start) as ->.
  { unfold clamp. rewrite !(proj2 (Z.ltb_ge _ _)) by lia. reflexivity. }
  pose proof (find_sorted _ _ (seqZ_sorted (start + 1) (0 - start)) ltac:(cbn beta; intros; lia)) as F.
  destruct (first_marked _) as [i|].
  - destruct F as (I & M & U). rewrite elem_of_seqZ in I. split_and!; [lia..|exact M|].
    intros j J. apply not_true_is_false. intros Mj. destruct (U j) as [->|Lt]; [|exact Mj|lia|cbn beta in Lt; lia].
    rewrite elem_of_seqZ. lia.
  - intros j J. apply F. rewrite elem_of_seqZ. lia.
Qed.

End Viewport.

(** ** The jump history *)

Module Jump.

Record JumpHistory := mk_jumps { _history : list CellLocation; _current : Z; _offsetSinceLastJump : Z }.

Definition JumpHistory_init : JumpHistory := mk_jumps [] 0 0.

Definition addOffset (offset : Z) (j : JumpHistory) : JumpHistory :=
  mk_jumps (_history j) (_current j) (_offsetSinceLastJump j + offset).

Definition applyOffset (j : JumpHistory) : JumpHistory :=
  if _offsetSinceLastJump j =? 0 then j
  else mk_jumps ((fun c => mkLoc (line c - _offsetSinceLastJump j) (column c)) <$> _history j) (_current j) 0.

Definition add (cell : CellLocation) (j : JumpHistory) : JumpHistory :=
  let j := applyOffset j in mk_jumps (_history j ++ [cell]) (_current j) (_offsetSinceLastJump j).

Definition pop_back {A} (l : list A) : list A := take (length l - 1) l.

(** [None]: an access to an element the vector does not have. *)
Definition jumpToLast (current : CellLocation) (j : JumpHistory) : option (CellLocation * JumpHistory) :=
  let j := applyOffset j in
  l ← last (_history j);
  let jump l h := Some (l, mk_jumps (pop_back h ++ [current])
                             (Z.of_nat (length (pop_back h ++ [current]))) (_offsetSinceLastJump j)) in
  if decide (l = current) then
    let h := pop_back (_history j) in
    match last h with
    | None => Some (current, mk_jumps h (_current j) (_offsetSinceLastJump j))
    | Some l => jump l h
    end
  else jump l (_history j).

Definition size_max : Z := 2 ^ 64.
Definition jump_at (j : JumpHistory) (i : Z) : option (CellLocation * JumpHistory) :=
  c ← _history j !! Z.to_nat i;
  Some (c, mk_jumps (_history j) i (_offsetSinceLastJump j)).

Definition jumpToMarkBackward (j : JumpHistory) : option (CellLocation * JumpHistory) :=
  let j := applyOffset j in
  jump_at j (if _current j =? 0 then (Z.of_nat (length (_history j)) - 1) mod size_max else _current j - 1).

Definition jumpToMarkForward (j : JumpHistory) : option (CellLocation * JumpHistory) :=
  let j := applyOffset j in
  jump_at j (if _current j =? Z.of_nat (length (_history j)) then 0 else _current j + 1).

Lemma pop_back_app {A} (l : list A) x : pop_back (l ++ [x]) = l.
Proof. unfold pop_back. rewrite length_app, Nat.add_sub. apply take_app_length. Qed.

(** Jumping to the last position twice comes back: the second jump returns the
    position the first one started from, and leaves the history as it was. *)
Lemma jumpToLast_twice c j x j' :
  _offsetSinceLastJump j = 0 -> last (_history j) <> Some c -> jumpToLast c j = Some (x, j') ->
  exists j'', jumpToLast x j' = Some (c, j'') /\ _history j'' = _history j.
Proof.
  intros O N E. unfold jumpToLast, applyOffset in E. rewrite O, Z.eqb_refl in E.
  destruct (last (_history j)) as [l|] eqn:L; [|discriminate]. cbn [mbind option_bind] in E.
  rewrite decide_False in E by congruence. injection E as <- <-.
  apply last_Some in L as [h L]. rewrite L, !pop_back_app.
  unfold jumpToLast, applyOffset. cbn [_offsetSinceLastJump _history]. rewrite O, Z.eqb_refl. cbn [_history].
  rewrite last_snoc. cbn [mbind option_bind]. rewrite decide_False by congruence. rewrite !pop_back_app.
  eexists. split; reflexivity.
Qed.

(** Positions move up with the text: after [n] lines have scrolled, a jump
    returns to the same text. *)
Lemma jump_follows_text n c j l :
  _offsetSinceLastJump j = 0 -> last (_history j) = Some l -> mkLoc (line l - n) (column l) <> c ->
  exists j', jumpToLast c (addOffset n j) = Some (mkLoc (line l - n) (column l), j').
Proof.
  intros O L N. unfold jumpToLast, applyOffset. cbn [_offsetSinceLastJump _history addOffset]. rewrite O, Z.add_0_l.
  destruct (Z.eqb_spec n 0) as [->|].
  - rewrite Z.sub_0_r in *. destruct l as [a b]. cbn [line column _history addOffset] in *. rewrite L. cbn [mbind option_bind].
    rewrite decide_False by exact N. eexists. reflexivity.
  - cbn [_history]. rewrite fmap_last, L. cbn [fmap option_fmap option_map mbind option_bind].
    rewrite decide_False by exact N. eexists. reflexivity.
Qed.

(** Going backward never leaves the history, and goes around it. *)
Definition jumps_ok (j : JumpHistory) : Prop :=
  0 <= _current j <= Z.of_nat (length (_history j)) /\ 0 < Z.of_nat (length (_history j)) < size_max.

Lemma applyOffset_ok j : jumps_ok j -> jumps_ok (applyOffset j) /\
  _current (applyOffset j) = _current j /\ length (_history (applyOffset j)) = length (_history j).
Proof. unfold applyOffset, jumps_ok. destruct (_ =? 0); cbn; rewrite ?length_fmap; auto. Qed.

Lemma jumpToMarkBackward_ok j :
  jumps_ok j -> exists c j', jumpToMarkBackward j = Some (c, j') /\ jumps_ok j' /\
    _current j' = if _current j =? 0 then Z.of_nat (length (_history j)) - 1 else _current j - 1.
Proof.
  intros J. destruct (applyOffset_ok j J) as (J' & Ec & El). unfold jumpToMarkBackward.
  rewrite <- Ec, <- El. set (k := applyOffset j) in *. clearbody k. clear j J Ec El. destruct J' as [C L].
  assert (forall i, 0 <= i < Z.of_nat (length (_history k)) -> exists c j', jump_at k i = Some (c, j') /\ jumps_ok j' /\ _current j' = i) as R.
  { intros i I. unfold jump_at. destruct (lookup_lt_is_Some_2 (_history k) (Z.to_nat i)) as [c ->]; [lia|].
    cbn [mbind option_bind]. do 2 eexists. split_and!; [reflexivity| |reflexivity]. unfold jumps_ok. cbn. lia. }
  destruct (Z.eqb_spec (_current k) 0) as [E|N]; [rewrite Z.mod_small by lia|]; apply R; lia.
Qed.

(** Forward reads one past the end: with [n] positions the [n]th step from the
    first one is out of bounds. *)
Example forward_past_end :
  jumpToMarkForward (add (mkLoc 3 4) JumpHistory_init) = None.
Proof. vm_compute. reflexivity. Qed.
Example backward_on_empty : jumpToMarkBackward JumpHistory_init = None.
Proof. unfold jumpToMarkBackward, jump_at. cbn [applyOffset]. apply bind_None. left. apply lookup_nil. Qed.

End Jump.

(** ** Scrolling text under the viewport *)

Section Scrolled.
Context `{LibUnicode, UnicodeWidth, GraphemeSegmenter} `{CellConcept Cell}.
Abbreviation Line := (Line Cell).
Abbreviation Grid := (Grid Cell).
Implicit Types (g : Grid) (v : Viewport).

(** The view of the screen whose grid is [g]. *)
Definition viewed (alternate : bool) g : ViewedTerminal := {|
  history_lines := historyLineCount g;
  screen_lines := lines (_pageSize g);
  screen_columns := columns (_pageSize g);
  isAlternateScreen := alternate;
  line_marked := fun y => match lineAt g y with Some l => marked l | None => false end
|}.

(** What the window shows: the lines at the offsets the viewport covers. *)
Definition window g v : list (option Line) :=
  (fun r => lineAt g (r - _scrollOffset v)) <$> seqZ 0 (lines (_pageSize g)).

(** [onBufferScrolled]: the normal mode's cursor line, the viewport and the
    selection, after the grid has scrolled by [n]. *)
Record Scrolling := mk_scrolling {
  cursor_line : Z;
  viewport : Viewport;
  normalMode : bool;
  visualMode : bool;
  leftMouseButtonPressed : bool;
  selection : option Selection
}.

(** [clearSelection]: the visual modes are left, with the mouse button held
    only; otherwise they keep the selection. *)
Definition clearSelection (t : Scrolling) : Scrolling :=
  if visualMode t && negb (leftMouseButtonPressed t) then t
  else mk_scrolling (cursor_line t) (viewport t) (normalMode t || visualMode t) false (leftMouseButtonPressed t) None.

Definition with_selection (s : Selection) (t : Scrolling) : Scrolling :=
  mk_scrolling (cursor_line t) (viewport t) (normalMode t) (visualMode t) (leftMouseButtonPressed t) (Some s).

Definition onBufferScrolled (alternate : bool) (primary current : Grid) (n : Z) (t : Scrolling) : Scrolling :=
  let v := if scrolled (viewport t) || normalMode t
           then (scrollUp (H := viewed alternate current) n (viewport t)).2 else viewport t in
  let t := mk_scrolling (cursor_line t - n) v (normalMode t) (visualMode t) (leftMouseButtonPressed t) (selection t) in
  match selection t with
  | None => t
  | Some s =>
      let top := - historyLineCount primary in
      if (top <? line (s_from s)) && (top <? line (s_to s))
      then with_selection (applyScroll n (historyLineCount primary) s) t
      else clearSelection t
  end.

(** The viewport does not depend on the selection. *)
Lemma onBufferScrolled_viewport alternate primary current n t :
  viewport (onBufferScrolled alternate primary current n t) =
    if scrolled (viewport t) || normalMode t
    then (scrollUp (H := viewed alternate current) n (viewport t)).2 else viewport t.
Proof. unfold onBufferScrolled, clearSelection. cbn [selection]. repeat case_match; reflexivity. Qed.

(** The number [scrollUp] returns: fewer than it scrolled by when the lines it
    appends fill up the ring. *)
Lemma scrollUp_count g n a limit g' k :
  _historyLimit g = LimitedTo limit -> Grid.scrollUp g n a = Some (g', k) ->
  k = if _linesUsed g =? size (_lines g) then n else Z.min n (size (_lines g) - _linesUsed g).
Proof.
  intros Hl. unfold Grid.scrollUp, scrollUp_alloc. rewrite Hl. destruct (_linesUsed g =? size (_lines g)).
  - intros E. apply bind_Some in E as (? & _ & [= _ <-]). reflexivity.
  - destruct (_linesUsed g <? size (_lines g)); [|discriminate].
    intros E. apply bind_Some in E as (? & _ & [= _ <-]). reflexivity.
Qed.

(** A line that is not dropped is found [n] lines further up. *)
Lemma line_moved_up g g' n a y :
  grid_ok g -> 0 <= n <= lines (_pageSize g) -> scrolled_up g g' n a ->
  - historyLineCount g' <= y - n -> - historyLineCount g <= y < lines (_pageSize g) ->
  lineAt g' (y - n) = lineAt g y.
Proof.
  intros Hok Hn (Hok' & Hp & _ & Hs & Hu & _ & _ & Hc) Hd Hy. pose proof Hok as [Hr Hl Hus].
  destruct (grid_split g Hok) as (U & _ & HA & HH & _).
  unfold historyLineCount in *. rewrite Hp, Hu in Hd.
  rewrite !lineAt_contents by (done || (unfold historyLineCount; rewrite ?Hp, ?Hu; lia)).
  unfold historyLineCount. rewrite Hc, lookup_drop, Hp, Hu, lookup_app_l by (unfold contents; rewrite length_app; lia).
  f_equal. lia.
Qed.

Lemma window_moved_up g g' n a v v' :
  grid_ok g -> 0 <= n <= lines (_pageSize g) -> scrolled_up g g' n a ->
  0 <= _scrollOffset v <= historyLineCount g -> _scrollOffset v' = _scrollOffset v + n ->
  _scrollOffset v' <= historyLineCount g' -> window g' v' = window g v.
Proof.
  intros Hok Hn Hup Hv Ev Hv'. pose proof Hup as (_ & Hp & _). unfold window. rewrite Hp.
  apply list_fmap_ext. intros i r Hr. apply list_elem_of_lookup_2, elem_of_seqZ in Hr.
  replace (r - _scrollOffset v') with (r - _scrollOffset v - n) by lia.
  apply (line_moved_up g g' n a); [done|done|done|lia|lia].
Qed.

(** C17: Let a grid with a limited history and lines as wide as the page scroll up by at most a
    page, under a viewport that looks into the history or in normal mode, let the ring be full
    or have room for all the new lines, and let the lines shown still fit into the history after
    the scroll. Then scrolling succeeds and the window shows the same lines before and after;
    and a selection whose two end lines are in the grid and not dropped from the history stays
    on its text. When the lines fill up the ring in the middle of the scroll, the text does move
    (text_drifts). *)
Theorem text_stays g n a limit t :
  grid_ok g -> uniform g -> 0 < n <= lines (_pageSize g) -> _historyLimit g = LimitedTo limit ->
  _linesUsed g + n <= size (_lines g) \/ _linesUsed g = size (_lines g) ->
  viewport_ok (H := viewed false g) (viewport t) -> scrolled (viewport t) || normalMode t = true ->
  _scrollOffset (viewport t) + n <= size (_lines g) - lines (_pageSize g) ->
  exists g' k, Grid.scrollUp g n a = Some (g', k) /\
    let t' := onBufferScrolled false g' g' k t in
    window g' (viewport t') = window g (viewport t) /\
    forall s, selection t = Some s ->
      (forall y, y = line (s_from s) \/ y = line (s_to s) ->
         n - historyLineCount g' <= y /\ - historyLineCount g <= y < lines (_pageSize g)) ->
      exists s', selection t' = Some s' /\
        lineAt g' (line (s_from s')) = lineAt g (line (s_from s)) /\ column (s_from s') = column (s_from s) /\
        lineAt g' (line (s_to s')) = lineAt g (line (s_to s)) /\ column (s_to s') = column (s_to s).
Proof.
  intros Hok Hu Hn Hl Hroom [Hv _] Hsc Hfit. cbn [history_lines viewed] in Hv.
  destruct (scrollUp_core g n a Hok Hu) as (g' & k & E & Hup); [lia|unfold scrollUp_alloc; by rewrite Hl|].
  exists g', k. split; [exact E|]. apply (scrollUp_count _ _ _ _ _ _ Hl) in E.
  assert (k = n) as -> by (destruct (Z.eqb_spec (_linesUsed g) (size (_lines g))); lia). clear E Hroom.
  pose proof Hup as (Hok' & Hp & _ & Hs & Hus & _). pose proof Hok as [_ Hpos Hus0].
  assert (Hh : historyLineCount g' = Z.min (historyLineCount g + n) (size (_lines g) - lines (_pageSize g)))
    by (unfold historyLineCount; rewrite Hp, Hus; lia).
  cbn zeta. rewrite onBufferScrolled_viewport, Hsc. split.
  - apply (window_moved_up g g' n a); [done|lia|done|done|..]; unfold scrollUp;
      rewrite scrollTo_offset; cbn [history_lines viewed isAlternateScreen]; (reflexivity || lia).
  - intros s Es Hy. unfold onBufferScrolled. cbn [selection]. rewrite Es. pose proof (Hy _ (or_introl eq_refl)) as Hf. pose proof (Hy _ (or_intror eq_refl)) as Ht.
    rewrite !(proj2 (Z.ltb_lt _ _)) by lia. cbn [andb]. eexists. split; [reflexivity|].
    unfold applyScroll. cbn [s_from s_to line column]. rewrite !Z.max_l by lia.
    split_and!; try reflexivity; apply (line_moved_up g g' n a); (done || lia).
Qed.

End Scrolled.

(** ** Witnesses and examples *)

Module Examples.

(** Twenty lines of history above a page of ten, line -7 marked. *)
Definition terminal (lines : Z) : ViewedTerminal := {|
  history_lines := 20; screen_lines := lines; screen_columns := 4; isAlternateScreen := false;
  line_marked := fun y => y =? -7 |}.

Lemma viewport_invariant_witness :
  viewport_ok (H := terminal 10) (run_ops (H := terminal 10) [ScrollUp 30; ScrollMarkDown; MakeVisible (-3)] Viewport_init).
Proof. apply (viewport_invariant (H := terminal 10)). split; [cbn; lia|discriminate]. Defined.

Example marks_visited :
  let up := scrollMarkUp (H := terminal 10) Viewport_init in
  up = (true, mk_viewport 7 8) /\ scrollMarkUp (H := terminal 10) up.2 = (false, mk_viewport 7 8) /\
  scrollMarkDown (H := terminal 10) up.2 = (true, mk_viewport 0 8).
Proof. vm_compute. auto. Qed.

(** With the default margin of eight lines and a page of eight, asking for
    the first line to be visible scrolls it out of sight. *)
Example margin_too_large :
  isLineVisible (H := terminal 8) Viewport_init 0 = true /\
  isLineVisible (H := terminal 8) (makeVisibleWithinSafeArea (H := terminal 8) 0 Viewport_init).2 0 = false.
Proof. vm_compute. auto. Qed.

(** Two page lines, [used] of the ring's six lines in use. *)
Definition six_lines (used : Z) : Grid SimpleCell.t :=
  mkGrid (mkPageSize 2 3) false (LimitedTo 4)
    (mk_ring (letter <$> [0x61; 0x62; 0x63; 0x64; 0x65; 0x66]) 3) used.

Definition looking_back (offset : Z) : Scrolling :=
  mk_scrolling 0 (mk_viewport offset 8) false false false
    (Some (mk_selection Linear Complete (mkLoc (-1) 0) (mkLoc 1 2))).

Lemma six_lines_ok used : 2 <= used <= 6 -> grid_ok (six_lines used) /\ uniform (six_lines used).
Proof.
  intros Hu. split; [split; unfold ring_ok, size; simpl; lia|].
  unfold uniform, contents, history, page. apply Forall_app.
  split; [apply Forall_drop|apply Forall_take]; unfold view; simpl; repeat constructor.
Qed.

Lemma text_stays_witness :
  exists g' k, Grid.scrollUp (six_lines 5) 1 Attrs_init = Some (g', k) /\
    window g' (viewport (onBufferScrolled false g' g' k (looking_back 1))) =
      [Some (letter 0x63); Some (letter 0x64)].
Proof.
  destruct (six_lines_ok 5) as [Hok Hu]; [lia|].
  destruct (text_stays (six_lines 5) 1 Attrs_init 4 (looking_back 1)) as (g' & k & E & W & _);
    [exact Hok|exact Hu|simpl; lia|reflexivity|left; unfold size; simpl; lia|
     split; [vm_compute; split; discriminate|discriminate]|reflexivity|unfold size; simpl; lia|].
  exists g', k. split; [exact E|exact W].
Defined.

(** When the lines fill up the ring in the middle of a scroll, the count that
    comes back is too small, and the text moves on the window. *)
Example text_drifts :
  exists g' k, Grid.scrollUp (six_lines 5) 2 Attrs_init = Some (g', k) /\ k = 1 /\
    window (six_lines 5) (viewport (looking_back 1)) = [Some (letter 0x63); Some (letter 0x64)] /\
    window g' (viewport (onBufferScrolled false g' g' k (looking_back 1))) =
      [Some (letter 0x64); Some (letter 0x65)].
Proof. do 2 eexists. split; [vm_compute; reflexivity|]. vm_compute. auto. Qed.

End Examples.
