(* ===== verification/ViInput.v ===== *)
(** * Vi-like input (src/vtbackend/ViInputHandler.h, ViInputHandler.cpp)

    Key strokes collect into a pending input that is looked up in the command
    map of the mode.  The executor is an interface: its calls are recorded.
    Conversions between code points and UTF-8 are libunicode's. *)
From Stdlib Require Import String.
From stdpp Require Import list.
From S2P Require Import Prelude Color Text Cell Trie Sequence Sgr VTWriter Input.
Import Flags.

(** ** Motions, operators, text objects *)

Inductive ViMode := Normal_ | Insert_ | Visual | VisualLine | VisualBlock.
#[export] Instance ViMode_eq_dec : EqDecision ViMode.
Proof. solve_decision. Defined.

Inductive ViMotion :=
  | Explicit | Selection | FullLine | CharLeft | CharRight | ScreenColumn | FileBegin | FileEnd
  | LineBegin | LineTextBegin | LineDown | LineEnd | LineUp | LinesCenter | PageDown | PageUp | PageTop | PageBottom
  | ParagraphBackward | ParagraphForward | GlobalCurlyCloseUp | GlobalCurlyCloseDown | GlobalCurlyOpenUp
  | GlobalCurlyOpenDown | LineMarkUp | LineMarkDown | ParenthesisMatching | SearchResultBackward
  | SearchResultForward | WordBackward | WordEndForward | WordForward | BigWordBackward | BigWordEndForward
  | BigWordForward | TillBeforeCharRight | TillAfterCharLeft | ToCharRight | ToCharLeft | RepeatCharMove
  | RepeatCharMoveReverse | JumpToLastJumpPoint | JumpToMarkBackward | JumpToMarkForward | CenterCursor.

Inductive ViOperator := MoveCursor_ | Yank_ | Paste_ | PasteStripped_ | ReverseSearchCurrentWord_ | Open_.
Inductive TextObject :=
  | AngleBrackets | CurlyBrackets | DoubleQuotes | LineMark | Paragraph | RoundBrackets | SingleQuotes | BackQuotes
  | SquareBrackets | Word | BigWord.
Inductive TextObjectScope := Inner | A_.
Inductive SearchEditMode := Disabled | Enabled | ExternallyEnabled.
#[export] Instance SearchEditMode_eq_dec : EqDecision SearchEditMode.
Proof. solve_decision. Defined.

(** The calls of the executor's methods. *)
Inductive ExecutorCall :=
  | Execute (op : ViOperator) (motion : ViMotion) (count lastChar : Z)
  | MoveCursor (motion : ViMotion) (count lastChar : Z)
  | Select (scope : TextObjectScope) (textObject : TextObject)
  | Yank (scope : TextObjectScope) (textObject : TextObject)
  | Open (scope : TextObjectScope) (textObject : TextObject)
  | Paste (count : Z) (stripped : bool)
  | ModeChanged (mode : ViMode)
  | SearchStart | SearchDone | SearchCancel
  | UpdateSearchTerm (text : list Z)
  | ScrollViewport (delta : Z)
  | ReverseSearchCurrentWord | ToggleLineMark | SearchCurrentWord.

(** ** The handler's state *)

Record ViInputHandler := mk_vi {
  _viMode : ViMode;
  _searchEditMode : SearchEditMode;
  _searchTerm : list Z;
  _pendingInput : list Z;
  _count : Z;
  _lastChar : Z;
  fromSearchIntoInsertMode : bool;
  _executor : list ExecutorCall
}.

Definition vi_init (mode : ViMode) : ViInputHandler := mk_vi mode Disabled [] [] 0 0 true [].

Section Updates.
Implicit Types (h : ViInputHandler).
Definition call c h := mk_vi (_viMode h) (_searchEditMode h) (_searchTerm h) (_pendingInput h) (_count h) (_lastChar h)
  (fromSearchIntoInsertMode h) (_executor h ++ [c]).
Definition with_mode m h := mk_vi m (_searchEditMode h) (_searchTerm h) (_pendingInput h) (_count h) (_lastChar h)
  (fromSearchIntoInsertMode h) (_executor h).
Definition with_edit e h := mk_vi (_viMode h) e (_searchTerm h) (_pendingInput h) (_count h) (_lastChar h)
  (fromSearchIntoInsertMode h) (_executor h).
Definition with_term t h := mk_vi (_viMode h) (_searchEditMode h) t (_pendingInput h) (_count h) (_lastChar h)
  (fromSearchIntoInsertMode h) (_executor h).
Definition with_pending p h := mk_vi (_viMode h) (_searchEditMode h) (_searchTerm h) p (_count h) (_lastChar h)
  (fromSearchIntoInsertMode h) (_executor h).
Definition with_count c h := mk_vi (_viMode h) (_searchEditMode h) (_searchTerm h) (_pendingInput h) c (_lastChar h)
  (fromSearchIntoInsertMode h) (_executor h).
Definition with_lastChar c h := mk_vi (_viMode h) (_searchEditMode h) (_searchTerm h) (_pendingInput h) (_count h) c
  (fromSearchIntoInsertMode h) (_executor h).

Definition setSearchModeSwitch (enabled : bool) h := mk_vi (_viMode h) (_searchEditMode h) (_searchTerm h)
  (_pendingInput h) (_count h) (_lastChar h) enabled (_executor h).

Definition isVisualMode h : bool :=
  match _viMode h with Insert_ | Normal_ => false | Visual | VisualBlock | VisualLine => true end.
Definition isEditingSearch h : bool := negb (bool_decide (_searchEditMode h = Disabled)).
Definition count h : Z := if _count h =? 0 then 1 else _count h.

(** ** Modes and searches *)

Definition clearPendingInput h : ViInputHandler := with_pending [] (with_count 0 h).
Definition clearSearch h : ViInputHandler := call (UpdateSearchTerm []) (with_term [] h).

Definition setMode (theMode : ViMode) h : ViInputHandler :=
  if decide (_viMode h = theMode) then h
  else
    let h := h |> with_mode theMode |> clearPendingInput |> call (ModeChanged theMode) in
    if decide (_viMode h = Insert_) then clearSearch h else h.
Definition toggleMode (newMode : ViMode) h : ViInputHandler :=
  setMode (if decide (newMode = _viMode h) then Normal_ else newMode) h.

Definition startSearch h : ViInputHandler := call SearchStart (with_edit Enabled h).
Definition startSearchExternally h : ViInputHandler :=
  let h := h |> with_term [] |> call SearchStart in
  if decide (_viMode h = Insert_) then setMode Normal_ (with_edit ExternallyEnabled h) else with_edit Enabled h.

(** [InputMatch]: the low five modifiers count. *)
Definition input_code (ch : Z) (modifiers : Modifiers) : Z := Z.lor (u32 (Z.shiftl ch 5)) (Z.land modifiers 31).
Definition key_code (ch : Z) : Z := input_code ch 0.

Definition update_term h : ViInputHandler := call (UpdateSearchTerm (_searchTerm h)) h.

Definition handleSearchEditor (ch : Z) (modifiers : Modifiers) h : bool * ViInputHandler :=
  let code := input_code ch modifiers in
  (true,
   if code =? key_code 0x1B then
     let h := with_term [] h in
     let h := if decide (_searchEditMode h = ExternallyEnabled) then setMode Insert_ h else h in
     h |> with_edit Disabled |> call SearchCancel |> update_term
   else if code =? key_code 0x0D then
     let h := if fromSearchIntoInsertMode h && bool_decide (_searchEditMode h = ExternallyEnabled)
              then setMode Insert_ h else h in
     h |> with_edit Disabled |> call SearchDone |> update_term
   else if (code =? key_code 0x08) || (code =? key_code 0x7F) then
     update_term (with_term (take (length (_searchTerm h) - 1) (_searchTerm h)) h)
   else if (code =? input_code 0x4C Modifier.Control) || (code =? input_code 0x55 Modifier.Control) then
     update_term (with_term [] h)
   else if (0x20 <=? ch) && negb (any (without modifiers Modifier.Shift)) then
     update_term (with_term (_searchTerm h ++ [ch]) h)
   else h).

Definition parseCount (ch : Z) (modifiers : Modifiers) h : bool * ViInputHandler :=
  if any modifiers then (false, h)
  else if (ch =? 0x30) && (_count h =? 0) then (false, h)
  else if (0x30 <=? ch) && (ch <=? 0x39) then (true, with_count (u32 (_count h * 10 + (ch - 0x30))) h)
  else (false, h).

End Updates.

(** ** Commands *)

(** The handlers that are registered. *)
Inductive Command :=
  | CMove (motion : ViMotion)
  | CScroll (delta : Z) (motion : ViMotion)
  | CMoveChar (motion : ViMotion)
  | CSetMode (mode : ViMode)
  | CToggleMode (mode : ViMode)
  | CStartSearch | CReverseSearch | CToggleLineMark | CSearchWord
  | CPaste (stripped : bool)
  | CExecute (op : ViOperator) (motion : ViMotion)
  | CExecuteChar (op : ViOperator) (motion : ViMotion)
  | CYank (scope : TextObjectScope) (obj : TextObject)
  | COpen (scope : TextObjectScope) (obj : TextObject)
  | CSelect (scope : TextObjectScope) (obj : TextObject).

Definition run_command (c : Command) (h : ViInputHandler) : ViInputHandler :=
  match c with
  | CMove m => call (MoveCursor m (count h) 0) h
  | CScroll delta m => h |> call (ScrollViewport delta) |> call (MoveCursor m 1 0)
  | CMoveChar m => call (MoveCursor m (count h) (_lastChar h)) h
  | CSetMode m => setMode m h
  | CToggleMode m => toggleMode m h
  | CStartSearch => startSearch h
  | CReverseSearch => call ReverseSearchCurrentWord h
  | CToggleLineMark => call ToggleLineMark h
  | CSearchWord => call SearchCurrentWord h
  | CPaste stripped => call (Paste (count h) stripped) h
  | CExecute op m => call (Execute op m (count h) 0) h
  | CExecuteChar op m => call (Execute op m (count h) (_lastChar h)) h
  | CYank scope obj => call (Yank scope obj) h
  | COpen scope obj => call (Open scope obj) h
  | CSelect scope obj => call (Select scope obj) h
  end.

(** *** The registration *)

Definition ScopeMappings : list (list Z * TextObjectScope) := [(bytes "i", Inner); (bytes "a", A_)].

Definition MotionMappings : list (list Z * ViMotion) :=
  [(bytes "$", LineEnd); (bytes "%", ParenthesisMatching); (bytes "0", LineBegin); (bytes "<BS>", CharLeft);
   (bytes "<NL>", LineDown); (bytes "<Down>", LineDown); (bytes "<End>", LineEnd); (bytes "<Home>", LineBegin);
   (bytes "<Left>", CharLeft); (bytes "<PageDown>", PageDown); (bytes "<PageUp>", PageUp);
   (bytes "<Right>", CharRight); (bytes "<Space>", CharRight); (bytes "<Up>", LineUp); (bytes "B", BigWordBackward);
   (bytes "C-D", PageDown); (bytes "C-U", PageUp); (bytes "E", BigWordEndForward); (bytes "G", FileEnd);
   (bytes "H", PageTop); (bytes "L", PageBottom); (bytes "M", LinesCenter); (bytes "N", SearchResultBackward);
   (bytes "W", BigWordForward); (bytes "[[", GlobalCurlyOpenUp); (bytes "[]", GlobalCurlyCloseUp);
   (bytes "[m", LineMarkUp); (bytes "][", GlobalCurlyCloseDown); (bytes "]]", GlobalCurlyOpenDown);
   (bytes "]m", LineMarkDown); (bytes "^", LineTextBegin); (bytes "b", WordBackward); (bytes "e", WordEndForward);
   (bytes "gg", FileBegin); (bytes "h", CharLeft); (bytes "j", LineDown); (bytes "k", LineUp);
   (bytes "l", CharRight); (bytes "n", SearchResultForward); (bytes "w", WordForward);
   (bytes "{", ParagraphBackward); (bytes "|", ScreenColumn); (bytes "}", ParagraphForward);
   (bytes "''", JumpToLastJumpPoint); (bytes "``", JumpToLastJumpPoint); (bytes "C-O", JumpToMarkBackward);
   (bytes "C-I", JumpToMarkForward); (bytes "zz", CenterCursor)].

Definition TextObjectMappings : list (list Z * TextObject) :=
  [([0x22], DoubleQuotes); (bytes "m", LineMark); (bytes "(", RoundBrackets); (bytes ")", RoundBrackets);
   (bytes "<", AngleBrackets); (bytes ">", AngleBrackets); (bytes "W", BigWord); (bytes "[", SquareBrackets);
   (bytes "]", SquareBrackets); (bytes "'", SingleQuotes); (bytes "`", BackQuotes); (bytes "p", Paragraph);
   (bytes "w", Word); (bytes "{", CurlyBrackets); (bytes "}", CurlyBrackets)].

(** What both modes share. *)
Definition common_commands : list (list Z * Command) :=
  ((fun '(keys, m) => (keys, CMove m)) <$> MotionMappings) ++
  [(bytes "J", CScroll (-1) LineDown); (bytes "K", CScroll 1 LineUp);
   (bytes "C-E", CScroll (-1) LineDown); (bytes "C-Y", CScroll 1 LineUp);
   (bytes "t.", CMoveChar TillBeforeCharRight); (bytes "T.", CMoveChar TillAfterCharLeft);
   (bytes "f.", CMoveChar ToCharRight); (bytes "F.", CMoveChar ToCharLeft);
   (bytes ";", CMove RepeatCharMove); (bytes ",", CMove RepeatCharMoveReverse)].

Definition operator_commands (key : list Z) (op : ViOperator) : list (list Z * Command) :=
  [(key ++ key, CExecute op FullLine)] ++
  ((fun '(keys, m) => (key ++ keys, CExecute op m)) <$> MotionMappings) ++
  [(key ++ bytes "t.", CExecuteChar op TillBeforeCharRight); (key ++ bytes "T.", CExecuteChar op TillAfterCharLeft);
   (key ++ bytes "f.", CExecuteChar op ToCharRight); (key ++ bytes "F.", CExecuteChar op ToCharLeft)].

Definition normal_commands : list (list Z * Command) :=
  common_commands ++
  [(bytes "A", CSetMode Insert_); (bytes "I", CSetMode Insert_); (bytes "a", CSetMode Insert_);
   (bytes "i", CSetMode Insert_); (bytes "<Insert>", CSetMode Insert_); (bytes "<Escape>", CSetMode Insert_);
   (bytes "v", CToggleMode Visual); (bytes "V", CToggleMode VisualLine); (bytes "C-V", CToggleMode VisualBlock);
   (bytes "/", CStartSearch); (bytes "#", CReverseSearch); (bytes "mm", CToggleLineMark); (bytes "*", CSearchWord);
   (bytes "p", CPaste false); (bytes "P", CPaste true)] ++
  operator_commands (bytes "y") Yank_ ++ operator_commands (bytes "o") Open_ ++
  ('(sc, scope) ← ScopeMappings; '(oc, obj) ← TextObjectMappings;
   [(bytes "y" ++ sc ++ oc, CYank scope obj); (bytes "o" ++ sc ++ oc, COpen scope obj)]).

Definition visual_commands : list (list Z * Command) :=
  common_commands ++
  [(bytes "/", CStartSearch); (bytes "y", CExecute Yank_ Selection); (bytes "o", CExecute Open_ Selection);
   (bytes "v", CToggleMode Normal_); (bytes "V", CToggleMode VisualLine); (bytes "C-V", CToggleMode VisualBlock);
   (bytes "<ESC>", CSetMode Normal_)] ++
  ('(sc, scope) ← ScopeMappings; '(oc, obj) ← TextObjectMappings; [(sc ++ oc, CSelect scope obj)]).

(** [registerCommand]: [None] where [Require] fails. *)
Definition registerCommand (command : list Z) (handler : Command) (m : trie_map Command) : option (trie_map Command) :=
  let commandStr := replace command (bytes "<Space>") (bytes " ") in
  if Trie.contains commandStr m then None else Trie.insert commandStr handler m.
Definition register (l : list (list Z * Command)) : option (trie_map Command) :=
  foldl (fun r c => m ← r; registerCommand c.1 c.2 m) (Some trie_empty) l.

Definition normalMode : trie_map Command := default trie_empty (register normal_commands).
Definition visualMode : trie_map Command := default trie_empty (register visual_commands).

(** ** Key strokes *)

(** [unicode::convert_to<char32_t>(...).back()] *)
Class Utf8Decoder := last_codepoint : list Z -> Z.

Section Strokes.
Context `{Utf8Encoder} `{Utf8Decoder}.
Implicit Types (h : ViInputHandler).

Definition appendModifierToPendingInput (modifiers : Modifiers) h : ViInputHandler :=
  let add (flag : flags) (text : string) (p : list Z) := if any (both modifiers flag) then p ++ bytes text else p in
  with_pending (_pendingInput h |> add Modifier.Super "M-"%string |> add Modifier.Alt "A-"%string |> add Modifier.Shift "S-"%string
                |> add Modifier.Control "C-"%string) h.

Definition handlePendingInput h : ViInputHandler :=
  let mapping := if isVisualMode h then visualMode else normalMode in
  match Trie.search (_pendingInput h) true mapping with
  | exact_match handler =>
      h |> with_lastChar (last_codepoint (_pendingInput h)) |> run_command handler |> clearPendingInput
  | no_match => clearPendingInput h
  | partial_match => h
  end.

Definition sendCharPressEvent (ch : Z) (modifiers : Modifiers) (eventType : KeyboardEventType.t) h : bool * ViInputHandler :=
  if decide (eventType = KeyboardEventType.Release) then (true, h)
  else if negb (bool_decide (_searchEditMode h = Disabled)) then handleSearchEditor ch modifiers h
  else if decide (_viMode h = Insert_) then (false, h)
  else if (ch =? 0x1B) && negb (any modifiers) then (true, setMode Normal_ (clearPendingInput h))
  else
    let '(counted, h) := parseCount ch modifiers h in
    if counted then (true, h)
    else
      let h := appendModifierToPendingInput (if 0x20 <? ch then without modifiers Modifier.Shift else modifiers) h in
      let text := if ch =? 0x1B then bytes "<ESC>" else if ch =? 0x08 then bytes "<BS>"
                  else if (ch =? 0x0A) || (ch =? 0x0D) then bytes "<NL>" else encode_utf8 ch in
      let h := with_pending (_pendingInput h ++ text) h in
      if decide (_pendingInput h = []) then (false, h) else (true, handlePendingInput h).

Definition charMappings (key : Key.t) : option Z :=
  match key with
  | Key.Numpad_0 => Some 0x30 | Key.Numpad_1 => Some 0x31 | Key.Numpad_2 => Some 0x32 | Key.Numpad_3 => Some 0x33
  | Key.Numpad_4 => Some 0x34 | Key.Numpad_5 => Some 0x35 | Key.Numpad_6 => Some 0x36 | Key.Numpad_7 => Some 0x37
  | Key.Numpad_8 => Some 0x38 | Key.Numpad_9 => Some 0x39 | Key.Backspace => Some 0x08 | Key.Enter => Some 0x0A
  | _ => None
  end.
Definition keyMappings (key : Key.t) : option (list Z) :=
  match key with
  | Key.DownArrow => Some (bytes "<Down>") | Key.LeftArrow => Some (bytes "<Left>")
  | Key.RightArrow => Some (bytes "<Right>") | Key.UpArrow => Some (bytes "<Up>")
  | Key.Insert => Some (bytes "<Insert>") | Key.Delete => Some (bytes "<Delete>")
  | Key.Home => Some (bytes "<Home>") | Key.End_ => Some (bytes "<End>") | Key.PageUp => Some (bytes "<PageUp>")
  | Key.PageDown => Some (bytes "<PageDown>") | Key.Escape => Some (bytes "<Escape>")
  | _ => None
  end.

Definition sendKeyPressEvent (key : Key.t) (modifiers : Modifiers) (eventType : KeyboardEventType.t) h : bool * ViInputHandler :=
  if decide (eventType = KeyboardEventType.Release) then (true, h)
  else if negb (bool_decide (_searchEditMode h = Disabled)) then
    match key with
    | Key.Backspace => handleSearchEditor 0x08 modifiers h
    | Key.Enter => handleSearchEditor 0x0D modifiers h
    | Key.Escape => handleSearchEditor 0x1B modifiers h
    | _ => (true, h)
    end
  else if decide (_viMode h = Insert_) then (false, h)
  else if isVisualMode h && bool_decide (key = Key.Escape) && negb (any modifiers) then
    (false, setMode Normal_ (clearPendingInput h))
  else
    match charMappings key with
    | Some ch => sendCharPressEvent ch modifiers eventType h
    | None =>
        if any modifiers then (true, h)
        else
          let h := match keyMappings key with Some text => with_pending (_pendingInput h ++ text) h | None => h end in
          if decide (_pendingInput h = []) then (true, h) else (true, handlePendingInput h)
    end.

End Strokes.

(** ** Typing a command *)

#[export] Instance Command_eq_dec : EqDecision Command.
Proof.
  assert (EqDecision ViMotion) by solve_decision. assert (EqDecision ViOperator) by solve_decision.
  assert (EqDecision TextObject) by solve_decision. assert (EqDecision TextObjectScope) by solve_decision.
  solve_decision.
Defined.

(** What is relied on of the conversions: US-ASCII is as it is. *)
Class AsciiText `{Utf8Encoder} `{Utf8Decoder} := {
  encode_ascii ch : 0 <= ch < 0x80 -> encode_utf8 ch = [ch];
  last_ascii p ch : 0 <= ch < 0x80 -> last_codepoint (p ++ [ch]) = ch
}.

Inductive stroke := SChar (ch : Z) (modifiers : Modifiers) | SKey (key : Key.t).

Definition key_names : list (list Z * stroke) :=
  ((fun k => (default [] (keyMappings k), SKey k)) <$>
    [Key.DownArrow; Key.LeftArrow; Key.RightArrow; Key.UpArrow; Key.Insert; Key.Home; Key.End_; Key.PageUp;
     Key.PageDown; Key.Escape]) ++
  [(bytes "<BS>", SKey Key.Backspace); (bytes "<NL>", SKey Key.Enter); (bytes "<Space>", SChar 0x20 0)].

(** The strokes for the text of a command; [c] is typed for the dot. *)
Fixpoint command_strokes (fuel : nat) (c : Z) (text : list Z) : list stroke :=
  match fuel with
  | O => []
  | S fuel =>
      match text with
      | [] => []
      | 0x43 :: 0x2D :: ch :: text => SChar ch Modifier.Control :: command_strokes fuel c text
      | 0x2E :: text => SChar c 0 :: command_strokes fuel c text
      | ch :: rest =>
          match List.find (fun n => bool_decide (n.1 `prefix_of` text)) key_names with
          | Some (name, st) => st :: command_strokes fuel c (drop (length name) text)
          | None => SChar ch 0 :: command_strokes fuel c rest
          end
      end
  end.
Definition strokes_of (c : Z) (text : list Z) : list stroke := command_strokes (length text) c text.

(** What a stroke adds to the pending input. *)
Definition stroke_text (st : stroke) : list Z :=
  match st with
  | SChar ch m => if m =? 0 then [ch] else bytes "C-" ++ [ch]
  | SKey Key.Backspace => bytes "<BS>"
  | SKey Key.Enter => bytes "<NL>"
  | SKey k => default [] (keyMappings k)
  end.

(** A stroke that is neither a count nor one that leaves the mode. *)
Definition plain_stroke (counting visual : bool) (st : stroke) : bool :=
  match st with
  | SChar ch m =>
      if m =? 0 then (0x20 <=? ch) && (ch <? 0x7F) && negb ((if counting then 0x30 else 0x31) <=? ch) ||
                     (0x39 <? ch) && (ch <? 0x7F)
      else (m =? Modifier.Control) && (0x20 <? ch) && (ch <? 0x7F)
  | SKey Key.Backspace | SKey Key.Enter => true
  | SKey k => bool_decide (is_Some (keyMappings k)) && negb (visual && bool_decide (k = Key.Escape))
  end.

(** What typing the strokes finds: a partial match on the way, the command
    at the end. *)
Fixpoint found (mapping : trie_map Command) (typed : list Z) (sts : list stroke) : option Command :=
  match sts with
  | [] => None
  | st :: sts =>
      match Trie.search (typed ++ stroke_text st) true mapping, sts with
      | exact_match c, [] => Some c
      | partial_match, _ :: _ => found mapping (typed ++ stroke_text st) sts
      | _, _ => None
      end
  end.

Section Typing.
Context `{AsciiText}.
Implicit Types (h : ViInputHandler).

Definition press h (st : stroke) : ViInputHandler :=
  match st with
  | SChar ch m => (sendCharPressEvent ch m KeyboardEventType.Press h).2
  | SKey k => (sendKeyPressEvent k 0 KeyboardEventType.Press h).2
  end.

(** A character that is no count goes to the pending input. *)
Lemma press_char ch m h :
  _searchEditMode h = Disabled -> _viMode h <> Insert_ -> 0x20 <= ch < 0x7F ->
  (m = 0 /\ (ch < 0x30 \/ 0x39 < ch \/ (ch = 0x30 /\ _count h = 0))) \/ (m = Modifier.Control /\ 0x20 < ch) ->
  press h (SChar ch m) = handlePendingInput (with_pending (_pendingInput h ++ stroke_text (SChar ch m)) h).
Proof.
  intros E M C K. cbn [press stroke_text]. unfold sendCharPressEvent.
  rewrite E, decide_False, bool_decide_true by done. cbn [negb]. rewrite decide_False by done.
  rewrite (proj2 (Z.eqb_neq ch 0x1B)) by lia. cbn [andb].
  assert (parseCount ch m h = (false, h)) as ->.
  { unfold parseCount. destruct K as [[-> K]|[-> _]]; [|done]. cbn [any]. change (any 0) with false. cbn [negb].
    destruct ((ch =? 0x30) && (_count h =? 0)) eqn:Z0; [done|].
    assert ((0x30 <=? ch) && (ch <=? 0x39) = false) as ->; [|done].
    apply andb_false_iff. rewrite !Z.leb_gt. apply andb_false_iff in Z0. rewrite !Z.eqb_neq in Z0. lia. }
  rewrite (proj2 (Z.eqb_neq ch 0x08)), (proj2 (Z.eqb_neq ch 0x0A)), (proj2 (Z.eqb_neq ch 0x0D)), encode_ascii by lia.
  cbn [orb]. destruct K as [[-> K]|[-> K]].
  - replace (if 0x20 <? ch then without 0 Modifier.Shift else 0) with 0 by (by destruct (0x20 <? ch)).
    change (0 =? 0) with true. cbn iota.
    change (appendModifierToPendingInput 0 h) with (with_pending (_pendingInput h) h). cbn [_pendingInput with_pending].
    rewrite decide_False by (by destruct (_pendingInput h)). done.
  - rewrite (proj2 (Z.ltb_lt _ _)) by lia.
    change (appendModifierToPendingInput (without Modifier.Control Modifier.Shift) h)
      with (with_pending (_pendingInput h ++ bytes "C-") h). cbn [_pendingInput with_pending].
    change (Modifier.Control =? 0) with false. cbn iota. rewrite <- app_assoc.
    rewrite decide_False by (by destruct (_pendingInput h)). done.
Qed.

Lemma press_special ch text h :
  _searchEditMode h = Disabled -> _viMode h <> Insert_ ->
  (ch = 0x08 /\ text = bytes "<BS>") \/ (ch = 0x0A /\ text = bytes "<NL>") ->
  (sendCharPressEvent ch 0 KeyboardEventType.Press h).2 = handlePendingInput (with_pending (_pendingInput h ++ text) h).
Proof.
  intros E M K. unfold sendCharPressEvent. rewrite E, decide_False, bool_decide_true by done. cbn [negb].
  rewrite decide_False by done. destruct K as [[-> ->]|[-> ->]]; cbn -[bytes handlePendingInput].
  all: change (appendModifierToPendingInput 0 h) with (with_pending (_pendingInput h) h); cbn [_pendingInput with_pending];
    rewrite decide_False by (by destruct (_pendingInput h)); done.
Qed.

Lemma press_plain h st :
  _searchEditMode h = Disabled -> _viMode h <> Insert_ ->
  plain_stroke (negb (_count h =? 0)) (isVisualMode h) st = true ->
  press h st = handlePendingInput (with_pending (_pendingInput h ++ stroke_text st) h).
Proof.
  intros E M P. destruct st as [ch m|k].
  - cbn [plain_stroke] in P. destruct (Z.eqb_spec m 0) as [->|Hm].
    + apply orb_true_iff in P. rewrite !andb_true_iff, negb_true_iff, !Z.ltb_lt, Z.leb_le, Z.leb_gt in P.
      destruct (Z.eqb_spec (_count h) 0); cbn [negb] in P; apply press_char; (done || lia).
    + rewrite !andb_true_iff, !Z.ltb_lt, Z.eqb_eq in P. destruct P as [[-> P] P']. apply press_char; (done || lia).
  - destruct (decide (k = Key.Backspace \/ k = Key.Enter)) as [K|K].
    + cbn [press stroke_text]. unfold sendKeyPressEvent. rewrite E, decide_False, bool_decide_true by done. cbn [negb].
      rewrite decide_False by done.
      destruct K as [-> | ->]; rewrite (bool_decide_false (_ = Key.Escape)), andb_false_r by done; cbn [andb charMappings];
        apply press_special; auto.
    + assert (Hk : is_Some (keyMappings k) /\ charMappings k = None /\ isVisualMode h && bool_decide (k = Key.Escape) = false /\
                   stroke_text (SKey k) = default [] (keyMappings k)).
      { cbn [plain_stroke] in P. destruct k; try (by destruct K; auto); cbn in P |- *; try done; (split_and!; [by eexists|done| |done]).
        all: try (by rewrite bool_decide_false, andb_false_r). by apply negb_true_iff in P. }
      destruct Hk as ((text & Ek) & Ec & Ev & Et). cbn [press]. unfold sendKeyPressEvent.
      rewrite E, decide_False, bool_decide_true by done. cbn [negb]. rewrite decide_False, Ev, Ec, Ek by done.
      cbn [andb]. change (any 0) with false. cbn iota. rewrite Et, Ek. cbn [default _pendingInput with_pending].
      rewrite decide_False; [done|]. destruct k; cbn in Ek; try done; injection Ek as <-; by destruct (_pendingInput h).
Qed.

(** Strokes that find a command run it, once, with the count that was typed. *)
Lemma strokes_run sts h command :
  _searchEditMode h = Disabled -> _viMode h <> Insert_ ->
  Forall (fun st => plain_stroke (negb (_count h =? 0)) (isVisualMode h) st = true) sts ->
  found (if isVisualMode h then visualMode else normalMode) (_pendingInput h) sts = Some command ->
  foldl press h sts =
    let typed := _pendingInput h ++ mjoin (stroke_text <$> sts) in
    clearPendingInput (run_command command (with_lastChar (last_codepoint typed) (with_pending typed h))).
Proof.
  intros E M P F. revert h E M P F. induction sts as [|st sts IH]; intros h E M P F; [done|].
  apply Forall_cons in P as [P Ps]. cbn [foldl found] in *. rewrite press_plain by done.
  set (h' := with_pending (_pendingInput h ++ stroke_text st) h).
  change (Trie.search (_pendingInput h ++ stroke_text st) true (if isVisualMode h then visualMode else normalMode))
    with (Trie.search (_pendingInput h') true (if isVisualMode h' then visualMode else normalMode)) in F.
  unfold handlePendingInput. destruct (Trie.search _ _ _) as [c| |] eqn:S in F |- *; [|destruct sts as [|st2 sts]|]; try done.
  - destruct sts; [|done]. injection F as ->. cbn [foldl fmap list_fmap mjoin list_join]. rewrite app_nil_r. done.
  - rewrite (IH h') by done. subst h'. cbn [_pendingInput with_pending]. change (stroke_text <$> st :: st2 :: sts) with (stroke_text st :: (stroke_text <$> st2 :: sts)).
    cbn [mjoin list_join]. by rewrite <- app_assoc.
Qed.

(** *** Counts *)

Definition digit_strokes (ds : list Z) : list stroke := (fun d => SChar d 0) <$> ds.
(** A count as it is typed; the empty text for none. *)
Definition count_text (ds : list Z) : Prop := digits ds /\ head ds <> Some 0x30 /\ decimal ds < 2 ^ 32.

Lemma press_digit d h :
  _searchEditMode h = Disabled -> _viMode h <> Insert_ -> 0x30 <= d <= 0x39 -> d <> 0x30 \/ _count h <> 0 ->
  press h (SChar d 0) = with_count (u32 (_count h * 10 + (d - 0x30))) h.
Proof.
  intros E M D N. cbn [press]. unfold sendCharPressEvent. rewrite E, decide_False, bool_decide_true by done.
  cbn [negb]. rewrite decide_False by done. rewrite (proj2 (Z.eqb_neq d 0x1B)) by lia. cbn [andb].
  unfold parseCount. change (any 0) with false. cbn iota.
  destruct ((d =? 0x30) && (_count h =? 0)) eqn:Z0.
  - apply andb_true_iff in Z0. rewrite !Z.eqb_eq in Z0. lia.
  - rewrite !(proj2 (Z.leb_le _ _)) by lia. done.
Qed.

Lemma digits_counted ds h :
  _searchEditMode h = Disabled -> _viMode h <> Insert_ -> digits ds -> 0 <= _count h ->
  _count h <> 0 \/ head ds <> Some 0x30 ->
  foldl (fun acc d => acc * 10 + (d - 0x30)) (_count h) ds < 2 ^ 32 ->
  foldl press h (digit_strokes ds) = with_count (foldl (fun acc d => acc * 10 + (d - 0x30)) (_count h) ds) h.
Proof.
  intros E M D. revert h E M. induction D as [|d ds Hd D IH]; intros h E M P N L; [by destruct h|].
  cbn [digit_strokes fmap list_fmap foldl] in *. fold (digit_strokes ds).
  pose proof (decimal_step_mono ds (_count h * 10 + (d - 0x30)) D ltac:(lia)) as Mono.
  assert (Hn : d <> 0x30 \/ _count h <> 0) by (destruct N as [N|N]; [by right|left; intros ->; by apply N]).
  rewrite press_digit by (done || lia). unfold u32. rewrite Z.mod_small by lia.
  rewrite IH; [by destruct h|done|done|cbn; lia|left; cbn; lia|exact L].
Qed.

Definition idle h : Prop :=
  _searchEditMode h = Disabled /\ _viMode h <> Insert_ /\ _pendingInput h = [] /\ _count h = 0.

(** *** Every registered command *)

(** What may be typed for the dot of a command; one character stands for all
    where the command has no dot. *)
Definition wildcard_chars : list Z := seqZ 0x20 16 ++ seqZ 0x3A 69.
Definition dot_chars (text : list Z) : list Z := if bool_decide (0x2E ∈ text) then wildcard_chars else [0x20].

Definition command_found (counting visual : bool) (c : Z) (b : list Z * Command) : bool :=
  let sts := strokes_of c b.1 in
  bool_decide (b.1 = bytes "<ESC>") || (counting && bool_decide (0x30 ∈ b.1)) ||
  (forallb (plain_stroke counting visual) sts &&
   bool_decide (found (if visual then visualMode else normalMode) [] sts = Some b.2)).

Definition commands (visual : bool) : list (list Z * Command) := if visual then visual_commands else normal_commands.

Lemma commands_found :
  forallb (fun counting => forallb (fun visual => forallb (fun b =>
    forallb (fun c => command_found counting visual c b) (dot_chars b.1)) (commands visual)) [true; false]) [true; false] = true.
Proof. vm_compute. reflexivity. Qed.

(** C26: In normal or visual mode, with nothing pending and no search being edited, every
    registered command but the <ESC> of the visual mode can be typed: the strokes of its text
    run exactly its handler, once, with the count typed before it and the last character typed,
    and leave nothing pending; no command hides another one and none is reached too early. The
    count may be left out, has no leading zero and fits into 32 bits, and does not come before
    the command 0. The dot of a command stands for any printable US-ASCII character that is not
    a digit: digits are taken for a count (find_digit), and characters of more than one byte
    never match (find_umlaut). *)
Theorem command_typed h ds c text command :
  idle h -> (text, command) ∈ commands (isVisualMode h) -> text <> bytes "<ESC>" ->
  count_text ds -> ds = [] \/ (0x30 ∉ text) -> c ∈ dot_chars text ->
  foldl press h (digit_strokes ds ++ strokes_of c text) =
    let typed := mjoin (stroke_text <$> strokes_of c text) in
    clearPendingInput (run_command command
      (h |> with_count (decimal ds) |> with_pending typed |> with_lastChar (last_codepoint typed))).
Proof.
  intros (E & M & P & C) Hin Hesc (D & Hh & L) Hz Hc. rewrite foldl_app.
  rewrite digits_counted; [|done|done|done|lia|by right|rewrite C; exact L].
  rewrite C. fold (decimal ds). set (h' := with_count (decimal ds) h).
  pose proof commands_found as F. rewrite forallb_forall in F.
  specialize (F (negb (_count h' =? 0)) ltac:(destruct (_count h' =? 0); cbn; auto)). rewrite forallb_forall in F.
  specialize (F (isVisualMode h) ltac:(destruct (isVisualMode h); cbn; auto)). rewrite forallb_forall in F.
  specialize (F (text, command) (proj1 (list_elem_of_In _ _) Hin)). cbn [fst] in F. rewrite forallb_forall in F.
  specialize (F c (proj1 (list_elem_of_In _ _) Hc)). unfold command_found in F. cbn [fst snd] in F.
  rewrite bool_decide_false in F by done. cbn [orb] in F.
  assert (negb (_count h' =? 0) && bool_decide (0x30 ∈ text) = false) as Hzero.
  { destruct Hz as [->|Hz]; [done|]. by rewrite (bool_decide_false (_ ∈ _)), andb_false_r. }
  rewrite Hzero in F. cbn [orb] in F. apply andb_true_iff in F as [F1 F2]. apply bool_decide_eq_true in F2.
  rewrite strokes_run with (command := command); [|done|done| |by rewrite (P : _pendingInput h' = [])].
  - rewrite (P : _pendingInput h' = []). done.
  - apply Forall_forall. intros st Hst. rewrite forallb_forall in F1. by apply F1, list_elem_of_In.
Qed.

End Typing.

(** ** What may be pending *)

#[local] Opaque normalMode visualMode Trie.search.

Section Pending.
Context `{Utf8Encoder} `{Utf8Decoder}.
Implicit Types (h : ViInputHandler).

Inductive vi_event :=
  | CharPress (ch : Z) (modifiers : Modifiers) (eventType : KeyboardEventType.t)
  | KeyPress (key : Key.t) (modifiers : Modifiers) (eventType : KeyboardEventType.t)
  | StartSearchExternally | SetMode (m : ViMode) | ToggleMode (m : ViMode) | ClearSearch
  | SetSearchModeSwitch (enabled : bool).

Definition vi_step h (e : vi_event) : ViInputHandler :=
  match e with
  | CharPress ch m t => (sendCharPressEvent ch m t h).2
  | KeyPress k m t => (sendKeyPressEvent k m t h).2
  | StartSearchExternally => startSearchExternally h
  | SetMode m => setMode m h
  | ToggleMode m => toggleMode m h
  | ClearSearch => clearSearch h
  | SetSearchModeSwitch b => setSearchModeSwitch b h
  end.

(** The pending input is the beginning of a command of the mode; in insert
    mode there is none, and no count either. *)
Definition mode_map (m : ViMode) : trie_map Command :=
  match m with Visual | VisualLine | VisualBlock => visualMode | Normal_ | Insert_ => normalMode end.
Definition vi_ok h : Prop :=
  (_pendingInput h = [] \/ Trie.search (_pendingInput h) true (mode_map (_viMode h)) = partial_match) /\
  (_viMode h = Insert_ -> _pendingInput h = [] /\ _count h = 0) /\ 0 <= _count h < 2 ^ 32.

(** Nothing of this changes where mode, pending input and count do not. *)
Lemma vi_ok_same h h' : _viMode h' = _viMode h -> _pendingInput h' = _pendingInput h -> _count h' = _count h ->
  vi_ok h -> vi_ok h'.
Proof. unfold vi_ok. by intros -> -> ->. Qed.

Lemma vi_ok_clear h : vi_ok (clearPendingInput h).
Proof. unfold vi_ok. cbn. split_and!; auto; lia. Qed.

Lemma vi_ok_setMode m h : vi_ok h -> vi_ok (setMode m h).
Proof.
  intros V. unfold setMode. case_decide; [done|]. cbn [_viMode call clearPendingInput with_pending with_count with_mode].
  case_decide; unfold vi_ok; cbn; split_and!; auto; lia.
Qed.

Lemma vi_ok_handle h : _viMode h <> Insert_ -> 0 <= _count h < 2 ^ 32 -> vi_ok (handlePendingInput h).
Proof.
  intros M C. unfold handlePendingInput.
  assert (Em : (if isVisualMode h then visualMode else normalMode) = mode_map (_viMode h))
    by (unfold isVisualMode; by destruct (_viMode h)).
  rewrite Em. destruct (Trie.search _ _ _) as [c| |] eqn:S; [apply vi_ok_clear| |apply vi_ok_clear].
  unfold vi_ok. split_and!; [by right|done|lia|lia].
Qed.

Lemma vi_ok_search ch m h : vi_ok h -> vi_ok (handleSearchEditor ch m h).2.
Proof.
  intros V. unfold handleSearchEditor. cbn [snd].
  repeat case_match; try (by apply (vi_ok_same h)); try done.
  all: match goal with |- vi_ok (update_term (call _ (with_edit _ (setMode ?m ?g)))) =>
         apply (vi_ok_same (setMode m g)); [done..|]; apply vi_ok_setMode; by apply (vi_ok_same h) end.
Qed.

Lemma vi_ok_char ch m t h : vi_ok h -> vi_ok (sendCharPressEvent ch m t h).2.
Proof.
  intros V. unfold sendCharPressEvent. destruct (decide (t = _)); [done|].
  destruct (negb (bool_decide _)); [by apply vi_ok_search|].
  destruct (decide (_viMode h = Insert_)) as [M|M]; [done|].
  destruct ((ch =? 0x1B) && _); [apply vi_ok_setMode, vi_ok_clear|].
  destruct (parseCount ch m h) as [counted h'] eqn:C.
  assert (Hc : _viMode h' = _viMode h /\ _pendingInput h' = _pendingInput h /\ 0 <= _count h' < 2 ^ 32).
  { destruct V as (_ & _ & V). unfold parseCount in C. repeat case_match; injection C as <- <-; cbn; split_and!; try done; try lia.
    all: apply Z.mod_pos_bound; lia. }
  destruct Hc as (Em & Ep & Hc). destruct V as (V1 & V2 & _).
  destruct counted; [unfold vi_ok; cbn [snd]; rewrite Em, Ep; split_and!; [exact V1|intros X; by destruct (M X)|lia|lia]|].
  case_decide as N; cbn [snd].
  - unfold vi_ok. rewrite N. cbn [_viMode _count with_pending appendModifierToPendingInput]. rewrite Em.
    split_and!; [by left|intros X; by destruct (M X)|lia|lia].
  - apply vi_ok_handle; cbn [_viMode _count with_pending appendModifierToPendingInput]; [by rewrite Em|lia].
Qed.

Lemma vi_ok_key k m t h : vi_ok h -> vi_ok (sendKeyPressEvent k m t h).2.
Proof.
  intros V. unfold sendKeyPressEvent. destruct (decide (t = _)); [done|].
  destruct (negb (bool_decide _)); [by destruct k; try apply vi_ok_search|].
  destruct (decide (_viMode h = Insert_)) as [M|M]; [done|].
  destruct (isVisualMode h && _ && _); [apply vi_ok_setMode, vi_ok_clear|].
  destruct (charMappings k) as [ch|]; [by apply vi_ok_char|]. destruct (any m); [done|].
  set (h' := match keyMappings k with Some _ => _ | None => _ end).
  assert (Em : _viMode h' = _viMode h /\ _count h' = _count h) by (unfold h'; by destruct (keyMappings k)).
  destruct Em as [Em Ec]. pose proof V as (_ & _ & Vc). case_decide as N; cbn [snd].
  - unfold vi_ok. rewrite N, Em, Ec. split_and!; [by left|intros X; by destruct (M X)|lia|lia].
  - apply vi_ok_handle; [by rewrite Em|lia].
Qed.

Lemma vi_ok_step h e : vi_ok h -> vi_ok (vi_step h e).
Proof.
  intros V. destruct e; cbn [vi_step]; [by apply vi_ok_char|by apply vi_ok_key| |by apply vi_ok_setMode|
    by apply vi_ok_setMode|by apply (vi_ok_same h)|by apply (vi_ok_same h)].
  unfold startSearchExternally. case_decide; [apply vi_ok_setMode|]; by apply (vi_ok_same h).
Qed.

(** Whatever keys are pressed, searches started and modes set, the pending
    input is always the beginning of a command of the current mode - no input
    gets stuck -, insert mode has nothing pending and no count, and the count
    stays a 32-bit number. *)
Lemma pending_invariant mode es : vi_ok (foldl vi_step (vi_init mode) es).
Proof.
  assert (V : vi_ok (vi_init mode)) by (unfold vi_ok; cbn; split_and!; auto; lia).
  revert V. generalize (vi_init mode). induction es as [|e es IH]; intros h V; [exact V|]. cbn [foldl].
  by apply IH, vi_ok_step.
Qed.

End Pending.

(** ** Searching *)

Section Searching.
Context `{Utf8Encoder} `{Utf8Decoder}.
Implicit Types (h : ViInputHandler).

Definition type_text h (text : list Z) : ViInputHandler :=
  foldl (fun h ch => (sendCharPressEvent ch 0 KeyboardEventType.Press h).2) h text.

Definition search_text (text : list Z) : Prop := Forall (fun ch => 0x20 <= ch < 0x110000 /\ ch <> 0x7F) text.

Lemma plain_code ch k : 0 <= ch < 0x110000 -> 0 <= k < 0x110000 -> ch <> k -> (input_code ch 0 =? key_code k) = false.
Proof.
  intros Hc Hk N. apply Z.eqb_neq. unfold key_code, input_code, u32. change (Z.land 0 31) with 0. rewrite !Z.lor_0_r.
  rewrite !Z.shiftl_mul_pow2 by lia. rewrite !Z.mod_small by lia. lia.
Qed.

Lemma control_code ch k : (input_code ch 0 =? input_code k Modifier.Control) = false.
Proof.
  apply Z.eqb_neq. unfold input_code. intros E. apply (f_equal (fun z => Z.testbit z 2)) in E.
  rewrite !Z.lor_spec in E. change (Z.testbit (Z.land 0 31) 2) with false in E.
  change (Z.testbit (Z.land Modifier.Control 31) 2) with true in E. rewrite orb_true_r, orb_false_r in E.
  unfold u32 in E. rewrite Z.mod_pow2_bits_low, Z.shiftl_spec_low in E by lia. discriminate.
Qed.

Lemma type_char ch h : _searchEditMode h <> Disabled -> 0x20 <= ch < 0x110000 /\ ch <> 0x7F ->
  (sendCharPressEvent ch 0 KeyboardEventType.Press h).2 = update_term (with_term (_searchTerm h ++ [ch]) h).
Proof.
  intros E [C N]. unfold sendCharPressEvent. rewrite decide_False, bool_decide_false by done. cbn [negb].
  unfold handleSearchEditor. cbn [snd]. rewrite !plain_code, !control_code by lia. cbn [orb].
  rewrite (proj2 (Z.leb_le _ _)) by lia. done.
Qed.

(** Text typed into the search editor ends up in the search term, and nowhere
    else. *)
Lemma type_text_spec text h : _searchEditMode h <> Disabled -> search_text text ->
  let h' := type_text h text in
  _searchTerm h' = _searchTerm h ++ text /\ _searchEditMode h' = _searchEditMode h /\ _viMode h' = _viMode h /\
  _pendingInput h' = _pendingInput h /\ _count h' = _count h /\ fromSearchIntoInsertMode h' = fromSearchIntoInsertMode h.
Proof.
  intros E T. revert h E. induction T as [|ch text C T IH]; intros h E; cbn zeta.
  - cbn. rewrite app_nil_r. done.
  - unfold type_text. cbn [foldl]. rewrite type_char by done. fold (type_text (update_term (with_term (_searchTerm h ++ [ch]) h)) text).
    destruct (IH (update_term (with_term (_searchTerm h ++ [ch]) h)) E) as (-> & -> & -> & -> & -> & ->). cbn.
    rewrite <- app_assoc. done.
Qed.

(** A search started from insert mode ends there again, with Escape and, by
    default, with Enter. *)
Lemma external_search_returns h text key :
  _viMode h = Insert_ -> search_text text -> fromSearchIntoInsertMode h = true ->
  key = Key.Escape \/ key = Key.Enter ->
  let h' := (sendKeyPressEvent key 0 KeyboardEventType.Press (type_text (startSearchExternally h) text)).2 in
  _viMode h' = Insert_ /\ _searchEditMode h' = Disabled /\ _searchTerm h' = [].
Proof.
  intros M T S K. cbn zeta.
  assert (E0 : startSearchExternally h = setMode Normal_ (with_edit ExternallyEnabled (h |> with_term [] |> call SearchStart))).
  { unfold startSearchExternally. by rewrite decide_True. }
  set (s := startSearchExternally h) in *.
  assert (Es : _searchEditMode s = ExternallyEnabled /\ _viMode s = Normal_ /\ fromSearchIntoInsertMode s = true).
  { rewrite E0. unfold setMode. cbn [_viMode with_edit call with_term]. rewrite M, decide_False by done. by cbn. }
  destruct Es as (Ee & Em & Ef). destruct (type_text_spec text s) as (_ & Te & Tm & _ & _ & Tf); [congruence|done|].
  set (h' := type_text s text) in *. rewrite Ee in Te. rewrite Em in Tm. rewrite Ef in Tf.
  unfold sendKeyPressEvent. rewrite decide_False, Te, bool_decide_false by done. cbn [negb].
  destruct K as [-> | ->]; unfold handleSearchEditor; cbn [snd].
  - change (input_code 0x1B 0 =? key_code 0x1B) with true. cbn [_searchEditMode with_term]. rewrite decide_True by done.
    unfold setMode. cbn [_viMode with_term]. rewrite Tm, decide_False by done. by cbn.
  - change (input_code 0x0D 0 =? key_code 0x1B) with false. change (input_code 0x0D 0 =? key_code 0x0D) with true.
    rewrite Tf, Te, bool_decide_true by done. cbn [andb].
    unfold setMode. rewrite Tm, decide_False by done. by cbn.
Qed.

End Searching.

(** ** Witnesses and examples *)

Module Examples.

#[local] Instance utf8_two_bytes : Utf8Encoder := fun c => if c <? 0x80 then [c] else [0xC0 + c / 64; 0x80 + c mod 64].
#[local] Instance last_byte : Utf8Decoder := fun p => default 0 (last p).
#[local] Instance ascii_text : AsciiText.
Proof.
  split.
  - intros ch C. unfold encode_utf8, utf8_two_bytes. rewrite (proj2 (Z.ltb_lt _ _)) by lia. reflexivity.
  - intros p ch C. unfold last_codepoint, last_byte. rewrite last_snoc. reflexivity.
Defined.

(** 12fx: the twelfth x to the right. *)
Lemma command_typed_witness :
  foldl press (vi_init Normal_) (digit_strokes (bytes "12") ++ strokes_of 0x78 (bytes "f.")) =
    mk_vi Normal_ Disabled [] [] 0 0x78 true [MoveCursor ToCharRight 12 0x78].
Proof.
  rewrite (command_typed (vi_init Normal_) (bytes "12") 0x78 (bytes "f.") (CMoveChar ToCharRight)).
  - vm_compute. reflexivity.
  - split_and!; done.
  - apply list_elem_of_In. vm_compute. auto 60.
  - discriminate.
  - split_and!; [|discriminate|vm_compute; reflexivity]. change (bytes "12") with [0x31; 0x32].
    unfold digits. repeat apply Forall_cons_2; try apply Forall_nil_2; lia.
  - right. apply (bool_decide_unpack _). vm_compute. exact I.
  - apply (bool_decide_unpack _). vm_compute. exact I.
Defined.

(** Registration never fails. *)
Example commands_registered :
  (match register normal_commands with Some m => _size m | None => 0 end,
   match register visual_commands with Some m => _size m | None => 0 end) = (239, 95).
Proof. vm_compute. reflexivity. Qed.

(** A digit cannot be searched for: it is taken for a count. *)
Example find_digit :
  foldl press (vi_init Normal_) [SChar 0x66 0; SChar 0x33 0] = mk_vi Normal_ Disabled [] (bytes "f") 3 0 true [].
Proof. vm_compute. reflexivity. Qed.

(** Nor can a character of more than one byte: the dot is one byte. *)
Example find_umlaut :
  foldl press (vi_init Normal_) [SChar 0x66 0; SChar 0xE4 0] = vi_init Normal_.
Proof. vm_compute. reflexivity. Qed.

(** Enter in a search that began in insert mode drops the search term. *)
Example search_term_dropped :
  let h := type_text (startSearchExternally (vi_init Insert_)) (bytes "ab") in
  _searchTerm h = bytes "ab" /\
  last (_executor (sendKeyPressEvent Key.Enter 0 KeyboardEventType.Press h).2) = Some (UpdateSearchTerm []).
Proof. vm_compute. auto. Qed.

End Examples.
