(* ===== verification/ViCommands.v ===== *)
(** * The commands of the normal and visual modes (src/vtbackend/ViCommands.h,
      ViCommands.cpp)

    What ViInput.v records as calls of the executor: motions over the cells of
    the screen, text objects, jumps, and the cursor that moves the viewport and
    the selection.  An access behind a line or a vector is [None]; loops have
    fuel, and the theorems say that it is enough.  The search of the terminal
    is the class [ViSearch]; a cell's text is its code points. *)
From Stdlib Require Import String.
From stdpp Require Import list sets.
From S2P Require Import Prelude Parser Color Cell Ring Line Grid Reflow VTWriter Selection Viewport ViInput.

(** [while (cond) body] *)
Fixpoint while {S} (fuel : nat) (cond : S -> option bool) (body : S -> option S) (s : S) : option S :=
  match fuel with
  | O => None
  | S fuel => c ← cond s; if (c : bool) then s ← body s; while fuel cond body s else Some s
  end.

(** [static_cast<int>] of an unsigned number. *)
Definition int_of (n : Z) : Z := let m := n mod 2 ^ 32 in if m <? 2 ^ 31 then m else m - 2 ^ 32.

(** The general categories of libunicode the word classes use. *)
Class GeneralCategory := {
  space_separator : Z -> bool;
  initial_punctuation : Z -> bool;
  final_punctuation : Z -> bool;
  open_punctuation : Z -> bool;
  close_punctuation : Z -> bool;
  dash_punctuation : Z -> bool
}.
(** [Terminal::search] and [searchReverse] for the pattern in force. *)
Class ViSearch := {
  search_from : CellLocation -> option CellLocation;
  searchReverse_from : CellLocation -> option CellLocation
}.

(** ** Words, brackets and character motions *)

Inductive WordSkipClass := WordClass | KeywordClass | WhitespaceClass | OtherClass.
#[export] Instance WordSkipClass_eq_dec : EqDecision WordSkipClass.
Proof. solve_decision. Defined.
Inductive JumpOver := JumpOverYes | JumpOverNo.

Definition isWord (codepoint : Z) : bool :=
  ((0x61 <=? codepoint) && (codepoint <=? 0x7A)) || ((0x41 <=? codepoint) && (codepoint <=? 0x5A))
  || ((0x30 <=? codepoint) && (codepoint <=? 0x39)) || (codepoint =? 0x5F).
Definition isKeyword `{GeneralCategory} (codepoint : Z) : bool :=
  ((255 <? codepoint)
   && negb (space_separator codepoint || initial_punctuation codepoint || final_punctuation codepoint
            || open_punctuation codepoint || close_punctuation codepoint || dash_punctuation codepoint))
  || ((192 <=? codepoint) && (codepoint <=? 255)).
Definition wordSkipClass `{GeneralCategory} (codepoint : Z) : WordSkipClass :=
  if isWord codepoint then WordClass
  else if isKeyword codepoint then KeywordClass
  else if (codepoint =? 0x20) || (codepoint =? 0x09) || (codepoint =? 0) then WhitespaceClass
  else OtherClass.
Definition textSkipClass `{GeneralCategory} (text : list Z) : WordSkipClass :=
  match text with
  | [] => WhitespaceClass
  | [c] => wordSkipClass c
  | _ => OtherClass
  end.
(** The decision and the new initial class. *)
Definition shouldSkipForUntilWordBegin (current initial : WordSkipClass) : bool * WordSkipClass :=
  let into_space := bool_decide (current = WhitespaceClass) && negb (bool_decide (initial = WhitespaceClass)) in
  (bool_decide (current = initial) || into_space, if into_space then WhitespaceClass else initial).

Definition bracket_pairs : list (Z * Z) := [(0x28, 0x29); (0x5B, 0x5D); (0x7B, 0x7D); (0x3C, 0x3E)].
(** The partner, and whether the character opens. *)
Definition matchingPairOfChar (input : Z) : option (Z * bool) :=
  match List.find (fun p => (input =? p.1) || (input =? p.2)) bracket_pairs with
  | Some (l, r) => Some (if input =? l then (r, true) else (l, false))
  | None => None
  end.

Definition isValidCharMove (motion : option ViMotion) : bool :=
  match motion with
  | Some (TillBeforeCharRight | TillAfterCharLeft | ToCharRight | ToCharLeft) => true
  | _ => false
  end.
Definition invertCharMove (motion : ViMotion) : ViMotion :=
  match motion with
  | TillBeforeCharRight => TillAfterCharLeft
  | TillAfterCharLeft => TillBeforeCharRight
  | ToCharRight => ToCharLeft
  | ToCharLeft => ToCharRight
  | _ => motion
  end.

(** ** The terminal, as the commands see it *)

(** Both main grids, which of them is shown, the page of the device and the
    word delimiters. *)
Record ViTerminal (Cell : Type) := mk_viterminal {
  vt_primary : Grid Cell;
  vt_alternate : Grid Cell;
  vt_isPrimary : bool;
  vt_page : PageSize;
  vt_delimiters : list Z
}.
Arguments mk_viterminal {Cell}.
Arguments vt_primary {Cell}.
Arguments vt_alternate {Cell}.
Arguments vt_isPrimary {Cell}.
Arguments vt_page {Cell}.
Arguments vt_delimiters {Cell}.

(** The members of [ViCommands] the motions use, and the viewport. *)
Record ViCommands := mk_vicommands {
  cursorPosition : CellLocation;
  _lastCharSought : Z;
  _lastCharMotion : option ViMotion;
  _jumpHistory : Jump.JumpHistory;
  _viewport : Viewport
}.
Definition with_cursorPosition (p : CellLocation) (v : ViCommands) : ViCommands :=
  mk_vicommands p (_lastCharSought v) (_lastCharMotion v) (_jumpHistory v) (_viewport v).
Definition with_charMotion (m : ViMotion) (c : Z) (v : ViCommands) : ViCommands :=
  mk_vicommands (cursorPosition v) c (Some m) (_jumpHistory v) (_viewport v).
Definition with_jumps (j : Jump.JumpHistory) (v : ViCommands) : ViCommands :=
  mk_vicommands (cursorPosition v) (_lastCharSought v) (_lastCharMotion v) j (_viewport v).
Definition with_viewport (w : Viewport) (v : ViCommands) : ViCommands :=
  mk_vicommands (cursorPosition v) (_lastCharSought v) (_lastCharMotion v) (_jumpHistory v) w.

Section ViCommands.
Context `{LibUnicode, UnicodeWidth, GraphemeSegmenter} `{CellLaws Cell} `{GeneralCategory, Utf8Encoder} {VS : ViSearch}.
Abbreviation Line := (Line Cell).
Abbreviation Grid := (Grid Cell).
Abbreviation ViTerminal := (ViTerminal Cell).
Implicit Types (t : ViTerminal) (p : CellLocation) (v : ViCommands).

(** *** What the screen answers *)

Definition currentGrid t : Grid := if vt_isPrimary t then vt_primary t else vt_alternate t.
Definition vt_lines t : Z := lines (vt_page t).
Definition vt_columns t : Z := columns (vt_page t).
Definition vt_history t : Z := historyLineCount (currentGrid t).
Definition vi_viewed t : ViewedTerminal := viewed (negb (vt_isPrimary t)) (currentGrid t).

(** [inflatedBuffer().at(column)] *)
Definition vt_cell t p : option Cell :=
  l ← lineAt (currentGrid t) (line p); cells ← inflatedBuffer l;
  if 0 <=? column p then cells !! Z.to_nat (column p) else None.
Definition vt_isCellEmpty t p : option bool := l ← lineAt (currentGrid t) (line p); cellEmptyAt l (column p).
Definition vt_compareCellTextAt t p (codepoint : Z) : option bool := c ← vt_cell t p; Some (compareText c codepoint).
Definition vt_cellTextAt t p : option (list Z) := c ← vt_cell t p; Some (cell_codepoints c).
Definition vt_cellWidthAt t p : option Z := l ← lineAt (currentGrid t) (line p); cellWidthAt l (column p).
Definition vt_isLineEmpty t (y : Z) : option bool := l ← lineAt (currentGrid t) y; Some (line_empty l).
Definition vt_isLineMarked t (y : Z) : option bool := l ← lineAt (currentGrid t) y; Some (marked l).
Definition vt_class t p : option WordSkipClass := text ← vt_cellTextAt t p; Some (textSkipClass text).

(** [Grid::cellEmptyOrContainsOneOf] and [Terminal::wordDelimited]. *)
Definition cellEmptyOrContainsOneOf (g : Grid) p (delimiters : list Z) : option bool :=
  c ← grid_at g (line p) (Z.min (column p) (columns (_pageSize g) - 1));
  Some (cell_empty c || bool_decide (default 0 (head (cell_codepoints c)) ∈ delimiters)).
Definition vt_wordDelimited t p : option bool :=
  cellEmptyOrContainsOneOf (currentGrid t) (mkLoc (line p) (Z.min (column p) (vt_columns t - 1))) (vt_delimiters t).

(** [Grid::rightMostNonEmptyAt]: the loop over the cells of an inflated line. *)
Fixpoint rightmost_used (cells : list Cell) (columnOffset : nat) : option nat :=
  match columnOffset with
  | O => Some O
  | S n => c ← cells !! columnOffset; if cell_empty c then rightmost_used cells n else Some columnOffset
  end.
Definition rightMostNonEmptyAt (g : Grid) (y : Z) : option CellLocation :=
  l ← lineAt g y;
  match _buffer l with
  | Trivial b => Some (mkLoc y (if line_empty l then 0 else usedColumns b - 1))
  | Inflated cells => c ← rightmost_used cells (Z.to_nat (columns (_pageSize g) - 1)); Some (mkLoc y (Z.of_nat c))
  end.
Definition getRightMostNonEmptyCellLocation t (y : Z) : option CellLocation := rightMostNonEmptyAt (currentGrid t) y.

(** *** Neighbours *)

Definition prev t (location : CellLocation) : option CellLocation :=
  if 0 <? column location then Some (mkLoc (line location) (column location - 1))
  else
    let topLineOffset := if vt_isPrimary t then - historyLineCount (vt_primary t) else 0 in
    if topLineOffset <? line location then
      location ← getRightMostNonEmptyCellLocation t (line location - 1);
      Some (if column location + 1 <? vt_columns t then mkLoc (line location) (column location + 1) else location)
    else Some location.

Definition next t (location : CellLocation) : option CellLocation :=
  let rightMargin := vt_columns t - 1 in
  if column location <? rightMargin then
    width ← vt_cellWidthAt t location;
    Some (mkLoc (line location) (column location + Z.max 1 width))
  else if line location <? vt_lines t - 1 then Some (mkLoc (line location + 1) 0)
  else Some location.

(** Enough for every walk over the cells. *)
Definition cells_fuel t : nat := S (Z.to_nat ((vt_history t + vt_lines t) * vt_columns t + vt_columns t)).
Definition lines_fuel t : nat := S (Z.to_nat (vt_history t + vt_lines t)).
Definition columns_fuel t : nat := S (Z.to_nat (vt_columns t)).

Definition snapToCell t (location : CellLocation) : option CellLocation :=
  while (columns_fuel t)
    (fun p => if 0 <? column p then vt_compareCellTextAt t p 0 else Some false)
    (fun p => Some (mkLoc (line p) (column p - 1))) location.
Definition snapToCellRight t (location : CellLocation) : option CellLocation :=
  while (columns_fuel t)
    (fun p => if column p <? vt_columns t - 1 then vt_compareCellTextAt t p 0 else Some false)
    (fun p => Some (mkLoc (line p) (column p + 1))) location.

(** *** Matching brackets *)

(** The walk of [findMatchingPairLeft] and [findMatchingPairRight]: [up] counts
    up and [down] counts down, until the depth is zero or the walk ends.  The
    flag says that the loop is over. *)
Definition pair_step t (step : CellLocation -> option CellLocation) (up down : Z) (s : CellLocation * Z * bool)
  : option (CellLocation * Z * bool) :=
  let '(a, depth, _) := s in
  isUp ← vt_compareCellTextAt t a up;
  isDown ← (if isUp : bool then Some false else vt_compareCellTextAt t a down);
  let depth' := if isUp : bool then depth + 1 else if isDown : bool then depth - 1 else depth in
  if (isUp || isDown) && (depth' =? 0) then Some (a, depth', true)
  else
    a' ← step a;
    Some (if bool_decide (a' = a) then (a, depth', true) else (a', depth', false)).
Definition pair_walk t (step : CellLocation -> option CellLocation) (up down : Z) (start : CellLocation) (initialDepth : Z)
  : option CellLocation :=
  s ← while (cells_fuel t) (fun s => Some (negb s.2)) (pair_step t step up down) (start, initialDepth, false);
  Some s.1.1.
Definition findMatchingPairLeft t v (left right initialDepth : Z) : option CellLocation :=
  pair_walk t (prev t) right left (cursorPosition v) initialDepth.
Definition findMatchingPairRight t v (left right initialDepth : Z) : option CellLocation :=
  pair_walk t (next t) left right (cursorPosition v) initialDepth.
(** The cell is looked up on the primary screen, whichever is shown. *)
Definition findMatchingPairFrom t v (location : CellLocation) : option CellLocation :=
  cell ← grid_at (vt_primary t) (line (cursorPosition v)) (column (cursorPosition v));
  match cell_codepoints cell with
  | [a] =>
      match matchingPairOfChar a with
      | Some (b, true) => findMatchingPairRight t v a b 0
      | Some (b, false) => findMatchingPairLeft t v b a 0
      | None => Some location
      end
  | _ => Some location
  end.
Definition expandMatchingPair t v (scope : TextObjectScope) (left right : Z) : option (CellLocation * CellLocation) :=
  let depth := if left =? right then -1 else 1 in
  a ← findMatchingPairLeft t v left right depth;
  b ← findMatchingPairRight t v left right depth;
  match scope with
  | A_ => Some (a, b)
  | Inner =>
      atLeft ← vt_compareCellTextAt t a left;
      a ← (if atLeft : bool then next t a else Some a);
      atRight ← vt_compareCellTextAt t b right;
      b ← (if atRight : bool then prev t b else Some b);
      Some (a, b)
  end.

(** *** Words *)

Definition firstAddressable t : CellLocation := mkLoc (- vt_history t) 0.
(** The loop state: position, its left neighbour, the neighbour's class and the
    class that continues the word. *)
Definition word_begin_step t (s : CellLocation * CellLocation * WordSkipClass * WordSkipClass)
  : option (CellLocation * CellLocation * WordSkipClass * WordSkipClass) :=
  let '(_, leftLocation, _, continuationClass) := s in
  let current := leftLocation in
  leftLocation ← prev t current;
  leftClass ← vt_class t leftLocation;
  Some (current, leftLocation, leftClass,
        if bool_decide (continuationClass = WhitespaceClass) && negb (bool_decide (leftClass = WhitespaceClass))
        then leftClass else continuationClass).
Definition findBeginOfWordAt t (location : CellLocation) (jumpOver : JumpOver) : option CellLocation :=
  leftLocation ← prev t location;
  leftClass ← vt_class t leftLocation;
  continuationClass ← (match jumpOver with JumpOverYes => Some leftClass | JumpOverNo => vt_class t location end);
  s ← while (cells_fuel t)
        (fun s => let '(current, _, leftClass, continuationClass) := s in
           Some (negb (bool_decide (current = firstAddressable t)) && bool_decide (leftClass = continuationClass)))
        (word_begin_step t) (location, leftLocation, leftClass, continuationClass);
  Some s.1.1.1.

(** Two columns of a line, [leftOfCurrent] and [current]. *)
Definition findEndOfWordAt t (location : CellLocation) (jumpOver : JumpOver) : option CellLocation :=
  let rightMargin := vt_columns t in
  let y := line location in
  let start := match jumpOver with
               | JumpOverYes => if column location + 1 <? rightMargin then column location + 1 else column location
               | JumpOverNo => column location
               end in
  s ← while (columns_fuel t)
        (fun s : Z * Z =>
           if s.2 + 1 <? rightMargin then
             dl ← vt_wordDelimited t (mkLoc y s.1);
             dc ← (if dl : bool then Some false else vt_wordDelimited t (mkLoc y s.2));
             Some (negb (negb dl && dc))
           else Some false)
        (fun s : Z * Z => Some (s.2, s.2 + 1)) (start, start);
  Some (mkLoc y s.1).

(** The loops of the WORD motions: columns [prev] and [current] of a line. *)
Definition column_loop t (y : Z) (inside : Z -> bool) (cond : bool -> bool -> bool) (step : Z) (start : Z) : option (Z * Z) :=
  while (columns_fuel t)
    (fun s : Z * Z =>
       if inside s.2 then
         ec ← vt_isCellEmpty t (mkLoc y s.2); ep ← vt_isCellEmpty t (mkLoc y s.1); Some (cond ec ep)
       else Some false)
    (fun s : Z * Z => Some (s.2, s.2 + step)) (start, start).
Definition one_right t (x : Z) : Z := if x + 1 <? vt_columns t then x + 1 else x.
Definition bigWordForward t p : option CellLocation :=
  s ← column_loop t (line p) (fun x => x + 1 <? vt_columns t) (fun ec ep => ec || negb ep) 1 (one_right t (column p));
  Some (mkLoc (line p) s.2).
Definition bigWordEndForward t p : option CellLocation :=
  s ← column_loop t (line p) (fun x => x + 1 <? vt_columns t) (fun ec ep => negb ec || ep) 1 (one_right t (column p));
  Some (mkLoc (line p) s.1).
Definition bigWordBackward t p : option CellLocation :=
  s ← column_loop t (line p) (fun x => 0 <? x) (fun ec ep => negb ec || ep) (-1)
        (if 0 <? column p then column p - 1 else column p);
  Some (mkLoc (line p) (if s.2 =? 0 then s.2 else s.1)).

(** One round of [w]: the state is the position and the initial class. *)
Definition wordForward_once t p : option CellLocation :=
  initial ← vt_class t p;
  result ← next t p;
  let lastAddressable := mkLoc (vt_lines t - 1) (vt_columns t - 1) in
  let test (s : CellLocation * WordSkipClass) :=
    c ← vt_class t s.1; Some (shouldSkipForUntilWordBegin c s.2) in
  s ← while (cells_fuel t)
        (fun s => if bool_decide (s.1 = lastAddressable) then Some false else r ← test s; Some r.1)
        (fun s => r ← test s; p ← next t s.1; Some (p, r.2)) (result, initial);
  Some s.1.

(** *** Lines *)

(** Walks up or down a line at a time while [cond] holds. *)
Definition walk_up t (cond : Z -> option bool) (y : Z) : option Z :=
  while (lines_fuel t) (fun y => if - vt_history t <? y then cond y else Some false) (fun y => Some (y - 1)) y.
Definition walk_down t (cond : Z -> option bool) (y : Z) : option Z :=
  while (lines_fuel t) (fun y => if y <? vt_lines t - 1 then cond y else Some false) (fun y => Some (y + 1)) y.

(** The line is the character and nothing else. *)
Definition line_is t (ch : Z) (y : Z) : option bool :=
  l ← lineAt (currentGrid t) y; Some (bool_decide (line_toUtf8Trimmed false true l = [ch])).
Definition negated (q : Z -> option bool) (y : Z) : option bool := b ← q y; Some (negb b).
(** [count] rounds. *)
Fixpoint rounds {A} (n : nat) (f : A -> option A) (a : A) : option A :=
  match n with O => Some a | S n => a ← f a; rounds n f a end.

Definition globalCharUp t (location : CellLocation) (ch count : Z) : option CellLocation :=
  y ← rounds (Z.to_nat count)
        (fun y => walk_up t (negated (line_is t ch))
                    (if (column location =? 0) && (- vt_history t <? y) then y - 1 else y)) (line location);
  Some (mkLoc y 0).
Definition globalCharDown t (location : CellLocation) (ch count : Z) : option CellLocation :=
  y ← rounds (Z.to_nat count)
        (fun y => walk_down t (negated (line_is t ch))
                    (if (column location =? 0) && (y <? vt_lines t - 1) then y + 1 else y)) (line location);
  Some (mkLoc y 0).
Definition lineMarkUp t p (count : Z) : option CellLocation :=
  y ← rounds (Z.to_nat count)
        (fun y =>
           m ← (if - vt_history t <? y then vt_isLineMarked t y else Some false);
           walk_up t (negated (vt_isLineMarked t)) (if m : bool then y - 1 else y)) (line p);
  Some (mkLoc y 0).
Definition lineMarkDown t p (count : Z) : option CellLocation :=
  y ← rounds (Z.to_nat count)
        (fun y => walk_down t (negated (vt_isLineMarked t))
                    (if (column p =? 0) && (y <? vt_lines t - 1) then y + 1 else y)) (line p);
  Some (mkLoc y 0).

(** The paragraph motions look at the current line and the one before it on
    the way. *)
Definition paragraph_loop t (inside : Z -> bool) (step : Z) (start : Z) : option Z :=
  s ← while (lines_fuel t)
        (fun s : Z * Z =>
           if inside s.2 then
             ec ← vt_isLineEmpty t s.2;
             ep ← (if ec : bool then vt_isLineEmpty t s.1 else Some false);
             Some (negb ec || ep)
           else Some false)
        (fun s : Z * Z => Some (s.2, s.2 + step)) (start, start);
  Some s.2.
Definition paragraphBackward t p : option CellLocation :=
  y ← paragraph_loop t (fun y => - vt_history t <? y) (-1) (if 0 <? line p then line p - 1 else line p);
  snapToCell t (mkLoc y 0).
Definition paragraphForward t p : option CellLocation :=
  y ← paragraph_loop t (fun y => y <? vt_lines t - 1) 1 (if line p <? vt_lines t - 1 then line p + 1 else line p);
  snapToCell t (mkLoc y 0).

Definition lineTextBegin t p : option CellLocation :=
  while (columns_fuel t)
    (fun p => if column p <? vt_columns t - 1 then vt_isCellEmpty t p else Some false)
    (fun p => Some (mkLoc (line p) (column p + 1))) (mkLoc (line p) 0).

(** *** Characters on the line *)

(** [Some None]: not found; [None]: the loop does not end. *)
Fixpoint toCharRight_loop t (ch : Z) (y : Z) (fuel : nat) (result : CellLocation) : option (option CellLocation) :=
  match fuel with
  | O => None
  | S fuel =>
      if negb (line result =? y) then Some None
      else
        b ← vt_compareCellTextAt t result ch;
        if (b : bool) then Some (Some result)
        else if column result =? vt_columns t - 1 then Some None
        else result ← next t result; toCharRight_loop t ch y fuel result
  end.
Definition toCharRight_from t v (start : CellLocation) : option (option CellLocation) :=
  result ← next t start; toCharRight_loop t (_lastCharSought v) (line start) (columns_fuel t) result.
Fixpoint toCharLeft_loop t (ch : Z) (y : Z) (fuel : nat) (result : CellLocation) : option (option CellLocation) :=
  match fuel with
  | O => None
  | S fuel =>
      if negb (line result =? y) then Some None
      else
        b ← vt_compareCellTextAt t result ch;
        if (b : bool) then Some (Some result)
        else result ← prev t result; toCharLeft_loop t ch y fuel result
  end.
Definition toCharLeft_from t v (start : CellLocation) : option (option CellLocation) :=
  result ← prev t start; toCharLeft_loop t (_lastCharSought v) (line start) (columns_fuel t) result.
Definition char_rounds (f : CellLocation -> option (option CellLocation)) (count : Z) (p : CellLocation)
  : option (option CellLocation) :=
  rounds (Z.to_nat count) (fun r => match r with Some p => f p | None => Some None end) (Some p).
Definition toCharRight t v (count : Z) := char_rounds (toCharRight_from t v) count (cursorPosition v).
Definition toCharLeft t v (count : Z) := char_rounds (toCharLeft_from t v) count (cursorPosition v).
Definition charMotion t v (motion : ViMotion) (count : Z) : option CellLocation :=
  let shifted d r := match r with Some q => mkLoc (line q) (column q + d) | None => cursorPosition v end in
  match motion with
  | TillBeforeCharRight => r ← toCharRight t v count; Some (shifted (-1) r)
  | TillAfterCharLeft => r ← toCharLeft t v count; Some (shifted 1 r)
  | ToCharRight => r ← toCharRight t v count; Some (shifted 0 r)
  | ToCharLeft => r ← toCharLeft t v count; Some (shifted 0 r)
  | _ => Some (cursorPosition v)
  end.

(** *** Search *)

(** [Terminal::search] and [searchReverse] scroll the match into view. *)
Definition found_at t (r : option CellLocation) v : ViCommands :=
  match r with
  | Some q => with_viewport (@makeVisibleWithinSafeArea (vi_viewed t) (line q) (_viewport v)).2 v
  | None => v
  end.
(** The position after [count] matches, if there are that many. *)
Fixpoint search_rounds t (step : CellLocation -> option CellLocation) (find : CellLocation -> option CellLocation)
    (count : nat) (start : CellLocation) v : option (option CellLocation * ViCommands) :=
  match count with
  | O => Some (Some start, v)
  | S count =>
      start ← step start;
      let r := find start in
      let v := found_at t r v in
      match r with
      | Some q => search_rounds t step find count q v
      | None => Some (None, v)
      end
  end.

(** *** Motions *)

Definition addJumpHistory (location : CellLocation) v : ViCommands := with_jumps (Jump.add location (_jumpHistory v)) v.
(** A position that is recorded, or one that is not. *)
Definition recorded v (r : option CellLocation) : option (CellLocation * ViCommands) :=
  p ← r; Some (p, addJumpHistory p v).
Definition unrecorded v (r : option CellLocation) : option (CellLocation * ViCommands) := p ← r; Some (p, v).
Definition jumped v (r : option (CellLocation * Jump.JumpHistory)) : option (CellLocation * ViCommands) :=
  r ← r; Some (r.1, with_jumps r.2 v).
Definition searched t v (step find : _) (count : Z) : option (CellLocation * ViCommands) :=
  r ← search_rounds t step find (Z.to_nat count) (cursorPosition v) v;
  Some (match r.1 with Some q => (q, addJumpHistory q r.2) | None => (cursorPosition v, r.2) end).

Definition translateToCellLocationAndRecord t v (motion : ViMotion) (count : Z) : option (CellLocation * ViCommands) :=
  let c := cursorPosition v in
  let w := _viewport v in
  let bottom := vt_lines t - 1 in
  match motion with
  | CharLeft => unrecorded v (rounds (Z.to_nat count) (prev t) c)
  | CharRight => unrecorded v (rounds (Z.to_nat count) (next t) c)
  | ScreenColumn => unrecorded v (snapToCell t (mkLoc (line c) (Z.min (int_of (count - 1)) (vt_columns t - 1))))
  | FileBegin => unrecorded v (snapToCell t (mkLoc (- vt_history t) 0))
  | FileEnd => recorded v (snapToCell t (mkLoc bottom 0))
  | PageTop => unrecorded v (snapToCell t (mkLoc (- _scrollOffset w + _scrollOff w) 0))
  | PageBottom => unrecorded v (snapToCell t (mkLoc (- _scrollOffset w + (vt_lines t - _scrollOff w - 1)) 0))
  | LineBegin => Some (mkLoc (line c) 0, v)
  | LineTextBegin => unrecorded v (lineTextBegin t c)
  | LineDown => Some (mkLoc (Z.min (line c + int_of count) bottom) (column c), v)
  | LineEnd => unrecorded v (getRightMostNonEmptyCellLocation t (line c))
  | LineUp => Some (mkLoc (Z.max (line c - int_of count) (- vt_history t)) (column c), v)
  | LinesCenter => recorded v (Some (mkLoc (vt_lines t / 2 - 1 - _scrollOffset w) (column c)))
  | PageDown => Some (mkLoc (Z.min (line c + vt_lines t / 2) bottom) (column c), v)
  | PageUp => Some (mkLoc (Z.max (line c - vt_lines t / 2) (- vt_history t)) (column c), v)
  | ParagraphBackward => recorded v (paragraphBackward t c)
  | ParagraphForward => recorded v (paragraphForward t c)
  | GlobalCurlyOpenUp => recorded v (globalCharUp t c 0x7B count)
  | GlobalCurlyOpenDown => recorded v (globalCharDown t c 0x7B count)
  | GlobalCurlyCloseUp => recorded v (globalCharUp t c 0x7D count)
  | GlobalCurlyCloseDown => recorded v (globalCharDown t c 0x7D count)
  | LineMarkUp => recorded v (lineMarkUp t c count)
  | LineMarkDown => recorded v (lineMarkDown t c count)
  | ParenthesisMatching => unrecorded v (findMatchingPairFrom t v c)
  | SearchResultBackward => searched t v (prev t) searchReverse_from count
  | SearchResultForward => searched t v (next t) search_from count
  | WordBackward => unrecorded v (rounds (Z.to_nat count) (fun p => findBeginOfWordAt t p JumpOverYes) c)
  | WordEndForward =>
      (* every round starts at the cursor *)
      unrecorded v (rounds (Z.to_nat count) (fun _ => findEndOfWordAt t c JumpOverYes) c)
  | WordForward => unrecorded v (rounds (Z.to_nat count) (wordForward_once t) c)
  | BigWordForward => unrecorded v (bigWordForward t c)
  | BigWordEndForward => unrecorded v (bigWordEndForward t c)
  | BigWordBackward => unrecorded v (bigWordBackward t c)
  | Explicit | ViInput.Selection | ViInput.FullLine => unrecorded v (snapToCell t c)
  | TillBeforeCharRight | TillAfterCharLeft | ToCharRight | ToCharLeft => unrecorded v (charMotion t v motion count)
  | RepeatCharMove =>
      match _lastCharMotion v with
      | Some m => if isValidCharMove (Some m) then unrecorded v (charMotion t v m count) else Some (c, v)
      | None => Some (c, v)
      end
  | RepeatCharMoveReverse =>
      match _lastCharMotion v with
      | Some m => if isValidCharMove (Some m) then unrecorded v (charMotion t v (invertCharMove m) count) else Some (c, v)
      | None => Some (c, v)
      end
  | JumpToLastJumpPoint => jumped v (Jump.jumpToLast c (_jumpHistory v))
  | JumpToMarkBackward => jumped v (Jump.jumpToMarkBackward (_jumpHistory v))
  | JumpToMarkForward => jumped v (Jump.jumpToMarkForward (_jumpHistory v))
  | CenterCursor => Some (c, with_viewport (@makeVisibleWithin (vi_viewed t) (line c) (vt_lines t / 2) w).2 v)
  end.

(** *** Ranges *)

Definition motionRange t v (motion : ViMotion) (count : Z) : option (CellLocation * CellLocation * ViCommands) :=
  let c := cursorPosition v in
  match motion with
  | ViInput.FullLine => Some (mkLoc (line c) 0, mkLoc (line c) (vt_columns t - 1), v)
  | _ => r ← translateToCellLocationAndRecord t v motion count; Some (c, r.1, r.2)
  end.

Definition bigWordLeft t p : option CellLocation :=
  while (columns_fuel t)
    (fun p => if 0 <? column p then q ← prev t p; e ← vt_isCellEmpty t q; Some (negb e) else Some false) (prev t) p.
Definition bigWordRight t p : option CellLocation :=
  while (columns_fuel t)
    (fun p => if column p <? vt_columns t - 1 then q ← next t p; e ← vt_isCellEmpty t q; Some (negb e) else Some false)
    (next t) p.
Definition objectRange t v (scope : TextObjectScope) (textObject : TextObject) : option (CellLocation * CellLocation) :=
  let c := cursorPosition v in
  match textObject with
  | AngleBrackets => expandMatchingPair t v scope 0x3C 0x3E
  | BackQuotes => expandMatchingPair t v scope 0x60 0x60
  | CurlyBrackets => expandMatchingPair t v scope 0x7B 0x7D
  | DoubleQuotes => expandMatchingPair t v scope 0x22 0x22
  | RoundBrackets => expandMatchingPair t v scope 0x28 0x29
  | SingleQuotes => expandMatchingPair t v scope 0x27 0x27
  | SquareBrackets => expandMatchingPair t v scope 0x5B 0x5D
  | LineMark =>
      a ← walk_up t (negated (vt_isLineMarked t)) (line c);
      let a := match scope with Inner => if a =? line c then a else a + 1 | A_ => a end in
      b ← walk_down t (negated (vt_isLineMarked t)) (line c);
      let b := match scope with Inner => if b =? line c then b else b - 1 | A_ => b end in
      Some (mkLoc a 0, mkLoc b (vt_columns t - 1))
  | Paragraph =>
      a ← walk_up t (negated (fun y => vt_isLineEmpty t (y - 1))) (line c);
      b ← walk_down t (negated (vt_isLineEmpty t)) (line c);
      Some (mkLoc a (column c), mkLoc b (column c))
  | Word => a ← findBeginOfWordAt t c JumpOverNo; b ← findEndOfWordAt t c JumpOverNo; Some (a, b)
  | BigWord => a ← bigWordLeft t c; b ← bigWordRight t c; Some (a, b)
  end.

(** *** Commands *)

(** The commands with the mode of the input handler and the selection. *)
Record ViSession := mk_visession { vs_commands : ViCommands; vs_mode : ViMode; vs_selector : option Selection.Selection }.

Context `{SelectionHelper}.

Definition vi_moveCursorTo t (position : CellLocation) (s : ViSession) : option ViSession :=
  let v := with_cursorPosition position (vs_commands s) in
  let v := with_viewport (@makeVisibleWithinSafeArea (vi_viewed t) (line position) (_viewport v)).2 v in
  selector ← (match vs_mode s, vs_selector s with
              | (Visual | VisualLine | VisualBlock), Some x => x ← extend (lines_fuel t) position x; Some (Some x)
              | _, x => Some x
              end);
  Some (mk_visession v (vs_mode s) selector).

Definition vi_moveCursor t (motion : ViMotion) (count lastChar : Z) (s : ViSession) : option ViSession :=
  if bool_decide (vs_mode s = Insert_) then None
  else
    let v := vs_commands s in
    let v := if isValidCharMove (Some motion) then with_charMotion motion lastChar v else v in
    r ← translateToCellLocationAndRecord t v motion count;
    vi_moveCursorTo t r.1 (mk_visession r.2 (vs_mode s) (vs_selector s)).

(** [Terminal::searchNextMatch] and [searchPrevMatch]: where the search starts. *)
Definition after_cursor t p : CellLocation :=
  if column p <? vt_columns t then mkLoc (line p) (column p + 1)
  else if line p <? vt_lines t - 1 then mkLoc (line p + 1) 0 else p.
Definition before_cursor t p : CellLocation :=
  if negb (column p =? 0) then mkLoc (line p) (column p - 1)
  else if - vt_history t <? line p then mkLoc (line p - 1) (vt_columns t - 1) else p.
Fixpoint jump_matches t (start : ViTerminal -> CellLocation -> CellLocation) (find : CellLocation -> option CellLocation)
    (count : nat) (s : ViSession) : option (bool * ViSession) :=
  match count with
  | O => Some (true, s)
  | S count =>
      let r := find (start t (cursorPosition (vs_commands s))) in
      let v := found_at t r (vs_commands s) in
      match r with
      | Some q =>
          s ← vi_moveCursorTo t q (mk_visession (addJumpHistory q v) (vs_mode s) (vs_selector s));
          jump_matches t start find count s
      | None => Some (false, mk_visession v (vs_mode s) (vs_selector s))
      end
  end.
Definition jumpToNextMatch t (count : Z) (s : ViSession) := jump_matches t after_cursor search_from (Z.to_nat count) s.
Definition jumpToPreviousMatch t (count : Z) (s : ViSession) :=
  jump_matches t before_cursor searchReverse_from (Z.to_nat count) s.

Definition scrollViewport t (delta : Z) v : ViCommands :=
  with_viewport (if delta <? 0 then @scrollDown (vi_viewed t) (- delta) (_viewport v) else @scrollUp (vi_viewed t) delta (_viewport v)).2 v.
Definition toggleLineMark t v : option ViTerminal :=
  let y := line (cursorPosition v) in
  l ← lineAt (currentGrid t) y;
  let g := setLineAt (currentGrid t) y (setMarked l (negb (marked l))) in
  Some (if vt_isPrimary t then mk_viterminal g (vt_alternate t) (vt_isPrimary t) (vt_page t) (vt_delimiters t)
        else mk_viterminal (vt_primary t) g (vt_isPrimary t) (vt_page t) (vt_delimiters t)).
Definition select_object t (scope : TextObjectScope) (textObject : TextObject) (s : ViSession) : option ViSession :=
  r ← objectRange t (vs_commands s) scope textObject;
  x ← extend (lines_fuel t) r.2 (LinearSelection r.1);
  Some (mk_visession (with_cursorPosition r.2 (vs_commands s)) (vs_mode s) (Some x)).

(** ** Loops *)

(** A loop whose body keeps [I] and decreases [m] ends, with [I] and the
    condition false. *)
Lemma while_total {S} (I : S -> Prop) (m : S -> nat) cond body :
  (forall s, I s -> exists c : bool, cond s = Some c /\
     (c = true -> exists s', body s = Some s' /\ I s' /\ (m s' < m s)%nat)) ->
  forall fuel s, I s -> (m s < fuel)%nat ->
  exists s', while fuel cond body s = Some s' /\ I s' /\ cond s' = Some false.
Proof.
  intros Hstep fuel. induction fuel as [|fuel IH]; intros s Hs Hm; [lia|]. cbn [while].
  destruct (Hstep s Hs) as (c & Ec & Hb). rewrite Ec. cbn [mbind option_bind].
  destruct c; [|by exists s]. destruct (Hb eq_refl) as (s' & -> & Hs' & Hlt). cbn [mbind option_bind].
  apply IH; [done|lia].
Qed.

Lemma rounds_total {A} (I : A -> Prop) (f : A -> option A) :
  (forall a, I a -> exists b, f a = Some b /\ I b) -> forall n a, I a -> exists b, rounds n f a = Some b /\ I b.
Proof.
  intros Hf n. induction n as [|n IH]; intros a Ha; cbn [rounds]; [by exists a|].
  destruct (Hf a Ha) as (b & -> & Hb). cbn [mbind option_bind]. by apply IH.
Qed.

(** ** The grid under the commands *)

(** A position on the grid, history included. *)
Definition in_grid t p : Prop := - vt_history t <= line p < vt_lines t /\ 0 <= column p < vt_columns t.

(** Every line is as wide as the page and can be read; the text of a trivial
    line fits. *)
Definition readable (w : Z) (l : Line) : Prop :=
  line_size l = w /\ (exists cells, inflatedBuffer l = Some cells /\ Z.of_nat (length cells) = w) /\
  match _buffer l with Trivial b => 0 <= usedColumns b <= w /\ (text b <> [] -> 0 < usedColumns b) | Inflated _ => True end.
Record vi_ready t : Prop := {
  vr_ok : grid_ok (currentGrid t);
  vr_page : vt_page t = _pageSize (currentGrid t);
  vr_columns : 0 < vt_columns t;
  vr_lines : Forall (readable (vt_columns t)) (contents (currentGrid t));
  vr_alternate : vt_isPrimary t = false -> vt_history t = 0;
  (** no cell reaches over the right margin *)
  vr_width : forall p w, in_grid t p -> column p < vt_columns t - 1 -> vt_cellWidthAt t p = Some w ->
    column p + Z.max 1 w < vt_columns t
}.

Section Ready.
Context t (Ht : vi_ready t).

Lemma vt_range : 0 <= vt_history t /\ 0 < vt_lines t.
Proof.
  destruct Ht as [[_ Hl Hu] Hp _ _ _ _]. unfold vt_history, vt_lines, historyLineCount. rewrite Hp. lia.
Qed.

Lemma vt_line y : - vt_history t <= y < vt_lines t ->
  exists l, lineAt (currentGrid t) y = Some l /\ readable (vt_columns t) l.
Proof.
  intros Hy. destruct Ht as [Hok Hp _ Hl _ _]. unfold vt_history, vt_lines in Hy. rewrite Hp in Hy.
  rewrite lineAt_contents by done. destruct (grid_split _ Hok) as (U & _ & L1 & L2 & _).
  destruct (lookup_lt_is_Some_2 (contents (currentGrid t)) (Z.to_nat (historyLineCount (currentGrid t) + y))) as [l El].
  { unfold contents. rewrite length_app. lia. }
  exists l. split; [done|]. by apply (Forall_lookup_1 _ _ _ _ Hl El).
Qed.

Lemma vt_cell_total p : in_grid t p -> exists c, vt_cell t p = Some c.
Proof.
  intros [Hy Hx]. destruct (vt_line _ Hy) as (l & El & _ & (cells & Ec & Hlen) & _). unfold vt_cell. rewrite El.
  cbn [mbind option_bind]. rewrite Ec. cbn [mbind option_bind]. zbool. apply lookup_lt_is_Some_2. lia.
Qed.
Lemma vt_compare_total p ch : in_grid t p -> exists b, vt_compareCellTextAt t p ch = Some b.
Proof. intros Hp. destruct (vt_cell_total p Hp) as [c E]. unfold vt_compareCellTextAt. rewrite E. by eexists. Qed.
Lemma vt_class_total p : in_grid t p -> exists b, vt_class t p = Some b.
Proof. intros Hp. destruct (vt_cell_total p Hp) as [c E]. unfold vt_class, vt_cellTextAt. rewrite E. by eexists. Qed.
Lemma empty_total p : in_grid t p -> exists b, vt_isCellEmpty t p = Some b.
Proof.
  intros [Hy Hx]. destruct (vt_line _ Hy) as (l & El & Hs & (cells & Ec & Hlen) & _).
  unfold vt_isCellEmpty, cellEmptyAt. rewrite El. cbn [mbind option_bind].
  unfold line_size, inflatedBuffer in *. destruct (_buffer l) as [b|cs].
  - zbool. by eexists.
  - injection Ec as ->. zbool. destruct (lookup_lt_is_Some_2 cells (Z.to_nat (column p))) as [c ->]; [lia|]. by eexists.
Qed.
Lemma width_total p : in_grid t p -> exists w, vt_cellWidthAt t p = Some w.
Proof.
  intros [Hy Hx]. destruct (vt_line _ Hy) as (l & El & _ & (cells & Ec & Hlen) & _).
  unfold vt_cellWidthAt, cellWidthAt. rewrite El. cbn [mbind option_bind]. rewrite Ec. cbn [mbind option_bind]. zbool.
  destruct (lookup_lt_is_Some_2 cells (Z.to_nat (column p))) as [c ->]; [lia|]. by eexists.
Qed.
Lemma line_empty_total y : - vt_history t <= y < vt_lines t -> exists b, vt_isLineEmpty t y = Some b.
Proof. intros Hy. destruct (vt_line _ Hy) as (l & El & _). unfold vt_isLineEmpty. rewrite El. by eexists. Qed.
Lemma marked_total y : - vt_history t <= y < vt_lines t -> exists b, vt_isLineMarked t y = Some b.
Proof. intros Hy. destruct (vt_line _ Hy) as (l & El & _). unfold vt_isLineMarked. rewrite El. by eexists. Qed.
Lemma line_is_total ch y : - vt_history t <= y < vt_lines t -> exists b, line_is t ch y = Some b.
Proof. intros Hy. destruct (vt_line _ Hy) as (l & El & _). unfold line_is. rewrite El. by eexists. Qed.
Lemma delimited_total p : in_grid t p -> exists b, vt_wordDelimited t p = Some b.
Proof.
  intros [Hy Hx]. destruct (vt_line _ Hy) as (l & El & Hs & (cells & Ec & Hlen) & _).
  destruct Ht as [_ Hp _ _ _ _]. unfold vt_wordDelimited, cellEmptyOrContainsOneOf, grid_at, useCellAt.
  cbn [line column]. rewrite El. cbn [mbind option_bind]. rewrite Ec. cbn [mbind option_bind].
  rewrite <- Hp. fold (vt_columns t). zbool.
  destruct (lookup_lt_is_Some_2 cells (Z.to_nat (Z.min (Z.min (column p) (vt_columns t - 1)) (vt_columns t - 1)))) as [c ->]; [lia|].
  by eexists.
Qed.

Lemma rightmost_used_total cells n : (n < length cells)%nat -> exists k, rightmost_used cells n = Some k /\ (k <= n)%nat.
Proof.
  induction n as [|n IH]; intros Hn; cbn [rightmost_used]; [by exists O|].
  destruct (lookup_lt_is_Some_2 cells (S n)) as [c ->]; [lia|]. cbn [mbind option_bind].
  destruct (cell_empty c); [|by eexists]. destruct IH as (k & -> & Hk); [lia|]. exists k. split; [done|lia].
Qed.
Lemma rightmost_total y : - vt_history t <= y < vt_lines t ->
  exists x, getRightMostNonEmptyCellLocation t y = Some (mkLoc y x) /\ 0 <= x < vt_columns t.
Proof.
  intros Hy. destruct (vt_line _ Hy) as (l & El & Hs & (cells & Ec & Hlen) & Hu). destruct Ht as [_ Hp Hc _ _ _].
  unfold getRightMostNonEmptyCellLocation, rightMostNonEmptyAt. rewrite El. cbn [mbind option_bind].
  unfold line_empty, inflatedBuffer in *. destruct (_buffer l) as [b|cs].
  - destruct (bool_decide_reflect (text b = [])) as [|Hn]; (eexists; split; [done|]); [lia|]. apply Hu in Hn as ?. lia.
  - injection Ec as ->. rewrite <- Hp. fold (vt_columns t).
    destruct (rightmost_used_total cells (Z.to_nat (vt_columns t - 1))) as (k & -> & Hk); [lia|].
    cbn [mbind option_bind]. eexists. split; [done|]. lia.
Qed.

(** ** Neighbours *)

Definition rank p : Z := (line p + vt_history t) * vt_columns t + column p.
Lemma rank_range p : in_grid t p -> 0 <= rank p < (vt_history t + vt_lines t) * vt_columns t.
Proof. intros [Hy Hx]. unfold rank. nia. Qed.

Lemma prev_top : (if vt_isPrimary t then - historyLineCount (vt_primary t) else 0) = - vt_history t.
Proof.
  destruct (vt_isPrimary t) eqn:Ei; [unfold vt_history, currentGrid; by rewrite Ei|].
  rewrite (vr_alternate _ Ht Ei). done.
Qed.

(** [prev] stays on the grid; it only stays in place at the first cell. *)
Lemma prev_total p : in_grid t p ->
  exists q, prev t p = Some q /\ in_grid t q /\ (p = firstAddressable t /\ q = p \/ p <> firstAddressable t /\ rank q < rank p).
Proof.
  intros Hp. destruct vt_range as [Hh Hl]. pose proof Hp as [Hy Hx]. unfold prev.
  destruct (Z.ltb_spec 0 (column p)) as [Hc|Hc].
  - eexists. split; [done|]. split; [unfold in_grid; simpl; lia|]. right. split; [|unfold rank; simpl; lia].
    intros ->. unfold firstAddressable in Hc. simpl in Hc. lia.
  - rewrite prev_top. destruct (Z.ltb_spec (- vt_history t) (line p)) as [Hlt|Hge].
    + destruct (rightmost_total (line p - 1)) as (x & -> & Hx'); [lia|]. cbn [mbind option_bind line column].
      eexists. split; [done|]. destruct (Z.ltb_spec (x + 1) (vt_columns t)); (split; [unfold in_grid; simpl; lia|]); right;
        (split; [intros ->; unfold firstAddressable in Hlt; simpl in Hlt; lia|unfold rank; simpl; nia]).
    + exists p. split; [done|]. split; [done|]. left. split; [|done]. unfold firstAddressable. destruct p. simpl in *. f_equal; lia.
Qed.

Definition lastAddressable : CellLocation := mkLoc (vt_lines t - 1) (vt_columns t - 1).
Lemma next_total p : in_grid t p ->
  exists q, next t p = Some q /\ in_grid t q /\ (p = lastAddressable /\ q = p \/ p <> lastAddressable /\ rank p < rank q).
Proof.
  intros Hp. destruct vt_range as [Hh Hl]. pose proof Hp as [Hy Hx]. unfold next.
  destruct (Z.ltb_spec (column p) (vt_columns t - 1)) as [Hc|Hc].
  - destruct (width_total p Hp) as [w Ew]. rewrite Ew. cbn [mbind option_bind]. pose proof (vr_width _ Ht p w Hp Hc Ew) as Hw.
    eexists. split; [done|]. split; [unfold in_grid; simpl; lia|]. right. split; [|unfold rank; simpl; lia].
    intros ->. unfold lastAddressable in Hc. simpl in Hc. lia.
  - destruct (Z.ltb_spec (line p) (vt_lines t - 1)) as [Hlt|Hge].
    + eexists. split; [done|]. split; [unfold in_grid; simpl; lia|]. right. split; [|unfold rank; simpl; nia].
      intros ->. unfold lastAddressable in Hlt. simpl in Hlt. lia.
    + exists p. split; [done|]. split; [done|]. left. split; [|done]. unfold lastAddressable. destruct p. simpl in *. f_equal; lia.
Qed.

(** ** Every loop ends on the grid *)

Lemma snapToCell_total p : in_grid t p -> exists q, snapToCell t p = Some q /\ in_grid t q.
Proof.
  intros Hp. destruct (while_total (in_grid t) (fun p => Z.to_nat (column p))
    (fun p => if 0 <? column p then vt_compareCellTextAt t p 0 else Some false)
    (fun p => Some (mkLoc (line p) (column p - 1)))) with (fuel := columns_fuel t) (s := p) as (q & E & Hq & _).
  - intros s Hs. destruct (Z.ltb_spec 0 (column s)); [|by exists false].
    destruct (vt_compare_total s 0 Hs) as [b Eb]. exists b. split; [done|]. intros _. eexists. split; [done|].
    destruct Hs. split; [unfold in_grid; simpl; lia|simpl; lia].
  - done.
  - destruct Hp. unfold columns_fuel. lia.
  - by exists q.
Qed.

Lemma lineTextBegin_total p : in_grid t p -> exists q, lineTextBegin t p = Some q /\ in_grid t q.
Proof.
  intros Hp. destruct (while_total (in_grid t) (fun p => Z.to_nat (vt_columns t - column p))
    (fun p => if column p <? vt_columns t - 1 then vt_isCellEmpty t p else Some false)
    (fun p => Some (mkLoc (line p) (column p + 1)))) with (fuel := columns_fuel t) (s := mkLoc (line p) 0) as (q & E & Hq & _).
  - intros s Hs. destruct (Z.ltb_spec (column s) (vt_columns t - 1)); [|by exists false].
    destruct (empty_total s Hs) as [b Eb]. exists b. split; [done|]. intros _. eexists. split; [done|].
    destruct Hs. split; [unfold in_grid; simpl; lia|simpl; lia].
  - destruct Hp. unfold in_grid. simpl. lia.
  - unfold columns_fuel. simpl. lia.
  - by exists q.
Qed.

(** A step over the grid that stays in place or gets nearer to an end. *)
Definition walks (step : CellLocation -> option CellLocation) (m : CellLocation -> nat) : Prop :=
  forall p, in_grid t p -> exists q, step p = Some q /\ in_grid t q /\ (q = p \/ (m q < m p)%nat).
Definition from_first p : nat := Z.to_nat (rank p).
Definition to_last p : nat := Z.to_nat ((vt_history t + vt_lines t) * vt_columns t - rank p).
Lemma prev_walks : walks (prev t) from_first.
Proof.
  intros p Hp. destruct (prev_total p Hp) as (q & E & Hq & Hm). exists q. split; [done|]. split; [done|].
  pose proof (rank_range p Hp). pose proof (rank_range q Hq). unfold from_first. destruct Hm as [[_ ->]|[_ ?]]; [by left|right; lia].
Qed.
Lemma next_walks : walks (next t) to_last.
Proof.
  intros p Hp. destruct (next_total p Hp) as (q & E & Hq & Hm). exists q. split; [done|]. split; [done|].
  pose proof (rank_range p Hp). pose proof (rank_range q Hq). unfold to_last. destruct Hm as [[_ ->]|[_ ?]]; [by left|right; lia].
Qed.
Lemma from_first_fuel p : in_grid t p -> (S (from_first p) < cells_fuel t)%nat.
Proof. intros Hp. pose proof (rank_range p Hp). destruct Hp. unfold from_first, cells_fuel. lia. Qed.
Lemma to_last_fuel p : in_grid t p -> (S (to_last p) < cells_fuel t)%nat.
Proof. intros Hp. pose proof (rank_range p Hp). destruct Hp. unfold to_last, cells_fuel. lia. Qed.

Lemma pair_walk_total step m up down p d : walks step m -> (S (m p) < cells_fuel t)%nat -> in_grid t p ->
  exists q, pair_walk t step up down p d = Some q /\ in_grid t q.
Proof.
  intros Hw Hf Hp. unfold pair_walk.
  destruct (while_total (fun s : CellLocation * Z * bool => in_grid t s.1.1) (fun s => if s.2 then O else S (m s.1.1))
    (fun s => Some (negb s.2)) (pair_step t step up down)) with (fuel := cells_fuel t) (s := (p, d, false))
    as ([[q d'] o] & -> & Hq & _); [|done|done|by exists q].
  intros [[a dep] over] Ha. simpl in Ha. eexists. split; [done|]. destruct over; [done|]. intros _. unfold pair_step.
  destruct (vt_compare_total a up Ha) as [b1 ->]. cbn [mbind option_bind].
  assert (exists b2, (if b1 then Some false else vt_compareCellTextAt t a down) = Some b2) as [b2 ->].
  { destruct b1; [by eexists|]. apply (vt_compare_total a down Ha). }
  cbn [mbind option_bind]. destruct ((b1 || b2) && _); [by eexists; split; [done|]; split; [done|simpl; lia]|].
  destruct (Hw a Ha) as (a' & -> & Ha' & Hm). cbn [mbind option_bind]. eexists. split; [done|].
  destruct (bool_decide_reflect (a' = a)); simpl; (split; [done|]); [lia|]. destruct Hm; [done|lia].
Qed.

Lemma pair_left_total v l r d : in_grid t (cursorPosition v) ->
  exists q, findMatchingPairLeft t v l r d = Some q /\ in_grid t q.
Proof. intros Hp. eapply pair_walk_total; [apply prev_walks|by apply from_first_fuel|done]. Qed.
Lemma pair_right_total v l r d : in_grid t (cursorPosition v) ->
  exists q, findMatchingPairRight t v l r d = Some q /\ in_grid t q.
Proof. intros Hp. eapply pair_walk_total; [apply next_walks|by apply to_last_fuel|done]. Qed.

Lemma findBeginOfWordAt_total p j : in_grid t p -> exists q, findBeginOfWordAt t p j = Some q /\ in_grid t q.
Proof.
  intros Hp. unfold findBeginOfWordAt. destruct (prev_total p Hp) as (l & El & Hl & _). rewrite El. cbn [mbind option_bind].
  destruct (vt_class_total l Hl) as [cl Ec]. rewrite Ec. cbn [mbind option_bind].
  assert (exists cc, (match j with JumpOverYes => Some cl | JumpOverNo => vt_class t p end) = Some cc) as [cc ->].
  { destruct j; [by eexists|]. by apply vt_class_total. }
  cbn [mbind option_bind].
  set (I := fun s : CellLocation * CellLocation * WordSkipClass * WordSkipClass =>
    in_grid t s.1.1.1 /\ prev t s.1.1.1 = Some s.1.1.2).
  destruct (while_total I (fun s => from_first s.1.1.1)
    (fun s => let '(current, _, leftClass, continuationClass) := s in
       Some (negb (bool_decide (current = firstAddressable t)) && bool_decide (leftClass = continuationClass)))
    (word_begin_step t)) with (fuel := cells_fuel t) (s := (p, l, cl, cc)) as ([[[q l'] k] k'] & -> & [Hq _] & _).
  - intros [[[c lc] k] k'] [Hc Hprev]. simpl in Hc, Hprev. eexists. split; [done|].
    intros [Hn _]%andb_true_iff. apply negb_true_iff, bool_decide_eq_false in Hn.
    destruct (prev_total c Hc) as (q & Eq & Hq & [[? _]|[_ Hlt]]); [done|]. assert (q = lc) as -> by congruence.
    unfold word_begin_step. destruct (prev_total lc Hq) as (l2 & E2 & Hl2 & _). rewrite E2. cbn [mbind option_bind].
    destruct (vt_class_total l2 Hl2) as [k2 Ek2]. rewrite Ek2. cbn [mbind option_bind]. eexists. split; [done|]. unfold I. simpl.
    split; [done|]. pose proof (rank_range c Hc). pose proof (rank_range lc Hq). unfold from_first. lia.
  - done.
  - pose proof (from_first_fuel p Hp). simpl. lia.
  - cbn [mbind option_bind]. by exists q.
Qed.

Lemma findEndOfWordAt_total p j : in_grid t p -> exists q, findEndOfWordAt t p j = Some q /\ in_grid t q.
Proof.
  intros [Hy Hx]. unfold findEndOfWordAt. cbv zeta. set (start := match j with JumpOverYes => _ | JumpOverNo => _ end).
  assert (Hs : 0 <= start < vt_columns t) by (unfold start; destruct j; [destruct (Z.ltb_spec (column p + 1) (vt_columns t))|]; lia).
  clearbody start.
  assert (Hd : forall x, 0 <= x < vt_columns t -> exists b, vt_wordDelimited t (mkLoc (line p) x) = Some b).
  { intros x ?. apply delimited_total. by split. }
  destruct (while_total (fun s : Z * Z => 0 <= s.1 < vt_columns t /\ 0 <= s.2 < vt_columns t)
    (fun s => Z.to_nat (vt_columns t - s.2))
    (fun s : Z * Z => if s.2 + 1 <? vt_columns t then
             dl ← vt_wordDelimited t (mkLoc (line p) s.1);
             dc ← (if dl : bool then Some false else vt_wordDelimited t (mkLoc (line p) s.2));
             Some (negb (negb dl && dc))
           else Some false)
    (fun s : Z * Z => Some (s.2, s.2 + 1))) with (fuel := columns_fuel t) (s := (start, start)) as ([a b] & -> & [Ha _] & _).
  - intros [a b] [Ha Hb]. cbn [fst snd] in *. destruct (Z.ltb_spec (b + 1) (vt_columns t)); [|by exists false].
    destruct (Hd a Ha) as [da ->]. cbn [mbind option_bind].
    assert (exists dc, (if da then Some false else vt_wordDelimited t (mkLoc (line p) b)) = Some dc) as [dc ->].
    { destruct da; [by eexists|by apply Hd]. }
    cbn [mbind option_bind]. eexists. split; [done|]. intros _. eexists. split; [done|]. simpl. lia.
  - simpl. lia.
  - simpl. unfold columns_fuel. lia.
  - cbn [mbind option_bind fst]. eexists. split; [done|]. by split.
Qed.

Lemma column_loop_total y inside cond d start : - vt_history t <= y < vt_lines t -> 0 <= start < vt_columns t ->
  d = 1 \/ d = -1 -> (forall x, 0 <= x < vt_columns t -> inside x = true -> 0 <= x + d < vt_columns t) ->
  exists a b, column_loop t y inside cond d start = Some (a, b) /\ 0 <= a < vt_columns t /\ 0 <= b < vt_columns t.
Proof.
  intros Hy Hs Hd Hin. unfold column_loop.
  assert (He : forall x, 0 <= x < vt_columns t -> exists b, vt_isCellEmpty t (mkLoc y x) = Some b).
  { intros x ?. apply empty_total. by split. }
  destruct (while_total (fun s : Z * Z => 0 <= s.1 < vt_columns t /\ 0 <= s.2 < vt_columns t)
    (fun s => Z.to_nat (if d =? 1 then vt_columns t - s.2 else s.2))
    (fun s : Z * Z => if inside s.2 then
         ec ← vt_isCellEmpty t (mkLoc y s.2); ep ← vt_isCellEmpty t (mkLoc y s.1); Some (cond ec ep)
       else Some false)
    (fun s : Z * Z => Some (s.2, s.2 + d))) with (fuel := columns_fuel t) (s := (start, start)) as ([a b] & -> & [Ha Hb] & _).
  - intros [a b] [Ha Hb]. cbn [fst snd] in *. destruct (inside b) eqn:Ei; [|by exists false].
    pose proof (Hin b Hb Ei). destruct (He b Hb) as [eb ->]. destruct (He a Ha) as [ea ->]. cbn [mbind option_bind].
    eexists. split; [done|]. intros _. eexists. split; [done|]. simpl. split; [lia|]. destruct Hd as [->| ->]; simpl; lia.
  - simpl. lia.
  - simpl. unfold columns_fuel. destruct (d =? 1); lia.
  - by exists a, b.
Qed.

Lemma one_right_range x : 0 <= x < vt_columns t -> 0 <= one_right t x < vt_columns t.
Proof. intros ?. unfold one_right. destruct (Z.ltb_spec (x + 1) (vt_columns t)); lia. Qed.
Lemma bigWordForward_total p : in_grid t p -> exists q, bigWordForward t p = Some q /\ in_grid t q.
Proof.
  intros [Hy Hx]. unfold bigWordForward.
  destruct (column_loop_total (line p) (fun x => x + 1 <? vt_columns t) (fun ec ep => ec || negb ep) 1 (one_right t (column p)))
    as (a & b & -> & Ha & Hb); [done|by apply one_right_range|by left|intros x ? ?%Z.ltb_lt; lia|].
  eexists. split; [done|]. by split.
Qed.
Lemma bigWordEndForward_total p : in_grid t p -> exists q, bigWordEndForward t p = Some q /\ in_grid t q.
Proof.
  intros [Hy Hx]. unfold bigWordEndForward.
  destruct (column_loop_total (line p) (fun x => x + 1 <? vt_columns t) (fun ec ep => negb ec || ep) 1 (one_right t (column p)))
    as (a & b & -> & Ha & Hb); [done|by apply one_right_range|by left|intros x ? ?%Z.ltb_lt; lia|].
  eexists. split; [done|]. by split.
Qed.
Lemma bigWordBackward_total p : in_grid t p -> exists q, bigWordBackward t p = Some q /\ in_grid t q.
Proof.
  intros [Hy Hx]. unfold bigWordBackward.
  destruct (column_loop_total (line p) (fun x => 0 <? x) (fun ec ep => negb ec || ep) (-1)
    (if 0 <? column p then column p - 1 else column p)) as (a & b & -> & Ha & Hb);
    [done|destruct (Z.ltb_spec 0 (column p)); lia|by right|intros x ? ?%Z.ltb_lt; lia|].
  eexists. split; [done|]. simpl. destruct (b =? 0); by split.
Qed.

Lemma wordForward_total p : in_grid t p -> exists q, wordForward_once t p = Some q /\ in_grid t q.
Proof.
  intros Hp. unfold wordForward_once. destruct (vt_class_total p Hp) as [k ->]. cbn [mbind option_bind].
  destruct (next_total p Hp) as (r & -> & Hr & _). cbn [mbind option_bind]. cbv zeta.
  match goal with |- context [while _ ?c ?b _] => set (cond := c); set (body := b) end.
  destruct (while_total (fun s : CellLocation * WordSkipClass => in_grid t s.1) (fun s => to_last s.1) cond body)
    with (fuel := cells_fuel t) (s := (r, k)) as ([q k'] & -> & Hq & _); [|done|simpl; pose proof (to_last_fuel r Hr); lia|by exists q].
  intros [a ka] Ha. unfold cond, body. cbn [fst snd] in *. destruct (bool_decide_reflect (a = mkLoc (vt_lines t - 1) (vt_columns t - 1))) as [|Hn];
    [by exists false|]. destruct (vt_class_total a Ha) as [ca ->]. cbn [mbind option_bind]. eexists. split; [done|]. intros _.
  destruct (next_total a Ha) as (q & -> & Hq & [[? _]|[_ Hlt]]); [done|]. cbn [mbind option_bind]. eexists. split; [done|].
  cbn [fst snd]. split; [done|]. pose proof (rank_range q Hq). unfold to_last. lia.
Qed.

Definition on_lines (y : Z) : Prop := - vt_history t <= y < vt_lines t.
Lemma walk_up_total cond y : (forall y, on_lines y -> - vt_history t < y -> exists b, cond y = Some b) -> on_lines y ->
  exists z, walk_up t cond y = Some z /\ on_lines z.
Proof.
  intros Hc Hy. unfold walk_up. destruct (while_total on_lines (fun y => Z.to_nat (y + vt_history t))
    (fun y => if - vt_history t <? y then cond y else Some false) (fun y => Some (y - 1))) with (fuel := lines_fuel t) (s := y)
    as (z & -> & Hz & _); [|done|unfold on_lines, lines_fuel in *; lia|by exists z].
  intros s Hs. destruct (Z.ltb_spec (- vt_history t) s); [|by exists false]. destruct (Hc s Hs) as [b ->]; [done|].
  exists b. split; [done|]. intros _. eexists. split; [done|]. unfold on_lines in *. lia.
Qed.
Lemma walk_down_total cond y : (forall y, on_lines y -> exists b, cond y = Some b) -> on_lines y ->
  exists z, walk_down t cond y = Some z /\ on_lines z.
Proof.
  intros Hc Hy. unfold walk_down. destruct (while_total on_lines (fun y => Z.to_nat (vt_lines t - y))
    (fun y => if y <? vt_lines t - 1 then cond y else Some false) (fun y => Some (y + 1))) with (fuel := lines_fuel t) (s := y)
    as (z & -> & Hz & _); [|done|unfold on_lines, lines_fuel in *; lia|by exists z].
  intros s Hs. destruct (Z.ltb_spec s (vt_lines t - 1)); [|by exists false]. destruct (Hc s Hs) as [b ->].
  exists b. split; [done|]. intros _. eexists. split; [done|]. unfold on_lines in *. lia.
Qed.
Lemma negated_total (q : Z -> option bool) y : (exists b, q y = Some b) -> exists b, negated q y = Some b.
Proof. intros [b E]. unfold negated. rewrite E. by eexists. Qed.

(** A motion that goes line by line ends in the first column of a line. *)
Lemma line_rounds_total (f : Z -> option Z) n y : (forall y, on_lines y -> exists z, f y = Some z /\ on_lines z) -> on_lines y ->
  exists q, (y ← rounds n f y; Some (mkLoc y 0)) = Some q /\ in_grid t q.
Proof.
  intros Hf Hy. destruct (rounds_total on_lines f Hf n y Hy) as (z & -> & Hz). eexists. split; [done|].
  pose proof (vr_columns _ Ht). split; simpl; [done|lia].
Qed.
Lemma globalCharUp_total p ch n : in_grid t p -> exists q, globalCharUp t p ch n = Some q /\ in_grid t q.
Proof.
  intros [Hy Hx]. apply line_rounds_total; [|done]. intros y Hy'. apply walk_up_total.
  - intros z Hz _. by apply negated_total, line_is_total.
  - unfold on_lines in *. destruct (Z.ltb_spec (- vt_history t) y); destruct (column p =? 0); simpl; lia.
Qed.
Lemma globalCharDown_total p ch n : in_grid t p -> exists q, globalCharDown t p ch n = Some q /\ in_grid t q.
Proof.
  intros [Hy Hx]. apply line_rounds_total; [|done]. intros y Hy'. apply walk_down_total.
  - intros z Hz. by apply negated_total, line_is_total.
  - unfold on_lines in *. destruct (Z.ltb_spec y (vt_lines t - 1)); destruct (column p =? 0); simpl; lia.
Qed.
Lemma lineMarkUp_total p n : in_grid t p -> exists q, lineMarkUp t p n = Some q /\ in_grid t q.
Proof.
  intros [Hy Hx]. apply line_rounds_total; [|done]. intros y Hy'.
  assert (exists m, (if - vt_history t <? y then vt_isLineMarked t y else Some false) = Some m /\ (m = true -> - vt_history t < y))
    as (m & -> & Hm).
  { destruct (Z.ltb_spec (- vt_history t) y); [|by exists false]. destruct (marked_total y Hy') as [m ->]. by exists m. }
  cbn [mbind option_bind]. apply walk_up_total; [intros z Hz _; by apply negated_total, marked_total|].
  unfold on_lines in *. destruct m; [specialize (Hm eq_refl)|]; lia.
Qed.
Lemma lineMarkDown_total p n : in_grid t p -> exists q, lineMarkDown t p n = Some q /\ in_grid t q.
Proof.
  intros [Hy Hx]. apply line_rounds_total; [|done]. intros y Hy'. apply walk_down_total.
  - intros z Hz. by apply negated_total, marked_total.
  - unfold on_lines in *. destruct (Z.ltb_spec y (vt_lines t - 1)); destruct (column p =? 0); simpl; lia.
Qed.

Lemma paragraph_loop_total inside d start : on_lines start -> d = 1 \/ d = -1 ->
  (forall y, on_lines y -> inside y = true -> on_lines (y + d)) ->
  exists z, paragraph_loop t inside d start = Some z /\ on_lines z.
Proof.
  intros Hs Hd Hin. unfold paragraph_loop.
  match goal with |- context [while _ ?c ?b _] => set (cond := c); set (body := b) end.
  destruct (while_total (fun s : Z * Z => on_lines s.1 /\ on_lines s.2)
    (fun s => Z.to_nat (if d =? 1 then vt_lines t - s.2 else s.2 + vt_history t)) cond body)
    with (fuel := lines_fuel t) (s := (start, start)) as ([a b] & -> & [_ Hb] & _);
    [|done|unfold on_lines, lines_fuel in *; simpl; destruct (d =? 1); lia|by exists b].
  intros [a b] [Ha Hb]. unfold cond, body. cbn [fst snd] in *. destruct (inside b) eqn:Ei; [|by exists false].
  pose proof (Hin b Hb Ei) as Hbd. destruct (line_empty_total b Hb) as [eb ->]. cbn [mbind option_bind].
  assert (exists ea, (if eb then vt_isLineEmpty t a else Some false) = Some ea) as [ea ->].
  { destruct eb; [by apply line_empty_total|by eexists]. }
  cbn [mbind option_bind]. eexists. split; [done|]. intros _. eexists. split; [done|]. simpl. split; [done|].
  unfold on_lines in *. destruct Hd as [->| ->]; simpl; lia.
Qed.
Lemma paragraph_total p : in_grid t p ->
  (exists q, paragraphBackward t p = Some q /\ in_grid t q) /\ (exists q, paragraphForward t p = Some q /\ in_grid t q).
Proof.
  intros [Hy Hx]. destruct vt_range as [Hh Hl]. pose proof (vr_columns _ Ht). split.
  - unfold paragraphBackward. destruct (paragraph_loop_total (fun y => - vt_history t <? y) (-1)
      (if 0 <? line p then line p - 1 else line p)) as (z & -> & Hz).
    + unfold on_lines. destruct (Z.ltb_spec 0 (line p)); lia.
    + by right.
    + intros y ? ?%Z.ltb_lt. unfold on_lines in *. lia.
    + cbn [mbind option_bind]. apply snapToCell_total. split; simpl; [done|lia].
  - unfold paragraphForward. destruct (paragraph_loop_total (fun y => y <? vt_lines t - 1) 1
      (if line p <? vt_lines t - 1 then line p + 1 else line p)) as (z & -> & Hz).
    + unfold on_lines. destruct (Z.ltb_spec (line p) (vt_lines t - 1)); lia.
    + by left.
    + intros y ? ?%Z.ltb_lt. unfold on_lines in *. lia.
    + cbn [mbind option_bind]. apply snapToCell_total. split; simpl; [done|lia].
Qed.

(** Characters on the line: found further to the right, or to the left. *)
Lemma toCharRight_loop_total ch y x fuel p : in_grid t p -> (line p = y -> x < column p) -> (Z.to_nat (vt_columns t - column p) < fuel)%nat ->
  exists r, toCharRight_loop t ch y fuel p = Some r /\ forall q, r = Some q -> in_grid t q /\ line q = y /\ x < column q.
Proof.
  revert p. induction fuel as [|fuel IH]; intros p Hp Hxp Hf; [lia|]. cbn [toCharRight_loop].
  destruct (Z.eqb_spec (line p) y) as [E|]; cbn [negb]; [|by exists None]. specialize (Hxp E).
  destruct (vt_compare_total p ch Hp) as [b ->]. cbn [mbind option_bind].
  destruct b; [exists (Some p); split; [done|]; by intros q [= <-]|].
  destruct (Z.eqb_spec (column p) (vt_columns t - 1)) as [|Hc]; [by exists None|].
  pose proof Hp as [Hy Hx]. unfold next. zbool. destruct (width_total p Hp) as [w Ew]. rewrite Ew. cbn [mbind option_bind].
  pose proof (vr_width _ Ht p w Hp ltac:(lia) Ew). apply IH; simpl; [unfold in_grid; simpl; lia|lia|lia].
Qed.
Lemma toCharLeft_loop_total ch y x fuel p : - vt_history t < y -> in_grid t p -> (line p = y -> column p < x) -> (Z.to_nat (column p) < fuel)%nat ->
  (line p <> y \/ (S (Z.to_nat (column p)) < fuel)%nat) ->
  exists r, toCharLeft_loop t ch y fuel p = Some r /\ forall q, r = Some q -> in_grid t q /\ line q = y /\ column q < x.
Proof.
  intros Htop. revert p. induction fuel as [|fuel IH]; intros p Hp Hxp Hf Hf'; [lia|]. cbn [toCharLeft_loop].
  destruct (Z.eqb_spec (line p) y) as [E|]; cbn [negb]; [|by exists None]. specialize (Hxp E).
  destruct (vt_compare_total p ch Hp) as [b ->]. cbn [mbind option_bind].
  destruct b; [exists (Some p); split; [done|]; by intros q [= <-]|].
  destruct (prev_total p Hp) as (q & Eq & Hq & Hm). rewrite Eq. cbn [mbind option_bind].
  pose proof Hp as [Hy Hx]. unfold prev in Eq. destruct (Z.ltb_spec 0 (column p)) as [Hc|Hc].
  - injection Eq as <-. apply IH; simpl; [done|lia|lia|right; lia].
  - assert (Hline : line q <> y).
    { destruct Hm as [[Hfst _]|[_ Hlt]]; [rewrite Hfst in E; simpl in E; lia|]. destruct Hq as [_ [? ?]]. unfold rank in Hlt. nia. }
    destruct fuel as [|fuel]; [lia|]. cbn [toCharLeft_loop]. apply Z.eqb_neq in Hline as ->. by exists None.
Qed.

(** The outcome of a search for a character: none, or a cell of the same line
    with [ok]. *)
Definition char_found (y : Z) (ok : CellLocation -> Prop) (r : option CellLocation) : Prop :=
  forall q, r = Some q -> in_grid t q /\ line q = y /\ ok q.
Lemma char_rounds_total f n p (ok : CellLocation -> Prop) : in_grid t p -> 0 < n ->
  (forall q, in_grid t q -> line q = line p -> exists r, f q = Some r /\ char_found (line p) ok r) ->
  exists r, char_rounds f n p = Some r /\ char_found (line p) ok r.
Proof.
  intros Hp Hn Hf. unfold char_rounds. destruct (Z.to_nat n) as [|k] eqn:Ek; [lia|]. cbn [rounds].
  destruct (Hf p Hp eq_refl) as (r & -> & Hr). cbn [mbind option_bind].
  apply (rounds_total (char_found (line p) ok)); [|done]. intros [q|] Hq; [|by exists None].
  destruct (Hq q eq_refl) as (H1' & H2' & _). by apply Hf.
Qed.

Lemma toCharRight_total v n : 1 < vt_columns t -> in_grid t (cursorPosition v) -> 0 < n ->
  exists r, toCharRight t v n = Some r /\ char_found (line (cursorPosition v)) (fun q => 0 < column q) r.
Proof.
  intros Hc Hp Hn. apply char_rounds_total; [done|done|]. intros q Hq El. unfold toCharRight_from.
  destruct (next_total q Hq) as (q' & E & Hq' & Hm). rewrite E. cbn [mbind option_bind]. rewrite El.
  apply toCharRight_loop_total; [done| |destruct Hq'; unfold columns_fuel; lia].
  intros E'. pose proof Hq as [_ Hx]. destruct Hm as [[-> ->]|[_ Hlt]]; [unfold lastAddressable; simpl; lia|].
  destruct Hq' as [_ Hx']. unfold rank in Hlt. assert (line q' = line q) by congruence. nia.
Qed.
Lemma toCharLeft_total v n : in_grid t (cursorPosition v) -> - vt_history t < line (cursorPosition v) -> 0 < n ->
  exists r, toCharLeft t v n = Some r /\ char_found (line (cursorPosition v)) (fun q => column q < vt_columns t - 1) r.
Proof.
  intros Hp Htop Hn. apply char_rounds_total; [done|done|]. intros q Hq El. unfold toCharLeft_from.
  destruct (prev_total q Hq) as (q' & E & Hq' & Hm). rewrite E. cbn [mbind option_bind]. rewrite El.
  assert (Hs : line q' = line (cursorPosition v) -> column q' < vt_columns t - 1).
  { intros E'. destruct Hm as [[-> _]|[_ Hlt]]; [simpl in El; lia|]. destruct Hq as [_ Hx]. destruct Hq' as [_ Hx'].
    unfold rank in Hlt. assert (line q' = line q) by congruence. nia. }
  apply toCharLeft_loop_total; [done|done|done|destruct Hq'; unfold columns_fuel; lia|].
  destruct (decide (line q' = line (cursorPosition v))) as [e|]; [|by left]. right. specialize (Hs e).
  destruct Hq'. unfold columns_fuel. lia.
Qed.

(** Searching to the left ends unless the cursor is on the first line. *)
Definition leftward (m : ViMotion) : bool := match m with TillAfterCharLeft | ToCharLeft => true | _ => false end.
Lemma charMotion_total v m n : 1 < vt_columns t -> in_grid t (cursorPosition v) -> 0 < n ->
  (leftward m = true -> - vt_history t < line (cursorPosition v)) ->
  exists q, charMotion t v m n = Some q /\ in_grid t q.
Proof.
  intros Hc Hp Hn Hl.
  assert (Hsh : forall d r, char_found (line (cursorPosition v)) (fun q => 0 <= column q + d < vt_columns t) r ->
    in_grid t (match r with Some q => mkLoc (line q) (column q + d) | None => cursorPosition v end)).
  { intros d [q|] Hr; [|done]. destruct (Hr q eq_refl) as ([? _] & _ & ?). by split. }
  destruct m; try (by exists (cursorPosition v)); unfold charMotion.
  1, 3: destruct (toCharRight_total v n Hc Hp Hn) as (r & -> & Hr).
  3, 4: destruct (toCharLeft_total v n Hp (Hl eq_refl) Hn) as (r & -> & Hr).
  all: cbn [mbind option_bind]; eexists; (split; [done|]); apply Hsh; intros q Eq; destruct (Hr q Eq) as ([Hy Hx] & ? & ?);
    (split; [by split|]); (split; [done|]); lia.
Qed.

(** ** Motions *)

Definition search_stays : Prop :=
  (forall p q, search_from p = Some q -> in_grid t q) /\ (forall p q, searchReverse_from p = Some q -> in_grid t q).
Lemma search_rounds_total step find n p v : (forall p, in_grid t p -> exists q, step p = Some q /\ in_grid t q) ->
  (forall p q, find p = Some q -> in_grid t q) -> in_grid t p ->
  exists r v', search_rounds t step find n p v = Some (r, v') /\ forall q, r = Some q -> in_grid t q.
Proof.
  intros Hs Hf. revert p v. induction n as [|n IH]; intros p v Hp; cbn [search_rounds].
  - eexists _, _. split; [done|]. by intros q [= <-].
  - destruct (Hs p Hp) as (q & -> & Hq). cbn [mbind option_bind]. cbv zeta. destruct (find q) as [r|] eqn:Ef.
    + apply IH. by apply (Hf q).
    + by eexists _, _.
Qed.
Lemma searched_total v step find n : (forall p, in_grid t p -> exists q, step p = Some q /\ in_grid t q) ->
  (forall p q, find p = Some q -> in_grid t q) -> in_grid t (cursorPosition v) ->
  exists q v', searched t v step find n = Some (q, v') /\ in_grid t q.
Proof.
  intros Hs Hf Hp. unfold searched.
  destruct (search_rounds_total step find (Z.to_nat n) (cursorPosition v) v Hs Hf Hp) as (r & v' & -> & Hr).
  cbn [mbind option_bind fst]. destruct r as [q|]; eexists _, _; (split; [done|]); [by apply Hr|done].
Qed.
Lemma prev_in p : in_grid t p -> exists q, prev t p = Some q /\ in_grid t q.
Proof. intros Hp. destruct (prev_total p Hp) as (q & E & Hq & _). by exists q. Qed.
Lemma next_in p : in_grid t p -> exists q, next t p = Some q /\ in_grid t q.
Proof. intros Hp. destruct (next_total p Hp) as (q & E & Hq & _). by exists q. Qed.

Lemma unrecorded_total v r : (exists q, r = Some q /\ in_grid t q) -> exists q v', unrecorded v r = Some (q, v') /\ in_grid t q.
Proof. intros (q & -> & Hq). by exists q, v. Qed.
Lemma recorded_total v r : (exists q, r = Some q /\ in_grid t q) -> exists q v', recorded v r = Some (q, v') /\ in_grid t q.
Proof. intros (q & -> & Hq). by eexists q, _. Qed.

Lemma bracket_total v : vt_isPrimary t = true -> in_grid t (cursorPosition v) ->
  exists q, findMatchingPairFrom t v (cursorPosition v) = Some q /\ in_grid t q.
Proof.
  intros Hpr Hp. pose proof Hp as [Hy Hx]. destruct (vt_line _ Hy) as (l & El & Hs & (cells & Ec & Hlen) & _).
  unfold findMatchingPairFrom, grid_at, useCellAt. unfold currentGrid in El. rewrite Hpr in El. rewrite El. cbn [mbind option_bind].
  rewrite Ec. cbn [mbind option_bind]. rewrite Hs. zbool.
  destruct (lookup_lt_is_Some_2 cells (Z.to_nat (column (cursorPosition v)))) as [c ->]; [lia|]. cbn [mbind option_bind].
  cbn [andb mbind option_bind]. destruct (cell_codepoints c) as [|a [|]]; [by eexists| |by eexists].
  destruct (matchingPairOfChar a) as [[b []]|]; [by apply pair_right_total|by apply pair_left_total|by eexists].
Qed.

Lemma int_of_small n : 0 <= n < 2 ^ 31 -> int_of n = n.
Proof. intros Hn. unfold int_of. cbv zeta. rewrite Z.mod_small by lia. zbool. done. Qed.

(** The jumps go where the history says; matching brackets are looked up on
    the primary screen; a search to the left needs a line above, also when it
    is repeated. *)
Definition plain_motion v (motion : ViMotion) : Prop :=
  match motion with
  | JumpToLastJumpPoint | JumpToMarkBackward | JumpToMarkForward => False
  | ParenthesisMatching => vt_isPrimary t = true
  | TillAfterCharLeft | ToCharLeft | RepeatCharMove | RepeatCharMoveReverse => - vt_history t < line (cursorPosition v)
  | _ => True
  end.

Lemma motion_total v motion count : 1 < vt_lines t -> 1 < vt_columns t -> search_stays ->
  in_grid t (cursorPosition v) -> 0 <= _scrollOffset (_viewport v) <= vt_history t -> 0 <= _scrollOff (_viewport v) < vt_lines t ->
  0 < count < 2 ^ 31 -> plain_motion v motion ->
  exists q v', translateToCellLocationAndRecord t v motion count = Some (q, v') /\ in_grid t q.
Proof.
  intros Hl Hc [S1 S2] Hp Hso Hsf Hn Hm. destruct vt_range as [Hh _]. pose proof Hp as [Hy Hx].
  assert (Hat : forall y x, - vt_history t <= y < vt_lines t -> 0 <= x < vt_columns t -> in_grid t (mkLoc y x)) by (by split).
  assert (Hhalf : 1 <= vt_lines t / 2 <= vt_lines t - 1).
  { split; [apply Z.div_le_lower_bound; lia|]. assert (vt_lines t / 2 < vt_lines t) by (apply Z.div_lt; lia). lia. }
  destruct motion; cbn [plain_motion] in Hm; unfold translateToCellLocationAndRecord; cbv zeta;
    try (apply unrecorded_total || apply recorded_total); try done.
  all: try (by apply snapToCell_total).
  all: try (apply snapToCell_total, Hat; rewrite ?int_of_small by lia; lia).
  all: try (apply rounds_total; [|done]; first [apply prev_in | apply next_in | exact wordForward_total]).
  all: try (by apply lineTextBegin_total).
  all: try (by apply globalCharUp_total || by apply globalCharDown_total || by apply lineMarkUp_total || by apply lineMarkDown_total).
  all: try (by apply bigWordForward_total || by apply bigWordEndForward_total || by apply bigWordBackward_total).
  all: try (by apply (paragraph_total _ Hp)).
  all: try (eexists _, _; split; [reflexivity|]; done || (apply Hat; rewrite ?int_of_small by lia; lia)).
  all: try (apply searched_total; [first [apply prev_in|apply next_in]|done|done]).
  all: try (apply charMotion_total; [done|done|lia|done]).
  - destruct (rightmost_total (line (cursorPosition v)) Hy) as (x & -> & ?). eexists. split; [done|]. by apply Hat.
  - eexists. split; [done|]. apply Hat; lia.
  - by apply bracket_total.
  - apply rounds_total; [|done]. intros p' Hp'. by apply findBeginOfWordAt_total.
  - apply rounds_total; [|done]. intros _ _. by apply findEndOfWordAt_total.
  - destruct (_lastCharMotion v) as [m|]; [|by eexists _, _]. destruct (isValidCharMove (Some m)); [|by eexists _, _].
    apply unrecorded_total, charMotion_total; [done|done|lia|done].
  - destruct (_lastCharMotion v) as [m|]; [|by eexists _, _]. destruct (isValidCharMove (Some m)); [|by eexists _, _].
    apply unrecorded_total, charMotion_total; [done|done|lia|done].
Qed.

(** Nothing but the jump history, the viewport and the last character motion
    changes; the viewport stays in its bounds. *)
Lemma found_at_viewport r v : @viewport_ok (vi_viewed t) (_viewport v) ->
  @viewport_ok (vi_viewed t) (_viewport (found_at t r v)) /\ _scrollOff (_viewport (found_at t r v)) = _scrollOff (_viewport v).
Proof.
  intros Hv. destruct r as [q|]; [|done]. cbn [found_at _viewport with_viewport].
  pose proof (@run_op_moves (vi_viewed t) (MakeVisibleWithinSafeArea (line q)) (_viewport v)) as M. cbn [run_op] in M.
  destruct (@makeVisibleWithinSafeArea (vi_viewed t) (line q) (_viewport v)) as [[] w]; cbn in M |- *; [|by subst w].
  by destruct M as (? & _ & ?).
Qed.
Lemma search_rounds_viewport step find n p v r v' : @viewport_ok (vi_viewed t) (_viewport v) ->
  search_rounds t step find n p v = Some (r, v') ->
  @viewport_ok (vi_viewed t) (_viewport v') /\ _scrollOff (_viewport v') = _scrollOff (_viewport v).
Proof.
  revert p v. induction n as [|n IH]; intros p v Hv; cbn [search_rounds]; [by intros [= <- <-]|].
  destruct (step p) as [q|]; [|done]. cbn [mbind option_bind]. cbv zeta.
  destruct (found_at_viewport (find q) v Hv) as [F1 F2]. destruct (find q) as [x|] eqn:Ef.
  - intros E. destruct (IH _ _ F1 E) as [G1 G2]. split; [done|]. congruence.
  - intros [= <- <-]. by split.
Qed.
Lemma motion_viewport v motion n q v' : @viewport_ok (vi_viewed t) (_viewport v) ->
  translateToCellLocationAndRecord t v motion n = Some (q, v') ->
  @viewport_ok (vi_viewed t) (_viewport v') /\ _scrollOff (_viewport v') = _scrollOff (_viewport v).
Proof.
  intros Hv.
  assert (Hu : forall r, unrecorded v r = Some (q, v') -> v' = v) by (by intros [x|] [= _ <-]).
  assert (Hr : forall r, recorded v r = Some (q, v') -> _viewport v' = _viewport v) by (by intros [x|] [= _ <-]).
  assert (Hj : forall r, jumped v r = Some (q, v') -> _viewport v' = _viewport v) by (by intros [x|] [= _ <-]).
  assert (Hs : forall step find, searched t v step find n = Some (q, v') ->
    @viewport_ok (vi_viewed t) (_viewport v') /\ _scrollOff (_viewport v') = _scrollOff (_viewport v)).
  { intros step find. unfold searched. destruct (search_rounds _ _ _ _ _ _) as [[r w]|] eqn:E; [|done].
    cbn [mbind option_bind fst snd]. apply search_rounds_viewport in E as [E1 E2]; [|done].
    destruct r; intros [= _ <-]; by split. }
  destruct motion; unfold translateToCellLocationAndRecord; cbv zeta;
    try (intros E; apply Hu in E; by subst v'); try (intros E; apply Hr in E; by rewrite E);
    try (intros E; apply Hj in E; by rewrite E); try (intros [= _ <-]; done); try apply Hs.
  - destruct (_lastCharMotion v) as [m|]; [destruct (isValidCharMove _)|]; intros E; try (by injection E as _ <-).
    apply Hu in E. by subst v'.
  - destruct (_lastCharMotion v) as [m|]; [destruct (isValidCharMove _)|]; intros E; try (by injection E as _ <-).
    apply Hu in E. by subst v'.
  - intros [= _ <-]. cbn [_viewport with_viewport].
    pose proof (@run_op_moves (vi_viewed t) (MakeVisibleWithin (line (cursorPosition v)) (vt_lines t / 2)) (_viewport v)) as M.
    cbn [run_op] in M. destruct (@makeVisibleWithin (vi_viewed t) _ _ _) as [[] w]; cbn in M |- *; [|by subst w].
    by destruct M as (? & _ & ?).
Qed.

End Ready.


(** ** Matching brackets *)

Section Brackets.
Context t (Ht : vi_ready t) (l r : Z) (Hlr : l <> r) (Hl0 : l <> 0) (Hr0 : r <> 0).

(** A cell that holds neither bracket. *)
Definition neither p : Prop := forall b, vt_compareCellTextAt t p l = Some b \/ vt_compareCellTextAt t p r = Some b -> b = false.
(** The cells a wide character covers, and those behind the text of a line,
    hold no brackets. *)
Record blanks : Prop := {
  bl_wide : forall p w k, in_grid t p -> vt_cellWidthAt t p = Some w -> 0 < k < w -> neither (mkLoc (line p) (column p + k));
  bl_behind : forall y x x', - vt_history t <= y < vt_lines t -> getRightMostNonEmptyCellLocation t y = Some (mkLoc y x) -> x < x' < vt_columns t -> neither (mkLoc y x')
}.
Context (Hb : blanks).

Definition loc_at (k : Z) : CellLocation := mkLoc (k / vt_columns t - vt_history t) (k mod vt_columns t).
(** +1 for an opening bracket, -1 for a closing one. *)
Definition weight (k : Z) : Z :=
  match vt_compareCellTextAt t (loc_at k) l, vt_compareCellTextAt t (loc_at k) r with
  | Some true, _ => 1
  | _, Some true => -1
  | _, _ => 0
  end.
(** The depth before cell [n], in reading order from the first line of the history. *)
Fixpoint depth (n : nat) : Z := match n with O => 0 | S n => depth n + weight (Z.of_nat n) end.
Definition depth_at (k : Z) : Z := depth (Z.to_nat k).
Lemma depth_succ k : 0 <= k -> depth_at (k + 1) = depth_at k + weight k.
Proof. intros ?. unfold depth_at. rewrite Z2Nat.inj_add, Nat.add_1_r by lia. cbn [depth]. by rewrite Z2Nat.id. Qed.

Lemma loc_rank p : in_grid t p -> loc_at (rank t p) = p.
Proof.
  intros [Hy Hx]. unfold loc_at, rank. rewrite Z.add_comm, Z.div_add, Z.mod_add, Z.div_small, Z.mod_small by lia.
  destruct p. simpl. f_equal. lia.
Qed.
Lemma rank_inj p q : in_grid t p -> in_grid t q -> rank t p = rank t q -> p = q.
Proof. intros Hp Hq E. by rewrite <- (loc_rank p Hp), <- (loc_rank q Hq), E. Qed.
Lemma weight_rank p : in_grid t p -> weight (rank t p) =
  match vt_compareCellTextAt t p l, vt_compareCellTextAt t p r with Some true, _ => 1 | _, Some true => -1 | _, _ => 0 end.
Proof. intros Hp. unfold weight. by rewrite loc_rank. Qed.
Lemma neither_weight p : in_grid t p -> neither p -> weight (rank t p) = 0.
Proof.
  intros Hp Hn. rewrite weight_rank by done. destruct (vt_compare_total t Ht p l Hp) as [b1 E1].
  destruct (vt_compare_total t Ht p r Hp) as [b2 E2]. rewrite E1, E2.
  rewrite (Hn b1), (Hn b2) by auto. done.
Qed.
Lemma compare_one p ch : ch <> 0 -> vt_compareCellTextAt t p ch = Some true ->
  exists c, vt_cell t p = Some c /\ cell_codepoints c = [ch].
Proof.
  intros H0'. unfold vt_compareCellTextAt. destruct (vt_cell t p) as [c|]; [|done]. cbn [mbind option_bind]. intros [= E].
  exists c. split; [done|]. unfold compareText in E. destruct (cell_codepoints c) as [|a [|]]; [|apply Z.eqb_eq in E; congruence|done].
  apply Z.eqb_eq in E. congruence.
Qed.
Lemma compare_both p : vt_compareCellTextAt t p l = Some true -> vt_compareCellTextAt t p r = Some true -> False.
Proof. intros (c & Ec & E1)%compare_one (c' & Ec' & E2)%compare_one; [congruence|done|done]. Qed.

(** The cells between neighbours have no weight. *)
Lemma depth_flat a b : 0 <= a -> a <= b -> (forall k, a <= k < b -> weight k = 0) -> depth_at b = depth_at a.
Proof.
  intros Ha Hab Hw. replace b with (a + Z.of_nat (Z.to_nat (b - a))) by lia.
  assert (Hn : Z.of_nat (Z.to_nat (b - a)) <= b - a) by lia. revert Hn. generalize (Z.to_nat (b - a)) as n.
  induction n as [|n IH]; intros Hn; [f_equal; lia|].
  replace (a + Z.of_nat (S n)) with (a + Z.of_nat n + 1) by lia. rewrite depth_succ by lia. rewrite IH by lia.
  rewrite Hw by lia. lia.
Qed.
Lemma weight_at y x : - vt_history t <= y < vt_lines t -> 0 <= x < vt_columns t -> neither (mkLoc y x) ->
  weight ((y + vt_history t) * vt_columns t + x) = 0.
Proof. intros Hy Hx Hn. apply (neither_weight (mkLoc y x)); [by split|done]. Qed.

Lemma next_flat p q : in_grid t p -> next t p = Some q -> rank t p < rank t q ->
  forall k, rank t p < k < rank t q -> weight k = 0.
Proof.
  intros Hp E Hlt k Hk. pose proof Hp as [Hy Hx]. unfold next in E. destruct (Z.ltb_spec (column p) (vt_columns t - 1)) as [Hc|Hc].
  - destruct (width_total t Ht p Hp) as [w Ew]. rewrite Ew in E. cbn [mbind option_bind] in E. injection E as <-.
    pose proof (vr_width _ Ht p w Hp Hc Ew) as Hw. unfold rank in Hk. simpl in Hk.
    replace k with ((line p + vt_history t) * vt_columns t + (column p + (k - rank t p))) by (unfold rank; lia).
    apply weight_at; [done|unfold rank; lia|]. apply (bl_wide Hb p w); [done|done|unfold rank; lia].
  - destruct (line p <? vt_lines t - 1); injection E as <-; [|lia]. unfold rank in Hk. simpl in Hk. nia.
Qed.
Lemma prev_flat p q : in_grid t p -> prev t p = Some q -> rank t q < rank t p ->
  forall k, rank t q < k < rank t p -> weight k = 0.
Proof.
  intros Hp E Hlt k Hk. pose proof Hp as [Hy Hx]. unfold prev in E. destruct (Z.ltb_spec 0 (column p)) as [Hc|Hc].
  - injection E as <-. unfold rank in Hk. simpl in Hk. lia.
  - rewrite prev_top in E by done. destruct (Z.ltb_spec (- vt_history t) (line p)) as [Htop|]; [|injection E as <-; lia].
    destruct (rightmost_total t Ht (line p - 1)) as (x & Er & Hxr); [lia|]. rewrite Er in E. cbn [mbind option_bind line column] in E.
    assert (Hq : line q = line p - 1 /\ x <= column q).
    { destruct (x + 1 <? vt_columns t); injection E as <-; simpl; lia. }
    destruct Hq as [Hq1 Hq2]. unfold rank in Hk. rewrite Hq1 in Hk. assert (column p = 0) by lia.
    replace k with ((line p - 1 + vt_history t) * vt_columns t + (k - (line p - 1 + vt_history t) * vt_columns t)) by lia.
    apply weight_at; [lia|nia|]. apply (bl_behind Hb _ x); [lia|done|nia].
Qed.

(** The bracket at [i] opens, the one at [j] closes it: the depth is back for
    the first time behind [j]. *)
Record matched (i j : CellLocation) : Prop := {
  ma_i : in_grid t i;
  ma_j : in_grid t j;
  ma_left : vt_compareCellTextAt t i l = Some true;
  ma_right : vt_compareCellTextAt t j r = Some true;
  ma_order : rank t i < rank t j;
  ma_balance : depth_at (rank t j + 1) = depth_at (rank t i);
  ma_inside : forall k, rank t i < k <= rank t j -> depth_at (rank t i) < depth_at k
}.

(** One step of either walk: the depth follows the weight of the cell. *)
Lemma pair_step_spec step up down sign a d : in_grid t a ->
  (up = l /\ down = r /\ sign = 1 \/ up = r /\ down = l /\ sign = -1) ->
  pair_step t step up down (a, d, false) =
    let d' := d + sign * weight (rank t a) in
    if negb (weight (rank t a) =? 0) && (d' =? 0) then Some (a, d', true)
    else a' ← step a; Some (if bool_decide (a' = a) then (a, d', true) else (a', d', false)).
Proof.
  intros Ha Hs. unfold pair_step. rewrite weight_rank by done. pose proof (compare_both a) as Hx.
  destruct (vt_compare_total t Ht a l Ha) as [b1 E1]. destruct (vt_compare_total t Ht a r Ha) as [b2 E2].
  rewrite E1, E2 in Hx.
  destruct Hs as [(-> & -> & ->)|(-> & -> & ->)]; rewrite ?E1, ?E2; cbn [mbind option_bind]; rewrite ?E1, ?E2;
    destruct b1, b2; try (exfalso; by apply Hx); cbn [mbind option_bind orb andb negb Z.eqb Z.mul Z.add Z.opp];
    rewrite ?E1, ?E2; cbn [mbind option_bind orb andb negb]; rewrite ?Z.add_0_r; try done.
Qed.

Lemma pair_right i j : matched i j -> pair_walk t (next t) l r i 0 = Some j.
Proof.
  intros [Hi Hj Hl' Hr' Hlt Hbal Hin]. unfold pair_walk.
  set (I := fun s : CellLocation * Z * bool => in_grid t s.1.1 /\
    if s.2 then s.1.1 = j
    else rank t i <= rank t s.1.1 <= rank t j /\ s.1.2 = depth_at (rank t s.1.1) - depth_at (rank t i)).
  destruct (while_total I (fun s => if s.2 then O else S (to_last t s.1.1)) (fun s => Some (negb s.2)) (pair_step t (next t) l r))
    with (fuel := cells_fuel t) (s := (i, 0, false)) as ([[a d] o] & -> & [Ha Ho] & Hc).
  - intros [[a d] o] [Ha Ho]. cbn [fst snd] in *. eexists. split; [done|]. destruct o; [done|]. intros _. destruct Ho as [Hra Ed].
    rewrite (pair_step_spec _ _ _ 1) by (done || by left). cbv zeta. rewrite Z.mul_1_l.
    pose proof (rank_range t a Ha) as R. rewrite Ed.
    replace (depth_at (rank t a) - depth_at (rank t i) + weight (rank t a))
      with (depth_at (rank t a + 1) - depth_at (rank t i)) by (rewrite depth_succ by lia; lia).
    destruct (Z.eq_dec (rank t a) (rank t j)) as [Ea|Ea].
    + assert (a = j) as -> by (by apply rank_inj). rewrite Hbal, Z.sub_diag.
      assert (weight (rank t j) = -1) as ->.
      { rewrite weight_rank, Hr' by done. destruct (vt_compareCellTextAt t j l) as [[]|] eqn:E; [|done|done]. by destruct (compare_both j). }
      cbn. eexists. split; [done|]. unfold I. cbn. by split; [|lia].
    + pose proof (Hin (rank t a + 1) ltac:(lia)) as Hpos. assert ((depth_at (rank t a + 1) - depth_at (rank t i) =? 0) = false) as -> by (apply Z.eqb_neq; lia).
      rewrite andb_false_r. destruct (next_total t Ht a Ha) as (q & Eq & Hq & Hm). rewrite Eq. cbn [mbind option_bind].
      destruct Hm as [[Ela _]|[_ Hlt']].
      { exfalso. rewrite Ela in Hra, Ea. destruct Hj as [Hjy Hjx]. unfold rank, lastAddressable in Hra, Ea. simpl in Hra, Ea. nia. }
      rewrite bool_decide_false by (intros ->; lia). eexists. split; [done|]. unfold I. cbn [fst snd].
      pose proof (next_flat a q Ha Eq Hlt') as Hflat. assert (rank t q <= rank t j).
      { destruct (Z.le_gt_cases (rank t q) (rank t j)); [done|]. exfalso.
        assert (weight (rank t j) = 0) as W by (apply Hflat; lia). rewrite weight_rank, Hr' in W by done.
        destruct (vt_compareCellTextAt t j l) as [[]|]; done. }
      split; [split; [done|]; split; [lia|]|].
      * rewrite (depth_flat (rank t a + 1) (rank t q)); [done|lia|lia|]. intros k ?. apply Hflat. lia.
      * pose proof (rank_range t q Hq). unfold to_last. lia.
  - unfold I. cbn. split; [done|]. split; [lia|lia].
  - cbn. by apply to_last_fuel.
  - cbn [fst snd mbind option_bind] in *. injection Hc as Hc. apply negb_false_iff in Hc. subst o. by rewrite Ho.
Qed.

Lemma pair_left i j : matched i j -> pair_walk t (prev t) r l j 0 = Some i.
Proof.
  intros [Hi Hj Hl' Hr' Hlt Hbal Hin]. unfold pair_walk.
  set (I := fun s : CellLocation * Z * bool => in_grid t s.1.1 /\
    if s.2 then s.1.1 = i
    else rank t i <= rank t s.1.1 <= rank t j /\ s.1.2 = depth_at (rank t s.1.1 + 1) - depth_at (rank t i)).
  destruct (while_total I (fun s => if s.2 then O else S (from_first t s.1.1)) (fun s => Some (negb s.2)) (pair_step t (prev t) r l))
    with (fuel := cells_fuel t) (s := (j, 0, false)) as ([[a d] o] & -> & [Ha Ho] & Hc).
  - intros [[a d] o] [Ha Ho]. cbn [fst snd] in *. eexists. split; [done|]. destruct o; [done|]. intros _. destruct Ho as [Hra Ed].
    rewrite (pair_step_spec _ _ _ (-1)) by (done || by right). cbv zeta.
    pose proof (rank_range t a Ha) as R. rewrite Ed.
    replace (depth_at (rank t a + 1) - depth_at (rank t i) + -1 * weight (rank t a))
      with (depth_at (rank t a) - depth_at (rank t i)) by (rewrite depth_succ by lia; lia).
    destruct (Z.eq_dec (rank t a) (rank t i)) as [Ea|Ea].
    + assert (a = i) as -> by (by apply rank_inj). rewrite Z.sub_diag.
      assert (weight (rank t i) = 1) as -> by (by rewrite weight_rank, Hl').
      cbn. eexists. split; [done|]. unfold I. cbn. by split; [|lia].
    + pose proof (Hin (rank t a) ltac:(lia)) as Hpos. assert ((depth_at (rank t a) - depth_at (rank t i) =? 0) = false) as -> by (apply Z.eqb_neq; lia).
      rewrite andb_false_r. destruct (prev_total t Ht a Ha) as (q & Eq & Hq & Hm). rewrite Eq. cbn [mbind option_bind].
      destruct Hm as [[Ela _]|[_ Hlt']].
      { exfalso. rewrite Ela in Hra, Ea. destruct Hi as [Hiy Hix]. unfold rank, firstAddressable in Hra, Ea. simpl in Hra, Ea. nia. }
      rewrite bool_decide_false by (intros ->; lia). eexists. split; [done|]. unfold I. cbn [fst snd].
      pose proof (prev_flat a q Ha Eq Hlt') as Hflat. assert (rank t i <= rank t q).
      { destruct (Z.le_gt_cases (rank t i) (rank t q)); [done|]. exfalso.
        assert (weight (rank t i) = 0) as W by (apply Hflat; lia). by rewrite weight_rank, Hl' in W by done. }
      pose proof (rank_range t q Hq).
      split; [split; [done|]; split; [lia|]|].
      * rewrite <- (depth_flat (rank t q + 1) (rank t a)); [done|lia|lia|]. intros k ?. apply Hflat. lia.
      * unfold from_first. lia.
  - unfold I. cbn. split; [done|]. split; [lia|]. rewrite Hbal. lia.
  - cbn. by apply from_first_fuel.
  - cbn [fst snd mbind option_bind] in *. injection Hc as Hc. apply negb_false_iff in Hc. subst o. by rewrite Ho.
Qed.

End Brackets.

Lemma percent_cell t v p ch : vi_ready t -> vt_isPrimary t = true -> in_grid t p -> ch <> 0 ->
  vt_compareCellTextAt t p ch = Some true ->
  findMatchingPairFrom t (with_cursorPosition p v) p =
    match matchingPairOfChar ch with
    | Some (b, true) => pair_walk t (next t) ch b p 0
    | Some (b, false) => pair_walk t (prev t) ch b p 0
    | None => Some p
    end.
Proof.
  intros Ht Hpr Hp H0' (c & Ec & E)%compare_one; [|done]. pose proof Hp as [Hy Hx].
  destruct (vt_line t Ht _ Hy) as (ln & El & Hs & (cells & Ei & Hlen) & _).
  unfold vt_cell in Ec. rewrite El in Ec. cbn [mbind option_bind] in Ec. rewrite Ei in Ec. cbn [mbind option_bind] in Ec.
  assert ((0 <=? column p) = true) as Hcol by (apply Z.leb_le; lia). rewrite Hcol in Ec.
  unfold findMatchingPairFrom, grid_at, useCellAt. cbn [cursorPosition with_cursorPosition].
  unfold currentGrid in El. rewrite Hpr in El. rewrite El. cbn [mbind option_bind]. rewrite Ei. cbn [mbind option_bind].
  rewrite Hs, Hcol. assert ((column p <=? vt_columns t) = true) as -> by (apply Z.leb_le; lia). cbn [andb]. rewrite Ec.
  cbn [mbind option_bind]. by rewrite E.
Qed.

Lemma pair_chars l r : (l, r) ∈ bracket_pairs -> l <> r /\ l <> 0 /\ r <> 0 /\
  matchingPairOfChar l = Some (r, true) /\ matchingPairOfChar r = Some (l, false).
Proof.
  intros Hin. unfold bracket_pairs in Hin. repeat (apply elem_of_cons in Hin as [[= -> ->]|Hin]; [done|]). by apply not_elem_of_nil in Hin.
Qed.

(** On the primary screen, % at an opening bracket goes to the bracket that
    closes it - across lines and history, over any brackets nested in between -
    and % there comes back, provided that the cells covered by wide characters
    and those behind the text of a line hold no brackets. *)
Lemma percent_roundtrip t v l r i j : vi_ready t -> vt_isPrimary t = true -> (l, r) ∈ bracket_pairs ->
  blanks t l r -> matched t l r i j ->
  translateToCellLocationAndRecord t (with_cursorPosition i v) ParenthesisMatching 1 = Some (j, with_cursorPosition i v) /\
  translateToCellLocationAndRecord t (with_cursorPosition j v) ParenthesisMatching 1 = Some (i, with_cursorPosition j v).
Proof.
  intros Ht Hpr Hin Hb Hm. destruct (pair_chars l r Hin) as (Hlr & Hl0 & Hr0 & El & Er). pose proof Hm as [Hi Hj Ci Cj _ _ _].
  unfold translateToCellLocationAndRecord. cbn [cursorPosition with_cursorPosition]. cbv zeta.
  rewrite (percent_cell t v i l), (percent_cell t v j r), El, Er by done.
  rewrite (pair_right t Ht l r Hlr Hl0 Hr0 Hb i j Hm), (pair_left t Ht l r Hlr Hl0 Hr0 Hb i j Hm). done.
Qed.

(** At the first cell of the grid the search to the left does not end. *)
Lemma toCharLeft_endless t ch p fuel : prev t p = Some p -> vt_compareCellTextAt t p ch = Some false ->
  toCharLeft_loop t ch (line p) fuel p = None.
Proof.
  intros Ep Ec. induction fuel as [|fuel IH]; cbn [toCharLeft_loop]; [done|].
  rewrite Z.eqb_refl, Ec. cbn [negb mbind option_bind]. rewrite Ep. exact IH.
Qed.

End ViCommands.

(** ** Concrete cases *)

Module Examples.

#[local] Instance wide_from_hangul : UnicodeWidth := fun ch => if ch <? 0x1100 then 1 else 2.
#[local] Instance per_char : GraphemeSegmenter := fun _ _ => true.
#[local] Existing Instance latin1.
#[local] Instance no_categories : GeneralCategory := {|
  space_separator := fun _ => false; initial_punctuation := fun _ => false; final_punctuation := fun _ => false;
  open_punctuation := fun _ => false; close_punctuation := fun _ => false; dash_punctuation := fun _ => false |}.
#[local] Instance ascii_only : Utf8Encoder := fun c => [c].
#[local] Instance nothing_found : ViSearch := {| search_from := fun _ => None; searchReverse_from := fun _ => None |}.
#[local] Instance no_selection : SelectionHelper := {|
  page_lines := 2; page_columns := 6; wordDelimited := fun _ => false; wrappedLine := fun _ => false; cellWidth := fun _ => 1 |}.

Definition text_line (s : list Z) : Line SimpleCell.t :=
  mkLine LineFlag.None_ (Trivial (mkTrivial 6 Attrs_init Attrs_init 0 (Z.of_nat (length s)) s)).
(** The lines of a page of two, with the rest above it as history. *)
Definition text_grid (page above : list (Line SimpleCell.t)) : Grid SimpleCell.t :=
  mkGrid (mkPageSize 2 6) false (LimitedTo 4) (mk_ring (page ++ above) 0) (Z.of_nat (length (page ++ above))).
Definition blank_screen : Grid SimpleCell.t := text_grid [text_line []; text_line []] [].
Definition screen (g : Grid SimpleCell.t) : ViTerminal SimpleCell.t := mk_viterminal g blank_screen true (mkPageSize 2 6) [0x20].
Definition at_cell (y x : Z) : ViCommands := mk_vicommands (mkLoc y x) 0 None Jump.JumpHistory_init (mk_viewport 0 0).

(** [f(a[b] above [])] and [x y]. *)
Definition code : ViTerminal SimpleCell.t := screen (text_grid [text_line (bytes "])"); text_line (bytes "x y")] [text_line (bytes "f(a[b")]).

Lemma code_cells (P : CellLocation -> Prop) :
  (forall y x, y ∈ [-1; 0; 1] -> x ∈ [0; 1; 2; 3; 4; 5] -> P (mkLoc y x)) -> forall p, in_grid code p -> P p.
Proof.
  intros HP [y x] [Hy Hx]. change (-1 <= y < 2) in Hy. change (0 <= x < 6) in Hx. apply HP; set_unfold; lia.
Qed.

Lemma code_ready : vi_ready code.
Proof.
  split.
  - split; unfold ring_ok, size; simpl; lia.
  - reflexivity.
  - reflexivity.
  - unfold contents, history, page. vm_compute. repeat constructor; try (eexists; split; reflexivity); done.
  - discriminate.
  - intros p w Hp Hc E. revert p Hp Hc E. apply (code_cells (fun p => column p < _ -> vt_cellWidthAt code p = Some w -> column p + Z.max 1 w < _)).
    intros y x Hy Hx Hc E. change (vt_columns code) with 6 in *. simpl in Hc |- *. cut (w = 1); [intros ->; lia|].
    set_unfold in Hy. set_unfold in Hx. clear Hc. destruct_or! Hy; destruct_or! Hx; subst; vm_compute in E; by injection E as <-.
Qed.

Lemma code_blanks l r : l <> 0 -> r <> 0 -> blanks code l r.
Proof.
  intros Hl Hr. split.
  - intros p w k Hp E Hk. exfalso. cut (w = 1); [lia|]. revert p Hp E.
    apply (code_cells (fun p => vt_cellWidthAt code p = Some w -> w = 1)). intros y x Hy Hx E.
    set_unfold in Hy. set_unfold in Hx. destruct_or! Hy; destruct_or! Hx; subst; vm_compute in E; by injection E as <-.
  - intros y x x' Hy E Hx'. change (-1 <= y < 2) in Hy. change (vt_columns code) with 6 in Hx'.
    assert (y = -1 \/ y = 0 \/ y = 1) as Hy' by lia.
    destruct_or! Hy'; subst y; vm_compute in E; injection E as <-; clear Hy;
      (assert (x' = 1 \/ x' = 2 \/ x' = 3 \/ x' = 4 \/ x' = 5) as Hc by lia); destruct_or! Hc; subst x'; try lia;
      intros b [E|E]; unfold vt_compareCellTextAt in E; vm_compute in E; injection E as <-; first [by destruct l|by destruct r].
Qed.


Definition goes (t : ViTerminal SimpleCell.t) (v : ViCommands) (m : ViMotion) (count : Z) : option CellLocation :=
  fst <$> translateToCellLocationAndRecord t v m count.

(** The motions [w], [b], [f], [gg], [G] on the sample. *)
Example sample_motions :
  goes code (at_cell (-1) 0) WordForward 1 = Some (mkLoc (-1) 1) /\
  goes code (at_cell 1 2) WordBackward 1 = Some (mkLoc 1 0) /\
  goes code (with_charMotion ToCharRight 0x62 (at_cell (-1) 0)) ToCharRight 1 = Some (mkLoc (-1) 4) /\
  goes code (at_cell 1 2) FileBegin 1 = Some (mkLoc (-1) 0) /\ goes code (at_cell 0 1) FileEnd 1 = Some (mkLoc 1 0).
Proof. vm_compute. split_and!; reflexivity. Qed.

(** [2e] is [e]. *)
Example word_end_ignores_count :
  goes (screen (text_grid [text_line (bytes "a b c"); text_line []] [])) (at_cell 0 0) WordEndForward 2 =
  goes (screen (text_grid [text_line (bytes "a b c"); text_line []] [])) (at_cell 0 0) WordEndForward 1.
Proof. vm_compute. reflexivity. Qed.

(** [F] on the first line does not end if the character is not there. *)
Example search_left_endless fuel : toCharLeft_loop code 0x7A (-1) fuel (mkLoc (-1) 0) = None.
Proof. apply (toCharLeft_endless code 0x7A (mkLoc (-1) 0)); reflexivity. Qed.

(** A wide character in the last two columns: the motion to the right leaves
    the page. *)
Definition wide_cell (ch : Z) : SimpleCell.t := SimpleCell.mk [ch] Attrs_init 2 0 None.
Definition wide_line : Line SimpleCell.t :=
  mkLine LineFlag.None_ (Inflated (replicate 4 SimpleCell.init ++ [wide_cell 0xAC00; SimpleCell.init])).
Example wide_at_margin :
  goes (screen (text_grid [text_line []; wide_line] [])) (at_cell 1 4) CharRight 1 = Some (mkLoc 1 6) /\
  goes (screen (text_grid [text_line []; wide_line] [])) (at_cell 1 4) WordForward 1 = None.
Proof. vm_compute. auto. Qed.

(** A count of 2^32 - 1 moves down by -1. *)
Example huge_count : goes (screen blank_screen) (at_cell 0 0) LineDown (2 ^ 32 - 1) = Some (mkLoc (-1) 0).
Proof. vm_compute. reflexivity. Qed.

(** Brackets of the alternate screen are looked up on the primary one. *)
Example alternate_brackets :
  let g := text_grid [text_line (bytes "(a)"); text_line []] [] in
  goes (screen g) (at_cell 0 0) ParenthesisMatching 1 = Some (mkLoc 0 2) /\
  goes (mk_viterminal blank_screen g false (mkPageSize 2 6) []) (at_cell 0 0) ParenthesisMatching 1 = Some (mkLoc 0 0).
Proof. vm_compute. auto. Qed.

(** With the default margin of eight lines [H] leaves a smaller page. *)
Example page_top_off_page :
  goes (screen blank_screen) (with_viewport Viewport_init (at_cell 0 0)) PageTop 1 = Some (mkLoc 8 0).
Proof. vm_compute. reflexivity. Qed.

(** Searching on from the last column starts behind the line. *)
Example search_behind_line : after_cursor (screen blank_screen) (mkLoc 0 5) = mkLoc 0 6.
Proof. reflexivity. Qed.

End Examples.
