(* ===== verification/CLI.v ===== *)
(** * Command line arguments (src/crispy/CLI.h, CLI.cpp)

    The tree of commands with their options, and [parse]: defaults, options in
    their four notations, subcommands named or implicit, verbatim arguments,
    and the check for required options.  Arguments are lists of bytes; the
    values are a finite map from dotted names.  An exception is the left side
    of a sum.  [std::stod] is a parameter.  Help texts are left out. *)
From Stdlib Require Import String.
From stdpp Require Import list gmap.
From S2P Require Import Prelude Color Text.

Module Cli.

(** ** Data *)

Definition name := list Z.

Section Value.
Context {D : Type}.
Inductive value := VInt (z : Z) | VUint (z : Z) | VString (s : name) | VDouble (d : D) | VBool (b : bool).
End Value.
Arguments value : clear implicits.

Inductive presence := Optional | Required.
#[export] Instance presence_eq_dec : EqDecision presence.
Proof. solve_decision. Defined.

Record cli_option (D : Type) := mk_option {
  shortName : Z;
  longName : name;
  option_value : value D;
  option_presence : presence
}.
Arguments mk_option {D}.
Arguments shortName {D}.
Arguments longName {D}.
Arguments option_value {D}.
Arguments option_presence {D}.

Inductive command_select := Explicit | Implicit.
#[export] Instance command_select_eq_dec : EqDecision command_select.
Proof. solve_decision. Defined.

Inductive command (D : Type) := mk_command {
  command_name : name;
  command_options : list (cli_option D);
  children : list (command D);
  command_selection : command_select;
  command_verbatim : bool
}.
Arguments mk_command {D}.
Arguments command_name {D}.
Arguments command_options {D}.
Arguments children {D}.
Arguments command_selection {D}.
Arguments command_verbatim {D}.

Record flag_store (D : Type) := mk_store { values : gmap name (value D); verbatim : list name }.
Arguments mk_store {D}.
Arguments values {D}.
Arguments verbatim {D}.

(** The exceptions: [parser_error], [std::invalid_argument] for a missing
    option, [std::out_of_range] and [std::bad_variant_access] of the store. *)
Inductive cli_error := ParserError (what : list Z) | MissingOption (key : name) | OutOfRange (key : name) | BadVariant (key : name).

Definition result (A : Type) : Type := cli_error + A.
Definition ok {A} (a : A) : result A := inr a.
Definition throw {A} (e : cli_error) : result A := inl e.
#[export] Instance result_bind : MBind (sum cli_error) :=
  fun A B f r => match r with inl e => inl e | inr a => f a end.

Lemma mbind_ok {A B} (f : A -> result B) (a : A) : mbind f (ok a) = f a.
Proof. done. Qed.

(** [std::stod] *)
Class Stod (D : Type) := stod : list Z -> option D.

(** ** Numbers of the C library *)

Fixpoint leading_digits (s : list Z) : list Z :=
  match s with
  | c :: s => if (0x30 <=? c) && (c <=? 0x39) then c :: leading_digits s else []
  | [] => []
  end.
(** White space, a sign, digits as far as they go: the sign and the digits. *)
Definition scan_number (s : list Z) : bool * list Z :=
  match skip_space s with
  | c :: s => if c =? 0x2D then (true, leading_digits s)
              else if c =? 0x2B then (false, leading_digits s) else (false, leading_digits (c :: s))
  | [] => (false, [])
  end.
(** [std::stoi] and [std::stoul]; [None] is [invalid_argument] or [out_of_range]. *)
Definition stoi (s : list Z) : option Z :=
  let '(negative, ds) := scan_number s in
  let v := if negative then - decimal ds else decimal ds in
  match ds with
  | [] => None
  | _ => if (- 2 ^ 31 <=? v) && (v <? 2 ^ 31) then Some v else None
  end.
Definition stoul (s : list Z) : option Z :=
  let '(negative, ds) := scan_number s in
  match ds with
  | [] => None
  | _ => if decimal ds <? 2 ^ 64 then Some (if negative then u64 (- decimal ds) else decimal ds) else None
  end.

(** ** Parsing *)

(** The arguments from [pos] on and the output; the stack of commands is an
    argument of the functions that use it. *)
Record parse_context (D : Type) := mk_context { rest : list name; output : flag_store D }.
Arguments mk_context {D}.
Arguments rest {D}.
Arguments output {D}.

Section Parse.
Context {D : Type} `{Stod D}.
Abbreviation value := (value D).
Abbreviation option_t := (cli_option D).
Abbreviation command := (command D).
Abbreviation context := (parse_context D).
Implicit Types (c : context) (o : option_t) (com : command).

Definition dot : list Z := [0x2E].
Fixpoint join (l : list name) : name :=
  match l with
  | [] => []
  | [n] => n
  | n :: l => n ++ dot ++ join l
  end.
(** The names of the stack, outermost first. *)
Definition namePrefix (currentCommand : list command) : name := join (command_name <$> currentCommand).

Definition currentToken c : name := default [] (head (rest c)).
Definition isTrue (token : name) : bool := bool_decide (token = bytes "true") || bool_decide (token = bytes "yes").
Definition isFalse (token : name) : bool := bool_decide (token = bytes "false") || bool_decide (token = bytes "no").
Fixpoint matchPrefix (text prefix : list Z) {struct prefix} : bool :=
  match prefix, text with
  | [], _ => true
  | p :: prefix, t :: text => (t =? p) && matchPrefix text prefix
  | _ :: _, [] => false
  end.

Definition names o (n : name) : bool := bool_decide (n = longName o) || bool_decide (n = [shortName o]).
Definition findOption com (n : name) : option option_t := List.find (fun o => names o n) (command_options com).

Definition consumeToken c : result (name * context) :=
  match rest c with
  | [] => throw (ParserError (bytes "Not enough arguments specified."))
  | token :: l => ok (token, mk_context l (output c))
  end.

Definition is_bool (v : value) : bool := match v with VBool _ => true | _ => false end.
Definition is_string (v : value) : bool := match v with VString _ => true | _ => false end.
(** [parseValue(context, text)] *)
Definition parseText o (text : name) : result value :=
  match option_value o with
  | VBool _ =>
      if isTrue text then ok (VBool true)
      else if isFalse text then ok (VBool false)
      else throw (ParserError (bytes "Boolean value expected but something else specified."))
  | VDouble _ =>
      match stod text with
      | Some d => ok (VDouble d)
      | None => throw (ParserError (bytes "Floating point value expected but something else specified."))
      end
  | VUint _ =>
      match stoul text with
      | Some v => ok (VUint (u32 v))
      | None => throw (ParserError (bytes "Unsigned integer value expected but something else specified."))
      end
  | VInt _ =>
      match stoi text with
      | Some v => ok (VInt v)
      | None => throw (ParserError (bytes "Integer value expected but something else specified."))
      end
  | VString _ => ok (VString text)
  end.
(** [parseValue(context)] *)
Definition parseValue o c : result (value * context) :=
  if is_bool (option_value o) then
    let text := currentToken c in
    if isTrue text then '(_, c) ← consumeToken c; ok (VBool true, c)
    else if isFalse text then '(_, c) ← consumeToken c; ok (VBool false, c)
    else ok (VBool true, c)
  else '(text, c) ← consumeToken c; v ← parseText o text; ok (v, c).

Definition is_empty (s : name) : bool := match s with [] => true | _ => false end.
(** [find('=')] *)
Fixpoint find_equal (s : list Z) : option nat :=
  match s with
  | [] => None
  | ch :: s => if ch =? 0x3D then Some O else S <$> find_equal s
  end.

(** An option by its name, with the value in the next token. *)
Definition named_option com (n : name) c : result (option (option_t * value) * context) :=
  match findOption com n with
  | Some o => '(_, c) ← consumeToken c; '(v, c) ← parseValue o c; ok (Some (o, v), c)
  | None => ok (None, c)
  end.
Definition tryParseOption com c : result (option (option_t * value) * context) :=
  let current := currentToken c in
  if matchPrefix current [0x2D; 0x2D] then
    match find_equal current with
    | Some i =>
        let n := take (i - 2) (drop 2 current) in
        let valueText := drop (i + 1) current in
        match findOption com n with
        | Some o =>
            '(_, c) ← consumeToken c;
            if is_empty valueText && negb (is_string (option_value o))
            then throw (ParserError (bytes "Explicit empty value passed but a non-string value expected."))
            else v ← parseText o valueText; ok (Some (o, v), c)
        | None => ok (None, c)
        end
    | None => named_option com (drop 2 current) c
    end
  else if matchPrefix current [0x2D] then named_option com (drop 1 current) c
  else named_option com current c.

Definition setOption (key : name) (v : value) c : context :=
  mk_context (rest c) (mk_store (<[key := v]> (values (output c))) (verbatim (output c))).
Definition option_key (prefix : name) o : name := prefix ++ dot ++ longName o.

(** One round consumes a token at least. *)
Fixpoint parseOptions (fuel : nat) (prefix : name) com c : result context :=
  match fuel with
  | O => ok c
  | S fuel =>
      '(r, c) ← tryParseOption com c;
      match r with
      | Some (o, v) => parseOptions fuel prefix com (setOption (option_key prefix o) v c)
      | None => ok c
      end
  end.
Definition parseOptionList (stack : list command) com c : result context :=
  parseOptions (S (length (rest c))) (namePrefix stack) com c.

Fixpoint prefillDefaults (stack : list command) com c : context :=
  let stack := stack ++ [com] in
  let prefix := namePrefix stack in
  let c := foldl (fun c o => match option_presence o with
                             | Required => c
                             | Optional => setOption (option_key prefix o) (option_value o) c
                             end) c (command_options com) in
  (fix go (l : list command) (c : context) : context :=
     match l with
     | [] => c
     | sub :: l => go l (prefillDefaults stack sub (setOption (prefix ++ dot ++ command_name sub) (VBool false) c))
     end) (children com) c.

Definition add_verbatim (l : list name) c : context :=
  mk_context [] (mk_store (values (output c)) (verbatim (output c) ++ l)).
(** The name of a subcommand, with or without two dashes. *)
Definition command_token (token : name) : name := if matchPrefix token [0x2D; 0x2D] then drop 2 token else token.

(** [tryLookupCommand] and [tryImplicitCommand] with the call for the command
    they find. *)
Definition with_child {A} (p : command -> bool) (k : command -> A) : list command -> option A :=
  fix go l := match l with [] => None | sub :: l => if p sub then Some (k sub) else go l end.
Definition named_by c (sub : command) : bool := bool_decide (command_token (currentToken c) = command_name sub).
Definition is_implicit (sub : command) : bool := bool_decide (command_selection sub = Implicit).

Fixpoint parseCommand (stack : list command) com c : result context :=
  let stack := stack ++ [com] in
  let key := namePrefix stack in
  c ← parseOptionList stack com (setOption key (VBool true) c);
  c ← match with_child (named_by c) (fun sub => '(_, c) ← consumeToken c; parseCommand stack sub c) (children com) with
       | Some r => r
       | None =>
           match with_child is_implicit (fun sub => parseCommand stack sub c) (children com) with
           | Some r => r
           | None =>
               if command_verbatim com then
                 match rest c with
                 | [] => ok c
                 | token :: l => ok (add_verbatim (if bool_decide (token = [0x2D; 0x2D]) then l else token :: l) c)
                 end
               else ok c
           end
       end;
  ok (match rest c with [] => setOption key (VBool true) c | _ => c end).

(** [flag_store::get<bool>] *)
Definition get_bool (st : flag_store D) (key : name) : result bool :=
  match values st !! key with
  | Some (VBool b) => ok b
  | Some _ => throw (BadVariant key)
  | None => throw (OutOfRange key)
  end.
Fixpoint check_options (st : flag_store D) (key : name) (l : list option_t) : result unit :=
  match l with
  | [] => ok tt
  | o :: l =>
      match option_presence o, values st !! option_key key o with
      | Required, None => throw (MissingOption (option_key key o))
      | _, _ => check_options st key l
      end
  end.
Fixpoint validate (st : flag_store D) (keyPrefix : name) com : result unit :=
  let key := if is_empty keyPrefix then command_name com else keyPrefix ++ dot ++ command_name com in
  _ ← check_options st key (command_options com);
  (fix go (l : list command) : result unit :=
     match l with
     | [] => ok tt
     | sub :: l =>
         b ← get_bool st (key ++ dot ++ command_name sub);
         _ ← (if b : bool then validate st key sub else ok tt);
         go l
     end) (children com).

(** [parse]; [None]: arguments are left over. *)
Definition parse com (args : list name) : result (option (flag_store D)) :=
  let c := prefillDefaults [] com (mk_context args (mk_store ∅ [])) in
  '(_, c) ← consumeToken c;
  c ← parseCommand [] com c;
  match rest c with
  | [] => _ ← validate (output c) [] com; ok (Some (output c))
  | _ => ok None
  end.

(** ** Command lines and what they mean *)

(** [--name=value], [--name value], [-n value], [name value]. *)
Inductive notation := LongEqual | LongNext | ShortNext | NaturalNext.
(** An option set to a value; a flag may leave out its [true]. *)
Record setting := mk_setting { set_what : option_t; set_style : notation; set_bare : bool; set_value : value }.
(** The settings of a command, then verbatim arguments or a subcommand, called
    by its name or implicitly. *)
Inductive invocation :=
  | Done (settings : list setting) (extra : list name)
  | Named (settings : list setting) (sub : command) (inner : invocation)
  | Unnamed (settings : list setting) (sub : command) (inner : invocation).

Context (print_double : D -> list Z).

Definition print_int (z : Z) : list Z := if z <? 0 then 0x2D :: to_string (- z) else to_string z.
Definition value_text (v : value) : name :=
  match v with
  | VInt z => print_int z
  | VUint z => to_string z
  | VString s => s
  | VDouble d => print_double d
  | VBool b => if b then bytes "true" else bytes "false"
  end.
Definition dashes : name := [0x2D; 0x2D].
Definition value_tokens (s : setting) : list name := if set_bare s then [] else [value_text (set_value s)].
Definition tokens (s : setting) : list name :=
  match set_style s with
  | LongEqual => [dashes ++ longName (set_what s) ++ 0x3D :: value_text (set_value s)]
  | LongNext => (dashes ++ longName (set_what s)) :: value_tokens s
  | ShortNext => [0x2D; shortName (set_what s)] :: value_tokens s
  | NaturalNext => longName (set_what s) :: value_tokens s
  end.
Fixpoint render (i : invocation) : list name :=
  match i with
  | Done ss extra => concat (tokens <$> ss) ++ match extra with [] => [] | _ => dashes :: extra end
  | Named ss sub i => concat (tokens <$> ss) ++ command_name sub :: render i
  | Unnamed ss sub i => concat (tokens <$> ss) ++ render i
  end.

Definition set_in (prefix : name) (m : gmap name value) (s : setting) : gmap name value :=
  <[option_key prefix (set_what s) := set_value s]> m.
(** The values after a command line: the commands called are true, options
    have the last value set. *)
Fixpoint meaning (stack : list command) com (i : invocation) (m : gmap name value) : gmap name value :=
  let stack := stack ++ [com] in
  let key := namePrefix stack in
  let set ss := foldl (set_in key) (<[key := VBool true]> m) ss in
  <[key := VBool true]>
    (match i with
     | Done ss _ => set ss
     | Named ss sub i | Unnamed ss sub i => meaning stack sub i (set ss)
     end).
Fixpoint verbatims (i : invocation) : list name :=
  match i with Done _ extra => extra | Named _ _ i | Unnamed _ _ i => verbatims i end.
Definition defaults com : gmap name value := values (output (prefillDefaults [] com (mk_context [] (mk_store ∅ [])))).
Definition store_of com (i : invocation) : flag_store D := mk_store (meaning [] com i (defaults com)) (verbatims i).

(** *** Command lines that fit a command *)

Definition first (l : list name) : name := default [] (head l).
(** The option a token names. *)
Definition option_at com (token : name) : option option_t :=
  if matchPrefix token dashes then
    match find_equal token with
    | Some i => findOption com (take (i - 2) (drop 2 token))
    | None => findOption com (drop 2 token)
    end
  else if matchPrefix token [0x2D] then findOption com (drop 1 token)
  else findOption com token.

Definition same_type (v w : value) : bool :=
  match v, w with
  | VInt _, VInt _ | VUint _, VUint _ | VString _, VString _ | VDouble _, VDouble _ | VBool _, VBool _ => true
  | _, _ => false
  end.
Definition in_range (v : value) : Prop :=
  match v with
  | VInt z => - 2 ^ 31 <= z < 2 ^ 31
  | VUint z => 0 <= z < 2 ^ 32
  | VDouble d => stod (print_double d) = Some d /\ print_double d <> []
  | _ => True
  end.
Record setting_ok com (s : setting) : Prop := {
  so_found : findOption com (match set_style s with ShortNext => [shortName (set_what s)] | _ => longName (set_what s) end)
             = Some (set_what s);
  so_equal : find_equal (longName (set_what s)) = None;
  so_natural : set_style s = NaturalNext -> head (longName (set_what s)) <> Some 0x2D;
  so_short : set_style s = ShortNext -> shortName (set_what s) <> 0x2D;
  so_type : same_type (option_value (set_what s)) (set_value s) = true;
  so_range : in_range (set_value s);
  so_bare : set_bare s = true -> set_value s = VBool true /\ set_style s <> LongEqual
}.
(** A flag without a value is not followed by one. *)
Definition followed (s : setting) (l : list name) : Prop :=
  set_bare s = true -> isTrue (first l) = false /\ isFalse (first l) = false.
Fixpoint settings_fit com (ss : list setting) (l : list name) : Prop :=
  match ss with
  | [] => option_at com (first l) = None
  | s :: ss => setting_ok com s /\ followed s (concat (tokens <$> ss) ++ l) /\ settings_fit com ss l
  end.
Definition child_named com (n : name) : option command :=
  List.find (fun sub => bool_decide (n = command_name sub)) (children com).
Definition child_implicit com : option command :=
  List.find (fun sub => bool_decide (command_selection sub = Implicit)) (children com).
Fixpoint fits com (i : invocation) : Prop :=
  match i with
  | Done ss extra =>
      settings_fit com ss (match extra with [] => [] | _ => dashes :: extra end) /\
      child_named com [] = None /\ child_implicit com = None /\ (extra <> [] -> command_verbatim com = true)
  | Named ss sub i =>
      settings_fit com ss (command_name sub :: render i) /\
      child_named com (command_token (command_name sub)) = Some sub /\ fits sub i
  | Unnamed ss sub i =>
      settings_fit com ss (render i) /\ child_named com (command_token (first (render i))) = None /\
      child_implicit com = Some sub /\ fits sub i
  end.

(** ** Numbers read back *)

Lemma leading_digits_all ds : digits ds -> leading_digits ds = ds.
Proof. induction 1 as [|d ds Hd _ IH]; [done|]. cbn [leading_digits]. zbool. cbn [andb]. by rewrite IH. Qed.
Lemma scan_digits ds : digits ds -> ds <> [] -> scan_number ds = (false, ds) /\ scan_number (0x2D :: ds) = (true, ds).
Proof.
  intros Hd Hn. destruct ds as [|d ds]; [done|]. pose proof Hd as [Hd1 _]%Forall_cons. split.
  - unfold scan_number, skip_space, is_space. zbool. cbn [andb orb]. zbool. by rewrite leading_digits_all.
  - unfold scan_number. change (skip_space (0x2D :: d :: ds)) with (0x2D :: d :: ds). cbv iota.
    change (0x2D =? 0x2D) with true. cbv iota. by rewrite leading_digits_all.
Qed.
Lemma stoi_print z : - 2 ^ 31 <= z < 2 ^ 31 -> stoi (print_int z) = Some z.
Proof.
  intros Hz. unfold print_int, stoi. destruct (Z.ltb_spec z 0).
  - destruct (to_digits_spec 10 (- z)) as (Hd & He & Hn); [simpl; lia|lia|]. fold (to_string (- z)) in *.
    destruct (scan_digits _ Hd Hn) as [_ ->]. rewrite He. destruct (to_string (- z)); [done|]. zbool. cbn [andb]. f_equal. lia.
  - destruct (to_digits_spec 10 z) as (Hd & He & Hn); [simpl; lia|lia|]. fold (to_string z) in *.
    destruct (scan_digits _ Hd Hn) as [-> _]. rewrite He. destruct (to_string z); [done|]. by zbool.
Qed.
Lemma stoul_print z : 0 <= z < 2 ^ 32 -> stoul (to_string z) = Some z.
Proof.
  intros Hz. unfold stoul. destruct (to_digits_spec 10 z) as (Hd & He & Hn); [simpl; lia|lia|]. fold (to_string z) in *.
  destruct (scan_digits _ Hd Hn) as [-> _]. rewrite He. destruct (to_string z); [done|]. by zbool.
Qed.

Lemma parseText_print o v : same_type (option_value o) v = true -> in_range v -> parseText o (value_text v) = ok v.
Proof.
  unfold parseText. destruct (option_value o), v as [x|x|t|w|y]; intros Ht Hr; try discriminate Ht; cbn [value_text].
  - by rewrite (stoi_print x Hr).
  - rewrite (stoul_print x Hr). unfold u32. by rewrite Z.mod_small.
  - done.
  - by rewrite (proj1 Hr).
  - by destruct y.
Qed.

(** ** Options read back *)

Lemma isTrue_text (b : bool) : isTrue (value_text (VBool b)) = b /\ isFalse (value_text (VBool b)) = negb b.
Proof. destruct b; split; vm_compute; reflexivity. Qed.

(** The value in the next token, or left out. *)
Lemma parseValue_print o b v l out : same_type (option_value o) v = true -> in_range v ->
  (b = true -> v = VBool true) -> (b = true -> isTrue (first l) = false /\ isFalse (first l) = false) ->
  parseValue o (mk_context ((if b : bool then [] else [value_text v]) ++ l) out) = ok (v, mk_context l out).
Proof.
  intros Ht Hr Hb Hf. unfold parseValue. destruct b.
  - rewrite (Hb eq_refl) in *. destruct (option_value o); try done. cbn [is_bool app]. unfold currentToken. cbn [rest].
    fold (first l). destruct (Hf eq_refl) as [-> ->]. done.
  - clear Hb Hf. destruct (is_bool (option_value o)) eqn:Eb.
    + destruct (option_value o), v as [| | | |y]; try done. unfold currentToken. cbn [rest app head default from_option id].
      destruct (isTrue_text y) as [-> ->]. by destruct y.
    + cbn [app]. unfold consumeToken. cbn [rest output]. rewrite mbind_ok. cbv beta iota.
      rewrite (parseText_print o v Ht Hr). done.
Qed.

Lemma named_option_print com n s tok l out : findOption com n = Some (set_what s) -> setting_ok com s -> followed s l ->
  named_option com n (mk_context (tok :: value_tokens s ++ l) out) = ok (Some (set_what s, set_value s), mk_context l out).
Proof.
  intros Hf [_ _ _ _ Ht Hr Hb] Hl. unfold named_option. rewrite Hf. unfold consumeToken. cbn [rest output]. rewrite mbind_ok. cbv beta iota. unfold value_tokens.
  rewrite (parseValue_print (set_what s) (set_bare s) (set_value s) l out Ht Hr (fun E => proj1 (Hb E)) Hl). done.
Qed.

Lemma find_equal_app a b : find_equal a = None -> find_equal (a ++ 0x3D :: b) = Some (length a).
Proof.
  induction a as [|ch a IH]; [done|]. cbn [find_equal app length]. destruct (ch =? 0x3D); [done|].
  destruct (find_equal a); [done|]. intros _. rewrite IH; done.
Qed.
Lemma find_equal_dashes n : find_equal (dashes ++ n) = S <$> (S <$> find_equal n).
Proof. reflexivity. Qed.
Lemma long_token n : matchPrefix (dashes ++ n) dashes = true.
Proof. reflexivity. Qed.

Lemma long_value com s l out : setting_ok com s -> set_style s = LongEqual ->
  tryParseOption com (mk_context (tokens s ++ l) out) = ok (Some (set_what s, set_value s), mk_context l out).
Proof.
  intros Hs Es. pose proof Hs as [Hf He _ _ Ht Hr Hb]. unfold tokens. rewrite Es in *. set (o := set_what s) in *. set (v := set_value s) in *.
  unfold tryParseOption, currentToken. cbv zeta. cbn [rest app head default from_option id].
  rewrite long_token, find_equal_dashes, find_equal_app by done. cbn [fmap option_fmap option_map].
  replace (S (S (length (longName o))) - 2)%nat with (length (longName o)) by lia.
  change (drop 2 (dashes ++ longName o ++ 0x3D :: value_text v)) with (longName o ++ 0x3D :: value_text v).
  rewrite take_app_length, Hf. unfold consumeToken. cbn [rest output]. rewrite mbind_ok. cbv beta iota.
  replace (S (S (length (longName o))) + 1)%nat with (S (S (length (longName o) + 1))) by lia.
  change (drop (S (S ?k)) (dashes ++ ?x)) with (drop k x).
  assert (drop (length (longName o) + 1) (longName o ++ 0x3D :: value_text v) = value_text v) as ->.
  { rewrite drop_app_ge by lia. replace (_ + 1 - _)%nat with 1%nat by lia. done. }
  assert (is_empty (value_text v) && negb (is_string (option_value o)) = false) as ->.
  { destruct (value_text v) eqn:E; [|done]. cbn [andb is_empty]. destruct v as [z|z|t|d|y]; cbn [value_text] in E.
    - unfold print_int in E. destruct (Z.ltb_spec z 0); [done|]. by destruct (to_digits_spec 10 z) as (_ & _ & ?); [cbn in Hr; simpl; lia|lia|].
    - by destruct (to_digits_spec 10 z) as (_ & _ & ?); [cbn in Hr; simpl; lia|lia|].
    - by destruct (option_value o).
    - by destruct Hr.
    - by destruct y. }
  by rewrite (parseText_print o v Ht Hr).
Qed.

Lemma setting_read com s l out : setting_ok com s -> followed s l ->
  tryParseOption com (mk_context (tokens s ++ l) out) = ok (Some (set_what s, set_value s), mk_context l out).
Proof.
  intros Hs Hl. destruct (set_style s) eqn:Es; [by apply long_value|..]; pose proof Hs as [Hf He Hn Hsh _ _ _];
    unfold tokens; rewrite Es in *; unfold tryParseOption, currentToken; cbn [rest app head default from_option id].
  - rewrite long_token, find_equal_dashes, He. cbn [fmap option_fmap option_map]. by apply named_option_print.
  - cbn [matchPrefix]. rewrite Z.eqb_refl, (proj2 (Z.eqb_neq _ _) (Hsh eq_refl)). cbn [andb]. by apply named_option_print.
  - assert (Hm : forall p, matchPrefix (longName (set_what s)) (0x2D :: p) = false).
    { intros p. specialize (Hn eq_refl). destruct (longName (set_what s)) as [|ch n]; [done|]. cbn [matchPrefix].
      destruct (Z.eqb_spec ch 0x2D) as [->|]; [done|]. done. }
    rewrite !Hm. by apply named_option_print.
Qed.

Lemma no_option com c : option_at com (currentToken c) = None -> tryParseOption com c = ok (None, c).
Proof.
  unfold option_at, tryParseOption, named_option. fold dashes. destruct (matchPrefix (currentToken c) dashes).
  - destruct (find_equal (currentToken c)); by intros ->.
  - destruct (matchPrefix (currentToken c) [0x2D]); by intros ->.
Qed.

Definition set_values (prefix : name) (out : flag_store D) (ss : list setting) : flag_store D :=
  mk_store (foldl (set_in prefix) (values out) ss) (verbatim out).
Lemma settings_read com prefix ss l out fuel : settings_fit com ss l -> (length ss < fuel)%nat ->
  parseOptions fuel prefix com (mk_context (concat (tokens <$> ss) ++ l) out) = ok (mk_context l (set_values prefix out ss)).
Proof.
  revert out fuel. induction ss as [|s ss IH]; intros out fuel Hs Hf; (destruct fuel as [|fuel]; [cbn in Hf; lia|]); cbn [parseOptions].
  - cbn in Hs. cbn [concat fmap list_fmap app]. rewrite no_option by done. rewrite mbind_ok. cbv beta iota. by destruct out.
  - destruct Hs as (Ho & Hfl & Hs). change (concat (tokens <$> s :: ss)) with (tokens s ++ concat (tokens <$> ss)). rewrite <- app_assoc.
    rewrite (setting_read com s _ out Ho Hfl). rewrite mbind_ok. cbv beta iota. unfold setOption. cbn [rest output].
    rewrite IH; [done|done|cbn in Hf; lia].
Qed.
Lemma tokens_length ss : (length ss <= length (concat (tokens <$> ss)))%nat.
Proof.
  induction ss as [|s ss IH]; [done|]. cbn [fmap list_fmap concat]. rewrite length_app. cbn [length].
  assert (1 <= length (tokens s))%nat by (unfold tokens; destruct (set_style s); cbn; lia). lia.
Qed.
Lemma optionList_read stack com ss l out : settings_fit com ss l ->
  parseOptionList stack com (mk_context (concat (tokens <$> ss) ++ l) out) = ok (mk_context l (set_values (namePrefix stack) out ss)).
Proof.
  intros Hs. unfold parseOptionList. apply settings_read; [done|]. cbn [rest]. rewrite length_app. pose proof (tokens_length ss). lia.
Qed.

(** ** Commands *)

(** What follows the options of a command. *)
Definition parseRest (stack : list command) com c : result context :=
  match child_named com (command_token (currentToken c)) with
  | Some sub => '(_, c) ← consumeToken c; parseCommand stack sub c
  | None =>
      match child_implicit com with
      | Some sub => parseCommand stack sub c
      | None =>
          if command_verbatim com then
            match rest c with
            | [] => ok c
            | token :: l => ok (add_verbatim (if bool_decide (token = [0x2D; 0x2D]) then l else token :: l) c)
            end
          else ok c
      end
  end.
Lemma with_child_find {A} (p : command -> bool) (k : command -> A) l : with_child p k l = k <$> List.find p l.
Proof. induction l as [|sub l IH]; [done|]. cbn [with_child List.find]. by destruct (p sub). Qed.
Lemma parseCommand_eq stack com c : parseCommand stack com c =
  (c ← parseOptionList (stack ++ [com]) com (setOption (namePrefix (stack ++ [com])) (VBool true) c);
   c ← parseRest (stack ++ [com]) com c;
   ok (match rest c with [] => setOption (namePrefix (stack ++ [com])) (VBool true) c | _ => c end)).
Proof.
  destruct com as [n os cs sel vb]. cbn [parseCommand]. destruct (parseOptionList _ _ _) as [e|c1]; [done|].
  rewrite !mbind_ok. unfold parseRest, child_named, child_implicit. cbn [children command_verbatim]. rewrite !with_child_find.
  fold (named_by c1) is_implicit. destruct (List.find (named_by c1) cs); [done|]. by destruct (List.find is_implicit cs).
Qed.

Lemma setOption_eq k v r m vb : setOption k v (mk_context r (mk_store m vb)) = mk_context r (mk_store (<[k := v]> m) vb).
Proof. done. Qed.
Lemma invocation_read i : forall com stack m vb, fits com i ->
  parseCommand stack com (mk_context (render i) (mk_store m vb)) =
    ok (mk_context [] (mk_store (meaning stack com i m) (vb ++ verbatims i))).
Proof.
  induction i as [ss extra|ss sub i IH|ss sub i IH]; intros com stack m vb Hf; rewrite parseCommand_eq, setOption_eq;
    cbn [render]; destruct Hf as (Hs & Hf); rewrite (optionList_read _ _ _ _ _ Hs), mbind_ok;
    unfold set_values; cbn [values verbatim]; unfold parseRest, currentToken; cbn [rest output].
  - destruct Hf as (Hn & Hi & Hv).
    assert (E : command_token (default [] (head (match extra with [] => [] | _ => dashes :: extra end))) = []) by (by destruct extra).
    rewrite E, Hn, Hi. destruct extra as [|x extra].
    + destruct (command_verbatim com); rewrite mbind_ok; cbn [rest]; unfold setOption; cbn; by rewrite app_nil_r.
    + rewrite (Hv ltac:(done)). rewrite bool_decide_true by done. rewrite mbind_ok. done.
  - cbn [head default from_option id]. destruct Hf as [Hn Hf]. rewrite Hn. unfold consumeToken. cbn [rest output].
    rewrite mbind_ok. cbv beta iota. rewrite IH by done. rewrite mbind_ok. done.
  - destruct Hf as (Hn & Hi & Hf). fold (first (render i)). rewrite Hn, Hi. rewrite IH by done. rewrite mbind_ok. done.
Qed.

(** Prefilling looks only at the commands. *)
Lemma prefill_verbatim : forall com stack c, verbatim (output (prefillDefaults stack com c)) = verbatim (output c).
Proof.
  fix IH 1. intros [n os cs sel vb] stack c. cbn [prefillDefaults command_options children command_name].
  generalize (stack ++ [mk_command n os cs sel vb]) as st. intros st.
  match goal with |- context [foldl ?f c os] => set (set_defaults := f) end.
  assert (Ho : forall c, verbatim (output (foldl set_defaults c os)) = verbatim (output c)).
  { clear. induction os as [|o os IHo]; intros c; [done|]. cbn [foldl]. rewrite IHo. unfold set_defaults. by destruct (option_presence o). }
  rewrite <- (Ho c). generalize (foldl set_defaults c os). clear Ho set_defaults.
  induction cs as [|sub cs IHc]; intros d; [done|]. rewrite IHc, IH. done.
Qed.
Lemma setOption_rest k v c : rest (setOption k v c) = rest c.
Proof. done. Qed.
Definition same_output (c c' : context) : Prop := output c = output c'.
Lemma setOption_output k v c c' : same_output c c' -> same_output (setOption k v c) (setOption k v c').
Proof. unfold same_output, setOption. cbn. by intros ->. Qed.
Lemma prefillDefaults_frame : forall com stack c c', same_output c c' ->
  same_output (prefillDefaults stack com c) (prefillDefaults stack com c') /\
  rest (prefillDefaults stack com c) = rest c.
Proof.
  fix IH 1. intros [n os cs sel vb] stack c c' E. cbn [prefillDefaults]. cbn [command_options children command_name].
  generalize (stack ++ [mk_command n os cs sel vb]) as st. intros st.
  match goal with |- context [foldl ?f c os] => set (set_defaults := f) end.
  assert (Ho : forall c c', same_output c c' ->
    same_output (foldl set_defaults c os) (foldl set_defaults c' os) /\ rest (foldl set_defaults c os) = rest c).
  { clear. induction os as [|o os IHo]; intros c c' E; [done|]. cbn [foldl].
    destruct (IHo (set_defaults c o) (set_defaults c' o)) as [I1 I2].
    - unfold set_defaults. destruct (option_presence o); [by apply setOption_output|done].
    - split; [done|]. rewrite I2. unfold set_defaults. by destruct (option_presence o). }
  destruct (Ho c c' E) as [E1 R1]. revert E1 R1. generalize (foldl set_defaults c os) (foldl set_defaults c' os). clear Ho set_defaults.
  induction cs as [|sub cs IHc]; intros d d' E1 R1; [done|].
  destruct (IH sub st (setOption (namePrefix st ++ dot ++ command_name sub) (VBool false) d)
    (setOption (namePrefix st ++ dot ++ command_name sub) (VBool false) d')) as [E2 R2]; [by apply setOption_output|].
  apply IHc; [exact E2|]. by rewrite R2.
Qed.

(** C19: Every command line that fits a command, in any mixture of the notations, with
    subcommands called by name or implicitly and verbatim arguments, is read as what it says:
    the defaults, the commands called, the options with the last values set for them, and the
    verbatim arguments, if the required options are there. *)
Theorem command_line_roundtrip com i program : fits com i -> validate (store_of com i) [] com = ok tt ->
  parse com (program :: render i) = ok (Some (store_of com i)).
Proof.
  intros Hf Hv. unfold parse.
  destruct (prefillDefaults_frame com [] (mk_context (program :: render i) (mk_store ∅ [])) (mk_context [] (mk_store ∅ []))) as [E R]; [done|].
  set (c := prefillDefaults [] com (mk_context (program :: render i) _)) in *.
  assert (Ec : consumeToken c = ok (program, mk_context (render i) (mk_store (defaults com) []))).
  { unfold consumeToken. rewrite R. cbn [rest]. do 3 f_equal. rewrite E. unfold defaults. destruct (output _) as [m vb] eqn:Eo. cbn.
    f_equal. change vb with (verbatim (mk_store m vb)). rewrite <- Eo. apply prefill_verbatim. }
  rewrite Ec, mbind_ok. cbv beta iota. rewrite (invocation_read i com [] _ _ Hf), mbind_ok. cbn [rest output app].
  change (mk_store _ (verbatims i)) with (store_of com i). by rewrite Hv.
Qed.

(** A subcommand that was called, with its key. *)
Inductive called (st : flag_store D) : name -> command -> name -> command -> Prop :=
  | called_here key com : called st key com key com
  | called_sub key com sub key' com' : sub ∈ children com -> get_bool st (key ++ dot ++ command_name sub) = ok true ->
      called st (key ++ dot ++ command_name sub) sub key' com' -> called st key com key' com'.
Lemma check_options_present st key l o : check_options st key l = ok tt -> o ∈ l -> option_presence o = Required ->
  is_Some (values st !! option_key key o).
Proof.
  induction l as [|x l IH]; [by intros _ ?%not_elem_of_nil|]. cbn [check_options]. intros Hc [->|Hin]%elem_of_cons Hr.
  - rewrite Hr in Hc. by destruct (values st !! option_key key x).
  - destruct (option_presence x), (values st !! option_key key x); try done; by apply IH.
Qed.
Definition full_key (keyPrefix : name) com : name := if is_empty keyPrefix then command_name com else keyPrefix ++ dot ++ command_name com.
Lemma validate_here st com keyPrefix o : validate st keyPrefix com = ok tt -> o ∈ command_options com -> option_presence o = Required ->
  is_Some (values st !! option_key (full_key keyPrefix com) o).
Proof.
  destruct com as [n os cs sel vb]. cbn [validate command_name command_options].
  set (k := if is_empty keyPrefix then n else _). change (full_key keyPrefix _) with k. clearbody k. intros Hv. apply check_options_present. by destruct (check_options _ _ os) as [|[]].
Qed.
Lemma validate_sub st com keyPrefix sub : validate st keyPrefix com = ok tt -> sub ∈ children com ->
  get_bool st (full_key keyPrefix com ++ dot ++ command_name sub) = ok true -> validate st (full_key keyPrefix com) sub = ok tt.
Proof.
  destruct com as [n os cs sel vb]. cbn [validate children command_name command_options].
  set (k := if is_empty keyPrefix then n else _). change (full_key keyPrefix _) with k. clearbody k. intros Hv Hin Hg.
  destruct (check_options st k os) as [e|[]]; [done|]. cbn [mbind result_bind] in Hv. revert Hv Hin.
  induction cs as [|x cs IH]; intros Hv Hin; [by apply not_elem_of_nil in Hin|].
  destruct (get_bool st (k ++ dot ++ command_name x)) as [e|b] eqn:Eb; [done|]. cbn [mbind result_bind] in Hv.
  destruct (if b then validate st k x else ok tt) as [e|[]] eqn:Ex; [done|]. cbn [mbind result_bind] in Hv.
  apply elem_of_cons in Hin as [E'|Hin]; [|exact (IH Hv Hin)]. subst x. assert (b = true) as -> by (rewrite Eb in Hg; by injection Hg).
  exact Ex.
Qed.

(** Whatever the arguments: if they are accepted, every required option of the
    command and of each subcommand called has a value. *)
Lemma required_present com args st key com' o : parse com args = ok (Some st) -> command_name com <> [] ->
  called st (command_name com) com key com' -> o ∈ command_options com' -> option_presence o = Required ->
  is_Some (values st !! option_key key o).
Proof.
  unfold parse. destruct (consumeToken _) as [e|[tok c0]]; [done|]. cbn [mbind result_bind].
  destruct (parseCommand [] com c0) as [e|c]; [done|]. cbn [mbind result_bind].
  destruct (rest c); [|done]. destruct (validate (output c) [] com) as [e|[]] eqn:Ev; [done|]. intros [= <-] Hn Hc Ho Hr.
  assert (exists prefix, validate (output c) prefix com = ok tt /\ command_name com = full_key prefix com) as (prefix & Hv & Hk) by (by exists []).
  clear Ev. revert Hn prefix Hv Hk. generalize dependent (command_name com). intros k Hc Hn. revert Hn.
  induction Hc as [k x|k x sub k' x' Hin Hg Hc IH]; intros Hn prefix Hv ->; [by apply validate_here|].
  apply (IH Ho) with (full_key prefix x); [by destruct (full_key prefix x)|by apply validate_sub|].
  unfold full_key at 2. by destruct (full_key prefix x).
Qed.
End Parse.

(** ** Concrete cases *)

Module Examples.

#[local] Instance whole_numbers : Stod Z := stoi.

Definition opt (short : Z) (long : string) (v : value Z) (p : presence) : cli_option Z := mk_option short (bytes long) v p.
Definition contour : command Z :=
  mk_command (bytes "contour") [opt 0x64 "debug" (VString []) Optional]
    [mk_command (bytes "capture")
       [opt 0x6C "logical" (VBool false) Optional; opt 0x74 "timeout" (VDouble 1) Optional;
        opt 0x6E "lines" (VUint 0) Optional; opt 0x6F "output" (VString []) Required] [] Explicit false;
     mk_command (bytes "terminal") [opt 0x65 "early-exit" (VBool false) Optional] [] Implicit true] Explicit false.
Definition set (short : Z) (long : string) (d : value Z) (p : presence) (n : notation) (bare : bool) (v : value Z) : setting :=
  mk_setting (opt short long d p) n bare v.

(** contour --debug=vt capture -l --timeout 7 output file.vt *)
Definition capturing : invocation :=
  Named [set 0x64 "debug" (VString []) Optional LongEqual false (VString (bytes "vt"))] (nth 0 (children contour) contour)
    (Done [set 0x6C "logical" (VBool false) Optional ShortNext true (VBool true);
           set 0x74 "timeout" (VDouble 1) Optional LongNext false (VDouble 7);
           set 0x6F "output" (VString []) Required NaturalNext false (VString (bytes "file.vt"))] []).
Example capture_line : render print_int capturing =
  bytes <$> ["--debug=vt"; "capture"; "-l"; "--timeout"; "7"; "output"; "file.vt"]%string.
Proof. reflexivity. Qed.

Lemma command_line_roundtrip_witness :
  parse contour (bytes "contour" :: render print_int capturing) = ok (Some (store_of contour capturing)).
Proof.
  apply (command_line_roundtrip print_int contour capturing (bytes "contour")).
  - cbn [fits capturing]. split; [|split; [reflexivity|]].
    + split; [split; try reflexivity; try done|]. split; [discriminate|reflexivity].
    + split; [|split; [reflexivity|split; [reflexivity|done]]].
      split; [split; try reflexivity; try done|]. split; [intros _; split; reflexivity|].
      split; [split; try reflexivity; try done|]. split; [discriminate|].
      split; [split; try reflexivity; try done|]. split; [discriminate|reflexivity].
  - reflexivity.
Defined.

(** The implicit command takes what is not an option of the outer one. *)
Example implicit_command :
  match parse contour (bytes <$> ["contour"; "early-exit"; "--"; "top"; "-d"]%string) with
  | inr (Some st) => (get_bool st (bytes "contour.terminal"), get_bool st (bytes "contour.terminal.early-exit"), verbatim st)
  | _ => (ok false, ok false, [])
  end = (ok true, ok true, bytes <$> ["top"; "-d"]%string).
Proof. vm_compute. reflexivity. Qed.
(** Errors: a required option is missing, an argument is left over, a value is
    no number. *)
Example rejected :
  parse contour (bytes <$> ["contour"; "capture"]%string) = throw (MissingOption (bytes "contour.capture.output")) /\
  parse contour (bytes <$> ["contour"; "capture"; "output"; "x"; "y"]%string) = ok None /\
  parse contour (bytes <$> ["contour"; "capture"; "lines"; "x"]%string)
    = throw (ParserError (bytes "Unsigned integer value expected but something else specified.")).
Proof. vm_compute. auto. Qed.

(** A number may be followed by anything, an unsigned one may be negative, and
    one beyond 32 bits wraps around. *)
Definition lines_of (s : string) : option (value Z) :=
  match parse contour (bytes <$> ["contour"; "capture"; "output"; "x"; "lines"; s]%string) with
  | inr (Some st) => values st !! bytes "contour.capture.lines"
  | _ => None
  end.
Example unsigned_values :
  lines_of "12abc" = Some (VUint 12) /\ lines_of "-1" = Some (VUint 4294967295) /\ lines_of "4294967296" = Some (VUint 0).
Proof. vm_compute. auto. Qed.

End Examples.

End Cli.
