(* ===== verification/Capabilities.v ===== *)
(** * Terminal capabilities and their reports (src/vtbackend/Capabilities.h, Capabilities.cpp, Screen.cpp)

    The static database of termcap and terminfo capabilities, with all its
    entries, its lookups by code and by name, and the replies to XTGETTCAP,
    which carry names and values in hexadecimal.  In the table of strings '!'
    stands for ESC ([lit]); the table itself has no '!'.

    [Screen::booleanCapability] and its like call the database.  The sorting of
    range-v3 and [unicode::convert_to] of libunicode are parameters.

    Proved: an application that asks for capabilities gets an answer for each
    name, in order, from which it reads the value of the database; every entry
    is found under its name and its code, but for two. *)
From Stdlib Require Import String.
From stdpp Require Import list.
From S2P Require Import Prelude Color Text.

(** ** Codes and entries *)

(** A [char] is signed: a character of the upper half sets every higher bit. *)
Definition Code_of (c0 c1 : Z) : Z := u16 (Z.lor (Z.shiftl (schar c0) 8) (schar c1)).
(** [operator==(Code, std::string_view)] *)
Definition Code_is (code : Z) (b : list Z) : bool :=
  match b with
  | [c0; c1] => code =? Code_of c0 c1
  | _ => false
  end.
Definition Code_hex (code : Z) : list Z :=
  format_02X (Z.land (Z.shiftr code 8) 0xFF) ++ format_02X (Z.land code 0xFF).

Record Cap (T : Type) := mkCap { cap_code : Z; cap_name : list Z; cap_value : T }.
Arguments mkCap {T}.
Arguments cap_code {T}.
Arguments cap_name {T}.
Arguments cap_value {T}.

(** [std::string_view::compare] orders by unsigned bytes. *)
Fixpoint name_lt (a b : list Z) : bool :=
  match a, b with
  | _, [] => false
  | [], _ :: _ => true
  | x :: a', y :: b' => (x <? y) || ((x =? y) && name_lt a' b')
  end.
Definition cap_lt {T} (a b : Cap T) : bool := name_lt (cap_name a) (cap_name b).
Definition cap_eq {T} (a b : Cap T) : bool := bool_decide (cap_name a = cap_name b).
Definition cap_ne {T} (a b : Cap T) : bool := bool_decide (cap_name a = cap_name b).

(** [operator"" _tcap] *)
Definition tcap (code : string) : Z :=
  match bytes code with
  | c0 :: c1 :: _ => Code_of c0 c1
  | _ => 0
  end.
Definition UndefinedCode : Z := 0.
Definition cap {T} (code name : string) (value : T) : Cap T := mkCap (tcap code) (bytes name) value.
Definition uncoded {T} (name : string) (value : T) : Cap T := mkCap UndefinedCode (bytes name) value.
(** A string literal, with '!' for ESC. *)
Definition lit (s : string) : list Z := map (fun c => if c =? 0x21 then 0x1B else c) (bytes s).

(** ** The database *)

Definition BooleanCaps : list (Cap bool) :=
  [cap "Su" "Su" true; cap "am" "am" true; cap "hs" "hs" true; cap "es" "eslok" true; cap "ut" "bce" true;
   cap "cc" "ccc" true; cap "xn" "xenl" true; cap "km" "km" true; cap "mi" "mir" true; cap "ms" "msgr" true;
   cap "NP" "npc" true; cap "5i" "mc5i" true; cap "YD" "xvpa" true; cap "Tc" "Tc" true].

Definition Int16Max : Z := 2 ^ 15 - 1.
Definition NumericalCaps : list (Cap Z) :=
  [cap "co" "cols" 80; cap "it" "it" 8; cap "Co" "colors" Int16Max; cap "pa" "pairs" Int16Max;
   cap "li" "lines" 24].

Definition StringCaps : list (Cap (list Z)) :=
  [cap "TN" "" (lit "xterm-256color");
   cap "ac" "acsc" (lit "``aaffggiijjkkllmmnnooppqqrrssttuuvvwwxxyyzz{{||}}~~"); cap "bl" "bel" (lit "^G");
   cap "md" "bold" (lit "![1m"); cap "bt" "cbt" (lit "![Z"); cap "kB" "kcbt" (lit "![Z");
   cap "vi" "civis" (lit "![?25l"); cap "cl" "clear" (lit "![H![2J"); cap "ve" "cnorm" (lit "![?12l![?25h");
   cap "cr" "cr" (lit "^M"); cap "cs" "csr" (lit "![%i%p1%d;%p2%dr"); cap "LE" "cub" (lit "![%p1%dD");
   cap "le" "cub1" (lit "^H"); cap "DO" "cud" (lit "![%p1%dB"); cap "do" "cud1" (lit "^J");
   cap "RI" "cuf" (lit "![%p1%dC"); cap "nd" "cuf1" (lit "![C"); cap "UP" "cuu" (lit "![%p1%dA");
   cap "up" "cuu1" (lit "![A"); cap "cm" "cup" (lit "![%i%p1%d;%p2%dH"); cap "vs" "cvvis" (lit "![?12;25h");
   cap "DC" "dch" (lit "![%p1%dP"); cap "dc" "dch1" (lit "![P"); cap "mh" "dim" (lit "![2m");
   cap "DL" "dl" (lit "![%p1%dM"); cap "dl" "dl1" (lit "![M"); cap "ec" "ech" (lit "![%p1%dX");
   cap "cd" "ed" (lit "![J"); cap "E3" "E3" (lit "![3J"); cap "ce" "el" (lit "![K");
   cap "cb" "el1" (lit "![1K"); cap "vb" "flash" (lit "![?5h$<100/>![?5l"); cap "ho" "home" (lit "![H");
   cap "ch" "hpa" (lit "![%i%p1%dG"); cap "ht" "ht" (lit "^I"); cap "st" "hts" (lit "!H");
   cap "IC" "ich" (lit "![%p1%d@"); cap "AL" "il" (lit "![%p1%dL"); cap "al" "il1" (lit "![L");
   cap "sf" "ind" (lit "^J"); cap "SF" "indn" (lit "![%p1%dS");
   cap "Ic" "initc" (lit "!]4;%p1%d;rgb:%p2%{255}%*%{1000}%/%2.2X/%p3%{255}%*%{1000}%/%2.2X/%p4%{255}%*%{1000}%/%2.2X!\");
   cap "oc" "oc" (lit "!]104!\"); cap "mk" "invis" (lit "![8m"); cap "kb" "kbs" [0x7F];
   cap "Km" "kmous" (lit "![M"); cap "kR" "kri" (lit "![1;2A"); cap "kF" "kind" (lit "![1;2B");
   cap "rc" "rc" (lit "!8"); cap "rp" "rep" (lit "%p1%c![%p2%{1}%-%db"); cap "mr" "rev" (lit "![7m");
   cap "sr" "ri" (lit "!M"); cap "SR" "rin" (lit "![%p1%dT"); cap "RA" "rmam" (lit "![?7l");
   cap "te" "rmcup" (lit "![?1049l"); cap "ei" "rmir" (lit "![4l"); cap "ke" "rmkx" (lit "![?1l");
   cap "se" "rmso" (lit "![27m"); cap "ue" "rmul" (lit "![24m"); cap "Te" "rmxx" (lit "![29m");
   cap "r1" "rs1" (lit "!]!\!c"); cap "sc" "sc" (lit "!7");
   cap "AB" "setab" (lit "![%?%p1%{8}%<%t4%p1%d%e%p1%{16}%<%t10%p1%{8}%-%d%e48;5;%p1%d%;m");
   cap "AF" "setaf" (lit "![%?%p1%{8}%<%t3%p1%d%e%p1%{16}%<%t9%p1%{8}%-%d%e38;5;%p1%d%;m");
   cap "sa" "sgr" (lit "%?%p9%t!(0%e!(B%;![0%?%p6%t;1%;%?%p2%t;4%;%?%p1%p3%|%t;7%;%?%p4%t;5%;%?%p7%t;8%;m");
   cap "me" "sgr0" (lit "!(B![m"); cap "op" "op" (lit "![39;49m"); cap "SA" "smam" (lit "![?7h");
   cap "ti" "smcup" (lit "![?1049h"); cap "im" "smir" (lit "![4h"); cap "ks" "smkx" (lit "![?1h");
   cap "so" "smso" (lit "![7m"); cap "us" "smul" (lit "![4m"); cap "Ts" "smxx" (lit "![9m");
   cap "ct" "tbc" (lit "![3g"); cap "cv" "vpa" (lit "![%i%p1%dd"); cap "ZH" "sitm" (lit "![3m");
   cap "ZR" "ritm" (lit "![23m"); cap "as" "smacs" (lit "!(0"); cap "ae" "rmacs" (lit "!(B");
   cap "ts" "tsl" (lit "![2$~![1$}![H![2J"); cap "fs" "fsl" (lit "![$}"); cap "ds" "dsl" (lit "![$~");
   uncoded "Sync" (lit "![?2026%?%p1%{1}%-%tl%eh"); uncoded "setrgbf" (lit "![38:2:%p1%d:%p2%d:%p3%dm");
   uncoded "setrgbb" (lit "![48:2:%p1%d:%p2%d:%p3%dm"); cap "*4" "kDC" (lit "![3;2~");
   uncoded "kDC3" (lit "![3;3~"); uncoded "kDC4" (lit "![3;4~"); uncoded "kDC5" (lit "![3;5~");
   uncoded "kDC6" (lit "![3;6~"); uncoded "kDC7" (lit "![3;7~"); uncoded "kDN" (lit "![1;2B");
   uncoded "kDN3" (lit "![1;3B"); uncoded "kDN4" (lit "![1;4B"); uncoded "kDN5" (lit "![1;5B");
   uncoded "kDN6" (lit "![1;6B"); uncoded "kDN7" (lit "![1;7B"); cap "*7" "kEND" (lit "![1;2F");
   uncoded "kEND3" (lit "![1;3F"); uncoded "kEND4" (lit "![1;4F"); uncoded "kEND5" (lit "![1;5F");
   uncoded "kEND6" (lit "![1;6F"); uncoded "kEND7" (lit "![1;7F"); cap "#2" "kHOM" (lit "![1;2H");
   uncoded "kHOM3" (lit "![1;3H"); uncoded "kHOM4" (lit "![1;4H"); uncoded "kHOM5" (lit "![1;5H");
   uncoded "kHOM6" (lit "![1;6H"); uncoded "kHOM7" (lit "![1;7H"); cap "#3" "kIC" (lit "![2;2~");
   uncoded "kIC3" (lit "![2;3~"); uncoded "kIC4" (lit "![2;4~"); uncoded "kIC5" (lit "![2;5~");
   uncoded "kIC6" (lit "![2;6~"); uncoded "kIC7" (lit "![2;7~"); cap "#4" "kLFT" (lit "![1;2D");
   uncoded "kLFT3" (lit "![1;3D"); uncoded "kLFT4" (lit "![1;4D"); uncoded "kLFT5" (lit "![1;5D");
   uncoded "kLFT6" (lit "![1;6D"); uncoded "kLFT7" (lit "![1;7D"); cap "%c" "kNXT" (lit "![6;2~");
   uncoded "kNXT3" (lit "![6;3~"); uncoded "kNXT4" (lit "![6;4~"); uncoded "kNXT5" (lit "![6;5~");
   uncoded "kNXT6" (lit "![6;6~"); uncoded "kNXT7" (lit "![6;7~"); cap "%e" "kPRV" (lit "![5;2~");
   uncoded "kPRV3" (lit "![5;3~"); uncoded "kPRV4" (lit "![5;4~"); uncoded "kPRV5" (lit "![5;5~");
   uncoded "kPRV6" (lit "![5;6~"); uncoded "kPRV7" (lit "![5;7~"); cap "%i" "kRIT" (lit "![1;2C");
   uncoded "kRIT3" (lit "![1;3C"); uncoded "kRIT4" (lit "![1;4C"); uncoded "kRIT5" (lit "![1;5C");
   uncoded "kRIT6" (lit "![1;6C"); uncoded "kRIT7" (lit "![1;7C"); uncoded "kUP" (lit "![1;2A");
   uncoded "kUP3" (lit "![1;3A"); uncoded "kUP4" (lit "![1;4A"); uncoded "kUP5" (lit "![1;5A");
   uncoded "kUP6" (lit "![1;6A"); uncoded "kUP7" (lit "![1;7A"); cap "K1" "ka1" (lit "");
   cap "K3" "ka3" (lit ""); cap "K4" "kc1" (lit ""); cap "K5" "kc3" (lit ""); cap "kl" "kcub1" (lit "!OD");
   cap "kd" "kcud1" (lit "!OB"); cap "kr" "kcuf1" (lit "!OC"); cap "ku" "kcuu1" (lit "!OA");
   cap "kD" "kdch1" (lit "![3~"); cap "@7" "kend" (lit "!OF"); cap "k1" "kf1" (lit "!OP");
   cap "k;" "kf10" (lit "![21~"); cap "F1" "kf11" (lit "![23~"); cap "F2" "kf12" (lit "![24~");
   cap "F3" "kf13" (lit "![1;2P"); cap "F4" "kf14" (lit "![1;2Q"); cap "F5" "kf15" (lit "![1;2R");
   cap "F6" "kf16" (lit "![1;2S"); cap "F7" "kf17" (lit "![15;2~"); cap "F8" "kf18" (lit "![17;2~");
   cap "F9" "kf19" (lit "![18;2~"); cap "k2" "kf2" (lit "!OQ"); cap "FA" "kf20" (lit "![19;2~");
   cap "FB" "kf21" (lit "![20;2~"); cap "FC" "kf22" (lit "![21;2~"); cap "FD" "kf23" (lit "![23;2~");
   cap "FE" "kf24" (lit "![24;2~"); cap "FF" "kf25" (lit "![1;5P"); cap "FG" "kf26" (lit "![1;5Q");
   cap "FH" "kf27" (lit "![1;5R"); cap "FI" "kf28" (lit "![1;5S"); cap "FJ" "kf29" (lit "![15;5~");
   cap "k3" "kf3" (lit "!OR"); cap "FK" "kf30" (lit "![17;5~"); cap "FL" "kf31" (lit "![18;5~");
   cap "FM" "kf32" (lit "![19;5~"); cap "FN" "kf33" (lit "![20;5~"); cap "FO" "kf34" (lit "![21;5~");
   cap "FP" "kf35" (lit "![23;5~"); cap "FQ" "kf36" (lit "![24;5~"); cap "FR" "kf37" (lit "![1;6P");
   cap "FS" "kf38" (lit "![1;6Q"); cap "FT" "kf39" (lit "![1;6R"); cap "k4" "kf4" (lit "!OS");
   cap "FU" "kf40" (lit "![1;6S"); cap "FV" "kf41" (lit "![15;6~"); cap "FW" "kf42" (lit "![17;6~");
   cap "FX" "kf43" (lit "![18;6~"); cap "FY" "kf44" (lit "![19;6~"); cap "FZ" "kf45" (lit "![20;6~");
   cap "Fa" "kf46" (lit "![21;6~"); cap "Fb" "kf47" (lit "![23;6~"); cap "Fc" "kf48" (lit "![24;6~");
   cap "Fd" "kf49" (lit "![1;3P"); cap "k5" "kf5" (lit "![15~"); cap "Fe" "kf50" (lit "![1;3Q");
   cap "Ff" "kf51" (lit "![1;3R"); cap "Fg" "kf52" (lit "![1;3S"); cap "Fh" "kf53" (lit "![15;3~");
   cap "Fi" "kf54" (lit "![17;3~"); cap "Fj" "kf55" (lit "![18;3~"); cap "Fk" "kf56" (lit "![19;3~");
   cap "Fl" "kf57" (lit "![20;3~"); cap "Fm" "kf58" (lit "![21;3~"); cap "Fn" "kf59" (lit "![23;3~");
   cap "k6" "kf6" (lit "![17~"); cap "Fo" "kf60" (lit "![24;3~"); cap "Fp" "kf61" (lit "![1;4P");
   cap "Fq" "kf62" (lit "![1;4Q"); cap "Fr" "kf63" (lit "![1;4R"); cap "k7" "kf7" (lit "![18~");
   cap "k8" "kf8" (lit "![19~"); cap "k9" "kf9" (lit "![20~"); cap "%1" "khlp" (lit "");
   cap "kh" "khome" (lit "!OH"); cap "kI" "kich1" (lit "![2~"); cap "Km" "kmous" (lit "![M");
   cap "kN" "knp" (lit "![6~"); cap "kP" "kpp" (lit "![5~"); cap "&8" "kund" (lit "");
   cap "Ss" "Ss" (lit "![%p1%d q"); cap "Se" "Se" (lit "![ q"); cap "Cs" "Cs" (lit "!]12;%p1%s!\");
   uncoded "Smol" (lit "![53m"); uncoded "Rmol" (lit "![55m"); uncoded "Smulx" (lit "![4:%p1%dm");
   uncoded "Setulc" (lit "![58:2:%p1%{65536}%/%d:%p1%{256}%/%{255}%&%d:%p1%{255}%&%d%;m");
   uncoded "RGB" (lit "8/8/8"); uncoded "Sync" (lit "Sync=![?2026%?%p1%{1}%-%tl%eh")].

Definition Npos : Z := 2 ^ 32 - 1.

(** The loops return the value of the first entry that matches. *)
Definition first_value {T} (matches : Cap T -> bool) (caps : list (Cap T)) : option T :=
  cap_value <$> List.find matches caps.
Definition has_code {T} (code : Z) (c : Cap T) : bool := cap_code c =? code.
Definition answers_to {T} (name : list Z) (c : Cap T) : bool :=
  bool_decide (cap_name c = name) || Code_is (cap_code c) name.

Definition booleanCapability_code (code : Z) : bool := default false (first_value (has_code code) BooleanCaps).
Definition numericCapability_code (code : Z) : Z := default Npos (first_value (has_code code) NumericalCaps).
Definition stringCapability_code (code : Z) : list Z := default [] (first_value (has_code code) StringCaps).
Definition booleanCapability (name : list Z) : bool := default false (first_value (answers_to name) BooleanCaps).
Definition numericCapability (name : list Z) : Z := default Npos (first_value (answers_to name) NumericalCaps).
Definition stringCapability (name : list Z) : list Z := default [] (first_value (answers_to name) StringCaps).

Definition named {T} (name : list Z) (c : Cap T) : bool := bool_decide (cap_name c = name).
Definition first_code {T} (name : list Z) (caps : list (Cap T)) : option Z :=
  cap_code <$> List.find (named name) caps.
Definition codeFromName (name : list Z) : option Z :=
  match first_code name NumericalCaps with
  | Some c => Some c
  | None => match first_code name BooleanCaps with
            | Some c => Some c
            | None => first_code name StringCaps
            end
  end.

(** [terminfo], with range-v3's sort by name as a parameter. *)
Definition boolean_line (c : Cap bool) : list Z :=
  match cap_name c with
  | [] => []
  | name => if cap_value c then bytes "    " ++ name ++ bytes "," ++ [0x0A] else []
  end.
Definition numeric_line (c : Cap Z) : list Z :=
  match cap_name c with
  | [] => []
  | name => bytes "    " ++ name ++ bytes "#" ++ to_string (cap_value c) ++ bytes "," ++ [0x0A]
  end.
Definition string_line (c : Cap (list Z)) : list Z :=
  match cap_name c with
  | [] => []
  | name => bytes "    " ++ name ++ bytes "=" ++ escape (cap_value c) Octal ++ bytes "," ++ [0x0A]
  end.
Definition terminfo (sort : forall T, list (Cap T) -> list (Cap T)) : list Z :=
  bytes "contour|Contour Terminal Emulator," ++ [0x0A]
  ++ concat (map boolean_line (sort _ BooleanCaps))
  ++ concat (map numeric_line (sort _ NumericalCaps))
  ++ concat (map string_line (sort _ StringCaps)).

(** ** XTGETTCAP *)

(** [std::format("{:X}", value)], padded to an even number of digits. *)
Definition even_hex (value : Z) : list Z :=
  let hexValue := hex_digits 8 value in
  if (length hexValue mod 2 =? 0)%nat then hexValue else 0x30 :: hexValue.

Definition asHex (value : list Z) : list Z := concat (map (fun ch => format_02X (u32 (schar ch))) value).

Definition ST : list Z := 0x1B :: bytes "\".
Definition tcap_reply (body : list Z) : list Z := 0x1B :: bytes "P1+r" ++ body ++ ST.
Definition no_tcap_reply : list Z := 0x1B :: bytes "P0+r" ++ ST.

Definition requestCapability (name : list Z) : list Z :=
  if booleanCapability name then tcap_reply (toHexString name)
  else
    let value := numericCapability name in
    if negb (value =? Npos) then tcap_reply (toHexString name ++ bytes "=" ++ even_hex value)
    else match stringCapability name with
         | [] => no_tcap_reply
         | value => tcap_reply (toHexString name ++ bytes "=" ++ asHex value)
         end.
(** By code; the value is unsigned, so that its comparison with 0 always holds. *)
Definition requestCapability_code (code : Z) : list Z :=
  if booleanCapability_code code then tcap_reply (Code_hex code)
  else
    let value := numericCapability_code code in
    if 0 <=? value then tcap_reply (Code_hex code ++ bytes "=" ++ even_hex value)
    else match stringCapability_code code with
         | [] => no_tcap_reply
         | value => tcap_reply (Code_hex code ++ bytes "=" ++ asHex value)
         end.

(** [convert_to<char>] of libunicode, from [char]: text of ASCII characters stays. *)
Class ConvertToChar := convert_to_char : list Z -> list Z.
Class ConvertToCharLaws `{ConvertToChar} :=
  convert_ascii : forall s, Forall (fun c => 0 <= c < 128) s -> convert_to_char s = s.

Section Hook.
Context `{ConvertToChar}.

Definition hookXTGETTCAP (data : list Z) : list Z :=
  concat (map (fun hexCap =>
    match fromHexString (convert_to_char hexCap) with
    | Some name => requestCapability name
    | None => []
    end) (split data 0x3B)).
End Hook.

(** ** What the client asks and reads *)

Definition ascii (s : list Z) : Prop := Forall (fun c => 0 <= c < 128) s.

Inductive Answer := Flag | Number (n : Z) | Str (v : list Z).
(** The database's answer to a name. *)
Definition db_answer (name : list Z) : option Answer :=
  if booleanCapability name then Some Flag
  else match first_value (answers_to name) NumericalCaps with
       | Some n => Some (Number n)
       | None => match stringCapability name with [] => None | v => Some (Str v) end
       end.

(** The text of a request for some names, between [DCS + q] and [ST]. *)
Definition request (names : list (list Z)) : list Z := join 0x3B (map toHexString names).

(** A client that reads the replies one after the other: [DCS 1 + r], the name
    and, behind an equals sign, the value, both with two hexadecimal digits
    for each character. *)
Definition Reply : Type := list Z * option (list Z).
Definition read_body (body : list Z) : option Reply :=
  match find 0x3D body with
  | None => name ← fromHexString body; Some (name, None)
  | Some k => name ← fromHexString (take k body); value ← fromHexString (drop (S k) body); Some (name, Some value)
  end.
Fixpoint read_replies (fuel : nat) (s : list Z) : option (list Reply) :=
  match fuel, s with
  | _, [] => Some []
  | S fuel', 0x1B :: 0x50 :: 0x31 :: 0x2B :: 0x72 :: rest =>
      k ← find 0x1B rest;
      reply ← read_body (take k rest);
      replies ← read_replies fuel' (drop (k + 2) rest);
      Some (reply :: replies)
  | _, _ => None
  end.

(** ** Facts about the tables, by evaluation *)

Definition names_of {T} (c : Cap T) : list (list Z) :=
  cap_name c :: (if cap_code c =? UndefinedCode then [] else [[cap_code c / 256; cap_code c mod 256]]).

Definition found (shadowed : list (list Z)) (a : Answer) (name : list Z) : bool :=
  bool_decide (name ∈ shadowed) ||
  match db_answer name, a with
  | Some Flag, Flag => true
  | Some (Number n), Number m => n =? m
  | Some (Str v), Str w => bool_decide (v = w)
  | None, Str [] => true
  | _, _ => false
  end.
(** The tables have the answer under the name, be it the terminfo name or the
    termcap code. *)
Definition listed (name : list Z) (a : Answer) : Prop :=
  match a with
  | Flag => exists c, c ∈ BooleanCaps /\ name ∈ names_of c
  | Number n => exists c, c ∈ NumericalCaps /\ name ∈ names_of c /\ cap_value c = n
  | Str v => exists c, c ∈ StringCaps /\ name ∈ names_of c /\ cap_value c = v
  end.
Definition tables_found (shadowed : list (list Z)) : bool :=
  forallb (fun c => forallb (found shadowed Flag) (names_of c)) BooleanCaps &&
  forallb (fun c => forallb (found shadowed (Number (cap_value c))) (names_of c)) NumericalCaps &&
  forallb (fun c => forallb (found shadowed (Str (cap_value c))) (names_of c)) StringCaps.

(** Every capability is found under its terminfo name and under its termcap
    code, but for the code "dl", which is the name of another capability, and
    the second entry "Sync". *)
Lemma capabilities_found : tables_found [bytes "dl"; bytes "Sync"] = true.
Proof. vm_compute. reflexivity. Qed.
Example dl_shadowed :
  stringCapability (bytes "dl") = lit "![%p1%dM" /\ stringCapability_code (tcap "dl") = lit "![M".
Proof. vm_compute. done. Qed.
Example sync_shadowed : stringCapability (bytes "Sync") = lit "![?2026%?%p1%{1}%-%tl%eh".
Proof. vm_compute. done. Qed.

Lemma string_values_ascii : Forall (fun c => ascii (cap_value c)) StringCaps.
Proof.
  assert (forallb (fun c => forallb (fun b => (0 <=? b) && (b <? 128)) (cap_value c)) StringCaps = true) as Ht
    by (vm_compute; reflexivity).
  apply Forall_forall. intros c Hc%list_elem_of_In.
  eapply forallb_forall in Ht; [|done]. apply Forall_forall. intros b Hb%list_elem_of_In.
  eapply forallb_forall in Ht; [|done]. lia.
Qed.
(** The names are ASCII text. *)
Definition plain_name (name : list Z) : bool := forallb (fun b => (0 <=? b) && (b <? 128)) name.
Lemma names_plain : forallb (fun c => forallb plain_name (names_of c)) BooleanCaps &&
  forallb (fun c => forallb plain_name (names_of c)) NumericalCaps &&
  forallb (fun c => forallb plain_name (names_of c)) StringCaps = true.
Proof. vm_compute. reflexivity. Qed.

Lemma forall_names {T} p (caps : list (Cap T)) c name : forallb (fun c => forallb (p c) (names_of c)) caps = true ->
  c ∈ caps -> name ∈ names_of c -> p c name = true.
Proof.
  intros Ht Hc%list_elem_of_In Hn%list_elem_of_In. eapply forallb_forall in Ht; [|exact Hc].
  by eapply forallb_forall in Ht; [|exact Hn].
Qed.
Lemma listed_plain name a : listed name a -> ascii name.
Proof.
  intros Hl. assert (plain_name name = true) as Ha.
  { pose proof names_plain as [[Hb Hn]%andb_prop Hs]%andb_prop.
    destruct a; [destruct Hl as (c & Hc & Hi)|destruct Hl as (c & Hc & Hi & _)..].
    - by eapply (forall_names (fun _ => plain_name)) in Hb.
    - by eapply (forall_names (fun _ => plain_name)) in Hn.
    - by eapply (forall_names (fun _ => plain_name)) in Hs. }
  apply Forall_forall. intros b Hb%list_elem_of_In. eapply forallb_forall in Ha; [|exact Hb]. lia.
Qed.

(** What the tables list is what the lookup finds. *)
Definition shadowed_names : list (list Z) := [bytes "dl"; bytes "Sync"].
Lemma listed_found name a : listed name a -> name ∉ shadowed_names -> a <> Str [] -> db_answer name = Some a.
Proof.
  intros Hl Hs Hne. assert (found shadowed_names a name = true) as Hf.
  { pose proof capabilities_found as [[Hb Hn]%andb_prop Hst]%andb_prop.
    destruct a; [destruct Hl as (c & Hc & Hi)|destruct Hl as (c & Hc & Hi & <-)..].
    - by eapply (forall_names (fun _ => found shadowed_names Flag)) in Hb.
    - by eapply (forall_names (fun c => found shadowed_names (Number (cap_value c)))) in Hn.
    - by eapply (forall_names (fun c => found shadowed_names (Str (cap_value c)))) in Hst. }
  unfold found in Hf. rewrite bool_decide_eq_false_2 in Hf by done. cbn [orb] in Hf.
  destruct (db_answer name) as [[|n|v]|], a as [|m|w]; try done; [..|by destruct w].
  - apply Z.eqb_eq in Hf. by subst.
  - apply bool_decide_eq_true in Hf. by subst.
Qed.

(** ** Hexadecimal text is plain *)

Definition hexadecimal (s : list Z) : Prop := Forall (fun c => 0x30 <= c <= 0x39 \/ 0x41 <= c <= 0x46) s.

Lemma hex_digits_plain fuel v : 0 <= v -> hexadecimal (hex_digits fuel v).
Proof.
  revert v. induction fuel as [|fuel IH]; intros v Hv; cbn [hex_digits]; [constructor|].
  apply Forall_app. split.
  - destruct (v <? 16); [constructor|]. apply IH, Z.div_pos; lia.
  - apply Forall_singleton. unfold hex_digit. pose proof (Z.mod_pos_bound v 16 ltac:(lia)). case_match; lia.
Qed.
Lemma format_02X_plain v : 0 <= v -> hexadecimal (format_02X v).
Proof.
  intros Hv. unfold format_02X. apply Forall_app. split; [|by apply hex_digits_plain].
  apply Forall_replicate. lia.
Qed.
Lemma u32_pos v : 0 <= u32 v.
Proof. unfold u32. by apply Z.mod_pos_bound. Qed.
Lemma toHexString_plain s : hexadecimal (toHexString s).
Proof.
  induction s as [|c s IH]; [constructor|]. apply Forall_app. split; [|done].
  apply format_02X_plain, u32_pos.
Qed.
Lemma hexadecimal_without d s : hexadecimal s -> d < 0x30 \/ d = 0x3B \/ d = 0x3D -> Forall (fun c => c <> d) s.
Proof. intros Hs Hd. eapply Forall_impl; [done|]. simpl. lia. Qed.

(** ** Requests and replies *)

Lemma toHexString_ne s : s <> [] -> toHexString s <> [].
Proof.
  destruct s as [|c s]; [done|]. intros _ E. unfold toHexString in E. cbn [map concat] in E.
  apply app_eq_nil in E as [E _]. unfold format_02X in E. apply app_eq_nil in E as [_ E].
  cbn [hex_digits] in E. by apply app_eq_nil in E as [_ E].
Qed.

Section Replies.
Context `{ConvertToCharLaws}.

Lemma hook_request names : Forall (fun name => name <> [] /\ ascii name) names ->
  hookXTGETTCAP (request names) = concat (map requestCapability names).
Proof.
  intros Hn. unfold hookXTGETTCAP, request. rewrite split_joined.
  - f_equal. rewrite map_map. apply map_ext_in. intros name Hin%list_elem_of_In.
    eapply Forall_forall in Hn as [_ Ha]; [|done].
    rewrite convert_ascii, hex_roundtrip; [done..|].
    eapply Forall_impl; [apply toHexString_plain|]. simpl. lia.
  - apply Forall_fmap. eapply Forall_impl; [exact Hn|]. intros name [Hne _]. simpl. split.
    + by apply toHexString_ne.
    + apply hexadecimal_without; [apply toHexString_plain|lia].
Qed.
End Replies.

Lemma read_body_flag name : ascii name -> read_body (toHexString name) = Some (name, None).
Proof.
  intros Ha. unfold read_body. rewrite (proj2 (find_None _ _)).
  - by rewrite hex_roundtrip.
  - apply hexadecimal_without; [apply toHexString_plain|lia].
Qed.
Lemma read_body_value name hexValue value : ascii name -> fromHexString hexValue = Some value ->
  read_body (toHexString name ++ bytes "=" ++ hexValue) = Some (name, Some value).
Proof.
  intros Ha Hv. unfold read_body. change (bytes "=" ++ hexValue) with (0x3D :: hexValue).
  rewrite find_app by (apply hexadecimal_without; [apply toHexString_plain|lia]).
  rewrite take_app_length, hex_roundtrip by done. cbn [mbind option_bind].
  by rewrite (proj2 (cut_app _ _ _)), Hv.
Qed.

(** One reply in front of others is read as one. *)
Lemma read_replies_cons fuel body reply rest : Forall (fun c => c <> 0x1B) body -> read_body body = Some reply ->
  read_replies (S fuel) (tcap_reply body ++ rest) = (replies ← read_replies fuel rest; Some (reply :: replies)).
Proof.
  intros Hb Hr. change (tcap_reply body ++ rest) with (0x1B :: 0x50 :: 0x31 :: 0x2B :: 0x72 :: (body ++ ST) ++ rest).
  cbn [read_replies]. rewrite <- app_assoc. change (ST ++ rest) with (0x1B :: 0x5C :: rest).
  rewrite find_app by done. cbn [mbind option_bind]. rewrite take_app_length, Hr. cbn [mbind option_bind].
  rewrite drop_app, (drop_ge body), Nat.add_comm, Nat.add_sub by lia. done.
Qed.

Lemma first_value_in {T} p (caps : list (Cap T)) v :
  first_value p caps = Some v -> exists c, c ∈ caps /\ cap_value c = v.
Proof.
  unfold first_value. intros (c & [Hc _]%List.find_some & ->)%fmap_Some_1. exists c.
  split; [by apply list_elem_of_In|done].
Qed.
Lemma stringCapability_ascii name : ascii (stringCapability name).
Proof.
  unfold stringCapability. destruct (first_value _ _) as [v|] eqn:E; [|constructor].
  apply first_value_in in E as (c & Hc & <-). simpl.
  apply (proj1 (Forall_forall _ _) string_values_ascii c Hc).
Qed.

Lemma Forall_hex_esc s : hexadecimal s -> Forall (fun c => c <> 0x1B) s.
Proof. intros. by apply hexadecimal_without; [|lia]. Qed.

Definition value_of (a : Answer) : option (list Z) := match a with Str v => Some v | _ => None end.

(** The reply to a flag or a string is read as the database's answer. *)
Lemma reply_read fuel name a rest : ascii name -> db_answer name = Some a -> (forall n, a <> Number n) ->
  read_replies (S fuel) (requestCapability name ++ rest) =
    (replies ← read_replies fuel rest; Some ((name, value_of a) :: replies)).
Proof.
  intros Ha Hdb Hnum. unfold requestCapability, db_answer, numericCapability in *.
  pose proof (Forall_hex_esc _ (toHexString_plain name)) as Hn.
  destruct (booleanCapability name).
  { injection Hdb as <-. apply read_replies_cons; [done|]. by apply read_body_flag. }
  destruct (first_value (answers_to name) NumericalCaps) as [n|]; [by injection Hdb as <-; destruct (Hnum n)|].
  cbn [from_option id negb]. rewrite Z.eqb_refl. cbn [negb].
  pose proof (stringCapability_ascii name) as Hs. destruct (stringCapability name) as [|b v]; [done|].
  injection Hdb as <-. apply read_replies_cons; [|by apply read_body_value; [|apply hex_roundtrip]].
  apply Forall_app. split; [done|]. constructor; [done|]. apply Forall_hex_esc, (toHexString_plain (b :: v)).
Qed.

(** C22: An application asks with one XTGETTCAP request, the names in hexadecimal, for any list
    of flags and non-empty strings of the capability tables, each by its terminfo name or its
    termcap code (names that are not empty and not one of the two shadowed ones, dl and Sync).
    It gets one reply DCS 1 + r for each name, in order, and reading the replies with two
    hexadecimal digits for each character, as the comment of hookXTGETTCAP documents, gives for
    each name the name, and for a string its value in the table; given that libunicode leaves
    ASCII text alone. Numbers are left out, which are sent as the hexadecimal number itself
    (number_not_text), and so are names not in the tables, whose refusals do not repeat the
    name. *)
Theorem xtgettcap_answered `{ConvertToCharLaws} (asked : list (list Z * Answer)) :
  Forall (fun '(name, a) => listed name a /\ (forall n, a <> Number n) /\ a <> Str [] /\
    name <> [] /\ name ∉ shadowed_names) asked ->
  read_replies (length asked) (hookXTGETTCAP (request asked.*1)) = Some ((fun '(name, a) => (name, value_of a)) <$> asked).
Proof.
  intros Hn. rewrite hook_request.
  - induction Hn as [|[name a] asked (Hl & Hnum & Hne & _ & Hs) Hn IH]; [done|]. cbn [fmap list_fmap map concat length fst].
    rewrite (reply_read _ name a); [by rewrite IH|by eapply listed_plain|by apply listed_found|done].
  - apply Forall_fmap. eapply Forall_impl; [exact Hn|]. intros [name a] (Hl & _ & _ & Hne & _). split; [done|]. by eapply listed_plain.
Qed.

Module CapabilityExamples.

#[local] Instance Cap_eq_dec {T} `{EqDecision T} : EqDecision (Cap T).
Proof. solve_decision. Defined.

#[local] Instance identity_convert : ConvertToChar := fun s => s.
#[local] Instance identity_convert_laws : ConvertToCharLaws.
Proof. by intros s. Qed.

Lemma xtgettcap_answered_witness :
  read_replies 3 (hookXTGETTCAP (request [bytes "Tc"; bytes "bold"; bytes "me"])) =
  Some [(bytes "Tc", None); (bytes "bold", Some (lit "![1m")); (bytes "me", Some (lit "!(B![m"))].
Proof.
  apply (xtgettcap_answered [(bytes "Tc", Flag); (bytes "bold", Str (lit "![1m")); (bytes "me", Str (lit "!(B![m"))]).
  assert (Hin : forall c : Cap (list Z), bool_decide (c ∈ StringCaps) = true -> c ∈ StringCaps)
    by (intros c; apply bool_decide_eq_true_1).
  assert (Hsh : forall name, bool_decide (name ∈ shadowed_names) = false -> name ∉ shadowed_names)
    by (intros name; apply bool_decide_eq_false_1).
  apply Forall_cons; split; [|apply Forall_cons; split; [|apply Forall_cons; split; [|constructor]]];
    (split; [|split; [discriminate|split; [discriminate|split; [discriminate|apply Hsh; vm_compute; reflexivity]]]]).
  - exists (cap "Tc" "Tc" true). split; [apply (bool_decide_eq_true_1 _); vm_compute; reflexivity|apply list_elem_of_here].
  - exists (cap "md" "bold" (lit "![1m")). split; [apply Hin; vm_compute; reflexivity|].
    split; [apply list_elem_of_here|reflexivity].
  - exists (cap "me" "sgr0" (lit "!(B![m")). split; [apply Hin; vm_compute; reflexivity|].
    split; [apply list_elem_of_further, list_elem_of_here|reflexivity].
Defined.
End CapabilityExamples.

(** A request by code never gets the string: the number is unsigned. *)
Example string_by_code_lost :
  requestCapability_code (tcap "md") = 0x1B :: bytes "P1+r6D64=FFFFFFFF" ++ ST.
Proof. vm_compute. reflexivity. Qed.
(** The bell is announced as the two characters of its terminfo notation. *)
Example bell_in_notation : requestCapability (bytes "bel") = 0x1B :: bytes "P1+r62656C=5E47" ++ ST.
Proof. vm_compute. reflexivity. Qed.
(** A number is sent in hexadecimal, not as the hexadecimal of its digits. *)
Example number_not_text : requestCapability (bytes "it") = 0x1B :: bytes "P1+r6974=08" ++ ST.
Proof. vm_compute. reflexivity. Qed.
(** [operator!=] of two entries is their equality. *)
Example cap_ne_is_eq : cap_ne (cap "am" "am" true) (cap "am" "am" true) = true.
Proof. reflexivity. Qed.

(** ** terminfo lists every capability with a name *)

Section Terminfo.
Variable sort : forall T, list (Cap T) -> list (Cap T).
Hypothesis sort_permutes : forall T l, Permutation (sort T l) l.

Lemma concat_elem {A} (f : A -> list Z) x l : x ∈ l -> exists pre post, concat (map f l) = pre ++ f x ++ post.
Proof.
  induction 1 as [x l|x y l Hx (pre & post & E)]; cbn [map concat].
  - by exists [], (concat (map f l)).
  - exists (f y ++ pre), post. by rewrite E, app_assoc.
Qed.
Lemma terminfo_lists c : c ∈ StringCaps -> exists pre post, terminfo sort = pre ++ string_line c ++ post.
Proof.
  intros Hc. destruct (concat_elem string_line c (sort _ StringCaps)) as (pre & post & E).
  { by rewrite sort_permutes. }
  unfold terminfo. rewrite E. generalize (string_line c) as here.
  generalize (concat (map boolean_line (sort _ BooleanCaps))) as A.
  generalize (concat (map numeric_line (sort _ NumericalCaps))) as B.
  generalize (bytes "contour|Contour Terminal Emulator,") as header. intros.
  exists (header ++ [0x0A] ++ A ++ B ++ pre), post. by rewrite <- !app_assoc.
Qed.
End Terminfo.
