(* ===== verification/Reports.v ===== *)
(** * Reports to the application (src/vtbackend/Screen.cpp, Screen.h, VTType.h, VTType.cpp)

    Device status, device attributes, the cursor's position, status strings
    (DECRQSS), tab stops, and the capture of the text on the screen, as the
    bytes the terminal replies with.  What a report reads of the terminal and
    not of the screen is in [Device]; the version of the program is a parameter.

    Proved: the rendition, the cursor style and the cursor position that are
    reported are restored when the report is sent back as a command; a capture
    of the screen arrives in chunks of bounded size that are the text of the
    lines asked for. *)
From Stdlib Require Import String.
From stdpp Require Import list.
From S2P Require Import Prelude Parser Sequence Functions Color Cell Ring Line Grid Sgr Charset Screen Text VTWriter Dispatch Terminal.

(** [reply(fmt, ...)]: ESC and text; [{}] of an [int]. *)
Definition esc (s : string) : list Z := 0x1B :: bytes s.
Definition format_int (v : Z) : list Z := if v <? 0 then bytes "-" ++ to_string (- v) else to_string v.

(** ** Device attributes *)

Inductive DeviceAttribute :=
| Columns132 | Printer | SelectiveErase | UserDefinedKeys | NationalReplacementCharacterSets
| TechnicalCharacters | AnsiColor | AnsiTextLocator | SixelGraphics | RectangularEditing | Windowing
| CaptureScreenBuffer.
Definition DeviceAttribute_value (a : DeviceAttribute) : Z :=
  match a with
  | Columns132 => Z.shiftl 1 0 | Printer => Z.shiftl 1 1 | SelectiveErase => Z.shiftl 1 2
  | UserDefinedKeys => Z.shiftl 1 3 | NationalReplacementCharacterSets => Z.shiftl 1 4
  | TechnicalCharacters => Z.shiftl 1 5 | AnsiColor => Z.shiftl 1 6 | AnsiTextLocator => Z.shiftl 1 7
  | SixelGraphics => Z.shiftl 1 8 | RectangularEditing => Z.shiftl 1 9 | Windowing => Z.shiftl 1 10
  | CaptureScreenBuffer => Z.shiftl 1 11
  end.
Definition attributes (l : list DeviceAttribute) : Z := foldl (fun v a => Z.lor v (DeviceAttribute_value a)) 0 l.
Definition has_attribute (v : Z) (a : DeviceAttribute) : bool := negb (Z.land v (DeviceAttribute_value a) =? 0).

Definition append_part (separator : list Z) (s part : list Z) : list Z :=
  match s with [] => part | _ => s ++ separator ++ part end.
Definition attribute_names : list (DeviceAttribute * list Z) :=
  [(AnsiColor, bytes "AnsiColor"); (AnsiTextLocator, bytes "AnsiTextLocator"); (Columns132, bytes "Columns132");
   (NationalReplacementCharacterSets, bytes "NationalReplacementCharacterSets"); (Printer, bytes "Printer");
   (RectangularEditing, bytes "RectangularEditing"); (SelectiveErase, bytes "SelectiveErase");
   (SixelGraphics, bytes "SixelGraphics"); (TechnicalCharacters, bytes "TechnicalCharacters");
   (UserDefinedKeys, bytes "UserDefinedKeys"); (Windowing, bytes "Windowing")].
Definition attributes_to_string (v : Z) : list Z :=
  foldl (fun s m => if has_attribute v m.1 then append_part (bytes ",") s m.2 else s) [] attribute_names.
Definition attribute_params : list (DeviceAttribute * list Z) :=
  [(AnsiColor, bytes "22"); (AnsiTextLocator, bytes "29"); (CaptureScreenBuffer, bytes "314");
   (Columns132, bytes "1"); (NationalReplacementCharacterSets, bytes "9"); (Printer, bytes "2");
   (RectangularEditing, bytes "28"); (SelectiveErase, bytes "6"); (SixelGraphics, bytes "4");
   (TechnicalCharacters, bytes "15"); (UserDefinedKeys, bytes "8"); (Windowing, bytes "18")].
Definition to_params (v : Z) : list Z :=
  foldl (fun s m => if has_attribute v m.1 then append_part (bytes ";") s m.2 else s) [] attribute_params.

(** DA1 *)
Definition sendDeviceAttributes (terminalId : VTType) : list Z :=
  let id := match terminalId with
            | VT100 => bytes "1"
            | VT220 | VT240 => bytes "62"
            | VT320 | VT330 | VT340 => bytes "63"
            | VT420 => bytes "64"
            | VT510 | VT520 | VT525 => bytes "65"
            end in
  let attrs := to_params (attributes [AnsiColor; CaptureScreenBuffer; Columns132; RectangularEditing;
                                      SixelGraphics; UserDefinedKeys]) in
  esc "[?" ++ id ++ bytes ";" ++ attrs ++ bytes "c".
(** DA2, with the version's three numbers. *)
Definition sendTerminalId (major minor patch : Z) (terminalId : VTType) : list Z :=
  let Pv := (major * 100 + minor) * 100 + patch in
  esc "[>" ++ to_string (VTType_value terminalId) ++ bytes ";" ++ to_string Pv ++ bytes ";0c".

(** ** Status reports *)

Inductive CursorDisplay := Steady | Blink.
Inductive CursorShape := Block | Rectangle | Underscore | Bar.
Record CursorStyle := mkStyle { cursorDisplay : CursorDisplay; cursorShape : CursorShape }.

(** What the reports read of the terminal. *)
Record Device := mkDevice {
  terminalId : VTType;
  cursorStyle : CursorStyle;
  activeStatusDisplay : ActiveStatusDisplay;
  statusDisplayType : StatusDisplayType;
  foregroundOfPalette : RGBColor;
  pixelSize : Z * Z;
  cellPixelSize : Z * Z
}.

Inductive RequestPixelSize := CellArea | TextArea | WindowArea.
Inductive RequestStatusString :=
| rqSGR | rqDECSCL | rqDECSCUSR | rqDECSCA | rqDECSTBM | rqDECSLRM | rqDECSLPP | rqDECSCPP | rqDECSNLS
| rqDECSASD | rqDECSSDT.

Definition isLightColor (c : RGBColor) : bool := 8 * 128 <? 5 * green c + 2 * red c + blue c.

(** [Settings::cursorDisplay] and [_cursorDisplay] are written together, and so are the shapes. *)
Definition setCursorStyle (display : CursorDisplay) (shape : CursorShape) : CursorStyle := mkStyle display shape.
Definition DECSCUSR (factory : CursorStyle) (seq : Sequence) (style : CursorStyle) : CursorStyle * ApplyResult :=
  if (parameterCount seq <=? 1)%nat then
    let p := param_or seq 0 0 in
    if p =? 0 then (setCursorStyle (cursorDisplay factory) (cursorShape factory), Ok)
    else if p =? 1 then (setCursorStyle Blink Block, Ok)
    else if p =? 2 then (setCursorStyle Steady Block, Ok)
    else if p =? 3 then (setCursorStyle Blink Underscore, Ok)
    else if p =? 4 then (setCursorStyle Steady Underscore, Ok)
    else if p =? 5 then (setCursorStyle Blink Bar, Ok)
    else if p =? 6 then (setCursorStyle Steady Bar, Ok)
    else (style, Invalid)
  else (style, Invalid).

Definition deviceStatusReport : list Z := esc "[0n".
Definition ColorPaletteUpdateDsrRequestId : Z := 996.
Definition ColorPaletteUpdateDsrReplyId : Z := 997.
Definition reportColorPaletteUpdate (d : Device) : list Z :=
  let modeHint := if isLightColor (foregroundOfPalette d) then 1 else 2 in
  esc "[?" ++ to_string ColorPaletteUpdateDsrReplyId ++ bytes ";" ++ to_string modeHint ++ bytes "n".

Definition requestPixelSize (d : Device) (area : RequestPixelSize) : list Z :=
  match area with
  | WindowArea | TextArea =>
      esc "[4;" ++ to_string (pixelSize d).2 ++ bytes ";" ++ to_string (pixelSize d).1 ++ bytes "t"
  | CellArea =>
      esc "[6;" ++ to_string (cellPixelSize d).2 ++ bytes ";" ++ to_string (cellPixelSize d).1 ++ bytes "t"
  end.

Section Reports.
Context `{LibUnicode, UnicodeWidth, GraphemeSegmenter, Utf8Encoder} `{CellConcept Cell}.
Abbreviation Screen := (Screen.Screen Cell).
Abbreviation Line := (Line Cell).
Implicit Types s : Screen.

Definition cursor_report s : list Z :=
  let p := logicalCursorPosition s in
  esc "[" ++ format_int (line p + 1) ++ bytes ";" ++ format_int (column p + 1) ++ bytes "R".
Definition reportExtendedCursorPosition s : list Z :=
  let p := logicalCursorPosition s in
  esc "[" ++ format_int (line p + 1) ++ bytes ";" ++ format_int (column p + 1) ++ bytes ";1R".

(** [None] is a parameter that is not there. *)
Definition ANSIDSR (seq : Sequence) s : option (ApplyResult * list Z) :=
  p ← param seq 0;
  Some (if p =? 5 then (Ok, deviceStatusReport)
        else if p =? 6 then (Ok, cursor_report s)
        else (Unsupported, [])).
Definition DSR (seq : Sequence) (d : Device) : option (ApplyResult * list Z) :=
  p ← param seq 0;
  Some (if p =? ColorPaletteUpdateDsrRequestId then (Ok, reportColorPaletteUpdate d) else (Unsupported, [])).

(** [None] is the failed Guarantee. *)
Definition requestCharacterSize s (area : RequestPixelSize) : option (list Z) :=
  match area with
  | TextArea => Some (esc "[8;" ++ to_string (lines (pageSize s)) ++ bytes ";"
                      ++ to_string (columns (pageSize s)) ++ bytes "t")
  | WindowArea => Some (esc "[9;" ++ to_string (lines (pageSize s)) ++ bytes ";"
                        ++ to_string (columns (pageSize s)) ++ bytes "t")
  | CellArea => None
  end.

Definition status_string (d : Device) s (value : RequestStatusString) : option (list Z) :=
  match value with
  | rqDECSCL =>
      let level := match terminalId d with
                   | VT525 | VT520 | VT510 => 65
                   | VT420 => 64
                   | VT340 | VT330 | VT320 => 63
                   | VT240 | VT220 => 62
                   | VT100 => 61
                   end in
      Some (to_string level ++ bytes ";1" ++ [0x22] ++ bytes "p")
  | rqDECSCUSR =>
      let blinkingOrSteady := match cursorDisplay (cursorStyle d) with Steady => 1 | Blink => 0 end in
      let shape := match cursorShape (cursorStyle d) with
                   | Block => 1 | Underscore => 3 | Bar => 5 | Rectangle => 7
                   end in
      Some (to_string (shape + blinkingOrSteady) ++ bytes " q")
  | rqDECSLPP =>
      if 24 <=? lines (pageSize s) then Some (to_string (lines (pageSize s)) ++ bytes "t") else None
  | rqDECSTBM =>
      Some (to_string (1 + from (vertical (_margin s))) ++ bytes ";" ++ to_string (to (vertical (_margin s)))
            ++ bytes "r")
  | rqDECSLRM =>
      Some (to_string (1 + from (horizontal (_margin s))) ++ bytes ";" ++ to_string (to (horizontal (_margin s)))
            ++ bytes "s")
  | rqDECSCPP => Some (to_string (columns (pageSize s)) ++ bytes "|$")
  | rqDECSNLS => Some (to_string (lines (pageSize s)) ++ bytes "*|")
  | rqSGR => Some (bytes "0;" ++ vtSequenceParameterString (graphicsRendition (_cursor s)) ++ bytes "m")
  | rqDECSCA =>
      let isProtected :=
        Flags.any (Flags.both (attr_flags (graphicsRendition (_cursor s))) CellFlag.CharacterProtected) in
      Some (to_string (if isProtected then 1 else 2) ++ [0x22] ++ bytes "q")
  | rqDECSASD =>
      Some (match activeStatusDisplay d with
            | MainDisplay => bytes "0$}" | StatusLine => bytes "1$}" | IndicatorStatusLine => bytes "2$}"
            end)
  | rqDECSSDT =>
      Some (match statusDisplayType d with
            | NoStatusLine => bytes "0$~" | Indicator => bytes "1$~" | HostWritable => bytes "2$~"
            end)
  end.
Definition status_reply (valid : bool) (body : list Z) : list Z :=
  esc "P" ++ to_string (if valid then 1 else 0) ++ bytes "$r" ++ body ++ esc "\".
Definition requestStatusString (d : Device) s (value : RequestStatusString) : list Z :=
  let response := status_string d s value in
  status_reply (bool_decide (is_Some response)) (default [] response).

Definition status_requests : list (list Z * RequestStatusString) :=
  [(bytes "m", rqSGR); (0x22 :: bytes "p", rqDECSCL); (bytes " q", rqDECSCUSR); (0x22 :: bytes "q", rqDECSCA);
   (bytes "r", rqDECSTBM); (bytes "s", rqDECSLRM); (bytes "t", rqDECSLPP); (bytes "$|", rqDECSCPP);
   (bytes "$}", rqDECSASD); (bytes "$~", rqDECSSDT); (bytes "*|", rqDECSNLS)].
Definition hookDECRQSS (d : Device) s (data : list Z) : list Z :=
  match List.find (fun mapping => bool_decide (mapping.1 = data)) status_requests with
  | Some mapping => requestStatusString d s mapping.2
  | None => []
  end.

(** ** Tab stops *)

(** The loop over the default stops. *)
Fixpoint default_stops (fuel : nat) (column columns : Z) : list Z :=
  match fuel with
  | O => []
  | S fuel => if column <=? columns
              then bytes "/" ++ to_string column ++ default_stops fuel (column + TabWidth) columns else []
  end.
Definition requestTabStops s : list Z :=
  esc "P2$u" ++
  match screen_tabs s with
  | [] => to_string 1 ++ default_stops (Z.to_nat (columns (pageSize s))) (TabWidth + 1) (columns (pageSize s))
  | t :: ts => to_string (t + 1) ++ concat (map (fun t => bytes "/" ++ to_string (t + 1)) ts)
  end ++ esc "\".
Definition DECRQPSR (seq : Sequence) s : option (ApplyResult * list Z) :=
  if negb (parameterCount seq =? 1)%nat then Some (Invalid, [])
  else p ← param seq 0;
       Some (if p =? 1 then (Invalid, []) else if p =? 2 then (Ok, requestTabStops s) else (Invalid, [])).

(** ** Capturing the screen's text *)

Definition CaptureBufferCode : Z := 314.
Definition MaxChunkSize : Z := 4096.
Definition chunk_start : list Z := esc "^" ++ to_string CaptureBufferCode ++ bytes ";".
Record Capture := mkCapture { replied : list Z; currentChunkSize : Z }.

Definition pushContent (c : Capture) (data : list Z) : Capture :=
  match data with
  | [] => c
  | _ =>
      let n := Z.of_nat (length data) in
      if currentChunkSize c =? 0 then mkCapture (replied c ++ chunk_start ++ data) n
      else if MaxChunkSize <=? currentChunkSize c + n
      then mkCapture (replied c ++ esc "\" ++ chunk_start ++ data) n
      else mkCapture (replied c ++ data) (currentChunkSize c + n)
  end.
(** The cells of a line, as many at a time as the chunk has bytes left. *)
Fixpoint capture_cells (fuel : nat) (cells : list Cell) (c : Capture) : option Capture :=
  match cells, fuel with
  | [], _ => Some c
  | _, O => None
  | _, S fuel =>
      let available := u64 (MaxChunkSize - currentChunkSize c) in
      let n := Z.to_nat (Z.min available (Z.of_nat (length cells))) in
      capture_cells fuel (drop n cells) (foldl pushContent c (cell_toUtf8 <$> take n cells))
  end.
(** [capturedBuffer] stays empty, so that its [pop_back] is never reached. *)
Definition capture_line (l : Line) (c : Capture) : option Capture :=
  cells ← trim_blank_right l;
  match cells with
  | [] => Some c
  | _ => c ← capture_cells (length cells) cells c; Some (pushContent c [0x0A])
  end.
Fixpoint capture_lines s (fuel : nat) (y : Z) (c : Capture) : option Capture :=
  match fuel with
  | O => Some c
  | S fuel => l ← lineAt (_grid s) y; c ← capture_line l c; capture_lines s fuel (y + 1) c
  end.
Definition capture_start s (lineCount : Z) (logicalLines : bool) : option Z :=
  relativeStartLine ← (if logicalLines then computeLogicalLineNumberFromBottom (_grid s) lineCount
                       else Some (lines (pageSize s) - lineCount));
  Some (clamp relativeStartLine (- historyLineCount (_grid s)) (lines (pageSize s))).
Definition captureBuffer s (lineCount : Z) (logicalLines : bool) : option (list Z) :=
  startLine ← capture_start s lineCount logicalLines;
  c ← capture_lines s (Z.to_nat (lines (pageSize s) - startLine)) startLine (mkCapture [] 0);
  Some (replied c ++ (if currentChunkSize c =? 0 then [] else esc "\") ++ chunk_start ++ esc "\").
(** CAPTURE asks the user interface for a capture; [pageLines] is the terminal's. *)
Definition CAPTURE (pageLines : Z) (seq : Sequence) : ApplyResult * option (Z * bool) :=
  let logicalLines := param_or seq 0 0 in
  if negb (logicalLines =? 0) && negb (logicalLines =? 1) then (Invalid, None)
  else (Ok, Some (param_or seq 1 pageLines, negb (logicalLines =? 0))).

(** ** The capture in chunks *)

Definition short (data : list Z) : Prop := Z.of_nat (length data) < MaxChunkSize.
Definition chunk (data : list Z) : list Z := chunk_start ++ data ++ esc "\".

(** What has been replied: closed chunks and the text of an open one. *)
Record captured (c : Capture) (closed : list (list Z)) (opened : list Z) : Prop := {
  cap_replied : replied c = mjoin (chunk <$> closed) ++ (if decide (opened = []) then [] else chunk_start ++ opened);
  cap_size : currentChunkSize c = Z.of_nat (length opened);
  cap_closed : Forall (fun data => data <> [] /\ short data) closed;
  cap_opened : short opened
}.
(** More text has been replied. *)
Definition adds_text (c c' : Capture) (text : list Z) : Prop :=
  forall closed opened, captured c closed opened -> exists closed' opened',
    captured c' closed' opened' /\ mjoin closed' ++ opened' = mjoin closed ++ opened ++ text.

Lemma adds_refl c : adds_text c c [].
Proof. intros closed opened Hc. exists closed, opened. by rewrite app_nil_r. Qed.
Lemma adds_trans c1 c2 c3 t1 t2 : adds_text c1 c2 t1 -> adds_text c2 c3 t2 -> adds_text c1 c3 (t1 ++ t2).
Proof.
  intros He1 He2 closed opened Hc. destruct (He1 _ _ Hc) as (cl & op & Hc2 & E).
  destruct (He2 _ _ Hc2) as (cl' & op' & Hc3 & E'). exists cl', op'. split; [done|].
  by rewrite E', !app_assoc, E, <- !app_assoc.
Qed.

Lemma pushContent_extends c data : short data -> adds_text c (pushContent c data) data.
Proof.
  intros Hd closed opened [Hr Hs Hcl Hop]. destruct data as [|b data]; [by apply adds_refl|].
  unfold pushContent. set (d := b :: data) in *. rewrite Hs.
  destruct (Z.eqb_spec (Z.of_nat (length opened)) 0) as [E|Ne]; cbv zeta.
  - destruct opened; [|done]. exists closed, d. split; [|done]. split; simpl; [|done..].
    rewrite Hr. simpl. by rewrite app_nil_r.
  - assert (opened <> []) as Hne by (by destruct opened).
    rewrite decide_False in Hr by done.
    destruct (Z.leb_spec MaxChunkSize (Z.of_nat (length opened) + Z.of_nat (length d))).
    + exists (closed ++ [opened]), d. split; [|by rewrite join_app; simpl; rewrite app_nil_r, <- app_assoc].
      split; simpl; [|done| |done].
      * rewrite Hr, fmap_app, join_app. cbn [fmap list_fmap mjoin list_join].
        unfold chunk. by rewrite app_nil_r, <- !app_assoc.
      * apply Forall_app. by repeat constructor.
    + exists closed, (opened ++ d). split; [|done]. split; cbn [replied currentChunkSize]; [|by rewrite length_app; lia|done|].
      * rewrite Hr, decide_False by (by destruct opened). by rewrite <- !app_assoc.
      * unfold short. rewrite length_app. lia.
Qed.
Lemma pushes_extend l c : Forall short l -> adds_text c (foldl pushContent c l) (mjoin l).
Proof.
  intros Hl. revert c. induction Hl as [|d l Hd Hl IH]; intros c; [apply adds_refl|].
  eapply adds_trans; [by apply pushContent_extends|apply IH].
Qed.

(** Each round of the loop takes a cell, so that the cells are enough fuel. *)
Lemma capture_cells_extends fuel cells c closed opened :
  (length cells <= fuel)%nat -> Forall (fun cell => short (cell_toUtf8 cell)) cells -> captured c closed opened ->
  exists c', capture_cells fuel cells c = Some c' /\ adds_text c c' (mjoin (cell_toUtf8 <$> cells)).
Proof.
  revert cells c closed opened. induction fuel as [|fuel IH]; intros cells c closed opened Hf Hs Hc.
  { destruct cells; [|simpl in Hf; lia]. exists c. split; [done|apply adds_refl]. }
  destruct cells as [|x cells]; [exists c; split; [done|apply adds_refl]|].
  cbn [capture_cells]. cbv zeta. set (l := x :: cells) in *.
  pose proof (cap_size _ _ _ Hc) as Hz. pose proof (cap_opened _ _ _ Hc) as Ho. unfold short in Ho.
  rewrite u64_small by (unfold MaxChunkSize in *; lia). rewrite Hz.
  set (n := Z.to_nat _). assert (1 <= n <= length l)%nat as Hn by (unfold n, l in *; simpl in *; lia).
  assert (adds_text c (foldl pushContent c (cell_toUtf8 <$> take n l)) (mjoin (cell_toUtf8 <$> take n l))) as He.
  { apply pushes_extend, Forall_fmap, Forall_take. exact Hs. }
  destruct (He _ _ Hc) as (cl & op & Hc2 & _).
  destruct (IH (drop n l) (foldl pushContent c (cell_toUtf8 <$> take n l)) cl op) as (c' & E & He'); [rewrite length_drop; lia|by apply Forall_drop|done|].
  exists c'. split; [done|]. rewrite <- (take_drop n l) at 1. rewrite fmap_app, join_app. by eapply adds_trans.
Qed.

(** The text a line shows, up to its last cell that is not empty and ended by a
    newline: a cell nothing was written to shows a space, and an empty line
    shows nothing. *)
Definition captured_text (l : Line) : option (list Z) :=
  cells ← inflatedBuffer l;
  Some (match trim_right cells with [] => [] | shown => mjoin (cell_text <$> shown) ++ [0x0A] end).
(** Something was written to every cell up to the last that is not empty. *)
Definition no_gaps (l : Line) : Prop :=
  forall cells, inflatedBuffer l = Some cells -> Forall (fun cell => cell_codepoints cell <> []) (trim_right cells).
(** No cell has more text than a chunk can hold. *)
Definition short_cells (l : Line) : Prop :=
  forall cells, trim_blank_right l = Some cells -> Forall (fun cell => short (cell_toUtf8 cell)) cells.

Lemma capture_line_extends l c closed opened text :
  short_cells l -> no_gaps l -> captured_text l = Some text -> captured c closed opened ->
  exists c', capture_line l c = Some c' /\ adds_text c c' text.
Proof.
  intros Hs Hg Ht Hc. unfold captured_text, capture_line, short_cells, no_gaps, trim_blank_right in *.
  destruct (inflatedBuffer l) as [buffer|]; [|done]. specialize (Hg _ eq_refl).
  specialize (Hs _ eq_refl). change (trim_right <$> Some buffer) with (Some (trim_right buffer)).
  cbn [mbind option_bind] in *. injection Ht as <-.
  assert (Etext : cell_text <$> trim_right buffer = cell_toUtf8 <$> trim_right buffer).
  { apply list_fmap_ext. intros i x Hx. rewrite Forall_lookup in Hg. specialize (Hg i x Hx). unfold cell_text.
    by destruct (cell_codepoints x). }
  destruct (trim_right buffer) as [|x cells]; [exists c; split; [done|apply adds_refl]|].
  change (cell_text x ++ _) with (mjoin (cell_text <$> x :: cells)). rewrite Etext.
  destruct (capture_cells_extends (length (x :: cells)) (x :: cells) c closed opened) as (c' & -> & He); [done..|].
  eexists. split; [done|]. eapply adds_trans; [done|]. by apply pushContent_extends.
Qed.

Lemma capture_lines_extends s y c closed opened ls texts :
  (forall k, (k < length ls)%nat -> lineAt (_grid s) (y + Z.of_nat k) = ls !! k) ->
  Forall short_cells ls -> Forall no_gaps ls -> mapM captured_text ls = Some texts -> captured c closed opened ->
  exists c', capture_lines s (length ls) y c = Some c' /\ adds_text c c' (mjoin texts).
Proof.
  intros Hat Hs Hg Ht Hc. revert y c closed opened texts Hat Hg Ht Hc.
  induction Hs as [|l ls Hl Hs IH]; intros y c closed opened texts Hat Hg Ht Hc.
  { injection Ht as <-. exists c. split; [done|apply adds_refl]. }
  cbn [length capture_lines]. pose proof (Hat 0%nat ltac:(simpl; lia)) as Hat0. rewrite Z.add_0_r in Hat0.
  rewrite Hat0. cbn [lookup list_lookup mbind option_bind]. apply mapM_Some_1 in Ht.
  inversion Ht as [|? text ? texts' Ht1 Ht2]; subst.
  apply Forall_cons in Hg as [Hg1 Hg].
  destruct (capture_line_extends l c closed opened text) as (c1 & -> & He); [done..|]. cbn [mbind option_bind].
  destruct (He _ _ Hc) as (cl & op & Hc1 & _).
  destruct (IH (y + 1) c1 cl op texts') as (c' & E & He'); [|done|by apply mapM_Some_2|done|].
  - intros k Hk. specialize (Hat (S k) ltac:(simpl; lia)). simpl in Hat. rewrite <- Hat. f_equal. lia.
  - exists c'. split; [done|]. by eapply adds_trans.
Qed.

(** The first of [n] lines above the bottom, as far as there are. *)
Lemma capture_start_some s n : screen_ok s -> 0 <= n ->
  exists start, capture_start s n false = Some start /\ - historyLineCount (_grid s) <= start <= lines (pageSize s) /\
    start = Z.max (- historyLineCount (_grid s)) (lines (pageSize s) - n).
Proof.
  intros Hs Hn. destruct (ok_grid s Hs) as [[Hr Hl Hu] _]. unfold capture_start, pageSize, historyLineCount in *.
  cbn [mbind option_bind]. eexists. split; [done|]. unfold clamp. repeat case_match; lia.
Qed.

Lemma contents_length s : screen_ok s ->
  Z.of_nat (length (contents (_grid s))) = historyLineCount (_grid s) + lines (pageSize s).
Proof.
  intros Hs. destruct (ok_grid s Hs) as [Hg _]. destruct (grid_split _ Hg) as (U & _ & HA & HH & _).
  unfold contents, pageSize. rewrite length_app. lia.
Qed.

(** C20: Capturing n >= 0 physical lines of a valid screen - the last n lines of history and
    page, as far as there are - in which every cell up to the last that is not empty was written
    to and holds less than 4096 bytes, ends, and its replies are private messages whose texts
    are not empty, are shorter than 4096 bytes, and together are the text of these lines: each
    up to its last cell that is not empty and ended by a newline, empty lines left out; an empty
    message marks the end. Captures of logical lines are not covered: they come out split where
    they were wrapped, and cells not written to are left out inside of a line
    (capture_loses_gaps). *)
Theorem capture_correct s n texts : screen_ok s -> 0 <= n ->
  let ls := drop (length (contents (_grid s)) - Z.to_nat n) (contents (_grid s)) in
  Forall short_cells ls -> Forall no_gaps ls -> mapM captured_text ls = Some texts ->
  exists chunks, captureBuffer s n false = Some (mjoin (chunk <$> chunks ++ [[]])) /\
    mjoin chunks = mjoin texts /\ Forall (fun data => data <> [] /\ short data) chunks.
Proof.
  intros Hs Hpos. destruct (capture_start_some s n Hs Hpos) as (start & Es & Hb & Hn).
  pose proof (contents_length s Hs) as Hlen. destruct (ok_grid s Hs) as [Hg _].
  set (h := historyLineCount (_grid s)) in *. set (k := Z.to_nat (h + start)).
  assert (length (contents (_grid s)) - Z.to_nat n = k)%nat as ->.
  { pose proof (ok_lines _ Hg). unfold k, pageSize in *. lia. }
  intros ls Hsh Hgap Ht. assert (length ls = Z.to_nat (lines (pageSize s) - start)) as Hll.
  { unfold ls, k. rewrite length_drop. lia. }
  destruct (capture_lines_extends s start (mkCapture [] 0) [] [] ls texts) as (c & Ec & He); [|done..|].
  { intros i Hi. rewrite lineAt_contents by (done || (fold h; unfold pageSize in *; lia)). fold h. unfold ls.
    rewrite lookup_drop. f_equal. unfold k. lia. }
  destruct (He [] []) as (closed & opened & [Hr Hz Hcl Hop] & Htext); [by split|]. simpl in Htext.
  unfold captureBuffer. rewrite Es. cbn [mbind option_bind]. rewrite <- Hll, Ec. cbn [mbind option_bind].
  rewrite Hz, Hr. destruct (decide (opened = [])) as [->|Hne].
  - exists closed. rewrite app_nil_r in Htext. split_and!; [|done..].
    rewrite fmap_app, join_app. simpl. by rewrite !app_nil_r.
  - exists (closed ++ [opened]). rewrite join_app. simpl. rewrite app_nil_r. split_and!; [|done|].
    + destruct (Z.eqb_spec (Z.of_nat (length opened)) 0); [by destruct opened|].
      rewrite !fmap_app, !join_app. unfold chunk.
      cbn [fmap list_fmap mjoin list_join]. by rewrite !app_nil_r, <- !app_assoc.
    + apply Forall_app. by repeat constructor.
Qed.

(** ** What is reported can be sent back *)

(** The SGR report resets first, so that it restores the rendition from any other. *)
Lemma sgr_report a : printable_attrs a ->
  exists more, bytes "0;" ++ vtSequenceParameterString a = params_text [0x30] more /\
    Forall (fun q => digits q.2) more /\
    forall b seq, is_csi None [0x30] more [] 0x6D seq -> (length more < 16)%nat ->
      applySGR b seq 0 (parameterCount seq) = Some a.
Proof.
  intros Ha. destruct (attr_items_spec a Ha) as [Hok Hfold]. destruct (attr_items_text a) as [Htext Hsmall].
  destruct (color_items_spec Fg _ ltac:(done) (printable_fg a Ha)) as (k & Ek & _).
  destruct (spell_start (attr_items a)) as (v & l & El); [unfold attr_items; by rewrite Ek|].
  rewrite El in Hsmall. destruct (render_carried v l Hsmall) as (Hd1 & Hd2 & Hc).
  exists ((false, to_string v) :: render_more l). split_and!.
  - by rewrite Htext, El.
  - by constructor.
  - intros b seq (_ & _ & _ & _ & _ & Hp) H16.
    rewrite (applySGR_spelled _ _ b seq [0x30] _ (IRendition Reset :: attr_items a) Hp H16).
    + cbn [foldl apply_item]. by rewrite <- Hfold at 2.
    + constructor; [by eexists|done].
    + change (mjoin (encode_item <$> IRendition Reset :: attr_items a))
        with ((false, 0) :: mjoin (encode_item <$> attr_items a)).
      rewrite El. unfold carried in *. cbn [fmap list_fmap] in *. by rewrite Hc.
Qed.

(** The position the cursor report carries. *)
Lemma cursor_report_back s : screen_ok s ->
  (originMode (_cursor s) = true -> from (vertical (_margin s)) <= cursor_line s /\
                                    from (horizontal (_margin s)) <= cursor_column s) ->
  lines (pageSize s) <= 10 ^ 9 -> columns (pageSize s) <= 10 ^ 9 ->
  exists y x, cursor_report s = esc "[" ++ y ++ bytes ";" ++ x ++ bytes "R" /\ digits y /\ digits x /\
    moveCursorTo s (decimal y - 1) (decimal x - 1) = set_pending s false.
Proof.
  intros Hs Hin Hl Hc. destruct (ok_line s Hs) as [Hl0 Hl1]. destruct (ok_column s Hs) as [Hc0 Hc1].
  destruct (ok_vertical s Hs) as [Hv _]. destruct (ok_horizontal s Hs) as [Hh _].
  set (p := logicalCursorPosition s).
  assert (0 <= line p < 10 ^ 9 /\ 0 <= column p < 10 ^ 9) as [Hpl Hpc].
  { unfold p, logicalCursorPosition. destruct (originMode (_cursor s)); simpl.
    - specialize (Hin eq_refl). lia.
    - unfold realCursorPosition. fold (cursor_line s) (cursor_column s). lia. }
  destruct (to_digits_spec 10 (line p + 1)) as (Hd1 & Hv1 & _); [simpl Z.of_nat; lia|lia|].
  destruct (to_digits_spec 10 (column p + 1)) as (Hd2 & Hv2 & _); [simpl Z.of_nat; lia|lia|].
  exists (to_string (line p + 1)), (to_string (column p + 1)). split_and!; [|done..|].
  - unfold cursor_report. fold p. unfold format_int. rewrite !(proj2 (Z.ltb_ge _ _)) by lia. done.
  - unfold to_string. rewrite Hv1, Hv2, !Z.add_simpl_r. unfold moveCursorTo. cbv zeta.
    assert (clampToScreen (set_pending s false) (toRealCoordinate s (mkLoc (line p) (column p))) =
            position (_cursor s)) as ->.
    { unfold clampToScreen, clampedLine, clampedColumn, clamp, toRealCoordinate, p, logicalCursorPosition,
        realCursorPosition, cursor_line, cursor_column, pageSize in *.
      destruct (position (_cursor s)) as [cy cx]. simpl in *.
      destruct (originMode (_cursor s)); simpl; f_equal; repeat case_match; lia. }
    pose proof (ok_current s Hs) as Hcur. unfold cursor_line in Hcur.
    unfold updateCursorIterator, set_pending, with_cursor. simpl. rewrite <- Hcur.
    by destruct s as [[] ? ? ? ? ? ? ?].
Qed.

(** The style report, for the shapes that DECSCUSR has a number for. *)
Lemma style_report_back (d : Device) s factory : cursorShape (cursorStyle d) <> Rectangle ->
  exists ps, hookDECRQSS d s (bytes " q") = status_reply true (ps ++ bytes " q") /\ digits ps /\
    forall seq style, is_csi None ps [] [0x20] 0x71 seq -> DECSCUSR factory seq style = (cursorStyle d, Ok).
Proof.
  intros Hr. destruct d as [? [display shape] ? ? ? ? ?]. simpl in Hr.
  exists (to_string (match shape with Block => 1 | Underscore => 3 | Bar => 5 | Rectangle => 7 end
                     + match display with Steady => 1 | Blink => 0 end)).
  split; [by destruct shape, display|]. split; [apply to_string_spec; by destruct shape, display|].
  intros seq style (_ & _ & _ & _ & _ & Hp). apply holds_carries in Hp; [|simpl; lia|by destruct shape, display].
  unfold DECSCUSR, param_or. rewrite (carries_count _ _ Hp).
  change (param_opt seq 0) with (param seq 0). rewrite (carries_values _ _ Hp).
  by destruct shape, display.
Qed.

End Reports.

(** ** Witnesses and examples *)

Module ReportExamples.

#[local] Instance ascii_encoder : Utf8Encoder := fun c => [c].
#[local] Instance one_column : UnicodeWidth := fun _ => 1.
#[local] Instance each_char : GraphemeSegmenter := fun _ _ => true.
#[local] Existing Instance latin1.

Definition glyph (ch : list Z) : SimpleCell.t := SimpleCell.mk ch Attrs_init 1 0 None.
Definition text_line (f : flags) (s : string) : Line SimpleCell.t :=
  mkLine f (Inflated ((fun c => if c =? 0x20 then glyph [] else glyph [c]) <$> bytes s)).

(** The page of the test case "captureBuffer": three lines of history, two on the page. *)
Definition captured_screen : Screen.Screen SimpleCell.t :=
  mkScreen (set_rendition Cursor_init (mkAttrs (Color_Indexed 1) DefaultColor DefaultColor CellFlag.Bold))
    Cursor_init (full_margin (mkPageSize 2 5))
    (mkGrid (mkPageSize 2 5) true (LimitedTo 5)
       (mk_ring [text_line 0 "FGHIJ"; text_line LineFlag.Wrapped "K  NO"; text_line 0 ""; text_line 0 ""; text_line 0 "12345";
                 text_line 0 "67890"; text_line 0 "ABCDE"] 0) 5)
    Attrs_init (mkLoc 0 0) 0 quiet.
Definition device : Device :=
  mkDevice VT525 (mkStyle Steady Bar) MainDisplay NoStatusLine (mkRGB 0xD0 0xD0 0xD0) (400, 300) (10, 20).

Lemma captured_screen_ok : screen_ok captured_screen.
Proof.
  split; try (unfold cursor_line, cursor_column, range_ok; simpl; lia); try done.
  split; [|done]. split; unfold ring_ok, size; simpl; lia.
Qed.

(** Four lines above the last one. *)
Definition written_screen : Screen.Screen SimpleCell.t :=
  mkScreen Cursor_init Cursor_init (full_margin (mkPageSize 2 5))
    (mkGrid (mkPageSize 2 5) true (LimitedTo 5)
       (mk_ring [text_line 0 "FGHIJ"; text_line LineFlag.Wrapped "KL   "; text_line 0 ""; text_line 0 ""; text_line 0 "12345";
                 text_line 0 "67890"; text_line 0 "ABCDE"] 0) 5)
    Attrs_init (mkLoc 0 0) 0 quiet.
Lemma written_screen_ok : screen_ok written_screen.
Proof.
  split; try (unfold cursor_line, cursor_column, range_ok; simpl; lia); try done.
  split; [|done]. split; unfold ring_ok, size; simpl; lia.
Qed.

Lemma capture_correct_witness : exists chunks,
  captureBuffer written_screen 3 false = Some (mjoin (chunk <$> chunks ++ [[]])) /\
  mjoin chunks = bytes "ABCDE" ++ [0x0A] ++ bytes "FGHIJ" ++ [0x0A] ++ bytes "KL" ++ [0x0A].
Proof.
  destruct (capture_correct written_screen 3 [bytes "ABCDE" ++ [0x0A]; bytes "FGHIJ" ++ [0x0A]; bytes "KL" ++ [0x0A]])
    as (chunks & E & Et & _).
  - exact written_screen_ok.
  - lia.
  - vm_compute drop. repeat (apply Forall_cons; split; [intros cells [= <-]; repeat constructor|]). constructor.
  - vm_compute drop. repeat (apply Forall_cons; split; [intros cells [= <-]; vm_compute trim_right;
      repeat (apply Forall_cons; split; [discriminate|]); constructor|]). constructor.
  - reflexivity.
  - exists chunks. split; [exact E|]. rewrite Et. reflexivity.
Defined.

(** One message, and the mark of the end. *)
Example capture_test : captureBuffer captured_screen 5 false =
  Some (esc "^314;" ++ bytes "12345" ++ [0x0A] ++ bytes "67890" ++ [0x0A] ++ bytes "ABCDE" ++ [0x0A]
        ++ bytes "FGHIJ" ++ [0x0A] ++ bytes "KNO" ++ [0x0A] ++ esc "\" ++ esc "^314;" ++ esc "\").
Proof. vm_compute. reflexivity. Qed.
(** Cells nothing was written to are left out inside of a line, and logical
    lines are split where they were wrapped. *)
Example capture_loses_gaps : captureBuffer captured_screen 1 true =
  Some (esc "^314;" ++ bytes "FGHIJ" ++ [0x0A] ++ bytes "KNO" ++ [0x0A] ++ esc "\" ++ esc "^314;" ++ esc "\").
Proof. vm_compute. reflexivity. Qed.


Example sgr_reported : hookDECRQSS device captured_screen (bytes "m") = esc "P1$r0;31;49;1m" ++ esc "\".
Proof. vm_compute. reflexivity. Qed.
(** The bottom margin is reported one too small, counted from 0. *)
Example margins_reported : hookDECRQSS device captured_screen (bytes "r") = esc "P1$r1;1r" ++ esc "\".
Proof. vm_compute. reflexivity. Qed.
(** The final characters of the reply are in the wrong order. *)
Example columns_reported : hookDECRQSS device captured_screen (bytes "$|") = esc "P1$r5|$" ++ esc "\".
Proof. vm_compute. reflexivity. Qed.
(** A request that is not known gets no reply. *)
Example unknown_request : hookDECRQSS device captured_screen (bytes "x") = [].
Proof. reflexivity. Qed.
(** A rectangle is reported with a number that DECSCUSR refuses. *)
Example rectangle_refused :
  status_string (mkDevice VT525 (mkStyle Steady Rectangle) MainDisplay NoStatusLine RGB_default (0, 0) (0, 0))
    captured_screen rqDECSCUSR = Some (bytes "8 q") /\
  DECSCUSR (mkStyle Blink Block)
    (mkSequence CSI 0 (mkSequenceParameters (8 :: replicate 15 0) 0 1) [0x20] 0x71 []) (mkStyle Steady Rectangle)
  = (mkStyle Steady Rectangle, Invalid).
Proof. by vm_compute. Qed.
Example device_attributes : sendDeviceAttributes VT525 = esc "[?65;22;314;1;28;4;8c".
Proof. vm_compute. reflexivity. Qed.
End ReportExamples.
