(* ===== verification/OscColors.v ===== *)
(** * Colours set and asked for by the application (src/vtbackend/Screen.cpp, Screen.h, primitives.h)

    OSC 4 and 104 for the palette, OSC 10 to 14 and 110 to 119 for the dynamic
    colours: parsing of the requests, the state they change, and the replies.
    [Colors] has the fields of [ColorPalette] that these functions touch beside
    those of Color.v.

    Proved: a request that sets and asks for any number of palette entries does
    exactly that, in order; a dynamic colour that is set is reported back; the
    replies carry the colours exactly, although one of them goes through
    floating point. *)
From Stdlib Require Import String.
From stdpp Require Import list.
From S2P Require Import Prelude Parser Sequence Sixel Color Cell Sgr Text Dispatch.

Inductive DynamicColorName :=
| DefaultForegroundColor | DefaultBackgroundColor | TextCursorColor | MouseForegroundColor
| MouseBackgroundColor | HighlightForegroundColor | HighlightBackgroundColor.
#[export] Instance DynamicColorName_eq_dec : EqDecision DynamicColorName.
Proof. solve_decision. Defined.

Definition getChangeDynamicColorCommand (value : Z) : DynamicColorName :=
  if value =? 10 then DefaultForegroundColor
  else if value =? 11 then DefaultBackgroundColor
  else if value =? 12 then TextCursorColor
  else if value =? 13 then MouseForegroundColor
  else if value =? 14 then MouseBackgroundColor
  else if value =? 19 then HighlightForegroundColor
  else if value =? 17 then HighlightBackgroundColor
  else DefaultForegroundColor.
Definition setDynamicColorCommand (name : DynamicColorName) : Z :=
  match name with
  | DefaultForegroundColor => 10
  | DefaultBackgroundColor => 11
  | TextCursorColor => 12
  | MouseForegroundColor => 13
  | MouseBackgroundColor => 14
  | HighlightForegroundColor => 19
  | HighlightBackgroundColor => 17
  end.

(** [CellRGBColor] and [CursorColor] *)
Inductive CellRGBColor := CellForegroundColor | CellBackgroundColor | CellColor (c : RGBColor).
Record CursorColor := mkCursorColor { cursor_color : CellRGBColor; textOverrideColor : CellRGBColor }.

Record Colors := mkColors {
  basePalette : ColorPalette;
  cursorColor : CursorColor;
  mouseForeground : RGBColor;
  mouseBackground : RGBColor;
  selectionForeground : CellRGBColor;
  selectionBackground : CellRGBColor
}.
Definition Colors_init : Colors :=
  mkColors ColorPalette_init (mkCursorColor CellForegroundColor CellBackgroundColor) (rgb 0x800000) (rgb 0x808000)
    CellForegroundColor (CellColor (rgb 0x4040f0)).

Definition with_base (p : ColorPalette) (c : Colors) : Colors :=
  mkColors p (cursorColor c) (mouseForeground c) (mouseBackground c) (selectionForeground c) (selectionBackground c).
Definition with_foreground (x : RGBColor) (p : ColorPalette) : ColorPalette :=
  mkColorPalette (useBrightColors p) (palette p) x (defaultBackground p) (defaultForegroundBright p)
    (defaultForegroundDimmed p).
Definition with_background (x : RGBColor) (p : ColorPalette) : ColorPalette :=
  mkColorPalette (useBrightColors p) (palette p) (defaultForeground p) x (defaultForegroundBright p)
    (defaultForegroundDimmed p).
Definition with_entries (x : list RGBColor) (p : ColorPalette) : ColorPalette :=
  mkColorPalette (useBrightColors p) x (defaultForeground p) (defaultBackground p) (defaultForegroundBright p)
    (defaultForegroundDimmed p).
Definition with_cursor_color (x : CursorColor) (c : Colors) : Colors :=
  mkColors (basePalette c) x (mouseForeground c) (mouseBackground c) (selectionForeground c) (selectionBackground c).
Definition with_mouse (fg bg : RGBColor) (c : Colors) : Colors :=
  mkColors (basePalette c) (cursorColor c) fg bg (selectionForeground c) (selectionBackground c).
Definition with_selection (fg bg : CellRGBColor) (c : Colors) : Colors :=
  mkColors (basePalette c) (cursorColor c) (mouseForeground c) (mouseBackground c) fg bg.

(** ** Dynamic colours *)

Definition setDynamicColor (name : DynamicColorName) (color : RGBColor) (c : Colors) : Colors :=
  match name with
  | DefaultForegroundColor => with_base (with_foreground color (basePalette c)) c
  | DefaultBackgroundColor => with_base (with_background color (basePalette c)) c
  | TextCursorColor => with_cursor_color (mkCursorColor (CellColor color) (textOverrideColor (cursorColor c))) c
  | MouseForegroundColor => with_mouse color (mouseBackground c) c
  | MouseBackgroundColor => with_mouse (mouseForeground c) color c
  | HighlightForegroundColor => with_selection (CellColor color) (selectionBackground c) c
  | HighlightBackgroundColor => with_selection (selectionForeground c) (CellColor color) c
  end.
(** [factory] is the default palette. *)
Definition resetDynamicColor (factory : Colors) (name : DynamicColorName) (c : Colors) : Colors :=
  match name with
  | DefaultForegroundColor =>
      with_base (with_foreground (defaultForeground (basePalette factory)) (basePalette c)) c
  | DefaultBackgroundColor =>
      with_base (with_background (defaultBackground (basePalette factory)) (basePalette c)) c
  | TextCursorColor => with_cursor_color (cursorColor factory) c
  | MouseForegroundColor => with_mouse (mouseForeground factory) (mouseBackground c) c
  | MouseBackgroundColor => with_mouse (mouseForeground c) (mouseBackground factory) c
  | HighlightForegroundColor => with_selection (selectionForeground factory) (selectionBackground c) c
  | HighlightBackgroundColor => with_selection (selectionForeground c) (selectionBackground factory) c
  end.

Definition cell_rgb (c : CellRGBColor) : option RGBColor :=
  match c with CellColor x => Some x | _ => None end.
Definition dynamic_color (c : Colors) (name : DynamicColorName) : option RGBColor :=
  match name with
  | DefaultForegroundColor => Some (defaultForeground (basePalette c))
  | DefaultBackgroundColor => Some (defaultBackground (basePalette c))
  | TextCursorColor =>
      Some (match cursor_color (cursorColor c) with
            | CellForegroundColor => defaultForeground (basePalette c)
            | CellBackgroundColor => defaultBackground (basePalette c)
            | CellColor x => x
            end)
  | MouseForegroundColor => Some (mouseForeground c)
  | MouseBackgroundColor => Some (mouseBackground c)
  | HighlightForegroundColor => cell_rgb (selectionForeground c)
  | HighlightBackgroundColor => cell_rgb (selectionBackground c)
  end.

(** [{:04X}], with the digits of [digit]. *)
Definition hex4 (digit : Z -> Z) (v : Z) : list Z :=
  [digit (v / 4096 mod 16); digit (v / 256 mod 16); digit (v / 16 mod 16); digit (v mod 16)].
Definition rgb16 (digit : Z -> Z) (r g b : Z) : list Z :=
  bytes "rgb:" ++ hex4 digit r ++ bytes "/" ++ hex4 digit g ++ bytes "/" ++ hex4 digit b.
(** [static_cast<unsigned>(static_cast<float>(v) / 255.0f * 0xFFFF)]; [None] is a value out of range. *)
Definition channel16 (v : Z) : option Z :=
  cast_u32 (truncate (float_mul (float_div (float_of v) (float_of 255)) (float_of 0xFFFF))).
Definition setDynamicColorValue (c : RGBColor) : option (list Z) :=
  r ← channel16 (red c); g ← channel16 (green c); b ← channel16 (blue c); Some (rgb16 hex_digit r g b).

Definition osc (code : Z) (body : list Z) : list Z :=
  0x1B :: bytes "]" ++ to_string code ++ bytes ";" ++ body ++ 0x1B :: bytes "\".
Definition requestDynamicColor (name : DynamicColorName) (c : Colors) : option (list Z) :=
  match dynamic_color c name with
  | Some color => value ← setDynamicColorValue color; Some (osc (setDynamicColorCommand name) value)
  | None => Some []
  end.

(** The new colours, the result and the reply. *)
Definition setOrRequestDynamicColor (name : DynamicColorName) (value : list Z) (c : Colors)
  : option (Colors * ApplyResult * list Z) :=
  if bool_decide (value = bytes "?") then r ← requestDynamicColor name c; Some (c, Ok, r)
  else match parseColor value with
       | Some color => Some (setDynamicColor name color c, Ok, [])
       | None => Some (c, Invalid, [])
       end.

(** ** The palette *)

(** [crispy::to_integer<10, int>]; the outer [None] is the overflow of an [int]. *)
Fixpoint int_loop (text : list Z) (value : Z) : option (option Z) :=
  match text with
  | [] => Some (Some value)
  | ch :: text' =>
      if 2 ^ 31 <=? value * 10 then None
      else match digit_value 10 ch with
           | None => Some None
           | Some d => if 2 ^ 31 <=? value * 10 + d then None else int_loop text' (value * 10 + d)
           end
  end.
Definition to_int (text : list Z) : option (option Z) :=
  match text with [] => Some None | _ => int_loop text 0 end.

(** The state of the loop: [index], which is -1 between two requests, the
    entries of the palette, and the replies. *)
Record PaletteRun := mkRun { run_index : Z; run_entries : list RGBColor; run_replies : list Z }.

Definition queryColor (index : Z) (r : PaletteRun) : option PaletteRun :=
  color ← run_entries r !! Z.to_nat index;
  let twice v := Z.lor (Z.shiftl v 8) v in
  Some (mkRun (-1) (run_entries r)
          (run_replies r ++ osc 4 (to_string index ++ bytes ";"
             ++ rgb16 low_hex_digit (twice (red color)) (twice (green color)) (twice (blue color))))).
Definition setColor (index : Z) (color : RGBColor) (r : PaletteRun) : option PaletteRun :=
  if index <? Z.of_nat (length (run_entries r))
  then Some (mkRun (-1) (<[Z.to_nat index := color]> (run_entries r)) (run_replies r)) else None.
(** The callback for one part; [false] ends the loop.  [None] is undefined behaviour. *)
Definition palette_part (value : list Z) (r : PaletteRun) : option (bool * PaletteRun) :=
  if run_index r <? 0 then
    i ← to_int value;
    let index := default (-1) i in
    Some ((0 <=? index) && (index <=? 0xFF), mkRun index (run_entries r) (run_replies r))
  else if bool_decide (value = bytes "?") then r ← queryColor (run_index r) r; Some (true, r)
  else match parseColor value with
       | Some color => r ← setColor (run_index r) color r; Some (true, r)
       | None => Some (false, r)
       end.
Fixpoint palette_loop (parts : list (list Z)) (r : PaletteRun) : option (bool * PaletteRun) :=
  match parts with
  | [] => Some (true, r)
  | value :: parts' =>
      '(ok, r) ← palette_part value r;
      if (ok : bool) then palette_loop parts' r else Some (false, r)
  end.
Definition queryOrSetColorPalette (text : list Z) (entries : list RGBColor) : option (bool * PaletteRun) :=
  palette_loop (split text 0x3B) (mkRun (-1) entries []).

Definition SETCOLPAL (text : list Z) (c : Colors) : option (Colors * ApplyResult * list Z) :=
  '(ok, r) ← queryOrSetColorPalette text (palette (basePalette c));
  Some (with_base (with_entries (run_entries r) (basePalette c)) c, if (ok : bool) then Ok else Invalid, run_replies r).
Definition RCOLPAL (factory : Colors) (text : list Z) (c : Colors) : option (Colors * ApplyResult) :=
  match text with
  | [] => Some (factory, Ok)
  | _ =>
      match to_integer 10 8 text with
      | None => Some (c, Invalid)
      | Some index =>
          color ← palette (basePalette factory) !! Z.to_nat index;
          Some (with_base (with_entries (<[Z.to_nat index := color]> (palette (basePalette c))) (basePalette c)) c, Ok)
      end
  end.

(** ** What is asked and what is answered *)

Inductive Notation_ := HashNotation | X11Notation.
Definition color_text (n : Notation_) (c : RGBColor) : list Z :=
  match n with HashNotation => hash_text c | X11Notation => rgb_text c end.
Inductive PaletteRequest := SetEntry (index : Z) (n : Notation_) (c : RGBColor) | AskEntry (index : Z).
Definition request_parts (q : PaletteRequest) : list (list Z) :=
  match q with
  | SetEntry i n c => [to_string i; color_text n c]
  | AskEntry i => [to_string i; bytes "?"]
  end.
Definition requests_text (qs : list PaletteRequest) : list Z := join 0x3B (mjoin (request_parts <$> qs)).
Definition request_ok (q : PaletteRequest) : Prop :=
  match q with
  | SetEntry i _ c => byte i /\ RGB_ok c
  | AskEntry i => byte i
  end.

(** A colour with its channels doubled to 16 bits. *)
Definition wide (digit : Z -> Z) (c : RGBColor) : list Z := rgb16 digit (257 * red c) (257 * green c) (257 * blue c).
(** The entries and the answers of a list of requests. *)
Fixpoint answers (qs : list PaletteRequest) (entries : list RGBColor) : list RGBColor * list Z :=
  match qs with
  | [] => (entries, [])
  | SetEntry i _ c :: qs => answers qs (<[Z.to_nat i := c]> entries)
  | AskEntry i :: qs =>
      let '(entries', replies) := answers qs entries in
      (entries', match entries !! Z.to_nat i with
                 | Some c => osc 4 (to_string i ++ bytes ";" ++ wide low_hex_digit c)
                 | None => []
                 end ++ replies)
  end.

(** The entries of a palette are bytes, and there are 264. *)
Definition entries_ok (entries : list RGBColor) : Prop := length entries = 264%nat /\ Forall RGB_ok entries.

(** A client reads the colour of a reply. *)
Definition read_wide (text : list Z) : option RGBColor :=
  r ← to_integer 16 16 (substr text 4 4); g ← to_integer 16 16 (substr text 9 4);
  b ← to_integer 16 16 (substr text 14 4); Some (mkRGB (r / 257) (g / 257) (b / 257)).

(** ** Facts about bytes, by evaluation *)

Lemma byte_to_int i : byte i -> to_int (to_string i) = Some (Some i).
Proof.
  intros Hi. assert (forallb (fun i => bool_decide (to_int (to_string i) = Some (Some i))) (seqZ 0 256) = true) as Ha
    by (vm_compute; reflexivity).
  pose proof (for_all_below 256 _ Ha i Hi) as Hb. by apply bool_decide_eq_true in Hb.
Qed.
Lemma byte_text i : byte i -> to_string i <> [] /\ Forall (fun c => c <> 0x3B) (to_string i).
Proof.
  intros Hi. destruct (to_string_spec i) as (Hd & _ & Hne); [unfold byte in Hi; lia|]. split; [done|].
  eapply Forall_impl; [exact Hd|]. simpl. lia.
Qed.
Lemma byte_twice v : byte v -> Z.lor (Z.shiftl v 8) v = 257 * v.
Proof.
  intros Hv. apply Z.eqb_eq.
  apply (for_all_below 256 (fun v => Z.lor (Z.shiftl v 8) v =? 257 * v)); [vm_compute; reflexivity|done].
Qed.
(** The conversion through [float] is exact. *)
Lemma channel16_exact v : byte v -> channel16 v = Some (257 * v).
Proof.
  intros Hv. pose proof (for_all_below 256 (fun v => match channel16 v with Some w => w =? 257 * v | None => false end)
    ltac:(vm_compute; reflexivity) v Hv) as Hb. simpl in Hb. destruct (channel16 v); [|done]. f_equal. lia.
Qed.
Lemma hex4_back v : byte v ->
  to_integer 16 16 (hex4 hex_digit (257 * v)) = Some (257 * v) /\
  to_integer 16 16 (hex4 low_hex_digit (257 * v)) = Some (257 * v).
Proof.
  intros Hv. assert (forallb (fun v =>
    bool_decide (to_integer 16 16 (hex4 hex_digit (257 * v)) = Some (257 * v)) &&
    bool_decide (to_integer 16 16 (hex4 low_hex_digit (257 * v)) = Some (257 * v))) (seqZ 0 256) = true) as Ha
    by (vm_compute; reflexivity).
  pose proof (for_all_below 256 _ Ha v Hv) as Hb. apply andb_true_iff in Hb as [Hb1 Hb2].
  apply bool_decide_eq_true in Hb1, Hb2. exact (conj Hb1 Hb2).
Qed.

Lemma read_wide_back digit c : (digit = hex_digit \/ digit = low_hex_digit) -> RGB_ok c ->
  read_wide (wide digit c) = Some c.
Proof.
  intros Hd (Hr & Hg & Hb). destruct c as [r g b]. simpl in *.
  destruct (hex4_back _ Hr) as [R1 R2]. destruct (hex4_back _ Hg) as [G1 G2]. destruct (hex4_back _ Hb) as [B1 B2].
  unfold read_wide, wide, rgb16.
  change (substr _ 4 4) with (hex4 digit (257 * r)). change (substr _ 9 4) with (hex4 digit (257 * g)).
  change (substr _ 14 4) with (hex4 digit (257 * b)).
  destruct Hd as [-> | ->]; rewrite ?R1, ?R2, ?G1, ?G2, ?B1, ?B2; cbn [mbind option_bind];
    rewrite !(Z.mul_comm 257), !Z.div_mul by done; done.
Qed.

(** ** The texts of colours *)

Lemma color_text_parsed n c : RGB_ok c -> parseColor (color_text n c) = Some c.
Proof. intros Hc. destruct (parseColor_roundtrip c Hc) as (_ & H1 & H2). by destruct n. Qed.
Lemma hex2_plain v : byte v -> Forall (fun c => c <> 0x3B /\ c <> 0x3F) (hex2 v).
Proof.
  intros Hv. unfold byte in Hv. unfold hex2, hex_digit.
  assert (0 <= v / 16 < 16) by (Z.div_mod_to_equations; lia). assert (0 <= v mod 16 < 16) by (Z.div_mod_to_equations; lia).
  apply Forall_cons. split; [case_match; lia|]. apply Forall_singleton. case_match; lia.
Qed.
Lemma color_text_plain n c : RGB_ok c -> color_text n c <> [] /\ color_text n c <> bytes "?" /\
  Forall (fun c => c <> 0x3B) (color_text n c).
Proof.
  intros (Hr & Hg & Hb). apply hex2_plain in Hr, Hg, Hb. split_and!; [by destruct n..|].
  eapply (Forall_impl (fun c => c <> 0x3B /\ c <> 0x3F)); [|by intros ? []].
  destruct n; unfold color_text, hash_text, rgb_text; repeat (apply Forall_app; split);
    first [done | apply Forall_fold_right; vm_compute; intuition discriminate].
Qed.

Lemma request_parts_plain q : request_ok q ->
  Forall (fun p => p <> [] /\ Forall (fun c => c <> 0x3B) p) (request_parts q).
Proof.
  destruct q as [i n c|i]; simpl.
  - intros [Hi Hc]. destruct (color_text_plain n c Hc) as (? & _ & ?). by repeat constructor; try apply byte_text.
  - intros Hi. repeat constructor; try (by apply byte_text); done.
Qed.

(** ** Requests are carried out one by one *)

Lemma palette_loop_app parts1 parts2 r r' :
  palette_loop parts1 r = Some (true, r') -> palette_loop (parts1 ++ parts2) r = palette_loop parts2 r'.
Proof.
  revert r. induction parts1 as [|p parts1 IH]; intros r; cbn [app palette_loop]; [by intros [= ->]|].
  destruct (palette_part p r) as [[[] r1]|]; [|done..]. apply IH.
Qed.
Lemma index_part i entries replies : byte i ->
  palette_part (to_string i) (mkRun (-1) entries replies) = Some (true, mkRun i entries replies).
Proof.
  intros Hi. unfold palette_part. cbn [run_index]. change (-1 <? 0) with true. cbv iota.
  rewrite byte_to_int by done. cbn [mbind option_bind from_option id run_entries run_replies]. unfold byte in Hi.
  do 2 f_equal. lia.
Qed.

Lemma request_carried_out q entries replies : request_ok q -> entries_ok entries ->
  let '(entries', replies') := answers [q] entries in
  palette_loop (request_parts q) (mkRun (-1) entries replies) = Some (true, mkRun (-1) entries' (replies ++ replies')) /\
  entries_ok entries'.
Proof.
  intros Hq [Hl Hok]. destruct q as [i n c|i]; cbn [answers request_parts palette_loop] in *.
  - destruct Hq as [Hi Hc]. rewrite index_part by done. cbn [mbind option_bind].
    unfold palette_part. cbn [run_index]. destruct (color_text_plain n c Hc) as (_ & Hne & _).
    unfold byte in Hi. rewrite (proj2 (Z.ltb_ge i 0)) by lia. rewrite bool_decide_false by done.
    rewrite color_text_parsed by done. unfold setColor. cbn [run_entries]. rewrite Hl.
    rewrite (proj2 (Z.ltb_lt _ _)) by lia. cbn [mbind option_bind run_replies]. rewrite app_nil_r.
    split; [done|]. split; [by rewrite length_insert|by apply Forall_insert].
  - simpl in Hq. rewrite index_part by done. cbn [mbind option_bind]. unfold palette_part. cbn [run_index].
    unfold byte in Hq. rewrite (proj2 (Z.ltb_ge i 0)) by lia. rewrite bool_decide_true by done.
    unfold queryColor. cbn [run_entries run_replies].
    destruct (lookup_lt_is_Some_2 entries (Z.to_nat i)) as [c Hc]; [lia|]. rewrite Hc.
    pose proof (Forall_lookup_1 _ _ _ _ Hok Hc) as (Hr & Hg & Hb). cbn [mbind option_bind].
    rewrite !byte_twice by done. by rewrite app_nil_r.
Qed.

Lemma answers_cons q qs entries :
  answers (q :: qs) entries =
    let '(e1, r1) := answers [q] entries in let '(e2, r2) := answers qs e1 in (e2, r1 ++ r2).
Proof.
  destruct q as [i n c|i]; cbn [answers]; [by destruct (answers qs _)|].
  destruct (answers qs entries). by rewrite app_nil_r.
Qed.
Lemma requests_carried_out qs entries replies : Forall request_ok qs -> entries_ok entries ->
  palette_loop (mjoin (request_parts <$> qs)) (mkRun (-1) entries replies) =
    Some (true, mkRun (-1) (answers qs entries).1 (replies ++ (answers qs entries).2)).
Proof.
  intros Hqs. revert entries replies. induction Hqs as [|q qs Hq Hqs IH]; intros entries replies He.
  { cbn [answers fst snd]. by rewrite app_nil_r. }
  rewrite answers_cons. pose proof (request_carried_out q entries replies Hq He) as Hc.
  destruct (answers [q] entries) as [e1 r1]. destruct Hc as [Hc He1].
  change (mjoin (request_parts <$> q :: qs)) with (request_parts q ++ mjoin (request_parts <$> qs)).
  rewrite (palette_loop_app _ _ _ _ Hc), IH by done. destruct (answers qs e1). simpl. by rewrite <- app_assoc.
Qed.

(** A dynamic colour that was set is the one that is reported. *)
Lemma dynamic_set_asked name n color c : RGB_ok color ->
  exists c', setOrRequestDynamicColor name (color_text n color) c = Some (c', Ok, []) /\
    dynamic_color c' name = Some color /\
    setOrRequestDynamicColor name (bytes "?") c' = Some (c', Ok, osc (setDynamicColorCommand name) (wide hex_digit color)).
Proof.
  intros Hc. destruct (color_text_plain n color Hc) as (_ & Hne & _). unfold setOrRequestDynamicColor.
  rewrite bool_decide_false, color_text_parsed by done. eexists. split; [done|].
  assert (dynamic_color (setDynamicColor name color c) name = Some color) as E by (by destruct name).
  split; [done|]. rewrite bool_decide_true by done. unfold requestDynamicColor. rewrite E.
  unfold setDynamicColorValue. destruct Hc as (Hr & Hg & Hb). by rewrite !channel16_exact by done.
Qed.

(** C23: An OSC 4 request that sets and asks for palette entries, any number of each in any
    order, in either notation of colours, sets exactly these entries and is answered for each
    entry asked for with its colour at that moment; a dynamic colour that is set is reported
    when asked for. From the colour of a reply the client reads exactly the colour of the
    terminal. *)
Theorem osc_colors_correct c qs : entries_ok (palette (basePalette c)) -> Forall request_ok qs ->
  SETCOLPAL (requests_text qs) c =
    Some (with_base (with_entries (answers qs (palette (basePalette c))).1 (basePalette c)) c, Ok,
          (answers qs (palette (basePalette c))).2) /\
  (forall name n color, RGB_ok color -> exists c',
     setOrRequestDynamicColor name (color_text n color) c = Some (c', Ok, []) /\
     setOrRequestDynamicColor name (bytes "?") c' =
       Some (c', Ok, osc (setDynamicColorCommand name) (wide hex_digit color))) /\
  (forall color, RGB_ok color ->
     read_wide (wide hex_digit color) = Some color /\ read_wide (wide low_hex_digit color) = Some color).
Proof.
  intros He Hqs. split; [|split].
  - unfold SETCOLPAL, queryOrSetColorPalette, requests_text. rewrite split_joined.
    + by rewrite requests_carried_out.
    + apply Forall_join, Forall_fmap. eapply Forall_impl; [exact Hqs|]. apply request_parts_plain.
  - intros name n color Hc. destruct (dynamic_set_asked name n color c Hc) as (c' & E1 & _ & E2). eauto.
  - intros color Hc. split; apply read_wide_back; auto.
Qed.

Lemma osc_colors_correct_witness :
  SETCOLPAL (bytes "1;#FF8000;1;?;255;rgb:01/02/03") Colors_init =
    Some (with_base (with_entries (<[255%nat := mkRGB 1 2 3]> (<[1%nat := mkRGB 255 128 0]> defaultColorPalette))
                       ColorPalette_init) Colors_init, Ok,
          osc 4 (bytes "1;rgb:ffff/8080/0000")).
Proof.
  destruct (osc_colors_correct Colors_init
    [SetEntry 1 HashNotation (mkRGB 255 128 0); AskEntry 1; SetEntry 255 X11Notation (mkRGB 1 2 3)]) as [E _].
  - split; [apply defaultColorPalette_length|].
    assert (forallb (fun c => (0 <=? red c) && (red c <? 256) && (0 <=? green c) && (green c <? 256) &&
      (0 <=? blue c) && (blue c <? 256)) defaultColorPalette = true) as Hb by (vm_compute; reflexivity).
    apply Forall_forall. intros x Hx%list_elem_of_In. eapply forallb_forall in Hb; [|exact Hx].
    unfold RGB_ok, byte. lia.
  - repeat constructor; unfold byte; simpl; lia.
  - exact E.
Defined.

(** The reply for a colour is not a colour the terminal accepts. *)
Example reply_not_accepted : parseColor (wide low_hex_digit (mkRGB 1 2 3)) = None.
Proof. vm_compute. reflexivity. Qed.
(** Requests before an error are carried out. *)
Example error_keeps_the_rest :
  (r ← SETCOLPAL (bytes "1;#FF8000;300;?") Colors_init; Some (r.1.2, palette (basePalette r.1.1) !! 1%nat))
  = Some (Invalid, Some (mkRGB 255 128 0)).
Proof. vm_compute. reflexivity. Qed.
(** An index of OSC 104 is cut to a byte. *)
Example reset_index_cut :
  RCOLPAL Colors_init (bytes "257") Colors_init = RCOLPAL Colors_init (bytes "1") Colors_init.
Proof. vm_compute. reflexivity. Qed.
