(* ===== verification/Requests.v ===== *)
(** * Requests about sixel graphics, fonts and the clipboard (src/vtbackend/Screen.cpp, Screen.h, vtpty/ImageSize.h)

    XTSMGRAPHICS with the state it changes, OSC 50 and 60 for the fonts, OSC 52
    for the clipboard, and notifications.  Calls of the user interface are
    values: the font to set, the text to copy.

    Proved: the colour registers never exceed their limit; a text that is sent
    to the clipboard in base64 is the text copied. *)
From Stdlib Require Import String SpecFloat.
From stdpp Require Import list.
From S2P Require Import Prelude Parser Sequence Sixel Color Cell Sgr Base64 Text Dispatch.

Definition CSI_reply (s : string) : list Z := 0x1B :: bytes "[" ++ bytes s.

(** ** XTSMGRAPHICS *)

Inductive SmItem := NumberOfColorRegisters | SixelGraphicsGeometry | ReGISGraphicsGeometry.
Inductive SmAction := Read | ResetToDefault | SetToValue | ReadLimit.
(** [std::variant<std::monostate, unsigned, ImageSize>] *)
Inductive SmValue := NoValue | Amount (n : Z) | Size (s : ImageSize).

(** What the request changes, and the limits of the settings. *)
Record SixelSettings := mkSixel { sixelColorPalette : SixelColorPalette; maxImageSize : ImageSize }.
Record SixelLimits := mkLimits { maxSixelColorRegisters : Z; limitImageSize : ImageSize; viewportSize : ImageSize }.

(** [operator<] compares the widths first; [std::min] returns the second if it is less. *)
Definition ImageSize_lt (a b : ImageSize) : bool :=
  (width a <? width b) || ((width a =? width b) && (height a <? height b)).
Definition ImageSize_min (a b : ImageSize) : ImageSize := if ImageSize_lt b a then b else a.

Definition sm_reply (item status : Z) (values : list Z) : list Z :=
  CSI_reply "?" ++ to_string item ++ bytes ";" ++ to_string status
  ++ concat (map (fun v => bytes ";" ++ to_string v) values) ++ bytes "S".
Definition smGraphics (limits : SixelLimits) (item : SmItem) (action : SmAction) (value : SmValue) (s : SixelSettings)
  : SixelSettings * list Z :=
  let set_registers n := mkSixel (setSize n (sixelColorPalette s)) (maxImageSize s) in
  let set_size z := mkSixel (sixelColorPalette s) z in
  match item, action with
  | NumberOfColorRegisters, Read => (s, sm_reply 1 0 [Sixel.size (sixelColorPalette s)])
  | NumberOfColorRegisters, ReadLimit => (s, sm_reply 1 0 [_maxSize (sixelColorPalette s)])
  | NumberOfColorRegisters, ResetToDefault =>
      (set_registers (maxSixelColorRegisters limits), sm_reply 1 0 [maxSixelColorRegisters limits])
  | NumberOfColorRegisters, SetToValue =>
      match value with
      | Amount number => (set_registers number, sm_reply 1 0 [number])
      | Size _ | NoValue => (s, sm_reply 1 3 [0])
      end
  | SixelGraphicsGeometry, Read =>
      (s, sm_reply 2 0 [Z.min (width (viewportSize limits)) (width (maxImageSize s));
                        Z.min (height (viewportSize limits)) (height (maxImageSize s))])
  | SixelGraphicsGeometry, ReadLimit =>
      (s, sm_reply 2 0 [width (limitImageSize limits); height (limitImageSize limits)])
  | SixelGraphicsGeometry, ResetToDefault => (set_size (limitImageSize limits), [])
  | SixelGraphicsGeometry, SetToValue =>
      match value with
      | Size z =>
          let z := ImageSize_min z (limitImageSize limits) in
          (set_size z, sm_reply 2 0 [width z; height z])
      | _ => (s, sm_reply 2 3 [0])
      end
  | ReGISGraphicsGeometry, _ => (s, [])
  end.

Definition sm_item (pi : Z) : option SmItem :=
  if pi =? 1 then Some NumberOfColorRegisters
  else if pi =? 2 then Some SixelGraphicsGeometry
  else if pi =? 3 then Some ReGISGraphicsGeometry
  else None.
Definition sm_action (pa : Z) : option SmAction :=
  if pa =? 1 then Some Read
  else if pa =? 2 then Some ResetToDefault
  else if pa =? 3 then Some SetToValue
  else if pa =? 4 then Some ReadLimit
  else None.
(** [None] is a parameter that is not there. *)
Definition XTSMGRAPHICS (limits : SixelLimits) (seq : Sequence) (s : SixelSettings)
  : option (SixelSettings * ApplyResult * list Z) :=
  pi ← param seq 0; pa ← param seq 1;
  let pv := param_or seq 2 0 in
  let pu := param_or seq 3 0 in
  Some (match sm_item pi, sm_action pa with
        | Some item, Some action =>
            let counts := match item with NumberOfColorRegisters => true | _ => false end in
            let sets := match action with SetToValue => true | _ => false end in
            if negb counts && sets && ((pv =? 0) || (pu =? 0)) then (s, Invalid, [])
            else
              let value := if sets then (if counts then Amount pv else Size (mk_size pv pu)) else NoValue in
              let '(s, reply) := smGraphics limits item action value s in (s, Ok, reply)
        | _, _ => (s, Invalid, [])
        end).

(** ** Fonts *)

Record FontDef := mkFont {
  font_size : spec_float; regular : list Z; bold : list Z; italic : list Z; boldItalic : list Z; emoji : list Z
}.
(** [toInt], in an [int]: the outer [None] is its overflow. *)
Fixpoint toInt_loop (value : list Z) (out : Z) : option Z :=
  match value with
  | [] => Some out
  | ch :: value' =>
      if (0x30 <=? ch) && (ch <=? 0x39)
      then if 2 ^ 31 <=? out * 10 + (ch - 0x30) then None else toInt_loop value' (out * 10 + (ch - 0x30))
      else Some 0
  end.
Definition toInt (value : list Z) : option Z := toInt_loop value 0.

Inductive FontCommand := SetFont (f : FontDef) | FontReply (reply : list Z).
(** [fonts] is the definition the user interface has. *)
Definition setAllFont (fonts : FontDef) (params : list Z) : option FontCommand :=
  let splits := split params 0x3B in
  let param i := default [] (splits !! i) in
  if forallb (fun x => (length x =? 0)%nat) splits then
    size ← cast_int (double_mul (font_size fonts) (double_of 100));
    Some (FontReply (0x1B :: bytes "]60;" ++ to_string size ++ bytes ";" ++ regular fonts ++ bytes ";" ++ bold fonts
            ++ bytes ";" ++ italic fonts ++ bytes ";" ++ boldItalic fonts ++ bytes ";" ++ emoji fonts
            ++ 0x1B :: bytes "\"))
  else
    size ← toInt (param 0%nat);
    Some (SetFont (mkFont (double_div (double_of size) (double_of 100)) (param 1%nat) (param 2%nat) (param 3%nat)
                     (param 4%nat) (param 5%nat))).
Definition setFont (fonts : FontDef) (params : list Z) : ApplyResult * option FontCommand :=
  match split params 0x3B with
  | [x] =>
      if bool_decide (x = bytes "?")
      then (Ok, Some (FontReply (0x1B :: bytes "]50;" ++ regular fonts ++ 0x1B :: bytes "\")))
      else (Ok, Some (SetFont (mkFont (S754_zero false) x [] [] [] [])))
  | _ => (Invalid, None)
  end.

(** ** The clipboard and notifications *)

(** The text to copy; the outer [None] is a write outside of the decoder's buffer. *)
Definition clipboard (params : list Z) : option (ApplyResult * option (list Z)) :=
  match split params 0x3B with
  | [selection; data] =>
      if bool_decide (selection = bytes "c") then text ← Base64.decode data; Some (Ok, Some text)
      else Some (Invalid, None)
  | _ => Some (Invalid, None)
  end.
Definition NOTIFY (value : list Z) : ApplyResult * option (list Z * list Z) :=
  match split value 0x3B with
  | [kind; title; content] =>
      if bool_decide (kind = bytes "notify") then (Ok, Some (title, content)) else (Unsupported, None)
  | _ => (Unsupported, None)
  end.

(** ** Properties *)

(** The registers stay within the limit of the palette, which never changes. *)
Definition registers_ok (s : SixelSettings) : Prop :=
  0 <= _maxSize (sixelColorPalette s) /\ Sixel.size (sixelColorPalette s) <= _maxSize (sixelColorPalette s).

Lemma setSize_bound n p : 0 <= _maxSize p -> Sixel.size (setSize n p) <= _maxSize (setSize n p).
Proof.
  intros Hm. unfold Sixel.size, setSize, Sixel.resize. simpl. rewrite length_app, length_take, length_replicate. lia.
Qed.
Lemma smGraphics_registers limits item action value s : registers_ok s ->
  registers_ok (smGraphics limits item action value s).1 /\
  _maxSize (sixelColorPalette (smGraphics limits item action value s).1) = _maxSize (sixelColorPalette s).
Proof.
  intros [Hm Hs]. unfold registers_ok.
  destruct item, action; try destruct value; cbn [smGraphics fst sixelColorPalette]; try done;
    (split; [split; [done|by apply setSize_bound]|done]).
Qed.
(** No sequence of requests gets more registers than the limit. *)
Lemma registers_bounded limits requests s : registers_ok s ->
  registers_ok (foldl (fun s '(item, action, value) => (smGraphics limits item action value s).1) s requests).
Proof.
  revert s. induction requests as [|[[item action] value] requests IH]; intros s Hs; [done|].
  apply IH. by apply smGraphics_registers.
Qed.
(** The height asked for is not compared when the width is less than the limit. *)
Example height_beyond_limit :
  smGraphics (mkLimits 256 (mk_size 800 600) (mk_size 640 480)) SixelGraphicsGeometry SetToValue
    (Size (mk_size 799 60000)) (mkSixel (new_palette 16 256) (mk_size 800 600))
  = (mkSixel (new_palette 16 256) (mk_size 799 60000), CSI_reply "?2;0;799;60000S").
Proof. vm_compute. reflexivity. Qed.
(** A number beyond the limit is confirmed, although the limit is what is set. *)
Example number_confirmed :
  let r := smGraphics (mkLimits 256 (mk_size 800 600) (mk_size 640 480)) NumberOfColorRegisters SetToValue
    (Amount 1000) (mkSixel (new_palette 16 256) (mk_size 800 600)) in
  r.2 = CSI_reply "?1;0;1000S" /\ Sixel.size (sixelColorPalette r.1) = 256.
Proof. by vm_compute. Qed.

(** The size of a font, set and read, can be off by a hundredth. *)
Example font_size_truncated :
  (c ← setAllFont (mkFont (S754_zero false) [] [] [] [] []) (bytes "820;Mono");
   match c with SetFont f => setAllFont f [] | _ => None end)
  = Some (FontReply (0x1B :: bytes "]60;819;Mono;;;;" ++ 0x1B :: bytes "\")).
Proof. vm_compute. reflexivity. Qed.

(** A text sent to the clipboard in base64 is the text that is copied. *)
Lemma encode_plain s : Forall is_byte s -> s <> [] -> Base64.encode s <> [] /\ Forall (fun c => c <> 0x3B) (Base64.encode s).
Proof.
  intros Hs Hne. rewrite encode_ok. pose proof (groups_bound s Hs) as Hb. split.
  - destruct s as [|a [|b [|c s]]]; done.
  - apply Forall_app. split.
    + apply Forall_fmap. eapply Forall_impl; [exact Hb|]. intros g Hg E.
      assert (forallb (fun g => negb (at_table Base64Alphabet g =? 0x3B)) (seqZ 0 64) = true) as Ha
        by (vm_compute; reflexivity).
      pose proof (for_all_below 64 _ Ha g Hg) as Hg'. cbv beta in Hg'. by rewrite E in Hg'.
    + clear. induction s using triples_ind; cbn [padding]; by repeat constructor.
Qed.
Lemma clipboard_copies s : Forall is_byte s -> s <> [] -> Z.of_nat (length s) < 2 ^ 60 ->
  clipboard (bytes "c;" ++ Base64.encode s) = Some (Ok, Some s).
Proof.
  intros Hs Hne Hlen. destruct (encode_plain s Hs Hne) as [He Hp]. unfold clipboard.
  change (bytes "c;" ++ Base64.encode s) with (join 0x3B [bytes "c"; Base64.encode s]).
  rewrite split_joined by (by repeat constructor). rewrite bool_decide_true by done.
  by rewrite base64_roundtrip.
Qed.
