(* ===== verification/StatusLine.v ===== *)
(** * The indicator status line (src/crispy/interpolated_string.h, interpolated_string.cpp,
      src/vtbackend/StatusLineBuilder.h, StatusLineBuilder.cpp)

    The configuration describes a status line as text with placeholders in
    braces.  Here are the parser of such text, the items it makes, and their
    rendering to text with SGR sequences.  What an item shows of the terminal is
    a field of [StatusValues]; running a command is a function there.

    Proved: a description that is written out is read as the items described;
    without styling an item is its text between its left and right text.  The
    sequences of two underline styles are not the ones SGR has for them. *)
From Stdlib Require Import String.
From stdpp Require Import list gmap.
From S2P Require Import Prelude Functions Sixel Color Cell Text ViInput Sgr.

(** ** Interpolated strings *)

Record string_interpolation := mkInterpolation {
  ip_name : list Z;
  ip_flags : gset (list Z);
  ip_attributes : gmap (list Z) (list Z)
}.
Inductive fragment := Literal (text : list Z) | Placeholder (i : string_interpolation).

Definition parse_attribute (i : string_interpolation) (attribute : list Z) : string_interpolation :=
  match find 0x3D attribute with
  | Some equal =>
      mkInterpolation (ip_name i) (ip_flags i)
        (<[take equal attribute := drop (S equal) attribute]> (ip_attributes i))
  | None => mkInterpolation (ip_name i) ({[attribute]} ∪ ip_flags i) (ip_attributes i)
  end.
(** The loop over the rest of the attributes. *)
Fixpoint parse_attributes (fuel : nat) (attributes : list Z) (i : string_interpolation) : string_interpolation :=
  match attributes, fuel with
  | [], _ | _, O => i
  | _, S fuel =>
      match find 0x2C attributes with
      | None => parse_attribute i attributes
      | Some comma =>
          parse_attributes fuel (drop (S comma) attributes) (parse_attribute i (take comma attributes))
      end
  end.
Definition parse_interpolation (text : list Z) : string_interpolation :=
  match find 0x3A text with
  | Some colon =>
      let attributes := drop (S colon) text in
      parse_attributes (length attributes) attributes (mkInterpolation (take colon text) ∅ ∅)
  | None => mkInterpolation text ∅ ∅
  end.

(** The loop over the rest of the text. *)
Fixpoint parse_fragments (fuel : nat) (text : list Z) : list fragment :=
  match text, fuel with
  | [], _ | _, O => []
  | _, S fuel =>
      match find 0x7B text with
      | None => [Literal text]
      | Some openBrace =>
          (match take openBrace text with [] => [] | t => [Literal t] end) ++
          match find 0x7D (drop openBrace text) with
          | None => [Placeholder (parse_interpolation (drop openBrace text))]
          | Some closeBrace =>
              Placeholder (parse_interpolation (take (closeBrace - 1) (drop (S openBrace) text)))
              :: parse_fragments fuel (drop (S (openBrace + closeBrace)) text)
          end
      end
  end.
Definition parse_interpolated_string (text : list Z) : list fragment := parse_fragments (length text) text.

(** ** Items *)

Record Styles := mkStyles {
  st_foreground : option RGBColor;
  st_background : option RGBColor;
  st_flags : flags;
  textLeft : list Z;
  textRight : list Z
}.
Definition Styles_init : Styles := mkStyles None None 0 [] [].

(** What an item shows; the two that cannot be written in a description included. *)
Inductive Shown :=
| CellSGR | CellTextUtf32 | CellTextUtf8 | Clock | Command (command : list Z) | HistoryLineCount | Hyperlink
| InputMode | ProtectedMode | SearchMode | SearchPrompt | PlainText (text : list Z) | Title | TraceMode
| VTTypeName | Tabs (activeColor activeBackground : option RGBColor).
Record Item := mkItem { item_styles : Styles; item_shown : Shown }.

Definition tryParseColorAttribute (i : string_interpolation) (key : list Z) : option RGBColor :=
  v ← ip_attributes i !! key; parseColor v.

Definition FlagMappings : list (list Z * flags) :=
  [(bytes "Bold", CellFlag.Bold); (bytes "Faint", CellFlag.Faint); (bytes "Italic", CellFlag.Italic);
   (bytes "Underline", CellFlag.Underline); (bytes "Blinking", CellFlag.Blinking); (bytes "Inverse", CellFlag.Inverse);
   (bytes "CrossedOut", CellFlag.CrossedOut); (bytes "DoubleUnderline", CellFlag.DoublyUnderlined);
   (bytes "CurlyUnderline", CellFlag.CurlyUnderlined); (bytes "DottedUnderline", CellFlag.DottedUnderline);
   (bytes "DashedUnderline", CellFlag.DashedUnderline); (bytes "RapidBlinking", CellFlag.RapidBlinking);
   (bytes "Overline", CellFlag.Overline)].
Definition chosen_flags (chosen : list Z -> bool) : flags :=
  foldl (fun f m => if chosen m.1 then Flags.enable f m.2 else f) 0 FlagMappings.

Definition is_name (i : string_interpolation) (s : string) : bool := bool_decide (ip_name i = bytes s).
(** The outer [None] is the exception of [attributes.at]. *)
Definition shown_of (i : string_interpolation) : option (option Shown) :=
  if is_name i "CellSGR" then Some (Some CellSGR)
  else if is_name i "CellTextUTF8" then Some (Some CellTextUtf8)
  else if is_name i "CellTextUTF32" then Some (Some CellTextUtf32)
  else if is_name i "Clock" then Some (Some Clock)
  else if is_name i "Command" then Some (Command <$> ip_attributes i !! bytes "Program")
  else if is_name i "HistoryLineCount" then Some (Some HistoryLineCount)
  else if is_name i "Hyperlink" then Some (Some Hyperlink)
  else if is_name i "InputMode" then Some (Some InputMode)
  else if is_name i "ProtectedMode" then Some (Some ProtectedMode)
  else if is_name i "SearchMode" then Some (Some SearchMode)
  else if is_name i "SearchPrompt" then Some (Some SearchPrompt)
  else if is_name i "Title" then Some (Some Title)
  else if is_name i "Text" then t ← ip_attributes i !! bytes "text"; Some (Some (PlainText t))
  else if is_name i "VTType" then Some (Some VTTypeName)
  else if is_name i "Tabs" then
    Some (Some (Tabs (tryParseColorAttribute i (bytes "ActiveColor"))
                     (tryParseColorAttribute i (bytes "ActiveBackground"))))
  else Some None.
Definition styles_of (i : string_interpolation) : Styles :=
  mkStyles (tryParseColorAttribute i (bytes "Color")) (tryParseColorAttribute i (bytes "BackgroundColor"))
    (chosen_flags (fun name => bool_decide (name ∈ ip_flags i)))
    (default [] (ip_attributes i !! bytes "Left")) (default [] (ip_attributes i !! bytes "Right")).
Definition makeStatusLineItem (f : fragment) : option (option Item) :=
  match f with
  | Literal text => Some (Some (mkItem Styles_init (PlainText text)))
  | Placeholder i => s ← shown_of i; Some (option_map (mkItem (styles_of i)) s)
  end.

(** [parseStatusLineSegment]; [None] is the exception. *)
Fixpoint make_items (fs : list fragment) : option (list Item) :=
  match fs with
  | [] => Some []
  | f :: fs =>
      item ← makeStatusLineItem f; items ← make_items fs;
      Some (match item with Some item => item :: items | None => items end)
  end.
Definition parseStatusLineSegment (text : list Z) : option (list Item) := make_items (parse_interpolated_string text).
Record StatusLineDefinition := mkDefinition { left_items : list Item; middle_items : list Item; right_items : list Item }.
Definition parseStatusLineDefinition (left middle right : list Z) : option StatusLineDefinition :=
  l ← parseStatusLineSegment left; m ← parseStatusLineSegment middle; r ← parseStatusLineSegment right;
  Some (mkDefinition l m r).

(** ** Rendering *)

(** What the items show of the terminal and its surroundings. *)
Record StatusValues := mkValues {
  v_title : list Z;
  v_mouseInside : bool;
  v_cellFlags : list Z;
  v_cellText : list Z;
  v_cellText32 : list Z;
  v_clock : list Z;
  v_primaryScreen : bool;
  v_scrollOffset : Z;
  v_historyLineCount : Z;
  v_hyperlink : option (list Z);
  v_inputMode : ViMode;
  v_allowInput : bool;
  v_pendingSequences : list (list Z);
  v_searchPattern : list Z;
  v_editingSearch : bool;
  (** the output of the command, or the text of the error *)
  v_runCommand : list Z -> list Z + list Z;
  v_terminalId : VTType;
  v_tabCount : nat;
  v_activeTab : Z
}.

Definition modeString (m : ViMode) : list Z :=
  match m with
  | Normal_ => bytes "NORMAL" | Insert_ => bytes "INSERT" | Visual => bytes "VISUAL"
  | VisualLine => bytes "VISUAL LINE" | VisualBlock => bytes "VISUAL BLOCK"
  end.
Definition VTType_name (v : VTType) : list Z :=
  match v with
  | VT100 => bytes "VT100" | VT220 => bytes "VT220" | VT240 => bytes "VT240" | VT320 => bytes "VT320"
  | VT330 => bytes "VT330" | VT340 => bytes "VT340" | VT420 => bytes "VT420" | VT510 => bytes "VT510"
  | VT520 => bytes "VT520" | VT525 => bytes "VT525"
  end.

Definition SGRSAVE : list Z := 0x1B :: bytes "[#{".
Definition SGRRESTORE : list Z := 0x1B :: bytes "[#}".
Definition sgr_of (parameters : list Z) : list Z := 0x1B :: bytes "[" ++ parameters ++ bytes "m".
Definition direct (base : string) (c : RGBColor) : list Z :=
  sgr_of (bytes base ++ bytes ":2:" ++ to_string (red c) ++ bytes ":" ++ to_string (green c) ++ bytes ":"
          ++ to_string (blue c)).
Definition makeTextColor (color : option RGBColor) : list Z :=
  match color with None => [] | Some c => direct "38" c end.
Definition makeBackgroundColor (color : option RGBColor) : list Z :=
  match color with None => [] | Some c => direct "48" c end.

(** The sequence of a flag, by the number of its bit. *)
Definition flag_sequence (bit : nat) : list Z :=
  match bit with
  | 0 => sgr_of (bytes "1") | 1 => sgr_of (bytes "2") | 2 => sgr_of (bytes "3") | 3 => sgr_of (bytes "4")
  | 4 => sgr_of (bytes "5") | 5 => sgr_of (bytes "7") | 6 => sgr_of (bytes "8") | 7 => sgr_of (bytes "9")
  | 8 => sgr_of (bytes "4:4") | 9 => sgr_of (bytes "4:3") | 10 => sgr_of (bytes "4:1") | 11 => sgr_of (bytes "4:5")
  | 12 => sgr_of (bytes "51") | 13 => sgr_of (bytes "52") | 14 => sgr_of (bytes "53") | 15 => sgr_of (bytes "6")
  | _ => []
  end%nat.
(** [flags::reduce] visits the bits from the lowest. *)
Definition flag_sequences (f : flags) : list Z :=
  concat (map (fun bit => if Flags.any (Flags.both f (Z.shiftl 1 (Z.of_nat bit))) then flag_sequence bit else [])
            (seq 0 32)).
Definition applyStyles (s : Styles) : list Z :=
  makeTextColor (st_foreground s) ++ makeBackgroundColor (st_background s) ++ flag_sequences (st_flags s).

(** [{:04X}] and [{:3}]. *)
Definition padded (fill : Z) (n : nat) (digits : list Z) : list Z := replicate (n - length digits) fill ++ digits.
Fixpoint join_with (sep : list Z) (parts : list (list Z)) : list Z :=
  match parts with
  | [] => []
  | [p] => p
  | p :: parts => p ++ sep ++ join_with sep parts
  end.
Definition first_line (text : list Z) : list Z :=
  match find 0x0A text with Some pos => take pos text | None => text end.

Definition tab_text (activeColor activeBackground : option RGBColor) (active position : Z) : list Z :=
  let stylized := (position =? active) && (bool_decide (is_Some activeColor) || bool_decide (is_Some activeBackground)) in
  (if stylized then SGRSAVE ++ makeTextColor activeColor ++ makeBackgroundColor activeBackground else [])
  ++ to_string position ++ (if stylized then SGRRESTORE else []).
(** [visit]; [None] is a conversion of a number that is out of range. *)
Definition visit (v : StatusValues) (s : Shown) : option (list Z) :=
  match s with
  | Title => Some (v_title v)
  | CellSGR => Some (v_cellFlags v)
  | CellTextUtf32 =>
      Some (if v_mouseInside v
            then join_with (bytes " ") (map (fun c => bytes "U+" ++ padded 0x30 4 (hex_digits 8 c)) (v_cellText32 v))
            else [])
  | CellTextUtf8 => Some (if v_mouseInside v then escape (v_cellText v) Hex else [])
  | Clock => Some (v_clock v)
  | HistoryLineCount =>
      if negb (v_primaryScreen v) then Some []
      else if negb (v_scrollOffset v =? 0) then
        let pct := double_div (double_of (v_scrollOffset v)) (double_of (v_historyLineCount v)) in
        p ← cast_int (double_mul pct (double_of 100));
        Some (to_string (v_scrollOffset v) ++ bytes "/" ++ to_string (v_historyLineCount v) ++ bytes " "
              ++ padded 0x20 3 (to_string p) ++ bytes "%")
      else Some (to_string (v_historyLineCount v))
  | Hyperlink => Some (default [] (v_hyperlink v))
  | InputMode => Some (modeString (v_inputMode v))
  | ProtectedMode => Some (if v_allowInput v then [] else bytes " (PROTECTED)")
  | TraceMode =>
      Some (bytes "TRACING" ++
            match v_pendingSequences v with
            | [] => []
            | front :: _ => bytes " (#" ++ to_string (Z.of_nat (length (v_pendingSequences v))) ++ bytes "): " ++ front
            end)
  | SearchMode =>
      Some (if negb (length (v_searchPattern v) =? 0)%nat || v_editingSearch v then bytes " SEARCH" else [])
  | SearchPrompt =>
      Some (if v_editingSearch v then bytes "Search: " ++ v_searchPattern v ++ [0xE2; 0x96; 0x88] else [])
  | Command command =>
      Some (match v_runCommand v command with inl output => first_line output | inr error => error end)
  | PlainText text => Some text
  | VTTypeName => Some (VTType_name (v_terminalId v))
  | Tabs activeColor activeBackground =>
      Some (join_with (bytes " ") (map (fun position => tab_text activeColor activeBackground (v_activeTab v) (Z.of_nat position))
                                     (seq 1 (v_tabCount v))))
  end.

(** One item.  The test for [Text] compares with a reference type and never holds. *)
Definition serialize_item (v : StatusValues) (styling : bool) (item : Item) : option (list Z) :=
  text ← visit v (item_shown item);
  Some (match text with
        | [] => []
        | _ =>
            (if styling then SGRSAVE ++ applyStyles (item_styles item) else [])
            ++ textLeft (item_styles item) ++ text ++ textRight (item_styles item)
            ++ (if styling then SGRRESTORE else [])
        end).
Definition serializeToVT (v : StatusValues) (segment : list Item) (styling : bool) : option (list Z) :=
  mjoin <$> mapM (serialize_item v styling) segment.

(** ** Descriptions written out *)

(** Attributes of a placeholder: flags, and keys with values. *)
Inductive Attr := AFlag (name : list Z) | AKey (key value : list Z).
Definition attr_text (a : Attr) : list Z :=
  match a with AFlag name => name | AKey key value => key ++ 0x3D :: value end.
Definition without (c : Z) (s : list Z) : Prop := Forall (fun x => x <> c) s.
Definition attr_ok (a : Attr) : Prop :=
  attr_text a <> [] /\ without 0x2C (attr_text a) /\ without 0x7D (attr_text a) /\
  match a with AFlag name => without 0x3D name | AKey key _ => without 0x3D key end.
Definition apply_attr (i : string_interpolation) (a : Attr) : string_interpolation :=
  match a with
  | AFlag name => mkInterpolation (ip_name i) ({[name]} ∪ ip_flags i) (ip_attributes i)
  | AKey key value => mkInterpolation (ip_name i) (ip_flags i) (<[key := value]> (ip_attributes i))
  end.

Inductive Part := PText (text : list Z) | PPlaceholder (name : list Z) (attrs : list Attr).
Definition inside (name : list Z) (attrs : list Attr) : list Z :=
  name ++ match attrs with [] => [] | _ => 0x3A :: join 0x2C (map attr_text attrs) end.
Definition part_text (p : Part) : list Z :=
  match p with
  | PText text => text
  | PPlaceholder name attrs => 0x7B :: inside name attrs ++ [0x7D]
  end.
Definition part_ok (p : Part) : Prop :=
  match p with
  | PText text => text <> [] /\ without 0x7B text
  | PPlaceholder name attrs => without 0x3A name /\ without 0x7D name /\ Forall attr_ok attrs
  end.
(** Two texts in a row would be one. *)
Fixpoint separated (ps : list Part) : Prop :=
  match ps with
  | PText _ :: (PText _ :: _) => False
  | _ :: ps => separated ps
  | [] => True
  end.
Definition part_fragment (p : Part) : fragment :=
  match p with
  | PText text => Literal text
  | PPlaceholder name attrs => Placeholder (foldl apply_attr (mkInterpolation name ∅ ∅) attrs)
  end.

Lemma parse_attribute_ok i a : attr_ok a -> parse_attribute i (attr_text a) = apply_attr i a.
Proof.
  intros (_ & _ & _ & Hk). unfold parse_attribute. destruct a as [name|key value]; cbn [attr_text].
  - by rewrite (proj2 (find_None _ _)).
  - rewrite find_app by done. by destruct (cut_app key 0x3D value) as [-> ->].
Qed.
Lemma parse_attributes_ok fuel i attrs : Forall attr_ok attrs ->
  (length (join 0x2C (map attr_text attrs)) <= fuel)%nat ->
  parse_attributes fuel (join 0x2C (map attr_text attrs)) i = foldl apply_attr i attrs.
Proof.
  intros Ha. revert fuel i. induction Ha as [|a attrs Ha Has IH]; intros fuel i Hf; [by destruct fuel|].
  pose proof Ha as (Hne & Hc & _). destruct attrs as [|b attrs].
  - cbn [map join foldl] in *. destruct (attr_text a) as [|x t] eqn:Et; [done|]. destruct fuel; [simpl in Hf; lia|].
    cbn [parse_attributes]. rewrite (proj2 (find_None _ _)) by done. rewrite <- Et. by apply parse_attribute_ok.
  - change (join 0x2C (map attr_text (a :: b :: attrs)))
      with (attr_text a ++ 0x2C :: join 0x2C (map attr_text (b :: attrs))) in *.
    rewrite length_app, length_cons in Hf. destruct fuel as [|fuel]; [lia|].
    destruct (attr_text a ++ 0x2C :: join 0x2C (map attr_text (b :: attrs))) as [|x t] eqn:Et;
      [by destruct (attr_text a)|].
    cbn [parse_attributes]. rewrite <- Et, find_app by done.
    destruct (cut_app (attr_text a) 0x2C (join 0x2C (map attr_text (b :: attrs)))) as [-> ->].
    rewrite parse_attribute_ok by done. apply IH. lia.
Qed.
Lemma parse_interpolation_ok name attrs : without 0x3A name -> Forall attr_ok attrs ->
  parse_interpolation (inside name attrs) = foldl apply_attr (mkInterpolation name ∅ ∅) attrs.
Proof.
  intros Hn Ha. unfold parse_interpolation, inside. destruct attrs as [|a attrs].
  - rewrite app_nil_r. by rewrite (proj2 (find_None _ _)).
  - rewrite find_app by done. cbv zeta. destruct (cut_app name 0x3A (join 0x2C (map attr_text (a :: attrs)))) as [-> ->].
    by apply parse_attributes_ok.
Qed.

Lemma join_without c d parts : c <> d -> Forall (without c) parts -> without c (join d parts).
Proof.
  intros Hd. induction 1 as [|p parts Hp Hps IH]; [constructor|]. destruct parts as [|q parts]; [done|].
  change (join d (p :: q :: parts)) with (p ++ d :: join d (q :: parts)). apply Forall_app. split; [done|].
  by constructor.
Qed.
Lemma inside_closed name attrs : without 0x7D name -> Forall attr_ok attrs -> without 0x7D (inside name attrs).
Proof.
  intros Hn Ha. apply Forall_app. split; [done|]. destruct attrs as [|a attrs]; [constructor|].
  constructor; [done|]. apply join_without; [done|]. apply Forall_fmap. eapply Forall_impl; [exact Ha|].
  by intros x (_ & _ & Hx & _).
Qed.

(** A placeholder behind a text without braces. *)
Lemma parse_placeholder fuel before name attrs rest :
  without 0x7B before -> part_ok (PPlaceholder name attrs) ->
  parse_fragments (S fuel) (before ++ part_text (PPlaceholder name attrs) ++ rest) =
    (match before with [] => [] | t => [Literal t] end) ++
    part_fragment (PPlaceholder name attrs) :: parse_fragments fuel rest.
Proof.
  intros Hb (Hn & Hc & Ha). cbn [part_text]. set (body := inside name attrs).
  pose proof (inside_closed name attrs Hc Ha) as Hbody. fold body in Hbody.
  destruct (before ++ (0x7B :: body ++ [0x7D]) ++ rest) as [|x t] eqn:Et; [by destruct before|].
  cbn [parse_fragments]. rewrite <- Et. clear x t Et. cbn [app]. rewrite find_app by done.
  rewrite take_app_length, (drop_app_length before). f_equal; [by destruct before|]. cbn [find Z.eqb Pos.eqb].
  replace ((body ++ [0x7D]) ++ rest) with (body ++ 0x7D :: rest) by (by rewrite <- app_assoc).
  rewrite find_app by done. cbn [fmap option_fmap option_map].
  rewrite (proj2 (cut_app before 0x7B (body ++ 0x7D :: rest))).
  replace (S (length body) - 1)%nat with (length body) by lia. rewrite take_app_length.
  unfold body at 1. rewrite parse_interpolation_ok by done. f_equal. f_equal.
  replace (before ++ 0x7B :: body ++ 0x7D :: rest) with ((before ++ 0x7B :: body) ++ 0x7D :: rest)
    by (by rewrite <- app_assoc).
  replace (S (length before + S (length body))) with (S (length (before ++ 0x7B :: body)))
    by (rewrite length_app; simpl; lia).
  by rewrite (proj2 (cut_app (before ++ 0x7B :: body) 0x7D rest)).
Qed.

Lemma parse_parts ps : Forall part_ok ps -> separated ps -> forall fuel,
  (length (mjoin (part_text <$> ps)) <= fuel)%nat ->
  parse_fragments fuel (mjoin (part_text <$> ps)) = part_fragment <$> ps.
Proof.
  remember (length ps) as n eqn:En. revert ps En. induction (lt_wf n) as [n _ IH]. intros ps -> Hok Hsep fuel Hf.
  destruct ps as [|[text|name attrs] ps]; [by destruct fuel| |].
  - apply Forall_cons in Hok as [[Hne Hb] Hok]. destruct ps as [|[text'|name attrs] ps].
    + cbn [fmap list_fmap mjoin list_join part_text] in *. rewrite app_nil_r in *.
      destruct text as [|x text]; [done|]. destruct fuel; [simpl in Hf; lia|].
      cbn [parse_fragments]. by rewrite (proj2 (find_None _ _)).
    + done.
    + apply Forall_cons in Hok as [Hp Hok].
      change (mjoin (part_text <$> PText text :: PPlaceholder name attrs :: ps))
        with (text ++ part_text (PPlaceholder name attrs) ++ mjoin (part_text <$> ps)) in *.
      rewrite !length_app in Hf. destruct fuel as [|fuel]; [simpl in Hf; lia|].
      rewrite parse_placeholder by done. destruct text as [|x text]; [done|].
      rewrite (IH (length ps)); [done|simpl; lia|done|done|done|]. simpl in Hf. lia.
  - apply Forall_cons in Hok as [Hp Hok].
    change (mjoin (part_text <$> PPlaceholder name attrs :: ps))
      with ([] ++ part_text (PPlaceholder name attrs) ++ mjoin (part_text <$> ps)) in *.
    rewrite !length_app in Hf. destruct fuel as [|fuel]; [simpl in Hf; lia|].
    rewrite parse_placeholder by (done || constructor).
    rewrite (IH (length ps)); [done|simpl; lia|done|done|done|]. simpl in Hf. lia.
Qed.

(** ** Descriptions of items *)

Inductive Described :=
| DText (text : list Z)
| DItem (shown : Shown) (chosen : list (list Z)) (fg bg : option RGBColor) (lft rgt : list Z).

Definition shown_name (s : Shown) : list Z :=
  match s with
  | CellSGR => bytes "CellSGR" | CellTextUtf32 => bytes "CellTextUTF32" | CellTextUtf8 => bytes "CellTextUTF8"
  | Clock => bytes "Clock" | Command _ => bytes "Command" | HistoryLineCount => bytes "HistoryLineCount"
  | Hyperlink => bytes "Hyperlink" | InputMode => bytes "InputMode" | ProtectedMode => bytes "ProtectedMode"
  | SearchMode => bytes "SearchMode" | SearchPrompt => bytes "SearchPrompt" | PlainText _ => bytes "Text"
  | Title => bytes "Title" | TraceMode => bytes "TraceMode" | VTTypeName => bytes "VTType" | Tabs _ _ => bytes "Tabs"
  end.
Definition color_attr (key : string) (c : option RGBColor) : list Attr :=
  match c with Some c => [AKey (bytes key) (hash_text c)] | None => [] end.
Definition text_attr (key : string) (t : list Z) : list Attr :=
  match t with [] => [] | _ => [AKey (bytes key) t] end.
Definition shown_attrs (s : Shown) : list Attr :=
  match s with
  | Command command => [AKey (bytes "Program") command]
  | PlainText text => [AKey (bytes "text") text]
  | Tabs activeColor activeBackground =>
      color_attr "ActiveColor" activeColor ++ color_attr "ActiveBackground" activeBackground
  | _ => []
  end.
Definition described_attrs (s : Shown) (chosen : list (list Z)) (fg bg : option RGBColor) (lft rgt : list Z)
  : list Attr :=
  map AFlag chosen ++ color_attr "Color" fg ++ color_attr "BackgroundColor" bg ++ text_attr "Left" lft
  ++ text_attr "Right" rgt ++ shown_attrs s.
Definition described_part (d : Described) : Part :=
  match d with
  | DText text => PText text
  | DItem s chosen fg bg lft rgt => PPlaceholder (shown_name s) (described_attrs s chosen fg bg lft rgt)
  end.
(** The text of a description. *)
Definition described_text (ds : list Described) : list Z := mjoin (part_text <$> (described_part <$> ds)).
Definition described_item (d : Described) : Item :=
  match d with
  | DText text => mkItem Styles_init (PlainText text)
  | DItem s chosen fg bg lft rgt =>
      mkItem (mkStyles fg bg (chosen_flags (fun name => bool_decide (name ∈ chosen))) lft rgt) s
  end.

(** A value has neither a comma nor a closing brace. *)
Definition value_ok (t : list Z) : Prop := without 0x2C t /\ without 0x7D t.
Definition color_ok (c : option RGBColor) : Prop := forall x, c = Some x -> RGB_ok x.
Definition shown_ok (s : Shown) : Prop :=
  match s with
  | Command t | PlainText t => value_ok t
  | Tabs a b => color_ok a /\ color_ok b
  | _ => True
  end.
Definition described_ok (d : Described) : Prop :=
  match d with
  | DText text => text <> [] /\ without 0x7B text
  | DItem s chosen fg bg lft rgt =>
      shown_ok s /\ Forall (fun name => name ∈ FlagMappings.*1) chosen /\ color_ok fg /\ color_ok bg /\
      value_ok lft /\ value_ok rgt
  end.

(** The value that is in force behind a list of attributes. *)
Fixpoint last_value (k : list Z) (attrs : list Attr) : option (list Z) :=
  match attrs with
  | [] => None
  | a :: attrs =>
      match last_value k attrs with
      | Some v => Some v
      | None => match a with
                | AKey key value => if bool_decide (k = key) then Some value else None
                | AFlag _ => None
                end
      end
  end.
Lemma last_value_app k l1 l2 :
  last_value k (l1 ++ l2) = match last_value k l2 with Some v => Some v | None => last_value k l1 end.
Proof.
  induction l1 as [|a l1 IH]; cbn [app last_value]; [by destruct (last_value k l2)|].
  rewrite IH. by destruct (last_value k l2).
Qed.
Lemma last_value_flags k l : last_value k (map AFlag l) = None.
Proof. induction l as [|x l IH]; [done|]. cbn [map last_value]. by rewrite IH. Qed.
Lemma last_value_color k key c :
  last_value k (color_attr key c) = if bool_decide (k = bytes key) then hash_text <$> c else None.
Proof. destruct c; cbn [color_attr last_value]; by case_match. Qed.
Lemma last_value_text k key t :
  last_value k (text_attr key t) = if bool_decide (k = bytes key) then (match t with [] => None | _ => Some t end) else None.
Proof. destruct t; cbn [text_attr last_value]; by case_match. Qed.

Lemma fold_attrs attrs i :
  let j := foldl apply_attr i attrs in
  ip_name j = ip_name i /\
  (forall k, ip_attributes j !! k = match last_value k attrs with Some v => Some v | None => ip_attributes i !! k end) /\
  (forall name, name ∈ ip_flags j <-> AFlag name ∈ attrs \/ name ∈ ip_flags i).
Proof.
  revert i. induction attrs as [|a attrs IH]; intros i; cbn [foldl]; [set_solver|].
  destruct (IH (apply_attr i a)) as (-> & Hk & Hf). split; [by destruct a|]. split.
  - intros k. rewrite Hk. cbn [last_value]. destruct (last_value k attrs); [done|].
    destruct a as [name|key value]; [done|]. cbn [apply_attr ip_attributes].
    case_bool_decide as E; [subst; by rewrite lookup_insert_eq|by rewrite lookup_insert_ne].
  - intros name. rewrite Hf. destruct a as [n|key value]; cbn [apply_attr ip_flags]; set_solver.
Qed.

Ltac decide_names := repeat first [rewrite bool_decide_true by reflexivity | rewrite bool_decide_false by discriminate].

Lemma color_attribute i key c : color_ok c -> ip_attributes i !! bytes key = hash_text <$> c ->
  tryParseColorAttribute i (bytes key) = c.
Proof.
  intros Hc E. unfold tryParseColorAttribute. rewrite E. destruct c as [c|]; [|done].
  cbn [fmap option_fmap option_map mbind option_bind]. by destruct (parseColor_roundtrip c (Hc c eq_refl)) as (_ & -> & _).
Qed.

(** The value of a key among the attributes of a description. *)
Ltac described_value s :=
  unfold described_attrs;
  rewrite !last_value_app, !last_value_color, !last_value_text, last_value_flags; decide_names;
  destruct s; cbn [shown_attrs last_value]; rewrite ?last_value_app, ?last_value_color; decide_names.

Lemma described_style_values s chosen fg bg lft rgt :
  let value k := last_value (bytes k) (described_attrs s chosen fg bg lft rgt) in
  value "Color"%string = hash_text <$> fg /\ value "BackgroundColor"%string = hash_text <$> bg /\
  default [] (value "Left"%string) = lft /\ default [] (value "Right"%string) = rgt.
Proof.
  cbv zeta. split_and!.
  - described_value s; by destruct fg.
  - described_value s; by destruct bg.
  - described_value s; by destruct lft.
  - described_value s; by destruct rgt.
Qed.
Lemma described_flags s chosen fg bg lft rgt name :
  AFlag name ∈ described_attrs s chosen fg bg lft rgt <-> name ∈ chosen.
Proof.
  unfold described_attrs. rewrite !elem_of_app. split.
  - intros [(x & [= ->] & Hx)%list_elem_of_fmap|Hin]; [done|exfalso].
    assert (forall key c, AFlag name ∉ color_attr key c) as Hc.
    { intros key [c|]; [by intros [?|?%elem_of_nil]%elem_of_cons|by intros ?%elem_of_nil]. }
    assert (forall key t, AFlag name ∉ text_attr key t) as Ht.
    { intros key [|x t]; [by intros ?%elem_of_nil|by intros [?|?%elem_of_nil]%elem_of_cons]. }
    destruct Hin as [Hin|[Hin|[Hin|[Hin|Hin]]]];
      [by eapply Hc|by eapply Hc|by eapply Ht|by eapply Ht|].
    destruct s; cbn [shown_attrs] in Hin; rewrite ?elem_of_app in Hin; try (by apply elem_of_nil in Hin);
      try (by apply list_elem_of_singleton in Hin).
    destruct Hin as [Hin|Hin]; by eapply Hc.
  - intros Hx. left. apply list_elem_of_fmap. by exists name.
Qed.

Lemma chosen_flags_ext f g : (forall name, f name = g name) -> chosen_flags f = chosen_flags g.
Proof.
  intros E. unfold chosen_flags. generalize FlagMappings. generalize 0. intros z l. revert z.
  induction l as [|m l IH]; intros z; [done|]. cbn [foldl]. by rewrite E, IH.
Qed.

(** A placeholder of the trace mode, whose name the parser does not know. *)
Definition traces (d : Described) : bool := match d with DItem TraceMode _ _ _ _ _ => true | _ => false end.
Lemma trace_dropped chosen fg bg lft rgt :
  makeStatusLineItem (part_fragment (described_part (DItem TraceMode chosen fg bg lft rgt))) = Some None.
Proof.
  cbn [described_part part_fragment makeStatusLineItem].
  destruct (fold_attrs (described_attrs TraceMode chosen fg bg lft rgt) (mkInterpolation (shown_name TraceMode) ∅ ∅)) as (Hn & _).
  set (i := foldl apply_attr _ _) in *. clearbody i. enough (shown_of i = Some None) as -> by done.
  unfold shown_of, is_name. rewrite Hn. cbn [shown_name ip_name]. by decide_names.
Qed.

(** Any other placeholder with these attributes makes the item described. *)
Lemma described_made s chosen fg bg lft rgt : described_ok (DItem s chosen fg bg lft rgt) -> s <> TraceMode ->
  makeStatusLineItem (part_fragment (described_part (DItem s chosen fg bg lft rgt))) =
    Some (Some (described_item (DItem s chosen fg bg lft rgt))).
Proof.
  intros (Hs & _ & Hfg & Hbg & _) Htrace. cbn [described_part part_fragment described_item makeStatusLineItem].
  destruct (described_style_values s chosen fg bg lft rgt) as (Vf & Vb & Vl & Vr).
  pose proof (described_flags s chosen fg bg lft rgt) as Hfl.
  set (attrs := described_attrs s chosen fg bg lft rgt) in *.
  destruct (fold_attrs attrs (mkInterpolation (shown_name s) ∅ ∅)) as (Hn & Hk & Hf).
  set (i := foldl apply_attr _ attrs) in *. clearbody i. cbn [ip_name ip_attributes ip_flags] in *.
  assert (forall k, ip_attributes i !! k = last_value k attrs) as Hv.
  { intros k. rewrite Hk, lookup_empty. by destruct (last_value k attrs). }
  assert (styles_of i = mkStyles fg bg (chosen_flags (fun name => bool_decide (name ∈ chosen))) lft rgt) as ->.
  { unfold styles_of. f_equal; [by apply color_attribute; [|rewrite Hv]|by apply color_attribute; [|rewrite Hv]| |by rewrite Hv|by rewrite Hv].
    apply chosen_flags_ext. intros name. apply bool_decide_ext. rewrite Hf, Hfl. set_solver. }
  enough (shown_of i = Some (Some s)) as -> by done.
  unfold shown_of, is_name. rewrite Hn. unfold attrs in Hv.
  destruct s; cbn [shown_name]; decide_names; try done.
  - rewrite Hv. unfold described_attrs. by rewrite !last_value_app.
  - rewrite Hv. unfold described_attrs. by rewrite !last_value_app.
  - destruct Hs as [Ha Hb]. do 3 f_equal; apply color_attribute; try done; rewrite Hv; unfold described_attrs;
      rewrite !last_value_app, !last_value_color, !last_value_text, last_value_flags; cbn [shown_attrs];
      rewrite last_value_app, !last_value_color; decide_names.
    + by destruct activeBackground, activeColor.
    + by destruct activeBackground.
Qed.

Lemma hex2_free v : byte v -> without 0x2C (hex2 v) /\ without 0x7D (hex2 v).
Proof.
  intros Hv. unfold byte in Hv. unfold without, hex2, hex_digit.
  assert (0 <= v / 16 < 16) by (Z.div_mod_to_equations; lia). assert (0 <= v mod 16 < 16) by (Z.div_mod_to_equations; lia).
  split; (apply Forall_cons; split; [case_match; lia|]); apply Forall_singleton; case_match; lia.
Qed.
Lemma hash_free c : RGB_ok c -> value_ok (hash_text c).
Proof.
  intros (Hr & Hg & Hb). destruct (hex2_free _ Hr), (hex2_free _ Hg), (hex2_free _ Hb).
  split; unfold hash_text; (apply Forall_app; split; [by repeat constructor|]); repeat (apply Forall_app; split); done.
Qed.
(** A key of letters with a value. *)
Lemma key_ok key value : bytes key <> [] -> forallb (fun c => (0x41 <=? c) && (c <=? 0x7A)) (bytes key) = true ->
  value_ok value -> attr_ok (AKey (bytes key) value).
Proof.
  intros Hne Hk [Hc Hb]. assert (Forall (fun c => 0x41 <= c <= 0x7A) (bytes key)) as Hf.
  { apply Forall_forall. intros c Hin%list_elem_of_In. eapply forallb_forall in Hk; [|done]. lia. }
  assert (forall d, d < 0x41 \/ 0x7A < d -> without d (bytes key)) as Hw.
  { intros d Hd. eapply Forall_impl; [exact Hf|]. simpl. lia. }
  cbn [attr_ok attr_text]. split_and!; [by destruct (bytes key)| | |apply Hw; lia];
    (apply Forall_app; split; [apply Hw; lia|by constructor]).
Qed.
Lemma color_attr_ok key c : bytes key <> [] -> forallb (fun c => (0x41 <=? c) && (c <=? 0x7A)) (bytes key) = true ->
  color_ok c -> Forall attr_ok (color_attr key c).
Proof.
  intros Hne Hk Hc. destruct c as [c|]; [|constructor]. apply Forall_singleton, key_ok; [done..|].
  by apply hash_free, Hc.
Qed.
Lemma text_attr_ok key t : bytes key <> [] -> forallb (fun c => (0x41 <=? c) && (c <=? 0x7A)) (bytes key) = true ->
  value_ok t -> Forall attr_ok (text_attr key t).
Proof. intros Hne Hk Ht. destruct t; [constructor|]. by apply Forall_singleton, key_ok. Qed.
Lemma flag_ok name : name ∈ FlagMappings.*1 -> attr_ok (AFlag name).
Proof.
  intros Hin. assert (Forall (fun name => attr_ok (AFlag name)) FlagMappings.*1) as Hf.
  { unfold FlagMappings. cbn [fmap list_fmap fst].
    repeat (apply Forall_cons; split; [split_and!; [discriminate|by repeat constructor..]|]). constructor. }
  by eapply Forall_forall in Hf.
Qed.
Lemma described_part_ok d : described_ok d -> part_ok (described_part d).
Proof.
  destruct d as [text|s chosen fg bg lft rgt]; [done|]. intros (Hs & Hch & Hfg & Hbg & Hl & Hr).
  cbn [described_part part_ok]. split_and!.
  - destruct s; by repeat constructor.
  - destruct s; by repeat constructor.
  - unfold described_attrs. repeat (apply Forall_app; split).
    + apply Forall_fmap. eapply Forall_impl; [exact Hch|]. apply flag_ok.
    + by apply color_attr_ok.
    + by apply color_attr_ok.
    + by apply text_attr_ok.
    + by apply text_attr_ok.
    + destruct s; cbn [shown_attrs]; try constructor; try (by apply key_ok); try (by constructor).
      destruct Hs. apply Forall_app. split; by apply color_attr_ok.
Qed.

(** C24: A description of a status line - texts without an opening brace that do not follow each
    other, and placeholders with flags, colours, left and right texts and values that contain
    neither a comma nor a closing brace - written out as text is read as exactly the items
    described, in order and with their styles, but for the placeholders of the trace mode:
    {TraceMode} is dropped, because the parser has no such name (trace_not_named). *)
Theorem status_line_read_back ds :
  Forall described_ok ds -> separated (described_part <$> ds) ->
  parseStatusLineSegment (described_text ds) = Some (described_item <$> List.filter (fun d => negb (traces d)) ds).
Proof.
  intros Hok Hsep. unfold parseStatusLineSegment, parse_interpolated_string, described_text.
  rewrite parse_parts; [|by apply Forall_fmap; eapply Forall_impl; [exact Hok|apply described_part_ok]|done|done].
  clear Hsep. induction Hok as [|d ds Hd Hds IH]; [done|].
  cbn [fmap list_fmap make_items] in *. destruct d as [text|s chosen fg bg lft rgt].
  - cbn [described_part part_fragment makeStatusLineItem mbind option_bind]. by rewrite IH.
  - assert (s = TraceMode \/ s <> TraceMode) as [->|Hs] by (destruct s; first [by left|by right]).
    + rewrite trace_dropped. cbn [mbind option_bind]. by rewrite IH.
    + rewrite described_made by done. cbn [mbind option_bind]. rewrite IH. by destruct s.
Qed.

Lemma status_line_read_back_witness :
  parseStatusLineSegment (bytes "< {Clock:Bold,Italic,Color=#FFFF00} | {VTType}") =
  Some [mkItem Styles_init (PlainText (bytes "< "));
        mkItem (mkStyles (Some (mkRGB 255 255 0)) None (Z.lor CellFlag.Bold CellFlag.Italic) [] []) Clock;
        mkItem Styles_init (PlainText (bytes " | ")); mkItem Styles_init VTTypeName].
Proof.
  apply (status_line_read_back
    [DText (bytes "< "); DItem Clock [bytes "Bold"; bytes "Italic"] (Some (mkRGB 255 255 0)) None [] [];
     DText (bytes " | "); DItem VTTypeName [] None None [] []]).
  - repeat (apply Forall_cons; split; [|]); [split; [discriminate|by repeat constructor]| | | |constructor].
    + split_and!; [done| |intros x [= <-]; unfold RGB_ok, byte; simpl; lia|done|split; constructor|split; constructor].
      repeat (apply Forall_cons; split; [|]); [by left|by right; right; left|constructor].
    + split; [discriminate|by repeat constructor].
    + split_and!; [done|constructor|done|done|split; constructor|split; constructor].
  - done.
Defined.

(** Without styling an item that shows something is its text between the left and the right text. *)
Lemma serialize_plain v item text : visit v (item_shown item) = Some text -> text <> [] ->
  serialize_item v false item = Some (textLeft (item_styles item) ++ text ++ textRight (item_styles item)).
Proof. intros E Hne. unfold serialize_item. rewrite E. destruct text; [done|]. simpl. by rewrite app_nil_r. Qed.

(** The sequence for a dotted underline is the one for a plain underline, and
    the one for a double underline is the one for a dotted underline. *)
Example underlines_swapped :
  flag_sequences CellFlag.DottedUnderline = sgr_of (bytes "4:1") /\ underline_style 1 = Underline /\
  flag_sequences CellFlag.DoublyUnderlined = sgr_of (bytes "4:4") /\ underline_style 4 = DottedUnderline.
Proof. by vm_compute. Qed.
(** A placeholder that is not closed keeps its brace in its name, and shows nothing. *)
Example unclosed_placeholder :
  parse_interpolated_string (bytes "a{Clock") = [Literal (bytes "a"); Placeholder (mkInterpolation (bytes "{Clock") ∅ ∅)].
Proof. vm_compute. reflexivity. Qed.
(** There is an item for tracing, but no name for it; a text without its attribute throws. *)
Example trace_not_named : parseStatusLineSegment (bytes "{TraceMode}") = Some [].
Proof. vm_compute. reflexivity. Qed.
Example text_throws : parseStatusLineSegment (bytes "{Text}") = None.
Proof. vm_compute. reflexivity. Qed.
(** Colours have no names. *)
Example color_name_ignored :
  parseStatusLineSegment (bytes "{Clock:Color=Yellow}") = Some [mkItem Styles_init Clock].
Proof. vm_compute. reflexivity. Qed.
