(* ===== verification/Bindings.v ===== *)
(** * Input bindings (src/vtbackend/MatchModes.h, InputBinding.h, src/contour/Config.h, TerminalSession.cpp)

    A binding maps an input with modifiers to actions, in the modes it asks
    for: each of seven modes of the terminal must be on, must be off, or does
    not matter.  The configuration builds the modes flag by flag.

    Proved: a binding applies exactly in the states its modes describe, the last
    word on each flag counting, and the first binding that applies is taken. *)
From Stdlib Require Import String.
From stdpp Require Import list.
From S2P Require Import Prelude Color.

(** ** MatchModes *)

Inductive ModeFlag := AlternateScreen | AppCursor | AppKeypad | Insert | Select | Search | Trace.
#[export] Instance ModeFlag_eq_dec : EqDecision ModeFlag.
Proof. solve_decision. Defined.
Definition ModeFlag_value (f : ModeFlag) : Z :=
  match f with
  | AlternateScreen => 0x01 | AppCursor => 0x02 | AppKeypad => 0x04 | Insert => 0x08 | Select => 0x10
  | Search => 0x20 | Trace => 0x40
  end.
Inductive Status := AnyStatus | Enabled | Disabled.

Record MatchModes := mkModes { _enabled : Z; _disabled : Z }.
Definition MatchModes_init : MatchModes := mkModes 0 0.

(** [v & ~flag], as a byte. *)
Definition clear_bits (v flag : Z) : Z := u8 (Z.land v (Z.lnot flag)).
Definition has_bits (v flag : Z) : bool := negb (Z.land v flag =? 0).

Definition status (m : MatchModes) (flag : ModeFlag) : Status :=
  if has_bits (_enabled m) (ModeFlag_value flag) then Enabled
  else if has_bits (_disabled m) (ModeFlag_value flag) then Disabled
  else AnyStatus.
Definition enable (flag : ModeFlag) (m : MatchModes) : MatchModes :=
  mkModes (Z.lor (_enabled m) (ModeFlag_value flag)) (clear_bits (_disabled m) (ModeFlag_value flag)).
Definition disable (flag : ModeFlag) (m : MatchModes) : MatchModes :=
  mkModes (clear_bits (_enabled m) (ModeFlag_value flag)) (Z.lor (_disabled m) (ModeFlag_value flag)).
Definition has_value (m : MatchModes) (flag : ModeFlag) : bool :=
  has_bits (_enabled m) (ModeFlag_value flag) || has_bits (_disabled m) (ModeFlag_value flag).
Definition clear (flag : ModeFlag) (m : MatchModes) : MatchModes :=
  mkModes (clear_bits (_enabled m) (ModeFlag_value flag)) (clear_bits (_disabled m) (ModeFlag_value flag)).
Definition reset (m : MatchModes) : MatchModes := mkModes 0 0.
Definition any (m : MatchModes) : bool := negb (_enabled m =? 0) || negb (_disabled m =? 0).
Definition hashcode (m : MatchModes) : Z := u16 (Z.lor (Z.shiftl (_enabled m) 8) (_disabled m)).
Definition modes_eq (a b : MatchModes) : bool := hashcode a =? hashcode b.

(** The formatter. *)
Definition mode_texts : list (ModeFlag * list Z) :=
  [(AppCursor, bytes "AppCursor"); (AppKeypad, bytes "AppKeypad"); (AlternateScreen, bytes "AltScreen");
   (Insert, bytes "Insert"); (Select, bytes "Select"); (Search, bytes "Search"); (Trace, bytes "Trace")].
Definition advance (m : MatchModes) (s : list Z) (entry : ModeFlag * list Z) : list Z :=
  match status m entry.1 with
  | AnyStatus => s
  | st => s ++ (match s with [] => [] | _ => bytes "|" end)
            ++ (match st with Disabled => bytes "~" | _ => [] end) ++ entry.2
  end.
Definition modes_to_string (m : MatchModes) : list Z :=
  match foldl (advance m) [] mode_texts with [] => bytes "Any" | s => s end.

(** ** Bindings *)

Definition testMatchMode (actual : Z) (expected : MatchModes) (flag : ModeFlag) : bool :=
  match status expected flag with
  | Enabled => has_bits actual (ModeFlag_value flag)
  | Disabled => negb (has_bits actual (ModeFlag_value flag))
  | AnyStatus => true
  end.
Definition testMatchModes (actual : Z) (expected : MatchModes) : bool :=
  testMatchMode actual expected AlternateScreen && testMatchMode actual expected AppCursor &&
  testMatchMode actual expected AppKeypad && testMatchMode actual expected Select &&
  testMatchMode actual expected Insert && testMatchMode actual expected Search &&
  testMatchMode actual expected Trace.

(** The session's state in the flags, and [matchModeFlags]. *)
Definition matchModeFlags (state : ModeFlag -> bool) : Z :=
  foldl (fun flags flag => if state flag then Z.lor flags (ModeFlag_value flag) else flags) 0
    [AlternateScreen; AppCursor; AppKeypad; Select; Insert; Search; Trace].

Section Bindings.
Context {Input Actions : Type} `{EqDecision Input}.

Record InputBinding := mkBinding { modes : MatchModes; modifiers : Z; input : Input; binding : Actions }.

Definition match_binding (b : InputBinding) (m : MatchModes) (mods : Z) (i : Input) : bool :=
  modes_eq (modes b) m && (modifiers b =? mods) && bool_decide (input b = i).
Definition binding_eq (a b : InputBinding) : bool :=
  modes_eq (modes a) (modes b) && (modifiers a =? modifiers b) && bool_decide (input a = input b).
Definition binding_ne (a b : InputBinding) : bool := negb (binding_eq a b).

Fixpoint apply (mappings : list InputBinding) (i : Input) (mods actual : Z) : option Actions :=
  match mappings with
  | [] => None
  | mapping :: mappings =>
      if (modifiers mapping =? mods) && bool_decide (input mapping = i) && testMatchModes actual (modes mapping)
      then Some (binding mapping) else apply mappings i mods actual
  end.
End Bindings.
Arguments InputBinding : clear implicits.

(** ** What the modes mean *)

Definition all_flags : list ModeFlag := [AlternateScreen; AppCursor; AppKeypad; Insert; Select; Search; Trace].
Lemma all_flags_all f : f ∈ all_flags.
Proof. apply list_elem_of_In. destruct f; simpl; auto 10. Qed.

Inductive Setting := MustBeOn (f : ModeFlag) | MustBeOff (f : ModeFlag) | DoesNotMatter (f : ModeFlag).
Definition setting_flag (s : Setting) : ModeFlag := match s with MustBeOn f | MustBeOff f | DoesNotMatter f => f end.
Definition perform (m : MatchModes) (s : Setting) : MatchModes :=
  match s with MustBeOn f => enable f m | MustBeOff f => disable f m | DoesNotMatter f => clear f m end.
(** Whether a state is one that the settings describe, as far as a flag goes. *)
Definition wanted (settings : list Setting) (f : ModeFlag) (on : bool) : bool :=
  match list_find (fun s => setting_flag s = f) (reverse settings) with
  | Some (_, MustBeOn _) => on
  | Some (_, MustBeOff _) => negb on
  | _ => true
  end.

(** Both words are bytes of disjoint flags. *)
Definition modes_ok (m : MatchModes) : Prop :=
  0 <= _enabled m < 128 /\ 0 <= _disabled m < 128 /\ Z.land (_enabled m) (_disabled m) = 0.

Definition status_eqb (a b : Status) : bool :=
  match a, b with AnyStatus, AnyStatus | Enabled, Enabled | Disabled, Disabled => true | _, _ => false end.
(** What an operation does to the status of every flag, checked on every state. *)
Definition checked (e d : Z) : bool :=
  let m := mkModes e d in
  negb (Z.land e d =? 0) ||
  forallb (fun f =>
    forallb (fun '(m', st) =>
      (0 <=? _enabled m') && (_enabled m' <? 128) && (0 <=? _disabled m') && (_disabled m' <? 128) &&
      (Z.land (_enabled m') (_disabled m') =? 0) &&
      forallb (fun g => status_eqb (status m' g) (if bool_decide (g = f) then st else status m g)) all_flags)
      [(enable f m, Enabled); (disable f m, Disabled); (clear f m, AnyStatus)]) all_flags.
Lemma operations_checked : forallb (fun e => forallb (checked e) (seqZ 0 128)) (seqZ 0 128) = true.
Proof. vm_compute. reflexivity. Qed.

Definition setting_status (s : Setting) : Status :=
  match s with MustBeOn _ => Enabled | MustBeOff _ => Disabled | DoesNotMatter _ => AnyStatus end.
Lemma perform_ok m s : modes_ok m -> modes_ok (perform m s) /\
  forall g, status (perform m s) g = if bool_decide (g = setting_flag s) then setting_status s else status m g.
Proof.
  intros (He & Hd & Hl). destruct m as [e d]. simpl in *.
  pose proof (for_all_below2 128 128 checked operations_checked e d He Hd) as Hc. unfold checked in Hc.
  rewrite Hl in Hc. cbn [Z.eqb negb orb] in Hc.
  pose proof (proj1 (forallb_forall _ _) Hc (setting_flag s) (proj1 (list_elem_of_In _ _) (all_flags_all _))) as Hf.
  cbv beta in Hf. assert (forall m' st,
    In (m', st) [(enable (setting_flag s) (mkModes e d), Enabled); (disable (setting_flag s) (mkModes e d), Disabled);
                 (clear (setting_flag s) (mkModes e d), AnyStatus)] ->
    modes_ok m' /\ forall g, status m' g = if bool_decide (g = setting_flag s) then st else status (mkModes e d) g) as Hall.
  { intros m' st Hin. pose proof (proj1 (forallb_forall _ _) Hf _ Hin) as Hm. cbv beta iota in Hm.
    apply andb_true_iff in Hm as [Hm Hg]. split; [unfold modes_ok; lia|]. intros g.
    pose proof (proj1 (forallb_forall _ _) Hg g (proj1 (list_elem_of_In _ _) (all_flags_all g))) as Hs.
    cbv beta in Hs. destruct (status m' g), (if bool_decide (g = setting_flag s) then st else _); done. }
  destruct s as [f|f|f]; apply Hall; simpl; auto.
Qed.

Lemma built_ok settings : let m := foldl perform MatchModes_init settings in
  modes_ok m /\ forall f, status m f =
    match list_find (fun s => setting_flag s = f) (reverse settings) with
    | Some (_, s) => setting_status s | None => AnyStatus
    end.
Proof.
  induction settings as [|s settings [Hm Hs]] using rev_ind; [split; [done|by intros []]|].
  rewrite foldl_app. cbn [foldl]. destruct (perform_ok _ s Hm) as [Hok Hst]. split; [done|]. intros f.
  rewrite Hst, Hs, reverse_app. cbn [reverse rev_append app list_find].
  destruct (decide (setting_flag s = f)) as [<-|Hne]; [by rewrite bool_decide_true|].
  rewrite bool_decide_false by congruence. by destruct (list_find _ _) as [[]|].
Qed.

Lemma flags_state state f : has_bits (matchModeFlags state) (ModeFlag_value f) = state f.
Proof.
  unfold matchModeFlags. cbn [foldl].
  destruct f, (state AlternateScreen) eqn:?, (state AppCursor) eqn:?, (state AppKeypad) eqn:?, (state Select) eqn:?,
    (state Insert) eqn:?, (state Search) eqn:?, (state Trace) eqn:?; congruence || reflexivity.
Qed.

(** Modes that are built setting by setting match exactly the states in which
    every flag is as its last setting wants it. *)
Lemma modes_match settings state :
  testMatchModes (matchModeFlags state) (foldl perform MatchModes_init settings) =
    forallb (fun f => wanted settings f (state f)) all_flags.
Proof.
  destruct (built_ok settings) as [_ Hs].
  assert (forall f, testMatchMode (matchModeFlags state) (foldl perform MatchModes_init settings) f =
    wanted settings f (state f)) as Ht.
  { intros f. unfold testMatchMode, wanted. rewrite Hs, flags_state. by destruct (list_find _ _) as [[? []]|]. }
  unfold testMatchModes. rewrite !Ht. cbn [all_flags forallb]. rewrite andb_true_r, !andb_assoc.
  f_equal. f_equal. rewrite <- !andb_assoc. do 3 f_equal. apply andb_comm.
Qed.

(** The first binding that applies is taken. *)
Lemma apply_first {Input Actions} `{EqDecision Input} (mappings : list (InputBinding Input Actions)) i mods actual a :
  apply mappings i mods actual = Some a <->
  exists before b after, mappings = before ++ b :: after /\ binding b = a /\
    modifiers b = mods /\ input b = i /\ testMatchModes actual (modes b) = true /\
    Forall (fun c => ~ (modifiers c = mods /\ input c = i /\ testMatchModes actual (modes c) = true)) before.
Proof.
  induction mappings as [|m mappings IH]; cbn [apply].
  { split; [done|]. intros ([|] & ? & ? & ? & _); done. }
  destruct ((modifiers m =? mods) && bool_decide (input m = i) && testMatchModes actual (modes m)) eqn:E.
  - apply andb_true_iff in E as [[E1%Z.eqb_eq E2%bool_decide_eq_true]%andb_true_iff E3]. split.
    + intros [= <-]. by exists [], m, mappings.
    + intros (before & b & after & Eb & <- & _ & _ & _ & Hn). destruct before as [|c before]; [by simplify_eq/=|].
      simplify_eq/=. apply Forall_cons in Hn as [Hn _]. by destruct Hn.
  - rewrite IH. split.
    + intros (before & b & after & -> & Hr & Hm & Hi & Ht & Hn). exists (m :: before), b, after.
      split_and!; [done..|]. constructor; [|done]. intros (E1 & E2 & E3).
      by rewrite E1, Z.eqb_refl, bool_decide_true, E3 in E.
    + intros (before & b & after & Eb & Hr & Hm & Hi & Ht & Hn). destruct before as [|c before]; simplify_eq/=.
      * by rewrite Z.eqb_refl, bool_decide_true, Ht in E.
      * apply Forall_cons in Hn as [_ Hn]. by exists before, b, after.
Qed.

(** Modes that the configuration clears on the way. *)
Example binding_modes :
  modes_to_string (foldl perform MatchModes_init [MustBeOn Insert; MustBeOff Select; DoesNotMatter Insert; MustBeOn AppCursor])
  = bytes "AppCursor|~Select".
Proof. vm_compute. reflexivity. Qed.
